(* ===== verification/_CoqProject ===== *)
-Q . S2P
Prelude.v
RecordUpdate.v
Operation.v
CString.v
CyclicQueue.v
TimerQueue.v
G711.v
StringTable.v
TextStream.v
TextStreamTheory.v
TextValues.v
FloatValue.v
SynthValues.v
StartLine.v
StartLineTheory.v
HeaderSection.v
TextMessage.v
TextMessageTheory.v
GenericHeader.v
GenericHeaderTheory.v
MrcpMessage.v
HeaderFields.v
RecorderResource.v
VerifierResource.v
SynthResource.v
RecogResource.v
ResourceNames.v
MrcpMessageTheory.v
MrcpRoundtrip.v
ResourceRoundtrip.v
ResourceParams.v
RtspStartLine.v
RtspLineTheory.v
RtspHeader.v
RtspHeaderTheory.v
RtspMessage.v
RtspRoundtrip.v
RtspMessageTheory.v
StateMachine.v
StateMachineTheory.v
RtspServer.v
RtspServerTheory.v
RtspSystem.v
RtspServerErrors.v
RtspReceive.v
CodecDescriptor.v
SessionDescriptor.v
ServerSession.v
ServerAccount.v
ServerSessionTheory.v
ServerDispatch.v
ServerReplies.v
ServerSystem.v
ServerSessionCases.v
MpfContext.v
MpfObjects.v
MpfContextTheory.v
MpfEngineTheory.v
RecogMachine.v
RecogMachineTheory.v
RecogTrace.v
SynthMachine.v
SynthMachineTheory.v
RecorderMachine.v
RecorderRefinement.v
VerifierMachine.v
VerifierMachineTheory.v
AliResource.v
AliChannel.v
AliChannelTheory.v
AliEngine.v
AliEngineTheory.v
Detector.v
JitterBuffer.v
JitterBufferTheory.v
JitterPlayout.v
AliPlugin.v
AliPluginTheory.v
RecogServer.v
RecogServerTheory.v
