(* ===== verification/Prelude.v ===== *)
(** * A verification of UniMRCP and of its Ali recognizer plugin: messages of
    MRCP and RTSP, state machines, media buffers, the media engine, the plugin,
    the sessions of the MRCP server and the RTSP server

    ** The program

    UniMRCP is a server and a client of the Media Resource Control Protocol:
    a client asks the server for speech recognition, synthesis, recording or
    verification.  From the network inwards (paths are below [src/libs]):
    - [mpf] is the media: a jitter buffer puts the packets of the network in
      order, codecs turn their bytes into samples, a detector finds speech; the
      media engine has a context per session, in which terminations of the network
      and of the engines hear each other through bridges, multipliers and mixers;
    - [apr-toolkit] reads and writes text protocols: string tables, text
      streams, header sections, and a parser and a generator of messages that
      arrive in segments; it also has the queues and timers of the tasks;
    - [mrcp] is the protocol on top: start-lines, the generic header,
      messages, resources, and the handlers that plug MRCP messages into the
      parser and the generator;
    - [mrcp-engine] has one state machine per resource.  It stands between the
      client and the engine plugin: it orders the requests, holds back those
      that have to wait, and completes the responses and events of the engine;
    - [mrcp-server] has the sessions: it answers offers with the help of the
      control connections, the media engine and the engines, and carries messages
      between the client, the state machine and the plugin;
    - [uni-rtsp] carries MRCPv1: messages of RTSP, and a server with connections
      and sessions;
    - [src/plugins/Alirecog] is an engine plugin: its task answers requests, the
      media thread feeds a pool of channels, each with a thread that hands the
      audio to a speech service and collects the results;
    - [mrcp-signaling] has the descriptors of offers and answers;
    - [mrcpv2-transport], [mrcp-client], the modules, the other plugins and the
      platforms carry connections, client sessions, engines and configuration.

    ** The files

    - [Prelude]: outcomes of C code ([res]: a value or undefined behaviour),
      machine integers, lemmas on lists and integers, the tactics.
    - [RecordUpdate]: assignments to the fields of a record.
    - [Operation]: operations that change a state, may fault and act on others,
      with the rules of total correctness that the servers are verified with.
    - [CString]: C strings and the C library functions; [apt_string.h].
    - [CyclicQueue]: [apt_cyclic_queue.c], an array with two indices.
    - [TimerQueue]: [apt_timer_queue.c], a sorted ring of timers; the procedure
      of a timer is the list of the calls it makes.
    - [G711]: the codecs of [g711.h] and [mpf_codec_g711.c].
    - [StringTable]: [apt_string_table.c].
    - [TextStream], [TextStreamTheory], [TextValues], [FloatValue]:
      [apt_text_stream.c].  A stream is a memory object with a cursor; a store
      outside the object is a fault.
    - [HeaderSection]: [apt_header_field.c].  A ring of header fields and an
      array of pointers to them, as a store of locations.
    - [TextMessage], [TextMessageTheory]: [apt_text_message.c].  The handlers of
      a protocol are a record of functions, the message an instance of the
      class [MessageContext].
    - [StartLine], [StartLineTheory]: [mrcp_start_line.c].
    - [GenericHeader], [GenericHeaderTheory]: [mrcp_generic_header.c] and
      [apt_pair.c].
    - [MrcpMessage], [MrcpMessageTheory], [MrcpRoundtrip]: [mrcp_header.c],
      [mrcp_header_accessor.c], [mrcp_message.c], [mrcp_resource_factory.c] and
      [mrcp_stream.c].  The header of a resource is a type [R] with its vtable.
    - [RecogResource], [SynthResource] with [SynthValues], [RecorderResource],
      [VerifierResource]: the headers and names of the four resources
      ([src/libs/mrcp/resources]); [HeaderFields] and [ResourceRoundtrip]: a
      header as a list of typed values, the class [HeaderSpec] that the four
      implement, and the theorems about every such header; [ResourceParams],
      [ResourceNames].
    - [RtspStartLine], [RtspHeader], [RtspMessage] with [RtspLineTheory],
      [RtspHeaderTheory], [RtspRoundtrip], [RtspMessageTheory]: the messages of
      [uni-rtsp].
    - [RtspServer]: [rtsp_server.c], connections and sessions as a store;
      [RtspServerTheory]: a queue of requests per session, what the server
      promises; [RtspSystem], [RtspServerErrors], [RtspReceive].
    - [CodecDescriptor], [SessionDescriptor]: [mpf_codec_descriptor.c],
      [mrcp_session_descriptor.c], [mrcp_control_descriptor.c].
    - [ServerSession]: [mrcp_server_session.c], all of a session;
      [ServerAccount]: what a session waits for; [ServerSessionTheory],
      [ServerDispatch], [ServerReplies]: the operations, the messages and the
      answers keep the account; [ServerSystem]: runs of a session with those it
      asks; [ServerSessionCases].
    - [MpfContext]: [mpf_context.c], [mpf_termination.c] and the requests of
      [mpf_engine.c]; [MpfObjects]: a tick of [mpf_bridge.c], [mpf_multiplier.c]
      and [mpf_mixer.c]; [MpfContextTheory]: the invariant of a context and its
      objects; [MpfEngineTheory]: the graph that a context implements, and the
      answers of the engine.  The streams are the class [AudioStreams].
    - [StateMachine], [StateMachineTheory]: [mrcp_state_machine.h],
      [apt_obj_list.c] and what the machines share.  A handler is a function of
      the state that may fault and lists the calls of the dispatchers.  The
      class [SafeMachine] is the contract between a machine and its runs.
    - [RecogMachine], [RecogMachineTheory], [RecogTrace]:
      [mrcp_recog_state_machine.c].  [RecogTrace] describes what one update
      sends, whether or not it faults.
    - [SynthMachine], [SynthMachineTheory]: [mrcp_synth_state_machine.c].
    - [RecorderMachine], [RecorderRefinement]: [mrcp_recorder_state_machine.c].
    - [VerifierMachine], [VerifierMachineTheory]:
      [mrcp_verifier_state_machine.c].
    - [AliResource]: the requests to the speech service and its results
      ([Ali_RecogResource.cpp], [Ali_RecogRecognizer.cpp],
      [Ali_RecogTranscriber.cpp]).
    - [AliChannel], [AliChannelTheory]: [Ali_RecogChannel.cpp]; the thread of a
      channel is a step relation interleaved with the calls of the others.
    - [AliEngine], [AliEngineTheory]: the pools and the engine
      ([Ali_RecogChannelFactory.cpp], [Ali_RecogResourceFactory.cpp],
      [Ali_RecogEngine.cpp]).
    - [Detector]: [mpf_activity_detector.c].
    - [JitterBuffer], [JitterBufferTheory], [JitterPlayout]:
      [mpf_jitter_buffer.c], an array of frames indexed by timestamps.
    - [AliPlugin], [AliPluginTheory]: [Ali_recog_engine.cpp], on top of the
      engine and the detector.
    - [RecogServer], [RecogServerTheory]: one recognizer channel of a session
      ([mrcp_server_session.c]) with the machine, the plugin, the engine and the
      queues between their tasks.

    Definitions have the names of the C functions; what C changes in place is
    passed and returned.  Pointers are [option]s, and a pointer the code
    dereferences without a test is read with [deref].

    ** The theorems

    - Reading and writing text: a keyed search of a string table is the
      case-insensitive search; lines and header fields are read as they were
      written; the checked insertions never leave the buffer; scrolling keeps
      what was not read.
    - Header sections: every operation keeps the array in step with the ring,
      and the section refines a finite map from identifiers to fields.
    - Messages: parsing ends on every input; header sections, start-lines, the
      generic header and whole MRCPv2 messages are read back from the text that
      is generated for them, whatever follows in the stream; a body may arrive
      in any segments; the length in an MRCPv2 start-line counts the message
      and its own digits.
    - State machines: for every sequence of messages and deactivations no
      handler dereferences NULL, given an engine that answers a request with
      its own method; each request is handed on or answered, once; pending
      requests are started in order and dropped as STOP selects; the recorder
      refines an abstract machine on message identifiers.
    - Queues and timers: the cyclic queue refines a list; advancing the timers
      ends, whatever the procedures set and kill, and fires what is due.
    - Media: the jitter buffer neither faults nor exceeds its maximal delay,
      and refines a timeline: packets that come in time are played completely
      and in order, however they were reordered, and a marked packet after
      silence starts the timeline anew; the codecs lose at most a
      32nd of a sample and give back every code; the detector reports speech
      and silence when the audio justifies it.
    - The plugin: its channels belong to one session at a time, their threads
      never fault when they are started in turn, the audio reaches the service
      in order, the results are read in order; each request gets one response
      and a frame sends events of the request in progress only; the one fault is
      an audio frame without samples.
    - The server channel, all of these together: whatever the interleaving of
      the tasks, responses go to the client in turn, to the end of the run or up
      to a crash, whose causes are named; and a turn of the tasks answers what is
      open.
    - Resource headers: the fields that a client fills in are those that the
      server reads, floats to the digits that are sent; parameters of a session reach later requests; no name of a
      method, event, field or cause is taken for another.
    - RTSP: messages are read back from the text that is generated for them; the
      server never uses a session or connection that was destroyed before the
      agent refuses the first request of a session, refines a queue of requests
      per session until then, and its receive loop ends.
    - Sessions of the MRCP server: in any order of messages and answers nothing
      faults and the count of a session is what it waits for; messages are
      answered once each, in order; a session that waits for nothing is not in
      the middle of an offer or of its termination.  The comparison of codec
      lists is the comparison of the enabled descriptors, and the intersection
      of two lists enables what matches.
    - The media engine: it answers what a session asks in the way the session
      expects, its contexts keep exact counters and implement a graph of
      terminations, and the objects it makes for a topology, where the codecs allow
      all of them, carry the associations of that graph; a mixer writes the sum of its sources.
    - Where the code departs from this: the events that make the synthesizer
      dereference NULL, the request that is never answered, the list that is
      written incomplete, the identifiers that are printed negative or
      truncated, the Content-Length that makes the parser store outside the
      body; the response that is lost and the completion that is sent twice;
      the stop that a thread misses, the channels that are given back too early
      or never; the timer that is lost at the end of the clock; the packets
      that overwrite waiting audio, and the audio that survives a restart; the
      RTSP session that is destroyed and stays in its table, the refused request
      that blocks its session, the ports of the server that are stored as those
      of the client, the reason phrase that is cut, the volume that loses its
      sign; the control message that stops a session for good, and the unknown
      resource that shifts the channels of a session; the association that is
      carried twice, and the mixed samples that wrap around.

    ** Bounds and fuel

    The loops of the parsers run on the length of what is left of the text,
    which each round shortens, so the fuel [length] suffices
    ([section_parse_total] in [TextMessageTheory]); the digit loop has fuel 20,
    the digits of a 64-bit number.  Advancing the timers has one round per
    timer of the ring and one more, which is proved to be enough; the loop over
    the frames of a packet has one round per byte, and takes a byte or more in
    each.  Receiving of RTSP text has one turn per character and one more
    ([receive_loop_ends] in [RtspReceive]); the dispatcher of a session one turn
    per message that waits and one more ([dispatch_loop_spec] in
    [ServerDispatch]).  A media context has at most 255 places, so that its byte
    counters are exact; the server makes contexts of 5.  [unsigned int] is 32 bits
    wide, [size_t] and [long] 64.  [apr_snprintf] is the class [AprFormat] with a
    reference instance, and the printing of floats with six decimals the class
    [AprFloat].

    ** Not modelled

    Memory pools never fail and are not modelled; logging has no effect.  The
    speech service and what it answers are parameters, as are the agent of the
    RTSP server, whether those whom a server session asks take the request, the
    functions of a termination, and whether an object of a topology can be made of
    the codecs of its streams.
    Dispatchers of the state machines are recorded, so an update that a
    dispatcher starts again from the queue of the server session is a later
    update; in [RecogServer] the client waits for each response, so that this
    queue stays empty.  The client sessions, the RTSP client, SIP, sockets, RTP
    and the tasks of the media engine, the detection of tones (floating
    point), the other plugins and the configuration (XML) are not modelled: they
    call libraries that are not part of the sources, or set up what is modelled
    here. *)
From Stdlib Require Export ZArith Lia Ascii.
From stdpp Require Export base strings gmap numbers list.

(** ** Outcomes of C code

    [Ok a] is a run that returns [a]; [Fault] is a run that reaches undefined
    behaviour: a NULL pointer dereference or an access outside the object a
    pointer points into. *)
Inductive res (A : Type) : Type :=
| Ok (a : A)
| Fault.
Arguments Ok {A} a.
Arguments Fault {A}.

#[export] Instance res_ret : MRet res := λ A a, Ok a.
#[export] Instance res_bind : MBind res := λ A B f m,
  match m with Ok a => f a | Fault => Fault end.

(** The value behind a pointer that the code dereferences without a test. *)
Definition deref {A} (p : option A) : res A :=
  match p with Some a => Ok a | None => Fault end.

Definition is_ok {A} (m : res A) : bool :=
  match m with Ok _ => true | Fault => false end.

Lemma res_bind_ok {A B} (m : res A) (f : A → res B) (b : B) :
  (m ≫= f) = Ok b ↔ ∃ a, m = Ok a ∧ f a = Ok b.
Proof. destruct m as [a|]; simpl; naive_solver. Qed.

Lemma deref_ok {A} (p : option A) (a : A) : deref p = Ok a ↔ p = Some a.
Proof. destruct p; naive_solver. Qed.

(** ** Machine integers: an unsigned w-bit integer is a [Z] in [0, 2^w). *)
Definition wrap_u (w z : Z) : Z := z mod 2 ^ w.
Definition wrap_s (w z : Z) : Z := (z + 2 ^ (w - 1)) mod 2 ^ w - 2 ^ (w - 1).

Declare Scope cint_scope.
Delimit Scope cint_scope with cint.
Notation "'u32'" := (wrap_u 32) : cint_scope.
Notation "'i32'" := (wrap_s 32) : cint_scope.
Notation "'usz'" := (wrap_u 64) : cint_scope.
Open Scope cint_scope.

Lemma wrap_u_range (w z : Z) : (0 ≤ w → 0 ≤ wrap_u w z < 2 ^ w)%Z.
Proof. intros. apply Z.mod_pos_bound. lia. Qed.

Lemma wrap_u_small (w z : Z) : (0 ≤ z < 2 ^ w → wrap_u w z = z)%Z.
Proof. apply Z.mod_small. Qed.

Lemma wrap_s_small (w z : Z) :
  (0 < w → - 2 ^ (w - 1) ≤ z < 2 ^ (w - 1) → wrap_s w z = z)%Z.
Proof.
  intros Hw Hz. unfold wrap_s.
  assert (2 ^ w = 2 * 2 ^ (w - 1))%Z by (rewrite <- Z.pow_succ_r by lia; f_equal; lia).
  rewrite Z.mod_small; lia.
Qed.

Lemma wrap_u_wrap_s (w z : Z) : (0 < w → wrap_u w (wrap_s w z) = wrap_u w z)%Z.
Proof.
  intros Hw. unfold wrap_u, wrap_s.
  rewrite Zminus_mod_idemp_l. f_equal. lia.
Qed.

Lemma filter_Forall {A} (P Q : A → Prop) `{∀ x, Decision (P x)} (l : list A) :
  Forall Q l → Forall Q (filter P l).
Proof. rewrite !Forall_forall. intros HQ x [_ Hx]%list_elem_of_filter. by apply HQ. Qed.
