(* ===== verification/RecordUpdate.v ===== *)
(** * RecordUpdate: assignments to the fields of a record.

    [x <| f := v |>] is the record [x] with [v] in its field [f], as the C
    assignment [x->f = v] leaves it.  A record type declares its constructor
    and its fields once, with [settable!]. *)
From S2P Require Import Prelude.

(** A record rebuilt from its fields. *)
Class Settable (T : Type) := rebuild : T → T.

Definition lift_const {E A : Type} (a : A) : E → A := λ _, a.
Definition lift_app {E A B : Type} (f : E → A → B) (a : E → A) : E → B := λ e, f e (a e).

Notation "'settable!' mk < f1 ; .. ; fn >" :=
  (lift_app .. (lift_app (lift_const mk) f1) .. fn)
  (at level 0, mk at level 10, f1, fn at level 9, only parsing).

(** The assignment to one field: the field is replaced where [rebuild] reads it. *)
Class Assign {T A : Type} (field : T → A) := assign : A → T → T.

Ltac solve_assign :=
  match goal with
  | |- @Assign ?T ?A ?field =>
      let inst := constr:(_ : Settable T) in
      let eta := eval red in inst in
      match eval pattern field in eta with
      | ?body _ =>
          let r := eval cbv beta delta [lift_app lift_const] in
            (λ (v : A) (x : T), body (λ _ : T, v) x) in
          exact r
      end
  end.
#[export] Hint Extern 1 (Assign _) => solve_assign : typeclass_instances.

Notation "x <| f := v |>" := (assign (field := f) v x)
  (at level 12, f at next level, left associativity).
