(* ===== verification/Operation.v ===== *)
(** * Operation: operations of a component that change its state, may fault, and
    act on other components, with the rules of total correctness for them. *)
From S2P Require Import Prelude.

(** An operation on a state of type [S]; [O] are the actions that it takes. *)
Definition operation (S O A : Type) : Type := S → res (A * S * list O).

#[export] Instance operation_ret {S O} : MRet (operation S O) := λ A a s, Ok (a, s, []).
#[export] Instance operation_bind {S O} : MBind (operation S O) := λ A B f m s,
  '(a, s, o) ← m s; '(b, s, o') ← f a s; Ok (b, s, o ++ o').

Section Operations.
  Context {S O : Type}.
  Implicit Types (s : S) (o : list O).

Definition ask {A} (f : S → A) : operation S O A := λ s, Ok (f s, s, []).
Definition change (f : S → S) : operation S O unit := λ s, Ok (tt, f s, []).
Definition try {A} (x : res A) : operation S O A := λ s, a ← x; Ok (a, s, []).
Definition emit (a : O) : operation S O unit := λ s, Ok (tt, s, [a]).

(** ** Total correctness

    [wp m Q s]: started in [s], the operation does not fault, and [Q] holds of its
    result, the state after it and what it did. *)
Definition wp {A} (m : operation S O A) (Q : A → S → list O → Prop) (s : S) : Prop :=
  ∃ a s' o, m s = Ok (a, s', o) ∧ Q a s' o.

Lemma wp_ret {A} (a : A) Q s : Q a s [] → wp (mret a) Q s.
Proof. intros HQ. by exists a, s, []. Qed.

Lemma wp_bind {A B} (m : operation S O A) (f : A → operation S O B) Q s :
  wp m (λ a s' o, wp (f a) (λ b s'' o', Q b s'' (o ++ o')) s') s → wp (m ≫= f) Q s.
Proof.
  intros (a & s1 & o & Hm & b & s2 & o' & Hf & HQ). exists b, s2, (o ++ o').
  unfold mbind, operation_bind. rewrite Hm. cbn [mbind res_bind]. by rewrite Hf.
Qed.

Lemma wp_unbind {A B} (m : operation S O A) (f : A → operation S O B) Q s :
  wp (m ≫= f) Q s → wp m (λ a s' o, wp (f a) (λ b s'' o', Q b s'' (o ++ o')) s') s.
Proof.
  intros (b & s2 & o & Hm & HQ). unfold mbind, operation_bind in Hm.
  destruct (m s) as [[[a s1] o1]|] eqn:Ha; [|done]. cbn [mbind res_bind] in Hm.
  destruct (f a s1) as [[[b' s3] o3]|] eqn:Hf; [|done]. simplify_eq/=.
  exists a, s1, o1. split; [done|]. by exists b, s2, o3.
Qed.

Lemma wp_mono {A} (m : operation S O A) (Q Q' : A → S → list O → Prop) s :
  wp m Q s → (∀ a s' o, Q a s' o → Q' a s' o) → wp m Q' s.
Proof. intros (a & s1 & o & Hm & HQ) Himp. exists a, s1, o. auto. Qed.

Lemma wp_ask {A} (f : S → A) Q s : Q (f s) s [] → wp (ask f) Q s.
Proof. intros HQ. by exists (f s), s, []. Qed.

Lemma wp_change f Q s : Q tt (f s) [] → wp (change f) Q s.
Proof. intros HQ. by exists tt, (f s), []. Qed.

Lemma wp_emit a Q s : Q tt s [a] → wp (emit a) Q s.
Proof. intros HQ. by exists tt, s, [a]. Qed.

Lemma wp_try {A} (x : res A) a Q s : x = Ok a → Q a s [] → wp (try x) Q s.
Proof. intros -> HQ. by exists a, s, []. Qed.

(** ** Results of sequences *)

Lemma bind_result {A B} (m : operation S O A) (f : A → operation S O B) s b s' o :
  (m ≫= f) s = Ok (b, s', o) →
  ∃ a s1 o1 o2, m s = Ok (a, s1, o1) ∧ f a s1 = Ok (b, s', o2) ∧ o = o1 ++ o2.
Proof.
  unfold mbind, operation_bind. destruct (m s) as [[[a s1] o1]|] eqn:Hm; [|done]. cbn [mbind res_bind].
  destruct (f a s1) as [[[b' s2] o2]|] eqn:Hf; [|done]. cbn [mbind res_bind]. intros [= <- <- <-].
  exists a, s1, o1, o2. by split_and!.
Qed.

(** What the operation leaves as it is, when it returns. *)
Definition steady {A X} (f : S → X) (m : operation S O A) : Prop :=
  ∀ s a s' o, m s = Ok (a, s', o) → f s' = f s.

Lemma steady_bind {A B X} (f : S → X) (m : operation S O A) (g : A → operation S O B) :
  steady f m → (∀ a, steady f (g a)) → steady f (m ≫= g).
Proof.
  intros Hm Hg s b s' o (a & s1 & o1 & o2 & E1 & E2 & _)%bind_result. etrans; [by eapply Hg|by eapply Hm].
Qed.
Lemma steady_ret {A X} (f : S → X) (a : A) : steady f (mret a).
Proof. intros s b s' o E. by injection E as <- <- <-. Qed.
Lemma steady_ask {A X} (f : S → X) (g : S → A) : steady f (ask g).
Proof. intros s b s' o E. by injection E as <- <- <-. Qed.
Lemma steady_try {A X} (f : S → X) (x : res A) : steady f (try x).
Proof. intros s b s' o E. unfold try in E. destruct x; [|done]. by injection E as <- <- <-. Qed.
Lemma steady_emit {X} (f : S → X) (a : O) : steady f (emit a).
Proof. intros s b s' o E. by injection E as <- <- <-. Qed.
Lemma steady_change {X} (f : S → X) (g : S → S) : (∀ s, f (g s) = f s) → steady f (change g).
Proof. intros Hg s b s' o E. injection E as <- <- <-. apply Hg. Qed.

Lemma fault_bind {A B} (m : operation S O A) (f : A → operation S O B) s : m s = Fault → (m ≫= f) s = Fault.
Proof. intros Hm. unfold mbind, operation_bind. by rewrite Hm. Qed.

Lemma fault_after {A B} (m : operation S O A) (f : A → operation S O B) a s s' o :
  m s = Ok (a, s', o) → f a s' = Fault → (m ≫= f) s = Fault.
Proof. intros Hm Hf. unfold mbind, operation_bind. rewrite Hm. cbn [mbind res_bind]. by rewrite Hf. Qed.

Lemma bind_after {A B} (m : operation S O A) (f : A → operation S O B) a s s' o :
  m s = Ok (a, s', o) → (m ≫= f) s = '(b, s'', o') ← f a s'; Ok (b, s'', o ++ o').
Proof. intros Hm. unfold mbind, operation_bind. rewrite Hm. done. Qed.

Lemma bind_pure {A B} (m : operation S O A) (f : A → operation S O B) a s s' :
  m s = Ok (a, s', []) → (m ≫= f) s = f a s'.
Proof. intros Hm. rewrite (bind_after _ _ _ _ _ _ Hm). by destruct (f a s') as [[[b s''] o]|]. Qed.

End Operations.

(** Leaves an operation step by step. *)
Ltac steady_step :=
  first [ assumption | apply steady_ret | apply steady_ask | apply steady_try | apply steady_emit
        | (apply steady_change; intros ?; reflexivity) | (apply steady_bind; [|intros ?]) ].
