(* ===== verification/CString.v ===== *)
(** * CString: C strings, the C library functions the text code calls, and
    the length-counted strings of [apt_string.h].

    A [char] is an [ascii].  A non-NULL [char *] is the list of the characters
    from the pointer to the end of the object it points into; the character
    that follows the object is the terminating NUL the code keeps there, so a
    read at the end of the list gives NUL.  An [apt_str_t] is such a pointer
    (or NULL) with a separate length: functions that take the pointer alone
    ([atol], [strncasecmp], [strchr], [strstr]) see the characters beyond the
    length, as they do in C. *)
From S2P Require Import Prelude.

Abbreviation char := ascii.
Abbreviation cstr := (list ascii).

(** A string literal of the source. *)
Definition lit (s : string) : cstr := String.list_ascii_of_string s.

Definition NUL : char := "000"%char.
Definition APT_TOKEN_SP : char := " "%char.
Definition APT_TOKEN_HTAB : char := "009"%char.
Definition APT_TOKEN_CR : char := "013"%char.
Definition APT_TOKEN_LF : char := "010"%char.

(** ** The C library functions (in the C locale). *)

Definition code (c : char) : Z := Z.of_N (N_of_ascii c).
Definition chr (z : Z) : char := ascii_of_N (Z.to_N z).

Definition tolower (c : char) : char :=
  if decide (65 ≤ code c ≤ 90)%Z then chr (code c + 32) else c.

Definition isdigit (c : char) : bool := bool_decide (48 ≤ code c ≤ 57)%Z.

(** [isspace]: space, \t, \n, \v, \f, \r. *)
Definition isspace (c : char) : bool :=
  bool_decide (code c = 32 ∨ 9 ≤ code c ≤ 13)%Z.

(** The character at the pointer. *)
Definition hd_char (s : cstr) : char :=
  match s with c :: _ => c | [] => NUL end.

(** [strncasecmp(s1,s2,n) == 0]. *)
Fixpoint strncasecmp_eq (s1 s2 : cstr) (n : nat) : bool :=
  match n with
  | O => true
  | S n =>
      if decide (tolower (hd_char s1) = tolower (hd_char s2)) then
        if decide (hd_char s1 = NUL) then true
        else strncasecmp_eq (tail s1) (tail s2) n
      else false
  end.

(** [strchr(s,c)]: the offset of the first [c] before the terminator. *)
Fixpoint strchr (s : cstr) (c : char) : option nat :=
  match s with
  | [] => None
  | x :: s =>
      if decide (x = c) then Some 0
      else if decide (x = NUL) then None
      else S <$> strchr s c
  end.

(** [s == strstr(s,p)]: the first occurrence of [p] in [s] is at its start. *)
Definition strstr_at_start (s p : cstr) : bool :=
  bool_decide (take (length p) s = p).

Definition LONG_MAX : Z := 2 ^ 63 - 1.
Definition LONG_MIN : Z := - 2 ^ 63.

Fixpoint digits_value (acc : Z) (s : cstr) : Z :=
  match s with
  | c :: s => if isdigit c then digits_value (10 * acc + (code c - 48)) s else acc
  | [] => acc
  end.

Fixpoint skip_isspace (s : cstr) : cstr :=
  match s with
  | c :: s' => if isspace c then skip_isspace s' else s
  | [] => []
  end.

(** [atol], with the saturation of [strtol] on overflow. *)
Definition atol (s : cstr) : Z :=
  let s := skip_isspace s in
  let v := if decide (hd_char s = "-"%char) then (- digits_value 0 (tail s))%Z
           else if decide (hd_char s = "+"%char) then digits_value 0 (tail s)
           else digits_value 0 s in
  Z.max LONG_MIN (Z.min LONG_MAX v).

(** Decimal printing: ["%lu"] and ["%d"].  [log2 n + 1] bits bound the number
    of decimal digits of [n], so the fuel never runs out ([dec_u_value]). *)
Definition digit (z : Z) : char := chr (48 + z).

Fixpoint digits_aux (fuel : nat) (z : Z) : cstr :=
  match fuel with
  | O => []
  | S fuel =>
      if (z <? 10)%Z then [digit z]
      else digits_aux fuel (z / 10) ++ [digit (z mod 10)]
  end.

Definition dec_u (z : Z) : cstr := digits_aux (S (Z.to_nat (Z.log2 z))) z.
Definition dec_s (z : Z) : cstr :=
  if (z <? 0)%Z then "-"%char :: dec_u (- z) else dec_u z.

(** ** Length-counted strings: [apt_str_t] of [apt_string.h]. *)
Record apt_str_t := mk_str { buf : option cstr; len : nat }.

Definition str_of (s : cstr) : apt_str_t := mk_str (Some s) (length s).

(** The characters the string holds. *)
Definition chars (s : apt_str_t) : cstr := take (len s) (default [] (buf s)).

Definition apt_string_reset : apt_str_t := mk_str None 0.

Definition apt_string_is_empty (s : apt_str_t) : bool :=
  bool_decide (len s = 0).

Definition apt_string_set (src : option cstr) : apt_str_t :=
  mk_str src (match src with
              | Some s => default (length s) (strchr s NUL)
              | None => 0
              end).

Definition apt_string_assign_n (src : cstr) (n : nat) : apt_str_t :=
  mk_str (if decide (n = 0) then None else Some (take n src)) n.

Definition apt_string_assign (src : option cstr) : apt_str_t :=
  let n := len (apt_string_set src) in
  mk_str (if decide (n = 0) then None else take n <$> src) n.

Definition apt_string_copy (src : apt_str_t) : apt_str_t :=
  mk_str (if decide (len src = 0) then None else take (len src) <$> buf src) (len src).

(** [strncasecmp] of two string buffers; a NULL buffer would be dereferenced. *)
Definition bufcasecmp_eq (s1 s2 : apt_str_t) (n : nat) : bool :=
  strncasecmp_eq (default [] (buf s1)) (default [] (buf s2)) n.

Definition apt_string_compare (s1 s2 : apt_str_t) : bool :=
  if decide (len s1 ≠ len s2 ∨ len s1 = 0) then false
  else bufcasecmp_eq s1 s2 (len s1).

Definition apt_strings_compare (s1 s2 : apt_str_t) : bool :=
  if decide (len s1 ≠ len s2) then false
  else if decide (len s1 = 0) then true
  else bufcasecmp_eq s1 s2 (len s1).

(** ** Lemmas *)

Lemma code_range (c : char) : (0 ≤ code c < 256)%Z.
Proof. unfold code. pose proof (N_ascii_bounded c). lia. Qed.

Lemma code_chr (z : Z) : (0 ≤ z < 256)%Z → code (chr z) = z.
Proof. intros. unfold code, chr. rewrite N_ascii_embedding; lia. Qed.

Lemma chr_code (c : char) : chr (code c) = c.
Proof. unfold code, chr. rewrite N2Z.id. apply ascii_N_embedding. Qed.

Lemma code_inj (c d : char) : code c = code d → c = d.
Proof. intros H. rewrite <- (chr_code c), <- (chr_code d). by f_equal. Qed.

Lemma code_digit (z : Z) : (0 ≤ z < 10)%Z → code (digit z) = (48 + z)%Z.
Proof. intros. unfold digit. rewrite code_chr; lia. Qed.

Lemma isdigit_digit (z : Z) : (0 ≤ z < 10)%Z → isdigit (digit z) = true.
Proof. intros. apply bool_decide_eq_true. rewrite code_digit; lia. Qed.

Lemma isdigit_range (c : char) : isdigit c = true ↔ (48 ≤ code c ≤ 57)%Z.
Proof. apply bool_decide_eq_true. Qed.

(** Characters that are not digits, as a checkable side condition. *)
Lemma isdigit_neq (c d : char) : isdigit c = true → isdigit d = false → c ≠ d.
Proof. congruence. Qed.

Lemma isdigit_not_isspace (c : char) : isdigit c = true → isspace c = false.
Proof. rewrite isdigit_range. intros. apply bool_decide_eq_false. lia. Qed.

(** *** Case-insensitive comparison *)

(** Equality of two strings up to the case of letters. *)
Definition ci_eq (s1 s2 : cstr) : Prop := tolower <$> s1 = tolower <$> s2.
#[export] Instance ci_eq_dec s1 s2 : Decision (ci_eq s1 s2).
Proof. unfold ci_eq. apply _. Defined.
#[export] Instance ci_eq_equiv : Equivalence ci_eq.
Proof. unfold ci_eq. split; [done|intros ??; congruence|intros ???; congruence]. Qed.

Lemma ci_eq_length (s1 s2 : cstr) : ci_eq s1 s2 → length s1 = length s2.
Proof. intros H. apply (f_equal length) in H. by rewrite !length_fmap in H. Qed.

(** On strings of at least [n] characters, none of them NUL, [strncasecmp]
    compares the first [n] characters up to case. *)
Lemma strncasecmp_eq_spec (n : nat) (s1 s2 : cstr) :
  n ≤ length s1 → n ≤ length s2 → NUL ∉ take n s1 →
  strncasecmp_eq s1 s2 n = bool_decide (ci_eq (take n s1) (take n s2)).
Proof.
  revert s1 s2. induction n as [|n IH]; intros s1 s2 H1 H2 Hnul; [done|].
  destruct s1 as [|a s1], s2 as [|b s2]; simpl in H1, H2; try lia.
  simpl in Hnul. rewrite not_elem_of_cons in Hnul. destruct Hnul as [Ha Hnul].
  cbn [strncasecmp_eq take hd_char tail]. 
  case_decide as Hab.
  - case_decide; [by subst|]. rewrite IH by (done || lia).
    apply bool_decide_ext. unfold ci_eq. rewrite !fmap_cons, Hab.
    split; [by intros ->|by intros [= ?]].
  - symmetry. apply bool_decide_eq_false.
    unfold ci_eq. rewrite !fmap_cons. by intros [= ? _].
Qed.

(** *** Decimal numbers *)

Lemma digits_value_app (acc : Z) (s1 s2 : cstr) :
  Forall (λ c, isdigit c = true) s1 →
  digits_value acc (s1 ++ s2) = digits_value (digits_value acc s1) s2.
Proof.
  intros Hd. revert acc. induction Hd as [|c s1 Hc Hd IH]; intros acc; [done|].
  simpl. by rewrite Hc, IH.
Qed.

Lemma digits_value_nonneg (s : cstr) (acc : Z) :
  (0 ≤ acc)%Z → Forall (λ c, isdigit c = true) s → (0 ≤ digits_value acc s)%Z.
Proof.
  intros Hacc Hs. revert acc Hacc. induction Hs as [|c s Hc Hs IH]; intros acc Hacc; [done|].
  simpl. rewrite Hc. apply isdigit_range in Hc. apply IH. lia.
Qed.

Lemma digits_value_stop (acc : Z) (s : cstr) :
  isdigit (hd_char s) = false → digits_value acc s = acc.
Proof. destruct s as [|c s]; [done|]. simpl. by intros ->. Qed.

Lemma digits_aux_digits (fuel : nat) (z : Z) :
  (0 ≤ z)%Z → Forall (λ c, isdigit c = true) (digits_aux fuel z).
Proof.
  revert z. induction fuel as [|fuel IH]; intros z Hz; simpl; [constructor|].
  destruct (Z.ltb_spec z 10).
  - repeat constructor. apply isdigit_digit. lia.
  - apply Forall_app. split; [apply IH; apply Z.div_pos; lia|].
    repeat constructor. apply isdigit_digit. apply Z.mod_pos_bound. lia.
Qed.

Lemma digits_aux_value (fuel : nat) (z : Z) :
  (0 ≤ z < 2 ^ Z.of_nat fuel)%Z → digits_value 0 (digits_aux fuel z) = z.
Proof.
  revert z. induction fuel as [|fuel IH]; intros z Hz.
  - simpl in *. lia.
  - simpl. destruct (Z.ltb_spec z 10).
    + simpl. rewrite isdigit_digit, code_digit by lia. lia.
    + rewrite digits_value_app by (apply digits_aux_digits, Z.div_pos; lia).
      rewrite IH.
      * simpl. rewrite isdigit_digit, code_digit by (apply Z.mod_pos_bound; lia).
        pose proof (Z.div_mod z 10). lia.
      * split; [apply Z.div_pos; lia|].
        rewrite Nat2Z.inj_succ, Z.pow_succ_r in Hz by lia.
        apply Z.div_lt_upper_bound; lia.
Qed.

Lemma log2_fuel (z : Z) : (0 ≤ z)%Z → (z < 2 ^ Z.of_nat (S (Z.to_nat (Z.log2 z))))%Z.
Proof.
  intros Hz. rewrite Nat2Z.inj_succ, Z2Nat.id by apply Z.log2_nonneg.
  destruct (decide (z = 0%Z)) as [->|]; [done|].
  apply Z.log2_spec. lia.
Qed.

Lemma dec_u_value (z : Z) : (0 ≤ z)%Z → digits_value 0 (dec_u z) = z.
Proof. intros Hz. apply digits_aux_value. split; [done|]. by apply log2_fuel. Qed.

Lemma dec_u_digits (z : Z) : (0 ≤ z)%Z → Forall (λ c, isdigit c = true) (dec_u z).
Proof. apply digits_aux_digits. Qed.

Lemma dec_u_nonempty (z : Z) : dec_u z ≠ [].
Proof.
  unfold dec_u. simpl. destruct (z <? 10)%Z; [done|].
  by intros [_ ?]%app_eq_nil.
Qed.

Lemma skip_isspace_digit (s : cstr) :
  isdigit (hd_char s) = true → skip_isspace s = s.
Proof.
  destruct s as [|c s]; [done|]. simpl. intros Hc.
  by rewrite (isdigit_not_isspace c Hc).
Qed.

Lemma atol_digits (s rest : cstr) :
  s ≠ [] → Forall (λ c, isdigit c = true) s → isdigit (hd_char rest) = false →
  atol (s ++ rest) = Z.min LONG_MAX (digits_value 0 s).
Proof.
  intros Hne Hs Hrest. destruct s as [|c s]; [done|].
  unfold atol. rewrite skip_isspace_digit by (simpl; by inversion Hs).
  assert (Hv : digits_value 0 ((c :: s) ++ rest) = digits_value 0 (c :: s)).
  { rewrite digits_value_app by done. by apply digits_value_stop. }
  pose proof (digits_value_nonneg (c :: s) 0 ltac:(done) Hs) as Hpos.
  inversion Hs as [|?? Hc Hs']; subst.
  simpl hd_char. rewrite !decide_False by (by apply isdigit_neq).
  rewrite Hv. unfold LONG_MIN, LONG_MAX. lia.
Qed.

(** Printing then parsing an unsigned number gives the number back, as long as
    it fits a [long] and what follows it is not a digit. *)
Lemma atol_dec_u (z : Z) (rest : cstr) :
  (0 ≤ z ≤ LONG_MAX)%Z → isdigit (hd_char rest) = false →
  atol (dec_u z ++ rest) = z.
Proof.
  intros Hz Hrest. rewrite atol_digits; [|apply dec_u_nonempty|apply dec_u_digits; lia|done].
  rewrite dec_u_value; lia.
Qed.

(** *** Number of decimal digits *)

Lemma digits_aux_bounds (fuel : nat) (z : Z) :
  (0 ≤ z < 2 ^ Z.of_nat fuel)%Z → fuel ≠ 0 →
  let n := Z.of_nat (length (digits_aux fuel z)) in
  (1 ≤ n ∧ z < 10 ^ n ∧ (n = 1 ∨ 10 ^ (n - 1) ≤ z))%Z.
Proof.
  revert z. induction fuel as [|fuel IH]; intros z Hz Hf; [done|]. simpl.
  destruct (Z.ltb_spec z 10) as [Hlt|Hge]; simpl; [lia|].
  rewrite Nat2Z.inj_succ, Z.pow_succ_r in Hz by lia.
  assert (0 ≤ z / 10 < 2 ^ Z.of_nat fuel)%Z as Hq.
  { split; [apply Z.div_pos; lia|]. apply Z.div_lt_upper_bound; lia. }
  destruct (IH (z / 10)%Z Hq) as (H1 & Hu & Hl); [destruct fuel; simpl in *; lia|].
  rewrite length_app. simpl. rewrite Nat2Z.inj_add.
  set (n := Z.of_nat (length (digits_aux fuel (z / 10)))) in *.
  rewrite Z.pow_add_r by lia. pose proof (Z.div_mod z 10 ltac:(lia)).
  pose proof (Z.mod_pos_bound z 10 ltac:(lia)). split_and!; [lia|lia|]. right.
  replace (n + Z.of_nat 1 - 1)%Z with (Z.succ (n - 1)) by lia.
  rewrite Z.pow_succ_r by lia. destruct Hl as [->|Hl]; simpl; lia.
Qed.

(** The number of digits printed is the [n] with [10^(n-1) <= z < 10^n]. *)
Lemma dec_u_length (z n : Z) :
  (0 ≤ z)%Z → (1 ≤ n)%Z → (z < 10 ^ n)%Z → (n = 1 ∨ 10 ^ (n - 1) ≤ z)%Z →
  Z.of_nat (length (dec_u z)) = n.
Proof.
  intros Hz Hn Hu Hl.
  destruct (digits_aux_bounds (S (Z.to_nat (Z.log2 z))) z) as (Hn' & Hu' & Hl');
    [split; [done|by apply log2_fuel]|done|].
  change (digits_aux _ z) with (dec_u z) in *.
  set (m := Z.of_nat (length (dec_u z))) in *.
  destruct (Z.lt_trichotomy m n) as [Hlt|[He|Hlt]]; [exfalso|done|exfalso].
  - destruct Hl as [?|Hl]; [lia|].
    pose proof (Z.pow_le_mono_r 10 m (n - 1)). lia.
  - destruct Hl' as [?|Hl']; [lia|].
    pose proof (Z.pow_le_mono_r 10 n (m - 1)). lia.
Qed.

Lemma dec_u_length_bounds (z : Z) :
  (0 ≤ z)%Z → let n := Z.of_nat (length (dec_u z)) in
  (1 ≤ n ∧ z < 10 ^ n ∧ (n = 1 ∨ 10 ^ (n - 1) ≤ z))%Z.
Proof.
  intros Hz. apply digits_aux_bounds; [split; [done|by apply log2_fuel]|done].
Qed.

Lemma atol_dec_s (z : Z) (rest : cstr) :
  (LONG_MIN < z ≤ LONG_MAX)%Z → isdigit (hd_char rest) = false → atol (dec_s z ++ rest) = z.
Proof.
  intros Hz Hrest. unfold dec_s. destruct (Z.ltb_spec z 0) as [Hn|Hn].
  - unfold atol. simpl skip_isspace. simpl hd_char. rewrite decide_True by done. cbn [tail].
    simpl tail. rewrite digits_value_app by (apply dec_u_digits; lia).
    rewrite dec_u_value by lia. rewrite digits_value_stop by done.
    unfold LONG_MIN, LONG_MAX in *. lia.
  - apply atol_dec_u; [lia|done].
Qed.
