(* ===== verification/CyclicQueue.v ===== *)
(** * CyclicQueue: the cyclic queue of messages between tasks
    ([apt_cyclic_queue.c]).

    The array is a list of slots, [None] before a slot is written; a store or a
    load outside the array and a division by zero are faults.  The sizes are
    natural numbers: an array of more than 2^63 pointers cannot be allocated. *)
From S2P Require Import Prelude.

Notation CYCLIC_QUEUE_DEFAULT_SIZE := 100%nat (only parsing).

Section Queue.
  Context {A : Type}.

Record apt_cyclic_queue_t := mk_cyclic {
  data : list (option A);
  max_size : nat;
  actual_size : nat;
  head : nat;
  tail : nat
}.

Definition apt_cyclic_queue_create (size : nat) : apt_cyclic_queue_t :=
  mk_cyclic (replicate size None) size 0 0 0.

(** [i % n]. *)
Definition modulo (i n : nat) : res nat := if decide (n = 0) then Fault else Ok (i mod n).

Definition store (d : list (option A)) (i : nat) (obj : A) : res (list (option A)) :=
  if decide (i < length d) then Ok (<[i:=Some obj]> d) else Fault.

(** The elements from [head] to the end of the array, then those before. *)
Definition apt_cyclic_queue_resize (q : apt_cyclic_queue_t) : apt_cyclic_queue_t :=
  let new_size := max_size q + max_size q / 2 in
  let new_data := drop (head q) (data q) ++ take (head q) (data q) ++ replicate (max_size q / 2) None in
  mk_cyclic new_data new_size (actual_size q) (max_size q) 0.

Definition apt_cyclic_queue_push (q : apt_cyclic_queue_t) (obj : A) : res (bool * apt_cyclic_queue_t) :=
  let q := if decide (max_size q ≤ actual_size q) then apt_cyclic_queue_resize q else q in
  d ← store (data q) (head q) obj;
  h ← modulo (head q + 1) (max_size q);
  Ok (true, mk_cyclic d (max_size q) (actual_size q + 1) h (tail q)).

Definition apt_cyclic_queue_pop (q : apt_cyclic_queue_t) : res (option A * apt_cyclic_queue_t) :=
  if decide (actual_size q = 0) then Ok (None, q)
  else
    obj ← deref (data q !! tail q);
    t ← modulo (tail q + 1) (max_size q);
    Ok (obj, mk_cyclic (data q) (max_size q) (actual_size q - 1) (head q) t).

Definition apt_cyclic_queue_clear (q : apt_cyclic_queue_t) : apt_cyclic_queue_t :=
  mk_cyclic (data q) (max_size q) 0 0 0.

Definition apt_cyclic_queue_is_empty (q : apt_cyclic_queue_t) : bool :=
  if decide (actual_size q = 0) then false else true.

(** ** The queue holds the list [xs], oldest element first *)

Record holds (q : apt_cyclic_queue_t) (xs : list A) : Prop := {
  hd_size : 2 ≤ max_size q;
  hd_data : length (data q) = max_size q;
  hd_actual : actual_size q = length xs;
  hd_room : length xs ≤ max_size q;
  hd_tail : tail q < max_size q;
  hd_head : head q = (tail q + length xs) mod max_size q;
  hd_items : ∀ i x, xs !! i = Some x → data q !! ((tail q + i) mod max_size q) = Some (Some x)
}.

Lemma create_holds (size : nat) : 2 ≤ size → holds (apt_cyclic_queue_create size) [].
Proof.
  intros Hs. split; simpl; try lia; [apply length_replicate| |by intros i x Hx; rewrite lookup_nil in Hx].
  symmetry. apply Nat.Div0.mod_0_l.
Qed.

Lemma clear_holds (q : apt_cyclic_queue_t) (xs : list A) : holds q xs → holds (apt_cyclic_queue_clear q) [].
Proof.
  intros []. split; simpl; try lia; [|by intros i x Hx; rewrite lookup_nil in Hx].
  symmetry. apply Nat.Div0.mod_0_l.
Qed.

(** Two positions of the ring less than its size apart are different. *)
Lemma ring_apart (t i j n : nat) : i < j → j < n + i → n ≠ 0 → (t + i) mod n ≠ (t + j) mod n.
Proof.
  intros Hij Hj Hn E. pose proof (Nat.div_mod (t + i) n Hn). pose proof (Nat.div_mod (t + j) n Hn).
  assert ((t + j) / n = (t + i) / n ∨ (t + i) / n + 1 ≤ (t + j) / n) as [Hd|Hd].
  { pose proof (Nat.Div0.div_le_mono (t + i) (t + j) n). lia. }
  - rewrite Hd in *. lia.
  - nia.
Qed.

Lemma push_room (q : apt_cyclic_queue_t) (xs : list A) (x : A) :
  holds q xs → length xs < max_size q →
  ∃ q', (d ← store (data q) (head q) x; h ← modulo (head q + 1) (max_size q);
         Ok (true, mk_cyclic d (max_size q) (actual_size q + 1) h (tail q))) = Ok (true, q') ∧
    holds q' (xs ++ [x]).
Proof.
  intros [Hs Hd Ha Hr Ht Hh Hi] Hlt. assert (head q < max_size q) as Hb by (rewrite Hh; apply Nat.mod_upper_bound; lia).
  unfold store. rewrite decide_True by lia. cbn [mbind res_bind].
  unfold modulo. rewrite decide_False by lia. cbn [mbind res_bind]. eexists. split; [done|].
  split; simpl; rewrite ?length_insert, ?length_app; simpl; try lia.
  - rewrite Hh, Nat.Div0.add_mod_idemp_l. f_equal. lia.
  - intros i y Hy. destruct (decide (i = length xs)) as [->|Hne].
    + rewrite <- Hh, list_lookup_insert_eq by lia. rewrite list_lookup_middle in Hy by done. by injection Hy as ->.
    + assert (i < length xs) as Hil.
      { apply lookup_lt_Some in Hy. rewrite length_app in Hy. simpl in Hy. lia. }
      rewrite lookup_app_l in Hy by done.
      rewrite list_lookup_insert_ne by (rewrite Hh; intros E; by apply (ring_apart (tail q) i (length xs) (max_size q)); [lia..|]).
      by apply Hi.
Qed.

Lemma resize_holds (q : apt_cyclic_queue_t) (xs : list A) :
  holds q xs → length xs = max_size q → holds (apt_cyclic_queue_resize q) xs.
Proof.
  intros [Hs Hd Ha Hr Ht Hh Hi] Hfull.
  assert (head q = tail q) as Hht.
  { rewrite Hh, Hfull. replace (tail q + max_size q) with (tail q + 1 * max_size q) by lia.
    rewrite Nat.Div0.mod_add. apply Nat.mod_small. lia. }
  assert (1 ≤ max_size q / 2) as Hhalf by (apply Nat.div_le_lower_bound; lia).
  unfold apt_cyclic_queue_resize. split; cbn [data max_size actual_size head tail]; try lia.
  - rewrite !length_app, length_drop, length_take, length_replicate. lia.
  - rewrite Hfull. symmetry. apply Nat.mod_small. lia.
  - intros i x Hx. pose proof (lookup_lt_Some _ _ _ Hx). rewrite (Nat.mod_small i) by lia.
    specialize (Hi i x Hx). rewrite Hht.
    destruct (decide (tail q + i < max_size q)) as [Hl|Hl].
    + rewrite lookup_app_l by (rewrite length_drop; lia). rewrite lookup_drop.
      by rewrite Nat.mod_small in Hi by lia.
    + rewrite lookup_app_r by (rewrite length_drop; lia). rewrite length_drop, Hd.
      replace ((tail q + i) mod max_size q) with (tail q + i - max_size q) in Hi.
      2: { replace (tail q + i) with (tail q + i - max_size q + 1 * max_size q) at 2 by lia.
           rewrite Nat.Div0.mod_add. symmetry. apply Nat.mod_small. lia. }
      rewrite lookup_app_l by (rewrite length_take; lia). rewrite lookup_take_lt by lia.
      by replace (i - (max_size q - tail q)) with (tail q + i - max_size q) by lia.
Qed.

Lemma push_holds (q : apt_cyclic_queue_t) (xs : list A) (x : A) :
  holds q xs → ∃ q', apt_cyclic_queue_push q x = Ok (true, q') ∧ holds q' (xs ++ [x]).
Proof.
  intros Hq. pose proof Hq as [Hs Hd Ha Hr Ht Hh Hi]. unfold apt_cyclic_queue_push. case_decide as Hfull.
  - assert (length xs = max_size q) as Hl by lia. pose proof (resize_holds q xs Hq Hl) as Hq'.
    apply push_room; [done|]. unfold apt_cyclic_queue_resize. cbn [max_size].
    assert (1 ≤ max_size q / 2) by (apply Nat.div_le_lower_bound; lia). lia.
  - apply push_room; [done|lia].
Qed.

Lemma pop_holds (q : apt_cyclic_queue_t) (x : A) (xs : list A) :
  holds q (x :: xs) → ∃ q', apt_cyclic_queue_pop q = Ok (Some x, q') ∧ holds q' xs.
Proof.
  intros [Hs Hd Ha Hr Ht Hh Hi]. unfold apt_cyclic_queue_pop. simpl in *. rewrite decide_False by lia.
  specialize (Hi 0 x eq_refl) as Hx. rewrite Nat.add_0_r, Nat.mod_small in Hx by done.
  rewrite Hx. cbn [deref mbind res_bind]. unfold modulo. rewrite decide_False by lia. cbn [mbind res_bind].
  eexists. split; [done|]. split; simpl; try lia.
  - apply Nat.mod_upper_bound. lia.
  - rewrite Hh, Nat.Div0.add_mod_idemp_l. f_equal. lia.
  - intros i y Hy. rewrite Nat.Div0.add_mod_idemp_l. specialize (Hi (S i) y Hy).
    by replace (tail q + 1 + i) with (tail q + S i) by lia.
Qed.

(** ** The specification: a list *)

Inductive queue_op :=
  | Push (x : A)
  | Pop
  | Clear
  | IsEmpty.

Inductive queue_result :=
  | Pushed (ok : bool)
  | Popped (x : option A)
  | Cleared
  | Answer (b : bool).

Definition queue_step (q : apt_cyclic_queue_t) (op : queue_op) : res (queue_result * apt_cyclic_queue_t) :=
  match op with
  | Push x => '(ok, q) ← apt_cyclic_queue_push q x; Ok (Pushed ok, q)
  | Pop => '(x, q) ← apt_cyclic_queue_pop q; Ok (Popped x, q)
  | Clear => Ok (Cleared, apt_cyclic_queue_clear q)
  | IsEmpty => Ok (Answer (apt_cyclic_queue_is_empty q), q)
  end.

Definition list_step (xs : list A) (op : queue_op) : queue_result * list A :=
  match op with
  | Push x => (Pushed true, xs ++ [x])
  | Pop => (Popped (list.head xs), list.tail xs)
  | Clear => (Cleared, [])
  | IsEmpty => (Answer (bool_decide (xs ≠ [])), xs)
  end.

Fixpoint queue_run (q : apt_cyclic_queue_t) (ops : list queue_op) : res (list queue_result * apt_cyclic_queue_t) :=
  match ops with
  | [] => Ok ([], q)
  | op :: ops =>
      '(r, q) ← queue_step q op;
      '(rs, q) ← queue_run q ops;
      Ok (r :: rs, q)
  end.

Fixpoint list_run (xs : list A) (ops : list queue_op) : list queue_result * list A :=
  match ops with
  | [] => ([], xs)
  | op :: ops => let '(r, xs) := list_step xs op in let '(rs, xs) := list_run xs ops in (r :: rs, xs)
  end.

Lemma step_refines (q : apt_cyclic_queue_t) (xs : list A) (op : queue_op) :
  holds q xs → ∃ q', queue_step q op = Ok ((list_step xs op).1, q') ∧ holds q' (list_step xs op).2.
Proof.
  intros Hq. destruct op as [x| | |]; simpl.
  - destruct (push_holds q xs x Hq) as (q' & -> & ?). by exists q'.
  - destruct xs as [|x xs].
    + exists q. unfold apt_cyclic_queue_pop. by rewrite decide_True by apply (hd_actual _ _ Hq).
    + destruct (pop_holds q x xs Hq) as (q' & -> & ?). by exists q'.
  - eexists. split; [done|]. by eapply clear_holds.
  - exists q. split; [|done]. unfold apt_cyclic_queue_is_empty. rewrite (hd_actual _ _ Hq). by destruct xs.
Qed.

(** C24: The cyclic queue is a first-in first-out queue of any length.  From the
    creation with at least two slots on, any sequence of operations stays
    within the array, also when it grows, and returns what a list returns: the
    elements are popped in the order they were pushed, none is lost by a
    resize.  Only the test for emptiness answers the opposite of its name. *)
Theorem cyclic_queue_refines (size : nat) (ops : list queue_op) (Hsize : 2 ≤ size) :
  ∃ q, queue_run (apt_cyclic_queue_create size) ops = Ok ((list_run [] ops).1, q) ∧
    holds q (list_run [] ops).2.
Proof.
  generalize (create_holds size Hsize). generalize (apt_cyclic_queue_create size), (@nil A).
  induction ops as [|op ops IH]; intros q xs Hq; simpl; [by exists q|].
  destruct (step_refines q xs op Hq) as (q1 & -> & H1). cbn [mbind res_bind].
  destruct (list_step xs op) as [r xs1]. destruct (IH q1 xs1 H1) as (q2 & -> & H2).
  cbn [mbind res_bind]. exists q2. by destruct (list_run xs1 ops).
Qed.

(** A queue created with one slot does not grow: half of one is nothing, and
    the second push stores after the end of the array. *)
Lemma queue_of_one_faults (x y : A) :
  ∃ q, apt_cyclic_queue_push (apt_cyclic_queue_create 1) x = Ok (true, q) ∧ apt_cyclic_queue_push q y = Fault.
Proof. eexists. by split. Qed.

End Queue.
Arguments apt_cyclic_queue_t : clear implicits.
Arguments queue_op : clear implicits.
Arguments queue_result : clear implicits.

Lemma cyclic_queue_refines_witness :
  ∃ q, queue_run (apt_cyclic_queue_create 2) [Push 1; Push 2; Pop; Push 3; Push 4; Pop; Pop; Pop; Pop; IsEmpty] =
    Ok ([Pushed true; Pushed true; Popped (Some 1); Pushed true; Pushed true; Popped (Some 2);
         Popped (Some 3); Popped (Some 4); Popped None; Answer false], q).
Proof.
  destruct (cyclic_queue_refines 2
    [Push 1; Push 2; Pop; Push 3; Push 4; Pop; Pop; Pop; Pop; IsEmpty]) as (q & E & _); [lia|].
  exists q. exact E.
Defined.
