(* ===== verification/TimerQueue.v ===== *)
(** * TimerQueue: the timers of a task ([apt_timer_queue.c]).

    A queue is a ring of timers ordered by the time they are due, kept relative
    to the time that has elapsed.  Timers are numbers; [times] is the scheduled
    time of each, 0 when it is not set.  The procedure of a timer belongs to the
    caller: it is the list of the calls it makes on the queue.  Linking a timer
    that is in the ring, or removing one that is not, corrupts the ring and is a
    fault. *)
From stdpp Require Import sorting.
From S2P Require Import Prelude.

Inductive timer_call :=
  | TimerSet (timer : nat) (timeout : Z)
  | TimerKill (timer : nat).

Record apt_timer_queue_t := mk_timers {
  ring : list nat;
  times : gmap nat Z;
  elapsed_time : Z;
  reset : bool
}.

Definition scheduled_time (q : apt_timer_queue_t) (t : nat) : Z := default 0%Z (times q !! t).

Definition set_ring (q : apt_timer_queue_t) (r : list nat) : apt_timer_queue_t :=
  mk_timers r (times q) (elapsed_time q) (reset q).
Definition set_time (q : apt_timer_queue_t) (t : nat) (z : Z) : apt_timer_queue_t :=
  mk_timers (ring q) (<[t:=z]> (times q)) (elapsed_time q) (reset q).

Definition apt_timer_queue_create : apt_timer_queue_t := mk_timers [] ∅ 0 false.

Definition apt_timer_queue_is_empty (q : apt_timer_queue_t) : bool := bool_decide (ring q = []).

(** The walk from the last timer to the first. *)
Fixpoint insert_back (time : nat → Z) (t : nat) (back : list nat) : list nat :=
  match back with
  | [] => [t]
  | it :: back => if decide (time it ≤ time t)%Z then t :: it :: back else it :: insert_back time t back
  end.

Definition apt_timer_insert (q : apt_timer_queue_t) (t : nat) : res apt_timer_queue_t :=
  if decide (t ∈ ring q) then Fault
  else Ok (set_ring q (reverse (insert_back (scheduled_time q) t (reverse (ring q))))).

Definition ring_remove (q : apt_timer_queue_t) (t : nat) : res apt_timer_queue_t :=
  if decide (t ∈ ring q) then Ok (set_ring q (filter (λ x, x ≠ t) (ring q))) else Fault.

Definition apt_timer_remove (q : apt_timer_queue_t) (t : nat) : res apt_timer_queue_t :=
  q ← ring_remove q t;
  let q := set_time q t 0 in
  match ring q with
  | [] => Ok (mk_timers [] (times q) 0 true)
  | _ => Ok q
  end.

(** [has_proc]: the timer was created with a procedure.  Inserting into an
    empty ring is inserting at its tail. *)
Definition apt_timer_set (q : apt_timer_queue_t) (t : nat) (has_proc : bool) (timeout : Z)
    : res (bool * apt_timer_queue_t) :=
  if decide (timeout ≤ 0)%Z then Ok (false, q)
  else if negb has_proc then Ok (false, q)
  else
    q ← (if decide (scheduled_time q t ≠ 0%Z) then apt_timer_remove q t else Ok q);
    let q := set_time q t (u32 (elapsed_time q + timeout)) in
    q ← apt_timer_insert q t;
    Ok (true, q).

Definition apt_timer_kill (q : apt_timer_queue_t) (t : nat) : res (bool * apt_timer_queue_t) :=
  if decide (scheduled_time q t = 0%Z) then Ok (false, q)
  else q ← apt_timer_remove q t; Ok (true, q).

Definition apt_timers_reschedule (q : apt_timer_queue_t) : apt_timer_queue_t :=
  mk_timers (ring q)
    (foldr (λ it m, <[it := u32 (scheduled_time q it - elapsed_time q)]> m) (times q) (ring q)) 0 (reset q).

(** The timeout of the first timer, when there is one. *)
Definition apt_timer_queue_timeout_get (q : apt_timer_queue_t) : option Z * apt_timer_queue_t :=
  let q := mk_timers (ring q) (times q) (elapsed_time q) false in
  match ring q with
  | [] => (None, q)
  | t :: _ => (Some (u32 (scheduled_time q t - elapsed_time q)), q)
  end.

Section Advance.
  Context (proc : nat → list timer_call).

Fixpoint run_calls (q : apt_timer_queue_t) (cs : list timer_call) : res apt_timer_queue_t :=
  match cs with
  | [] => Ok q
  | TimerSet t timeout :: cs => '(_, q) ← apt_timer_set q t true timeout; run_calls q cs
  | TimerKill t :: cs => '(_, q) ← apt_timer_kill q t; run_calls q cs
  end.

(** The loop over the timers that are due, with the timers it fired and the
    times they were scheduled at; [None] when the fuel is used up. *)
Fixpoint process_timers (fuel : nat) (q : apt_timer_queue_t)
    : option (res (list (nat * Z) * apt_timer_queue_t)) :=
  match fuel with
  | 0 => None
  | S fuel =>
      match ring q with
      | [] => Some (Ok ([], q))
      | t :: rest =>
          let s := scheduled_time q t in
          if decide (elapsed_time q < s)%Z then Some (Ok ([], q))
          else
            match run_calls (set_time (set_ring q rest) t 0) (proc t) with
            | Fault => Some Fault
            | Ok q =>
                match process_timers fuel q with
                | Some (Ok (fired, q)) => Some (Ok ((t, s) :: fired, q))
                | r => r
                end
            end
      end
  end.

Definition apt_timer_queue_advance (q : apt_timer_queue_t) (elapsed : Z)
    : option (res (list (nat * Z) * apt_timer_queue_t)) :=
  if apt_timer_queue_is_empty q then Some (Ok ([], q))
  else if reset q then Some (Ok ([], q))
  else
    let q := mk_timers (ring q) (times q) (u32 (elapsed_time q + elapsed)) (reset q) in
    let q := if decide (65535 ≤ elapsed_time q)%Z then apt_timers_reschedule q else q in
    process_timers (S (length (ring q))) q.

End Advance.

(** ** The invariant *)

(** The ring holds the timers that are set, once each and in the order of their
    times, and the timeouts the callers ask for do not overflow. *)
Definition earlier (q : apt_timer_queue_t) (t u : nat) : Prop := (scheduled_time q t ≤ scheduled_time q u)%Z.

Record timers_ok (q : apt_timer_queue_t) : Prop := {
  tk_distinct : NoDup (ring q);
  tk_sorted : StronglySorted (earlier q) (ring q);
  tk_set : ∀ t, t ∈ ring q ↔ scheduled_time q t ≠ 0%Z;
  tk_range : ∀ t, (0 ≤ scheduled_time q t < 2 ^ 32)%Z;
  tk_elapsed : (0 ≤ elapsed_time q < 65535)%Z
}.

Definition timeout_ok (z : Z) : Prop := (z < 2 ^ 32 - 65535)%Z.
Definition call_ok (c : timer_call) : Prop :=
  match c with TimerSet _ timeout => timeout_ok timeout | TimerKill _ => True end.

Lemma scheduled_set_ring q r t : scheduled_time (set_ring q r) t = scheduled_time q t.
Proof. done. Qed.

Lemma scheduled_set_time_eq q t z : scheduled_time (set_time q t z) t = z.
Proof. unfold scheduled_time, set_time. simpl. by rewrite lookup_insert_eq. Qed.

Lemma scheduled_set_time_ne q t u z : u ≠ t → scheduled_time (set_time q t z) u = scheduled_time q u.
Proof. intros Hne. unfold scheduled_time, set_time. simpl. by rewrite lookup_insert_ne. Qed.

Lemma sorted_agree (R1 R2 : nat → nat → Prop) (l : list nat) :
  (∀ x y, x ∈ l → y ∈ l → R1 x y → R2 x y) → StronglySorted R1 l → StronglySorted R2 l.
Proof.
  intros HR Hs. induction Hs as [|x l Hs IH Hx]; constructor.
  - apply IH. intros y z Hy Hz. apply HR; by right.
  - rewrite Forall_forall in Hx |- *. intros y Hy. apply HR; [by left|by right|by apply Hx].
Qed.

Lemma sorted_filter (R : nat → nat → Prop) (P : nat → Prop) `{∀ x, Decision (P x)} (l : list nat) :
  StronglySorted R l → StronglySorted R (filter P l).
Proof.
  intros Hs. induction Hs as [|x l Hs IH Hx]; [constructor|]. rewrite filter_cons.
  case_decide; [|done]. constructor; [done|by apply filter_Forall].
Qed.

(** Inserting from the back keeps the order. *)
Lemma insert_back_elem (f : nat → Z) (t x : nat) (l : list nat) : x ∈ insert_back f t l ↔ x = t ∨ x ∈ l.
Proof.
  induction l as [|y l IH]; simpl; [set_solver|]. case_decide; set_solver.
Qed.

Lemma insert_back_nodup (f : nat → Z) (t : nat) (l : list nat) :
  NoDup l → t ∉ l → NoDup (insert_back f t l).
Proof.
  induction l as [|y l IH]; simpl; intros Hn Ht; [apply NoDup_singleton|].
  apply NoDup_cons in Hn as [Hy Hn]. case_decide; constructor; [done|by constructor| |].
  - rewrite insert_back_elem. set_solver.
  - apply IH; set_solver.
Qed.

Lemma insert_back_sorted (f : nat → Z) (t : nat) (l : list nat) :
  StronglySorted (λ x y, f y ≤ f x)%Z l → StronglySorted (λ x y, f y ≤ f x)%Z (insert_back f t l).
Proof.
  intros Hs. induction Hs as [|y l Hs IH Hy]; simpl; [by repeat constructor|].
  rewrite Forall_forall in Hy. case_decide.
  - constructor; [constructor; [done|by apply Forall_forall]|]. apply Forall_forall.
    intros x [->|Hx]%elem_of_cons; [done|]. specialize (Hy x Hx). lia.
  - constructor; [done|]. apply Forall_forall. intros x [->|Hx]%insert_back_elem; [lia|by apply Hy].
Qed.

Lemma sorted_snoc {A} (R : A → A → Prop) (l : list A) (x : A) :
  StronglySorted R l → (∀ y, y ∈ l → R y x) → StronglySorted R (l ++ [x]).
Proof.
  intros Hs. induction Hs as [|y l Hs IH Hy]; intros Hx; simpl; [by repeat constructor|].
  constructor; [apply IH; intros z Hz; apply Hx; by right|].
  apply Forall_app. split; [done|]. apply Forall_singleton. apply Hx. by left.
Qed.

Lemma sorted_reverse {A} (R : A → A → Prop) (l : list A) :
  StronglySorted R l → StronglySorted (flip R) (reverse l).
Proof.
  intros Hs. induction Hs as [|y l Hs IH Hy]; [constructor|]. rewrite reverse_cons.
  apply sorted_snoc; [done|]. intros z Hz. rewrite elem_of_reverse in Hz. rewrite Forall_forall in Hy. exact (Hy z Hz).
Qed.

Definition same_but (q q' : apt_timer_queue_t) (t : nat) : Prop :=
  ∀ u, u ≠ t → scheduled_time q' u = scheduled_time q u.

Lemma insert_timer_ok (q : apt_timer_queue_t) (t : nat) (z : Z) :
  timers_ok q → t ∉ ring q → (0 < z < 2 ^ 32)%Z →
  ∃ q', apt_timer_insert (set_time q t z) t = Ok q' ∧ timers_ok q' ∧ elapsed_time q' = elapsed_time q ∧
    (∀ u, u ∈ ring q' ↔ u = t ∨ u ∈ ring q) ∧ scheduled_time q' t = z ∧ same_but q q' t.
Proof.
  intros [Hn Hs Hset Hr He] Ht Hz. unfold apt_timer_insert. rewrite decide_False by done.
  eexists. split; [done|].
  assert (∀ u, u ∈ reverse (insert_back (scheduled_time (set_time q t z)) t (reverse (ring q))) ↔
    u = t ∨ u ∈ ring q) as Hin.
  { intros u. by rewrite elem_of_reverse, insert_back_elem, elem_of_reverse. }
  assert (same_but q (set_time q t z) t) as Hsame by (intros u; apply scheduled_set_time_ne).
  split; [|split_and!; [done|exact Hin|apply scheduled_set_time_eq|exact Hsame]].
  split; simpl; try done.
  - rewrite reverse_Permutation. apply insert_back_nodup; [by rewrite reverse_Permutation|by rewrite elem_of_reverse].
  - apply (sorted_reverse (λ x y, scheduled_time (set_time q t z) y ≤ scheduled_time (set_time q t z) x)%Z).
    apply insert_back_sorted. apply (sorted_agree (flip (earlier q))); [|by apply sorted_reverse].
    intros x y Hx Hy Hxy. rewrite elem_of_reverse in Hx, Hy.
    rewrite !Hsame by (by intros ->). exact Hxy.
  - intros u. rewrite Hin, scheduled_set_ring. destruct (decide (u = t)) as [->|Hne].
    + rewrite scheduled_set_time_eq. split; [lia|by left].
    + rewrite Hsame by done. rewrite <- Hset. naive_solver.
  - intros u. rewrite scheduled_set_ring. destruct (decide (u = t)) as [->|Hne].
    + rewrite scheduled_set_time_eq. lia.
    + by rewrite Hsame.
Qed.

(** The queue without the timer [t]. *)
Lemma without_ok (q : apt_timer_queue_t) (t : nat) (e : Z) (b : bool) :
  timers_ok q → (0 ≤ e < 65535)%Z →
  timers_ok (mk_timers (filter (λ x, x ≠ t) (ring q)) (<[t:=0%Z]> (times q)) e b).
Proof.
  intros [Hn Hs Hset Hr He] Hb. set (r := filter _ _).
  assert (∀ u, u ∈ r ↔ u ≠ t ∧ u ∈ ring q) as Hin by (intros u; unfold r; by rewrite list_elem_of_filter).
  assert (∀ u, u ≠ t → scheduled_time (mk_timers r (<[t:=0%Z]> (times q)) e b) u =
    scheduled_time q u) as Hsame by (intros u; apply scheduled_set_time_ne).
  assert (scheduled_time (mk_timers r (<[t:=0%Z]> (times q)) e b) t = 0%Z) as H0 by apply (scheduled_set_time_eq q).
  split; simpl; try done.
  - by apply NoDup_filter.
  - apply (sorted_agree (earlier q)); [|by apply sorted_filter].
    intros x y [Hx _]%Hin [Hy _]%Hin Hxy. unfold earlier. by rewrite !Hsame.
  - intros u. rewrite Hin. destruct (decide (u = t)) as [->|Hne]; [rewrite H0; naive_solver|].
    rewrite Hsame by done. rewrite <- Hset. naive_solver.
  - intros u. destruct (decide (u = t)) as [->|Hne]; [rewrite H0; lia|by rewrite Hsame].
Qed.

Lemma remove_timer_ok (q : apt_timer_queue_t) (t : nat) :
  timers_ok q → t ∈ ring q →
  ∃ q', apt_timer_remove q t = Ok q' ∧ timers_ok q' ∧ (∀ u, u ∈ ring q' ↔ u ≠ t ∧ u ∈ ring q) ∧
    same_but q q' t ∧ (elapsed_time q' = elapsed_time q ∨ ring q' = [] ∧ elapsed_time q' = 0%Z).
Proof.
  intros Hq Ht. unfold apt_timer_remove, ring_remove. rewrite decide_True by done.
  cbn [mbind res_bind]. simpl ring.
  pose proof (λ e b, without_ok q t e b Hq) as Hok. pose proof (tk_elapsed q Hq) as He.
  assert (same_but q (set_time q t 0) t) as Hsame by (intros u; apply scheduled_set_time_ne).
  assert (∀ u, u ∈ filter (λ x, x ≠ t) (ring q) ↔ u ≠ t ∧ u ∈ ring q) as Hin by (intros u; by rewrite list_elem_of_filter).
  destruct (filter _ _) as [|x r'] eqn:Er; eexists; (split; [done|]).
  - split; [apply Hok; lia|]. split_and!; [done|exact Hsame|by right].
  - split; [by apply Hok|]. split_and!; [done|exact Hsame|by left].
Qed.

(** ** The calls of a procedure *)

(** A timer that is due. *)
Definition due (q : apt_timer_queue_t) (t : nat) : Prop :=
  t ∈ ring q ∧ (scheduled_time q t ≤ elapsed_time q)%Z.

(** What is due afterwards was due before, at the same time. *)
Record calm (q q' : apt_timer_queue_t) : Prop := {
  cm_elapsed : (elapsed_time q' ≤ elapsed_time q)%Z;
  cm_due : ∀ t, due q' t → due q t ∧ scheduled_time q' t = scheduled_time q t
}.

Lemma calm_refl q : calm q q.
Proof. split; [done|]. by intros t Ht. Qed.

Lemma calm_trans q1 q2 q3 : calm q1 q2 → calm q2 q3 → calm q1 q3.
Proof.
  intros [L1 H1] [L2 H2]. split; [lia|]. intros t Ht. destruct (H2 t Ht) as (Ht2 & ->). by apply H1.
Qed.

Lemma remove_calm (q : apt_timer_queue_t) (t : nat) :
  timers_ok q → t ∈ ring q →
  ∃ q', apt_timer_remove q t = Ok q' ∧ timers_ok q' ∧ t ∉ ring q' ∧ calm q q'.
Proof.
  intros Hq Ht. destruct (remove_timer_ok q t Hq Ht) as (q' & E & Hq' & Hin & Hsame & He).
  exists q'. split_and!; [done..|rewrite Hin; naive_solver|].
  pose proof (tk_elapsed q Hq). split; [lia|].
  intros u [Hu Hle]. destruct He as [He|[Hnil _]]; [|rewrite Hnil in Hu; by apply elem_of_nil in Hu].
  apply Hin in Hu as [Hne Hu]. unfold due. rewrite <- (Hsame u Hne), <- He. done.
Qed.

Lemma timer_set_ok (q : apt_timer_queue_t) (t : nat) (z : Z) :
  timers_ok q → timeout_ok z → ∃ b q', apt_timer_set q t true z = Ok (b, q') ∧ timers_ok q' ∧ calm q q'.
Proof.
  intros Hq Hz. unfold timeout_ok in Hz. unfold apt_timer_set.
  case_decide as Hpos; [exists false, q; by split_and!; [..|apply calm_refl]|]. simpl negb. cbn match.
  assert (∃ q1, (if decide (scheduled_time q t ≠ 0%Z) then apt_timer_remove q t else Ok q) = Ok q1 ∧
    timers_ok q1 ∧ t ∉ ring q1 ∧ calm q q1) as (q1 & -> & Hq1 & Hnin & Hcalm).
  { case_decide as Hs; [by apply remove_calm, tk_set|]. exists q. split_and!; [done..| |apply calm_refl].
    intros Hin. by apply (tk_set q Hq) in Hin. }
  cbn [mbind res_bind]. pose proof (tk_elapsed q1 Hq1) as He.
  rewrite wrap_u_small by lia.
  destruct (insert_timer_ok q1 t (elapsed_time q1 + z) Hq1 Hnin ltac:(lia)) as (q2 & -> & Hq2 & He2 & Hin & Ht & Hsame).
  cbn [mbind res_bind]. exists true, q2. split_and!; [done..|]. apply (calm_trans _ q1); [done|].
  split; [lia|].
  intros u [Hu Hle]. destruct (decide (u = t)) as [->|Hne]; [rewrite Ht, He2 in Hle; lia|].
  apply Hin in Hu as [?|Hu]; [done|]. unfold due. rewrite <- (Hsame u Hne), <- He2. done.
Qed.

Lemma timer_kill_ok (q : apt_timer_queue_t) (t : nat) :
  timers_ok q → ∃ b q', apt_timer_kill q t = Ok (b, q') ∧ timers_ok q' ∧ calm q q'.
Proof.
  intros Hq. unfold apt_timer_kill. case_decide as Hs; [exists false, q; by split_and!; [..|apply calm_refl]|].
  destruct (remove_calm q t Hq) as (q' & -> & ? & _ & ?); [by apply tk_set|].
  exists true, q'. by split_and!.
Qed.

Lemma run_calls_ok (q : apt_timer_queue_t) (cs : list timer_call) :
  timers_ok q → Forall call_ok cs → ∃ q', run_calls q cs = Ok q' ∧ timers_ok q' ∧ calm q q'.
Proof.
  intros Hq Hcs. revert q Hq. induction Hcs as [|c cs Hc Hcs IH]; intros q Hq.
  { exists q. by split_and!; [..|apply calm_refl]. }
  assert (∃ b q1, (match c with TimerSet t z => apt_timer_set q t true z | TimerKill t => apt_timer_kill q t end) =
    Ok (b, q1) ∧ timers_ok q1 ∧ calm q q1) as (b & q1 & E & Hq1 & Hc1).
  { destruct c; [by apply timer_set_ok|by apply timer_kill_ok]. }
  destruct (IH q1 Hq1) as (q2 & E2 & Hq2 & Hc2). exists q2.
  split; [|split; [done|by apply (calm_trans _ q1)]].
  destruct c; simpl; rewrite E; exact E2.
Qed.

(** ** The loop *)

Definition due_timers (q : apt_timer_queue_t) : list nat :=
  filter (λ t, (scheduled_time q t ≤ elapsed_time q)%Z) (ring q).

Lemma due_timers_elem q t : t ∈ due_timers q ↔ due q t.
Proof. unfold due_timers, due. rewrite list_elem_of_filter. naive_solver. Qed.

Lemma calm_count q q' : timers_ok q' → calm q q' → length (due_timers q') ≤ length (due_timers q).
Proof.
  intros Hq' Hc. apply submseteq_length, NoDup_submseteq; [by apply NoDup_filter, Hq'|].
  intros t Ht. apply due_timers_elem. by apply due_timers_elem, (cm_due _ _ Hc) in Ht as [? _].
Qed.

Lemma pop_ok q t rest :
  timers_ok q → ring q = t :: rest →
  timers_ok (set_time (set_ring q rest) t 0) ∧
  (∀ u, due (set_time (set_ring q rest) t 0) u → due q u ∧ (scheduled_time q t ≤ scheduled_time q u)%Z ∧
     scheduled_time (set_time (set_ring q rest) t 0) u = scheduled_time q u).
Proof.
  intros Hq Hr. pose proof Hq as [Hn Hs _ _ He]. rewrite Hr in Hn, Hs.
  apply NoDup_cons in Hn as [Ht Hn]. apply StronglySorted_inv in Hs as [_ Hle].
  assert (filter (λ x, x ≠ t) (ring q) = rest) as Hf.
  { rewrite Hr, filter_cons_False by tauto. clear -Ht. induction rest as [|x rest IH]; [done|].
    apply not_elem_of_cons in Ht as [Hx Ht]. rewrite filter_cons_True by congruence. by rewrite IH. }
  split.
  - pose proof (without_ok q t (elapsed_time q) (reset q) Hq He) as Hw. by rewrite Hf in Hw.
  - intros u [Hu Hd]. simpl in Hu. assert (u ≠ t) as Hne by (by intros ->).
    rewrite scheduled_set_time_ne in Hd |- * by done. rewrite Forall_forall in Hle.
    split_and!; [split; [rewrite Hr; by right|done]|by apply Hle|done].
Qed.

(** Nothing that is due is left, and what was fired was due, the earliest first. *)
Lemma process_ok (proc : nat → list timer_call) (fuel : nat) q (lb : Z) :
  (∀ t, Forall call_ok (proc t)) → timers_ok q → length (due_timers q) < fuel →
  (∀ t, due q t → (lb ≤ scheduled_time q t)%Z) →
  ∃ fired q', process_timers proc fuel q = Some (Ok (fired, q')) ∧ timers_ok q' ∧ (∀ t, ¬ due q' t) ∧
    Forall (λ x, (lb ≤ x.2 ≤ elapsed_time q)%Z) fired ∧ StronglySorted Z.le fired.*2.
Proof.
  intros Hproc. revert q lb. induction fuel as [|fuel IH]; intros q lb Hq Hfuel Hlb; [lia|].
  cbn [process_timers]. destruct (ring q) as [|t rest] eqn:Hr.
  { exists [], q. split_and!; [done..| |constructor|constructor]. intros t [Ht _]. rewrite Hr in Ht.
    by apply elem_of_nil in Ht. }
  case_decide as Hlt.
  { exists [], q. split_and!; [done..| |constructor|constructor]. intros u [Hu Hd].
    pose proof (tk_sorted q Hq) as Hs. rewrite Hr in Hu, Hs. apply StronglySorted_inv in Hs as [_ Hle].
    rewrite Forall_forall in Hle. apply elem_of_cons in Hu as [->|Hu]; [lia|].
    specialize (Hle u Hu). unfold earlier in Hle. lia. }
  destruct (pop_ok q t rest Hq Hr) as [Hq1 Hpop]. set (q1 := set_time _ t 0) in *.
  destruct (run_calls_ok q1 (proc t) Hq1 (Hproc t)) as (q2 & -> & Hq2 & Hcalm).
  assert (due q t) as Hdue by (split; [rewrite Hr; by left|lia]).
  assert (length (due_timers q2) < fuel) as Hfuel2.
  { enough (length (due_timers q1) < length (due_timers q)) by (pose proof (calm_count q1 q2 Hq2 Hcalm); lia).
    apply (submseteq_length (t :: due_timers q1) (due_timers q)), NoDup_submseteq.
    - apply NoDup_cons. split; [|by apply NoDup_filter, Hq1].
      intros [Hin _]%due_timers_elem. pose proof (tk_distinct q Hq) as Hn. rewrite Hr in Hn.
      by apply NoDup_cons in Hn as [Hn _].
    - intros u [->|Hu]%elem_of_cons; apply due_timers_elem; [done|]. by apply due_timers_elem, Hpop in Hu as [? _]. }
  destruct (IH q2 (scheduled_time q t) Hq2 Hfuel2) as (fired & q' & -> & Hq' & Hnone & Hall & Hsort).
  { intros u (Hu1 & ->)%(cm_due _ _ Hcalm). by apply Hpop in Hu1 as (_ & ? & ->). }
  exists ((t, scheduled_time q t) :: fired), q'. specialize (Hlb t Hdue). pose proof (proj2 Hdue).
  split_and!; [done..| |].
  - constructor; [simpl; lia|]. eapply Forall_impl; [exact Hall|]. cbn beta.
    pose proof (cm_elapsed _ _ Hcalm). simpl in *. lia.
  - constructor; [done|]. apply Forall_fmap. eapply Forall_impl; [exact Hall|]. simpl. lia.
Qed.

(** ** Advancing the time *)

Lemma foldr_insert_lookup (f : nat → Z) (m : gmap nat Z) (r : list nat) (t : nat) :
  foldr (λ it m, <[it := f it]> m) m r !! t = if decide (t ∈ r) then Some (f t) else m !! t.
Proof.
  induction r as [|x r IH]; simpl.
  - by destruct (decide (t ∈ [])) as [?%elem_of_nil|].
  - destruct (decide (x = t)) as [->|Hne].
    + rewrite lookup_insert_eq. destruct (decide (t ∈ t :: r)) as [|Hn]; [done|]. set_solver.
    + rewrite lookup_insert_ne by done. rewrite IH.
      destruct (decide (t ∈ r)), (decide (t ∈ x :: r)); set_solver.
Qed.

Lemma reschedule_time q t :
  scheduled_time (apt_timers_reschedule q) t =
    if decide (t ∈ ring q) then u32 (scheduled_time q t - elapsed_time q) else scheduled_time q t.
Proof.
  unfold scheduled_time at 1, apt_timers_reschedule. simpl times.
  rewrite (foldr_insert_lookup (λ it, u32 (scheduled_time q it - elapsed_time q))). by case_decide.
Qed.

Lemma reschedule_ok q e :
  timers_ok q → (0 ≤ e)%Z → (∀ t, t ∈ ring q → e < scheduled_time q t)%Z →
  timers_ok (apt_timers_reschedule (mk_timers (ring q) (times q) e (reset q))).
Proof.
  intros [Hn Hs Hset Hr He] Hpos Hlate. set (q' := mk_timers _ _ _ _).
  assert (∀ t, scheduled_time (apt_timers_reschedule q') t =
    if decide (t ∈ ring q) then (scheduled_time q t - e)%Z else 0%Z) as Htime.
  { intros t. rewrite reschedule_time. simpl. case_decide as Hin.
    - specialize (Hr t). specialize (Hlate t Hin). apply wrap_u_small. unfold scheduled_time in *. simpl. lia.
    - destruct (decide (scheduled_time q t = 0%Z)) as [E|E]; [exact E|by apply Hset in E]. }
  split; simpl; try lia; [done|..].
  - apply (sorted_agree (earlier q)); [|done]. intros x y Hx Hy Hxy. unfold earlier in *.
    rewrite !Htime, !decide_True by done. lia.
  - intros t. rewrite Htime. case_decide as Hin; [specialize (Hlate t Hin); naive_solver lia|naive_solver].
  - intros t. rewrite Htime. specialize (Hr t). case_decide as Hin; [specialize (Hlate t Hin)|]; lia.
Qed.

(** C25: Advancing the timers fires those that are due, and only those, in order.
    Whatever the procedures of the timers set and kill meanwhile, the loop ends
    without corrupting the ring, every timer it fires had a time not later
    than the new time, they are fired in the order of their times, and no due
    timer is left.  The time must not pass the point where it is restarted,
    or no timer may be due there. *)
Theorem advance_fires_due (proc : nat → list timer_call) q (dt : Z)
  (Hproc : ∀ t, Forall call_ok (proc t)) (Hq : timers_ok q) (Hreset : reset q = false) (Hdt : (0 ≤ dt)%Z)
  (Hwrap : (elapsed_time q + dt < 65535)%Z ∨
           (elapsed_time q + dt < 2 ^ 32)%Z ∧ ∀ t, t ∈ ring q → (elapsed_time q + dt < scheduled_time q t)%Z) :
  ∃ fired q', apt_timer_queue_advance proc q dt = Some (Ok (fired, q')) ∧ timers_ok q' ∧
    (∀ t, t ∈ ring q' → (elapsed_time q' < scheduled_time q' t)%Z) ∧
    Forall (λ x, (x.2 ≤ elapsed_time q + dt)%Z) fired ∧ StronglySorted Z.le fired.*2.
Proof.
  unfold apt_timer_queue_advance, apt_timer_queue_is_empty. case_bool_decide as Hnil.
  { exists [], q. split_and!; [done..| |constructor|constructor]. intros t Ht. rewrite Hnil in Ht.
    by apply elem_of_nil in Ht. }
  rewrite Hreset. pose proof (tk_elapsed q Hq) as He. rewrite wrap_u_small by lia.
  set (q1 := if decide _ then _ else _).
  assert (timers_ok q1 ∧ (elapsed_time q1 ≤ elapsed_time q + dt)%Z) as [Hq1 Hle].
  { unfold q1. simpl elapsed_time. case_decide as Hbig.
    - split; [|simpl; lia]. rewrite <- Hreset. apply reschedule_ok; [done|lia|].
      destruct Hwrap as [?|[_ ?]]; [lia|done].
    - split; [|simpl; lia]. destruct Hq. split; simpl; try done. lia. }
  destruct (process_ok proc (S (length (ring q1))) q1 0 Hproc Hq1) as (fired & q' & E & Hq' & Hnone & Hall & Hsort).
  - unfold due_timers. pose proof (length_filter (λ t, (scheduled_time q1 t ≤ elapsed_time q1)%Z) (ring q1)). lia.
  - intros t _. apply Hq1.
  - exists fired, q'. split_and!; [done..| | |done].
    + intros t Ht. apply Znot_ge_lt. intros Hge. apply (Hnone t). split; [done|lia].
    + eapply Forall_impl; [exact Hall|]. simpl. lia.
Qed.

(** A timer that is due when the time is restarted never fires.  When the
    elapsed time reaches 65535 the times of all timers are reduced by it; that
    of a timer which should fire now wraps to about 2^32 milliseconds, and
    advancing fires nothing. *)
Theorem late_timer_lost (proc : nat → list timer_call) q (t : nat) (dt : Z)
  (Hq : timers_ok q) (Hreset : reset q = false) (Ht : ring q = [t])
  (Hdt : (65535 ≤ elapsed_time q + dt < 2 ^ 32)%Z) (Hlate : (scheduled_time q t < elapsed_time q + dt)%Z) :
  ∃ q', apt_timer_queue_advance proc q dt = Some (Ok ([], q')) ∧ ring q' = [t] ∧
    (scheduled_time q' t - elapsed_time q' = 2 ^ 32 - (elapsed_time q + dt - scheduled_time q t))%Z.
Proof.
  unfold apt_timer_queue_advance, apt_timer_queue_is_empty. rewrite bool_decide_false by (by rewrite Ht).
  rewrite Hreset. pose proof (tk_elapsed q Hq) as He. rewrite wrap_u_small by lia. simpl elapsed_time.
  rewrite decide_True by lia. set (q1 := apt_timers_reschedule _).
  assert (ring q1 = [t]) as Hr by done.
  assert (scheduled_time q1 t = 2 ^ 32 - (elapsed_time q + dt - scheduled_time q t))%Z as Hs.
  { unfold q1. rewrite reschedule_time. simpl. rewrite decide_True by (rewrite Ht; by left).
    change (default 0%Z (times q !! t)) with (scheduled_time q t).
    unfold scheduled_time at 1. simpl times. fold (scheduled_time q t).
    unfold wrap_u. rewrite <- (Z.mod_add _ 1) by lia. pose proof (tk_range q Hq t).
    rewrite Z.mod_small; lia. }
  exists q1. split_and!; [|done|rewrite Hs; simpl; lia].
  cbn [process_timers]. rewrite Hr, decide_True; [done|]. rewrite Hs. simpl. pose proof (tk_range q Hq t). lia.
Qed.

(** ** Witnesses *)

(** Timer 1 was set for 70 seconds, and 70.001 seconds have passed. *)
Definition long_timer : apt_timer_queue_t := mk_timers [1] {[1 := 70000%Z]} 0 false.

Lemma one_timer_ok (z : Z) : (0 < z < 2 ^ 32)%Z → timers_ok (mk_timers [1] {[1 := z]} 0 false).
Proof.
  intros Hz. assert (∀ t, scheduled_time (mk_timers [1] {[1 := z]} 0 false) t = if decide (t = 1) then z else 0%Z) as Ht.
  { intros t. unfold scheduled_time. simpl. case_decide as E; [subst; by rewrite lookup_singleton_eq|].
    by rewrite lookup_singleton_ne. }
  split; simpl; try lia; [apply NoDup_singleton|by repeat constructor|..]; intros t; rewrite Ht;
    case_decide; set_solver by lia || lia.
Qed.

Lemma late_timer_lost_witness :
  ∃ q', apt_timer_queue_advance (λ _, []) long_timer 70001 = Some (Ok ([], q')) ∧ ring q' = [1].
Proof.
  destruct (late_timer_lost (λ _, []) long_timer 1 70001) as (q' & E & Hr & _).
  - apply one_timer_ok. lia.
  - reflexivity.
  - reflexivity.
  - simpl. lia.
  - vm_compute. reflexivity.
  - exists q'. split; [exact E|exact Hr].
Defined.

Lemma advance_fires_due_witness :
  ∃ fired q', apt_timer_queue_advance (λ t, [TimerSet t 100]) (mk_timers [1] {[1 := 50%Z]} 0 false) 60 =
      Some (Ok (fired, q')) ∧ timers_ok q'.
Proof.
  destruct (advance_fires_due (λ t, [TimerSet t 100]) (mk_timers [1] {[1 := 50%Z]} 0 false) 60)
    as (fired & q' & E & Hq & _).
  - intros t. constructor; [|constructor]. unfold call_ok, timeout_ok. lia.
  - apply one_timer_ok. lia.
  - reflexivity.
  - lia.
  - left. simpl. lia.
  - exists fired, q'. split; [exact E|exact Hq].
Defined.
