(* ===== verification/G711.v ===== *)
(** * G711: the A-law and u-law codecs of the media library ([g711.h],
    [mpf_codec_g711.c]).

    A sample is a signed 16-bit number, a code a byte; [int] has 32 bits.  The
    position of the highest bit is found with masks, as on a processor without
    an instruction for it.  A frame is the list of its samples or codes; the
    buffer of the output has room for them. *)
From S2P Require Import Prelude.
From stdpp Require Import numbers.
Local Open Scope Z_scope.

Notation u8 := (wrap_u 8) (only parsing).
Notation i16 := (wrap_s 16) (only parsing).
Notation ULAW_BIAS := 132 (only parsing).
Notation ALAW_AMI_MASK := 85 (only parsing).

(** One step of the search: [if (bits & mask) { bits &= mask; i += n; }]. *)
Definition top_bit_step (mask n : Z) (x : Z * Z) : Z * Z :=
  if decide (Z.land x.1 mask ≠ 0) then (Z.land x.1 mask, x.2 + n) else x.

Definition top_bit (bits : Z) : Z :=
  if decide (bits = 0) then -1
  else
    (top_bit_step 0xAAAAAAAA 1 (top_bit_step 0xCCCCCCCC 2 (top_bit_step 0xF0F0F0F0 4
      (top_bit_step 0xFF00FF00 8 (top_bit_step 0xFFFF0000 16 (bits, 0)))))).2.

(** [ULAW_ZEROTRAP] is not defined. *)
Definition linear_to_ulaw (linear : Z) : Z :=
  let '(linear, mask) :=
    if decide (linear < 0) then (i32 (ULAW_BIAS - linear - 1), 127) else (i32 (ULAW_BIAS + linear), 255) in
  let seg := top_bit (u32 (Z.lor linear 255)) - 7 in
  if decide (8 ≤ seg) then u8 (Z.lxor 127 mask)
  else u8 (Z.lxor (Z.lor (Z.shiftl seg 4) (Z.land (Z.shiftr linear (seg + 3)) 15)) mask).

Definition ulaw_to_linear (ulaw : Z) : Z :=
  let ulaw := u8 (Z.lnot ulaw) in
  let t := Z.shiftl (Z.shiftl (Z.land ulaw 15) 3 + ULAW_BIAS) (Z.shiftr (Z.land ulaw 112) 4) in
  i16 (if decide (Z.land ulaw 128 ≠ 0) then ULAW_BIAS - t else t - ULAW_BIAS).

Definition linear_to_alaw (linear : Z) : Z :=
  let '(linear, mask) :=
    if decide (0 ≤ linear) then (linear, Z.lor ALAW_AMI_MASK 128) else (i32 (- linear - 1), ALAW_AMI_MASK) in
  let seg := top_bit (u32 (Z.lor linear 255)) - 7 in
  if decide (8 ≤ seg ∧ 0 ≤ linear) then u8 (Z.lxor 127 mask)
  else u8 (Z.lxor (Z.lor (Z.shiftl seg 4)
             (Z.land (Z.shiftr linear (if decide (seg ≠ 0) then seg + 3 else 4)) 15)) mask).

Definition alaw_to_linear (alaw : Z) : Z :=
  let alaw := u8 (Z.lxor alaw ALAW_AMI_MASK) in
  let i := Z.shiftl (Z.land alaw 15) 4 in
  let seg := Z.shiftr (Z.land alaw 112) 4 in
  let i := if decide (seg ≠ 0) then Z.shiftl (i + 264) (seg - 1) else i + 8 in
  i16 (if decide (Z.land alaw 128 ≠ 0) then i else - i).

Definition g711u_encode (frame_in : list Z) : list Z := linear_to_ulaw <$> frame_in.
Definition g711u_decode (frame_in : list Z) : list Z := ulaw_to_linear <$> frame_in.
Definition g711u_init (size : nat) : list Z := replicate size (linear_to_ulaw 0).
Definition g711a_encode (frame_in : list Z) : list Z := linear_to_alaw <$> frame_in.
Definition g711a_decode (frame_in : list Z) : list Z := alaw_to_linear <$> frame_in.
Definition g711a_init (size : nat) : list Z := replicate size (linear_to_alaw 0).

(** ** The highest bit *)

(** What is left of the bits after the steps of weight 2^j and more: the highest
    bit [k], and bits that agree with it above [j]. *)
Record searching (k j b : Z) : Prop := {
  se_top : Z.testbit b k = true;
  se_rest : ∀ i, 0 ≤ i → Z.testbit b i = true → i ≤ k ∧ i / 2 ^ j = k / 2 ^ j
}.

(** The mask has the positions below 32 whose bit [j] is set. *)
Definition selects (mask j : Z) : Prop := ∀ i, 0 ≤ i < 32 → Z.testbit mask i = Z.odd (i / 2 ^ j).

Lemma forall_below (P : Z → bool) (n i : Z) :
  forallb P (seqZ 0 n) = true → 0 ≤ i < n → P i = true.
Proof. rewrite forallb_forall. intros HP Hi. apply HP, list_elem_of_In, elem_of_seqZ. lia. Qed.

Lemma selects_by (mask j : Z) :
  forallb (λ i, bool_decide (Z.testbit mask i = Z.odd (i / 2 ^ j))) (seqZ 0 32) = true → selects mask j.
Proof.
  intros Hall i Hi. apply (bool_decide_eq_true_1 (Z.testbit mask i = Z.odd (i / 2 ^ j))).
  exact (forall_below _ 32 i Hall Hi).
Qed.

Lemma odd_half (a b : Z) : a / 2 = b / 2 → Z.odd a = Z.odd b → a = b.
Proof.
  intros Hd Ho. rewrite (Z.div_mod a 2), (Z.div_mod b 2), Hd by lia. by rewrite !Zmod_odd, Ho.
Qed.

Lemma top_bit_step_spec (k j b n mask : Z) :
  0 ≤ j → 0 ≤ k < 32 → selects mask j → searching k (j + 1) b →
  let x := top_bit_step mask (2 ^ j) (b, n) in
  searching k j x.1 ∧ x.2 = n + (if Z.odd (k / 2 ^ j) then 2 ^ j else 0).
Proof.
  intros Hj Hk Hsel [Htop Hrest] x.
  assert (∀ i, i / 2 ^ (j + 1) = i / 2 ^ j / 2) as Hhalf.
  { intros i. rewrite Z.div_div, Z.pow_add_r by lia. done. }
  assert (∀ i, 0 ≤ i → Z.testbit b i = true → i < 32 ∧ i / 2 ^ j ≤ k / 2 ^ j ∧ i / 2 ^ j / 2 = k / 2 ^ j / 2) as Hb.
  { intros i Hi Ht. destruct (Hrest i Hi Ht) as [Hle Heq]. rewrite !Hhalf in Heq.
    split_and!; [lia| |done]. apply Z.div_le_mono; lia. }
  unfold x, top_bit_step. simpl. destruct (Z.odd (k / 2 ^ j)) eqn:Hodd.
  - rewrite decide_True.
    2: { intros Hz. assert (Z.testbit (Z.land b mask) k = true) as Hk1.
         { by rewrite Z.land_spec, Htop, Hsel, Hodd by lia. }
         by rewrite Hz, Z.bits_0 in Hk1. }
    split; [|done]. split; simpl.
    + by rewrite Z.land_spec, Htop, Hsel, Hodd by lia.
    + intros i Hi. rewrite Z.land_spec. intros [Ht Hm]%andb_true_iff. destruct (Hb i Hi Ht) as (H32 & _ & Hh).
      split; [by apply Hrest|]. apply odd_half; [done|]. by rewrite <- Hsel, Hm, Hodd by lia.
  - assert (∀ i, 0 ≤ i → Z.testbit b i = true → Z.odd (i / 2 ^ j) = false) as Heven.
    { intros i Hi Ht. destruct (Hb i Hi Ht) as (_ & Hle & Hh). destruct (Z.odd (i / 2 ^ j)) eqn:Ho; [|done].
      pose proof (Z.div_mod (i / 2 ^ j) 2 ltac:(lia)) as E1. pose proof (Z.div_mod (k / 2 ^ j) 2 ltac:(lia)) as E2.
      rewrite Zmod_odd, Ho in E1. rewrite Zmod_odd, Hodd in E2. lia. }
    rewrite decide_False.
    2: { intros Hn. apply Hn. apply Z.bits_inj'. intros i Hi. rewrite Z.bits_0, Z.land_spec.
         destruct (Z.testbit b i) eqn:Ht; [|done]. destruct (Hb i Hi Ht) as (H32 & _).
         simpl. rewrite Hsel by lia. by apply Heven. }
    split; [|simpl; lia]. split; [done|]. intros i Hi Ht. destruct (Hb i Hi Ht) as (_ & _ & Hh).
    split; [by apply Hrest|]. apply odd_half; [done|]. by rewrite Hodd, Heven.
Qed.

Lemma log2_searching (b : Z) : 0 < b < 2 ^ 32 → 0 ≤ Z.log2 b < 32 ∧ searching (Z.log2 b) 5 b.
Proof.
  intros Hb. assert (0 ≤ Z.log2 b < 32) as Hk.
  { split; [apply Z.log2_nonneg|]. apply Z.log2_lt_pow2; lia. }
  split; [done|]. split; [apply Z.bit_log2; lia|]. intros i Hi Ht.
  assert (i ≤ Z.log2 b) as Hle.
  { apply Z.le_ngt. intros Hlt. by rewrite Z.bits_above_log2 in Ht by lia. }
  split; [done|]. rewrite !Z.div_small; lia.
Qed.

Lemma bits_sum (k : Z) : 0 ≤ k < 32 →
  0 + (if Z.odd (k / 2 ^ 4) then 2 ^ 4 else 0) + (if Z.odd (k / 2 ^ 3) then 2 ^ 3 else 0) +
  (if Z.odd (k / 2 ^ 2) then 2 ^ 2 else 0) + (if Z.odd (k / 2 ^ 1) then 2 ^ 1 else 0) +
  (if Z.odd (k / 2 ^ 0) then 2 ^ 0 else 0) = k.
Proof.
  intros Hk. match goal with |- ?l = k => apply (bool_decide_eq_true_1 (l = k)) end. revert k Hk.
  enough (forallb (λ k, bool_decide (0 + (if Z.odd (k / 2 ^ 4) then 2 ^ 4 else 0) +
    (if Z.odd (k / 2 ^ 3) then 2 ^ 3 else 0) + (if Z.odd (k / 2 ^ 2) then 2 ^ 2 else 0) +
    (if Z.odd (k / 2 ^ 1) then 2 ^ 1 else 0) + (if Z.odd (k / 2 ^ 0) then 2 ^ 0 else 0) = k)) (seqZ 0 32) = true)
    as Hall by (intros k Hk; exact (forall_below _ 32 k Hall Hk)).
  vm_compute. reflexivity.
Qed.

(** The masks find the highest bit: [top_bit] is the binary logarithm of every
    32-bit number that is not 0, as the instruction of the processor is. *)
Lemma top_bit_is_log2 (bits : Z) : 0 < bits < 2 ^ 32 → top_bit bits = Z.log2 bits.
Proof.
  intros Hb. destruct (log2_searching bits Hb) as [Hk H5]. set (k := Z.log2 bits) in *.
  unfold top_bit. rewrite decide_False by lia.
  assert (∀ j mask x, 0 ≤ j → selects mask j → searching k (j + 1) x.1 →
    searching k j (top_bit_step mask (2 ^ j) x).1 ∧
    (top_bit_step mask (2 ^ j) x).2 = x.2 + (if Z.odd (k / 2 ^ j) then 2 ^ j else 0)) as Hstep.
  { intros j mask [b n] Hj Hm Hs. by apply top_bit_step_spec. }
  destruct (Hstep 4 0xFFFF0000 (bits, 0)) as [G4 E4]; [lia|by apply selects_by|done|].
  destruct (Hstep 3 0xFF00FF00 _ ltac:(lia) (selects_by 0xFF00FF00 3 eq_refl) G4) as [G3 E3].
  destruct (Hstep 2 0xF0F0F0F0 _ ltac:(lia) (selects_by 0xF0F0F0F0 2 eq_refl) G3) as [G2 E2].
  destruct (Hstep 1 0xCCCCCCCC _ ltac:(lia) (selects_by 0xCCCCCCCC 1 eq_refl) G2) as [G1 E1].
  destruct (Hstep 0 0xAAAAAAAA _ ltac:(lia) (selects_by 0xAAAAAAAA 0 eq_refl) G1) as [_ E0].
  etransitivity; [exact E0|]. rewrite E1, E2, E3, E4.
  exact (bits_sum k Hk).
Qed.

(** The segment of a magnitude below 2^16. *)
Lemma segment_spec (l : Z) : 0 ≤ l < 2 ^ 16 →
  let seg := top_bit (u32 (Z.lor l 255)) - 7 in
  0 ≤ seg ∧ l < 2 ^ (seg + 8) ∧ (seg = 0 ∨ 2 ^ (seg + 7) ≤ l).
Proof.
  intros Hl seg. assert (Z.log2 l < 16) as Hlog.
  { destruct (decide (l = 0)) as [->|]; [done|]. apply Z.log2_lt_pow2; lia. }
  pose proof (Z.log2_lor l 255 ltac:(lia) ltac:(lia)) as Hlor. change (Z.log2 255) with 7 in Hlor.
  assert (0 < Z.lor l 255) as Hpos.
  { assert (Z.lor l 255 ≠ 0) by (intros [_ ?]%Z.lor_eq_0_iff; done). pose proof (Z.lor_nonneg l 255). lia. }
  assert (Z.lor l 255 < 2 ^ 16) as Hlt by (apply Z.log2_lt_pow2; lia).
  assert (seg = Z.max (Z.log2 l) 7 - 7) as ->.
  { unfold seg. rewrite wrap_u_small by lia. rewrite top_bit_is_log2 by lia. lia. }
  split; [lia|]. split.
  - replace (Z.max (Z.log2 l) 7 - 7 + 8) with (Z.succ (Z.max (Z.log2 l) 7)) by lia.
    destruct (decide (l = 0)) as [->|]; [done|]. apply Z.lt_le_trans with (2 ^ Z.succ (Z.log2 l)).
    + apply Z.log2_spec. lia.
    + apply Z.pow_le_mono_r; lia.
  - destruct (decide (Z.log2 l ≤ 7)) as [|Hgt]; [left; lia|right].
    replace (Z.max (Z.log2 l) 7 - 7 + 7) with (Z.log2 l) by lia.
    destruct (decide (l = 0)) as [->|]; [by destruct Hgt|]. apply Z.log2_spec. lia.
Qed.

(** ** The value of a code *)

Lemma forall_codes (P : Z → Z → bool) (seg m : Z) :
  forallb (λ seg, forallb (P seg) (seqZ 0 16)) (seqZ 0 8) = true → 0 ≤ seg < 8 → 0 ≤ m < 16 → P seg m = true.
Proof. intros Hall Hs Hm. apply (forall_below (P seg) 16); [|done]. exact (forall_below _ 8 seg Hall Hs). Qed.

Definition ulaw_value (seg m : Z) : Z := (8 * m + 132) * 2 ^ seg - 132.
Definition alaw_value (seg m : Z) : Z :=
  if decide (seg = 0) then 16 * m + 8 else (16 * m + 264) * 2 ^ (seg - 1).

Lemma ulaw_code (seg m : Z) : 0 ≤ seg < 8 → 0 ≤ m < 16 →
  ulaw_to_linear (u8 (Z.lxor (Z.lor (Z.shiftl seg 4) m) 255)) = ulaw_value seg m ∧
  ulaw_to_linear (u8 (Z.lxor (Z.lor (Z.shiftl seg 4) m) 127)) = - ulaw_value seg m.
Proof.
  intros Hs Hm. apply (bool_decide_eq_true_1 (_ ∧ _)).
  refine (forall_codes (λ seg m, bool_decide (_ ∧ _)) seg m _ Hs Hm). vm_compute. reflexivity.
Qed.

Lemma alaw_code (seg m : Z) : 0 ≤ seg < 8 → 0 ≤ m < 16 →
  alaw_to_linear (u8 (Z.lxor (Z.lor (Z.shiftl seg 4) m) (Z.lor ALAW_AMI_MASK 128))) = alaw_value seg m ∧
  alaw_to_linear (u8 (Z.lxor (Z.lor (Z.shiftl seg 4) m) ALAW_AMI_MASK)) = - alaw_value seg m.
Proof.
  intros Hs Hm. apply (bool_decide_eq_true_1 (_ ∧ _)).
  refine (forall_codes (λ seg m, bool_decide (_ ∧ _)) seg m _ Hs Hm). vm_compute. reflexivity.
Qed.

(** The quantization bits of a magnitude in the segment [seg]. *)
Lemma quantization (l k : Z) : 0 ≤ k → Z.land (Z.shiftr l k) 15 = (l / 2 ^ k) mod 16.
Proof. intros Hk. change 15 with (Z.ones 4). by rewrite Z.land_ones, Z.shiftr_div_pow2 by lia. Qed.

Ltac by_segment seg :=
  assert (seg = 0 ∨ seg = 1 ∨ seg = 2 ∨ seg = 3 ∨ seg = 4 ∨ seg = 5 ∨ seg = 6 ∨ seg = 7) as Hcases by lia;
  repeat (destruct Hcases as [->|Hcases]); [..|subst seg].

(** How far the value of a code is from the magnitude; with the sign, a negative
    sample is one further. *)
Definition near (d bound : Z) : Prop := 32 * d ≤ bound ∧ - bound ≤ 32 * (d - 1).

Lemma ulaw_magnitude (seg l : Z) : 0 ≤ seg < 8 → 2 ^ (seg + 7) ≤ l < 2 ^ (seg + 8) →
  near (ulaw_value seg ((l / 2 ^ (seg + 3)) mod 16) - (l - 132)) l.
Proof.
  intros Hs Hl. unfold near, ulaw_value. pose proof (Z.pow_pos_nonneg 2 (seg + 3) ltac:(lia) ltac:(lia)) as Hp.
  pose proof (Z.div_mod l (2 ^ (seg + 3)) ltac:(lia)) as E. pose proof (Z.mod_pos_bound l (2 ^ (seg + 3)) Hp) as Hr.
  set (q := l / 2 ^ (seg + 3)) in *. pose proof (Z.div_mod q 16 ltac:(lia)) as Eq.
  pose proof (Z.mod_pos_bound q 16 ltac:(lia)) as Hm. set (h := q / 16) in *. set (m := q mod 16) in *.
  set (r := l mod 2 ^ (seg + 3)) in *. clearbody q r h m. by_segment seg; simpl Z.pow in *; lia.
Qed.

Lemma alaw_magnitude (seg l : Z) : 0 ≤ seg < 8 → 0 ≤ l < 2 ^ (seg + 8) → (seg = 0 ∨ 2 ^ (seg + 7) ≤ l) →
  near (alaw_value seg ((l / 2 ^ (if decide (seg ≠ 0) then seg + 3 else 4)) mod 16) - l) (l + 256).
Proof.
  intros Hs Hl Hseg. unfold near, alaw_value. set (k := if decide (seg ≠ 0) then seg + 3 else 4).
  assert (0 ≤ k) as Hk by (unfold k; case_decide; lia). pose proof (Z.pow_pos_nonneg 2 k ltac:(lia) Hk) as Hp.
  pose proof (Z.div_mod l (2 ^ k) ltac:(lia)) as E. pose proof (Z.mod_pos_bound l (2 ^ k) Hp) as Hr.
  set (q := l / 2 ^ k) in *. pose proof (Z.div_mod q 16 ltac:(lia)) as Eq.
  pose proof (Z.mod_pos_bound q 16 ltac:(lia)) as Hm. set (h := q / 16) in *. set (m := q mod 16) in *.
  set (r := l mod 2 ^ k) in *. clearbody q r h m. subst k.
  by_segment seg; simpl in *; simpl Z.pow in *; lia.
Qed.

Definition is_sample (x : Z) : Prop := - 2 ^ 15 ≤ x < 2 ^ 15.

Lemma ulaw_error (x : Z) : is_sample x → 32 * Z.abs (ulaw_to_linear (linear_to_ulaw x) - x) ≤ Z.abs x + 132.
Proof.
  intros Hx. unfold is_sample in Hx. unfold linear_to_ulaw.
  assert (∀ l mask s, 132 ≤ l < 32900 → (mask = 255 ∧ s = 1 ∨ mask = 127 ∧ s = -1) →
    let seg := top_bit (u32 (Z.lor l 255)) - 7 in
    ∃ v, ulaw_to_linear (if decide (8 ≤ seg) then u8 (Z.lxor 127 mask)
      else u8 (Z.lxor (Z.lor (Z.shiftl seg 4) (Z.land (Z.shiftr l (seg + 3)) 15)) mask)) = s * v ∧
      near (v - (l - 132)) l) as Hmag.
  { intros l mask s Hl Hmask seg. destruct (segment_spec l ltac:(lia)) as (Hs0 & Hlt & Hge). fold seg in Hs0, Hlt, Hge.
    case_decide as Hs.
    - exists 32124. assert (2 ^ 15 ≤ l) as Hbig.
      { destruct Hge as [?|Hge]; [lia|]. apply Z.le_trans with (2 ^ (seg + 7)); [|done].
        apply Z.pow_le_mono_r; lia. }
      split; [by destruct Hmask as [[-> ->]|[-> ->]]|unfold near; lia].
    - set (m := Z.land _ 15). assert (m = (l / 2 ^ (seg + 3)) mod 16) as Em by (apply quantization; lia).
      exists (ulaw_value seg m). split.
      + destruct (ulaw_code seg m ltac:(lia)) as [E1 E2]; [rewrite Em; apply Z.mod_pos_bound; lia|].
        destruct Hmask as [[-> ->]|[-> ->]]; rewrite ?E1, ?E2; lia.
      + rewrite Em. apply ulaw_magnitude; [lia|]. split; [|done]. destruct Hge as [->|?]; [simpl; lia|done]. }
  case_decide as Hneg.
  - rewrite wrap_s_small by lia. destruct (Hmag (132 - x - 1) 127 (-1)) as (v & -> & Hv); [lia|by right|].
    unfold near in Hv. lia.
  - rewrite wrap_s_small by lia. destruct (Hmag (132 + x) 255 1) as (v & -> & Hv); [lia|by left|].
    unfold near in Hv. lia.
Qed.

Lemma alaw_error (x : Z) : is_sample x → 32 * Z.abs (alaw_to_linear (linear_to_alaw x) - x) ≤ Z.abs x + 256.
Proof.
  intros Hx. unfold is_sample in Hx. unfold linear_to_alaw.
  assert (∀ l mask s, 0 ≤ l < 2 ^ 15 → (mask = Z.lor 85 128 ∧ s = 1 ∨ mask = 85 ∧ s = -1) →
    let seg := top_bit (u32 (Z.lor l 255)) - 7 in
    ∃ v, alaw_to_linear (if decide (8 ≤ seg ∧ 0 ≤ l) then u8 (Z.lxor 127 mask)
      else u8 (Z.lxor (Z.lor (Z.shiftl seg 4)
        (Z.land (Z.shiftr l (if decide (seg ≠ 0) then seg + 3 else 4)) 15)) mask)) = s * v ∧
      near (v - l) (l + 256)) as Hmag.
  { intros l mask s Hl Hmask seg. destruct (segment_spec l ltac:(lia)) as (Hs0 & Hlt & Hge). fold seg in Hs0, Hlt, Hge.
    assert (seg < 8) as Hs.
    { destruct Hge as [?|Hge]; [lia|]. apply Z.nle_gt. intros Hs.
      assert (2 ^ 15 ≤ 2 ^ (seg + 7)) by (apply Z.pow_le_mono_r; lia). lia. }
    rewrite decide_False by lia. set (m := Z.land _ 15).
    assert (m = (l / 2 ^ (if decide (seg ≠ 0) then seg + 3 else 4)) mod 16) as Em.
    { apply quantization. case_decide; lia. }
    exists (alaw_value seg m). split.
    - destruct (alaw_code seg m ltac:(lia)) as [E1 E2]; [rewrite Em; apply Z.mod_pos_bound; lia|].
      destruct Hmask as [[-> ->]|[-> ->]]; rewrite ?E1, ?E2; lia.
    - rewrite Em. by apply alaw_magnitude; [lia..|]. }
  case_decide as Hpos.
  - destruct (Hmag x (Z.lor 85 128) 1) as (v & -> & Hv); [lia|by left|]. unfold near in Hv. lia.
  - rewrite wrap_s_small by lia. destruct (Hmag (- x - 1) 85 (-1)) as (v & -> & Hv); [lia|by right|].
    unfold near in Hv. lia.
Qed.

(** C28: The codecs lose at most 1/32 of a sample.  A frame of 16-bit samples that
    is encoded and decoded, with u-law or with A-law, has as many samples as
    before, and each of them is off by at most a 32nd of its magnitude, plus 5
    for u-law and 8 for A-law. *)
Theorem g711_error (frame : list Z) (Hframe : Forall is_sample frame) :
  Forall2 (λ x y, 32 * Z.abs (y - x) ≤ Z.abs x + 132) frame (g711u_decode (g711u_encode frame)) ∧
  Forall2 (λ x y, 32 * Z.abs (y - x) ≤ Z.abs x + 256) frame (g711a_decode (g711a_encode frame)).
Proof.
  unfold g711u_decode, g711u_encode, g711a_decode, g711a_encode.
  induction Hframe as [|x frame Hx _ [IHu IHa]]; [done|].
  split; constructor; [by apply ulaw_error|done|by apply alaw_error|done].
Qed.

(** Decoding is undone by encoding.  Every A-law code, and every u-law code
    but that of negative zero, is the code of its own value; negative zero
    becomes positive zero.  The silence a codec is initialised with is decoded
    to zero with u-law, to 8 with A-law. *)
Theorem g711_roundtrip (b : Z) (Hb : 0 ≤ b < 256) :
  linear_to_ulaw (ulaw_to_linear b) = (if decide (b = 127) then 255 else b) ∧
  linear_to_alaw (alaw_to_linear b) = b ∧
  g711u_decode (g711u_init 1) = [0] ∧ g711a_decode (g711a_init 1) = [8].
Proof.
  split; [|split; [|done]].
  - apply (bool_decide_eq_true_1 (_ = _)).
    refine (forall_below (λ b, bool_decide (_ = _)) 256 b _ Hb). vm_compute. reflexivity.
  - apply (bool_decide_eq_true_1 (_ = _)).
    refine (forall_below (λ b, bool_decide (_ = _)) 256 b _ Hb). vm_compute. reflexivity.
Qed.

Lemma g711_error_witness :
  Forall2 (λ x y, 32 * Z.abs (y - x) ≤ Z.abs x + 132) [-32768; -1; 0; 1000; 32767]
    (g711u_decode (g711u_encode [-32768; -1; 0; 1000; 32767])).
Proof. apply (g711_error [-32768; -1; 0; 1000; 32767]). repeat constructor; unfold is_sample; lia. Defined.

Lemma g711_roundtrip_witness : linear_to_alaw (alaw_to_linear 213) = 213.
Proof. apply (g711_roundtrip 213). lia. Defined.
