(* ===== verification/StringTable.v ===== *)
(** * StringTable: [apt_string_table.c], the tables that map the names of the
    protocol (methods, events, header fields, request states) to identifiers.

    Each item carries a key: the position of a character that tells the item
    from the others.  [apt_string_table_id_find] compares the key characters
    first and whole strings only when they match; [id_find_spec] shows that the
    shortcut does not change the result, whatever the keys are. *)
From S2P Require Import Prelude CString.

Record apt_str_table_item_t := mk_item { value : apt_str_t; key : nat }.

(** An item as the tables write it: [{{"NAME",length},key}]. *)
Definition item (name : string) (k : nat) : apt_str_table_item_t :=
  mk_item (str_of (lit name)) k.

Definition apt_string_table_str_get (table : list apt_str_table_item_t)
    (size id : nat) : option apt_str_t :=
  if decide (id < size) then value <$> table !! id else None.

(** The character [s.buf[i]]. *)
Definition char_at (s : apt_str_t) (i : nat) : char :=
  hd_char (drop i (default [] (buf s))).

(** Whether the loop body of [apt_string_table_id_find] returns at an item. *)
Definition item_matches (it : apt_str_table_item_t) (v : apt_str_t) : bool :=
  if decide (len (value it) ≠ len v) then false
  else if decide (key it < len v) then
    if decide (len v = len (value it) ∧
               tolower (char_at (value it) (key it)) = tolower (char_at v (key it)))
    then apt_string_compare (value it) v
    else false
  else apt_string_compare (value it) v.

Fixpoint id_find_loop (items : list apt_str_table_item_t) (v : apt_str_t) (i : nat) : option nat :=
  match items with
  | [] => None
  | it :: items => if item_matches it v then Some i else id_find_loop items v (S i)
  end.

Definition apt_string_table_id_find (table : list apt_str_table_item_t)
    (size : nat) (v : apt_str_t) : nat :=
  default size (id_find_loop (take size table) v 0).

(** ** Well-formed strings: the length is within the object and the counted
    characters are not NUL. *)
Definition str_wf (s : apt_str_t) : Prop :=
  len s ≤ length (default [] (buf s)) ∧ NUL ∉ chars s.

Lemma str_of_wf (s : cstr) : NUL ∉ s → str_wf (str_of s).
Proof. intros Hs. split; [done|]. unfold chars, str_of. simpl. by rewrite firstn_all. Qed.

Lemma chars_length (s : apt_str_t) : str_wf s → length (chars s) = len s.
Proof. intros [? _]. unfold chars. rewrite length_take. lia. Qed.

Lemma chars_str_of (s : cstr) : chars (str_of s) = s.
Proof. unfold chars, str_of. simpl. apply firstn_all. Qed.

(** Case-insensitive equality of non-empty strings is what
    [apt_string_compare] decides. *)
Lemma apt_string_compare_spec (s1 s2 : apt_str_t) :
  str_wf s1 → str_wf s2 →
  apt_string_compare s1 s2 = bool_decide (chars s1 ≠ [] ∧ ci_eq (chars s1) (chars s2)).
Proof.
  intros W1 W2. unfold apt_string_compare.
  assert (Hnil : chars s1 ≠ [] ↔ len s1 ≠ 0).
  { rewrite <- (chars_length s1 W1). by destruct (chars s1). }
  case_decide as Hd.
  - symmetry. apply bool_decide_eq_false. intros [Hne Heq].
    apply ci_eq_length in Heq. rewrite !chars_length in Heq by done. tauto.
  - destruct (decide (len s1 = len s2)) as [Hlen|]; [|tauto].
    unfold bufcasecmp_eq. destruct W1 as [L1 N1], W2 as [L2 N2].
    rewrite strncasecmp_eq_spec by (done || lia).
    apply bool_decide_ext. unfold chars in *. rewrite <- Hlen. tauto.
Qed.

Lemma ci_eq_lookup (s1 s2 : cstr) (i : nat) :
  ci_eq s1 s2 → tolower <$> s1 !! i = tolower <$> s2 !! i.
Proof. intros H. apply (f_equal (λ l, l !! i)) in H. by rewrite !list_lookup_fmap in H. Qed.

Lemma char_at_lookup (s : apt_str_t) (i : nat) :
  str_wf s → i < len s → chars s !! i = Some (char_at s i).
Proof.
  intros [Hl _] Hi. unfold chars, char_at. rewrite lookup_take_lt by done.
  destruct (lookup_lt_is_Some_2 (default [] (buf s)) i) as [c Hc]; [lia|].
  rewrite Hc. by rewrite (drop_S _ c i Hc).
Qed.

(** The key test never rejects an item the whole comparison accepts. *)
Lemma item_matches_spec (it : apt_str_table_item_t) (v : apt_str_t) :
  str_wf (value it) → str_wf v →
  item_matches it v = apt_string_compare (value it) v.
Proof.
  intros Wi Wv. unfold item_matches.
  case_decide as Hl.
  { unfold apt_string_compare. by rewrite decide_True by tauto. }
  case_decide as Hk; [|done]. case_decide as Hc; [done|].
  symmetry. rewrite apt_string_compare_spec by done.
  apply bool_decide_eq_false. intros [_ Heq]. apply Hc. split; [lia|].
  apply (ci_eq_lookup _ _ (key it)) in Heq.
  rewrite !char_at_lookup in Heq by (done || lia). by inversion Heq.
Qed.

(** The reference search: the first item whose name equals the string up to
    case. *)
Definition name_matches (v : apt_str_t) (it : apt_str_table_item_t) : Prop :=
  chars (value it) ≠ [] ∧ ci_eq (chars (value it)) (chars v).

Definition table_wf (table : list apt_str_table_item_t) : Prop :=
  Forall (λ it, str_wf (value it)) table.

Lemma id_find_loop_spec (items : list apt_str_table_item_t) (v : apt_str_t) (i : nat) :
  table_wf items → str_wf v →
  id_find_loop items v i = (λ p, i + p.1) <$> list_find (name_matches v) items.
Proof.
  intros Hw Wv. revert i. induction Hw as [|it items Wi Hw IH]; intros i; [done|].
  simpl. rewrite item_matches_spec, apt_string_compare_spec, IH by done.
  unfold name_matches at 1. destruct (decide _) as [Hm|Hm].
  - rewrite bool_decide_eq_true_2 by done. simpl. f_equal. lia.
  - rewrite bool_decide_eq_false_2 by done.
    destruct (list_find _ items) as [[j jt]|]; simpl; [|done]. f_equal. lia.
Qed.

(** The lookup with key characters returns exactly what a plain search
    returns: the index of the first item whose name is the string up to case,
    or [size] when there is none. *)
Theorem id_find_spec (table : list apt_str_table_item_t) (size : nat) (v : apt_str_t)
  (Hw : table_wf (take size table)) (Wv : str_wf v) :
  apt_string_table_id_find table size v =
    match list_find (name_matches v) (take size table) with
    | Some (i, _) => i
    | None => size
    end.
Proof.
  unfold apt_string_table_id_find. rewrite id_find_loop_spec by done.
  by destruct (list_find _ _) as [[i it]|].
Qed.

(** Names of a table are distinct up to case. *)
Definition names_distinct (table : list apt_str_table_item_t) : Prop :=
  ∀ i j a b, table !! i = Some a → table !! j = Some b →
    ci_eq (chars (value a)) (chars (value b)) → i = j.

Lemma id_find_at (table : list apt_str_table_item_t) (size id : nat)
    (it : apt_str_table_item_t) (v : apt_str_t) :
  table_wf (take size table) → str_wf v → names_distinct (take size table) →
  take size table !! id = Some it → chars (value it) ≠ [] →
  ci_eq (chars v) (chars (value it)) → apt_string_table_id_find table size v = id.
Proof.
  intros Hw Wv Hd Hit Hne Hv.
  unfold apt_string_table_id_find. rewrite id_find_loop_spec by done.
  destruct (list_find (name_matches v) (take size table)) as [[j jt]|] eqn:Hf; simpl.
  - apply list_find_Some in Hf as (Hj & [_ Hm] & _).
    apply (Hd j id jt it Hj Hit). by rewrite Hm.
  - exfalso. apply list_find_None in Hf. rewrite Forall_lookup in Hf.
    apply (Hf id it Hit). split; [done|]. by symmetry.
Qed.

(** The search depends on the characters of the string only. *)
Lemma id_find_chars (table : list apt_str_table_item_t) (size : nat) (v w : apt_str_t) :
  table_wf (take size table) → str_wf v → str_wf w → chars v = chars w →
  apt_string_table_id_find table size v = apt_string_table_id_find table size w.
Proof.
  intros Ht Wv Ww Hc. unfold apt_string_table_id_find. rewrite !id_find_loop_spec by done.
  rewrite (list_find_ext _ (name_matches w)); [done|].
  intros it. unfold name_matches. by rewrite Hc.
Qed.

Lemma str_wf_copy (s : apt_str_t) : str_wf s → str_wf (apt_string_copy s).
Proof.
  intros [Hl Hn]. unfold str_wf, apt_string_copy, chars in *. case_decide as Hz; simpl in *.
  - rewrite Hz. split; [lia|apply not_elem_of_nil].
  - destruct (buf s) as [b|]; simpl in *; [|lia]. rewrite length_take, take_take.
    split; [lia|]. by rewrite Nat.min_id.
Qed.

(** What is found: an item below [size] whose name is the string up to case. *)
Lemma id_find_inv (table : list apt_str_table_item_t) (size : nat) (v : apt_str_t) :
  table_wf (take size table) → str_wf v → apt_string_table_id_find table size v < size →
  ∃ it, take size table !! apt_string_table_id_find table size v = Some it ∧
    ci_eq (chars (value it)) (chars v).
Proof.
  intros Hw Wv. unfold apt_string_table_id_find. rewrite id_find_loop_spec by done.
  destruct (list_find (name_matches v) (take size table)) as [[j jt]|] eqn:Hf; simpl; [|lia].
  intros _. apply list_find_Some in Hf as (Hj & [_ Hm] & _). by exists jt.
Qed.

(** Distinctness of a concrete table is decided by computation. *)
Lemma names_distinct_NoDup (table : list apt_str_table_item_t) :
  NoDup ((λ it, tolower <$> chars (value it)) <$> table) → names_distinct table.
Proof.
  intros Hn i j a b Ha Hb He. eapply NoDup_lookup; [exact Hn|rewrite list_lookup_fmap, Ha; done|].
  rewrite list_lookup_fmap, Hb. simpl. f_equal. symmetry. apply He.
Qed.

(** Name to identifier inverts identifier to name: in a table of distinct
    non-empty names, looking up the name that [apt_string_table_str_get] gives
    for an identifier, in any case, finds that identifier. *)
Theorem id_find_str_get (table : list apt_str_table_item_t) (size id : nat) (s v : apt_str_t)
  (Hw : table_wf (take size table)) (Wv : str_wf v)
  (Hd : names_distinct (take size table))
  (Hs : apt_string_table_str_get table size id = Some s)
  (Hne : chars s ≠ []) (Hv : ci_eq (chars v) (chars s)) :
  apt_string_table_id_find table size v = id.
Proof.
  unfold apt_string_table_str_get in Hs. case_decide as Hid; [|done].
  destruct (table !! id) as [it|] eqn:Hit; simplify_eq/=.
  eapply id_find_at; [done..| |done|done]. by rewrite lookup_take_lt.
Qed.

(** The request states of MRCP, as a concrete table. *)
Definition sample_table : list apt_str_table_item_t :=
  [mk_item (str_of (lit "COMPLETE")) 0; mk_item (str_of (lit "IN-PROGRESS")) 0;
   mk_item (str_of (lit "PENDING")) 0].

Lemma sample_table_wf : table_wf (take 3 sample_table).
Proof. repeat constructor; try (vm_compute; lia); by apply (bool_decide_unpack _). Qed.

Lemma id_find_spec_witness :
  apt_string_table_id_find sample_table 3 (str_of (lit "In-Progress")) =
    match list_find (name_matches (str_of (lit "In-Progress"))) (take 3 sample_table) with
    | Some (i, _) => i
    | None => 3
    end.
Proof.
  apply id_find_spec; [apply sample_table_wf|apply str_of_wf; by apply (bool_decide_unpack _)].
Defined.

Lemma sample_table_distinct : names_distinct (take 3 sample_table).
Proof.
  intros i j a b Ha Hb He.
  repeat (destruct i as [|i]; simpl in Ha; simplify_eq);
    repeat (destruct j as [|j]; simpl in Hb; simplify_eq); try done;
    apply (f_equal length) in He; simplify_eq/=.
Qed.

Lemma id_find_str_get_witness :
  apt_string_table_id_find sample_table 3 (str_of (lit "pending")) = 2.
Proof.
  apply (id_find_str_get _ _ _ (str_of (lit "PENDING")));
    [apply sample_table_wf|apply str_of_wf; by apply (bool_decide_unpack _)
    |apply sample_table_distinct|done|done|vm_compute; reflexivity].
Defined.
