(* ===== verification/TextStream.v ===== *)
(** * TextStream: [apt_text_stream.h] and [apt_text_stream.c], the text streams
    that every protocol message is parsed from and generated into.

    A stream is a cursor [pos] in a memory object [mem]; [text_buf], [pos] and
    [end_] are the offsets in [mem] of the pointers [text.buf], [pos] and
    [end].  Readers return strings that point into [mem]; writers that store
    outside [mem] fault. *)
From S2P Require Import Prelude CString StringTable.

Record apt_text_stream_t := mk_stream {
  mem : cstr;
  text_buf : nat;
  text_len : nat;
  pos : nat;
  end_ : nat;
  is_eos : bool
}.

Definition with_pos (st : apt_text_stream_t) (p : nat) : apt_text_stream_t :=
  mk_stream (mem st) (text_buf st) (text_len st) p (end_ st) (is_eos st).
Definition with_eos (st : apt_text_stream_t) (b : bool) : apt_text_stream_t :=
  mk_stream (mem st) (text_buf st) (text_len st) (pos st) (end_ st) b.
Definition with_mem (st : apt_text_stream_t) (m : cstr) : apt_text_stream_t :=
  mk_stream m (text_buf st) (text_len st) (pos st) (end_ st) (is_eos st).

Definition apt_text_stream_reset (st : apt_text_stream_t) : apt_text_stream_t :=
  mk_stream (mem st) (text_buf st) (text_len st)
    (text_buf st) (text_buf st + text_len st) false.

Definition apt_text_stream_init (buffer : cstr) (size : nat) : apt_text_stream_t :=
  apt_text_stream_reset (mk_stream buffer 0 size 0 0 false).

(** [stream.text = *str; apt_text_stream_reset(&stream)]. *)
Definition stream_of_str (s : apt_str_t) : apt_text_stream_t :=
  apt_text_stream_init (default [] (buf s)) (len s).

(** The characters from [pos] to [end]: what a [while(pos < end)] loop sees. *)
Definition window (st : apt_text_stream_t) : cstr :=
  take (end_ st - pos st) (drop (pos st) (mem st)).

(** The pointer at an offset of the stream's object. *)
Definition ptr (st : apt_text_stream_t) (off : nat) : option cstr :=
  Some (drop off (mem st)).

(** ** Readers *)

(** The number of steps of [while(pos < end && p( *pos)) pos++]. *)
Fixpoint span_len (p : char → bool) (w : cstr) : nat :=
  match w with
  | c :: w => if p c then S (span_len p w) else 0
  | [] => 0
  end.

Definition is_char (c : char) : char → bool := λ x, bool_decide (x = c).
Definition not_char (c : char) : char → bool := λ x, bool_decide (x ≠ c).

Definition apt_text_is_wsp (c : char) : bool :=
  bool_decide (c = APT_TOKEN_SP ∨ c = APT_TOKEN_HTAB).

Definition apt_text_spaces_skip (st : apt_text_stream_t) : apt_text_stream_t :=
  with_pos st (pos st + span_len (is_char APT_TOKEN_SP) (window st)).

Definition apt_text_white_spaces_skip (st : apt_text_stream_t) : apt_text_stream_t :=
  with_pos st (pos st + span_len apt_text_is_wsp (window st)).

Definition apt_text_char_skip (st : apt_text_stream_t) (c : char) : apt_text_stream_t :=
  match window st with
  | x :: _ => if decide (x = c) then with_pos st (pos st + 1) else st
  | [] => st
  end.

Definition apt_text_chars_skip (st : apt_text_stream_t) (c : char) : apt_text_stream_t :=
  with_pos st (pos st + span_len (is_char c) (window st)).

Definition apt_text_skip_to_char (st : apt_text_stream_t) (c : char) : apt_text_stream_t :=
  with_pos st (pos st + span_len (not_char c) (window st)).

Definition apt_text_is_eos (st : apt_text_stream_t) : bool :=
  bool_decide (end_ st ≤ pos st) || is_eos st.

(** The scan of [apt_text_line_read]: the length of the line and the number of
    characters up to the end of its end-of-line mark; [None] at the end of the
    stream.  [k] is the number of characters passed. *)
Fixpoint line_scan (w : cstr) (k : nat) : option (nat * nat) :=
  match w with
  | [] => None
  | c :: w =>
      if decide (c = APT_TOKEN_CR) then
        Some (k, match w with
                 | d :: _ => if decide (d = APT_TOKEN_LF) then k + 2 else k + 1
                 | [] => k + 1
                 end)
      else if decide (c = APT_TOKEN_LF) then Some (k, k + 1)
      else line_scan w (k + 1)
  end.

Definition apt_text_line_read (st : apt_text_stream_t)
    : bool * apt_text_stream_t * apt_str_t :=
  match line_scan (window st) 0 with
  | Some (n, adv) => (true, with_pos st (pos st + adv), mk_str (ptr st (pos st)) n)
  | None => (false, with_eos st true, mk_str (ptr st (pos st)) (length (window st)))
  end.

(** The local state of [apt_text_header_read]: the offsets of [name.buf] and
    [value.buf] ([None] for NULL) and the two lengths. *)
Record header_scan_t := mk_hscan {
  h_name : option nat; h_name_len : nat;
  h_value : option nat; h_value_len : nat
}.

Definition header_value_end (h : header_scan_t) (k : nat) : header_scan_t :=
  match h_value h with
  | Some v => mk_hscan (h_name h) (h_name_len h) (Some v) (k - v)
  | None => h
  end.

(** One iteration at a character that does not end the line; [k] is the offset
    of the character. *)
Definition header_char (h : header_scan_t) (k : nat) (c : char) : header_scan_t :=
  if decide (h_name_len h = 0) then
    let nb := match h_name h with
              | None => if apt_text_is_wsp c then None else Some k
              | b => b
              end in
    let nl := if decide (c = ":"%char) then k - default 0 nb else 0 in
    mk_hscan nb nl (h_value h) (h_value_len h)
  else if decide (h_value_len h = 0) then
    let vb := match h_value h with
              | None => if apt_text_is_wsp c then None else Some k
              | b => b
              end in
    mk_hscan (h_name h) (h_name_len h) vb (h_value_len h)
  else h.

Fixpoint header_scan (w : cstr) (k : nat) (h : header_scan_t)
    : header_scan_t * option nat :=
  match w with
  | [] => (h, None)
  | c :: w =>
      if decide (c = APT_TOKEN_CR) then
        (header_value_end h k,
         Some (match w with
               | d :: _ => if decide (d = APT_TOKEN_LF) then k + 2 else k + 1
               | [] => k + 1
               end))
      else if decide (c = APT_TOKEN_LF) then (header_value_end h k, Some (k + 1))
      else header_scan w (k + 1) (header_char h k c)
  end.

Record apt_pair_t := mk_pair { pair_name : apt_str_t; pair_value : apt_str_t }.

Definition hscan_pair (st : apt_text_stream_t) (h : header_scan_t) : apt_pair_t :=
  mk_pair (mk_str (o ← h_name h; ptr st o) (h_name_len h))
          (mk_str (o ← h_value h; ptr st o) (h_value_len h)).

Definition apt_text_header_read (st : apt_text_stream_t)
    : bool * apt_text_stream_t * apt_pair_t :=
  match header_scan (window st) (pos st) (mk_hscan None 0 None 0) with
  | (h, Some p) =>
      (negb (bool_decide (h_name_len h = 0) && bool_decide (is_Some (h_name h))),
       with_pos st p, hscan_pair st h)
  | (h, None) => (false, with_eos st true, hscan_pair st h)
  end.

Definition apt_text_field_read (st : apt_text_stream_t) (separator : char)
    (skip_spaces : bool) : bool * apt_text_stream_t * apt_str_t :=
  let st1 := if skip_spaces then apt_text_spaces_skip st else st in
  let n := span_len (not_char separator) (window st1) in
  let p := pos st1 + n in
  let p' := if decide (p < end_ st) then p + 1 else p in
  (bool_decide (n ≠ 0), with_pos st p', mk_str (ptr st (pos st1)) n).

#[global] Arguments apt_text_line_read : simpl never.
#[global] Arguments apt_text_header_read : simpl never.
#[global] Arguments apt_text_field_read : simpl never.

(** ** Writers *)

(** [memcpy(stream->pos,s,|s|)]. *)
Definition store_all (st : apt_text_stream_t) (s : cstr) : res apt_text_stream_t :=
  if decide (pos st + length s ≤ length (mem st)) then
    Ok (with_mem st (take (pos st) (mem st) ++ s ++ drop (pos st + length s) (mem st)))
  else Fault.

(** [memcpy(stream->pos,s,|s|); stream->pos += |s|]. *)
Definition put_all (st : apt_text_stream_t) (s : cstr) : res apt_text_stream_t :=
  st' ← store_all st s; Ok (with_pos st' (pos st + length s)).

(** [*stream->pos++ = c]. *)
Definition put (st : apt_text_stream_t) (c : char) : res apt_text_stream_t :=
  put_all st [c].

Definition apt_text_eol_insert (st : apt_text_stream_t) : res (bool * apt_text_stream_t) :=
  if decide (pos st + 2 < end_ st) then
    st ← put st APT_TOKEN_CR; st ← put st APT_TOKEN_LF; Ok (true, st)
  else Ok (false, st).

Definition apt_text_char_insert (st : apt_text_stream_t) (c : char)
    : res (bool * apt_text_stream_t) :=
  if decide (pos st + 1 < end_ st) then st ← put st c; Ok (true, st)
  else Ok (false, st).

Definition apt_text_space_insert (st : apt_text_stream_t) := apt_text_char_insert st APT_TOKEN_SP.
Definition apt_text_htab_insert (st : apt_text_stream_t) := apt_text_char_insert st APT_TOKEN_HTAB.

Definition apt_text_string_insert (st : apt_text_stream_t) (str : apt_str_t)
    : res (bool * apt_text_stream_t) :=
  if decide (end_ st ≤ pos st + len str) then Ok (false, st)
  else if decide (len str = 0) then Ok (true, st)
  else st ← put_all st (chars str); Ok (true, st).

Definition apt_text_header_name_insert (st : apt_text_stream_t) (name : apt_str_t)
    : res (bool * apt_text_stream_t) :=
  if decide (end_ st ≤ pos st + len name + 2) then Ok (false, st)
  else
    st ← put_all st (chars name);
    st ← put st ":"%char;
    st ← put st APT_TOKEN_SP;
    Ok (true, st).

Definition apt_text_name_value_insert (st : apt_text_stream_t) (name value : apt_str_t)
    : res (bool * apt_text_stream_t) :=
  if decide (end_ st ≤ pos st + len name + len value + 2) then Ok (false, st)
  else
    st ← put_all st (chars name);
    st ← put st ":"%char;
    st ← put st APT_TOKEN_SP;
    st ← (if apt_string_is_empty value then Ok st else put_all st (chars value));
    apt_text_eol_insert st.

(** [*stream->pos = c], the cursor unchanged. *)
Definition poke (st : apt_text_stream_t) (c : char) : res apt_text_stream_t :=
  store_all st [c].

(** [text.buf + text.length - pos] is computed on pointers of one object, with
    [pos] at most at the end of the text. *)
Definition apt_text_stream_scroll (st : apt_text_stream_t) : res (bool * apt_text_stream_t) :=
  if decide (pos st = end_ st) then
    st ← poke (with_pos st (text_buf st)) NUL; Ok (true, st)
  else
    let remaining := text_buf st + text_len st - pos st in
    if decide (remaining = 0 ∨ remaining = text_len st) then
      Ok (false, with_pos st (text_buf st + remaining))
    else
      moved ← store_all (with_pos st (text_buf st)) (take remaining (drop (pos st) (mem st)));
      let st' := mk_stream (mem moved) (text_buf st) remaining
                   (text_buf st + remaining) (end_ st) (is_eos st) in
      st' ← poke st' NUL; Ok (true, st').

(** ** Identifiers and name-value pairs *)

Definition apt_id_resource_parse (str : apt_str_t) (separator : char)
    : res (option (apt_str_t * apt_str_t)) :=
  b ← deref (buf str);
  match strchr b separator with
  | None => Ok None
  | Some n =>
      if decide (len str ≤ n) then Ok None
      else Ok (Some (apt_string_copy (mk_str (Some b) n),
                     apt_string_copy (mk_str (Some (drop (n + 1) b)) (len str - (n + 1)))))
  end.

Definition apt_id_resource_generate (id resource : apt_str_t) (separator : char) : apt_str_t :=
  mk_str (Some (chars id ++ separator :: chars resource)) (len id + len resource + 1).

(** [pair] is the pair to be filled, as its storage holds it before. *)
Definition apt_pair_parse (pair : apt_pair_t) (field : apt_str_t) : bool * apt_pair_t :=
  match apt_text_field_read (stream_of_str field) "="%char true with
  | (false, _, _) => (false, pair)
  | (true, st, item) =>
      let name := apt_string_copy item in
      match apt_text_field_read st ";"%char true with
      | (true, _, item) => (true, mk_pair name (apt_string_copy item))
      | (false, _, _) => (true, mk_pair name apt_string_reset)
      end
  end.

(** The loop of [apt_pair_array_parse].  [fresh] is the storage
    [apr_array_push] hands out.  An iteration that continues passes at least
    one character, so [S (length (window st))] iterations are enough
    ([pair_array_loop_total]). *)
Fixpoint pair_array_loop (fuel : nat) (fresh : apt_pair_t) (st : apt_text_stream_t)
    (arr : list apt_pair_t) : option (list apt_pair_t) :=
  match fuel with
  | O => None
  | S fuel =>
      match apt_text_field_read st ";"%char true with
      | (true, st, field) =>
          pair_array_loop fuel fresh st (arr ++ [(apt_pair_parse fresh field).2])
      | (false, _, _) => Some arr
      end
  end.

Definition apt_pair_array_parse (fresh : apt_pair_t) (arr : list apt_pair_t)
    (value : apt_str_t) : option (list apt_pair_t) :=
  let st := stream_of_str value in
  pair_array_loop (S (length (window st))) fresh st arr.

(** The length [apt_pair_array_generate] computes for one pair. *)
Definition pair_gen_len (p : apt_pair_t) : nat :=
  len (pair_name p) +
  (if decide (len (pair_value p) = 0) then 0 else 1 + len (pair_value p)).

(** The characters it copies for one pair. *)
Definition pair_gen_chars (p : apt_pair_t) : cstr :=
  if decide (len (pair_name p) = 0) then []
  else chars (pair_name p) ++
       (if decide (len (pair_value p) = 0) then [] else "="%char :: chars (pair_value p)).

Fixpoint pairs_gen_chars (arr : list apt_pair_t) : cstr :=
  match arr with
  | [] => []
  | p :: arr => ";"%char :: pair_gen_chars p ++ pairs_gen_chars arr
  end.

Definition apt_pair_array_generate (arr : list apt_pair_t) : apt_str_t :=
  mk_str (Some (match arr with
                | [] => []
                | p :: arr => pair_gen_chars p ++ pairs_gen_chars arr
                end))
         (sum_list (pair_gen_len <$> arr) + (length arr - 1)).

(** ** Values *)

Definition TOKEN_TRUE : cstr := lit "true".
Definition TOKEN_FALSE : cstr := lit "false".

(** [Some v] when the function returns TRUE with [*value] set to [v]. *)
Definition apt_boolean_value_parse (str : apt_str_t) : option bool :=
  match buf str with
  | None => None
  | Some b =>
      if strncasecmp_eq b TOKEN_TRUE (length TOKEN_TRUE) then Some true
      else if strncasecmp_eq b TOKEN_FALSE (length TOKEN_FALSE) then Some false
      else None
  end.

Definition apt_boolean_value_generate (v : bool) : apt_str_t :=
  str_of (if v then TOKEN_TRUE else TOKEN_FALSE).

Definition apt_size_value_parse (str : apt_str_t) : Z :=
  match buf str with Some b => usz (atol b) | None => 0 end.

(** The formatted output of the Apache Portable Runtime, which the code links
    against: [apr_psprintf] and [apr_snprintf] with an unsigned ["%lu"] or a
    signed ["%d"] conversion.  [apr_snprintf] returns the text it stores, which
    it follows by a NUL, and its result, the number of characters stored; the
    first argument is the size of the buffer. *)
Class AprFormat := {
  apr_psprintf_u : Z → cstr;
  apr_snprintf_u : Z → Z → cstr * Z;
  apr_snprintf_d : Z → Z → cstr * Z;
  apr_psprintf_u_spec v : (0 ≤ v)%Z → apr_psprintf_u v = dec_u v;
  apr_snprintf_u_fits n v : (0 ≤ v)%Z → (Z.of_nat (length (dec_u v)) < n)%Z →
    apr_snprintf_u n v = (dec_u v, Z.of_nat (length (dec_u v)));
  apr_snprintf_d_fits n v : (Z.of_nat (length (dec_s v)) < n)%Z →
    apr_snprintf_d n v = (dec_s v, Z.of_nat (length (dec_s v)));
  apr_snprintf_d_bound n v : (0 < n)%Z →
    (Z.of_nat (length (apr_snprintf_d n v).1) < n)%Z;
  apr_snprintf_d_count n v : (0 < n)%Z →
    (apr_snprintf_d n v).2 = Z.of_nat (length (apr_snprintf_d n v).1)
}.

(** A reference implementation: the text is cut to the size of the buffer. *)
#[export] Program Instance apr_format_ref : AprFormat := {
  apr_psprintf_u := dec_u;
  apr_snprintf_u n v :=
    let s := take (Z.to_nat (n - 1)) (dec_u v) in (s, Z.of_nat (length s));
  apr_snprintf_d n v :=
    let s := take (Z.to_nat (n - 1)) (dec_s v) in (s, Z.of_nat (length s))
}.
Next Obligation. done. Qed.
Next Obligation. intros n v _ Hn. simpl. rewrite take_ge by lia. done. Qed.
Next Obligation. intros n v Hn. simpl. rewrite take_ge by lia. done. Qed.
Next Obligation. intros n v Hn. simpl. rewrite length_take. lia. Qed.
Next Obligation. done. Qed.

Section Formatting.
  Context `{AprFormat}.

Definition apt_size_value_generate (v : Z) : apt_str_t := str_of (apr_psprintf_u v).

(** [stream->end - stream->pos], a pointer difference passed as a size. *)
Definition room (st : apt_text_stream_t) : Z :=
  usz (Z.of_nat (end_ st) - Z.of_nat (pos st)).

(** Insert the output of [apr_snprintf]: the text and its NUL are stored at
    [pos], and [pos] advances by the returned count. *)
Definition snprintf_insert (st : apt_text_stream_t) (out : cstr * Z)
    : res (bool * apt_text_stream_t) :=
  st' ← (if decide (room st = 0%Z) then Ok st else store_all st (out.1 ++ [NUL]));
  if decide (out.2 ≤ 0)%Z then Ok (false, st')
  else Ok (true, with_pos st' (pos st + Z.to_nat out.2)).

Definition apt_text_size_value_insert (st : apt_text_stream_t) (v : Z)
    : res (bool * apt_text_stream_t) :=
  snprintf_insert st (apr_snprintf_u (room st) v).

End Formatting.

(** [do { count++; temp /= 10; } while(temp)]. *)
Fixpoint count_loop (fuel : nat) (temp count : Z) : Z :=
  match fuel with
  | O => count
  | S fuel =>
      let count := (count + 1)%Z in
      let temp := (temp / 10)%Z in
      if decide (temp = 0%Z) then count else count_loop fuel temp count
  end.

(** [do { bounds *= 10; temp--; } while(temp)]. *)
Fixpoint bounds_loop (temp : nat) (bounds : Z) : Z :=
  match temp with
  | O => bounds
  | S temp => bounds_loop temp (usz (bounds * 10))
  end.

(** Result flag, the new [*value], and the text written to [str]; 20 steps are
    enough for a 64-bit [value] ([count_loop_digits]). *)
Definition apt_var_length_value_generate (v max_count : Z) : bool * Z * cstr :=
  let count := count_loop 20 v 0 in
  let bounds := bounds_loop (Z.to_nat count) 1 in
  let count := if decide (usz (bounds - count) ≤ v)%Z then (count + 1)%Z else count in
  let v := usz (v + count) in
  if decide (max_count < count)%Z then (false, v, [])
  else (true, v, dec_u v).

(** ["%03lu "]. *)
Definition dec_pad3 (v : Z) : cstr :=
  let d := dec_u v in replicate (3 - length d) "0"%char ++ d ++ [APT_TOKEN_SP].

Definition apt_completion_cause_generate (table : list apt_str_table_item_t)
    (size cause : nat) : option apt_str_t :=
  match apt_string_table_str_get table size cause with
  | None => None
  | Some name =>
      let d := dec_pad3 (Z.of_nat cause) in
      if decide (length d ≠ 4) then None
      else Some (mk_str (Some (d ++ chars name)) (4 + len name))
  end.

(** ["%02x"] of a byte. *)
Definition hex_digit (z : Z) : char := if (z <? 10)%Z then chr (48 + z) else chr (87 + z).
Definition hex2 (b : Z) : cstr := [hex_digit (b / 16); hex_digit (b mod 16)].

(** [uuid] is what [apr_uuid_get] returns: 16 bytes. *)
Definition apt_unique_id_generate (uuid : list Z) (n : nat) : apt_str_t :=
  let count := if decide (16 < n / 2) then 16 else n / 2 in
  mk_str (Some (mjoin (hex2 <$> take count uuid))) n.
