(* ===== verification/TextStreamTheory.v ===== *)
(** * TextStreamTheory: what the readers and writers of text streams promise. *)
From S2P Require Import Prelude CString StringTable TextStream.

(** ** Invariant of a stream: the cursor is within the text, the text within
    the object. *)
Definition stream_wf (st : apt_text_stream_t) : Prop :=
  pos st ≤ end_ st ∧ end_ st ≤ length (mem st).

Create HintDb text.
#[export] Hint Unfold stream_wf : text.

Lemma window_length (st : apt_text_stream_t) :
  stream_wf st → length (window st) = end_ st - pos st.
Proof. intros [? ?]. unfold window. rewrite length_take, length_drop. lia. Qed.

Lemma window_with_pos (st : apt_text_stream_t) (n : nat) :
  window (with_pos st (pos st + n)) = drop n (window st).
Proof.
  unfold window. simpl. rewrite skipn_firstn_comm, drop_drop. f_equal. lia.
Qed.

Lemma window_init (s : cstr) : window (apt_text_stream_init s (length s)) = s.
Proof. unfold window. simpl. by rewrite Nat.sub_0_r, firstn_all. Qed.

Lemma stream_init_wf (s : cstr) (n : nat) :
  n ≤ length s → stream_wf (apt_text_stream_init s n).
Proof. intros. split; simpl; lia. Qed.

(** A string that points at the cursor holds a prefix of the window. *)
Lemma chars_ptr (st : apt_text_stream_t) (n k : nat) :
  n + k ≤ length (window st) →
  chars (mk_str (ptr st (pos st + n)) k) = take k (drop n (window st)).
Proof.
  intros Hk. unfold chars, ptr, window in *. cbn [len buf default].
  rewrite length_take in Hk.
  rewrite <- drop_drop, skipn_firstn_comm, take_take. f_equal. lia.
Qed.

(** *** Spans *)

Lemma span_len_le (p : char → bool) (w : cstr) : span_len p w ≤ length w.
Proof. induction w as [|c w IH]; simpl; [lia|]. destruct (p c); lia. Qed.

Lemma span_len_take (p : char → bool) (w : cstr) :
  Forall (λ c, p c = true) (take (span_len p w) w).
Proof.
  induction w as [|c w IH]; simpl; [constructor|].
  destruct (p c) eqn:Hc; simpl; [by constructor|constructor].
Qed.

Lemma span_len_stop (p : char → bool) (w : cstr) (c : char) :
  w !! span_len p w = Some c → p c = false.
Proof.
  induction w as [|d w IH]; simpl; [done|].
  destruct (p d) eqn:Hd; simpl; [done|]. by intros [= ->].
Qed.

Lemma span_len_app (p : char → bool) (s t : cstr) :
  Forall (λ c, p c = true) s →
  (match t with c :: _ => p c = false | [] => True end) →
  span_len p (s ++ t) = length s.
Proof.
  intros Hs Ht. induction Hs as [|c s Hc Hs IH]; simpl.
  - destruct t as [|c t]; simpl; [done|]. by rewrite Ht.
  - by rewrite Hc, IH.
Qed.

Lemma not_char_Forall (c : char) (s : cstr) :
  Forall (λ x, not_char c x = true) s ↔ c ∉ s.
Proof.
  rewrite Forall_forall. unfold not_char. split.
  - intros Hs Hc. specialize (Hs c Hc). by apply bool_decide_eq_true in Hs.
  - intros Hs x Hx. apply bool_decide_eq_true. by intros ->.
Qed.

(** ** Lines *)

Definition no_eol (s : cstr) : Prop := APT_TOKEN_CR ∉ s ∧ APT_TOKEN_LF ∉ s.

(** The end-of-line marks: CRLF, LF, or a CR that no LF follows. *)
Definition is_eol (eol rest : cstr) : Prop :=
  eol = [APT_TOKEN_CR; APT_TOKEN_LF] ∨ eol = [APT_TOKEN_LF] ∨
  (eol = [APT_TOKEN_CR] ∧ head rest ≠ Some APT_TOKEN_LF).

Lemma no_eol_cons (c : char) (s : cstr) :
  no_eol (c :: s) ↔ c ≠ APT_TOKEN_CR ∧ c ≠ APT_TOKEN_LF ∧ no_eol s.
Proof. unfold no_eol. rewrite !not_elem_of_cons. naive_solver. Qed.

Lemma line_scan_spec (w : cstr) (k : nat) :
  match line_scan w k with
  | Some (n, adv) => ∃ line eol rest, w = line ++ eol ++ rest ∧ no_eol line ∧
      is_eol eol rest ∧ n = k + length line ∧ adv = k + length (line ++ eol)
  | None => no_eol w
  end.
Proof.
  revert k. induction w as [|c w IH]; intros k; simpl.
  { split; apply not_elem_of_nil. }
  case_decide as Hcr; [subst c|case_decide as Hlf; [subst c|]].
  - destruct w as [|d w]; [|case_decide as Hd].
    + exists [], [APT_TOKEN_CR], []. unfold is_eol. simpl.
      repeat split; (apply not_elem_of_nil || lia || naive_solver).
    + subst d. exists [], [APT_TOKEN_CR; APT_TOKEN_LF], w. unfold is_eol. simpl.
      repeat split; (apply not_elem_of_nil || lia || naive_solver).
    + exists [], [APT_TOKEN_CR], (d :: w). unfold is_eol. simpl.
      repeat split; try (apply not_elem_of_nil || lia). right; right. naive_solver.
  - exists [], [APT_TOKEN_LF], w. unfold is_eol. simpl.
    repeat split; (apply not_elem_of_nil || lia || naive_solver).
  - specialize (IH (k + 1)). destruct (line_scan w (k + 1)) as [[n adv]|].
    + destruct IH as (line & eol & rest & -> & Hne & He & -> & ->).
      exists (c :: line), eol, rest. rewrite no_eol_cons. simpl.
      repeat split; try (done || lia); apply Hne.
    + by apply no_eol_cons.
Qed.

Lemma take_app_exact {A} (l k : list A) : take (length l) (l ++ k) = l.
Proof. by rewrite take_app_length. Qed.

(** What [apt_text_line_read] reads.  On success the unread text is the
    returned line, which holds no end-of-line character, then an end-of-line
    mark (CRLF, LF or a bare CR), and the cursor stands after the mark.  On
    failure the unread text holds no end of line at all, the cursor has not
    moved, the end-of-stream flag is set and the string is the whole rest. *)
Theorem apt_text_line_read_spec (st : apt_text_stream_t) (Hwf : stream_wf st) :
  match apt_text_line_read st with
  | (true, st', line) => ∃ eol rest,
      window st = chars line ++ eol ++ rest ∧ no_eol (chars line) ∧ is_eol eol rest ∧
      st' = with_pos st (pos st + length (chars line ++ eol)) ∧ window st' = rest
  | (false, st', line) =>
      no_eol (window st) ∧ st' = with_eos st true ∧ chars line = window st
  end.
Proof.
  unfold apt_text_line_read. pose proof (line_scan_spec (window st) 0) as Hs.
  destruct (line_scan (window st) 0) as [[n adv]|].
  - destruct Hs as (line & eol & rest & Hw & Hne & He & -> & ->). simpl.
    assert (Hc : chars (mk_str (ptr st (pos st)) (length line)) = line).
    { rewrite <- (Nat.add_0_r (pos st)), chars_ptr, drop_0.
      - rewrite Hw. apply take_app_exact.
      - rewrite Hw, !length_app. lia. }
    rewrite Hc. exists eol, rest. repeat split; try done; [apply Hne..|].
    by rewrite window_with_pos, Hw, app_assoc, drop_app_length.
  - repeat split; [apply Hs..|]. rewrite <- (Nat.add_0_r (pos st)), chars_ptr, drop_0 by lia.
    apply firstn_all.
Qed.

Lemma apt_text_line_read_witness :
  let st := apt_text_stream_init (lit "a b" ++ [APT_TOKEN_CR; APT_TOKEN_LF] ++ lit "c") 6 in
  stream_wf st ∧
  match apt_text_line_read st with
  | (true, st', line) => ∃ eol rest,
      window st = chars line ++ eol ++ rest ∧ no_eol (chars line) ∧ is_eol eol rest ∧
      st' = with_pos st (pos st + length (chars line ++ eol)) ∧ window st' = rest
  | (false, st', line) =>
      no_eol (window st) ∧ st' = with_eos st true ∧ chars line = window st
  end.
Proof.
  intros st. assert (Hwf : stream_wf st) by (split; vm_compute; lia).
  split; [exact Hwf|]. exact (apt_text_line_read_spec st Hwf).
Defined.

(** ** Fields *)

(** What [apt_text_field_read] reads: spaces (when asked to skip them), then
    the field, which does not hold the separator, then the separator if the
    text goes on. *)
Lemma apt_text_field_read_spec (st : apt_text_stream_t) (sep : char) (skip : bool) :
  stream_wf st →
  match apt_text_field_read st sep skip with
  | (ok, st', field) => ∃ spaces mark rest,
      window st = spaces ++ chars field ++ mark ++ rest ∧
      Forall (λ c, c = APT_TOKEN_SP) spaces ∧ (skip = false → spaces = []) ∧
      (skip = true → head (chars field ++ mark ++ rest) ≠ Some APT_TOKEN_SP) ∧
      sep ∉ chars field ∧ (mark = [sep] ∨ (mark = [] ∧ rest = [])) ∧
      ok = bool_decide (chars field ≠ []) ∧ len field = length (chars field) ∧
      st' = with_pos st (pos st + length (spaces ++ chars field ++ mark)) ∧
      window st' = rest
  end.
Proof.
  intros Hwf. unfold apt_text_field_read.
  set (sp := if skip then span_len (is_char APT_TOKEN_SP) (window st) else 0).
  assert (Est1 : (if skip then apt_text_spaces_skip st else st) = with_pos st (pos st + sp)).
  { subst sp. destruct skip; [done|]. rewrite Nat.add_0_r. by destruct st. }
  rewrite Est1. clear Est1. rewrite window_with_pos. simpl pos.
  assert (Hsp : sp ≤ length (window st)).
  { subst sp. destruct skip; [apply span_len_le|lia]. }
  set (w1 := drop sp (window st)).
  set (n := span_len (not_char sep) w1).
  assert (Hn : n ≤ length w1) by apply span_len_le.
  assert (Hw1 : length w1 = end_ st - (pos st + sp)).
  { subst w1. rewrite length_drop, window_length by done. lia. }
  rewrite window_length in Hsp by done.
  assert (Hc : chars (mk_str (ptr st (pos st + sp)) n) = take n w1).
  { apply chars_ptr. rewrite window_length by done. lia. }
  rewrite Hc.
  set (mark := take 1 (drop n w1)). set (rest := drop 1 (drop n w1)).
  exists (take sp (window st)), mark, rest.
  assert (Hsplit : take n w1 ++ mark ++ rest = w1).
  { subst mark rest. by rewrite take_drop, take_drop. }
  assert (Hmark : length mark = if decide (pos st + sp + n < end_ st) then 1 else 0).
  { subst mark. rewrite length_take, length_drop. case_decide; lia. }
  split_and!.
  - rewrite Hsplit. symmetry. apply take_drop.
  - subst sp. destruct skip; [|constructor].
    eapply Forall_impl; [apply span_len_take|]. intros c Hc'. by apply bool_decide_eq_true in Hc'.
  - by intros ->.
  - intros ->. rewrite Hsplit. subst w1. intros Hh. rewrite head_lookup, lookup_drop, Nat.add_0_r in Hh.
    apply span_len_stop in Hh. by apply bool_decide_eq_false in Hh.
  - apply not_char_Forall. apply span_len_take.
  - subst mark rest. destruct (drop n w1) as [|c r] eqn:Hd; [by right|]. left. simpl.
    assert (Hl : w1 !! n = Some c).
    { by rewrite <- (Nat.add_0_r n), <- lookup_drop, Hd. }
    apply span_len_stop in Hl. apply bool_decide_eq_false in Hl.
    destruct (decide (c = sep)); [by subst|done].
  - simpl. apply bool_decide_ext.
    assert (length (take n w1) = n) by (rewrite length_take; lia).
    destruct (take n w1); simpl in *; [naive_solver|]. split; [done|lia].
  - simpl. rewrite length_take. lia.
  - f_equal. rewrite !length_app, length_take, Hmark, length_take.
    rewrite window_length by done. case_decide; lia.
  - assert (Ep : (if decide (pos st + sp + n < end_ st) then pos st + sp + n + 1
                  else pos st + sp + n) = pos st + (sp + n + length mark)).
    { rewrite Hmark. case_decide; lia. }
    rewrite Ep, window_with_pos, <- !drop_drop. fold w1. subst rest. rewrite Hmark.
    case_decide; [done|]. rewrite !drop_ge; [done|rewrite length_drop; lia..].
Qed.

(** [apt_text_field_read] keeps the stream well-formed and never rewinds. *)
Lemma apt_text_field_read_wf (st : apt_text_stream_t) (sep : char) (skip ok : bool)
    (st' : apt_text_stream_t) (field : apt_str_t) :
  stream_wf st → apt_text_field_read st sep skip = (ok, st', field) →
  stream_wf st' ∧ length (window st') ≤ length (window st) - (if ok then 1 else 0).
Proof.
  intros Hwf Hr. pose proof (apt_text_field_read_spec st sep skip Hwf) as Hs.
  rewrite Hr in Hs. destruct Hs as (sp & mark & rest & Hw & _ & _ & _ & _ & _ & -> & _ & -> & Hrest).
  pose proof (window_length st Hwf) as Hl. rewrite Hw in Hl.
  rewrite !length_app in Hl. destruct Hwf as [Hp He]. split.
  - unfold stream_wf. simpl. rewrite !length_app. lia.
  - rewrite Hrest, Hw, !length_app. case_bool_decide as Hb; [|lia].
    destruct (chars field); [done|]. simpl. lia.
Qed.

(** The field up to a separator, read from text that starts with it. *)
Lemma field_read_exact (st : apt_text_stream_t) (sep : char) (f rest : cstr) :
  stream_wf st → window st = f ++ sep :: rest → sep ∉ f → head f ≠ Some APT_TOKEN_SP →
  (f = [] → sep ≠ APT_TOKEN_SP) →
  ∃ field, apt_text_field_read st sep true =
    (bool_decide (f ≠ []), with_pos st (pos st + (length f + 1)), field) ∧
    chars field = f ∧ len field = length f ∧ buf field = ptr st (pos st).
Proof.
  intros Hwf Hw Hsep Hsp Hsep'. unfold apt_text_field_read, apt_text_spaces_skip.
  assert (Hz : span_len (is_char APT_TOKEN_SP) (window st) = 0).
  { rewrite Hw. destruct f as [|c f]; simpl; unfold is_char.
    - by rewrite bool_decide_eq_false_2 by naive_solver.
    - rewrite bool_decide_eq_false_2; [done|]. naive_solver. }
  rewrite Hz, window_with_pos, drop_0. simpl pos. rewrite Nat.add_0_r.
  assert (Hn : span_len (not_char sep) (window st) = length f).
  { rewrite Hw. apply span_len_app; [by apply not_char_Forall|].
    unfold not_char. by rewrite bool_decide_eq_false_2 by naive_solver. }
  rewrite Hn. pose proof (window_length st Hwf) as Hl. rewrite Hw, length_app in Hl. simpl in Hl.
  rewrite decide_True by lia. eexists. split_and!.
  - f_equal. f_equal; [|f_equal; lia]. apply bool_decide_ext. destruct f; simpl; naive_solver lia.
  - rewrite <- (Nat.add_0_r (pos st)), chars_ptr, drop_0, Hw.
    + apply take_app_exact.
    + rewrite Hw, length_app. simpl. lia.
  - done.
  - done.
Qed.

(** The last field: read to the end of the text. *)
Lemma field_read_last (st : apt_text_stream_t) (sep : char) (f : cstr) :
  stream_wf st → window st = f → sep ∉ f → head f ≠ Some APT_TOKEN_SP →
  ∃ field, apt_text_field_read st sep true =
    (bool_decide (f ≠ []), with_pos st (pos st + length f), field) ∧
    chars field = f ∧ len field = length f ∧ buf field = ptr st (pos st).
Proof.
  intros Hwf Hw Hsep Hsp. unfold apt_text_field_read, apt_text_spaces_skip.
  assert (Hz : span_len (is_char APT_TOKEN_SP) (window st) = 0).
  { rewrite Hw. destruct f as [|c f]; [done|]; simpl; unfold is_char.
    rewrite bool_decide_eq_false_2; [done|]. naive_solver. }
  rewrite Hz, window_with_pos, drop_0. simpl pos. rewrite Nat.add_0_r.
  assert (Hn : span_len (not_char sep) (window st) = length f).
  { rewrite Hw. rewrite <- (app_nil_r f) at 1. apply span_len_app; [by apply not_char_Forall|done]. }
  rewrite Hn. pose proof (window_length st Hwf) as Hl. rewrite Hw in Hl.
  destruct Hwf as [Hp He]. rewrite decide_False by lia. eexists. split_and!.
  - f_equal. f_equal. apply bool_decide_ext. destruct f; simpl; naive_solver lia.
  - rewrite <- (Nat.add_0_r (pos st)), chars_ptr, drop_0, Hw.
    + apply firstn_all.
    + rewrite Hw. lia.
  - done.
  - done.
Qed.

(** ** Writers: [wrote st st' s] says that [st'] is [st] after the characters
    [s] were stored at the cursor and the cursor moved past them; nothing else
    changed. *)
Definition wrote (st st' : apt_text_stream_t) (s : cstr) : Prop :=
  pos st + length s ≤ length (mem st) ∧
  st' = mk_stream (take (pos st) (mem st) ++ s ++ drop (pos st + length s) (mem st))
          (text_buf st) (text_len st) (pos st + length s) (end_ st) (is_eos st).

Lemma wrote_nil (st : apt_text_stream_t) : pos st ≤ length (mem st) → wrote st st [].
Proof.
  intros. split; simpl; [lia|]. rewrite Nat.add_0_r, take_drop. by destruct st.
Qed.

Lemma wrote_length (st st' : apt_text_stream_t) (s : cstr) :
  wrote st st' s → length (mem st') = length (mem st).
Proof. intros [? ->]. simpl. rewrite !length_app, length_take, length_drop. lia. Qed.

Lemma wrote_app (st st1 st2 : apt_text_stream_t) (s t : cstr) :
  wrote st st1 s → wrote st1 st2 t → wrote st st2 (s ++ t).
Proof.
  intros H1 H2. pose proof (wrote_length _ _ _ H1) as Hl.
  destruct H1 as [L1 ->], H2 as [L2 ->]. simpl in *. split.
  - rewrite length_app. lia.
  - rewrite length_app, Nat.add_assoc. f_equal.
    assert (Hp : length (take (pos st) (mem st) ++ s) = pos st + length s).
    { rewrite length_app, length_take. lia. }
    rewrite (app_assoc (take _ _) s (drop _ _)).
    rewrite <- Hp at 1. rewrite take_app_length.
    rewrite drop_app_ge by lia. rewrite Hp, drop_drop, <- !app_assoc.
    repeat f_equal. lia.
Qed.

Lemma put_all_wrote (st : apt_text_stream_t) (s : cstr) :
  pos st + length s ≤ length (mem st) → ∃ st', put_all st s = Ok st' ∧ wrote st st' s.
Proof.
  intros Hl. unfold put_all, store_all. rewrite decide_True by done.
  eexists. split; [done|]. by split.
Qed.

Lemma put_all_inv (st st' : apt_text_stream_t) (s : cstr) :
  put_all st s = Ok st' → wrote st st' s.
Proof.
  unfold put_all, store_all. case_decide; simpl; [|done]. intros [= <-]. by split.
Qed.

(** Run a bind whose first step is [put] or [put_all]. *)
Ltac put_step :=
  match goal with
  | |- context [put_all ?st ?s] =>
      let st' := fresh "st" in let E := fresh "E" in let W := fresh "W" in
      destruct (put_all_wrote st s) as (st' & E & W);
      [|rewrite E; clear E; cbn [mbind res_bind]]
  | |- context [put ?st ?c] => unfold put at 1
  end.

Lemma wrote_pos (st st' : apt_text_stream_t) (s : cstr) :
  wrote st st' s → pos st' = pos st + length s.
Proof. by intros [_ ->]. Qed.
Lemma wrote_end (st st' : apt_text_stream_t) (s : cstr) :
  wrote st st' s → end_ st' = end_ st.
Proof. by intros [_ ->]. Qed.

(** Derive the arithmetic facts about a chain of [wrote] hypotheses. *)
Ltac wrote_facts :=
  repeat match goal with
  | W : wrote ?a ?b ?s |- _ =>
      lazymatch goal with
      | _ : end_ b = end_ a |- _ => fail
      | _ => pose proof (wrote_pos _ _ _ W); pose proof (wrote_end _ _ _ W);
             pose proof (wrote_length _ _ _ W)
      end
  end; simpl length in *.

Lemma apt_text_eol_insert_spec (st : apt_text_stream_t) :
  end_ st ≤ length (mem st) → pos st ≤ length (mem st) →
  ∃ ok st', apt_text_eol_insert st = Ok (ok, st') ∧
    ok = bool_decide (pos st + 2 < end_ st) ∧
    wrote st st' (if ok then [APT_TOKEN_CR; APT_TOKEN_LF] else []).
Proof.
  intros He Hp. unfold apt_text_eol_insert. case_decide as Hd.
  - repeat put_step; wrote_facts; try lia.
    eexists true, _. rewrite bool_decide_eq_true_2 by done. split_and!; [done..|].
    exact (wrote_app _ _ _ [_] [_] W W0).
  - eexists false, st. rewrite bool_decide_eq_false_2 by done. split_and!; [done..|].
    by apply wrote_nil.
Qed.

(** The characters of one header line: "name: value" and CRLF. *)
Definition header_line (name value : cstr) : cstr :=
  name ++ lit ": " ++ value ++ [APT_TOKEN_CR; APT_TOKEN_LF].

Lemma name_value_insert_spec (st : apt_text_stream_t) (name value : apt_str_t) :
  end_ st ≤ length (mem st) → pos st ≤ length (mem st) → str_wf name → str_wf value →
  ∃ ok st' s, apt_text_name_value_insert st name value = Ok (ok, st') ∧ wrote st st' s ∧
    (ok = true → s = header_line (chars name) (chars value)) ∧
    (pos st + len name + len value + 4 < end_ st → ok = true) ∧
    (s = [] ∨ pos st' < end_ st).
Proof.
  intros He Hp Wn Wv. unfold apt_text_name_value_insert.
  pose proof (chars_length _ Wn) as Ln. pose proof (chars_length _ Wv) as Lv.
  case_decide as Hd.
  { exists false, st, []. split_and!; try done; [by apply wrote_nil|lia|by left]. }
  do 5 (try put_step; wrote_facts; try lia).
  assert (Hval : ∃ st3, (if apt_string_is_empty value then Ok st2 else put_all st2 (chars value))
                 = Ok st3 ∧ wrote st2 st3 (chars value)).
  { unfold apt_string_is_empty. case_bool_decide as Hz.
    - exists st2. split; [done|]. destruct (chars value); simpl in *; [|lia].
      apply wrote_nil. lia.
    - apply put_all_wrote. lia. }
  destruct Hval as (st3 & -> & W3). cbn [mbind res_bind]. wrote_facts.
  destruct (apt_text_eol_insert_spec st3) as (ok & st4 & -> & Hok & W4); [lia..|].
  pose proof (wrote_app _ _ _ _ _ (wrote_app _ _ _ _ _ (wrote_app _ _ _ _ _
    (wrote_app _ _ _ _ _ W W0) W1) W3) W4) as WW.
  exists ok, st4. eexists. split; [done|]. split; [exact WW|]. wrote_facts.
  split_and!.
  - intros ->. unfold header_line. by rewrite <- !app_assoc.
  - intros. rewrite Hok. apply bool_decide_eq_true. lia.
  - right. subst ok. case_bool_decide; simpl in *; lia.
Qed.

Lemma header_name_insert_spec (st : apt_text_stream_t) (name : apt_str_t) :
  end_ st ≤ length (mem st) → pos st ≤ length (mem st) → str_wf name →
  ∃ ok st' s, apt_text_header_name_insert st name = Ok (ok, st') ∧ wrote st st' s ∧
    (ok = true → s = chars name ++ lit ": ") ∧ (s = [] ∨ pos st' < end_ st).
Proof.
  intros He Hp Wn. unfold apt_text_header_name_insert.
  pose proof (chars_length _ Wn) as Ln. case_decide as Hd.
  { exists false, st, []. split_and!; try done; [by apply wrote_nil|by left]. }
  do 5 (try put_step; wrote_facts; try lia).
  exists true, st2. eexists. split; [done|].
  split; [exact (wrote_app _ _ _ _ _ (wrote_app _ _ _ _ _ W W0) W1)|].
  split; [intros _; by rewrite <- app_assoc|right; lia].
Qed.

Lemma string_insert_spec (st : apt_text_stream_t) (str : apt_str_t) :
  end_ st ≤ length (mem st) → pos st ≤ length (mem st) → str_wf str →
  ∃ ok st' s, apt_text_string_insert st str = Ok (ok, st') ∧ wrote st st' s ∧
    (ok = true → s = chars str) ∧ (s = [] ∨ pos st' < end_ st).
Proof.
  intros He Hp Wn. unfold apt_text_string_insert.
  pose proof (chars_length _ Wn) as Ln. case_decide as Hd; [|case_decide as Hz].
  - exists false, st, []. split_and!; try done; [by apply wrote_nil|by left].
  - exists true, st, []. split_and!; [done|by apply wrote_nil| |by left].
    destruct (chars str); simpl in *; [done|lia].
  - put_step; wrote_facts; [lia|]. exists true, st0. eexists.
    split_and!; [done|exact W|done|right; lia].
Qed.

Lemma char_insert_spec (st : apt_text_stream_t) (c : char) :
  end_ st ≤ length (mem st) → pos st ≤ length (mem st) →
  ∃ ok st' s, apt_text_char_insert st c = Ok (ok, st') ∧ wrote st st' s ∧
    (ok = true → s = [c]) ∧ (s = [] ∨ pos st' < end_ st).
Proof.
  intros He Hp. unfold apt_text_char_insert. case_decide as Hd.
  - repeat put_step; wrote_facts; try lia. exists true, st0, [c].
    split_and!; [done|exact W|done|right; lia].
  - exists false, st, []. split_and!; try done; [by apply wrote_nil|by left].
Qed.

(** The checked writers, as the calls a generator makes. *)
Inductive insert_op :=
| InsEol
| InsChar (c : char)
| InsString (s : apt_str_t)
| InsHeaderName (name : apt_str_t)
| InsNameValue (name value : apt_str_t).

Definition insert_op_wf (op : insert_op) : Prop :=
  match op with
  | InsEol | InsChar _ => True
  | InsString s | InsHeaderName s => str_wf s
  | InsNameValue n v => str_wf n ∧ str_wf v
  end.

Definition insert_text (op : insert_op) : cstr :=
  match op with
  | InsEol => [APT_TOKEN_CR; APT_TOKEN_LF]
  | InsChar c => [c]
  | InsString s => chars s
  | InsHeaderName n => chars n ++ lit ": "
  | InsNameValue n v => header_line (chars n) (chars v)
  end.

Definition run_insert (st : apt_text_stream_t) (op : insert_op) : res (bool * apt_text_stream_t) :=
  match op with
  | InsEol => apt_text_eol_insert st
  | InsChar c => apt_text_char_insert st c
  | InsString s => apt_text_string_insert st s
  | InsHeaderName n => apt_text_header_name_insert st n
  | InsNameValue n v => apt_text_name_value_insert st n v
  end.

Fixpoint run_inserts (st : apt_text_stream_t) (ops : list insert_op)
    : res (list bool * apt_text_stream_t) :=
  match ops with
  | [] => Ok ([], st)
  | op :: ops =>
      '(ok, st) ← run_insert st op;
      '(oks, st) ← run_inserts st ops;
      Ok (ok :: oks, st)
  end.

Lemma run_insert_spec (st : apt_text_stream_t) (op : insert_op) :
  end_ st ≤ length (mem st) → pos st ≤ length (mem st) → insert_op_wf op →
  ∃ ok st' s, run_insert st op = Ok (ok, st') ∧ wrote st st' s ∧
    (ok = true → s = insert_text op) ∧ (s = [] ∨ pos st' < end_ st).
Proof.
  intros He Hp Hop. destruct op as [|c|s|n|n v]; simpl in *.
  - destruct (apt_text_eol_insert_spec st He Hp) as (ok & st' & -> & Hok & W).
    exists ok, st'. eexists. split; [done|]. split; [exact W|]. wrote_facts.
    split; [by intros ->|]. subst ok. case_bool_decide; simpl in *; [right; lia|by left].
  - by apply char_insert_spec.
  - by apply string_insert_spec.
  - by apply header_name_insert_spec.
  - destruct Hop as [Wn Wv].
    destruct (name_value_insert_spec st n v He Hp Wn Wv) as (ok & st' & s & ? & ? & ? & _ & ?).
    eauto 10.
Qed.

(** Any sequence of checked insertions into a buffer is memory-safe: it
    never stores outside the buffer, the cursor never passes its end, what was
    before the cursor is untouched, and when every call reports success the
    text between the old and the new cursor is exactly the inserted text in
    order. *)
Theorem run_inserts_safe (st : apt_text_stream_t) (ops : list insert_op)
  (Hwf : stream_wf st) (Hops : Forall insert_op_wf ops) :
  ∃ oks st' s, run_inserts st ops = Ok (oks, st') ∧ wrote st st' s ∧
    stream_wf st' ∧ (Forall (λ b, b = true) oks → s = mjoin (insert_text <$> ops)).
Proof.
  revert st Hwf. induction Hops as [|op ops Hop Hops IH]; intros st Hwf; simpl.
  { exists [], st, []. split_and!; try done. apply wrote_nil. destruct Hwf; lia. }
  destruct (run_insert_spec st op) as (ok & st1 & s & -> & W & Hs & Hend);
    [destruct Hwf; lia..|done|]. simpl.
  destruct (IH st1) as (oks & st2 & t & -> & W2 & Hwf2 & Ht).
  { wrote_facts. destruct Hwf, Hend as [->|]; split; simpl in *; lia. }
  simpl. exists (ok :: oks), st2, (s ++ t). split_and!; [done|by eapply wrote_app|done|].
  intros [Hok Hoks]%Forall_cons. by rewrite (Hs Hok), (Ht Hoks).
Qed.

Lemma run_inserts_safe_witness :
  let st := apt_text_stream_init (replicate 24 NUL) 20 in
  let ops := [InsNameValue (str_of (lit "Ab")) (str_of (lit "12")); InsEol; InsString (str_of (lit "body-too-long"))] in
  ∃ oks st' s, run_inserts st ops = Ok (oks, st') ∧ wrote st st' s ∧
    stream_wf st' ∧ (Forall (λ b, b = true) oks → s = mjoin (insert_text <$> ops)).
Proof.
  intros st ops. apply (run_inserts_safe st ops).
  - split; vm_compute; lia.
  - repeat constructor; try (vm_compute; lia);
      intros H; repeat (apply elem_of_cons in H as [H|H]; [discriminate H|]);
      by apply elem_of_nil in H.
Defined.

(** ** Header fields *)

(** The iterations of [apt_text_header_read] over characters that do not end
    the line. *)
Fixpoint header_chars (s : cstr) (k : nat) (h : header_scan_t) : header_scan_t :=
  match s with
  | [] => h
  | c :: s => header_chars s (k + 1) (header_char h k c)
  end.

Lemma header_scan_app (s t : cstr) (k : nat) (h : header_scan_t) :
  no_eol s → header_scan (s ++ t) k h = header_scan t (k + length s) (header_chars s k h).
Proof.
  revert k h. induction s as [|c s IH]; intros k h Hs; simpl; [by rewrite Nat.add_0_r|].
  apply no_eol_cons in Hs as (Hcr & Hlf & Hs).
  rewrite !decide_False by done. rewrite IH by done. f_equal. lia.
Qed.

Lemma header_chars_app (s t : cstr) (k : nat) (h : header_scan_t) :
  header_chars (s ++ t) k h = header_chars t (k + length s) (header_chars s k h).
Proof.
  revert k h. induction s as [|c s IH]; intros k h; simpl; [by rewrite Nat.add_0_r|].
  rewrite IH. f_equal. lia.
Qed.

(** A character that the name or the value may start with. *)
Definition starts_plain (s : cstr) : Prop :=
  match s with c :: _ => apt_text_is_wsp c = false | [] => True end.

Lemma header_chars_name_tail (s : cstr) (k b : nat) :
  ":"%char ∉ s → header_chars s k (mk_hscan (Some b) 0 None 0) = mk_hscan (Some b) 0 None 0.
Proof.
  revert k. induction s as [|c s IH]; intros k Hs; simpl; [done|].
  apply not_elem_of_cons in Hs as [Hc Hs]. unfold header_char. simpl.
  rewrite decide_False by done. by apply IH.
Qed.

Lemma header_chars_name (s : cstr) (k : nat) :
  s ≠ [] → starts_plain s → ":"%char ∉ s →
  header_chars s k (mk_hscan None 0 None 0) = mk_hscan (Some k) 0 None 0.
Proof.
  destruct s as [|c s]; [done|]. simpl. intros _ Hc [Hcol Hs]%not_elem_of_cons.
  unfold header_char. simpl. rewrite Hc, decide_False by done.
  by apply header_chars_name_tail.
Qed.

Lemma header_chars_value (s : cstr) (k b n : nat) :
  n ≠ 0 → starts_plain s →
  header_chars s k (mk_hscan (Some b) n None 0) =
    mk_hscan (Some b) n (if decide (s = []) then None else Some k) 0.
Proof.
  intros Hn. destruct s as [|c s]; [done|]. simpl. intros Hc.
  unfold header_char. simpl. rewrite decide_False, Hc by done.
  generalize (k + 1) as j. revert Hn. clear. intros Hn.
  induction s as [|c s IH]; intros j; simpl; [done|].
  unfold header_char. simpl. rewrite decide_False by done. by apply IH.
Qed.

Definition header_name_ok (name : cstr) : Prop :=
  name ≠ [] ∧ no_eol name ∧ ":"%char ∉ name ∧ starts_plain name.
Definition header_value_ok (value : cstr) : Prop := no_eol value ∧ starts_plain value.

Lemma no_eol_app (s t : cstr) : no_eol (s ++ t) ↔ no_eol s ∧ no_eol t.
Proof. unfold no_eol. rewrite !not_elem_of_app. naive_solver. Qed.

(** The scan over a generated header line. *)
Lemma header_scan_line (name value rest : cstr) (k : nat) :
  header_name_ok name → header_value_ok value →
  header_scan (header_line name value ++ rest) k (mk_hscan None 0 None 0) =
    (mk_hscan (Some k) (length name)
       (if decide (value = []) then None else Some (k + length name + 2))
       (length value),
     Some (k + length (header_line name value))).
Proof.
  intros (Hne & Hnn & Hcol & Hst) [Hvn Hvs]. unfold header_line.
  rewrite <- !app_assoc, header_scan_app by done.
  rewrite header_chars_name by done.
  rewrite header_scan_app by (apply no_eol_cons; split_and!; try done;
    apply no_eol_cons; split_and!; try done; split; apply not_elem_of_nil).
  assert (Hcs : header_chars (lit ": ") (k + length name) (mk_hscan (Some k) 0 None 0) =
                mk_hscan (Some k) (length name) None 0).
  { simpl. unfold header_char. simpl. replace (k + length name - k) with (length name) by lia.
    destruct name as [|c name]; [done|]. simpl. done. }
  rewrite Hcs, header_scan_app by done. simpl (length (lit ": ")).
  rewrite header_chars_value; [|by destruct name|done].
  simpl. f_equal.
  - unfold header_value_end. simpl. case_decide as Hv; simpl.
    + subst value. done.
    + f_equal. lia.
  - f_equal. rewrite !length_app. simpl. rewrite length_app. simpl. lia.
Qed.

Lemma drop_wrote (st st' : apt_text_stream_t) (s : cstr) :
  wrote st st' s → drop (pos st) (mem st') = s ++ drop (pos st + length s) (mem st).
Proof.
  intros [Hl ->]. simpl. rewrite drop_app_ge by (rewrite length_take; lia).
  rewrite length_take. by replace (pos st - _) with 0 by lia.
Qed.

(** The stream that reads back what was written between two cursors. *)
Definition reread (st st' : apt_text_stream_t) : apt_text_stream_t :=
  mk_stream (mem st') (text_buf st') (text_len st') (pos st) (pos st') false.

Lemma reread_window (st st' : apt_text_stream_t) (s : cstr) :
  wrote st st' s → window (reread st st') = s.
Proof.
  intros W. unfold window, reread. simpl. rewrite (drop_wrote _ _ _ W).
  rewrite (wrote_pos _ _ _ W). replace (pos st + length s - pos st) with (length s) by lia.
  apply take_app_exact.
Qed.

Lemma reread_wf (st st' : apt_text_stream_t) (s : cstr) :
  wrote st st' s → stream_wf (reread st st').
Proof. intros W. wrote_facts. destruct W as [W _]. split; simpl; lia. Qed.

Lemma header_read_line (st : apt_text_stream_t) (name value rest : cstr) :
  stream_wf st → header_name_ok name → header_value_ok value →
  window st = header_line name value ++ rest →
  ∃ pair, apt_text_header_read st =
      (true, with_pos st (pos st + length (header_line name value)), pair) ∧
    chars (pair_name pair) = name ∧ len (pair_name pair) = length name ∧
    chars (pair_value pair) = value ∧ len (pair_value pair) = length value.
Proof.
  intros Hwf Hn Hv Hw. unfold apt_text_header_read.
  rewrite Hw, header_scan_line by done. simpl.
  rewrite bool_decide_eq_false_2 by (destruct Hn as [Hn _]; by destruct name).
  eexists. split; [reflexivity|]. simpl.
  assert (Hlen : length (window st) = length (header_line name value) + length rest)
    by (by rewrite Hw, length_app).
  assert (Hll : length (header_line name value) = length name + 2 + length value + 2).
  { unfold header_line. rewrite !length_app. simpl. lia. }
  split_and!; [|done| |done].
  - rewrite <- (Nat.add_0_r (pos st)), chars_ptr, drop_0, Hw by lia.
    unfold header_line. rewrite <- !app_assoc. apply take_app_exact.
  - case_decide as Hz; [by subst value|]. simpl.
    rewrite <- Nat.add_assoc, chars_ptr, Hw by lia. unfold header_line.
    rewrite <- !app_assoc, <- drop_drop, drop_app_length. simpl. apply take_app_exact.
Qed.

(** A header field that was generated is read back: when
    [apt_text_name_value_insert] succeeds, [apt_text_header_read] on the text
    it inserted succeeds, consumes all of it and returns the same name and
    value (for a name with no colon, no end of line and no leading white
    space, and a value with no end of line and no leading white space). *)
Theorem header_field_roundtrip (st st' : apt_text_stream_t) (name value : apt_str_t)
  (Hwf : stream_wf st) (Wn : str_wf name) (Wv : str_wf value)
  (Hn : header_name_ok (chars name)) (Hv : header_value_ok (chars value))
  (Hins : apt_text_name_value_insert st name value = Ok (true, st')) :
  ∃ pair, apt_text_header_read (reread st st') =
      (true, with_pos (reread st st') (pos st'), pair) ∧
    chars (pair_name pair) = chars name ∧ chars (pair_value pair) = chars value.
Proof.
  destruct (name_value_insert_spec st name value) as (ok & st1 & s & Hi & W & Hs & _ & _);
    [destruct Hwf; lia..|done|done|].
  rewrite Hins in Hi. injection Hi as <- <-. specialize (Hs eq_refl) as ->.
  destruct (header_read_line (reread st st') (chars name) (chars value) [])
    as (pair & Hr & Hcn & _ & Hcv & _); try done.
  - by eapply reread_wf.
  - by rewrite app_nil_r, (reread_window _ _ _ W).
  - exists pair. rewrite Hr, Hcn, Hcv. split_and!; try done.
    f_equal. f_equal. f_equal. simpl. symmetry. by apply wrote_pos.
Qed.

(** Decide [x ∉ l] on a literal list. *)
Ltac not_elem :=
  let H := fresh in
  intros H; repeat (apply elem_of_cons in H as [H|H]; [discriminate H|]);
  by apply elem_of_nil in H.

(** Discharge [str_wf] and the header side conditions on literals. *)
Ltac text_side :=
  repeat split; try (vm_compute; lia); try discriminate; try not_elem; try reflexivity.

Lemma header_field_roundtrip_witness :
  let st := apt_text_stream_init (replicate 40 NUL) 40 in
  let name := str_of (lit "Content-Length") in
  let value := str_of (lit "102") in
  ∃ st' pair, apt_text_name_value_insert st name value = Ok (true, st') ∧
    apt_text_header_read (reread st st') =
      (true, with_pos (reread st st') (pos st'), pair) ∧
    chars (pair_name pair) = chars name ∧ chars (pair_value pair) = chars value.
Proof.
  intros st name value.
  destruct (apt_text_name_value_insert st name value) as [[[] st']|] eqn:E;
    [|discriminate E|discriminate E].
  assert (∃ pair, apt_text_header_read (reread st st') =
      (true, with_pos (reread st st') (pos st'), pair) ∧
    chars (pair_name pair) = chars name ∧ chars (pair_value pair) = chars value) as [pair H].
  { apply (header_field_roundtrip st st' name value); [text_side..|exact E]. }
  exists st', pair. split; [reflexivity|exact H].
Defined.

(** ** Name-value pairs *)

Lemma chars_copy (s : apt_str_t) : chars (apt_string_copy s) = chars s.
Proof.
  unfold chars, apt_string_copy. simpl. case_decide as Hz; [by rewrite Hz|].
  destruct (buf s); simpl; [|done]. by rewrite take_take, Nat.min_id.
Qed.

Lemma window_stream_of_str (s : apt_str_t) : window (stream_of_str s) = chars s.
Proof. unfold window, stream_of_str, chars. simpl. by rewrite Nat.sub_0_r. Qed.

Lemma stream_of_str_wf (s : apt_str_t) :
  len s ≤ length (default [] (buf s)) → stream_wf (stream_of_str s).
Proof. apply stream_init_wf. Qed.

Lemma pair_array_loop_total (fuel : nat) (fresh : apt_pair_t) (st : apt_text_stream_t)
    (arr : list apt_pair_t) :
  stream_wf st → length (window st) < fuel →
  is_Some (pair_array_loop fuel fresh st arr).
Proof.
  revert st arr. induction fuel as [|fuel IH]; intros st arr Hwf Hl; [lia|].
  cbn [pair_array_loop]. destruct (apt_text_field_read st ";" true) as [[[] st'] field] eqn:Hr; [|by eexists].
  destruct (apt_text_field_read_wf _ _ _ _ _ _ Hwf Hr) as [Hwf' Hlen].
  apply IH; [done|]. simpl in *.
  pose proof (apt_text_field_read_spec st ";" true Hwf) as Hs. rewrite Hr in Hs.
  destruct Hs as (sp & mk & rest & Hw & _ & _ & _ & _ & _ & Hok & _).
  assert (length (window st) ≠ 0).
  { rewrite Hw, !length_app. symmetry in Hok. apply bool_decide_eq_true in Hok.
    destruct (chars field); simpl; [done|lia]. }
  lia.
Qed.

Definition pair_ok (p : apt_pair_t) : Prop :=
  str_wf (pair_name p) ∧ str_wf (pair_value p) ∧ chars (pair_name p) ≠ [] ∧
  "="%char ∉ chars (pair_name p) ∧ ";"%char ∉ chars (pair_name p) ∧
  ";"%char ∉ chars (pair_value p) ∧
  head (chars (pair_name p)) ≠ Some APT_TOKEN_SP ∧
  head (chars (pair_value p)) ≠ Some APT_TOKEN_SP.

Definition pair_chars (p : apt_pair_t) : cstr * cstr :=
  (chars (pair_name p), chars (pair_value p)).

Lemma pair_gen_chars_ok (p : apt_pair_t) :
  pair_ok p →
  pair_gen_chars p = chars (pair_name p) ++
    (if decide (chars (pair_value p) = []) then [] else "="%char :: chars (pair_value p)) ∧
  length (pair_gen_chars p) = pair_gen_len p.
Proof.
  intros (Wn & Wv & Hne & _). unfold pair_gen_chars, pair_gen_len.
  pose proof (chars_length _ Wn) as Ln. pose proof (chars_length _ Wv) as Lv.
  rewrite (decide_False (P := len (pair_name p) = 0)).
  2:{ rewrite <- Ln. by destruct (chars (pair_name p)). }
  rewrite length_app, Ln. split.
  - f_equal. destruct (chars (pair_value p)); simpl in *.
    + by rewrite decide_True by lia.
    + by rewrite decide_False by lia.
  - f_equal. destruct (decide (len (pair_value p) = 0)); simpl; [done|lia].
Qed.

Lemma pair_gen_chars_props (p : apt_pair_t) :
  pair_ok p → pair_gen_chars p ≠ [] ∧ ";"%char ∉ pair_gen_chars p ∧
  head (pair_gen_chars p) ≠ Some APT_TOKEN_SP.
Proof.
  intros Hp. destruct (pair_gen_chars_ok p Hp) as [-> _].
  destruct Hp as (_ & _ & Hne & _ & Hsn & Hsv & Hhn & _).
  destruct (chars (pair_name p)) as [|c n]; [done|]. split_and!; [done| |done].
  apply not_elem_of_app. split; [done|]. case_decide; [apply not_elem_of_nil|].
  by apply not_elem_of_cons.
Qed.

(** Parsing the text of one generated pair. *)
Lemma apt_pair_parse_gen (fresh p : apt_pair_t) (field : apt_str_t) :
  pair_ok p → chars field = pair_gen_chars p → len field ≤ length (default [] (buf field)) →
  pair_chars (apt_pair_parse fresh field).2 = pair_chars p.
Proof.
  intros Hp Hf Hl. pose proof (stream_of_str_wf field Hl) as Hwf.
  pose proof (window_stream_of_str field) as Hw. rewrite Hf in Hw.
  destruct (pair_gen_chars_ok p Hp) as [Hg _]. rewrite Hg in Hw.
  destruct Hp as (Wn & Wv & Hne & Heq & Hsn & Hsv & Hhn & Hhv).
  unfold apt_pair_parse, pair_chars. case_decide as Hv.
  - rewrite app_nil_r in Hw.
    destruct (field_read_last _ "=" _ Hwf Hw Heq Hhn) as (item & -> & Hi & _).
    rewrite bool_decide_eq_true_2 by done.
    set (st1 := with_pos _ _).
    assert (Hw1 : window st1 = []).
    { subst st1. rewrite window_with_pos, Hw. apply drop_ge. lia. }
    assert (Hwf1 : stream_wf st1).
    { destruct Hwf as [Hwp Hwe]. pose proof (window_length _ (conj Hwp Hwe)) as Hwl.
      rewrite Hw in Hwl. split; simpl in *; lia. }
    destruct (field_read_last _ ";" _ Hwf1 Hw1) as (item2 & -> & _); [apply not_elem_of_nil|done|].
    simpl. by rewrite chars_copy, Hi, Hv.
  - destruct (field_read_exact _ "=" _ _ Hwf Hw Heq Hhn) as (item & -> & Hi & _); [done|].
    rewrite bool_decide_eq_true_2 by done.
    set (st1 := with_pos _ _).
    assert (Hw1 : window st1 = chars (pair_value p)).
    { subst st1. rewrite window_with_pos, Hw, <- drop_drop, drop_app_length. done. }
    assert (Hwf1 : stream_wf st1).
    { destruct Hwf as [Hwp Hwe]. pose proof (window_length _ (conj Hwp Hwe)) as Hwl.
      rewrite Hw, length_app in Hwl. split; simpl in *; lia. }
    destruct (field_read_last _ ";" _ Hwf1 Hw1) as (item2 & -> & Hi2 & _); [done|done|].
    rewrite bool_decide_eq_true_2 by done. simpl. by rewrite !chars_copy, Hi, Hi2.
Qed.

