(* ===== verification/TextValues.v ===== *)
(** Theorems on the structured values of [TextStream]: pair lists,
    identifier@resource strings, booleans and sizes, completion causes, the
    length that counts itself, and scrolling a stream to take more input. *)

From S2P Require Import Prelude CString StringTable TextStream TextStreamTheory.

Open Scope nat_scope.

(** ** Pair lists *)

Lemma pairs_gen_chars_length (arr : list apt_pair_t) :
  Forall pair_ok arr →
  length (pairs_gen_chars arr) = sum_list (pair_gen_len <$> arr) + length arr.
Proof.
  induction 1 as [|p arr Hp Harr IH]; [done|]. simpl.
  rewrite length_app, IH. destruct (pair_gen_chars_ok p Hp) as [_ ->].
  unfold sum_list, fmap. simpl. lia.
Qed.

Lemma pair_array_loop_gen (arr : list apt_pair_t) (fuel : nat) (fresh p : apt_pair_t)
    (st : apt_text_stream_t) (acc : list apt_pair_t) :
  Forall pair_ok (p :: arr) → stream_wf st →
  window st = pair_gen_chars p ++ pairs_gen_chars arr → length (window st) < fuel →
  ∃ out, pair_array_loop fuel fresh st acc = Some (acc ++ out) ∧
    pair_chars <$> out = pair_chars <$> (p :: arr).
Proof.
  revert fuel p st acc. induction arr as [|q arr IH]; intros fuel p st acc Hok Hwf Hw Hl;
    (destruct fuel as [|fuel]; [lia|]); cbn [pair_array_loop pairs_gen_chars] in *;
    inversion_clear Hok as [|?? Hp Harr];
    destruct (pair_gen_chars_props p Hp) as (Hne & Hsc & Hhd).
  - rewrite app_nil_r in Hw.
    destruct (field_read_last _ ";" _ Hwf Hw Hsc Hhd) as (field & -> & Hc & Hlen & Hb).
    rewrite bool_decide_eq_true_2 by done.
    assert (Hfit : len field ≤ length (default [] (buf field))).
    { rewrite Hb, Hlen. simpl. rewrite length_drop. pose proof (window_length _ Hwf).
      destruct Hwf. rewrite Hw in *. lia. }
    destruct fuel as [|fuel]; [rewrite Hw in Hl; destruct (pair_gen_chars p); simpl in *; [done|lia]|].
    cbn [pair_array_loop]. set (st1 := with_pos _ _).
    assert (Hw1 : window st1 = []).
    { subst st1. rewrite window_with_pos, Hw. apply drop_ge. lia. }
    assert (Hwf1 : stream_wf st1).
    { pose proof (window_length _ Hwf) as Hwl. rewrite Hw in Hwl. destruct Hwf. split; simpl in *; lia. }
    destruct (field_read_last _ ";" _ Hwf1 Hw1) as (? & -> & _); [apply not_elem_of_nil|done|].
    eexists. split; [done|]. simpl. f_equal. by apply apt_pair_parse_gen.
  - destruct (field_read_exact _ ";" _ _ Hwf Hw Hsc Hhd) as (field & -> & Hc & Hlen & Hb); [done|].
    rewrite bool_decide_eq_true_2 by done.
    pose proof (window_length _ Hwf) as Hwl. rewrite Hw, length_app in Hwl. simpl in Hwl.
    assert (Hfit : len field ≤ length (default [] (buf field))).
    { rewrite Hb, Hlen. simpl. rewrite length_drop. destruct Hwf. lia. }
    set (st1 := with_pos _ _).
    assert (Hw1 : window st1 = pair_gen_chars q ++ pairs_gen_chars arr).
    { subst st1. by rewrite window_with_pos, Hw, <- drop_drop, drop_app_length. }
    assert (Hwf1 : stream_wf st1) by (destruct Hwf; split; simpl in *; lia).
    assert (Hl1 : length (window st1) < fuel).
    { rewrite Hw1. rewrite Hw, length_app in Hl. simpl in Hl.
      destruct (pair_gen_chars p); simpl in *; [done|]. lia. }
    destruct (IH fuel q st1 (acc ++ [(apt_pair_parse fresh field).2]) Harr Hwf1 Hw1 Hl1)
      as (out & Ho & Hout).
    exists ((apt_pair_parse fresh field).2 :: out). rewrite Ho, <- app_assoc.
    split; [done|]. rewrite !fmap_cons, Hout. simpl. f_equal. by apply apt_pair_parse_gen.
Qed.

(** A list of name-value pairs is read back from its generated text, with the
    same names and values, in order, whatever storage [apr_array_push] hands
    out. *)
Lemma pair_array_roundtrip (fresh : apt_pair_t) (acc arr : list apt_pair_t)
  (Hok : Forall pair_ok arr) :
  ∃ out, apt_pair_array_parse fresh acc (apt_pair_array_generate arr) = Some (acc ++ out) ∧
    pair_chars <$> out = pair_chars <$> arr.
Proof.
  unfold apt_pair_array_parse. set (v := apt_pair_array_generate arr).
  destruct arr as [|p arr].
  { exists []. by rewrite app_nil_r. }
  assert (Hlen : len v = length (default [] (buf v))).
  { subst v. simpl. inversion Hok as [|?? Hp Harr]; subst.
    rewrite length_app, pairs_gen_chars_length by done.
    destruct (pair_gen_chars_ok p Hp) as [_ ->]. unfold sum_list, fmap. simpl. lia. }
  assert (Hw : window (stream_of_str v) = pair_gen_chars p ++ pairs_gen_chars arr).
  { rewrite window_stream_of_str. unfold chars. rewrite Hlen. apply firstn_all. }
  apply (pair_array_loop_gen arr); [done|apply stream_of_str_wf; lia|done|lia].
Qed.

(** ** Identifier@resource strings *)

Lemma strchr_app (s t : cstr) (c : char) :
  c ∉ s → NUL ∉ s → strchr (s ++ c :: t) c = Some (length s).
Proof.
  induction s as [|x s IH]; intros Hc Hn; simpl.
  - by rewrite decide_True.
  - apply not_elem_of_cons in Hc as [Hc Hc'], Hn as [Hn Hn'].
    rewrite !decide_False by done. by rewrite IH.
Qed.

(** What is parsed from [a], the separator and [b]. *)
Lemma id_resource_parse_spec (a b : cstr) (sep : char) :
  sep ∉ a → NUL ∉ a →
  ∃ id resource, apt_id_resource_parse (str_of (a ++ sep :: b)) sep = Ok (Some (id, resource)) ∧
    chars id = a ∧ chars resource = b ∧ len resource = length b.
Proof.
  intros Hsep Hn. unfold apt_id_resource_parse. simpl. rewrite strchr_app by done.
  rewrite length_app. cbn [length]. rewrite decide_False by lia.
  eexists _, _. split; [done|]. rewrite !chars_copy. unfold chars. simpl. split_and!.
  - apply take_app_exact.
  - rewrite <- drop_drop, drop_app_length. simpl. apply take_ge. lia.
  - lia.
Qed.

(** A channel identifier "id@resource" that was generated parses back into
    the same identifier and resource name (the identifier holds neither the
    separator nor NUL). *)
Theorem id_resource_roundtrip (id resource : apt_str_t) (sep : char)
  (Wi : str_wf id) (Wr : str_wf resource) (Hsep : sep ∉ chars id) :
  ∃ id' resource', apt_id_resource_parse (apt_id_resource_generate id resource sep) sep =
      Ok (Some (id', resource')) ∧
    chars id' = chars id ∧ chars resource' = chars resource.
Proof.
  destruct (id_resource_parse_spec (chars id) (chars resource) sep) as (i & r & Hp & Hi & Hr & _);
    [done|apply Wi|].
  exists i, r. split; [|done]. rewrite <- Hp. f_equal. unfold apt_id_resource_generate, str_of.
  f_equal. rewrite length_app. simpl. rewrite !chars_length by done. lia.
Qed.

Lemma id_resource_roundtrip_witness :
  ∃ id' resource', apt_id_resource_parse
      (apt_id_resource_generate (str_of (lit "32AECB23")) (str_of (lit "speechrecog")) "@"%char) "@"%char =
      Ok (Some (id', resource')) ∧
    chars id' = chars (str_of (lit "32AECB23")) ∧ chars resource' = chars (str_of (lit "speechrecog")).
Proof. apply id_resource_roundtrip; text_side. Defined.

(** ** The length that counts its own digits *)

Lemma count_loop_digits (fuel : nat) (v c : Z) :
  fuel ≠ 0 → (0 ≤ v < 10 ^ Z.of_nat fuel)%Z →
  count_loop fuel v c = (c + Z.of_nat (length (dec_u v)))%Z.
Proof.
  revert v c. induction fuel as [|fuel IH]; intros v c Hf Hv; [done|]. cbn [count_loop].
  rewrite Nat2Z.inj_succ, Z.pow_succ_r in Hv by lia.
  pose proof (Z.div_mod v 10 ltac:(lia)). pose proof (Z.mod_pos_bound v 10 ltac:(lia)).
  case_decide as Hz.
  - f_equal. symmetry. apply dec_u_length; lia.
  - assert (0 ≤ v / 10)%Z by (apply Z.div_pos; lia).
    rewrite IH; [|by destruct fuel; simpl in *; lia|lia].
    destruct (dec_u_length_bounds (v / 10)) as (Hge1 & Hu & Hl); [done|].
    rewrite (dec_u_length v (Z.succ (Z.of_nat (length (dec_u (v / 10)))))); try lia.
    + rewrite Z.pow_succ_r; lia.
    + right. rewrite Z.sub_1_r, Z.pred_succ.
      set (n := Z.of_nat (length (dec_u (v / 10)))) in *.
      replace n with (Z.succ (n - 1)) by lia. rewrite Z.pow_succ_r by lia.
      destruct Hl as [->|Hl]; simpl; lia.
Qed.

Lemma bounds_loop_pow (k : nat) (b : Z) :
  (0 ≤ b)%Z → (b * 10 ^ Z.of_nat k < 2 ^ 64)%Z →
  bounds_loop k b = (b * 10 ^ Z.of_nat k)%Z.
Proof.
  revert b. induction k as [|k IH]; intros b Hb Hlt; simpl bounds_loop; [simpl; lia|].
  rewrite Nat2Z.inj_succ, Z.pow_succ_r in * by lia.
  pose proof (Z.pow_pos_nonneg 10 (Z.of_nat k)).
  rewrite wrap_u_small by nia. rewrite IH; nia.
Qed.

(** The value generated is [v] plus the number of decimal digits of the value
    itself, and the generation succeeds, printing exactly that number, if and
    only if it takes no more than [max_count] digits. *)
Lemma var_length_counts_itself (v max_count : Z)
  (Hv : (0 ≤ v < 10 ^ 18)%Z) :
  let '(ok, v', text) := apt_var_length_value_generate v max_count in
  v' = (v + Z.of_nat (length (dec_u v')))%Z ∧
  ok = bool_decide (Z.of_nat (length (dec_u v')) ≤ max_count)%Z ∧
  (ok = true → text = dec_u v').
Proof.
  unfold apt_var_length_value_generate.
  rewrite count_loop_digits by (simpl Z.of_nat; lia).
  destruct (dec_u_length_bounds v) as (Hge1 & Hu & Hl); [lia|].
  set (n := Z.of_nat (length (dec_u v))) in *. rewrite Z.add_0_l.
  assert (n ≤ 18)%Z as Hn.
  { destruct Hl as [?|Hl]; [lia|]. apply Z.nlt_ge. intros Hlt.
    pose proof (Z.pow_le_mono_r 10 18 (n - 1)). lia. }
  pose proof (Z.pow_le_mono_r 10 n 18 ltac:(lia) Hn).
  rewrite bounds_loop_pow, Z2Nat.id, Z.mul_1_l by (rewrite ?Z2Nat.id; lia).
  assert (n < 10 ^ n)%Z by (apply Z.pow_gt_lin_r; lia).
  rewrite (wrap_u_small _ (10 ^ n - n)) by lia.
  set (k := if decide (_ ≤ v)%Z then (n + 1)%Z else n).
  assert (Hk : Z.of_nat (length (dec_u (v + k))) = k).
  { subst k. case_decide.
    - apply dec_u_length; try lia; [rewrite Z.pow_add_r; lia|].
      right. rewrite Z.add_simpl_r. lia.
    - apply dec_u_length; lia. }
  assert (1 ≤ k ≤ 19)%Z by (subst k; case_decide; lia).
  rewrite wrap_u_small by lia. case_decide; rewrite Hk; split_and!; try done.
  - rewrite bool_decide_eq_false_2 by lia. done.
  - rewrite bool_decide_eq_true_2 by lia. done.
Qed.

(** ** Scrolling *)

Lemma store_all_mem (st : apt_text_stream_t) (s : cstr) :
  pos st + length s ≤ length (mem st) →
  store_all st s = Ok (with_mem st (take (pos st) (mem st) ++ s ++
                                    drop (pos st + length s) (mem st))).
Proof. intros. unfold store_all. by rewrite decide_True. Qed.

(** Scrolling loses no input.  When part of the text was consumed,
    [apt_text_stream_scroll] succeeds, the unread characters are moved, in
    order, to the front of the buffer, the text now is exactly those
    characters, the cursor stands behind them for the next read, and a NUL
    terminates them. *)
Theorem scroll_keeps_unread (st : apt_text_stream_t)
  (Hcons : text_buf st < pos st) (Hleft : pos st < text_buf st + text_len st)
  (Hend : end_ st = text_buf st + text_len st) (Hmem : end_ st ≤ length (mem st)) :
  let unread := take (text_buf st + text_len st - pos st) (drop (pos st) (mem st)) in
  ∃ st', apt_text_stream_scroll st = Ok (true, st') ∧
    text_buf st' = text_buf st ∧ text_len st' = length unread ∧
    pos st' = text_buf st + length unread ∧ end_ st' = end_ st ∧
    length (mem st') = length (mem st) ∧
    ∃ rest, drop (text_buf st) (mem st') = unread ++ NUL :: rest.
Proof.
  intros unread. unfold apt_text_stream_scroll.
  assert (Hu : length unread = text_buf st + text_len st - pos st).
  { subst unread. rewrite length_take, length_drop. lia. }
  rewrite decide_False by lia. rewrite decide_False by lia.
  rewrite store_all_mem by (simpl; fold unread; lia). fold unread. simpl.
  set (m := take (text_buf st) (mem st) ++ unread ++ _).
  assert (Hm : length m = length (mem st)).
  { subst m. rewrite !length_app, length_take, length_drop. lia. }
  unfold poke. rewrite store_all_mem by (simpl; lia). simpl.
  eexists. split; [done|]. simpl. rewrite Hu. split_and!; try done.
  - rewrite length_app, length_take. simpl. rewrite length_drop. lia.
  - eexists. replace (take _ m) with (take (text_buf st) (mem st) ++ unread).
    + rewrite <- app_assoc. rewrite drop_app_length' by (rewrite length_take; lia).
      reflexivity.
    + subst m. rewrite app_assoc. symmetry. apply take_app_length'.
      rewrite length_app, length_take. lia.
Qed.

Lemma scroll_keeps_unread_witness :
  let st := mk_stream (lit "MRCP/2.0 rest") 0 13 9 13 false in
  let unread := take (text_buf st + text_len st - pos st) (drop (pos st) (mem st)) in
  ∃ st', apt_text_stream_scroll st = Ok (true, st') ∧
    text_buf st' = text_buf st ∧ text_len st' = length unread ∧
    pos st' = text_buf st + length unread ∧ end_ st' = end_ st ∧
    length (mem st') = length (mem st) ∧
    ∃ rest, drop (text_buf st) (mem st') = unread ++ NUL :: rest.
Proof. intros st. apply (scroll_keeps_unread st); simpl; lia. Defined.

(** ** Completion causes *)

Lemma dec_pad3_atol (z : Z) (rest : cstr) :
  (0 ≤ z < 1000)%Z → atol (dec_pad3 z ++ rest) = z.
Proof.
  intros Hz. unfold dec_pad3. rewrite <- app_assoc, <- app_assoc, app_assoc.
  set (d := replicate _ _ ++ _).
  assert (Hd : Forall (λ c, isdigit c = true) d).
  { apply Forall_app. split; [by apply Forall_replicate|apply dec_u_digits; lia]. }
  assert (Hv : digits_value 0 d = z).
  { subst d. rewrite digits_value_app by (by apply Forall_replicate).
    replace (digits_value 0 (replicate _ _)) with 0%Z; [apply dec_u_value; lia|].
    generalize (3 - length (dec_u z)). intros n. by induction n. }
  rewrite atol_digits, Hv; [unfold LONG_MAX; lia| |done|done].
  subst d. intros [_ He]%app_eq_nil. by apply dec_u_nonempty in He.
Qed.

(** The completion-cause header reads back as the cause it was generated
    from: "ccc name" with [ccc] the code in three digits parses to the code,
    for each cause of the table below 1000. *)
Theorem completion_cause_roundtrip (table : list apt_str_table_item_t) (size cause : nat)
  (str : apt_str_t)
  (Hgen : apt_completion_cause_generate table size cause = Some str) (Hc : cause < 1000) :
  apt_size_value_parse str = Z.of_nat cause.
Proof.
  unfold apt_completion_cause_generate in Hgen.
  destruct (apt_string_table_str_get table size cause) as [name|]; [|done].
  case_decide; [done|]. injection Hgen as <-.
  unfold apt_size_value_parse. cbn [buf].
  rewrite dec_pad3_atol by lia. apply wrap_u_small; lia.
Qed.

Definition cause_table : list apt_str_table_item_t :=
  [mk_item (str_of (lit "success")) 0; mk_item (str_of (lit "no-match")) 0].

Lemma completion_cause_roundtrip_witness :
  apt_size_value_parse (mk_str (Some (lit "001 no-match")) 12) = Z.of_nat 1.
Proof.
  apply (completion_cause_roundtrip cause_table 2 1); [vm_compute; reflexivity|lia].
Defined.
