(* ===== verification/FloatValue.v ===== *)
(** * FloatValue: floating-point values as text ([apt_text_stream.c]).

    [float] and [double] are the IEEE formats binary32 and binary64, with
    rounding to nearest.  [atof] of the C library reads the longest prefix that
    is a number and rounds it correctly.  [apr_psprintf] with ["%f"] belongs to
    the Apache Portable Runtime and is the class [AprFloat]: six digits after
    the point, one of the nearest numbers of millionths.  The text of a value is
    read back as that number of millionths. *)
From S2P Require Import Prelude CString StringTable TextStream.
From Stdlib Require Import SpecFloat.
Local Open Scope Z_scope.

Notation float := spec_float (only parsing).
Notation F32 f := (f 24 128) (only parsing).
Notation F64 f := (f 53 1024) (only parsing).

#[export] Instance spec_float_eq_dec : EqDecision spec_float.
Proof. solve_decision. Defined.

(** ** Conversions *)

Definition float_of_double (x : spec_float) : float :=
  match x with
  | S754_finite s m e => F32 binary_normalize (if s then Zneg m else Zpos m) e s
  | _ => x
  end.

(** [(float)n] *)
Definition float_of_Z (n : Z) : float := F32 binary_normalize n 0 false.

(** [(apr_size_t)x]: truncation.  Out of range the cast has no defined result,
    [None]. *)
Definition size_of_float (x : float) : option Z :=
  match x with
  | S754_zero _ => Some 0
  | S754_finite s m e =>
      let n := if decide (0 ≤ e) then Zpos m * 2 ^ e else Zpos m / 2 ^ (- e) in
      if decide ((s = true ∧ n ≠ 0) ∨ 2 ^ 64 ≤ n) then None else Some n
  | _ => None
  end.

(** The double next to [num/den]. *)
Definition double_ratio (s : bool) (num den : Z) : spec_float :=
  match num, den with
  | Zpos n, Zpos d => F64 SFdiv (S754_finite s n 0) (S754_finite false d 0)
  | _, _ => S754_zero s
  end.

(** ** [atof] *)

(** The digits at the start of a text in base [b], their number and the rest. *)
Definition digit_in (b : Z) (c : char) : option Z :=
  let n := code c in
  let d := if (48 <=? n) && (n <=? 57) then n - 48
           else if (97 <=? n) && (n <=? 102) then n - 87
           else if (65 <=? n) && (n <=? 70) then n - 55
           else 99 in
  if d <? b then Some d else None.

Fixpoint take_digits (b acc cnt : Z) (s : cstr) : Z * Z * cstr :=
  match s with
  | c :: s' =>
      match digit_in b c with
      | Some d => take_digits b (acc * b + d) (cnt + 1) s'
      | None => (acc, cnt, s)
      end
  | [] => (acc, cnt, [])
  end.

(** Digits with an optional point: the value without the point, the number of
    digits, the number of digits after the point, the rest. *)
Definition take_mantissa (b : Z) (s : cstr) : Z * Z * Z * cstr :=
  let '(m, n, r) := take_digits b 0 0 s in
  match r with
  | "."%char :: r' =>
      let '(m', k, r'') := take_digits b m 0 r' in (m', n + k, k, r'')
  | _ => (m, n, 0, r)
  end.

(** An optional exponent after the letter [mark]. *)
Definition take_exponent (mark : char) (s : cstr) : Z :=
  match s with
  | c :: s' =>
      if decide (tolower c = mark) then
        let '(neg, s'') := match s' with
                           | "-"%char :: r => (true, r)
                           | "+"%char :: r => (false, r)
                           | _ => (false, s')
                           end in
        let '(e, _, _) := take_digits 10 0 0 s'' in
        if neg then - e else e
      else 0
  | [] => 0
  end.

(** [m * base^e] as a double. *)
Definition scaled (s : bool) (m base e : Z) : spec_float :=
  if decide (0 ≤ e) then double_ratio s (m * base ^ e) 1 else double_ratio s m (base ^ (- e)).

Definition starts_ci (p s : cstr) : bool := strncasecmp_eq s p (length p).

Definition atof_unsigned (neg : bool) (s : cstr) : spec_float :=
  if starts_ci (lit "inf") s then S754_infinity neg
  else if starts_ci (lit "nan") s then S754_nan
  else
    let '(hm, hn, hk, hr) := take_mantissa 16 (drop 2 s) in
    if starts_ci (lit "0x") s && (0 <? hn) then
      scaled neg hm 2 (take_exponent "p"%char hr - 4 * hk)
    else
      let '(m, n, k, r) := take_mantissa 10 s in
      if n =? 0 then S754_zero false
      else scaled neg m 10 (take_exponent "e"%char r - k).

Definition atof (s : cstr) : spec_float :=
  match skip_isspace s with
  | "-"%char :: s' => atof_unsigned true s'
  | "+"%char :: s' => atof_unsigned false s'
  | s' => atof_unsigned false s'
  end.

(** ** [apr_psprintf] *)

Definition float_finite (x : spec_float) : bool :=
  match x with S754_zero _ | S754_finite _ _ _ => true | _ => false end.
Definition float_sign (x : spec_float) : bool :=
  match x with S754_zero s | S754_infinity s | S754_finite s _ _ => s | S754_nan => false end.

(** [n] is next to the magnitude of [x], in millionths. *)
Definition millionths (x : spec_float) (n : Z) : Prop :=
  0 ≤ n ∧
  match x with
  | S754_zero _ => n = 0
  | S754_finite _ m e =>
      if decide (0 ≤ e) then n = Zpos m * 2 ^ e * 1000000
      else 2 * Z.abs (n * 2 ^ (- e) - Zpos m * 1000000) ≤ 2 ^ (- e)
  | _ => False
  end.

Definition signed (s : bool) (t : cstr) : cstr := if s then "-"%char :: t else t.

Definition fixed6 (n : Z) : cstr :=
  let d := dec_u (n mod 1000000) in
  dec_u (n / 1000000) ++ "."%char :: replicate (6 - length d) "0"%char ++ d.

Class AprFloat := {
  apr_psprintf_f : spec_float → cstr;
  apr_psprintf_f_spec x : float_finite x = true →
    ∃ n, millionths x n ∧ apr_psprintf_f x = signed (float_sign x) (fixed6 n)
}.

(** A reference: ties to even. *)
Definition div_nearest (a b : Z) : Z :=
  let q := a / b in
  match 2 * (a mod b) ?= b with
  | Lt => q
  | Gt => q + 1
  | Eq => if Z.even q then q else q + 1
  end.

Definition print_f (x : spec_float) : cstr :=
  match x with
  | S754_zero s => signed s (fixed6 0)
  | S754_infinity s => signed s (lit "inf")
  | S754_nan => lit "nan"
  | S754_finite s m e =>
      signed s (fixed6 (if decide (0 ≤ e) then Zpos m * 2 ^ e * 1000000
                        else div_nearest (Zpos m * 1000000) (2 ^ (- e))))
  end.

Lemma div_nearest_spec (a b : Z) :
  0 ≤ a → 0 < b → 0 ≤ div_nearest a b ∧ 2 * Z.abs (div_nearest a b * b - a) ≤ b.
Proof.
  intros Ha Hb. pose proof (Z.div_mod a b ltac:(lia)). pose proof (Z.mod_pos_bound a b Hb).
  pose proof (Z.div_pos a b Ha Hb). unfold div_nearest.
  destruct (Z.compare_spec (2 * (a mod b)) b); [destruct (Z.even _)|..]; nia.
Qed.

Lemma print_f_spec (x : spec_float) :
  float_finite x = true → ∃ n, millionths x n ∧ print_f x = signed (float_sign x) (fixed6 n).
Proof.
  destruct x as [s|s| |s m e]; try done; intros _; [by exists 0|]. eexists. split; [|done].
  unfold millionths. case_decide; [lia|]. apply div_nearest_spec; [lia|]. apply Z.pow_pos_nonneg; lia.
Qed.

#[export] Instance apr_float_ref : AprFloat := {| apr_psprintf_f := print_f; apr_psprintf_f_spec := print_f_spec |}.

(** ** The values *)

Definition apt_float_value_parse (str : apt_str_t) : float :=
  match buf str with Some b => float_of_double (atof b) | None => S754_zero false end.

(** The loop over the trailing zeros, on the reversed text. *)
Fixpoint strip_zeros (r : cstr) : cstr :=
  match r with
  | "0"%char :: ((c :: _) as r') => if decide (c = "."%char) then r else strip_zeros r'
  | _ => r
  end.

Definition apt_float_value_generate `{AprFloat} (v : float) : apt_str_t :=
  let b := apr_psprintf_f v in
  mk_str (Some b) (length (strip_zeros (reverse b))).

(** ** Percentages: the thresholds of MRCPv1 ([mrcp_recog_header.c]) *)

Definition apt_size_value_parse_as_float (value : apt_str_t) : float :=
  F32 SFdiv (float_of_Z (apt_size_value_parse value)) (float_of_Z 100).

(** [0.001f] *)
Definition milli : float := float_of_double (atof (lit "0.001")).

(** The percents of a value. *)
Definition percent (value : float) : option Z :=
  size_of_float (F32 SFmul (F32 SFadd value milli) (float_of_Z 100)).

Lemma percent_nonneg (value : float) (n : Z) : percent value = Some n → 0 ≤ n.
Proof.
  unfold percent, size_of_float. destruct (SFmul _ _ _ _) as [| | |s m e]; try done; [by intros [= <-]|].
  repeat case_decide; intros [= <-]; [|apply Z.div_pos; [lia|apply Z.pow_pos_nonneg; lia]].
  apply Z.mul_nonneg_nonneg; [lia|apply Z.pow_nonneg; lia].
Qed.

(** A cast out of range gives 0 here. *)
Definition apt_size_value_generate_from_float `{AprFormat} (value : float) : apt_str_t :=
  apt_size_value_generate (default 0 (percent value)).

(** ** What is read back *)

(** The float read from the number of millionths [n], written without [j] of its
    trailing zeros. *)
Definition read_millionths (s : bool) (n : Z) (y : float) : Prop :=
  ∃ j, 0 ≤ j ≤ 5 ∧ n mod 10 ^ j = 0 ∧ y = float_of_double (scaled s (n / 10 ^ j) 10 (j - 6)).

(** The peer reads [y] where [x] was written. *)
Definition float_received (x y : float) : Prop :=
  ∃ n, millionths x n ∧ read_millionths (float_sign x) n y.

Notation digits s := (Forall (λ c, isdigit c = true) s).

Lemma digit_in_10 (c : char) : digit_in 10 c = if isdigit c then Some (code c - 48) else None.
Proof. by destruct c as [[] [] [] [] [] [] [] []]; vm_compute. Qed.

Lemma take_digits_app (s r : cstr) :
  digits s → isdigit (hd_char r) = false →
  ∀ acc cnt, take_digits 10 acc cnt (s ++ r) = (digits_value acc s, cnt + Z.of_nat (length s), r).
Proof.
  intros Hs Hr. induction Hs as [|c s Hc _ IH]; intros acc cnt; cbn [app take_digits digits_value length].
  - rewrite Z.add_0_r. destruct r as [|c r]; [done|]. cbn [take_digits]. simpl in Hr. by rewrite digit_in_10, Hr.
  - rewrite digit_in_10, Hc, IH, (Z.mul_comm acc 10). do 2 f_equal. lia.
Qed.

Lemma digits_value_acc (s : cstr) (acc : Z) :
  digits s → digits_value acc s = acc * 10 ^ Z.of_nat (length s) + digits_value 0 s.
Proof.
  intros Hs. revert acc. induction Hs as [|c s Hc _ IH]; intros acc; cbn [digits_value length]; [lia|].
  rewrite Hc, (IH (10 * acc + _)), (IH (10 * 0 + _)), Nat2Z.inj_succ, Z.pow_succ_r by lia. lia.
Qed.

Lemma digits_value_zeros (k : nat) (acc : Z) :
  digits_value acc (replicate k "0"%char) = acc * 10 ^ Z.of_nat k.
Proof.
  revert acc. induction k as [|k IH]; intros acc; [simpl; lia|].
  change (digits_value acc (replicate (S k) "0"%char)) with (digits_value (10 * acc + 0) (replicate k "0"%char)).
  rewrite IH, Nat2Z.inj_succ, Z.pow_succ_r by lia. lia.
Qed.

Lemma zeros_digits (k : nat) : digits (replicate k "0"%char).
Proof. by apply Forall_replicate. Qed.

Lemma digit_plain (c : char) (s : cstr) :
  isdigit c = true →
  isspace c = false ∧ starts_ci (lit "inf") (c :: s) = false ∧ starts_ci (lit "nan") (c :: s) = false ∧
  c ≠ "-"%char ∧ c ≠ "+"%char.
Proof. destruct c as [[] [] [] [] [] [] [] []]; try done; intros _; by split_and!. Qed.

Lemma not_hex (a b : char) (s : cstr) :
  isdigit b = true ∨ b = "."%char → starts_ci (lit "0x") (a :: b :: s) = false.
Proof.
  intros Hb. unfold starts_ci. simpl. case_decide; [|done]. case_decide; [subst; done|].
  destruct Hb as [Hb| ->]; [|done]. destruct b as [[] [] [] [] [] [] [] []]; done.
Qed.

(** [atof] of digits, a point and digits. *)
Lemma atof_decimal (s : bool) (ds fr : cstr) :
  ds ≠ [] → digits ds → digits fr →
  atof (signed s (ds ++ "."%char :: fr)) = scaled s (digits_value 0 (ds ++ fr)) 10 (- Z.of_nat (length fr)).
Proof.
  intros Hne Hds Hfr.
  assert (atof_unsigned s (ds ++ "."%char :: fr) =
    scaled s (digits_value 0 (ds ++ fr)) 10 (- Z.of_nat (length fr))) as Hu.
  { unfold atof_unsigned.
    assert (starts_ci (lit "0x") (ds ++ "."%char :: fr) = false) as ->.
    { destruct ds as [|a [|b ds]]; [done|by apply not_hex; right|]. apply not_hex. left.
      by repeat match goal with H : Forall _ (_ :: _) |- _ => apply Forall_cons in H as [? H] end. }
    destruct ds as [|c ds]; [done|]. pose proof Hds as [Hc _]%Forall_cons.
    destruct (digit_plain c (ds ++ "."%char :: fr) Hc) as (_ & Hi & Hna & _). rewrite app_comm_cons in Hi, Hna.
    rewrite Hi, Hna.
    destruct (take_mantissa 16 _) as [[[hm hn] hk] hr]. cbn [andb]. unfold take_mantissa.
    rewrite take_digits_app by done. rewrite <- (app_nil_r fr), take_digits_app, app_nil_r by done.
    rewrite digits_value_app by done.  rewrite (proj2 (Z.eqb_neq _ 0)) by (rewrite length_cons; lia). done. }
  destruct ds as [|c ds]; [done|]. apply Forall_cons in Hds as [Hc _].
  destruct (digit_plain c (ds ++ "."%char :: fr) Hc) as (Hsp & _ & _ & Hm & Hp).
  unfold atof, signed. destruct s; [exact Hu|]. rewrite <- Hu. cbn [app skip_isspace]. rewrite Hsp.
  destruct c as [[] [] [] [] [] [] [] []]; done.
Qed.

Lemma strip_zeros_spec (r rest : cstr) :
  r ≠ [] → digits r →
  ∃ j r', r = replicate j "0"%char ++ r' ∧ r' ≠ [] ∧ strip_zeros (r ++ "."%char :: rest) = r' ++ "."%char :: rest.
Proof.
  intros Hne Hr. induction Hr as [|c r Hc Hr IH]; [done|].
  assert (∀ x, c ≠ "0"%char → strip_zeros (c :: x) = c :: x) as Hother
    by (intros x Hn; destruct c as [[] [] [] [] [] [] [] []]; done).
  destruct (decide (c = "0"%char)) as [->|Hn]; [|exists 0%nat, (c :: r); by rewrite <- app_comm_cons, Hother].
  destruct r as [|b r]; [by exists 0%nat, ["0"%char]|].
  destruct IH as (j & r' & E & Hne' & Hs); [done|]. exists (S j), r'. split_and!; [by rewrite E|done|].
  rewrite <- Hs. cbn [app strip_zeros]. rewrite decide_False; [done|]. apply Forall_cons in Hr as [Hb _]. intros ->. done.
Qed.

(** The fraction of [fixed6]. *)
Lemma fixed6_spec (n : Z) :
  0 ≤ n → ∃ fr, fixed6 n = dec_u (n / 1000000) ++ "."%char :: fr ∧ length fr = 6%nat ∧ digits fr ∧
    digits_value 0 (dec_u (n / 1000000) ++ fr) = n.
Proof.
  intros Hn. pose proof (Z.mod_pos_bound n 1000000 ltac:(lia)). pose proof (Z.div_pos n 1000000 Hn ltac:(lia)).
  pose proof (Z.div_mod n 1000000 ltac:(lia)). unfold fixed6. set (d := dec_u (n mod 1000000)).
  assert (digits d) as Hd by (by apply dec_u_digits; lia).
  assert (length d ≤ 6)%nat as Hl.
  { destruct (dec_u_length_bounds (n mod 1000000)) as (_ & _ & [Hb|Hb]); [lia|fold d in Hb; lia|].
    fold d in Hb. destruct (decide (length d ≤ 6)%nat); [done|].
    pose proof (Z.pow_le_mono_r 10 6 (Z.of_nat (length d) - 1)). lia. }
  exists (replicate (6 - length d) "0"%char ++ d). split_and!; [done|rewrite length_app, length_replicate; lia| |].
  - apply Forall_app. split; [apply zeros_digits|done].
  - rewrite digits_value_app, dec_u_value by (lia || by apply dec_u_digits).
    rewrite digits_value_app, digits_value_zeros, digits_value_acc by (done || apply zeros_digits).
    unfold d at 3. rewrite dec_u_value, <- Z.mul_assoc, <- Z.pow_add_r by lia.
    replace (Z.of_nat (6 - length d) + Z.of_nat (length d)) with 6 by lia. lia.
Qed.

(** The text of a value, and what is read from it. *)
Lemma float_text `{AprFloat} (x : float) :
  float_finite x = true →
  ∃ ds fr n, chars (apt_float_value_generate x) = signed (float_sign x) (ds ++ "."%char :: fr) ∧
    ds ≠ [] ∧ digits ds ∧ digits fr ∧ millionths x n ∧
    read_millionths (float_sign x) n (apt_float_value_parse (str_of (chars (apt_float_value_generate x)))).
Proof.
  intros Hx. destruct (apr_psprintf_f_spec x Hx) as (n & Hn & Ht). pose proof Hn as [Hn0 _].
  destruct (fixed6_spec n Hn0) as (fr & Hf & Hl & Hd & Hv). set (ds := dec_u (n / 1000000)) in *.
  destruct (strip_zeros_spec (reverse fr) (reverse (signed (float_sign x) ds))) as (j & r' & Er & Hne & Hs).
  { intros E%(f_equal length). rewrite length_reverse, Hl in E. done. }
  { by apply Forall_reverse. }
  assert (fr = reverse r' ++ replicate j "0"%char) as Efr.
  { rewrite <- (reverse_involutive fr), Er, reverse_app, reverse_replicate. done. }
  assert (signed (float_sign x) (ds ++ "."%char :: fr) = signed (float_sign x) ds ++ "."%char :: fr) as Eb
    by (by destruct (float_sign x)).
  assert (chars (apt_float_value_generate x) = signed (float_sign x) (ds ++ "."%char :: reverse r')) as Ec.
  { unfold apt_float_value_generate, chars. cbn [buf len]. rewrite Ht, Hf, Eb.
    rewrite reverse_app, reverse_cons, <- app_assoc. cbn [app]. rewrite Hs, length_app. cbn [length].
    rewrite length_reverse, Efr. change (default [] (Some ?l)) with l.
    replace (signed (float_sign x) ds ++ "."%char :: reverse r' ++ replicate j "0"%char)
      with ((signed (float_sign x) ds ++ "."%char :: reverse r') ++ replicate j "0"%char)
      by (by rewrite <- app_assoc).
    rewrite take_app_length'; [by destruct (float_sign x)|rewrite length_app; cbn [length]; rewrite length_reverse; lia]. }
  assert (digits (reverse r') ∧ length (reverse r') = (6 - j)%nat ∧ (j ≤ 5)%nat) as (Hd' & Hl' & Hj).
  { rewrite Efr in Hd, Hl. apply Forall_app in Hd as [? _]. rewrite length_app, length_replicate in Hl.
    destruct r'; [done|]. rewrite length_reverse in *. simpl in *. split_and!; [done|lia..]. }
  assert (ds ≠ []) as Hds by apply dec_u_nonempty. assert (digits ds) as Hdd by (apply dec_u_digits, Z.div_pos; lia).
  exists ds, (reverse r'), n. split_and!; try done. exists (Z.of_nat j).
  rewrite Efr, app_assoc, digits_value_app, digits_value_zeros in Hv by (apply Forall_app; by split).
  set (m := digits_value 0 (ds ++ reverse r')) in *. rewrite <- Hv. split_and!; [lia|lia|by rewrite Z.mod_mul by lia|].
  unfold apt_float_value_parse. cbn [buf str_of]. rewrite Ec, atof_decimal by done. fold m.
  rewrite Z.div_mul by lia. do 3 f_equal. lia.
Qed.
