(* ===== verification/SynthValues.v ===== *)
(** * SynthValues: the values of the synthesizer header that have a syntax of
    their own ([mrcp_synth_header.c]): speech lengths, prosody and the names of
    the string tables.

    [junk] stands for what uninitialised memory of a union holds. *)
From S2P Require Import Prelude CString StringTable TextStream FloatValue.
From Stdlib Require Import SpecFloat.

Notation SPEECH_UNIT_COUNT := 4 (only parsing).
Notation VOICE_GENDER_COUNT := 3 (only parsing).
Notation PROSODY_VOLUME_COUNT := 7 (only parsing).
Notation PROSODY_RATE_COUNT := 6 (only parsing).

Definition speech_unit_string_table : list apt_str_table_item_t :=
  [item "Second" 2; item "Word" 0; item "Sentence" 2; item "Paragraph" 0].

Definition voice_gender_string_table : list apt_str_table_item_t :=
  [item "male" 0; item "female" 0; item "neutral" 0].

Definition prosody_volume_string_table : list apt_str_table_item_t :=
  [item "silent" 1; item "x-soft" 2; item "soft" 3; item "medium" 0; item "loud" 0;
   item "x-loud" 5; item "default" 0].

Definition prosody_rate_string_table : list apt_str_table_item_t :=
  [item "x-slow" 3; item "slow" 0; item "medium" 0; item "fast" 0; item "x-fast" 4;
   item "default" 0].

(** The table values are [apt_string_table_id_find]. *)
Definition apt_string_table_value_parse (table : list apt_str_table_item_t) (count : nat)
    (v : apt_str_t) : nat := apt_string_table_id_find table count v.

(** The result and [*str] after the call. *)
Definition apt_string_table_value_pgenerate (table : list apt_str_table_item_t) (count id : nat)
    (str : apt_str_t) : bool * apt_str_t :=
  match apt_string_table_str_get table count id with
  | None => (false, str)
  | Some name => (true, apt_string_copy name)
  end.

(** ** Speech lengths *)

Inductive mrcp_speech_length_type_e :=
  | SPEECH_LENGTH_TYPE_TEXT
  | SPEECH_LENGTH_TYPE_NUMERIC_POSITIVE
  | SPEECH_LENGTH_TYPE_NUMERIC_NEGATIVE
  | SPEECH_LENGTH_TYPE_UNKNOWN.

#[export] Instance mrcp_speech_length_type_eq_dec : EqDecision mrcp_speech_length_type_e.
Proof. solve_decision. Defined.

(** The union: what was written to it last. *)
Inductive speech_length_union :=
  | SpeechTag (tag : apt_str_t)
  | SpeechNumeric (length : Z) (unit : nat).

Record mrcp_speech_length_value_t := mk_speech_length {
  length_type : mrcp_speech_length_type_e;
  length_value : speech_length_union
}.

(** The [unit] read from the union. *)
Definition union_unit (junk : nat) (u : speech_length_union) : nat :=
  match u with SpeechNumeric _ unit => unit | SpeechTag _ => junk end.

Definition mrcp_speech_length_value_parse (junk : nat) (old : mrcp_speech_length_value_t)
    (value : apt_str_t) : bool * mrcp_speech_length_value_t :=
  if decide (len value = 0) then (false, old)
  else
    let ty := match default [] (buf value) with
              | "+"%char :: _ => SPEECH_LENGTH_TYPE_NUMERIC_POSITIVE
              | "-"%char :: _ => SPEECH_LENGTH_TYPE_NUMERIC_NEGATIVE
              | _ => SPEECH_LENGTH_TYPE_TEXT
              end in
    if decide (ty = SPEECH_LENGTH_TYPE_TEXT)
    then (true, mk_speech_length ty (SpeechTag (apt_string_copy value)))
    else
      let st := stream_of_str value in
      let st := with_pos st (S (pos st)) in
      let '(ok, st, str) := apt_text_field_read st APT_TOKEN_SP true in
      if negb ok then (false, mk_speech_length ty (length_value old))
      else
        let n := apt_size_value_parse str in
        let '(ok, st, str) := apt_text_field_read st APT_TOKEN_SP true in
        if negb ok
        then (false, mk_speech_length ty (SpeechNumeric n (union_unit junk (length_value old))))
        else
          (true, mk_speech_length ty
             (SpeechNumeric n (apt_string_table_value_parse speech_unit_string_table SPEECH_UNIT_COUNT str))).

(** The result and [*str] after the call; ["%c%lu %s"] is the sign, the number
    and the name. *)
Definition mrcp_speech_length_generate `{AprFormat} (junk : nat) (l : mrcp_speech_length_value_t)
    (str : apt_str_t) : bool * apt_str_t :=
  match length_type l, length_value l with
  | SPEECH_LENGTH_TYPE_TEXT, SpeechTag tag =>
      (true, if decide (len tag = 0) then str else apt_string_copy tag)
  | ty, u =>
      match apt_string_table_str_get speech_unit_string_table SPEECH_UNIT_COUNT (union_unit junk u) with
      | None => (false, str)
      | Some name =>
          let n := match u with SpeechNumeric n _ => n | SpeechTag _ => Z.of_nat junk end in
          (true, str_of ((if decide (ty = SPEECH_LENGTH_TYPE_NUMERIC_POSITIVE) then "+"%char else "-"%char)
                         :: apr_psprintf_u n ++ " "%char :: chars name))
      end
  end.

(** ** Prosody *)

Inductive mrcp_prosody_volume_t :=
  | PROSODY_VOLUME_TYPE_LABEL (label : nat)
  | PROSODY_VOLUME_TYPE_NUMERIC (numeric : float)
  | PROSODY_VOLUME_TYPE_RELATIVE_CHANGE (relative : float)
  | PROSODY_VOLUME_TYPE_UNKNOWN (junk : float).

Inductive mrcp_prosody_rate_t :=
  | PROSODY_RATE_TYPE_LABEL (label : nat)
  | PROSODY_RATE_TYPE_RELATIVE_CHANGE (relative : float)
  | PROSODY_RATE_TYPE_UNKNOWN (junk : float).

(** ['0'<=c && c<='9'] *)
Definition starts_with_digit (v : apt_str_t) : bool := isdigit (hd_char (default [] (buf v))).

Definition mrcp_prosody_param_rate_parse (old : mrcp_prosody_rate_t) (value : apt_str_t)
    : bool * mrcp_prosody_rate_t :=
  if decide (len value = 0) then (false, old)
  else if starts_with_digit value
  then (true, PROSODY_RATE_TYPE_RELATIVE_CHANGE (apt_float_value_parse value))
  else (true, PROSODY_RATE_TYPE_LABEL
                (apt_string_table_value_parse prosody_rate_string_table PROSODY_RATE_COUNT value)).

Definition mrcp_prosody_param_volume_parse (old : mrcp_prosody_volume_t) (value : apt_str_t)
    : bool * mrcp_prosody_volume_t :=
  if decide (len value = 0) then (false, old)
  else
    match default [] (buf value) with
    | "+"%char :: _ | "-"%char :: _ =>
        (true, PROSODY_VOLUME_TYPE_RELATIVE_CHANGE (apt_float_value_parse value))
    | _ =>
        if starts_with_digit value
        then (true, PROSODY_VOLUME_TYPE_NUMERIC (apt_float_value_parse value))
        else (true, PROSODY_VOLUME_TYPE_LABEL
                (apt_string_table_value_parse prosody_volume_string_table PROSODY_VOLUME_COUNT value))
    end.

Section Generate.
  Context `{AprFloat}.

(** The results of the inner calls are not used. *)
Definition mrcp_prosody_rate_generate (r : mrcp_prosody_rate_t) (str : apt_str_t) : bool * apt_str_t :=
  match r with
  | PROSODY_RATE_TYPE_LABEL label =>
      (true, (apt_string_table_value_pgenerate prosody_rate_string_table PROSODY_RATE_COUNT label str).2)
  | PROSODY_RATE_TYPE_RELATIVE_CHANGE x | PROSODY_RATE_TYPE_UNKNOWN x => (true, apt_float_value_generate x)
  end.

Definition mrcp_prosody_volume_generate (v : mrcp_prosody_volume_t) (str : apt_str_t) : bool * apt_str_t :=
  match v with
  | PROSODY_VOLUME_TYPE_LABEL label =>
      (true, (apt_string_table_value_pgenerate prosody_volume_string_table PROSODY_VOLUME_COUNT label str).2)
  | PROSODY_VOLUME_TYPE_NUMERIC x | PROSODY_VOLUME_TYPE_RELATIVE_CHANGE x
  | PROSODY_VOLUME_TYPE_UNKNOWN x => (true, apt_float_value_generate x)
  end.

End Generate.
