(* ===== verification/StartLine.v ===== *)
(** * StartLine: [mrcp_start_line.c], the first line of an MRCP message.

    MRCPv1:  [METHOD id MRCP/1.0], [MRCP/1.0 id status STATE] and
             [EVENT id STATE MRCP/1.0];
    MRCPv2:  [MRCP/2.0 length METHOD id], [MRCP/2.0 length id status STATE] and
             [MRCP/2.0 length EVENT id STATE], where [length] is the size in
             bytes of the whole message, its own digits included. *)
From S2P Require Import Prelude CString StringTable TextStream.

Inductive mrcp_version_e := MRCP_VERSION_UNKNOWN | MRCP_VERSION_1 | MRCP_VERSION_2.

Inductive mrcp_request_state_e :=
| MRCP_REQUEST_STATE_COMPLETE
| MRCP_REQUEST_STATE_INPROGRESS
| MRCP_REQUEST_STATE_PENDING
| MRCP_REQUEST_STATE_UNKNOWN.

Inductive mrcp_message_type_e :=
| MRCP_MESSAGE_TYPE_UNKNOWN
| MRCP_MESSAGE_TYPE_REQUEST
| MRCP_MESSAGE_TYPE_RESPONSE
| MRCP_MESSAGE_TYPE_EVENT.

#[export] Instance mrcp_version_e_eq_dec : EqDecision mrcp_version_e.
Proof. solve_decision. Defined.
#[export] Instance mrcp_request_state_e_eq_dec : EqDecision mrcp_request_state_e.
Proof. solve_decision. Defined.
#[export] Instance mrcp_message_type_e_eq_dec : EqDecision mrcp_message_type_e.
Proof. solve_decision. Defined.

(** The status codes are the values of a C enumeration, an unsigned int. *)
Notation MRCP_STATUS_CODE_UNKNOWN := 0%Z (only parsing).
Notation MRCP_STATUS_CODE_SUCCESS := 200%Z (only parsing).
Notation MRCP_STATUS_CODE_METHOD_NOT_VALID := 402%Z (only parsing).
Notation MRCP_STATUS_CODE_METHOD_FAILED := 407%Z (only parsing).

Record mrcp_start_line_t := mk_start_line {
  message_type : mrcp_message_type_e;
  version : mrcp_version_e;
  length_ : Z;
  request_id : Z;
  method_name : apt_str_t;
  method_id : nat;
  status_code : Z;
  request_state : mrcp_request_state_e
}.

Definition set_message_type (sl : mrcp_start_line_t) (x : mrcp_message_type_e) :=
  mk_start_line x (version sl) (length_ sl) (request_id sl) (method_name sl)
    (method_id sl) (status_code sl) (request_state sl).
Definition set_version (sl : mrcp_start_line_t) (x : mrcp_version_e) :=
  mk_start_line (message_type sl) x (length_ sl) (request_id sl) (method_name sl)
    (method_id sl) (status_code sl) (request_state sl).
Definition set_length (sl : mrcp_start_line_t) (x : Z) :=
  mk_start_line (message_type sl) (version sl) x (request_id sl) (method_name sl)
    (method_id sl) (status_code sl) (request_state sl).
Definition set_request_id (sl : mrcp_start_line_t) (x : Z) :=
  mk_start_line (message_type sl) (version sl) (length_ sl) x (method_name sl)
    (method_id sl) (status_code sl) (request_state sl).
Definition set_method_name (sl : mrcp_start_line_t) (x : apt_str_t) :=
  mk_start_line (message_type sl) (version sl) (length_ sl) (request_id sl) x
    (method_id sl) (status_code sl) (request_state sl).
Definition set_method_id (sl : mrcp_start_line_t) (x : nat) :=
  mk_start_line (message_type sl) (version sl) (length_ sl) (request_id sl)
    (method_name sl) x (status_code sl) (request_state sl).
Definition set_status_code (sl : mrcp_start_line_t) (x : Z) :=
  mk_start_line (message_type sl) (version sl) (length_ sl) (request_id sl)
    (method_name sl) (method_id sl) x (request_state sl).
Definition set_request_state (sl : mrcp_start_line_t) (x : mrcp_request_state_e) :=
  mk_start_line (message_type sl) (version sl) (length_ sl) (request_id sl)
    (method_name sl) (method_id sl) (status_code sl) x.

Definition MRCP_NAME : cstr := lit "MRCP".
Notation MAX_DIGIT_COUNT := 6%nat (only parsing).

Definition mrcp_request_state_string_table : list apt_str_table_item_t :=
  [item "COMPLETE" 0; item "IN-PROGRESS" 0; item "PENDING" 0].
Notation MRCP_REQUEST_STATE_COUNT := 3%nat (only parsing).

Definition request_state_num (s : mrcp_request_state_e) : nat :=
  match s with
  | MRCP_REQUEST_STATE_COMPLETE => 0
  | MRCP_REQUEST_STATE_INPROGRESS => 1
  | MRCP_REQUEST_STATE_PENDING => 2
  | MRCP_REQUEST_STATE_UNKNOWN => 3
  end.
Definition request_state_of_num (n : nat) : mrcp_request_state_e :=
  match n with
  | 0 => MRCP_REQUEST_STATE_COMPLETE
  | 1 => MRCP_REQUEST_STATE_INPROGRESS
  | 2 => MRCP_REQUEST_STATE_PENDING
  | _ => MRCP_REQUEST_STATE_UNKNOWN
  end.
Definition version_num (v : mrcp_version_e) : Z :=
  match v with
  | MRCP_VERSION_UNKNOWN => 0
  | MRCP_VERSION_1 => 1
  | MRCP_VERSION_2 => 2
  end.

(** ** Parsing *)

Definition mrcp_version_parse (field : apt_str_t) : mrcp_version_e :=
  let b := default [] (buf field) in
  if decide (len field ≤ length MRCP_NAME ∨
             strncasecmp_eq b MRCP_NAME (length MRCP_NAME) = false)
  then MRCP_VERSION_UNKNOWN
  else
    let p := drop (length MRCP_NAME) b in
    if decide (hd_char p = "/"%char) then
      let c := hd_char (tail p) in
      if decide (c = "1"%char) then MRCP_VERSION_1
      else if decide (c = "2"%char) then MRCP_VERSION_2
      else MRCP_VERSION_UNKNOWN
    else MRCP_VERSION_UNKNOWN.

Definition mrcp_request_state_parse (str : apt_str_t) : mrcp_request_state_e :=
  request_state_of_num
    (apt_string_table_id_find mrcp_request_state_string_table MRCP_REQUEST_STATE_COUNT str).

Definition mrcp_status_code_parse (field : apt_str_t) : Z :=
  u32 (apt_size_value_parse field).

(** [return atol(field->buf)], as a 32-bit request identifier. *)
Definition mrcp_request_id_parse (field : apt_str_t) : Z :=
  match buf field with Some b => u32 (atol b) | None => 0 end.

(** [apt_text_field_read(stream,APT_TOKEN_SP,TRUE,&field)]. *)
Definition read_field (st : apt_text_stream_t) : bool * apt_text_stream_t * apt_str_t :=
  apt_text_field_read st APT_TOKEN_SP true.

Definition mrcp_request_line_parse (sl : mrcp_start_line_t) (st : apt_text_stream_t)
    : bool * mrcp_start_line_t :=
  match read_field st with
  | (false, _, _) => (false, sl)
  | (true, st, field) =>
      let sl := set_request_id sl (mrcp_request_id_parse field) in
      match read_field st with
      | (false, _, _) => (false, sl)
      | (true, st, field) =>
          let sl := set_request_state sl (mrcp_request_state_parse field) in
          let version_of sl field :=
            let sl := set_version sl (mrcp_version_parse field) in
            (bool_decide (version sl ≠ MRCP_VERSION_UNKNOWN), sl) in
          if decide (request_state sl = MRCP_REQUEST_STATE_UNKNOWN) then
            version_of (set_message_type sl MRCP_MESSAGE_TYPE_REQUEST) field
          else
            let sl := set_message_type sl MRCP_MESSAGE_TYPE_EVENT in
            match read_field st with
            | (false, _, _) => (false, sl)
            | (true, _, field) => version_of sl field
            end
      end
  end.

Definition mrcp_response_line_parse (sl : mrcp_start_line_t) (st : apt_text_stream_t)
    : bool * mrcp_start_line_t :=
  let sl := set_length sl 0 in
  let rest sl st :=
    match read_field st with
    | (false, _, _) => (false, sl)
    | (true, st, field) =>
        let sl := set_request_id sl (mrcp_request_id_parse field) in
        match read_field st with
        | (false, _, _) => (false, sl)
        | (true, st, field) =>
            let sl := set_status_code sl (mrcp_status_code_parse field) in
            match read_field st with
            | (false, _, _) => (false, sl)
            | (true, _, field) =>
                (true, set_request_state sl (mrcp_request_state_parse field))
            end
        end
    end in
  if decide (version sl = MRCP_VERSION_2) then
    match read_field st with
    | (false, _, _) => (false, sl)
    | (true, st, field) => rest (set_length sl (apt_size_value_parse field)) st
    end
  else rest sl st.

Definition mrcp_v2_start_line_parse (sl : mrcp_start_line_t) (st : apt_text_stream_t)
    : bool * mrcp_start_line_t :=
  match read_field st with
  | (false, _, _) => (false, sl)
  | (true, st, field) =>
      let sl := set_length sl (apt_size_value_parse field) in
      match read_field st with
      | (false, _, _) => (false, sl)
      | (true, st, field) =>
          let sl := set_request_id sl (mrcp_request_id_parse field) in
          if decide (request_id sl = 0%Z ∧ hd_char (default [] (buf field)) ≠ "0"%char) then
            let sl := set_message_type sl MRCP_MESSAGE_TYPE_REQUEST in
            let sl := set_method_name sl (apt_string_copy field) in
            match read_field st with
            | (false, _, _) => (false, sl)
            | (true, st, field) =>
                let sl := set_request_id sl (mrcp_request_id_parse field) in
                match read_field st with
                | (true, _, field) =>
                    let sl := set_request_state sl (mrcp_request_state_parse field) in
                    (true, set_message_type sl MRCP_MESSAGE_TYPE_EVENT)
                | (false, _, _) => (true, sl)
                end
            end
          else
            let sl := set_message_type sl MRCP_MESSAGE_TYPE_RESPONSE in
            match read_field st with
            | (false, _, _) => (false, sl)
            | (true, st, field) =>
                let sl := set_status_code sl (mrcp_status_code_parse field) in
                match read_field st with
                | (false, _, _) => (false, sl)
                | (true, _, field) =>
                    (true, set_request_state sl (mrcp_request_state_parse field))
                end
            end
      end
  end.

(** The identifier of the method is not assigned here: it keeps the value the
    storage of the message had. *)
Definition mrcp_start_line_init (sl : mrcp_start_line_t) : mrcp_start_line_t :=
  mk_start_line MRCP_MESSAGE_TYPE_UNKNOWN MRCP_VERSION_UNKNOWN 0 0 apt_string_reset
    (method_id sl) MRCP_STATUS_CODE_UNKNOWN MRCP_REQUEST_STATE_UNKNOWN.

Definition mrcp_start_line_parse (sl : mrcp_start_line_t) (str : apt_str_t)
    : bool * mrcp_start_line_t :=
  let sl := set_message_type sl MRCP_MESSAGE_TYPE_UNKNOWN in
  match read_field (stream_of_str str) with
  | (false, _, _) => (false, sl)
  | (true, line, field) =>
      if strstr_at_start (default [] (buf field)) MRCP_NAME then
        let sl := set_version sl (mrcp_version_parse field) in
        match version sl with
        | MRCP_VERSION_1 =>
            mrcp_response_line_parse (set_message_type sl MRCP_MESSAGE_TYPE_RESPONSE) line
        | MRCP_VERSION_2 => mrcp_v2_start_line_parse sl line
        | MRCP_VERSION_UNKNOWN => (false, sl)
        end
      else mrcp_request_line_parse (set_method_name sl (apt_string_copy field)) line
  end.

(** ** Generation *)

Section Generate.
  Context `{AprFormat}.

Definition mrcp_version_generate (v : mrcp_version_e) (st : apt_text_stream_t)
    : res (bool * apt_text_stream_t) :=
  if decide (end_ st ≤ pos st + length MRCP_NAME + 1) then Ok (false, st)
  else
    st ← put_all st MRCP_NAME;
    st ← put st "/"%char;
    '(ok, st) ← apt_text_size_value_insert st (version_num v);
    if negb ok then Ok (false, st)
    else if decide (end_ st ≤ pos st + 2) then Ok (false, st)
    else st ← put st "."%char; st ← put st "0"%char; Ok (true, st).

Definition mrcp_request_state_generate (s : mrcp_request_state_e) (st : apt_text_stream_t)
    : res apt_text_stream_t :=
  if decide (request_state_num s < MRCP_REQUEST_STATE_COUNT) then
    name ← deref (apt_string_table_str_get mrcp_request_state_string_table
                    MRCP_REQUEST_STATE_COUNT (request_state_num s));
    put_all st (chars name)
  else Ok st.

Definition mrcp_status_code_generate (code : Z) (st : apt_text_stream_t) :=
  apt_text_size_value_insert st code.

(** The ["%d"] conversion reads the unsigned identifier as an int. *)
Definition mrcp_request_id_generate (id : Z) (st : apt_text_stream_t)
    : res (bool * apt_text_stream_t) :=
  snprintf_insert st (apr_snprintf_d (room st) (i32 id)).

Definition mrcp_request_line_generate (sl : mrcp_start_line_t) (st : apt_text_stream_t)
    : res apt_text_stream_t :=
  st ← put_all st (chars (method_name sl));
  st ← put st APT_TOKEN_SP;
  '(_, st) ← mrcp_request_id_generate (request_id sl) st;
  st ← put st APT_TOKEN_SP;
  st ← (match message_type sl with
        | MRCP_MESSAGE_TYPE_REQUEST =>
            if decide (status_code sl ≠ MRCP_STATUS_CODE_UNKNOWN) then
              '(_, st) ← mrcp_status_code_generate (status_code sl) st;
              put st APT_TOKEN_SP
            else Ok st
        | MRCP_MESSAGE_TYPE_EVENT =>
            st ← mrcp_request_state_generate (request_state sl) st;
            put st APT_TOKEN_SP
        | _ => Ok st
        end);
  '(_, st) ← mrcp_version_generate (version sl) st;
  Ok st.

Definition mrcp_response_line_generate (sl : mrcp_start_line_t) (st : apt_text_stream_t)
    : res apt_text_stream_t :=
  '(_, st) ← mrcp_version_generate (version sl) st;
  st ← put st APT_TOKEN_SP;
  '(_, st) ← mrcp_request_id_generate (request_id sl) st;
  st ← put st APT_TOKEN_SP;
  '(_, st) ← mrcp_status_code_generate (status_code sl) st;
  st ← put st APT_TOKEN_SP;
  mrcp_request_state_generate (request_state sl) st.

(** The part of an MRCPv2 start-line that follows the message length. *)
Definition v2_tail_generate (sl : mrcp_start_line_t) (st : apt_text_stream_t)
    : res apt_text_stream_t :=
  if decide (message_type sl = MRCP_MESSAGE_TYPE_RESPONSE) then
    '(_, st) ← mrcp_request_id_generate (request_id sl) st;
    st ← put st APT_TOKEN_SP;
    '(_, st) ← mrcp_status_code_generate (status_code sl) st;
    st ← put st APT_TOKEN_SP;
    mrcp_request_state_generate (request_state sl) st
  else
    st ← put_all st (chars (method_name sl));
    st ← put st APT_TOKEN_SP;
    '(_, st) ← mrcp_request_id_generate (request_id sl) st;
    if decide (message_type sl = MRCP_MESSAGE_TYPE_EVENT) then
      st ← put st APT_TOKEN_SP;
      mrcp_request_state_generate (request_state sl) st
    else Ok st.

(** [length_] temporarily holds the offset of the message length. *)
Definition mrcp_v2_start_line_generate (sl : mrcp_start_line_t) (st : apt_text_stream_t)
    : res (mrcp_start_line_t * apt_text_stream_t) :=
  let p := pos st in
  '(_, st) ← mrcp_version_generate (version sl) st;
  st ← put st APT_TOKEN_SP;
  let sl := set_length sl (Z.of_nat (pos st - p)) in
  st ← put_all st (replicate (MAX_DIGIT_COUNT + 1) APT_TOKEN_SP);
  st ← v2_tail_generate sl st;
  Ok (sl, st).

Definition mrcp_start_line_generate (sl : mrcp_start_line_t) (st : apt_text_stream_t)
    : res (bool * mrcp_start_line_t * apt_text_stream_t) :=
  let eol sl st := '(ok, st) ← apt_text_eol_insert st; Ok (ok, sl, st) in
  match version sl with
  | MRCP_VERSION_1 =>
      match message_type sl with
      | MRCP_MESSAGE_TYPE_REQUEST | MRCP_MESSAGE_TYPE_EVENT =>
          st ← mrcp_request_line_generate sl st; eol sl st
      | MRCP_MESSAGE_TYPE_RESPONSE => st ← mrcp_response_line_generate sl st; eol sl st
      | MRCP_MESSAGE_TYPE_UNKNOWN => Ok (false, sl, st)
      end
  | MRCP_VERSION_2 => '(sl, st) ← mrcp_v2_start_line_generate sl st; eol sl st
  | MRCP_VERSION_UNKNOWN => Ok (false, sl, st)
  end.

(** Store at an offset, the cursor unchanged. *)
Definition store_at (st : apt_text_stream_t) (off : nat) (s : cstr) : res apt_text_stream_t :=
  st' ← store_all (with_pos st off) s; Ok (with_pos st' (pos st)).

(** Advance [text.buf] and shrink [text.length]. *)
Definition text_advance (st : apt_text_stream_t) (k : nat) : apt_text_stream_t :=
  mk_stream (mem st) (text_buf st + k) (text_len st - k) (pos st) (end_ st) (is_eos st).

Definition mrcp_start_line_finalize (sl : mrcp_start_line_t) (content_length : Z)
    (st : apt_text_stream_t) : res (bool * mrcp_start_line_t * apt_text_stream_t) :=
  let length := usz (Z.of_nat (pos st) - Z.of_nat (text_buf st) + content_length) in
  if decide (version sl = MRCP_VERSION_2) then
    let field := text_buf st + Z.to_nat (length_ sl) in
    let length := usz (length - Z.of_nat MAX_DIGIT_COUNT) in
    let '(ok, length, digits) :=
      apt_var_length_value_generate length (Z.of_nat MAX_DIGIT_COUNT) in
    if negb ok then Ok (false, sl, st)
    else
      let n := List.length digits in
      st ← store_at st field (digits ++ [NUL]);
      st ← store_at st (field + n) [APT_TOKEN_SP];
      let moved := Z.to_nat (length_ sl) + n in
      let k := MAX_DIGIT_COUNT - n in
      st ← (if decide (k = 0) then Ok st
            else
              st ← store_at st (text_buf st + k)
                     (take moved (drop (text_buf st) (mem st)));
              Ok (text_advance st k));
      Ok (true, set_length sl length, st)
  else Ok (true, set_length sl length, st).

End Generate.
