(* ===== verification/StartLineTheory.v ===== *)
(** * StartLineTheory: the generators of [StartLine] emit the lines of the
    protocol, the parser reads them back, and the message length of an MRCPv2
    start-line is the size of the message. *)
From S2P Require Import Prelude CString StringTable TextStream TextStreamTheory TextValues StartLine.

(** ** Emitting text

    [emitted st st' s]: [st'] is [st] after [s] was appended at the cursor.
    What lies beyond the cursor may have changed: [apr_snprintf] leaves a NUL
    there. *)
Definition emitted (st st' : apt_text_stream_t) (s : cstr) : Prop :=
  text_buf st' = text_buf st ∧ text_len st' = text_len st ∧ end_ st' = end_ st ∧
  length (mem st') = length (mem st) ∧ pos st' = pos st + length s ∧
  pos st' ≤ length (mem st) ∧
  take (pos st') (mem st') = take (pos st) (mem st) ++ s.

(** Room for [n] more characters and one to spare. *)
Definition fits (st : apt_text_stream_t) (n : nat) : Prop :=
  pos st + n < end_ st ∧ end_ st ≤ length (mem st) ∧ (Z.of_nat (end_ st) < 2 ^ 64)%Z.

Lemma emitted_nil (st : apt_text_stream_t) : pos st ≤ length (mem st) → emitted st st [].
Proof. intros. unfold emitted. simpl. rewrite app_nil_r. split_and!; try done; lia. Qed.

Lemma emitted_app (st st1 st2 : apt_text_stream_t) (s t : cstr) :
  emitted st st1 s → emitted st1 st2 t → emitted st st2 (s ++ t).
Proof.
  intros (?&?&?&?&Hp1&?&Ht1) (?&?&?&?&Hp2&?&Ht2). unfold emitted.
  rewrite length_app, app_assoc, <- Ht1. split_and!; (congruence || lia || done).
Qed.

Lemma emitted_fits (st st' : apt_text_stream_t) (s : cstr) (n : nat) :
  emitted st st' s → fits st (length s + n) → fits st' n.
Proof. intros (?&?&He&?&?&?&_) (?&?&?). unfold fits. rewrite He. split_and!; lia. Qed.

Lemma wrote_emitted (st st' : apt_text_stream_t) (s : cstr) :
  wrote st st' s → emitted st st' s.
Proof.
  intros W. pose proof (wrote_length _ _ _ W). destruct W as [Hl ->].
  unfold emitted. simpl in *. split_and!; try done.
  rewrite app_assoc. apply take_app_length'. rewrite length_app, length_take. lia.
Qed.

(** Writers that emit a given text whenever it fits. *)
Definition emits (f : apt_text_stream_t → res apt_text_stream_t) (s : cstr) : Prop :=
  ∀ st, fits st (length s) → ∃ st', f st = Ok st' ∧ emitted st st' s.
Definition emits_ok (f : apt_text_stream_t → res (bool * apt_text_stream_t)) (s : cstr) : Prop :=
  ∀ st, fits st (length s) → ∃ st', f st = Ok (true, st') ∧ emitted st st' s.

Lemma emits_ret : emits Ok [].
Proof. intros st (?&?&?). exists st. split; [done|]. apply emitted_nil. lia. Qed.

Lemma fits_le (st : apt_text_stream_t) (n m : nat) : fits st n → m ≤ n → fits st m.
Proof. intros (?&?&?) ?. unfold fits. split_and!; lia. Qed.

Lemma emits_bind f g s t :
  emits f s → emits g t → emits (λ st, f st ≫= g) (s ++ t).
Proof.
  intros Hf Hg st Hfit. rewrite length_app in Hfit.
  destruct (Hf st) as (st1 & E1 & H1); [eapply fits_le; [done|lia]|].
  destruct (Hg st1) as (st2 & E2 & H2); [by eapply emitted_fits|].
  exists st2. rewrite E1. split; [done|]. by eapply emitted_app.
Qed.

Lemma emits_bind_ok f g s t :
  emits_ok f s → emits g t → emits (λ st, f st ≫= λ '(_, st), g st) (s ++ t).
Proof.
  intros Hf Hg st Hfit. rewrite length_app in Hfit.
  destruct (Hf st) as (st1 & E1 & H1); [eapply fits_le; [done|lia]|].
  destruct (Hg st1) as (st2 & E2 & H2); [by eapply emitted_fits|].
  exists st2. rewrite E1. split; [done|]. by eapply emitted_app.
Qed.

(** A writer without result before one with a result. *)
Lemma emits_bind_then f g s t :
  emits f s → emits_ok g t → emits_ok (λ st, f st ≫= g) (s ++ t).
Proof.
  intros Hf Hg st Hfit. rewrite length_app in Hfit.
  destruct (Hf st) as (st1 & E1 & H1); [eapply fits_le; [done|lia]|].
  destruct (Hg st1) as (st2 & E2 & H2); [by eapply emitted_fits|].
  exists st2. rewrite E1. split; [done|]. by eapply emitted_app.
Qed.

Create HintDb emits.

Lemma emits_put_all (s : cstr) : emits (λ st, put_all st s) s.
Proof.
  intros st (?&?&?). destruct (put_all_wrote st s) as (st' & E & W); [lia|].
  exists st'. split; [done|]. by apply wrote_emitted.
Qed.

Lemma emits_put (c : char) : emits (λ st, put st c) [c].
Proof. apply emits_put_all. Qed.

Section Generators.
  Context `{AprFormat}.

(** What [apr_snprintf] stores is emitted when it fits the room left. *)
Lemma snprintf_emits (out : Z → cstr * Z) (s : cstr) :
  s ≠ [] →
  (∀ n, (Z.of_nat (length s) < n)%Z → out n = (s, Z.of_nat (length s))) →
  emits_ok (λ st, snprintf_insert st (out (room st))) s.
Proof.
  intros Hne Hout st (?&?&?). unfold snprintf_insert.
  assert (Hr : room st = (Z.of_nat (end_ st) - Z.of_nat (pos st))%Z).
  { unfold room. apply wrap_u_small. lia. }
  assert (0 < length s) by (destruct s; [done|simpl; lia]).
  rewrite Hout, decide_False by lia. cbn [fst snd].
  unfold store_all. rewrite length_app. simpl length.
  rewrite decide_True by lia. simpl. rewrite decide_False by lia.
  eexists. split; [done|]. unfold emitted. simpl. rewrite Nat2Z.id.
  split_and!; try done; [|lia|].
  - rewrite !length_app, length_take, length_drop. simpl. lia.
  - rewrite <- app_assoc, app_assoc. apply take_app_length'.
    rewrite length_app, length_take. lia.
Qed.

Lemma emits_size_value (v : Z) :
  (0 ≤ v)%Z → emits_ok (λ st, apt_text_size_value_insert st v) (dec_u v).
Proof.
  intros Hv. apply (snprintf_emits (λ n, apr_snprintf_u n v)); [apply dec_u_nonempty|].
  intros n Hn. by apply apr_snprintf_u_fits.
Qed.

(** The text of a request identifier. *)
Definition id_text (id : Z) : cstr := dec_s (i32 id).

Lemma emits_request_id (id : Z) : emits_ok (mrcp_request_id_generate id) (id_text id).
Proof.
  apply (snprintf_emits (λ n, apr_snprintf_d n (i32 id))).
  - unfold id_text, dec_s. destruct (_ <? _)%Z; [done|apply dec_u_nonempty].
  - intros n Hn. by apply apr_snprintf_d_fits.
Qed.

Definition state_text (s : mrcp_request_state_e) : cstr :=
  match s with
  | MRCP_REQUEST_STATE_COMPLETE => lit "COMPLETE"
  | MRCP_REQUEST_STATE_INPROGRESS => lit "IN-PROGRESS"
  | MRCP_REQUEST_STATE_PENDING => lit "PENDING"
  | MRCP_REQUEST_STATE_UNKNOWN => []
  end.

Lemma emits_request_state (s : mrcp_request_state_e) :
  emits (mrcp_request_state_generate s) (state_text s).
Proof. destruct s; (apply emits_ret || apply emits_put_all). Qed.

Definition version_text (v : mrcp_version_e) : cstr :=
  match v with
  | MRCP_VERSION_UNKNOWN => lit "MRCP/0.0"
  | MRCP_VERSION_1 => lit "MRCP/1.0"
  | MRCP_VERSION_2 => lit "MRCP/2.0"
  end.

Lemma emits_version (v : mrcp_version_e) : emits_ok (mrcp_version_generate v) (version_text v).
Proof.
  intros st Hfit. unfold mrcp_version_generate.
  assert (Hl : length (version_text v) = 8) by (by destruct v).
  rewrite Hl in Hfit. rewrite decide_False by (destruct Hfit; simpl; lia).
  destruct (emits_put_all MRCP_NAME st) as (st1 & -> & E1); [eapply fits_le; [done|simpl; lia]|].
  cbn [mbind res_bind]. pose proof (emitted_fits _ _ _ 4 E1 Hfit) as Hfit1.
  destruct (emits_put "/"%char st1) as (st2 & -> & E2); [eapply fits_le; [done|simpl; lia]|].
  cbn [mbind res_bind]. pose proof (emitted_fits _ _ _ 3 E2 Hfit1) as Hfit2.
  assert (Hd : dec_u (version_num v) = [digit (version_num v)]) by (by destruct v).
  destruct (emits_size_value (version_num v) ltac:(destruct v; done) st2) as (st3 & -> & E3);
    [rewrite Hd; eapply fits_le; [done|simpl; lia]|].
  rewrite Hd in E3. cbn [mbind res_bind negb].
  pose proof (emitted_fits _ _ _ 2 E3 Hfit2) as Hfit3.
  rewrite decide_False by (destruct Hfit3; lia).
  destruct (emits_put "."%char st3) as (st4 & -> & E4); [eapply fits_le; [done|simpl; lia]|].
  cbn [mbind res_bind]. pose proof (emitted_fits _ _ _ 1 E4 Hfit3) as Hfit4.
  destruct (emits_put "0"%char st4) as (st5 & -> & E5); [done|].
  exists st5. split; [done|].
  pose proof (emitted_app _ _ _ _ _ E1 (emitted_app _ _ _ _ _ E2
    (emitted_app _ _ _ _ _ E3 (emitted_app _ _ _ _ _ E4 E5)))) as E.
  by destruct v.
Qed.

Lemma emits_status_code (v : Z) :
  (0 ≤ v)%Z → emits_ok (mrcp_status_code_generate v) (dec_u v).
Proof. apply emits_size_value. Qed.

Lemma emits_eol : emits_ok apt_text_eol_insert [APT_TOKEN_CR; APT_TOKEN_LF].
Proof.
  intros st (?&?&?). unfold apt_text_eol_insert. simpl in *. rewrite decide_True by lia.
  destruct (emits_bind _ _ _ _ (emits_put APT_TOKEN_CR) (emits_put APT_TOKEN_LF) st)
    as (st' & E & Hem); [unfold fits; simpl; lia|].
  exists st'. split; [|done]. apply res_bind_ok in E as (st1 & -> & E2).
  cbn [mbind res_bind]. by rewrite E2.
Qed.

End Generators.

#[export] Hint Resolve emits_ret emits_put_all emits_put emits_request_id
  emits_request_state emits_version emits_status_code emits_eol : emits.

(** ** The lines of the protocol *)

Fixpoint joined (fs : list cstr) : cstr :=
  match fs with
  | [] => []
  | [f] => f
  | f :: fs => f ++ APT_TOKEN_SP :: joined fs
  end.

(** The fields of a start-line that follow the message length (v2). *)
Definition v2_fields (sl : mrcp_start_line_t) : list cstr :=
  match message_type sl with
  | MRCP_MESSAGE_TYPE_RESPONSE =>
      [id_text (request_id sl); dec_u (status_code sl); state_text (request_state sl)]
  | MRCP_MESSAGE_TYPE_EVENT =>
      [chars (method_name sl); id_text (request_id sl); state_text (request_state sl)]
  | _ => [chars (method_name sl); id_text (request_id sl)]
  end.

Definition v1_fields (sl : mrcp_start_line_t) : list cstr :=
  match message_type sl with
  | MRCP_MESSAGE_TYPE_RESPONSE =>
      [version_text (version sl); id_text (request_id sl); dec_u (status_code sl);
       state_text (request_state sl)]
  | MRCP_MESSAGE_TYPE_EVENT =>
      [chars (method_name sl); id_text (request_id sl); state_text (request_state sl);
       version_text (version sl)]
  | _ => [chars (method_name sl); id_text (request_id sl); version_text (version sl)]
  end.

(** Method names: tokens that cannot be taken for a number. *)
Definition method_ok (m : cstr) : Prop :=
  m ≠ [] ∧ APT_TOKEN_SP ∉ m ∧ NUL ∉ m ∧ no_eol m ∧
  isdigit (hd_char m) = false ∧ isspace (hd_char m) = false ∧
  hd_char m ≠ "-"%char ∧ hd_char m ≠ "+"%char ∧ strstr_at_start m MRCP_NAME = false.

(** Start-lines the generator is called with. *)
Record line_ok (sl : mrcp_start_line_t) : Prop := {
  ok_type : message_type sl ≠ MRCP_MESSAGE_TYPE_UNKNOWN;
  ok_id : (0 ≤ request_id sl < 2 ^ 32)%Z;
  ok_status : (0 ≤ status_code sl < 2 ^ 32)%Z;
  ok_request : message_type sl = MRCP_MESSAGE_TYPE_REQUEST →
    status_code sl = MRCP_STATUS_CODE_UNKNOWN;
  ok_method : message_type sl ≠ MRCP_MESSAGE_TYPE_RESPONSE → method_ok (chars (method_name sl));
  ok_state : message_type sl ≠ MRCP_MESSAGE_TYPE_REQUEST →
    request_state sl ≠ MRCP_REQUEST_STATE_UNKNOWN
}.

Section LineGenerators.
  Context `{AprFormat}.

Lemma emits_ext f s t : emits f s → s = t → emits f t.
Proof. by intros ? <-. Qed.

Lemma emits_request_line (sl : mrcp_start_line_t) :
  line_ok sl → message_type sl ≠ MRCP_MESSAGE_TYPE_RESPONSE →
  emits (mrcp_request_line_generate sl) (joined (v1_fields sl)).
Proof.
  intros Hok Ht. unfold mrcp_request_line_generate. eapply emits_ext.
  { eapply emits_bind; [eapply emits_put_all|].
    eapply emits_bind; [apply emits_put|].
    eapply emits_bind_ok; [apply emits_request_id|].
    eapply emits_bind; [apply emits_put|].
    eapply (emits_bind _ _
      (match message_type sl with
         | MRCP_MESSAGE_TYPE_EVENT => state_text (request_state sl) ++ [APT_TOKEN_SP]
         | _ => [] end)).
    - destruct (message_type sl) eqn:Hm; try apply emits_ret.
      + destruct (decide (status_code sl ≠ MRCP_STATUS_CODE_UNKNOWN)) as [Hs|]; [|apply emits_ret].
        by pose proof (ok_request sl Hok Hm).
      + eapply emits_bind; [apply emits_request_state|apply emits_put].
    - eapply emits_bind_ok; [apply emits_version|apply emits_ret]. }
  unfold v1_fields. destruct (message_type sl) eqn:Hm; try done; simpl;
    rewrite ?app_nil_r, <- ?app_assoc; done.
Qed.

Lemma emits_response_line (sl : mrcp_start_line_t) :
  line_ok sl → message_type sl = MRCP_MESSAGE_TYPE_RESPONSE →
  emits (mrcp_response_line_generate sl) (joined (v1_fields sl)).
Proof.
  intros Hok Ht. unfold mrcp_response_line_generate. eapply emits_ext.
  { eapply emits_bind_ok; [apply emits_version|].
    eapply emits_bind; [apply emits_put|].
    eapply emits_bind_ok; [apply emits_request_id|].
    eapply emits_bind; [apply emits_put|].
    eapply emits_bind_ok; [apply emits_status_code, (ok_status sl Hok)|].
    eapply emits_bind; [apply emits_put|apply emits_request_state]. }
  unfold v1_fields. rewrite Ht. done.
Qed.

(** The version and the space before the message length: 9 characters. *)
Definition v2_prefix : cstr := version_text MRCP_VERSION_2 ++ [APT_TOKEN_SP].
Definition v2_reserved : cstr := replicate (MAX_DIGIT_COUNT + 1) APT_TOKEN_SP.

Lemma emits_v2_tail (sl : mrcp_start_line_t) :
  line_ok sl → emits (v2_tail_generate sl) (joined (v2_fields sl)).
Proof.
  intros Hok. unfold v2_tail_generate, v2_fields.
  destruct (decide (message_type sl = MRCP_MESSAGE_TYPE_RESPONSE)) as [->|Hr]; cbn [joined].
  - eapply emits_bind_ok; [apply emits_request_id|].
    eapply (emits_bind _ _ [_]); [apply emits_put|].
    eapply emits_bind_ok; [apply emits_status_code, (ok_status sl Hok)|].
    eapply (emits_bind _ _ [_]); [apply emits_put|apply emits_request_state].
  - eapply emits_ext.
    { eapply emits_bind; [apply emits_put_all|]. eapply emits_bind; [apply emits_put|].
      eapply (emits_bind_ok _ _ _ (if decide (message_type sl = MRCP_MESSAGE_TYPE_EVENT) then
        [APT_TOKEN_SP] ++ state_text (request_state sl) else [])); [apply emits_request_id|].
      case_decide; [|apply emits_ret].
      eapply emits_bind; [apply emits_put|apply emits_request_state]. }
    destruct (message_type sl); try done; simpl; by rewrite app_nil_r.
Qed.

Lemma v2_generate_spec (sl : mrcp_start_line_t) (st : apt_text_stream_t) :
  line_ok sl → version sl = MRCP_VERSION_2 →
  fits st (length (v2_prefix ++ v2_reserved ++ joined (v2_fields sl))) →
  ∃ st', mrcp_v2_start_line_generate sl st = Ok (set_length sl 9, st') ∧
    emitted st st' (v2_prefix ++ v2_reserved ++ joined (v2_fields sl)).
Proof.
  intros Hok Hv Hfit. unfold mrcp_v2_start_line_generate.
  rewrite length_app in Hfit.
  destruct (emits_bind_ok _ _ _ _ (emits_version (version sl)) (emits_put APT_TOKEN_SP) st)
    as (st1 & E1 & H1); [rewrite Hv; by eapply fits_le; [done|simpl; lia]|].
  rewrite Hv in *. fold v2_prefix in H1.
  apply res_bind_ok in E1 as ([ok st0] & -> & E1). cbn [mbind res_bind]. rewrite E1.
  cbn [mbind res_bind]. pose proof (emitted_fits _ _ _ _ H1 Hfit) as Hfit1.
  replace (pos st1 - pos st) with 9 by (destruct H1 as (?&?&?&?&->&_); simpl; lia).
  destruct (emits_bind _ _ _ _ (emits_put_all v2_reserved) (emits_v2_tail sl Hok) st1 Hfit1)
    as (st2 & E2 & H2).
  exists st2. split; [|by eapply emitted_app].
  apply res_bind_ok in E2 as (st1' & E2 & E3). fold v2_reserved. rewrite E2.
  cbn [mbind res_bind]. change (v2_tail_generate (set_length sl _)) with (v2_tail_generate sl).
  by rewrite E3.
Qed.

End LineGenerators.

(** ** Reading the fields of a line *)

Definition field_ok (f : cstr) : Prop := f ≠ [] ∧ APT_TOKEN_SP ∉ f ∧ NUL ∉ f.

(** The unread part of the line is the fields [fs], and no digit follows it. *)
Definition at_fields (st : apt_text_stream_t) (fs : list cstr) : Prop :=
  stream_wf st ∧ window st = joined fs ∧
  isdigit (hd_char (drop (end_ st) (mem st))) = false ∧ Forall field_ok fs.

(** A string that points at the field [f] of a line in which [fs] follow. *)
Definition field_is (field : apt_str_t) (f : cstr) (fs : list cstr) : Prop :=
  chars field = f ∧ len field = length f ∧
  ∃ rest, buf field = Some (f ++ rest) ∧ isdigit (hd_char rest) = false ∧
    (fs ≠ [] → hd_char rest = APT_TOKEN_SP).

Lemma drop_pos_window (st : apt_text_stream_t) :
  stream_wf st → drop (pos st) (mem st) = window st ++ drop (end_ st) (mem st).
Proof.
  intros [??]. unfold window.
  rewrite <- (take_drop (end_ st - pos st) (drop (pos st) (mem st))) at 1.
  rewrite drop_drop. do 2 f_equal. lia.
Qed.

Lemma head_field_not_sp (f : cstr) : field_ok f → head f ≠ Some APT_TOKEN_SP.
Proof.
  intros (Hne & Hsp & _). destruct f as [|c f]; [done|].
  apply not_elem_of_cons in Hsp as [? _]. naive_solver.
Qed.

Lemma read_field_cons (st : apt_text_stream_t) (f : cstr) (fs : list cstr) :
  at_fields st (f :: fs) →
  ∃ st' field, read_field st = (true, st', field) ∧ at_fields st' fs ∧ field_is field f fs.
Proof.
  intros (Hwf & Hw & Hd & Hok). inversion Hok as [|?? Hf Hfs]; subst.
  pose proof Hf as (Hne & Hsp & _). pose proof (head_field_not_sp f Hf) as Hhd.
  pose proof (drop_pos_window st Hwf) as Hdrop. rewrite Hw in Hdrop.
  pose proof (window_length st Hwf) as Hl. rewrite Hw in Hl. unfold read_field.
  destruct fs as [|g fs]; cbn [joined] in *.
  - destruct (field_read_last st APT_TOKEN_SP f Hwf Hw Hsp Hhd) as (field & -> & Hc & Hlen & Hb).
    rewrite bool_decide_eq_true_2 by done. eexists _, field. split; [done|]. split.
    + split_and!; [destruct Hwf; split; simpl; lia| |done|done].
      rewrite window_with_pos, Hw. by apply drop_ge.
    + split_and!; [done..|]. eexists. unfold ptr in Hb. rewrite Hb, Hdrop. by split_and!.
  - destruct (field_read_exact st APT_TOKEN_SP f _ Hwf Hw Hsp Hhd) as (field & -> & Hc & Hlen & Hb);
      [done|]. rewrite length_app in Hl. cbn [length] in Hl.
    rewrite bool_decide_eq_true_2 by done. eexists _, field. split; [done|]. split.
    + split_and!; [destruct Hwf; split; simpl; lia| |done|done].
      by rewrite window_with_pos, Hw, <- drop_drop, drop_app_length.
    + split_and!; [done..|]. eexists. unfold ptr in Hb. rewrite Hb, Hdrop, <- app_assoc. by split_and!.
Qed.

Lemma read_field_nil (st : apt_text_stream_t) :
  at_fields st [] → ∃ st' field, read_field st = (false, st', field).
Proof.
  intros (Hwf & Hw & _). unfold read_field.
  destruct (field_read_last st APT_TOKEN_SP [] Hwf Hw) as (field & -> & _);
    [apply not_elem_of_nil|done|]. by eexists _, _.
Qed.

(** A line as [apt_text_line_read] delivers it. *)
Definition line_is (str : apt_str_t) (fs : list cstr) : Prop :=
  len str ≤ length (default [] (buf str)) ∧ chars str = joined fs ∧
  isdigit (hd_char (drop (len str) (default [] (buf str)))) = false ∧ Forall field_ok fs.

Lemma line_is_fields (str : apt_str_t) (fs : list cstr) :
  line_is str fs → at_fields (stream_of_str str) fs.
Proof.
  intros (Hl & Hc & Hd & Hok). split_and!; [by apply stream_of_str_wf| |done|done].
  by rewrite window_stream_of_str.
Qed.

(** *** The value of each field *)

Lemma id_parse_text (field : apt_str_t) (id : Z) (fs : list cstr) :
  (0 ≤ id < 2 ^ 32)%Z → field_is field (id_text id) fs → mrcp_request_id_parse field = id.
Proof.
  intros Hid (_ & _ & rest & Hb & Hr & _). unfold mrcp_request_id_parse. rewrite Hb.
  unfold id_text. rewrite atol_dec_s; [|unfold wrap_s, LONG_MIN, LONG_MAX|done].
  - rewrite wrap_u_wrap_s by lia. by apply wrap_u_small.
  - pose proof (Z.mod_pos_bound (id + 2 ^ (32 - 1)) (2 ^ 32)). lia.
Qed.

Lemma size_parse_text (field : apt_str_t) (v : Z) (fs : list cstr) :
  (0 ≤ v < 2 ^ 63)%Z → field_is field (dec_u v) fs → apt_size_value_parse field = v.
Proof.
  intros Hv (_ & _ & rest & Hb & Hr & _). unfold apt_size_value_parse. rewrite Hb.
  rewrite atol_dec_u by (unfold LONG_MAX; done || lia). apply wrap_u_small. lia.
Qed.

Lemma status_parse_text (field : apt_str_t) (v : Z) (fs : list cstr) :
  (0 ≤ v < 2 ^ 32)%Z → field_is field (dec_u v) fs → mrcp_status_code_parse field = v.
Proof.
  intros Hv Hf. unfold mrcp_status_code_parse. rewrite (size_parse_text field v fs) by (done || lia).
  by apply wrap_u_small.
Qed.

Lemma field_is_wf (field : apt_str_t) (f : cstr) (fs : list cstr) :
  field_ok f → field_is field f fs → str_wf field.
Proof.
  intros (_ & _ & Hn) (Hc & Hl & rest & Hb & _). split; [|by rewrite Hc].
  rewrite Hb, Hl. simpl. rewrite length_app. lia.
Qed.

Lemma state_table_wf : table_wf mrcp_request_state_string_table.
Proof. repeat constructor; try (vm_compute; lia); by apply (bool_decide_unpack _). Qed.

Lemma state_parse_list_find (field : apt_str_t) (f : cstr) (fs : list cstr) :
  field_ok f → field_is field f fs →
  mrcp_request_state_parse field = request_state_of_num
    (default 3 (fst <$> list_find (name_matches (str_of f)) mrcp_request_state_string_table)).
Proof.
  intros Hok Hf. pose proof (field_is_wf _ _ _ Hok Hf) as Hwf. destruct Hf as (Hc & _).
  unfold mrcp_request_state_parse, apt_string_table_id_find.
  change (take _ mrcp_request_state_string_table) with mrcp_request_state_string_table.
  rewrite id_find_loop_spec by (done || apply state_table_wf).
  rewrite (list_find_ext _ (name_matches (str_of f))).
  - by destruct (list_find _ _) as [[i it]|].
  - intros it. unfold name_matches. by rewrite Hc, chars_str_of.
Qed.

Lemma state_parse_text (field : apt_str_t) (s : mrcp_request_state_e) (fs : list cstr) :
  s ≠ MRCP_REQUEST_STATE_UNKNOWN → field_ok (state_text s) →
  field_is field (state_text s) fs → mrcp_request_state_parse field = s.
Proof.
  intros Hs Hok Hf. rewrite (state_parse_list_find _ _ _ Hok Hf). by destruct s.
Qed.

Lemma state_parse_version (field : apt_str_t) (v : mrcp_version_e) (fs : list cstr) :
  field_ok (version_text v) → field_is field (version_text v) fs →
  mrcp_request_state_parse field = MRCP_REQUEST_STATE_UNKNOWN.
Proof.
  intros Hok Hf. rewrite (state_parse_list_find _ _ _ Hok Hf). by destruct v.
Qed.

Lemma version_parse_text (field : apt_str_t) (v : mrcp_version_e) (fs : list cstr) :
  field_is field (version_text v) fs → mrcp_version_parse field = v.
Proof.
  intros (_ & Hl & rest & Hb & _). unfold mrcp_version_parse. rewrite Hb, Hl. by destruct v.
Qed.

Lemma version_prefix (field : apt_str_t) (v : mrcp_version_e) (fs : list cstr) :
  field_is field (version_text v) fs →
  strstr_at_start (default [] (buf field)) MRCP_NAME = true.
Proof. intros (_ & _ & rest & -> & _). by destruct v. Qed.

Lemma method_prefix (field : apt_str_t) (m f : cstr) (fs : list cstr) :
  method_ok m → field_is field m (f :: fs) →
  strstr_at_start (default [] (buf field)) MRCP_NAME = false.
Proof.
  intros (_ & Hsp & _ & _ & _ & _ & _ & _ & Hm) (_ & _ & rest & Hb & _ & Hr). rewrite Hb. simpl.
  unfold strstr_at_start in *. apply bool_decide_eq_false in Hm. apply bool_decide_eq_false.
  intros He. destruct (decide (4 ≤ length m)) as [Hl|Hl].
  - apply Hm. by rewrite take_app_le in He by (simpl; lia).
  - assert (APT_TOKEN_SP ∈ MRCP_NAME) as Hin; [|revert Hin; not_elem].
    rewrite take_app_ge in He by (simpl; lia). rewrite <- He. apply elem_of_app. right.
    specialize (Hr ltac:(done)). destruct rest as [|c rest]; simpl in Hr; [done|]. subst c.
    replace (length MRCP_NAME - length m) with (S (3 - length m)) by (simpl; lia). left.
Qed.

Lemma method_not_id (field : apt_str_t) (m : cstr) (fs : list cstr) :
  method_ok m → field_is field m fs →
  mrcp_request_id_parse field = 0%Z ∧ hd_char (default [] (buf field)) ≠ "0"%char.
Proof.
  intros (Hne & _ & _ & _ & Hd & Hs & Hm & Hp & _) (_ & _ & rest & Hb & _).
  unfold mrcp_request_id_parse. rewrite Hb. destruct m as [|c m]; [done|]. simpl in *. split.
  - unfold atol. simpl. rewrite Hs. simpl. rewrite !decide_False by done. simpl. by rewrite Hd.
  - by intros ->.
Qed.

(** *** The fields of a well-formed start-line are fields *)

Lemma dec_u_not_elem (z : Z) (c : char) : (0 ≤ z)%Z → isdigit c = false → c ∉ dec_u z.
Proof.
  intros Hz Hc Hin. pose proof (dec_u_digits z Hz) as Hd. rewrite Forall_forall in Hd.
  by rewrite Hd in Hc.
Qed.

Lemma id_text_not_elem (id : Z) (c : char) :
  isdigit c = false → c ≠ "-"%char → c ∉ id_text id.
Proof.
  intros Hc Hm. unfold id_text, dec_s. destruct (Z.ltb_spec (i32 id) 0).
  - apply not_elem_of_cons. split; [done|]. apply dec_u_not_elem; [lia|done].
  - apply dec_u_not_elem; [lia|done].
Qed.

Lemma id_text_ok (id : Z) : field_ok (id_text id).
Proof.
  split_and!; [|by apply id_text_not_elem..].
  unfold id_text, dec_s. destruct (_ <? _)%Z; [done|apply dec_u_nonempty].
Qed.

Lemma dec_u_ok (v : Z) : (0 ≤ v)%Z → field_ok (dec_u v).
Proof. intros. split_and!; [apply dec_u_nonempty|by apply dec_u_not_elem..]. Qed.

Lemma state_text_ok (s : mrcp_request_state_e) :
  s ≠ MRCP_REQUEST_STATE_UNKNOWN → field_ok (state_text s).
Proof. intros Hs. by destruct s; [..|done]; split_and!; try done; not_elem. Qed.

Lemma version_text_ok (v : mrcp_version_e) : field_ok (version_text v).
Proof. destruct v; split_and!; try done; not_elem. Qed.

Lemma method_field_ok (m : cstr) : method_ok m → field_ok m.
Proof. intros (?&?&?&_). by split_and!. Qed.

#[export] Hint Resolve id_text_ok state_text_ok version_text_ok method_field_ok : emits.

Lemma v2_fields_ok (sl : mrcp_start_line_t) : line_ok sl → Forall field_ok (v2_fields sl).
Proof.
  intros [Ht Hid Hs Hr Hm Hst]. unfold v2_fields.
  destruct (message_type sl); repeat first [apply List.Forall_nil | apply List.Forall_cons];
    auto with emits; apply dec_u_ok; lia.
Qed.

Lemma v1_fields_ok (sl : mrcp_start_line_t) : line_ok sl → Forall field_ok (v1_fields sl).
Proof.
  intros [Ht Hid Hs Hr Hm Hst]. unfold v1_fields.
  destruct (message_type sl); repeat first [apply List.Forall_nil | apply List.Forall_cons];
    auto with emits; apply dec_u_ok; lia.
Qed.

(** ** The parser reads the lines of the protocol *)

(** Read the next field of the line. *)
Ltac next_field :=
  match goal with
  | Hat : at_fields ?st (?f :: ?fs) |- context [read_field ?st] =>
      let E := fresh "E" in let Hf := fresh "Hf" in let Hat' := fresh "Hat" in
      destruct (read_field_cons st f fs Hat) as (? & ? & E & Hat' & Hf);
      rewrite E; clear E Hat
  | Hat : at_fields ?st [] |- context [read_field ?st] =>
      let E := fresh "E" in
      destruct (read_field_nil st Hat) as (? & ? & E); rewrite E; clear E Hat
  end.

(** [sl'] carries what the line of [sl] says. *)
Definition same_line (sl sl' : mrcp_start_line_t) : Prop :=
  message_type sl' = message_type sl ∧ version sl' = version sl ∧
  request_id sl' = request_id sl ∧
  (message_type sl ≠ MRCP_MESSAGE_TYPE_RESPONSE →
     chars (method_name sl') = chars (method_name sl)) ∧
  (message_type sl = MRCP_MESSAGE_TYPE_RESPONSE → status_code sl' = status_code sl) ∧
  (message_type sl ≠ MRCP_MESSAGE_TYPE_REQUEST → request_state sl' = request_state sl).

Lemma chars_field_copy (field : apt_str_t) (f : cstr) (fs : list cstr) :
  field_is field f fs → chars (apt_string_copy field) = f.
Proof. intros (<- & _). apply chars_copy. Qed.

Lemma id_is_response (field : apt_str_t) (id : Z) (fs : list cstr) :
  (0 ≤ id < 2 ^ 32)%Z → field_is field (id_text id) fs →
  ~ (id = 0%Z ∧ hd_char (default [] (buf field)) ≠ "0"%char).
Proof. intros Hid (_ & _ & rest & -> & _) [-> Hne]. by apply Hne. Qed.

Lemma v2_line_parse (sl sl0 : mrcp_start_line_t) (L : Z) (str : apt_str_t) :
  line_ok sl → version sl = MRCP_VERSION_2 → (0 ≤ L < 2 ^ 63)%Z →
  line_is str (version_text MRCP_VERSION_2 :: dec_u L :: v2_fields sl) →
  ∃ sl', mrcp_start_line_parse sl0 str = (true, sl') ∧ length_ sl' = L ∧ same_line sl sl' ∧
    (message_type sl ≠ MRCP_MESSAGE_TYPE_RESPONSE → str_wf (method_name sl')).
Proof.
  intros [Ht Hid Hs Hr Hm Hst] Hv HL Hline%line_is_fields.
  unfold mrcp_start_line_parse. next_field.
  rewrite (version_prefix _ _ _ Hf), (version_parse_text _ _ _ Hf). cbn [set_version version].
  unfold mrcp_v2_start_line_parse. next_field. rewrite (size_parse_text _ _ _ HL Hf0).
  unfold v2_fields in *. unfold same_line.
  destruct (message_type sl) eqn:Hty; [done|..]; next_field; cbn [request_id set_request_id].
  - destruct (method_not_id _ _ _ (Hm ltac:(done)) Hf1) as [-> ?].
    rewrite decide_True by done. do 2 next_field. eexists. split; [done|]. simpl.
    rewrite (id_parse_text _ _ _ Hid Hf2), Hv. split_and!; try done.
    + intros _. by eapply chars_field_copy.
    + intros _. eapply str_wf_copy, field_is_wf; [|exact Hf1]. auto with emits.
  - rewrite (id_parse_text _ _ _ Hid Hf1).
    rewrite decide_False by (by eapply id_is_response).
    next_field. rewrite (status_parse_text _ _ _ Hs Hf2). next_field.
    eexists. split; [done|]. simpl. rewrite Hv. split_and!; try done.
    intros _. eapply state_parse_text; eauto with emits.
  - destruct (method_not_id _ _ _ (Hm ltac:(done)) Hf1) as [-> ?].
    rewrite decide_True by done. do 2 next_field. eexists. split; [done|]. simpl.
    rewrite (id_parse_text _ _ _ Hid Hf2), Hv. split_and!; try done.
    + intros _. by eapply chars_field_copy.
    + intros _. eapply state_parse_text; eauto with emits.
    + intros _. eapply str_wf_copy, field_is_wf; [|exact Hf1]. auto with emits.
Qed.

Lemma v1_line_parse (sl sl0 : mrcp_start_line_t) (str : apt_str_t) :
  line_ok sl → version sl = MRCP_VERSION_1 → line_is str (v1_fields sl) →
  ∃ sl', mrcp_start_line_parse sl0 str = (true, sl') ∧ same_line sl sl'.
Proof.
  intros [Ht Hid Hs Hr Hm Hst] Hv Hline%line_is_fields.
  unfold mrcp_start_line_parse, v1_fields, same_line in *. rewrite Hv in *.
  destruct (message_type sl) eqn:Hty; [done|..]; next_field.
  - rewrite (method_prefix _ _ _ _ (Hm ltac:(done)) Hf). unfold mrcp_request_line_parse.
    next_field. rewrite (id_parse_text _ _ _ Hid Hf0). next_field.
    rewrite (state_parse_version _ _ _ (version_text_ok _) Hf1). cbn [request_state set_request_state].
    rewrite decide_True, (version_parse_text _ _ _ Hf1) by done.
    eexists. split; [done|]. simpl. split_and!; try done. intros _. by eapply chars_field_copy.
  - rewrite (version_prefix _ _ _ Hf), (version_parse_text _ _ _ Hf). cbn [set_version version].
    unfold mrcp_response_line_parse. cbn [set_message_type set_length version].
    rewrite decide_False by done. next_field. rewrite (id_parse_text _ _ _ Hid Hf0).
    next_field. rewrite (status_parse_text _ _ _ Hs Hf1). next_field.
    eexists. split; [done|]. simpl. split_and!; try done.
    intros _. eapply state_parse_text; eauto with emits.
  - rewrite (method_prefix _ _ _ _ (Hm ltac:(done)) Hf). unfold mrcp_request_line_parse.
    next_field. rewrite (id_parse_text _ _ _ Hid Hf0). next_field.
    assert (Hq : request_state sl ≠ MRCP_REQUEST_STATE_UNKNOWN) by auto.
    rewrite (state_parse_text _ _ _ Hq (state_text_ok _ Hq) Hf1). cbn [request_state set_request_state].
    rewrite decide_False by done. next_field. rewrite (version_parse_text _ _ _ Hf2).
    eexists. split; [done|]. simpl. split_and!; try done. intros _. by eapply chars_field_copy.
Qed.

(** ** Reading a line back *)

Lemma line_scan_exact (line rest : cstr) (k : nat) :
  no_eol line →
  line_scan (line ++ APT_TOKEN_CR :: APT_TOKEN_LF :: rest) k =
    Some (k + length line, k + length line + 2).
Proof.
  revert k. induction line as [|c line IH]; intros k Hne; simpl.
  - by rewrite Nat.add_0_r.
  - apply no_eol_cons in Hne as (? & ? & ?). rewrite !decide_False by done.
    rewrite IH by done. do 2 f_equal; lia.
Qed.

Lemma line_read_exact (st : apt_text_stream_t) (line rest : cstr) :
  stream_wf st → window st = line ++ APT_TOKEN_CR :: APT_TOKEN_LF :: rest → no_eol line →
  ∃ str, apt_text_line_read st = (true, with_pos st (pos st + (length line + 2)), str) ∧
    chars str = line ∧ len str = length line ∧ buf str = ptr st (pos st).
Proof.
  intros Hwf Hw Hne. unfold apt_text_line_read. rewrite Hw, line_scan_exact by done.
  eexists. split; [done|]. split_and!; try done.
  rewrite Nat.add_0_l, <- (Nat.add_0_r (pos st)), chars_ptr, drop_0, Hw.
  - apply take_app_exact.
  - rewrite Hw, length_app. lia.
Qed.

(** The line read from a text that starts with the line of the fields [fs]. *)
Lemma line_read_fields (st : apt_text_stream_t) (fs : list cstr) (rest : cstr) :
  stream_wf st → window st = joined fs ++ APT_TOKEN_CR :: APT_TOKEN_LF :: rest →
  Forall field_ok fs → Forall no_eol fs →
  ∃ str, apt_text_line_read st =
      (true, with_pos st (pos st + (length (joined fs) + 2)), str) ∧ line_is str fs.
Proof.
  intros Hwf Hw Hok Hne.
  assert (no_eol (joined fs)) as Hn.
  { clear -Hne. induction Hne as [|f fs Hf Hfs IH]; [split; apply not_elem_of_nil|].
    destruct fs as [|g fs]; [done|]. cbn [joined]. apply no_eol_app.
    split; [done|]. apply no_eol_cons. by split_and!. }
  destruct (line_read_exact st _ _ Hwf Hw Hn) as (str & -> & Hc & Hl & Hb).
  exists str. split; [done|]. unfold line_is. rewrite Hb, Hl. unfold ptr. simpl.
  rewrite (drop_pos_window st Hwf), Hw, <- app_assoc. split_and!; [|done| |done].
  - rewrite length_app. lia.
  - by rewrite drop_app_length.
Qed.

Lemma dec_u_no_eol (v : Z) : (0 ≤ v)%Z → no_eol (dec_u v).
Proof. intros. split; by apply dec_u_not_elem. Qed.
Lemma id_text_no_eol (id : Z) : no_eol (id_text id).
Proof. split; by apply id_text_not_elem. Qed.
Lemma state_text_no_eol (s : mrcp_request_state_e) : no_eol (state_text s).
Proof. destruct s; split; not_elem. Qed.
Lemma version_text_no_eol (v : mrcp_version_e) : no_eol (version_text v).
Proof. destruct v; split; not_elem. Qed.
Lemma method_no_eol (m : cstr) : method_ok m → no_eol m.
Proof. by intros (_ & _ & _ & ? & _). Qed.

#[export] Hint Resolve id_text_no_eol state_text_no_eol version_text_no_eol method_no_eol : emits.

Lemma v2_fields_no_eol (sl : mrcp_start_line_t) : line_ok sl → Forall no_eol (v2_fields sl).
Proof.
  intros [Ht Hid Hs Hr Hm Hst]. unfold v2_fields.
  destruct (message_type sl); repeat first [apply List.Forall_nil | apply List.Forall_cons];
    auto with emits; apply dec_u_no_eol; lia.
Qed.

Lemma v1_fields_no_eol (sl : mrcp_start_line_t) : line_ok sl → Forall no_eol (v1_fields sl).
Proof.
  intros [Ht Hid Hs Hr Hm Hst]. unfold v1_fields.
  destruct (message_type sl); repeat first [apply List.Forall_nil | apply List.Forall_cons];
    auto with emits; apply dec_u_no_eol; lia.
Qed.

Lemma emitted_window (st st' : apt_text_stream_t) (s : cstr) :
  pos st ≤ length (mem st) → emitted st st' s → window (reread st st') = s.
Proof.
  intros Hl (_ & _ & _ & Hm & Hp & Hle & Ht). unfold window, reread. simpl.
  rewrite <- skipn_firstn_comm.
  replace (pos st + (pos st' - pos st)) with (pos st') by lia.
  rewrite Ht. apply drop_app_length'. rewrite length_take. lia.
Qed.

Lemma emitted_wf (st st' : apt_text_stream_t) (s : cstr) :
  emitted st st' s → stream_wf (reread st st').
Proof. intros (_ & _ & _ & Hm & Hp & Hle & Ht). split; simpl; lia. Qed.

Section LineTheorems.
  Context `{AprFormat}.

Lemma v1_generate_spec (sl : mrcp_start_line_t) (st : apt_text_stream_t) :
  line_ok sl → version sl = MRCP_VERSION_1 →
  let line := joined (v1_fields sl) ++ [APT_TOKEN_CR; APT_TOKEN_LF] in
  fits st (length line) →
  ∃ st', mrcp_start_line_generate sl st = Ok (true, sl, st') ∧ emitted st st' line.
Proof.
  intros Hok Hv line Hfit. unfold mrcp_start_line_generate. rewrite Hv.
  assert (∀ g, emits g (joined (v1_fields sl)) → ∃ st' : apt_text_stream_t,
    (st ← g st; '(ok, st) ← apt_text_eol_insert st; Ok (ok, sl, st)) = Ok (true, sl, st') ∧
    emitted st st' line) as Hg.
  { intros g Hg. unfold line in Hfit. rewrite length_app in Hfit.
    destruct (Hg st) as (st1 & -> & H1); [eapply fits_le; [done|lia]|].
    destruct (emits_eol st1) as (st2 & E2 & H2); [by eapply emitted_fits|].
    exists st2. cbn [mbind res_bind]. rewrite E2. split; [done|]. by eapply emitted_app. }
  pose proof (ok_type sl Hok). destruct (message_type sl) eqn:Hty; [done|..]; apply Hg.
  - apply emits_request_line; [done|congruence].
  - apply emits_response_line; [done|congruence].
  - apply emits_request_line; [done|congruence].
Qed.

(** An MRCPv1 start-line that was generated is read back.  When the line
    fits the buffer, [mrcp_start_line_generate] writes it, [apt_text_line_read]
    on the written text yields the line, and [mrcp_start_line_parse] of that
    line succeeds and recovers the message type, the version, the request
    identifier, and the method name, the status code and the request state
    where the type has them. *)
Theorem v1_start_line_roundtrip (sl sl0 : mrcp_start_line_t) (st : apt_text_stream_t)
  (Hok : line_ok sl) (Hv : version sl = MRCP_VERSION_1)
  (Hfit : fits st (length (joined (v1_fields sl)) + 2)) :
  ∃ st' st'' str sl', mrcp_start_line_generate sl st = Ok (true, sl, st') ∧
    apt_text_line_read (reread st st') = (true, st'', str) ∧ pos st'' = pos st' ∧
    mrcp_start_line_parse sl0 str = (true, sl') ∧ same_line sl sl'.
Proof.
  destruct (v1_generate_spec sl st Hok Hv) as (st' & Hg & He); [by rewrite length_app|].
  destruct (line_read_fields (reread st st') (v1_fields sl) []) as (str & Hr & Hline).
  - by eapply emitted_wf.
  - apply emitted_window; [destruct Hfit; lia|done].
  - by apply v1_fields_ok.
  - by apply v1_fields_no_eol.
  - destruct (v1_line_parse sl sl0 str Hok Hv Hline) as (sl' & Hp & Hs).
    exists st'. eexists _, str, sl'. split_and!; [done|exact Hr| |done|done..].
    destruct He as (_ & _ & _ & _ & -> & _). rewrite length_app. done.
Qed.


(** *** Finalizing an MRCPv2 start-line *)

Lemma store_at_mid (st : apt_text_stream_t) (off : nat) (a b c s : cstr) :
  mem st = a ++ b ++ c → length a = off → length b = length s →
  store_at st off s = Ok (with_mem st (a ++ s ++ c)).
Proof.
  intros Hm Ha Hb. unfold store_at, store_all. simpl.
  rewrite decide_True by (rewrite Hm, !length_app; lia). simpl. rewrite Hm.
  rewrite take_app_length' by done. rewrite <- drop_drop, drop_app_length' by done.
  rewrite drop_app_length' by done. by destruct st.
Qed.

(** The text between [text.buf] and the cursor. *)
Definition text_so_far (st : apt_text_stream_t) : cstr :=
  take (pos st - text_buf st) (drop (text_buf st) (mem st)).

Lemma reserved_split (n : nat) (rest : cstr) :
  n ≤ 6 → v2_reserved ++ rest =
    replicate (n + 1) APT_TOKEN_SP ++ replicate (6 - n) APT_TOKEN_SP ++ rest.
Proof.
  intros Hn. rewrite app_assoc, <- replicate_add. unfold v2_reserved.
  do 2 f_equal. simpl. lia.
Qed.

(** The text of a stream, split around its start and its cursor. *)
Lemma text_split (st : apt_text_stream_t) :
  text_buf st ≤ pos st ≤ length (mem st) →
  mem st = take (text_buf st) (mem st) ++ text_so_far st ++ drop (pos st) (mem st).
Proof.
  intros Hp. rewrite <- (take_drop (text_buf st) (mem st)) at 1. f_equal.
  rewrite <- (take_drop (pos st - text_buf st) (drop (text_buf st) (mem st))) at 1.
  unfold text_so_far. rewrite drop_drop. do 2 f_equal. lia.
Qed.

(** Nothing but the contents of the object changed. *)
Definition same_frame (st st' : apt_text_stream_t) : Prop :=
  text_buf st' = text_buf st ∧ text_len st' = text_len st ∧ pos st' = pos st ∧
  end_ st' = end_ st.

(** The message length [d], of at most 6 digits, takes the reserved place and
    the start of the line is moved next to it. *)
Lemma finalize_moves (st : apt_text_stream_t) (pre P T post d : cstr) :
  length P = 9 →
  text_buf st = length pre → mem st = pre ++ P ++ v2_reserved ++ T ++ post →
  let n := length d in 1 ≤ n ≤ 6 →
  ∃ st1 st2, store_at st (text_buf st + 9) (d ++ [NUL]) = Ok st1 ∧
    store_at st1 (text_buf st + 9 + n) [APT_TOKEN_SP] = Ok st2 ∧
    same_frame st st2 ∧
    ∃ pre' st3, length pre' = length pre + (6 - n) ∧
      store_at st2 (text_buf st + (6 - n)) (take (9 + n) (drop (text_buf st) (mem st2))) = Ok st3 ∧
      same_frame st st3 ∧
      mem st3 = pre' ++ P ++ d ++ APT_TOKEN_SP :: T ++ post ∧
      (n = 6 → mem st2 = mem st3).
Proof.
  intros HP Hpre Hmem n Hn. rewrite (reserved_split n) in Hmem by lia.
  set (m2 := (pre ++ P ++ d) ++ [APT_TOKEN_SP] ++
             replicate (6 - n) APT_TOKEN_SP ++ T ++ post).
  assert (Hpd : drop (text_buf st) m2 = (P ++ d) ++ [APT_TOKEN_SP] ++
             replicate (6 - n) APT_TOKEN_SP ++ T ++ post).
  { subst m2. rewrite <- !app_assoc. by apply drop_app_length'. }
  assert (Hlen : length m2 = length pre + 16 + length (T ++ post)).
  { subst m2. rewrite !length_app, length_replicate. simpl. lia. }
  eexists _, _. split.
  { apply (store_at_mid st _ (pre ++ P) (replicate (n + 1) APT_TOKEN_SP)
      (replicate (6 - n) APT_TOKEN_SP ++ T ++ post)).
    - by rewrite Hmem, <- !app_assoc.
    - rewrite length_app. lia.
    - by rewrite length_replicate, length_app. }
  split.
  { apply (store_at_mid _ _ (pre ++ P ++ d) [NUL]
      (replicate (6 - n) APT_TOKEN_SP ++ T ++ post)); [|rewrite !length_app; simpl; lia|done].
    simpl. by rewrite <- !app_assoc. }
  fold m2. simpl. split; [by split_and!|].
  exists (take (text_buf st + (6 - n)) m2). rewrite Hpd.
  rewrite take_app_length' by (rewrite length_app; simpl; lia).
  unfold store_at, store_all. simpl. rewrite decide_True by (rewrite length_app; lia).
  simpl. eexists. split; [rewrite length_take; lia|]. split; [done|]. split; [by split_and!|].
  split; simpl.
  - rewrite <- app_assoc. do 3 f_equal.
    replace (text_buf st + _ + _) with (text_buf st + (length (P ++ d) + (6 - n)))
      by (rewrite length_app; lia).
    rewrite <- !drop_drop, Hpd, drop_app_length. simpl.
    replace (APT_TOKEN_SP :: replicate (6 - n) APT_TOKEN_SP ++ T ++ post) with
      (replicate (6 - n) APT_TOKEN_SP ++ APT_TOKEN_SP :: T ++ post).
    + by rewrite drop_app_length' by (by rewrite length_replicate).
    + change (?x :: replicate ?k ?x ++ ?l) with (replicate (S k) x ++ l).
      rewrite replicate_S_end, <- app_assoc. done.
  - intros ->. rewrite Nat.add_0_r.
    rewrite <- (take_drop (text_buf st) m2) at 1. f_equal.
    rewrite Hpd. f_equal.
    replace (text_buf st + _) with (text_buf st + length (P ++ d))
      by (rewrite length_app; simpl; lia).
    by rewrite <- drop_drop, Hpd, drop_app_length.
Qed.

Lemma text_so_far_mid (st : apt_text_stream_t) (pre s post : cstr) :
  mem st = pre ++ s ++ post → text_buf st = length pre → pos st = length pre + length s →
  text_so_far st = s.
Proof.
  intros Hm Hb Hp. unfold text_so_far. rewrite Hm, Hb, drop_app_length.
  apply take_app_length'. lia.
Qed.

(** A length below 10^6 - 7 is printed, its digits counted, in 6 digits. *)
Lemma six_digits (base L : Z) :
  (0 ≤ base < 10 ^ 6 - 7)%Z → L = (base + Z.of_nat (length (dec_u L)))%Z →
  1 ≤ length (dec_u L) ≤ 6.
Proof.
  intros Hb HL. set (n := Z.of_nat (length (dec_u L))) in *.
  destruct (dec_u_length_bounds L ltac:(lia)) as (Hge1 & _ & Hu). fold n in Hge1, Hu.
  destruct (decide (n ≤ 6)%Z) as [|Hn]; [lia|exfalso].
  destruct Hu as [?|Hu]; [lia|].
  replace (n - 1)%Z with (6 + (n - 7))%Z in Hu by lia. rewrite Z.pow_add_r in Hu by lia.
  pose proof (Z.pow_gt_lin_r 10 (n - 7) ltac:(lia) ltac:(lia)). lia.
Qed.

(** The size of the message without the digits of the message length: what the
    header of the message takes and its body. *)
Definition v2_base_length (T : cstr) (clen : Z) : Z :=
  (Z.of_nat (length v2_prefix) + 1 + Z.of_nat (length T) + clen)%Z.

Lemma finalize_spec (st : apt_text_stream_t) (sl : mrcp_start_line_t) (clen : Z) (T : cstr) :
  version sl = MRCP_VERSION_2 → length_ sl = 9%Z →
  text_buf st ≤ pos st ≤ length (mem st) →
  text_so_far st = v2_prefix ++ v2_reserved ++ T →
  (0 ≤ clen)%Z → (v2_base_length T clen < 10 ^ 6 - 7)%Z →
  ∃ L st', mrcp_start_line_finalize sl clen st = Ok (true, set_length sl L, st') ∧
    text_so_far st' = v2_prefix ++ dec_u L ++ APT_TOKEN_SP :: T ∧
    L = (Z.of_nat (length (text_so_far st')) + clen)%Z ∧
    text_buf st' ≤ pos st' ≤ length (mem st') ∧ pos st' = pos st ∧
    end_ st' = end_ st ∧ length (mem st') = length (mem st) ∧
    (pos st ≤ end_ st → text_buf st + text_len st = end_ st →
       text_buf st' + text_len st' = end_ st').
Proof.
  intros Hv Hl Hpos Htext Hc Hlim. pose proof (text_split st Hpos) as Hmem.
  rewrite Htext, <- !app_assoc in Hmem. unfold v2_base_length in Hlim.
  assert (HT : pos st - text_buf st = 16 + length T).
  { apply (f_equal length) in Htext. revert Htext. unfold text_so_far.
    rewrite length_take, length_drop, !length_app. simpl. lia. }
  unfold mrcp_start_line_finalize. rewrite decide_True by done. rewrite Hl.
  change (Z.of_nat MAX_DIGIT_COUNT) with 6%Z. change (Z.to_nat 9) with 9. simpl in Hlim.
  rewrite (wrap_u_small _ (_ + clen)), (wrap_u_small _ (_ - 6)) by lia.
  pose proof (var_length_counts_itself
    (Z.of_nat (pos st) - Z.of_nat (text_buf st) + clen - 6) 6 ltac:(lia)) as Hgen.
  destruct (apt_var_length_value_generate _ 6) as [[ok L] d].
  destruct Hgen as (HL & Hok & Hd).
  assert (Hn : 1 ≤ length (dec_u L) ≤ 6) by (eapply six_digits; [|exact HL]; lia).
  rewrite bool_decide_eq_true_2 in Hok by lia. subst ok. specialize (Hd eq_refl). subst d.
  cbn [negb].
  destruct (finalize_moves st (take (text_buf st) (mem st)) v2_prefix T _ (dec_u L) eq_refl
    ltac:(rewrite length_take; lia) Hmem Hn) as (st1 & st2 & -> & E2 & (Hb2 & Ht2 & Hp2 & He2) & pre' & st3 & Hpre & E3 &
      (Hb3 & Ht3 & Hp3 & He3) & Hm3 & Heq).
  cbn [mbind res_bind]. rewrite E2. cbn [mbind res_bind]. rewrite Hb2.
  assert (∃ st', (if decide (MAX_DIGIT_COUNT - length (dec_u L) = 0) then Ok st2
      else st3 ← store_at st2 (text_buf st + (MAX_DIGIT_COUNT - length (dec_u L)))
                   (take (9 + length (dec_u L)) (drop (text_buf st) (mem st2)));
           Ok (text_advance st3 (MAX_DIGIT_COUNT - length (dec_u L)))) = Ok st' ∧
      mem st' = mem st3 ∧ pos st' = pos st ∧ end_ st' = end_ st ∧
      text_buf st' = text_buf st + (MAX_DIGIT_COUNT - length (dec_u L)) ∧
      text_len st' = text_len st - (MAX_DIGIT_COUNT - length (dec_u L)))
    as (st' & E & Hm' & Hp' & He' & Hb' & Ht').
  { case_decide as Hk.
    - exists st2. rewrite Hk. split_and!; [done|apply Heq; lia|lia..].
    - rewrite E3. eexists. split; [done|]. simpl. split_and!; (lia || done). }
  rewrite length_take in Hpre. change MAX_DIGIT_COUNT with 6 in *.
  exists L, st'. rewrite E. split; [done|].
  rewrite (text_so_far_mid st' pre' (v2_prefix ++ dec_u L ++ APT_TOKEN_SP :: T)
    (drop (pos st) (mem st))).
  - rewrite Hp', Hb', Ht', He', Hm', Hm3, !length_app. change (length v2_prefix) with 9. simpl length.
    rewrite length_app, length_drop. split_and!; (done || lia).
  - rewrite Hm', Hm3, <- !app_assoc. done.
  - lia.
  - rewrite !length_app. change (length v2_prefix) with 9. simpl length. lia.
Qed.

Lemma v2_start_line_spec (sl : mrcp_start_line_t) (st : apt_text_stream_t) :
  line_ok sl → version sl = MRCP_VERSION_2 →
  let text := v2_prefix ++ v2_reserved ++ joined (v2_fields sl) in
  fits st (length text + 2) →
  ∃ st', mrcp_start_line_generate sl st = Ok (true, set_length sl 9, st') ∧
    emitted st st' (text ++ [APT_TOKEN_CR; APT_TOKEN_LF]).
Proof.
  intros Hok Hv text Hfit. unfold mrcp_start_line_generate. rewrite Hv.
  destruct (v2_generate_spec sl st Hok Hv) as (st1 & -> & H1);
    [eapply fits_le; [done|unfold text; lia]|].
  destruct (emits_eol st1) as (st2 & E2 & H2); [by eapply emitted_fits|].
  exists st2. cbn [mbind res_bind]. rewrite E2. split; [done|]. by eapply emitted_app.
Qed.

Lemma joined_cons (f : cstr) (fs : list cstr) :
  fs ≠ [] → joined (f :: fs) = f ++ APT_TOKEN_SP :: joined fs.
Proof. by destruct fs. Qed.

Lemma v2_fields_nonempty (sl : mrcp_start_line_t) : v2_fields sl ≠ [].
Proof. unfold v2_fields. by destruct (message_type sl). Qed.

(** The stream that reads the text written so far from its start. *)
Definition written (st : apt_text_stream_t) : apt_text_stream_t :=
  mk_stream (mem st) (text_buf st) (pos st - text_buf st) (text_buf st) (pos st) false.

(** The message length of a generated MRCPv2 message is the size of the
    message, and its start-line is read back.  The start-line is generated,
    the rest of the header is written after it, and the start-line is
    finalized with the length of the body.  Then the message length is the
    number of characters written, its own digits included, plus the length of
    the body; reading a line of the written text and parsing it succeeds and
    recovers that length, the message type, the version, the request
    identifier, and the method name, the status code and the request state
    where the type has them.  Messages are taken up to 6 digits of length, the
    space the code reserves. *)
Theorem v2_message_roundtrip (sl sl0 : mrcp_start_line_t) (st : apt_text_stream_t)
  (rest : cstr) (clen : Z)
  (Hok : line_ok sl) (Hv : version sl = MRCP_VERSION_2) (Hst : text_buf st = pos st)
  (Hfit : fits st (length (v2_prefix ++ v2_reserved ++ joined (v2_fields sl)) + 2))
  (Hc : (0 ≤ clen)%Z)
  (Hlim : (v2_base_length (joined (v2_fields sl) ++ APT_TOKEN_CR :: APT_TOKEN_LF :: rest) clen
            < 10 ^ 6 - 7)%Z) :
  ∃ sl1 st1, mrcp_start_line_generate sl st = Ok (true, sl1, st1) ∧
  ∀ st2, emitted st1 st2 rest →
  ∃ sl2 st3 st4 str sl', mrcp_start_line_finalize sl1 clen st2 = Ok (true, sl2, st3) ∧
    length_ sl2 = (Z.of_nat (length (text_so_far st3)) + clen)%Z ∧
    apt_text_line_read (written st3) = (true, st4, str) ∧ window st4 = rest ∧
    mrcp_start_line_parse sl0 str = (true, sl') ∧
    length_ sl' = length_ sl2 ∧ same_line sl sl'.
Proof.
  destruct (v2_start_line_spec sl st Hok Hv Hfit) as (st1 & Hg & H1).
  exists (set_length sl 9), st1. split; [done|]. intros st2 H2.
  pose proof (emitted_app _ _ _ _ _ H1 H2) as H12. rewrite <- !app_assoc in H12.
  assert (Htext : text_so_far st2 = v2_prefix ++ v2_reserved ++ joined (v2_fields sl) ++
    APT_TOKEN_CR :: APT_TOKEN_LF :: rest).
  { pose proof (emitted_window st st2 _ ltac:(destruct Hfit as (?&?&?); lia) H12) as Hw.
    etransitivity; [|exact Hw]. unfold text_so_far, window, reread. simpl. by replace (text_buf st2) with (pos st)
      by (destruct H12 as (-> & _); done). }
  destruct H12 as (Hb & _ & _ & Hm & Hp & Hle & _).
  destruct (finalize_spec st2 (set_length sl 9) clen _ Hv eq_refl ltac:(lia) Htext Hc Hlim)
    as (L & st3 & Hf & Ht3 & HL & Hp3).
  assert (Hw : window (written st3) = joined (version_text MRCP_VERSION_2 :: dec_u L ::
    v2_fields sl) ++ APT_TOKEN_CR :: APT_TOKEN_LF :: rest).
  { change (window (written st3)) with (text_so_far st3). rewrite Ht3.
    rewrite !joined_cons by (done || apply v2_fields_nonempty).
    unfold v2_prefix. rewrite <- !app_assoc. simpl. by rewrite <- app_assoc. }
  destruct (line_read_fields (written st3) _ rest ltac:(split; simpl; lia) Hw)
    as (str & Hr & Hline).
  { repeat apply List.Forall_cons; [apply version_text_ok|apply dec_u_ok; lia|by apply v2_fields_ok]. }
  { repeat apply List.Forall_cons; [apply version_text_no_eol|apply dec_u_no_eol; lia|
      by apply v2_fields_no_eol]. }
  assert (L < 2 ^ 63)%Z as HL63.
  { revert HL Hlim. rewrite Ht3, !length_app. unfold v2_base_length.
    pose proof (six_digits (v2_base_length (joined (v2_fields sl) ++
      APT_TOKEN_CR :: APT_TOKEN_LF :: rest) clen) L) as H6. unfold v2_base_length in H6.
    revert H6. rewrite !length_app. simpl length. rewrite !length_app. simpl length. lia. }
  destruct (v2_line_parse sl sl0 L str Hok Hv ltac:(lia) Hline) as (sl' & Hpar & HL' & Hs & _).
  exists (set_length (set_length sl 9) L), st3. eexists _, str, sl'.
  split; [done|]. split; [done|]. split; [exact Hr|]. split; [|by split_and!].
  rewrite window_with_pos, Hw. rewrite <- drop_drop, drop_app_length. done.
Qed.

End LineTheorems.

(** ** Concrete messages *)

Definition speak_request (v : mrcp_version_e) : mrcp_start_line_t :=
  mk_start_line MRCP_MESSAGE_TYPE_REQUEST v 0 543257 (str_of (lit "SPEAK")) 0
    MRCP_STATUS_CODE_UNKNOWN MRCP_REQUEST_STATE_UNKNOWN.

Lemma speak_request_ok (v : mrcp_version_e) : line_ok (speak_request v).
Proof.
  split; try done; try (vm_compute; split; congruence).
  intros _. change (chars (method_name (speak_request v))) with (lit "SPEAK").
  split_and!; try done; try not_elem. split; not_elem.
Qed.

Definition empty_stream : apt_text_stream_t := apt_text_stream_init (replicate 64 NUL) 64.
Definition any_line : mrcp_start_line_t :=
  mrcp_start_line_init (speak_request MRCP_VERSION_UNKNOWN).

Lemma v1_start_line_roundtrip_witness :
  let sl := speak_request MRCP_VERSION_1 in
  ∃ st' st'' str sl', mrcp_start_line_generate sl empty_stream = Ok (true, sl, st') ∧
    apt_text_line_read (reread empty_stream st') = (true, st'', str) ∧ pos st'' = pos st' ∧
    mrcp_start_line_parse any_line str = (true, sl') ∧ same_line sl sl'.
Proof.
  intros sl. apply (v1_start_line_roundtrip sl any_line empty_stream);
    [apply speak_request_ok|reflexivity|vm_compute; split_and!; (lia || reflexivity)].
Defined.

Lemma v2_message_roundtrip_witness :
  let sl := speak_request MRCP_VERSION_2 in
  ∃ sl1 st1, mrcp_start_line_generate sl empty_stream = Ok (true, sl1, st1) ∧
  ∀ st2, emitted st1 st2 (lit "x") →
  ∃ sl2 st3 st4 str sl', mrcp_start_line_finalize sl1 100 st2 = Ok (true, sl2, st3) ∧
    length_ sl2 = (Z.of_nat (length (text_so_far st3)) + 100)%Z ∧
    apt_text_line_read (written st3) = (true, st4, str) ∧ window st4 = lit "x" ∧
    mrcp_start_line_parse any_line str = (true, sl') ∧
    length_ sl' = length_ sl2 ∧ same_line sl sl'.
Proof.
  intros sl. apply (v2_message_roundtrip sl any_line empty_stream (lit "x") 100);
    [apply speak_request_ok|reflexivity|reflexivity
    |vm_compute; split_and!; (lia || reflexivity)|lia|vm_compute; reflexivity].
Defined.

(** A request identifier of 2^31 or more is written with a minus sign: the
    identifier is a 32-bit unsigned number, the format it is printed with is a
    signed one. *)
Theorem large_request_id_negative `{AprFormat} (id : Z) (Hid : (2 ^ 31 ≤ id < 2 ^ 32)%Z) :
  id_text id = "-"%char :: dec_u (2 ^ 32 - id) ∧
  emits_ok (mrcp_request_id_generate id) ("-"%char :: dec_u (2 ^ 32 - id)).
Proof.
  assert (He : id_text id = "-"%char :: dec_u (2 ^ 32 - id)).
  { unfold id_text, dec_s, wrap_s. replace (id + _)%Z with ((id - 2 ^ 31) + 1 * 2 ^ 32)%Z by lia.
    rewrite Z_mod_plus_full, Z.mod_small by lia.
    destruct (Z.ltb_spec (id - 2 ^ 31 - 2 ^ (32 - 1)) 0); [|lia]. do 2 f_equal. lia. }
  split; [done|]. rewrite <- He. apply emits_request_id.
Qed.

Lemma large_request_id_negative_witness :
  id_text 4294967295 = "-"%char :: dec_u (2 ^ 32 - 4294967295) ∧
  emits_ok (mrcp_request_id_generate 4294967295) ("-"%char :: dec_u (2 ^ 32 - 4294967295)).
Proof. apply large_request_id_negative. lia. Defined.
