(* ===== verification/HeaderSection.v ===== *)
(** * HeaderSection: [apt_header_field.c], the collection of header fields of a
    message.

    The header fields live in a ring, in the order of the message, and those
    with a numeric identifier are also reached through an array indexed by the
    identifier.  Fields are shared by the two and changed in place, so the
    model names each field by its address: the ring holds addresses with the
    fields behind them, the array holds addresses. *)
From S2P Require Import Prelude CString StringTable TextStream.
From stdpp Require Import sorting.

Record apt_header_field_t := mk_field {
  field_name : apt_str_t;
  field_value : apt_str_t;
  field_id : Z
}.

(** [(apr_size_t)-1]. *)
Definition UNKNOWN_HEADER_FIELD_ID : Z := 2 ^ 64 - 1.

Definition set_field_name (f : apt_header_field_t) (s : apt_str_t) : apt_header_field_t :=
  mk_field s (field_value f) (field_id f).
Definition set_field_value (f : apt_header_field_t) (s : apt_str_t) : apt_header_field_t :=
  mk_field (field_name f) s (field_id f).
Definition set_field_id (f : apt_header_field_t) (id : Z) : apt_header_field_t :=
  mk_field (field_name f) (field_value f) id.

Definition loc := nat.

Record apt_header_section_t := mk_section {
  ring : list (loc * apt_header_field_t);
  arr : list (option loc)
}.

Definition arr_size (h : apt_header_section_t) : Z := Z.of_nat (length (arr h)).

(** ** Header fields *)

Definition apt_header_field_alloc : apt_header_field_t :=
  mk_field apt_string_reset apt_string_reset UNKNOWN_HEADER_FIELD_ID.

Definition apt_header_field_create (name value : apt_str_t) : apt_header_field_t :=
  mk_field (apt_string_copy name) (apt_string_copy value) UNKNOWN_HEADER_FIELD_ID.

Definition apt_header_field_create_c (name value : option cstr) : option apt_header_field_t :=
  match name, value with
  | Some _, Some _ =>
      Some (mk_field (apt_string_assign name) (apt_string_assign value) UNKNOWN_HEADER_FIELD_ID)
  | _, _ => None
  end.

Definition apt_header_field_create_from_line (line : apt_str_t) (separator : char)
    : option apt_header_field_t :=
  match apt_text_field_read (stream_of_str line) separator true with
  | (false, _, _) => None
  | (true, st, item) =>
      let name := apt_string_copy item in
      match apt_text_field_read st NUL true with
      | (true, _, item) => Some (mk_field name (apt_string_copy item) UNKNOWN_HEADER_FIELD_ID)
      | (false, _, _) => Some (mk_field name apt_string_reset UNKNOWN_HEADER_FIELD_ID)
      end
  end.

Definition apt_header_field_copy (src : apt_header_field_t) : apt_header_field_t :=
  mk_field (apt_string_copy (field_name src)) (apt_string_copy (field_value src)) (field_id src).

(** ** The section *)

Definition apt_header_section_init : apt_header_section_t := mk_section [] [].

Definition apt_header_section_array_alloc (h : apt_header_section_t) (max_field_count : nat)
    : bool * apt_header_section_t :=
  if decide (max_field_count = 0) then (false, h)
  else (true, mk_section (ring h) (replicate max_field_count None)).

Definition apt_header_section_field_get (h : apt_header_section_t) (id : Z) : option loc :=
  if decide (id < arr_size h)%Z then mjoin (arr h !! Z.to_nat id) else None.

Definition apt_header_section_field_check (h : apt_header_section_t) (id : Z) : bool :=
  match apt_header_section_field_get h id with Some _ => true | None => false end.

(** [header->arr[id] = p]; the operations have checked that [id] is below the size. *)
Definition arr_store (h : apt_header_section_t) (id : Z) (p : option loc) : apt_header_section_t :=
  mk_section (ring h) (<[Z.to_nat id := p]> (arr h)).

(** [APR_RING_INSERT_TAIL]. *)
Definition ring_insert_tail (h : apt_header_section_t) (l : loc) (f : apt_header_field_t)
    : apt_header_section_t :=
  mk_section (ring h ++ [(l, f)]) (arr h).

Definition apt_header_section_field_add (h : apt_header_section_t) (l : loc)
    (f : apt_header_field_t) : bool * apt_header_section_t :=
  if decide (field_id f < arr_size h)%Z then
    if apt_header_section_field_check h (field_id f) then (false, h)
    else (true, ring_insert_tail (arr_store h (field_id f) (Some l)) l f)
  else (true, ring_insert_tail h l f).

(** The loop of [apt_header_section_field_insert]: before the first field with
    a greater identifier, at the tail if there is none. *)
Fixpoint ring_insert_sorted (r : list (loc * apt_header_field_t)) (l : loc)
    (f : apt_header_field_t) : list (loc * apt_header_field_t) :=
  match r with
  | [] => [(l, f)]
  | (l', it) :: r' =>
      if decide (field_id f < field_id it)%Z then (l, f) :: r
      else (l', it) :: ring_insert_sorted r' l f
  end.

Definition apt_header_section_field_insert (h : apt_header_section_t) (l : loc)
    (f : apt_header_field_t) : bool * apt_header_section_t :=
  if decide (field_id f < arr_size h)%Z then
    if apt_header_section_field_check h (field_id f) then (false, h)
    else
      let h := arr_store h (field_id f) (Some l) in
      (true, mk_section (ring_insert_sorted (ring h) l f) (arr h))
  else (true, ring_insert_tail h l f).

Definition apt_header_section_field_set (h : apt_header_section_t) (l : loc)
    (f : apt_header_field_t) : bool * apt_header_section_t :=
  if decide (arr_size h ≤ field_id f)%Z then (false, h)
  else if apt_header_section_field_check h (field_id f) then (false, h)
  else (true, arr_store h (field_id f) (Some l)).

Definition apt_header_section_field_remove (h : apt_header_section_t) (l : loc)
    (f : apt_header_field_t) : apt_header_section_t :=
  let h := if decide (field_id f < arr_size h)%Z then arr_store h (field_id f) None else h in
  mk_section (filter (λ p, p.1 ≠ l) (ring h)) (arr h).

(** The field behind an address, and a change of it in place. *)
Definition field_at (h : apt_header_section_t) (l : loc) : option apt_header_field_t :=
  snd <$> (list_find (λ p, p.1 = l) (ring h) ≫= λ p, Some p.2).

Definition field_update (h : apt_header_section_t) (l : loc)
    (g : apt_header_field_t → apt_header_field_t) : apt_header_section_t :=
  mk_section ((λ p, if decide (p.1 = l) then (p.1, g p.2) else p) <$> ring h) (arr h).

(** An address no field of the section has: what [apr_palloc] returns for a new
    field. *)
Definition fresh_loc (h : apt_header_section_t) : loc :=
  S (foldr max 0 (fst <$> ring h)).

(** ** Invariant: addresses are distinct, and an entry of the array is the
    address of a field of the ring that has the identifier of the entry. *)
Record section_wf (h : apt_header_section_t) : Prop := {
  wf_locs : NoDup (fst <$> ring h);
  wf_arr : ∀ i l, arr h !! i = Some (Some l) →
    ∃ f, (l, f) ∈ ring h ∧ field_id f = Z.of_nat i;
  wf_size : (arr_size h < UNKNOWN_HEADER_FIELD_ID)%Z
}.

(** Identifiers are values of [apr_size_t]. *)
Definition id_ok (f : apt_header_field_t) : Prop := (0 ≤ field_id f < 2 ^ 64)%Z.

Lemma fresh_loc_spec (h : apt_header_section_t) : fresh_loc h ∉ fst <$> ring h.
Proof.
  unfold fresh_loc. intros Hin.
  assert (∀ ls x, x ∈ ls → x ≤ foldr max 0 ls) as Hmax.
  { induction ls as [|y ls IH]; intros x Hx; [by apply elem_of_nil in Hx|].
    apply elem_of_cons in Hx as [->|Hx]; simpl; [lia|]. specialize (IH x Hx). lia. }
  specialize (Hmax _ _ Hin). lia.
Qed.

Lemma elem_of_ring_loc (h : apt_header_section_t) (l : loc) (f : apt_header_field_t) :
  (l, f) ∈ ring h → l ∈ fst <$> ring h.
Proof. intros H. apply list_elem_of_fmap. by exists (l, f). Qed.

Lemma field_check_spec (h : apt_header_section_t) (id : Z) :
  (0 ≤ id)%Z →
  apt_header_section_field_check h id = true ↔ ∃ l, arr h !! Z.to_nat id = Some (Some l).
Proof.
  intros Hid. unfold apt_header_section_field_check, apt_header_section_field_get, arr_size.
  case_decide as Hlt.
  - destruct (arr h !! Z.to_nat id) as [[l|]|]; simpl; naive_solver.
  - rewrite lookup_ge_None_2 by lia. naive_solver.
Qed.

Lemma section_wf_init : section_wf apt_header_section_init.
Proof. split; [apply NoDup_nil_2|done|done]. Qed.

Lemma arr_alloc_wf (n : nat) :
  (Z.of_nat n < UNKNOWN_HEADER_FIELD_ID)%Z →
  section_wf (apt_header_section_array_alloc apt_header_section_init n).2.
Proof.
  intros Hn. unfold apt_header_section_array_alloc. case_decide; [apply section_wf_init|].
  split; simpl; [apply NoDup_nil_2| |unfold arr_size; simpl; by rewrite length_replicate].
  intros i l Hl. apply lookup_replicate_1 in Hl as [? _]. done.
Qed.

(** A field placed in the ring and, with its identifier, in the array. *)
Lemma section_wf_place (h : apt_header_section_t) (l : loc) (f : apt_header_field_t)
    (r : list (loc * apt_header_field_t)) (a : list (option loc)) :
  section_wf h → id_ok f → l ∉ fst <$> ring h → r ≡ₚ (l, f) :: ring h →
  a = arr h ∨ ((field_id f < arr_size h)%Z ∧ a = <[Z.to_nat (field_id f) := Some l]> (arr h)) →
  section_wf (mk_section r a).
Proof.
  intros [Hl Ha Hs] Hid Hf Hr Harr. split; simpl.
  - rewrite (fmap_Permutation fst _ _ Hr). simpl. by constructor.
  - intros i l' Hi. destruct Harr as [->|[Hlt ->]].
    + destruct (Ha i l' Hi) as (g & Hg & Hgi). exists g. split; [|done].
      rewrite Hr. by right.
    + apply list_lookup_insert_Some in Hi as [(<- & [= <-] & _)|[_ Hi]].
      * exists f. split; [rewrite Hr; left|]. destruct Hid. lia.
      * destruct (Ha i l' Hi) as (g & Hg & Hgi). exists g. split; [|done].
        rewrite Hr. by right.
  - destruct Harr as [->|[_ ->]]; [done|]. unfold arr_size in *. simpl.
    by rewrite length_insert.
Qed.

Lemma ring_insert_sorted_perm (r : list (loc * apt_header_field_t)) (l : loc)
    (f : apt_header_field_t) : ring_insert_sorted r l f ≡ₚ (l, f) :: r.
Proof.
  induction r as [|[l' it] r IH]; simpl; [done|]. case_decide; [done|].
  rewrite IH. apply Permutation_swap.
Qed.

Lemma ring_field_unique (h : apt_header_section_t) (l : loc) (f g : apt_header_field_t) :
  section_wf h → (l, f) ∈ ring h → (l, g) ∈ ring h → f = g.
Proof.
  intros [Hl _ _] Hf Hg. apply list_elem_of_lookup in Hf as [i Hf], Hg as [j Hg].
  assert (i = j) as ->; [|congruence].
  eapply NoDup_lookup; [exact Hl|rewrite list_lookup_fmap, Hf; done|].
  by rewrite list_lookup_fmap, Hg.
Qed.

Lemma section_wf_remove (h : apt_header_section_t) (l : loc) (f : apt_header_field_t) :
  section_wf h → id_ok f → (l, f) ∈ ring h → section_wf (apt_header_section_field_remove h l f).
Proof.
  intros Hwf Hid Hin. pose proof (ring_field_unique h l f) as Hu.
  pose proof Hwf as [Hl Ha Hs]. unfold apt_header_section_field_remove. split; simpl.
  - replace (ring (if decide _ then _ else h)) with (ring h) by (by case_decide).
    eapply sublist_NoDup; [exact Hl|]. apply (fmap_sublist fst), sublist_filter.
  - intros i l' Hi.
    assert (arr h !! i = Some (Some l') ∧ i ≠ Z.to_nat (field_id f)) as [Hi' Hne].
    { destruct (decide (field_id f < arr_size h)%Z); simpl in Hi.
      - apply list_lookup_insert_Some in Hi as [(_ & ? & _)|[??]]; [done|]. by split.
      - split; [done|]. apply lookup_lt_Some in Hi. unfold arr_size in *. destruct Hid. lia. }
    destruct (Ha i l' Hi') as (g & Hg & Hgi). exists g. split; [|done].
    apply list_elem_of_filter. split; [|by case_decide]. simpl. intros ->.
    rewrite (Hu g Hwf Hin Hg) in Hne. lia.
  - unfold arr_size in *. case_decide; simpl; [by rewrite length_insert|done].
Qed.

Lemma section_wf_add (h : apt_header_section_t) (l : loc) (f : apt_header_field_t) :
  section_wf h → id_ok f → l ∉ fst <$> ring h → section_wf (apt_header_section_field_add h l f).2.
Proof.
  intros Hwf Hid Hl. unfold apt_header_section_field_add.
  assert (ring h ++ [(l, f)] ≡ₚ (l, f) :: ring h) as Htail by (by rewrite Permutation_app_comm).
  case_decide as Hlt; [destruct (apt_header_section_field_check _ _); [done|]|].
  - eapply section_wf_place; [done..|exact Htail|by right].
  - eapply section_wf_place; [done..|exact Htail|by left].
Qed.

(** The fields of the section after an addition. *)
Lemma ring_add (h : apt_header_section_t) (l : loc) (f : apt_header_field_t) :
  ring (apt_header_section_field_add h l f).2 = ring h ∨
  ring (apt_header_section_field_add h l f).2 = ring h ++ [(l, f)].
Proof.
  unfold apt_header_section_field_add.
  case_decide; [destruct (apt_header_section_field_check _ _)|]; auto.
Qed.

Lemma section_wf_update (h : apt_header_section_t) (l : loc)
    (g : apt_header_field_t → apt_header_field_t) :
  section_wf h → (∀ f, (l, f) ∈ ring h → field_id (g f) = field_id f) →
  section_wf (field_update h l g).
Proof.
  intros [Hl Ha Hs] Hg. split; simpl; [| |done].
  - rewrite <- list_fmap_compose. erewrite list_fmap_ext; [exact Hl|].
    intros i [l' f] _. simpl. by case_decide.
  - intros i l' Hi. destruct (Ha i l' Hi) as (f & Hf & Hid).
    exists (if decide (l' = l) then g f else f). split; [|case_decide; subst; by rewrite ?Hg].
    apply list_elem_of_fmap. exists (l', f). split; [|done]. simpl. by case_decide.
Qed.

(** *** The array finds every field *)

(** Every field but that at [x] whose identifier is below the size of the array
    is the one the array has for it. *)
Record indexed_but (x : option loc) (h : apt_header_section_t) : Prop := {
  ix_wf : section_wf h;
  ix_ids : ∀ l f, (l, f) ∈ ring h → id_ok f;
  ix_arr : ∀ l f, Some l ≠ x → (l, f) ∈ ring h → (field_id f < arr_size h)%Z →
    arr h !! Z.to_nat (field_id f) = Some (Some l)
}.

Definition section_indexed : apt_header_section_t → Prop := indexed_but None.

(** The identifiers below the size are different. *)
Lemma indexed_unique (h : apt_header_section_t) (l l' : loc) (f f' : apt_header_field_t) :
  section_indexed h → (l, f) ∈ ring h → (l', f') ∈ ring h → field_id f = field_id f' →
  (field_id f < arr_size h)%Z → l = l'.
Proof.
  intros [_ _ Ha] Hf Hf' He Hlt. pose proof (Ha l f ltac:(done) Hf Hlt) as H1.
  pose proof (Ha l' f' ltac:(done) Hf' ltac:(by rewrite <- He)) as H2. rewrite He, H2 in H1. by injection H1.
Qed.

Lemma indexed_alloc (n : nat) :
  (Z.of_nat n < UNKNOWN_HEADER_FIELD_ID)%Z →
  section_indexed (apt_header_section_array_alloc apt_header_section_init n).2.
Proof.
  intros Hn. split; [by apply arr_alloc_wf|..]; unfold apt_header_section_array_alloc; case_decide;
    by intros ? ? ?%elem_of_nil || intros ? ? _ ?%elem_of_nil.
Qed.

(** A new field, in the array when its identifier is below the size. *)
Lemma indexed_place (h : apt_header_section_t) (l : loc) (f : apt_header_field_t)
    (r : list (loc * apt_header_field_t)) (a : list (option loc)) :
  section_indexed h → id_ok f → l ∉ fst <$> ring h → r ≡ₚ (l, f) :: ring h →
  ((arr_size h ≤ field_id f)%Z ∧ a = arr h ∨
   (field_id f < arr_size h)%Z ∧ apt_header_section_field_check h (field_id f) = false ∧
     a = <[Z.to_nat (field_id f) := Some l]> (arr h)) →
  section_indexed (mk_section r a).
Proof.
  intros [Hwf Hids Hix] Hid Hl Hr Ha. unfold id_ok, arr_size in *. split.
  - eapply section_wf_place; try done. destruct Ha as [[_ ->]|(? & _ & ->)]; auto.
  - simpl. intros l' g. rewrite Hr, elem_of_cons. intros [[= -> ->]|Hg]; [done|by apply (Hids l')].
  - intros l' g _. unfold arr_size. simpl. rewrite Hr, elem_of_cons. destruct Ha as [[Hge ->]|(Hlt & Hfree & ->)].
    + intros [[= -> ->]|Hg]; [lia|]. by apply Hix.
    + rewrite length_insert. intros [[= -> ->]|Hg] Hglt; [rewrite list_lookup_insert_eq by lia; done|].
      specialize (Hids l' g Hg). pose proof (Hix l' g ltac:(done) Hg Hglt) as Hg'.
      rewrite list_lookup_insert_ne; [done|]. intros He. apply Z2Nat.inj in He; [|lia..].
      apply not_true_iff_false in Hfree. apply Hfree, field_check_spec; [lia|]. exists l'. by rewrite He.
Qed.

Lemma indexed_remove (h : apt_header_section_t) (l : loc) (f : apt_header_field_t) :
  section_indexed h → (l, f) ∈ ring h → section_indexed (apt_header_section_field_remove h l f).
Proof.
  intros Hx Hin. pose proof Hx as [Hwf Hids Hix]. pose proof (Hids _ _ Hin) as Hid.
  assert (ring (apt_header_section_field_remove h l f) = filter (λ p, p.1 ≠ l) (ring h)) as Er
    by (unfold apt_header_section_field_remove; by case_decide).
  split; [by apply section_wf_remove|intros l' g; rewrite Er; intros [_ Hg]%list_elem_of_filter; by apply (Hids l')|].
  intros l' g _. rewrite Er. intros [Hne Hg]%list_elem_of_filter. simpl in Hne.
  unfold apt_header_section_field_remove. case_decide as Hlt; simpl.
  - unfold arr_size. simpl. rewrite length_insert. intros Hglt. rewrite list_lookup_insert_ne; [by apply Hix|].
    intros He. apply Hne. apply (indexed_unique h l' l g f); try done. unfold id_ok in Hid.
    pose proof (Hids _ _ Hg) as Hgid. unfold id_ok in Hgid. lia.
  - by apply Hix.
Qed.

(** The field at [l] of the ring, which the array does not have yet, is put into
    the array; it is refused when another one has its identifier, and then
    nothing changes. *)
Lemma indexed_set (h : apt_header_section_t) (l : loc) (f : apt_header_field_t) :
  indexed_but (Some l) h → (l, f) ∈ ring h → (field_id f < arr_size h)%Z →
  if apt_header_section_field_check h (field_id f) then apt_header_section_field_set h l f = (false, h)
  else (apt_header_section_field_set h l f).1 = true ∧ section_indexed (apt_header_section_field_set h l f).2.
Proof.
  intros [Hwf Hids Hix] Hin Hlt. pose proof (Hids _ _ Hin) as Hid. unfold apt_header_section_field_set, id_ok, arr_size in *.
  rewrite decide_False by lia. destruct (apt_header_section_field_check h (field_id f)) eqn:E; [done|].
  split; [done|]. destruct Hwf as [Hl Ha Hs]. assert (Hwf' : section_wf (arr_store h (field_id f) (Some l))).
  { split; simpl; [done| |unfold arr_size in *; simpl; by rewrite length_insert].
    intros i l' [(<- & [= <-] & _)|[_ Hi]]%list_lookup_insert_Some; [|by apply Ha].
    exists f. split; [done|]. lia. }
  split; [done|done|]. intros l' g _ Hg. unfold arr_size. simpl. rewrite length_insert. intros Hglt.
  destruct (decide (l' = l)) as [->|Hne].
  - rewrite (ring_field_unique h l g f) by (done || by split). by rewrite list_lookup_insert_eq by lia.
  - pose proof (Hix l' g ltac:(congruence) Hg Hglt) as Hg'. rewrite list_lookup_insert_ne; [done|].
    intros He. pose proof (Hids _ _ Hg). apply Z2Nat.inj in He; [|lia..].
    apply not_true_iff_false in E. apply E, field_check_spec; [lia|]. exists l'. by rewrite He.
Qed.

Definition ascending (h : apt_header_section_t) : Prop :=
  StronglySorted (λ p q, field_id p.2 ≤ field_id q.2)%Z (ring h).

Lemma insert_sorted_ascending (r : list (loc * apt_header_field_t)) (l : loc) (f : apt_header_field_t) :
  StronglySorted (λ p q, field_id p.2 ≤ field_id q.2)%Z r →
  StronglySorted (λ p q, field_id p.2 ≤ field_id q.2)%Z (ring_insert_sorted r l f).
Proof.
  induction 1 as [|[l' g] r Hs IH Hg]; simpl; [repeat constructor|]. case_decide as Hlt.
  - constructor; [by constructor|]. constructor; [simpl; lia|]. eapply Forall_impl; [exact Hg|]. simpl. intros. lia.
  - constructor; [done|]. rewrite ring_insert_sorted_perm. constructor; [simpl; lia|done].
Qed.

(** C35: the header section keeps its ring and its array in step.  In a section
    whose array has exactly the fields of the ring with an identifier below its
    size, so that these identifiers are all different, adding or inserting a new
    field and removing a field keep it so; a field with an identifier that is
    taken is refused and nothing changes.  Inserting keeps a ring that ascends
    with the identifiers ascending.  Setting puts a field of the ring into the
    array when its identifier is free, and otherwise changes nothing. *)
Theorem section_ops_indexed (h : apt_header_section_t) (l : loc) (f : apt_header_field_t) :
  (section_indexed h → id_ok f → l ∉ fst <$> ring h →
     section_indexed (apt_header_section_field_add h l f).2 ∧
     section_indexed (apt_header_section_field_insert h l f).2 ∧
     (apt_header_section_field_check h (field_id f) = true →
        apt_header_section_field_add h l f = (false, h) ∧ apt_header_section_field_insert h l f = (false, h)) ∧
     (ascending h → (field_id f < arr_size h)%Z ∨ field_id f = UNKNOWN_HEADER_FIELD_ID →
        ascending (apt_header_section_field_insert h l f).2)) ∧
  (section_indexed h → (l, f) ∈ ring h → section_indexed (apt_header_section_field_remove h l f)) ∧
  (indexed_but (Some l) h → (l, f) ∈ ring h → (field_id f < arr_size h)%Z →
     if apt_header_section_field_check h (field_id f) then apt_header_section_field_set h l f = (false, h)
     else (apt_header_section_field_set h l f).1 = true ∧ section_indexed (apt_header_section_field_set h l f).2).
Proof.
  assert (∀ r : list (loc * apt_header_field_t), r ++ [(l, f)] ≡ₚ (l, f) :: r) as Htail.
  { intros r. by rewrite Permutation_app_comm. }
  split_and!; [intros Hx Hid Hl|apply indexed_remove|apply indexed_set].
  unfold apt_header_section_field_add, apt_header_section_field_insert. split_and!.
  - case_decide; [destruct (apt_header_section_field_check _ _) eqn:E; [done|]|].
    + eapply indexed_place; [done..|apply Htail|by right].
    + eapply indexed_place; [done..|apply Htail|left; split; [lia|done]].
  - case_decide; [destruct (apt_header_section_field_check _ _) eqn:E; [done|]|].
    + eapply indexed_place; [done..|apply ring_insert_sorted_perm|by right].
    + eapply indexed_place; [done..|apply Htail|left; split; [lia|done]].
  - intros E. rewrite E. case_decide as Hlt; [done|]. unfold id_ok in Hid.
    apply field_check_spec in E as [l' E]; [|lia]. apply lookup_lt_Some in E. unfold arr_size in Hlt. lia.
  - intros Hs Hn. unfold ascending. case_decide; [destruct (apt_header_section_field_check _ _); [done|]|].
    + by apply insert_sorted_ascending.
    + destruct Hn as [?|Hn]; [done|]. apply StronglySorted_app. split_and!; [|done|repeat constructor].
      intros [l' g] x Hg ->%list_elem_of_singleton. simpl.
      pose proof (ix_ids _ _ Hx _ _ Hg) as []. rewrite Hn. unfold UNKNOWN_HEADER_FIELD_ID. lia.
Qed.

Definition sample_field : apt_header_field_t :=
  mk_field (str_of (lit "Content-Type")) (str_of (lit "text/plain")) 3.
Definition other_field : apt_header_field_t :=
  mk_field (str_of (lit "Content-Base")) (str_of (lit "a")) 2.

(** The second field is inserted before the first, and removed again. *)
Lemma section_ops_indexed_witness :
  let h0 := (apt_header_section_array_alloc apt_header_section_init 5).2 in
  let h1 := (apt_header_section_field_add h0 0 sample_field).2 in
  let h2 := (apt_header_section_field_insert h1 1 other_field).2 in
  section_indexed h2 ∧ ascending h2 ∧ ring h2 = [(1, other_field); (0, sample_field)] ∧
  section_indexed (apt_header_section_field_remove h2 1 other_field) ∧
  apt_header_section_field_add h2 2 sample_field = (false, h2).
Proof.
  intros h0 h1 h2.
  assert (section_indexed h0) as H0 by (apply indexed_alloc; reflexivity).
  assert (id_ok sample_field) as Hs by (split; simpl; lia). assert (id_ok other_field) as Ho by (split; simpl; lia).
  destruct (proj1 (section_ops_indexed h0 0 sample_field) H0 Hs) as (H1 & _); [apply not_elem_of_nil|].
  destruct (proj1 (section_ops_indexed h1 1 other_field) H1 Ho) as (_ & H2 & _ & Ha).
  { simpl. intros Hin. apply list_elem_of_singleton in Hin. discriminate. }
  split; [exact H2|]. split.
  { apply Ha; [simpl; repeat constructor|left; vm_compute; reflexivity]. }
  split; [reflexivity|]. split.
  - apply (proj1 (proj2 (section_ops_indexed h2 1 other_field)) H2). simpl. left.
  - apply (proj1 (section_ops_indexed h2 2 sample_field) H2 Hs); [|reflexivity].
    simpl. intros Hin. apply elem_of_cons in Hin as [?|Hin]; [discriminate|].
    apply list_elem_of_singleton in Hin. discriminate.
Defined.

(** ** The section as a map from identifiers to fields *)

Definition lookup_id (h : apt_header_section_t) (id : Z) : option apt_header_field_t :=
  apt_header_section_field_get h id ≫= field_at h.

Lemma field_at_Some (h : apt_header_section_t) (l : loc) (f : apt_header_field_t) :
  section_wf h → field_at h l = Some f ↔ (l, f) ∈ ring h.
Proof.
  intros Hwf. unfold field_at. split.
  - destruct (list_find _ _) as [[i [l' g]]|] eqn:E; simpl; [|done].
    apply list_find_Some in E as (Hi & Hl & _). simpl in *. intros [= ->]. subst l'.
    by eapply list_elem_of_lookup_2.
  - intros Hin. destruct (list_find_elem_of (λ p, p.1 = l) (ring h) (l, f) Hin eq_refl)
      as [[i [l' g]] E]. rewrite E. simpl. apply list_find_Some in E as (Hi & Hl & _).
    simpl in *. subst l'. f_equal. symmetry. eapply (ring_field_unique h l); [done..|].
    by eapply list_elem_of_lookup_2.
Qed.

Lemma lookup_id_Some (h : apt_header_section_t) (id : Z) (f : apt_header_field_t) :
  section_wf h → (0 ≤ id)%Z →
  lookup_id h id = Some f ↔ ∃ l, arr h !! Z.to_nat id = Some (Some l) ∧ (l, f) ∈ ring h.
Proof.
  intros Hwf Hid. unfold lookup_id, apt_header_section_field_get, arr_size.
  case_decide as Hlt; simpl.
  - destruct (arr h !! Z.to_nat id) as [[l|]|]; simpl; [|naive_solver..].
    rewrite field_at_Some by done. naive_solver.
  - split; [done|]. intros (l & Hl & _). apply lookup_lt_Some in Hl. lia.
Qed.

Lemma field_add_lookup (h : apt_header_section_t) (l : loc) (f : apt_header_field_t) (id : Z) :
  section_wf h → id_ok f → l ∉ fst <$> ring h → (0 ≤ id)%Z →
  (field_id f < arr_size h)%Z → apt_header_section_field_check h (field_id f) = false →
  lookup_id (apt_header_section_field_add h l f).2 id =
    if decide (id = field_id f) then Some f else lookup_id h id.
Proof.
  intros Hwf Hidf Hl Hid Hlt Hfree. unfold apt_header_section_field_add.
  rewrite decide_True, Hfree by done. simpl. unfold arr_size in Hlt.
  set (h' := ring_insert_tail _ _ _).
  assert (Hwf' : section_wf h').
  { eapply (section_wf_place h l f); [done..| |by right].
    by rewrite Permutation_app_comm. }
  assert (Hr : ∀ p, p ∈ ring h' ↔ p ∈ ring h ∨ p = (l, f)).
  { intros p. simpl. rewrite elem_of_app, list_elem_of_singleton. done. }
  apply option_eq. intros g. rewrite lookup_id_Some by done. unfold id_ok in Hidf.
  case_decide as He.
  - subst id. simpl arr. rewrite list_lookup_insert_eq by lia. split.
    + intros (l' & [= <-] & [Hin|[= ->]]%Hr); [|done].
      by destruct (Hl (elem_of_ring_loc _ _ _ Hin)).
    + intros [= ->]. exists l. split; [done|]. apply Hr. by right.
  - rewrite lookup_id_Some by done. simpl arr.
    rewrite list_lookup_insert_ne by (intros ?; apply He; lia). split.
    + intros (l' & Ha & [Hin|[= -> ->]]%Hr); [by exists l'|].
      destruct (wf_arr h Hwf _ _ Ha) as (g' & Hg' & _).
      by destruct (Hl (elem_of_ring_loc _ _ _ Hg')).
    + intros (l' & Ha & Hin). exists l'. split; [done|]. apply Hr. by left.
Qed.

Lemma field_check_lookup (h : apt_header_section_t) (id : Z) :
  section_wf h → (0 ≤ id)%Z → (id < arr_size h)%Z →
  apt_header_section_field_check h id =
    match lookup_id h id with Some _ => true | None => false end.
Proof.
  intros Hwf Hid Hlt. destruct (apt_header_section_field_check h id) eqn:E;
    unfold apt_header_section_field_check, lookup_id in *.
  - destruct (apt_header_section_field_get h id) as [l'|] eqn:Eg; [|done].
    unfold apt_header_section_field_get in Eg. rewrite decide_True in Eg by done.
    destruct (arr h !! Z.to_nat id) as [[l''|]|] eqn:Ea; simplify_eq/=.
    destruct (wf_arr h Hwf _ _ Ea) as (g' & Hg' & _).
    by rewrite (proj2 (field_at_Some h l' g' Hwf) Hg').
  - by destruct (apt_header_section_field_get h id).
Qed.

Lemma field_remove_lookup (h : apt_header_section_t) (l : loc) (g : apt_header_field_t) (id : Z) :
  section_wf h → id_ok g → (0 ≤ id)%Z → (field_id g < arr_size h)%Z → (l, g) ∈ ring h →
  lookup_id (apt_header_section_field_remove h l g) id =
    if decide (id = field_id g) then None else lookup_id h id.
Proof.
  intros Hwf Hidg Hid Hlt Hin.
  pose proof (section_wf_remove h l g Hwf Hidg Hin) as Hwf'.
  apply option_eq. intros x. rewrite lookup_id_Some by done.
  unfold apt_header_section_field_remove. rewrite decide_True by done. simpl.
  unfold id_ok, arr_size in *. case_decide as He.
  - subst id. rewrite list_lookup_insert_eq by lia. naive_solver.
  - rewrite lookup_id_Some, list_lookup_insert_ne by (done || lia).
    split; intros (l2 & Ha2 & Hin2); exists l2; split; try done.
    + by apply list_elem_of_filter in Hin2 as [_ ?].
    + apply list_elem_of_filter. split; [|done]. simpl. intros ->.
      destruct (wf_arr h Hwf _ _ Ha2) as (x' & Hx' & Hxi).
      rewrite (ring_field_unique h l x' g Hwf Hx' Hin) in Hxi. lia.
Qed.

(** C29: a header section is a map from identifiers to fields.  Adding a field
    whose identifier is free binds that identifier and no other; adding one
    whose identifier is taken is refused and changes nothing; removing the
    field of an identifier unbinds that identifier and no other. *)
Theorem section_is_map (h : apt_header_section_t) (l : loc) (f g : apt_header_field_t) (id : Z)
  (Hwf : section_wf h) (Hidf : id_ok f) (Hl : l ∉ fst <$> ring h) (Hid : (0 ≤ id)%Z)
  (Hlt : (field_id f < arr_size h)%Z) :
  (lookup_id h (field_id f) = None →
     (apt_header_section_field_add h l f).1 = true ∧
     lookup_id (apt_header_section_field_add h l f).2 id =
       if decide (id = field_id f) then Some f else lookup_id h id) ∧
  (lookup_id h (field_id f) = Some g →
     apt_header_section_field_add h l f = (false, h) ∧
     ∃ l', apt_header_section_field_get h (field_id f) = Some l' ∧
       lookup_id (apt_header_section_field_remove h l' g) id =
         if decide (id = field_id f) then None else lookup_id h id).
Proof.
  pose proof (field_check_lookup h (field_id f) Hwf ltac:(apply Hidf) Hlt) as Hc. split.
  - intros Hn. rewrite Hn in Hc. split; [|by apply field_add_lookup].
    unfold apt_header_section_field_add. by rewrite decide_True, Hc.
  - intros Hg. rewrite Hg in Hc. unfold apt_header_section_field_add.
    rewrite decide_True, Hc by done. split; [done|].
    apply lookup_id_Some in Hg as (l' & Ha & Hin); [|done|apply Hidf].
    destruct (wf_arr h Hwf _ _ Ha) as (g' & Hg' & Hgi).
    rewrite <- (ring_field_unique h l' g g' Hwf Hin Hg') in Hgi.
    rewrite Z2Nat.id in Hgi by apply Hidf. exists l'. rewrite <- Hgi.
    split; [|apply field_remove_lookup; unfold id_ok in *; rewrite ?Hgi; done].
    unfold apt_header_section_field_get. by rewrite Hgi, decide_True, Ha.
Qed.

Lemma section_is_map_witness :
  let h := (apt_header_section_array_alloc apt_header_section_init 5).2 in
  lookup_id (apt_header_section_field_add h 0 sample_field).2 3 = Some sample_field.
Proof.
  intros h.
  destruct (section_is_map h 0 sample_field sample_field 3) as (Hadd & _);
    [apply arr_alloc_wf; reflexivity|split; simpl; lia|apply not_elem_of_nil|lia|reflexivity|].
  destruct (Hadd eq_refl) as [_ ->]. reflexivity.
Defined.
