(* ===== verification/TextMessage.v ===== *)
(** * TextMessage: [apt_text_message.c], the parser and the generator of text
    messages: a start-line, a header section and a body, taken from and put
    into a stream that may hold only a part of the message.

    The protocol behind the messages plugs in through the handlers of a
    vtable; here the handlers are the fields of a record, and the message they
    work on is reached through the operations of the class [MessageContext]
    (the pointers to the header section and to the body that the C code keeps
    in its context).  Logging has no effect on the messages and is left out. *)
From S2P Require Import Prelude CString StringTable TextStream HeaderSection.

(** ** Header fields and sections as text *)

(** The loop over the folding lines of a value.  An iteration passes at least
    one character, so [S (length (window st))] iterations are enough
    ([fold_loop_total]). *)
Fixpoint fold_loop (fuel : nat) (st : apt_text_stream_t) (lines : list apt_str_t)
    : option (apt_text_stream_t * list apt_str_t) :=
  match fuel with
  | O => None
  | S fuel =>
      match window st with
      | [] => Some (st, lines)
      | c :: _ =>
          if apt_text_is_wsp c then
            let st := apt_text_white_spaces_skip (with_pos st (pos st + 1)) in
            match apt_text_line_read st with
            | (true, st, line) => fold_loop fuel st (lines ++ [line])
            | (false, st, _) => fold_loop fuel st lines
            end
          else Some (st, lines)
      end
  end.

(** The outer [option] is the fuel; the inner one a NULL result. *)
Definition apt_header_field_parse (st : apt_text_stream_t)
    : option (apt_text_stream_t * option apt_header_field_t) :=
  match apt_text_header_read st with
  | (false, st, _) => Some (st, None)
  | (true, st, pr) =>
      '(st, lines) ← (if apt_string_is_empty (pair_name pr) then Some (st, [])
                      else fold_loop (S (length (window st))) st []);
      Some (st, Some (mk_field
        (str_of (chars (pair_name pr)))
        (str_of (chars (pair_value pr) ++ mjoin (chars <$> lines)))
        UNKNOWN_HEADER_FIELD_ID))
  end.

Definition apt_header_field_generate (f : apt_header_field_t) (st : apt_text_stream_t)
    : res (bool * apt_text_stream_t) :=
  apt_text_name_value_insert st (field_name f) (field_value f).

(** The loop of [apt_header_section_parse]; an iteration that continues passes
    at least one character ([section_parse_total]). *)
Fixpoint section_parse_loop (fuel : nat) (h : apt_header_section_t) (st : apt_text_stream_t)
    : option (bool * apt_header_section_t * apt_text_stream_t) :=
  match fuel with
  | O => None
  | S fuel =>
      '(st, r) ← apt_header_field_parse st;
      let continue h :=
        if apt_text_is_eos st then Some (false, h, st) else section_parse_loop fuel h st in
      match r with
      | Some f =>
          if apt_string_is_empty (field_name f) then Some (true, h, st)
          else continue (apt_header_section_field_add h (fresh_loc h) f).2
      | None => continue h
      end
  end.

Definition apt_header_section_parse (h : apt_header_section_t) (st : apt_text_stream_t)
    : option (bool * apt_header_section_t * apt_text_stream_t) :=
  section_parse_loop (S (length (window st))) h st.

Fixpoint ring_generate (r : list (loc * apt_header_field_t)) (st : apt_text_stream_t)
    : res apt_text_stream_t :=
  match r with
  | [] => Ok st
  | (_, f) :: r => '(_, st) ← apt_header_field_generate f st; ring_generate r st
  end.

Definition apt_header_section_generate (h : apt_header_section_t) (st : apt_text_stream_t)
    : res (bool * apt_text_stream_t) :=
  st ← ring_generate (ring h) st; apt_text_eol_insert st.

(** ** Messages *)

Inductive apt_message_stage_e :=
| APT_MESSAGE_STAGE_START_LINE
| APT_MESSAGE_STAGE_HEADER
| APT_MESSAGE_STAGE_BODY.

Inductive apt_message_status_e :=
| APT_MESSAGE_STATUS_COMPLETE
| APT_MESSAGE_STATUS_INCOMPLETE
| APT_MESSAGE_STATUS_INVALID.

#[export] Instance apt_message_stage_e_eq_dec : EqDecision apt_message_stage_e.
Proof. solve_decision. Defined.
#[export] Instance apt_message_status_e_eq_dec : EqDecision apt_message_status_e.
Proof. solve_decision. Defined.

Class MessageContext (M : Type) := {
  msg_header : M → apt_header_section_t;
  msg_with_header : M → apt_header_section_t → M;
  msg_body : M → apt_str_t;
  msg_with_body : M → apt_str_t → M;
  msg_header_with m h : msg_header (msg_with_header m h) = h;
  msg_body_with m b : msg_body (msg_with_body m b) = b;
  msg_header_with_body m b : msg_header (msg_with_body m b) = msg_header m;
  msg_body_with_header m h : msg_body (msg_with_header m h) = msg_body m;
  msg_with_body_with m a b : msg_with_body (msg_with_body m a) b = msg_with_body m b
}.

(** The characters of the stream's text from the cursor on:
    [text.length - (pos - text.buf)] of them. *)
Definition stream_left (st : apt_text_stream_t) : nat :=
  text_len st - (pos st - text_buf st).

(** [memcpy(buf + off,s,|s|)] on a buffer. *)
Definition buf_store (b : cstr) (off : nat) (s : cstr) : res cstr :=
  if decide (off + length s ≤ length b) then
    Ok (take off b ++ s ++ drop (off + length s) b)
  else Fault.

(** The state of [stream->pos == stream->end && *(stream->pos-1) == CR]; the
    character before the first of the object is out of bounds. *)
Definition ends_with_cr (st : apt_text_stream_t) : res bool :=
  if decide (pos st = end_ st) then
    match pos st with
    | O => Fault
    | S p => Ok (bool_decide (mem st !! p = Some APT_TOKEN_CR))
    end
  else Ok false.

Section Message.
  Context {M : Type} `{MessageContext M}.

(** *** Parser *)

(** [on_start] returns the new message ([None] for FALSE). *)
Record apt_message_parser_vtable_t := mk_parser_vtable {
  on_start : apt_text_stream_t → option M * apt_text_stream_t;
  on_header_complete : M → res (bool * M);
  on_body_complete : M → M
}.

Record apt_message_parser_t := mk_parser {
  p_context : option M;
  p_content_length : nat;
  p_stage : apt_message_stage_e;
  p_skip_lf : bool
}.

Definition apt_message_parser_create : apt_message_parser_t :=
  mk_parser None 0 APT_MESSAGE_STAGE_START_LINE false.

Definition p_set_context (p : apt_message_parser_t) (m : M) : apt_message_parser_t :=
  mk_parser (Some m) (p_content_length p) (p_stage p) (p_skip_lf p).
Definition p_set_stage (p : apt_message_parser_t) (s : apt_message_stage_e) :=
  mk_parser (p_context p) (p_content_length p) s (p_skip_lf p).
Definition p_set_skip_lf (p : apt_message_parser_t) (b : bool) :=
  mk_parser (p_context p) (p_content_length p) (p_stage p) b.
Definition p_set_content_length (p : apt_message_parser_t) (n : nat) :=
  mk_parser (p_context p) n (p_stage p) (p_skip_lf p).

Definition apt_crlf_segmentation_test (p : apt_message_parser_t) (st : apt_text_stream_t)
    : res apt_message_parser_t :=
  cr ← ends_with_cr st; Ok (if cr : bool then p_set_skip_lf p true else p).

Definition apt_message_body_read (m : M) (content_length : nat) (st : apt_text_stream_t)
    : res (bool * M * apt_text_stream_t) :=
  let body := msg_body m in
  match buf body with
  | None => Ok (true, m, st)
  | Some b =>
      let stream_length := stream_left st in
      let required := content_length - len body in
      let n := Nat.min required stream_length in
      b ← buf_store b (len body) (take n (drop (pos st) (mem st)));
      Ok (bool_decide (required ≤ stream_length),
          msg_with_body m (mk_str (Some b) (len body + n)),
          with_pos st (pos st + n))
  end.

(** [body->buf = apr_palloc(pool,n+1); body->buf[n] = '\0'; body->length = 0]:
    the size is computed in 64 bits; the new characters are unspecified, NUL
    here. *)
Definition body_alloc (m : M) (n : nat) : res M :=
  let size := usz (Z.of_nat n + 1) in
  if decide (Z.of_nat n < size)%Z then
    Ok (msg_with_body m (mk_str (Some (replicate (Z.to_nat size) NUL)) 0))
  else Fault.

(** The result of a run: the status, the parser, the stream and [*message]. *)
Definition run_result : Type :=
  apt_message_status_e * apt_message_parser_t * apt_text_stream_t * option M.

Definition run_body (vt : apt_message_parser_vtable_t) (p : apt_message_parser_t)
    (st : apt_text_stream_t) : res run_result :=
  m ← deref (p_context p);
  '(ok, m, st) ← apt_message_body_read m (p_content_length p) st;
  if (ok : bool) then
    let m := on_body_complete vt m in
    Ok (APT_MESSAGE_STATUS_COMPLETE,
        p_set_stage (p_set_context p m) APT_MESSAGE_STAGE_START_LINE, st, Some m)
  else Ok (APT_MESSAGE_STATUS_INCOMPLETE, p_set_context p m, st, None).

Definition run_header (vt : apt_message_parser_vtable_t) (p : apt_message_parser_t)
    (st : apt_text_stream_t) : res run_result :=
  m ← deref (p_context p);
  '(ok, h, st) ← deref (apt_header_section_parse (msg_header m) st);
  let m := msg_with_header m h in
  p ← apt_crlf_segmentation_test (p_set_context p m) st;
  if negb ok then Ok (APT_MESSAGE_STATUS_INCOMPLETE, p, st, None)
  else
    '(ok, m) ← on_header_complete vt m;
    let p := p_set_context p m in
    if negb ok then Ok (APT_MESSAGE_STATUS_INVALID, p, st, None)
    else if decide (len (msg_body m) = 0) then
      Ok (APT_MESSAGE_STATUS_COMPLETE,
          p_set_stage p APT_MESSAGE_STAGE_START_LINE, st, Some m)
    else
      let n := len (msg_body m) in
      m ← body_alloc m n;
      run_body vt (p_set_stage (p_set_content_length (p_set_context p m) n)
                     APT_MESSAGE_STAGE_BODY) st.

(** Each path through the body of the loop of [apt_message_parser_run] leaves
    it, so the loop runs once. *)
Definition apt_message_parser_run (vt : apt_message_parser_vtable_t)
    (p : apt_message_parser_t) (st : apt_text_stream_t) : res run_result :=
  let '(p, st) :=
    if p_skip_lf p then (p_set_skip_lf p false, apt_text_char_skip st APT_TOKEN_LF)
    else (p, st) in
  match p_stage p with
  | APT_MESSAGE_STAGE_START_LINE =>
      match on_start vt st with
      | (None, st) =>
          Ok (if apt_text_is_eos st then APT_MESSAGE_STATUS_INCOMPLETE
              else APT_MESSAGE_STATUS_INVALID, p, st, None)
      | (Some m, st) =>
          p ← apt_crlf_segmentation_test (p_set_context p m) st;
          run_header vt (p_set_stage p APT_MESSAGE_STAGE_HEADER) st
      end
  | APT_MESSAGE_STAGE_HEADER => run_header vt p st
  | APT_MESSAGE_STAGE_BODY => run_body vt p st
  end.

(** *** Generator *)

(** [g_on_start] succeeds only with the header section and the body of the
    message in the context. *)
Record apt_message_generator_vtable_t := mk_generator_vtable {
  g_on_start : M → apt_text_stream_t → res (bool * M * apt_text_stream_t);
  g_on_header_complete : M → apt_text_stream_t → res (M * apt_text_stream_t)
}.

(** [g_context] is the address of the message in progress. *)
Record apt_message_generator_t := mk_generator {
  g_context : option nat;
  g_content_length : nat;
  g_stage : apt_message_stage_e
}.

Definition apt_message_generator_create : apt_message_generator_t :=
  mk_generator None 0 APT_MESSAGE_STAGE_START_LINE.

Definition apt_message_generator_break (st : apt_text_stream_t) : apt_message_status_e :=
  if apt_text_is_eos st then APT_MESSAGE_STATUS_INCOMPLETE else APT_MESSAGE_STATUS_INVALID.

Definition apt_message_body_write (m : M) (content_length : nat) (st : apt_text_stream_t)
    : res (bool * M * apt_text_stream_t) :=
  let body := msg_body m in
  if decide (len body < content_length) then
    let stream_length := stream_left st in
    let required := content_length - len body in
    let n := Nat.min required stream_length in
    b ← deref (buf body);
    st ← put_all st (take n (drop (len body) b));
    Ok (bool_decide (required ≤ stream_length),
        msg_with_body m (mk_str (Some b) (len body + n)), st)
  else Ok (true, m, st).

Definition generate_body (g : apt_message_generator_t) (m : M) (st : apt_text_stream_t)
    : res (apt_message_status_e * apt_message_generator_t * M * apt_text_stream_t) :=
  '(ok, m, st) ← apt_message_body_write m (g_content_length g) st;
  if (ok : bool) then
    Ok (APT_MESSAGE_STATUS_COMPLETE,
        mk_generator (g_context g) (g_content_length g) APT_MESSAGE_STAGE_START_LINE, m, st)
  else Ok (apt_message_generator_break st, g, m, st).

(** [a] is the address of the message [m]. *)
Definition apt_message_generator_run (vt : apt_message_generator_vtable_t)
    (g : apt_message_generator_t) (a : nat) (m : M) (st : apt_text_stream_t)
    : res (apt_message_status_e * apt_message_generator_t * M * apt_text_stream_t) :=
  let g := if decide (g_context g = Some a) then g
           else mk_generator (Some a) (g_content_length g) APT_MESSAGE_STAGE_START_LINE in
  match g_stage g with
  | APT_MESSAGE_STAGE_START_LINE =>
      '(ok, m, st) ← g_on_start vt m st;
      if negb ok then Ok (apt_message_generator_break st, g, m, st)
      else
        '(ok, st) ← apt_header_section_generate (msg_header m) st;
        if negb ok then Ok (apt_message_generator_break st, g, m, st)
        else
          '(m, st) ← g_on_header_complete vt m st;
          let n := len (msg_body m) in
          if decide (n = 0) then
            Ok (APT_MESSAGE_STATUS_COMPLETE,
                mk_generator (g_context g) n APT_MESSAGE_STAGE_START_LINE, m, st)
          else
            generate_body (mk_generator (g_context g) n APT_MESSAGE_STAGE_BODY)
              (msg_with_body m (mk_str (buf (msg_body m)) 0)) st
  | APT_MESSAGE_STAGE_BODY => generate_body g m st
  | APT_MESSAGE_STAGE_HEADER => Ok (APT_MESSAGE_STATUS_COMPLETE, g, m, st)
  end.

End Message.

Arguments apt_message_parser_vtable_t M : clear implicits.
Arguments apt_message_parser_t M : clear implicits.
Arguments apt_message_generator_vtable_t M : clear implicits.
Arguments run_result M : clear implicits.
