(* ===== verification/TextMessageTheory.v ===== *)
(** * TextMessageTheory: header sections survive generation and parsing, a
    message is parsed completely however its body is segmented, and the
    parsing loops end. *)
From S2P Require Import Prelude CString StringTable TextStream TextStreamTheory HeaderSection.
From S2P Require Import StartLineTheory TextMessage.

(** ** Progress of the readers *)

Lemma line_scan_progress (w : cstr) (k n adv : nat) :
  line_scan w k = Some (n, adv) → k < adv ≤ k + length w.
Proof.
  revert k. induction w as [|c w IH]; intros k; simpl; [done|].
  case_decide; [intros [= <- <-]; destruct w as [|d w]; simpl; [lia|case_decide; lia]|].
  case_decide; [intros [= <- <-]; lia|]. intros Hs%IH. lia.
Qed.

Lemma header_scan_progress (w : cstr) (k p : nat) (h h' : header_scan_t) :
  header_scan w k h = (h', Some p) → k < p ≤ k + length w.
Proof.
  revert k h. induction w as [|c w IH]; intros k h; simpl; [done|].
  case_decide; [intros [= <- <-]; destruct w as [|d w]; simpl; [lia|case_decide; lia]|].
  case_decide; [intros [= <- <-]; lia|]. intros Hs%IH. lia.
Qed.

(** Reading moves the cursor forward within the text. *)
Definition advanced (st st' : apt_text_stream_t) : Prop :=
  stream_wf st' ∧ (mem st' = mem st ∧ text_buf st' = text_buf st ∧ text_len st' = text_len st) ∧
  end_ st' = end_ st ∧ pos st ≤ pos st'.

Lemma advanced_with_pos (st : apt_text_stream_t) (p : nat) :
  stream_wf st → pos st ≤ p ≤ end_ st → advanced st (with_pos st p).
Proof. intros [??] ?. split_and!; simpl; try done; [split; simpl; lia|lia]. Qed.

Lemma advanced_trans (st st1 st2 : apt_text_stream_t) :
  advanced st st1 → advanced st1 st2 → advanced st st2.
Proof. intros (?&(?&?&?)&?&?) (?&(?&?&?)&?&?). split_and!; (congruence || lia || done). Qed.

Lemma line_read_advanced (st st' : apt_text_stream_t) (ok : bool) (line : apt_str_t) :
  stream_wf st → apt_text_line_read st = (ok, st', line) → advanced st st'.
Proof.
  intros Hwf. unfold apt_text_line_read. pose proof (window_length st Hwf) as Hl.
  destruct (line_scan (window st) 0) as [[n adv]|] eqn:E; intros [= <- <- <-].
  - apply line_scan_progress in E. destruct Hwf. by apply advanced_with_pos; [split|lia].
  - by split_and!.
Qed.

Lemma header_read_advanced (st st' : apt_text_stream_t) (ok : bool) (pr : apt_pair_t) :
  stream_wf st → apt_text_header_read st = (ok, st', pr) →
  advanced st st' ∧ (pos st < pos st' ∨ ok = false ∧ apt_text_is_eos st' = true).
Proof.
  intros Hwf. unfold apt_text_header_read. pose proof (window_length st Hwf) as Hl.
  destruct (header_scan _ _ _) as [h [p|]] eqn:E; intros [= <- <- <-].
  - apply header_scan_progress in E. destruct Hwf. split; [|left; simpl; lia].
    by apply advanced_with_pos; [split|lia].
  - split; [by split_and!|]. right. unfold apt_text_is_eos. simpl. by rewrite orb_true_r.
Qed.

Lemma white_spaces_skip_advanced (st : apt_text_stream_t) :
  stream_wf st → advanced st (apt_text_white_spaces_skip st).
Proof.
  intros Hwf. pose proof (span_len_le apt_text_is_wsp (window st)) as Hs.
  rewrite (window_length st Hwf) in Hs. destruct Hwf.
  apply advanced_with_pos; [by split|lia].
Qed.

(** The folding loop ends within as many iterations as there are characters. *)
Lemma fold_loop_total (fuel : nat) (st : apt_text_stream_t) (lines : list apt_str_t) :
  stream_wf st → length (window st) < fuel →
  ∃ st' lines', fold_loop fuel st lines = Some (st', lines') ∧ advanced st st'.
Proof.
  revert st lines. induction fuel as [|fuel IH]; intros st lines Hwf Hf; [lia|].
  cbn [fold_loop]. pose proof (window_length st Hwf) as Hl.
  destruct (window st) as [|c w] eqn:Hw; [by eexists _, _|].
  destruct (apt_text_is_wsp c); [|by eexists _, _]. simpl in Hl, Hf.
  assert (advanced st (with_pos st (pos st + 1))) as H1 by (apply advanced_with_pos; [done|lia]).
  pose proof (white_spaces_skip_advanced _ (proj1 H1)) as H2.
  set (st2 := apt_text_white_spaces_skip _) in *. clearbody st2.
  destruct (apt_text_line_read st2) as [[ok st3] line] eqn:E.
  pose proof (line_read_advanced _ _ _ _ (proj1 H2) E) as H3.
  pose proof (advanced_trans _ _ _ (advanced_trans _ _ _ H1 H2) H3) as H13.
  assert (length (window st3) < fuel) as Hf3.
  { rewrite window_length by apply H3. destruct H13 as (_ & _ & -> & _).
    destruct H2 as (_ & _ & _ & Hp2), H3 as (_ & _ & _ & Hp3).
    cbn [pos with_pos] in Hp2. lia. }
  destruct ok; (edestruct (IH st3) as (st' & lines' & -> & H4); [apply H3|done|];
    eexists _, _; split; [done|]; by eapply advanced_trans).
Qed.

Lemma header_field_parse_total (st : apt_text_stream_t) :
  stream_wf st →
  ∃ st' r, apt_header_field_parse st = Some (st', r) ∧ advanced st st' ∧
    (pos st < pos st' ∨ apt_text_is_eos st' = true).
Proof.
  intros Hwf. unfold apt_header_field_parse.
  destruct (apt_text_header_read st) as [[ok st1] pr] eqn:E.
  destruct (header_read_advanced _ _ _ _ Hwf E) as [H1 Hprog].
  destruct ok; [|eexists _, _; split; [done|]; naive_solver].
  destruct Hprog as [Hp|[? _]]; [|done].
  destruct (apt_string_is_empty (pair_name pr)).
  - eexists _, _. simpl. split; [done|]. split; [done|by left].
  - destruct (fold_loop_total (S (length (window st1))) st1 [] (proj1 H1) ltac:(lia))
      as (st2 & lines & -> & H2).
    eexists _, _. simpl. split; [done|]. split; [by eapply advanced_trans|].
    left. destruct H2 as (_ & _ & _ & ?). lia.
Qed.

(** The text was moved through, or its end was met. *)
Definition progressed (st st' : apt_text_stream_t) : Prop :=
  advanced st st' ∧ (pos st < pos st' ∨ apt_text_is_eos st' = true).

Lemma progressed_window (st st' : apt_text_stream_t) :
  stream_wf st → progressed st st' → apt_text_is_eos st' = false → length (window st') < length (window st).
Proof.
  intros Hwf [(Hwf' & _ & He & _) Hp] Heos. destruct Hp as [Hp|Hp]; [|congruence].
  rewrite !window_length by done. destruct Hwf'. lia.
Qed.

Lemma section_parse_loop_total (fuel : nat) (st : apt_text_stream_t) (h : apt_header_section_t) :
  stream_wf st → length (window st) < fuel →
  ∃ ok h' st', section_parse_loop fuel h st = Some (ok, h', st') ∧ progressed st st'.
Proof.
  revert st h. induction fuel as [|fuel IH]; intros st h Hwf Hf; [lia|]. cbn [section_parse_loop].
  destruct (header_field_parse_total st Hwf) as (st1 & r & -> & H1 & Hprog). simpl.
  assert (∀ h1, ∃ ok h' st', (if apt_text_is_eos st1 then Some (false, h1, st1)
    else section_parse_loop fuel h1 st1) = Some (ok, h', st') ∧ progressed st st') as Hcont.
  { intros h1. destruct (apt_text_is_eos st1) eqn:Heos; [eexists _, _, _; by split; [|split; [|right]]|].
    destruct Hprog as [Hp|]; [|done].
    pose proof (progressed_window st st1 Hwf (conj H1 (or_introl Hp)) Heos) as Hw.
    destruct (IH st1 h1 (proj1 H1)) as (ok & h' & st' & E & H2 & _); [lia|].
    eexists _, _, _. split; [done|]. split; [by eapply advanced_trans|]. left. destruct H2 as (_ & _ & _ & ?). lia. }
  destruct r as [f|]; [|apply Hcont].
  destruct (apt_string_is_empty (field_name f)); [by eexists _, _, _|apply Hcont].
Qed.

Lemma section_parse_progress (h : apt_header_section_t) (st : apt_text_stream_t) :
  stream_wf st → ∃ ok h' st', apt_header_section_parse h st = Some (ok, h', st') ∧ progressed st st'.
Proof. intros Hwf. apply section_parse_loop_total; [done|lia]. Qed.

(** Header section parsing always ends with a result, and only moves
    forward within the text: whatever bytes the peer sends, each iteration of
    its loops consumes a character or meets the end of the stream. *)
Theorem section_parse_total (h : apt_header_section_t) (st : apt_text_stream_t)
  (Hwf : stream_wf st) :
  ∃ ok h' st', apt_header_section_parse h st = Some (ok, h', st') ∧ advanced st st'.
Proof. destruct (section_parse_progress h st Hwf) as (ok & h' & st' & Hp & Ha & _). by exists ok, h', st'. Qed.

Lemma section_parse_total_witness :
  let st := apt_text_stream_init (lit "a:b") 3 in
  ∃ ok h' st', apt_header_section_parse apt_header_section_init st = Some (ok, h', st') ∧
    advanced st st'.
Proof. intros st. apply section_parse_total. split; simpl; lia. Defined.

(** ** Header sections as text *)

Definition CRLF : cstr := [APT_TOKEN_CR; APT_TOKEN_LF].

Definition field_text (f : apt_header_field_t) : cstr :=
  header_line (chars (field_name f)) (chars (field_value f)).
Definition fields_text (fs : list apt_header_field_t) : cstr := mjoin (field_text <$> fs).

(** Header fields whose text is one header line. *)
Definition field_wf (f : apt_header_field_t) : Prop :=
  str_wf (field_name f) ∧ str_wf (field_value f) ∧
  header_name_ok (chars (field_name f)) ∧ header_value_ok (chars (field_value f)).

(** A header field as the parser makes it. *)
Definition parsed_field (f : apt_header_field_t) : apt_header_field_t :=
  mk_field (str_of (chars (field_name f))) (str_of (chars (field_value f)))
    UNKNOWN_HEADER_FIELD_ID.

Lemma field_text_length (f : apt_header_field_t) :
  field_wf f → length (field_text f) = len (field_name f) + len (field_value f) + 4.
Proof.
  intros (Wn & Wv & _). unfold field_text, header_line. rewrite !length_app.
  rewrite !chars_length by done. simpl. lia.
Qed.

Lemma emits_field (f : apt_header_field_t) :
  field_wf f → emits_ok (apt_header_field_generate f) (field_text f).
Proof.
  intros Hf st (Hfit & He & _). rewrite field_text_length in Hfit by done.
  destruct Hf as (Wn & Wv & _). unfold apt_header_field_generate.
  destruct (name_value_insert_spec st (field_name f) (field_value f))
    as (ok & st' & s & -> & W & Hs & Hok & _); [lia..|done|done|].
  rewrite Hok in * by lia. rewrite Hs in W by done. exists st'. split; [done|].
  by apply wrote_emitted.
Qed.

Lemma emits_fields (r : list (loc * apt_header_field_t)) :
  Forall (λ p, field_wf p.2) r → emits (ring_generate r) (fields_text (snd <$> r)).
Proof.
  induction 1 as [|[l f] r Hf Hr IH]; [apply emits_ret|]. cbn [ring_generate].
  apply emits_bind_ok; [by apply emits_field|done].
Qed.

Lemma emits_section (h : apt_header_section_t) :
  Forall (λ p, field_wf p.2) (ring h) →
  emits_ok (apt_header_section_generate h) (fields_text (snd <$> ring h) ++ CRLF).
Proof.
  intros Hr st Hfit. unfold apt_header_section_generate. rewrite length_app in Hfit.
  destruct (emits_fields _ Hr st) as (st1 & -> & H1); [eapply fits_le; [done|lia]|].
  destruct (emits_eol st1) as (st2 & E2 & H2); [by eapply emitted_fits|].
  exists st2. split; [done|]. by eapply emitted_app.
Qed.

Lemma window_nonempty (st : apt_text_stream_t) : window st ≠ [] → pos st < end_ st.
Proof.
  intros Hw. destruct (decide (pos st < end_ st)) as [|Hle]; [done|]. exfalso. apply Hw.
  unfold window. by replace (end_ st - pos st) with 0 by lia.
Qed.

Lemma not_eos (st : apt_text_stream_t) :
  window st ≠ [] → is_eos st = false → apt_text_is_eos st = false.
Proof.
  intros Hw%window_nonempty Heos. unfold apt_text_is_eos. rewrite Heos, orb_false_r.
  apply bool_decide_eq_false. lia.
Qed.

Lemma fields_text_cons (f : apt_header_field_t) (fs : list apt_header_field_t) :
  fields_text (f :: fs) = field_text f ++ fields_text fs.
Proof. done. Qed.

(** What follows a header line does not start with white space. *)
Lemma fields_text_plain (fs : list apt_header_field_t) (rest : cstr) :
  Forall field_wf fs →
  ∃ c w, fields_text fs ++ CRLF ++ rest = c :: w ∧ apt_text_is_wsp c = false.
Proof.
  intros Hfs. destruct Hfs as [|f fs (_ & _ & (Hne & _ & _ & Hst) & _) _]; [by eexists _, _|].
  unfold fields_text, field_text, header_line. simpl.
  destruct (chars (field_name f)) as [|c n]; [done|]. by eexists _, _.
Qed.

Lemma header_field_parse_line (st : apt_text_stream_t) (f : apt_header_field_t)
    (c : char) (rest : cstr) :
  stream_wf st → field_wf f → window st = field_text f ++ c :: rest →
  apt_text_is_wsp c = false →
  apt_header_field_parse st =
    Some (with_pos st (pos st + length (field_text f)), Some (parsed_field f)).
Proof.
  intros Hwf (Wn & Wv & Hn & Hv) Hw Hc. unfold apt_header_field_parse.
  destruct (header_read_line st _ _ _ Hwf Hn Hv Hw) as (pr & -> & Hpn & Hln & Hpv & Hlv).
  fold (field_text f). set (st1 := with_pos _ _).
  assert (Hw1 : window st1 = c :: rest).
  { subst st1. by rewrite window_with_pos, Hw, drop_app_length. }
  unfold apt_string_is_empty. rewrite bool_decide_eq_false_2.
  - cbn [fold_loop]. rewrite Hw1, Hc. simpl. rewrite app_nil_r, Hpn, Hpv. done.
  - rewrite Hln. destruct Hn as [Hn _]. by destruct (chars (field_name f)).
Qed.

Lemma header_field_parse_blank (st : apt_text_stream_t) (rest : cstr) :
  stream_wf st → window st = CRLF ++ rest →
  apt_header_field_parse st =
    Some (with_pos st (pos st + 2), Some (mk_field (str_of []) (str_of []) UNKNOWN_HEADER_FIELD_ID)).
Proof.
  intros Hwf Hw. unfold apt_header_field_parse, apt_text_header_read. by rewrite Hw.
Qed.

Lemma section_parse_fields (fs : list apt_header_field_t) (fuel : nat)
    (h : apt_header_section_t) (st : apt_text_stream_t) (rest : cstr) :
  Forall field_wf fs → stream_wf st → is_eos st = false →
  (arr_size h ≤ UNKNOWN_HEADER_FIELD_ID)%Z →
  window st = fields_text fs ++ CRLF ++ rest → length (window st) < fuel →
  ∃ new, section_parse_loop fuel h st =
      Some (true, mk_section (ring h ++ new) (arr h),
            with_pos st (pos st + length (fields_text fs ++ CRLF))) ∧
    snd <$> new = parsed_field <$> fs ∧
    (NoDup (fst <$> ring h) → NoDup (fst <$> ring h ++ new)).
Proof.
  intros Hfs. revert fuel h st. induction Hfs as [|f fs Hf Hfs IH];
    intros fuel h st Hwf Heos Harr Hw Hfuel; (destruct fuel as [|fuel]; [lia|]);
    cbn [section_parse_loop].
  - rewrite (header_field_parse_blank st rest) by done. simpl. exists [].
    rewrite app_nil_r. by destruct h.
  - destruct (fields_text_plain fs rest Hfs) as (c & w & Hcw & Hc).
    rewrite fields_text_cons, <- app_assoc in Hw.
    rewrite (header_field_parse_line st f c w) by (rewrite <- ?Hcw; done). cbn [mbind option_bind].
    assert (Hne : chars (field_name f) ≠ []) by (by destruct Hf as (_ & _ & (? & _) & _)).
    unfold apt_string_is_empty. simpl. rewrite bool_decide_eq_false_2 by (by destruct (chars _)).
    set (st1 := with_pos _ _).
    assert (Hw1 : window st1 = fields_text fs ++ CRLF ++ rest).
    { subst st1. by rewrite window_with_pos, Hw, drop_app_length. }
    assert (Hwf1 : stream_wf st1).
    { pose proof (window_length st Hwf) as Hl. rewrite Hw, length_app in Hl.
      destruct Hwf. split; simpl; lia. }
    rewrite not_eos by (rewrite ?Hw1, ?Hcw; done).
    unfold apt_header_section_field_add. simpl field_id. rewrite decide_False by lia. cbn [snd].
    destruct (IH fuel (ring_insert_tail h (fresh_loc h) (parsed_field f)) st1)
      as (new & -> & Hnew & Hdup); try done.
    { rewrite Hw1. rewrite Hw, length_app, field_text_length in Hfuel by done. lia. }
    exists ((fresh_loc h, parsed_field f) :: new). rewrite !fmap_cons, Hnew. simpl.
    rewrite <- app_assoc in *. split_and!; [do 2 f_equal|done|].
    2:{ intros Hnd. cbn [ring ring_insert_tail] in Hdup. rewrite <- app_assoc in Hdup.
        apply Hdup. rewrite fmap_app. apply NoDup_app. split_and!; [done| |].
        - intros x Hx Hx'. simpl in Hx'. apply list_elem_of_singleton in Hx'. subst x. by apply fresh_loc_spec in Hx.
        - apply NoDup_singleton. } subst st1. rewrite fields_text_cons, !length_app.
    unfold with_pos. simpl. f_equal. lia.
Qed.

(** A header section that was generated is read back.  When its text fits,
    [apt_header_section_generate] writes one line per field and an empty line,
    and [apt_header_section_parse] on a stream that continues with any
    characters succeeds, consumes exactly that text, and appends the same
    names and values in the same order. *)
Theorem section_roundtrip (h h0 : apt_header_section_t) (st st2 : apt_text_stream_t) (rest : cstr)
  (Hr : Forall (λ p, field_wf p.2) (ring h))
  (Hfit : fits st (length (fields_text (snd <$> ring h) ++ CRLF)))
  (Hh0 : (arr_size h0 ≤ UNKNOWN_HEADER_FIELD_ID)%Z)
  (Hwf2 : stream_wf st2) (Heos2 : is_eos st2 = false) :
  ∃ st1, apt_header_section_generate h st = Ok (true, st1) ∧
    (window st2 = window (reread st st1) ++ rest →
     ∃ new st3, apt_header_section_parse h0 st2 =
         Some (true, mk_section (ring h0 ++ new) (arr h0), st3) ∧
       window st3 = rest ∧ snd <$> new = parsed_field <$> (snd <$> ring h)).
Proof.
  destruct (emits_section h Hr st Hfit) as (st1 & Hg & Hem). exists st1. split; [done|].
  intros Hw. rewrite (emitted_window st st1 _ ltac:(destruct Hfit as (?&?&?); lia) Hem) in Hw.
  rewrite <- app_assoc in Hw.
  destruct (section_parse_fields (snd <$> ring h) (S (length (window st2))) h0 st2 rest)
    as (new & E & Hnew & _); try done; [by apply Forall_fmap|lia|].
  exists new. eexists. split; [exact E|]. split; [|done].
  by rewrite window_with_pos, Hw, app_assoc, drop_app_length.
Qed.

Lemma section_roundtrip_witness :
  let h := mk_section [(0, sample_field)] [] in
  let st := apt_text_stream_init (replicate 60 NUL) 60 in
  let st2 := apt_text_stream_init (lit "Content-Type: text/plain" ++ CRLF ++ CRLF ++ lit "x") 29 in
  ∃ st1, apt_header_section_generate h st = Ok (true, st1) ∧
    (window st2 = window (reread st st1) ++ lit "x" →
     ∃ new st3, apt_header_section_parse apt_header_section_init st2 =
         Some (true, mk_section ([] ++ new) [], st3) ∧
       window st3 = lit "x" ∧ snd <$> new = parsed_field <$> (snd <$> ring h)).
Proof.
  intros h st st2.
  apply (section_roundtrip h apt_header_section_init st st2 (lit "x")).
  - repeat constructor; text_side.
  - vm_compute; split_and!; (lia || reflexivity).
  - vm_compute. discriminate.
  - split; vm_compute; lia.
  - reflexivity.
Defined.

(** ** Bodies *)

Section Body.
  Context {M : Type} `{MessageContext M}.

(** A segment of input as the connection hands it to the parser. *)
Definition seg_stream (s : cstr) : apt_text_stream_t := apt_text_stream_init s (length s).

(** Run the parser on segment after segment until the message is complete or
    invalid; returns also the segments that are left. *)
Fixpoint feed (vt : apt_message_parser_vtable_t M) (p : apt_message_parser_t M)
    (segs : list cstr) : res (run_result M * list cstr) :=
  match segs with
  | [] => Ok (APT_MESSAGE_STATUS_INCOMPLETE, p, seg_stream [], None, [])
  | s :: segs =>
      r ← apt_message_parser_run vt p (seg_stream s);
      let '(status, p, st, msg) := r in
      match status with
      | APT_MESSAGE_STATUS_INCOMPLETE => feed vt p segs
      | _ => Ok (r, segs)
      end
  end.

(** A message whose body buffer has room for [n] characters and a NUL, with the
    characters [got] received. *)
Definition body_state (m : M) (n : nat) (got : cstr) : Prop :=
  ∃ b, msg_body m = mk_str (Some b) (length got) ∧ take (length got) b = got ∧
    length b = n + 1 ∧ length got ≤ n.

Lemma buf_store_spec (b s : cstr) (off : nat) :
  off + length s ≤ length b →
  buf_store b off s = Ok (take off b ++ s ++ drop (off + length s) b).
Proof. intros. unfold buf_store. by rewrite decide_True. Qed.

Lemma body_read_spec (m : M) (n : nat) (got : cstr) (st : apt_text_stream_t) :
  body_state m n got → stream_wf st → end_ st = text_buf st + text_len st →
  text_buf st ≤ pos st →
  let k := Nat.min (n - length got) (length (window st)) in
  ∃ m', apt_message_body_read m n st =
      Ok (bool_decide (n - length got ≤ length (window st)), m', with_pos st (pos st + k)) ∧
    body_state m' n (got ++ take k (window st)) ∧ ∃ b, m' = msg_with_body m b.
Proof.
  intros (b & Hb & Hg & Hlb & Hle) Hwf He Hp k. unfold apt_message_body_read.
  assert (Hleft : stream_left st = length (window st)).
  { rewrite window_length by done. unfold stream_left. lia. }
  rewrite Hb. cbn [buf len]. rewrite Hleft. fold k.
  assert (Hk : length (take k (window st)) = k) by (rewrite length_take; lia).
  assert (Htk : take k (drop (pos st) (mem st)) = take k (window st)).
  { rewrite (drop_pos_window st Hwf), take_app_le by lia. done. }
  rewrite Htk, buf_store_spec, Hg by lia. cbn [mbind res_bind].
  eexists. split; [done|]. split; [|by eexists].
  eexists. rewrite msg_body_with. split_and!.
  - by rewrite length_app, Hk.
  - rewrite app_assoc. apply take_app_length'. done.
  - rewrite !length_app, Hk, length_drop. lia.
  - rewrite length_app, Hk. lia.
Qed.

Lemma body_state_chars (m : M) (n : nat) (got : cstr) :
  body_state m n got → chars (msg_body m) = got.
Proof. intros (b & -> & Hg & _). unfold chars. simpl. done. Qed.

Lemma window_seg (s : cstr) : window (seg_stream s) = s.
Proof. apply window_init. Qed.

Lemma run_body_segment (vt : apt_message_parser_vtable_t M) (p : apt_message_parser_t M)
    (m : M) (got s : cstr) :
  p_stage p = APT_MESSAGE_STAGE_BODY → p_skip_lf p = false → p_context p = Some m →
  body_state m (p_content_length p) got →
  let n := p_content_length p in
  let k := Nat.min (n - length got) (length s) in
  ∃ m' p', body_state m' n (got ++ take k s) ∧ msg_header m' = msg_header m ∧
    apt_message_parser_run vt p (seg_stream s) =
    if decide (n - length got ≤ length s) then
      Ok (APT_MESSAGE_STATUS_COMPLETE, p', with_pos (seg_stream s) k,
          Some (on_body_complete vt m'))
    else Ok (APT_MESSAGE_STATUS_INCOMPLETE, p_set_context p m', with_pos (seg_stream s) k, None).
Proof.
  intros Hs Hlf Hc Hb n k. unfold apt_message_parser_run. rewrite Hlf, Hs. unfold run_body.
  rewrite Hc. cbn [deref mbind res_bind].
  destruct (body_read_spec m (p_content_length p) got (seg_stream s) Hb) as (m' & -> & Hb' & b & ->);
    [apply stream_init_wf; lia|done|done|].
  rewrite window_seg in *. fold n k in Hb' |- *. cbn [mbind res_bind].
  exists (msg_with_body m b). eexists. split; [exact Hb'|].
  split; [apply msg_header_with_body|].
  destruct (decide (n - length got ≤ length s)) as [Hd|Hd].
  - by rewrite bool_decide_eq_true_2.
  - by rewrite bool_decide_eq_false_2.
Qed.

(** C33: a message body is assembled completely however it is segmented.  A
    parser that expects the rest of a body of [n] characters, fed with segments
    that together hold at least that rest, reports the message complete; the
    body is what was received before followed by the first characters of the
    segments, exactly [n] in all, the header section is untouched, and what
    follows the body is left unread, in order. *)
Theorem body_segments_complete (vt : apt_message_parser_vtable_t M)
  (p : apt_message_parser_t M) (m : M) (got : cstr) (segs : list cstr)
  (Hs : p_stage p = APT_MESSAGE_STAGE_BODY) (Hlf : p_skip_lf p = false)
  (Hc : p_context p = Some m) (Hb : body_state m (p_content_length p) got)
  (Hsegs : segs ≠ []) (Hlen : p_content_length p ≤ length got + length (mjoin segs)) :
  ∃ m' p' st' left, feed vt p segs =
      Ok (APT_MESSAGE_STATUS_COMPLETE, p', st', Some (on_body_complete vt m'), left) ∧
    chars (msg_body m') = got ++ take (p_content_length p - length got) (mjoin segs) ∧
    length (chars (msg_body m')) = p_content_length p ∧ msg_header m' = msg_header m ∧
    window st' ++ mjoin left = drop (p_content_length p - length got) (mjoin segs).
Proof.
  revert p m got Hs Hlf Hc Hb Hlen. induction segs as [|s segs IH]; [done|].
  intros p m got Hs Hlf Hc Hb Hlen. cbn [feed].
  destruct (run_body_segment vt p m got s Hs Hlf Hc Hb) as (m' & p' & Hb' & Hh & ->).
  simpl in Hlen. rewrite length_app in Hlen. set (n := p_content_length p) in *.
  pose proof Hb as (_ & _ & _ & _ & Hgot). case_decide as Hd.
  - rewrite Nat.min_l in Hb' |- * by lia. cbn [mbind res_bind].
    eexists m', _, _, _. split; [done|].
    rewrite (body_state_chars _ _ _ Hb'). simpl. rewrite take_app_le, drop_app_le by lia.
    split_and!; [done|rewrite length_app, length_take; lia|done|].
    change (with_pos (seg_stream s) ?k) with (with_pos (seg_stream s) (pos (seg_stream s) + k)).
    by rewrite window_with_pos, window_seg.
  - rewrite Nat.min_r in Hb' |- * by lia. rewrite take_ge in Hb' by lia. cbn [mbind res_bind].
    destruct segs as [|s2 segs]; [simpl in Hlen; lia|].
    destruct (IH ltac:(done) (p_set_context p m') m' (got ++ s)) as
      (m2 & p2 & st2 & left & -> & Hc2 & Hl2 & Hh2 & Hw2); try done.
    { simpl. rewrite length_app. fold n. simpl in Hlen. lia. }
    simpl p_content_length in *. fold n in Hc2, Hl2, Hw2. rewrite length_app in Hc2, Hw2.
    exists m2, p2, st2, left. split; [done|]. cbn [mjoin list_join]. fold (mjoin (s2 :: segs)).
    rewrite take_app_ge, drop_app_ge, <- Nat.sub_add_distr, Hc2, Hw2, <- app_assoc by lia.
    rewrite Hc2, <- app_assoc in Hl2. split_and!; [done|done|congruence|done].
Qed.

End Body.

(** A plain message, for concrete runs. *)
Record plain_message := mk_plain { plain_header : apt_header_section_t; plain_body : apt_str_t }.

#[export] Instance plain_context : MessageContext plain_message := {|
  msg_header := plain_header;
  msg_with_header m h := mk_plain h (plain_body m);
  msg_body := plain_body;
  msg_with_body m b := mk_plain (plain_header m) b;
  msg_header_with m h := eq_refl;
  msg_body_with m b := eq_refl;
  msg_header_with_body m b := eq_refl;
  msg_body_with_header m h := eq_refl;
  msg_with_body_with m a b := eq_refl
|}.

Definition plain_vtable : apt_message_parser_vtable_t plain_message :=
  mk_parser_vtable (λ st, (None, st)) (λ m, Ok (true, m)) (λ m, m).

Lemma body_segments_complete_witness :
  let m := mk_plain apt_header_section_init (mk_str (Some (lit "ab" ++ replicate 4 NUL)) 2) in
  let p := mk_parser (Some m) 5 APT_MESSAGE_STAGE_BODY false in
  let segs := [lit "c"; []; lit "defg"] in
  ∃ m' p' st' left, feed plain_vtable p segs =
      Ok (APT_MESSAGE_STATUS_COMPLETE, p', st', Some (on_body_complete plain_vtable m'), left) ∧
    chars (msg_body m') = lit "ab" ++ take (p_content_length p - length (lit "ab")) (mjoin segs) ∧
    length (chars (msg_body m')) = p_content_length p ∧ msg_header m' = msg_header m ∧
    window st' ++ mjoin left = drop (p_content_length p - length (lit "ab")) (mjoin segs).
Proof.
  intros m p segs. apply (body_segments_complete plain_vtable p m (lit "ab") segs);
    try reflexivity; [|discriminate|vm_compute; lia].
  exists (lit "ab" ++ replicate 4 NUL). split_and!; (reflexivity || (vm_compute; lia)).
Defined.

(** ** Whole messages *)

Section Whole.
  Context {M : Type} `{MessageContext M}.

Lemma body_alloc_ok (m : M) (n : nat) :
  (Z.of_nat n < 2 ^ 64 - 1)%Z →
  ∃ b, body_alloc m n = Ok (msg_with_body m b) ∧ body_state (msg_with_body m b) n [].
Proof.
  intros Hn. unfold body_alloc. rewrite wrap_u_small by lia. rewrite decide_True by lia.
  eexists. split; [done|].
  eexists. rewrite msg_body_with. split_and!; [done|done| |simpl; lia].
  rewrite length_replicate. lia.
Qed.

(** A length of 2^64 - 1 wraps the size of the allocation to 0: the terminating
    NUL is stored out of bounds. *)
Lemma body_alloc_overflow (m : M) (n : nat) :
  Z.of_nat n = (2 ^ 64 - 1)%Z → body_alloc m n = Fault.
Proof.
  intros Hn. unfold body_alloc. rewrite Hn. by rewrite decide_False by (vm_compute; congruence).
Qed.

Lemma ends_with_cr_lf (st : apt_text_stream_t) (p : nat) :
  pos st = S p → mem st !! p = Some APT_TOKEN_LF → ends_with_cr st = Ok false.
Proof. intros Hp Hm. unfold ends_with_cr. rewrite Hp, Hm. by case_decide. Qed.

Lemma ends_with_cr_more (st : apt_text_stream_t) : window st ≠ [] → ends_with_cr st = Ok false.
Proof. intros Hw%window_nonempty. unfold ends_with_cr. by rewrite decide_False by lia. Qed.

(** The character before the cursor, after a text that ends with LF was read. *)
Lemma last_read_lf (st : apt_text_stream_t) (s rest : cstr) :
  stream_wf st → window st = (s ++ CRLF) ++ rest →
  ∃ p, pos st + length (s ++ CRLF) = S p ∧ mem st !! p = Some APT_TOKEN_LF.
Proof.
  intros Hwf Hw. exists (pos st + length s + 1). rewrite length_app. simpl. split; [lia|].
  rewrite <- Nat.add_assoc, <- lookup_drop, (drop_pos_window st Hwf), Hw, <- !app_assoc.
  rewrite lookup_app_r by lia. by replace (length s + 1 - length s) with 1 by lia.
Qed.

(** The body, when all of it is in the stream. *)
Lemma run_body_whole (vt : apt_message_parser_vtable_t M) (p : apt_message_parser_t M)
    (m : M) (st : apt_text_stream_t) (body rest : cstr) :
  p_context p = Some m → p_content_length p = length body →
  body_state m (length body) [] → stream_wf st → end_ st = text_buf st + text_len st →
  text_buf st ≤ pos st → window st = body ++ rest →
  ∃ b st', run_body vt p st =
      Ok (APT_MESSAGE_STATUS_COMPLETE,
          p_set_stage (p_set_context p (on_body_complete vt (msg_with_body m b)))
            APT_MESSAGE_STAGE_START_LINE, st', Some (on_body_complete vt (msg_with_body m b))) ∧
    chars b = body ∧ window st' = rest.
Proof.
  intros Hc Hn Hbs Hwf He Hb0 Hw. unfold run_body. rewrite Hc, Hn. cbn [deref mbind res_bind].
  destruct (body_read_spec m (length body) [] st Hbs Hwf He Hb0) as (m' & -> & Hbs' & b & ->).
  rewrite bool_decide_eq_true_2 by (rewrite Hw, length_app; simpl; lia). cbn [mbind res_bind].
  replace (Nat.min _ _) with (length body) in * by (rewrite Hw, length_app; simpl; lia).
  exists b. eexists. split; [done|]. apply body_state_chars in Hbs'.
  rewrite msg_body_with, Hw, take_app_length in Hbs'. split; [done|].
  by rewrite window_with_pos, Hw, drop_app_length.
Qed.

(** The parser on a whole message: [on_start] has read the start-line, the
    header section and the body follow. *)
Lemma parser_reads_message (vt : apt_message_parser_vtable_t M) (p : apt_message_parser_t M)
    (st st1 : apt_text_stream_t) (m0 : M) (fs : list apt_header_field_t) (body rest : cstr) :
  p_stage p = APT_MESSAGE_STAGE_START_LINE → p_skip_lf p = false →
  on_start vt st = (Some m0, st1) → stream_wf st1 → is_eos st1 = false →
  end_ st1 = text_buf st1 + text_len st1 → text_buf st1 ≤ pos st1 →
  window st1 = fields_text fs ++ CRLF ++ body ++ rest →
  Forall field_wf fs → (arr_size (msg_header m0) ≤ UNKNOWN_HEADER_FIELD_ID)%Z →
  (Z.of_nat (length body) < 2 ^ 64 - 1)%Z →
  NoDup (fst <$> ring (msg_header m0)) →
  (∀ new, snd <$> new = parsed_field <$> fs → NoDup (fst <$> ring (msg_header m0) ++ new) →
     ∃ m2, on_header_complete vt
         (msg_with_header m0 (mk_section (ring (msg_header m0) ++ new) (arr (msg_header m0)))) =
         Ok (true, m2) ∧ len (msg_body m2) = length body) →
  ∃ p' st' m2 m3 new, snd <$> new = parsed_field <$> fs ∧
    NoDup (fst <$> ring (msg_header m0) ++ new) ∧
    on_header_complete vt
      (msg_with_header m0 (mk_section (ring (msg_header m0) ++ new) (arr (msg_header m0)))) =
      Ok (true, m2) ∧
    apt_message_parser_run vt p st = Ok (APT_MESSAGE_STATUS_COMPLETE, p', st', Some m3) ∧
    p_stage p' = APT_MESSAGE_STAGE_START_LINE ∧ p_skip_lf p' = false ∧ window st' = rest ∧
    (body = [] → m3 = m2) ∧
    (body ≠ [] → ∃ b, m3 = on_body_complete vt (msg_with_body m2 b) ∧ chars b = body).
Proof.
  intros Hst Hlf Hon Hwf Heos He Hb0 Hw Hfs Harr Hlen Hnd Hhc.
  unfold apt_message_parser_run. rewrite Hlf, Hst, Hon. unfold apt_crlf_segmentation_test at 1.
  destruct (fields_text_plain fs (body ++ rest) Hfs) as (c & w & Hcw & _).
  rewrite ends_with_cr_more by (rewrite Hw, Hcw; done). cbn [mbind res_bind].
  unfold run_header. cbn [p_context p_set_stage p_set_context deref mbind res_bind].
  destruct (section_parse_fields fs (S (length (window st1))) (msg_header m0) st1 (body ++ rest))
    as (new & Hsec & Hnew & Hdup); try done; [lia|].
  unfold apt_header_section_parse. rewrite Hsec. cbn [deref mbind res_bind].
  rewrite app_assoc in Hw. destruct (last_read_lf st1 _ _ Hwf Hw) as (q & Hq & Hlfq).
  unfold apt_crlf_segmentation_test. 
  rewrite (ends_with_cr_lf (with_pos st1 (pos st1 + length (fields_text fs ++ CRLF))) q) by done.
  cbn [mbind res_bind negb]. destruct (Hhc new Hnew (Hdup Hnd)) as (m2 & Hm2 & Hl2). rewrite Hm2.
  cbn [mbind res_bind negb]. set (st2 := with_pos _ _).
  assert (Hw2 : window st2 = body ++ rest).
  { subst st2. by rewrite window_with_pos, Hw, drop_app_length. }
  rewrite Hl2. case_decide as Hz.
  { apply nil_length_inv in Hz as ->. eexists _, st2, m2, m2, new. specialize (Hdup Hnd). by split_and!. }
  destruct (body_alloc_ok m2 (length body) Hlen) as (b & -> & Hbs). cbn [mbind res_bind].
  assert (Hwf2 : stream_wf st2).
  { pose proof (window_length st1 Hwf) as Hl. rewrite Hw, length_app in Hl.
    destruct Hwf. split; simpl; lia. }
  match goal with |- context [run_body vt ?q st2] =>
    destruct (run_body_whole vt q (msg_with_body m2 b) st2 body rest) as (b' & st3 & -> & Hb' & Hw3)
  end; try done; [simpl; lia|].
  rewrite msg_with_body_with.
  specialize (Hdup Hnd). eexists _, st3, m2, _, new. split_and!; try done; [by intros ->|intros _; by exists b'].
Qed.

(** ** Generation *)

Lemma emitted_text_so_far (st st' : apt_text_stream_t) (s : cstr) :
  text_buf st = pos st → pos st ≤ length (mem st) → emitted st st' s → text_so_far st' = s.
Proof.
  intros Hb Hl He. etransitivity; [|apply (emitted_window st st' s Hl He)].
  assert (Hb' : text_buf st' = pos st) by (destruct He as (? & _); congruence).
  unfold text_so_far, window, reread. simpl. by rewrite Hb'.
Qed.

Lemma wrote_text_so_far (st st' : apt_text_stream_t) (s : cstr) :
  text_buf st ≤ pos st → wrote st st' s → text_so_far st' = text_so_far st ++ s.
Proof.
  intros Hb W. apply wrote_emitted in W as (Htb & _ & _ & Hm & Hp & Hle & Ht).
  unfold text_so_far. rewrite Htb. rewrite <- !skipn_firstn_comm.
  replace (text_buf st + (pos st' - text_buf st)) with (pos st') by lia.
  replace (text_buf st + (pos st - text_buf st)) with (pos st) by lia.
  rewrite Ht. apply drop_app_le. rewrite length_take. lia.
Qed.

Lemma generate_body_spec (g : apt_message_generator_t) (m : M)
    (st : apt_text_stream_t) (b : cstr) (n : nat) :
  g_content_length g = n → msg_body m = mk_str (Some b) 0 → 0 < n ≤ length b →
  text_buf st + text_len st = end_ st → text_buf st ≤ pos st →
  pos st + n ≤ end_ st → end_ st ≤ length (mem st) →
  ∃ g' m' st', generate_body g m st = Ok (APT_MESSAGE_STATUS_COMPLETE, g', m', st') ∧
    wrote st st' (take n b).
Proof.
  intros Hg Hb Hn Ht Hp He Hm. unfold generate_body, apt_message_body_write.
  rewrite Hg, Hb. simpl len. simpl buf. rewrite decide_True by lia.
  cbn [deref mbind res_bind].
  assert (Hleft : n ≤ stream_left st) by (unfold stream_left; lia).
  rewrite Nat.sub_0_r, Nat.min_l by done. rewrite drop_0.
  destruct (put_all_wrote st (take n b)) as (st' & -> & W); [rewrite length_take; lia|].
  cbn [mbind res_bind]. rewrite bool_decide_eq_true_2 by lia.
  eexists _, _, st'. by split.
Qed.

End Whole.

(** ** A run of the parser makes progress *)

Lemma line_read_progress (st st' : apt_text_stream_t) (ok : bool) (line : apt_str_t) :
  stream_wf st → apt_text_line_read st = (ok, st', line) → progressed st st'.
Proof.
  intros Hwf Hl. split; [by eapply line_read_advanced|]. revert Hl. unfold apt_text_line_read.
  destruct (line_scan (window st) 0) as [[n adv]|] eqn:E; intros [= <- <- <-].
  - left. apply line_scan_progress in E. simpl. lia.
  - right. unfold apt_text_is_eos. simpl. by rewrite orb_true_r.
Qed.

Lemma char_skip_advanced (st : apt_text_stream_t) (c : char) :
  stream_wf st → advanced st (apt_text_char_skip st c).
Proof.
  intros Hwf. pose proof (window_length st Hwf) as Hl. unfold apt_text_char_skip.
  destruct (window st) as [|x w]; [by split_and!|]. case_decide; [|by split_and!].
  simpl in Hl. apply advanced_with_pos; [done|lia].
Qed.

Lemma advanced_progressed (st st1 st2 : apt_text_stream_t) :
  advanced st st1 → progressed st1 st2 → progressed st st2.
Proof.
  intros H1 [H2 Hp]. split; [by eapply advanced_trans|]. destruct H1 as (_ & _ & _ & H1).
  destruct Hp; [left; lia|by right].
Qed.

Section Progress.
  Context {M : Type} `{MessageContext M}.

(** The stream ends where its text does. *)
Definition text_wf (st : apt_text_stream_t) : Prop :=
  stream_wf st ∧ text_buf st ≤ pos st ∧ end_ st = text_buf st + text_len st.

Lemma advanced_text_wf st st' : text_wf st → advanced st st' → text_wf st'.
Proof. intros (_ & ? & ?) (? & (? & ? & ?) & ? & ?). split; [done|]. split; [lia|congruence]. Qed.

(** A parser in the body has a part of it to read. *)
Definition parser_ok (p : apt_message_parser_t M) : Prop :=
  p_stage p = APT_MESSAGE_STAGE_BODY →
  ∃ m b, p_context p = Some m ∧ buf (msg_body m) = Some b ∧ len (msg_body m) < p_content_length p.

Lemma run_body_progress (vt : apt_message_parser_vtable_t M) p st status p' st' r :
  p_stage p = APT_MESSAGE_STAGE_BODY → parser_ok p → text_wf st →
  run_body vt p st = Ok (status, p', st', r) →
  parser_ok p' ∧ progressed st st'.
Proof.
  intros Hs Hp (Hwf & Hbuf & Hend). destruct (Hp Hs) as (m & b & Hm & Hb & Hlen). unfold run_body, apt_message_body_read.
  rewrite Hm. cbn [deref mbind res_bind]. rewrite Hb. unfold buf_store. cbv zeta.
  case_decide; [|done]. cbn [mbind res_bind].
  assert (Hprog : progressed st (with_pos st
    (pos st + Nat.min (p_content_length p - len (msg_body m)) (stream_left st)))).
  { unfold progressed, stream_left, apt_text_is_eos. destruct Hwf as [Hp1 Hp2]. split.
    - apply advanced_with_pos; [by split|]. lia.
    - simpl. destruct (decide (pos st < end_ st)); [left; lia|]. right. rewrite bool_decide_eq_true_2; [done|lia]. }
  case_bool_decide; intros [= <- <- <- <-]; (split; [|exact Hprog]).
  - done.
  - intros _. eexists _, _. simpl. split; [done|]. rewrite msg_body_with. simpl. split; [done|]. lia.
Qed.

Lemma run_header_progress (vt : apt_message_parser_vtable_t M) p st status p' st' r :
  p_stage p ≠ APT_MESSAGE_STAGE_BODY → text_wf st → run_header vt p st = Ok (status, p', st', r) →
  parser_ok p' ∧ progressed st st'.
Proof.
  intros Hs Hwf. unfold run_header. destruct (p_context p) as [m|]; [|done]. cbn [deref mbind res_bind].
  destruct (section_parse_progress (msg_header m) st (proj1 Hwf)) as (ok & h & st1 & -> & Hprog).
  cbn [deref mbind res_bind]. unfold apt_crlf_segmentation_test.
  destruct (ends_with_cr st1) as [cr|]; [|done]. cbn [mbind res_bind]. set (p1 := if cr then _ else _).
  assert (Hs1 : p_stage p1 = p_stage p) by (unfold p1; by destruct cr).
  destruct ok; cbn [negb]; [|intros [= <- <- <- <-]; split; [|done]; intros Hb; by rewrite Hs1 in Hb].
  destruct (on_header_complete vt _) as [[ok m1]|]; [|done]. cbn [mbind res_bind].
  destruct ok; cbn [negb]; [|intros [= <- <- <- <-]; split; [|done]; intros Hb; simpl in Hb; by rewrite Hs1 in Hb].
  case_decide as Hlen; [intros [= <- <- <- <-]; by split|].
  unfold body_alloc. case_decide; [|done]. cbn [mbind res_bind]. intros Hrun.
  apply run_body_progress in Hrun as [Hp' Hbody]; [|done| |by eapply advanced_text_wf; [|apply Hprog]].
  - split; [done|]. eapply advanced_progressed; [apply Hprog|done].
  - intros _. eexists _, _. simpl. split; [done|]. rewrite msg_body_with. simpl. split; [done|lia].
Qed.

(** A run consumes a character or meets the end of the text, if the start of a
    message does. *)
Lemma parser_run_progress (vt : apt_message_parser_vtable_t M) p st status p' st' r :
  (∀ st m st', stream_wf st → on_start vt st = (m, st') → progressed st st') →
  parser_ok p → text_wf st → apt_message_parser_run vt p st = Ok (status, p', st', r) →
  parser_ok p' ∧ progressed st st'.
Proof.
  intros Hstart Hp Hwf. unfold apt_message_parser_run.
  assert (Hskip : ∃ p1 st1, (if p_skip_lf p then (p_set_skip_lf p false, apt_text_char_skip st APT_TOKEN_LF)
    else (p, st)) = (p1, st1) ∧ p_stage p1 = p_stage p ∧ parser_ok p1 ∧ advanced st st1).
  { destruct (p_skip_lf p); eexists _, _; (split; [done|]); (split; [done|]); (split; [done|]).
    - apply char_skip_advanced, Hwf.
    - by split_and!; try apply Hwf. }
  destruct Hskip as (p1 & st1 & -> & Hs1 & Hp1 & Hadv).
  pose proof (advanced_text_wf _ _ Hwf Hadv) as Hwf1.
  destruct (p_stage p1) eqn:Hs.
  - destruct (on_start vt st1) as [[m|] st2] eqn:Hon; pose proof (Hstart _ _ _ (proj1 Hwf1) Hon) as H2.
    + pose proof (advanced_text_wf _ _ Hwf1 (proj1 H2)) as Hwf2. unfold apt_crlf_segmentation_test.
      destruct (ends_with_cr st2) as [cr|]; [|done]. cbn [mbind res_bind]. intros Hrun.
      apply run_header_progress in Hrun as [Hp' Hheader]; [|by destruct cr|done]. split; [done|].
      eapply advanced_progressed; [done|]. eapply advanced_progressed; [apply H2|done].
    + intros [= <- <- <- <-]. split; [|by eapply advanced_progressed]. done.
  - intros Hrun. apply run_header_progress in Hrun as [Hp' Hprog]; [|by rewrite Hs|done].
    split; [done|by eapply advanced_progressed].
  - intros Hrun. apply run_body_progress in Hrun as [Hp' Hprog]; [|done..].
    split; [done|by eapply advanced_progressed].
Qed.

End Progress.
