(* ===== verification/GenericHeader.v ===== *)
(** * GenericHeader: [mrcp_generic_header.c] and the pair arrays of
    [apt_pair.c]: the header fields common to all MRCP resources, their values
    and their text. *)
From S2P Require Import Prelude CString StringTable TextStream StartLine.

(** ** Arrays of pairs *)

Definition apt_pair_copy (p : apt_pair_t) : apt_pair_t :=
  mk_pair (apt_string_copy (pair_name p)) (apt_string_copy (pair_value p)).

Definition apt_pair_array_copy (arr : option (list apt_pair_t)) : option (list apt_pair_t) :=
  match arr with Some l => Some (apt_pair_copy <$> l) | None => None end.

Definition apt_pair_array_append (arr : list apt_pair_t) (name value : option apt_str_t)
    : list apt_pair_t :=
  arr ++ [mk_pair (from_option apt_string_copy apt_string_reset name)
                  (from_option apt_string_copy apt_string_reset value)].

Fixpoint apt_pair_array_find (arr : list apt_pair_t) (name : apt_str_t) : option apt_pair_t :=
  match arr with
  | [] => None
  | p :: arr => if apt_string_compare (pair_name p) name then Some p
                else apt_pair_array_find arr name
  end.

(** [id] is an int: a negative one would address memory before the array. *)
Definition apt_pair_array_get (arr : list apt_pair_t) (id : nat) : option apt_pair_t := arr !! id.

(** ** The fields *)

Inductive mrcp_generic_header_id :=
| GENERIC_HEADER_ACTIVE_REQUEST_ID_LIST
| GENERIC_HEADER_PROXY_SYNC_ID
| GENERIC_HEADER_ACCEPT_CHARSET
| GENERIC_HEADER_CONTENT_TYPE
| GENERIC_HEADER_CONTENT_ID
| GENERIC_HEADER_CONTENT_BASE
| GENERIC_HEADER_CONTENT_ENCODING
| GENERIC_HEADER_CONTENT_LOCATION
| GENERIC_HEADER_CONTENT_LENGTH
| GENERIC_HEADER_CACHE_CONTROL
| GENERIC_HEADER_LOGGING_TAG
| GENERIC_HEADER_VENDOR_SPECIFIC_PARAMS
| GENERIC_HEADER_ACCEPT
| GENERIC_HEADER_FETCH_TIMEOUT
| GENERIC_HEADER_SET_COOKIE
| GENERIC_HEADER_SET_COOKIE2.

#[export] Instance mrcp_generic_header_id_eq_dec : EqDecision mrcp_generic_header_id.
Proof. solve_decision. Defined.

Definition generic_header_ids : list mrcp_generic_header_id :=
  [GENERIC_HEADER_ACTIVE_REQUEST_ID_LIST; GENERIC_HEADER_PROXY_SYNC_ID;
   GENERIC_HEADER_ACCEPT_CHARSET; GENERIC_HEADER_CONTENT_TYPE; GENERIC_HEADER_CONTENT_ID;
   GENERIC_HEADER_CONTENT_BASE; GENERIC_HEADER_CONTENT_ENCODING;
   GENERIC_HEADER_CONTENT_LOCATION; GENERIC_HEADER_CONTENT_LENGTH;
   GENERIC_HEADER_CACHE_CONTROL; GENERIC_HEADER_LOGGING_TAG;
   GENERIC_HEADER_VENDOR_SPECIFIC_PARAMS; GENERIC_HEADER_ACCEPT;
   GENERIC_HEADER_FETCH_TIMEOUT; GENERIC_HEADER_SET_COOKIE; GENERIC_HEADER_SET_COOKIE2].

(** The numeric identifier of a field, and the field of an identifier. *)
Definition generic_header_num (f : mrcp_generic_header_id) : nat :=
  default 0 (fst <$> list_find (λ g, g = f) generic_header_ids).
Definition generic_header_of_num (id : nat) : option mrcp_generic_header_id :=
  generic_header_ids !! id.

Definition GENERIC_HEADER_COUNT : nat := 16.

Definition generic_header_string_table : list apt_str_table_item_t :=
  [item "Active-Request-Id-List" 3; item "Proxy-Sync-Id" 0; item "Accept-Charset" 7;
   item "Content-Type" 9; item "Content-Id" 9; item "Content-Base" 8;
   item "Content-Encoding" 9; item "Content-Location" 9; item "Content-Length" 10;
   item "Cache-Control" 1; item "Logging-Tag" 0; item "Vendor-Specific-Parameters" 0;
   item "Accept" 6; item "Fetch-Timeout" 0; item "Set-Cookie" 10; item "Set-Cookie2" 10].

(** The list of active requests holds the first [count] of an array of 5. *)
Notation MAX_ACTIVE_REQUEST_ID_COUNT := 5%nat (only parsing).

Record mrcp_generic_header_t := mk_generic {
  active_request_id_list : list Z;
  proxy_sync_id : apt_str_t;
  accept_charset : apt_str_t;
  content_type : apt_str_t;
  content_id : apt_str_t;
  content_base : apt_str_t;
  content_encoding : apt_str_t;
  content_location : apt_str_t;
  content_length : Z;
  cache_control : apt_str_t;
  logging_tag : apt_str_t;
  vendor_specific_params : option (list apt_pair_t);
  accept : apt_str_t;
  fetch_timeout : Z;
  set_cookie : apt_str_t;
  set_cookie2 : apt_str_t
}.

Definition mrcp_generic_header_init : mrcp_generic_header_t :=
  mk_generic [] apt_string_reset apt_string_reset apt_string_reset apt_string_reset
    apt_string_reset apt_string_reset apt_string_reset 0 apt_string_reset apt_string_reset
    None apt_string_reset 0 apt_string_reset apt_string_reset.

(** The fields that hold the text of their value. *)
Definition set_string_field (f : mrcp_generic_header_id) (v : apt_str_t)
    (h : mrcp_generic_header_t) : mrcp_generic_header_t :=
  let pick g x := if decide (f = g) then v else x in
  mk_generic (active_request_id_list h)
    (pick GENERIC_HEADER_PROXY_SYNC_ID (proxy_sync_id h))
    (pick GENERIC_HEADER_ACCEPT_CHARSET (accept_charset h))
    (pick GENERIC_HEADER_CONTENT_TYPE (content_type h))
    (pick GENERIC_HEADER_CONTENT_ID (content_id h))
    (pick GENERIC_HEADER_CONTENT_BASE (content_base h))
    (pick GENERIC_HEADER_CONTENT_ENCODING (content_encoding h))
    (pick GENERIC_HEADER_CONTENT_LOCATION (content_location h))
    (content_length h)
    (pick GENERIC_HEADER_CACHE_CONTROL (cache_control h))
    (pick GENERIC_HEADER_LOGGING_TAG (logging_tag h))
    (vendor_specific_params h)
    (pick GENERIC_HEADER_ACCEPT (accept h))
    (fetch_timeout h)
    (pick GENERIC_HEADER_SET_COOKIE (set_cookie h))
    (pick GENERIC_HEADER_SET_COOKIE2 (set_cookie2 h)).

Definition set_request_ids (ids : list Z) (h : mrcp_generic_header_t) : mrcp_generic_header_t :=
  mk_generic ids (proxy_sync_id h) (accept_charset h) (content_type h) (content_id h)
    (content_base h) (content_encoding h) (content_location h) (content_length h)
    (cache_control h) (logging_tag h) (vendor_specific_params h) (accept h) (fetch_timeout h)
    (set_cookie h) (set_cookie2 h).
Definition set_content_length (n : Z) (h : mrcp_generic_header_t) : mrcp_generic_header_t :=
  mk_generic (active_request_id_list h) (proxy_sync_id h) (accept_charset h) (content_type h)
    (content_id h) (content_base h) (content_encoding h) (content_location h) n
    (cache_control h) (logging_tag h) (vendor_specific_params h) (accept h) (fetch_timeout h)
    (set_cookie h) (set_cookie2 h).
Definition set_vendor_params (l : option (list apt_pair_t)) (h : mrcp_generic_header_t)
    : mrcp_generic_header_t :=
  mk_generic (active_request_id_list h) (proxy_sync_id h) (accept_charset h) (content_type h)
    (content_id h) (content_base h) (content_encoding h) (content_location h)
    (content_length h) (cache_control h) (logging_tag h) l (accept h) (fetch_timeout h)
    (set_cookie h) (set_cookie2 h).
Definition set_fetch_timeout (n : Z) (h : mrcp_generic_header_t) : mrcp_generic_header_t :=
  mk_generic (active_request_id_list h) (proxy_sync_id h) (accept_charset h) (content_type h)
    (content_id h) (content_base h) (content_encoding h) (content_location h)
    (content_length h) (cache_control h) (logging_tag h) (vendor_specific_params h) (accept h)
    n (set_cookie h) (set_cookie2 h).

(** ** The list of request identifiers *)

(** The loop of [mrcp_request_id_list_parse]: at most [n] fields. *)
Fixpoint id_list_loop (n : nat) (st : apt_text_stream_t) : list Z :=
  match n with
  | O => []
  | S n =>
      match apt_text_field_read st ","%char true with
      | (true, st, field) => mrcp_request_id_parse field :: id_list_loop n st
      | (false, _, _) => []
      end
  end.

Definition mrcp_request_id_list_parse (value : apt_str_t) : list Z :=
  id_list_loop MAX_ACTIVE_REQUEST_ID_COUNT (stream_of_str value).

Section Generate.
  Context `{AprFormat}.

(** The loop of [mrcp_request_id_list_generate]; [total] is the estimated
    length, [text] what was written.  [None] when [apr_snprintf] fails. *)
Fixpoint id_list_generate_loop (total : Z) (ids : list Z) (first : bool) (text : cstr)
    : option cstr :=
  match ids with
  | [] => Some text
  | id :: ids =>
      let text := if first then text else text ++ [","%char] in
      let out := apr_snprintf_d (usz (total - Z.of_nat (length text))) (i32 id) in
      if decide (out.2 < 0)%Z then None
      else id_list_generate_loop total ids false (text ++ take (Z.to_nat out.2) out.1)
  end.

Definition mrcp_request_id_list_generate (ids : list Z) : option apt_str_t :=
  let count := length ids in
  let total := 10 * count + (if decide (1 < count) then count - 1 else 0) in
  str_of <$> id_list_generate_loop (Z.of_nat total) ids true [].

(** ** Parsing, generating and copying the fields *)

(** [fresh] is the storage [apr_array_push] hands out. *)
Definition mrcp_generic_header_parse (fresh : apt_pair_t) (h : mrcp_generic_header_t)
    (id : nat) (value : apt_str_t) : bool * mrcp_generic_header_t :=
  match generic_header_of_num id with
  | None => (false, h)
  | Some GENERIC_HEADER_ACTIVE_REQUEST_ID_LIST =>
      (true, set_request_ids (mrcp_request_id_list_parse value) h)
  | Some GENERIC_HEADER_CONTENT_LENGTH => (true, set_content_length (apt_size_value_parse value) h)
  | Some GENERIC_HEADER_FETCH_TIMEOUT => (true, set_fetch_timeout (apt_size_value_parse value) h)
  | Some GENERIC_HEADER_VENDOR_SPECIFIC_PARAMS =>
      let arr := default [] (vendor_specific_params h) in
      (true, set_vendor_params (Some (default arr (apt_pair_array_parse fresh arr value))) h)
  | Some f => (true, set_string_field f value h)
  end.

(** [value] is the string to be filled, as it is before. *)
Definition mrcp_generic_header_generate (h : mrcp_generic_header_t) (id : nat)
    (value : apt_str_t) : apt_str_t :=
  match generic_header_of_num id with
  | None => value
  | Some GENERIC_HEADER_ACTIVE_REQUEST_ID_LIST =>
      default value (mrcp_request_id_list_generate (active_request_id_list h))
  | Some GENERIC_HEADER_PROXY_SYNC_ID => proxy_sync_id h
  | Some GENERIC_HEADER_ACCEPT_CHARSET => accept_charset h
  | Some GENERIC_HEADER_CONTENT_TYPE => content_type h
  | Some GENERIC_HEADER_CONTENT_ID => content_id h
  | Some GENERIC_HEADER_CONTENT_BASE => content_base h
  | Some GENERIC_HEADER_CONTENT_ENCODING => content_encoding h
  | Some GENERIC_HEADER_CONTENT_LOCATION => content_location h
  | Some GENERIC_HEADER_CONTENT_LENGTH => apt_size_value_generate (content_length h)
  | Some GENERIC_HEADER_CACHE_CONTROL => cache_control h
  | Some GENERIC_HEADER_LOGGING_TAG => logging_tag h
  | Some GENERIC_HEADER_VENDOR_SPECIFIC_PARAMS =>
      match vendor_specific_params h with
      | Some arr => apt_pair_array_generate arr
      | None => value
      end
  | Some GENERIC_HEADER_ACCEPT => accept h
  | Some GENERIC_HEADER_FETCH_TIMEOUT => apt_size_value_generate (fetch_timeout h)
  | Some GENERIC_HEADER_SET_COOKIE => set_cookie h
  | Some GENERIC_HEADER_SET_COOKIE2 => set_cookie2 h
  end.

Definition mrcp_generic_header_duplicate (h src : mrcp_generic_header_t) (id : nat)
    (value : apt_str_t) : bool * mrcp_generic_header_t :=
  match generic_header_of_num id with
  | None => (false, h)
  | Some GENERIC_HEADER_ACTIVE_REQUEST_ID_LIST => (true, h)
  | Some GENERIC_HEADER_CONTENT_LENGTH => (true, set_content_length (content_length src) h)
  | Some GENERIC_HEADER_FETCH_TIMEOUT => (true, set_fetch_timeout (fetch_timeout src) h)
  | Some GENERIC_HEADER_VENDOR_SPECIFIC_PARAMS =>
      (true, set_vendor_params (apt_pair_array_copy (vendor_specific_params src)) h)
  | Some f => (true, set_string_field f value h)
  end.

End Generate.

Definition active_request_id_list_append (h : mrcp_generic_header_t) (request_id : Z)
    : bool * mrcp_generic_header_t :=
  if decide (MAX_ACTIVE_REQUEST_ID_COUNT ≤ length (active_request_id_list h)) then (false, h)
  else (true, set_request_ids (active_request_id_list h ++ [request_id]) h).

Definition active_request_id_list_find (h : mrcp_generic_header_t) (request_id : Z) : bool :=
  bool_decide (request_id ∈ active_request_id_list h).
