(* ===== verification/GenericHeaderTheory.v ===== *)
(** * GenericHeaderTheory: the generic header fields are read back from the text
    they are generated as, and the list of active requests is bounded. *)
From S2P Require Import Prelude CString StringTable TextStream TextStreamTheory TextValues.
From S2P Require Import StartLine StartLineTheory GenericHeader.

(** ** The list of request identifiers *)

Fixpoint comma_join (ids : list Z) : cstr :=
  match ids with
  | [] => []
  | [id] => id_text id
  | id :: ids => id_text id ++ ","%char :: comma_join ids
  end.

(** Identifiers of at most 9 digits. *)
Definition short_id (id : Z) : Prop := (0 ≤ id < 10 ^ 9)%Z.

Lemma short_id_text (id : Z) : short_id id → id_text id = dec_u id ∧ length (id_text id) ≤ 9.
Proof.
  intros [H0 H9]. unfold id_text. rewrite wrap_s_small by lia.
  unfold dec_s. destruct (Z.ltb_spec id 0); [lia|]. split; [done|].
  destruct (dec_u_length_bounds id H0) as (_ & _ & [?|Hl]); [lia|].
  destruct (decide (length (dec_u id) ≤ 9)) as [|Hlt]; [done|].
  pose proof (Z.pow_le_mono_r 10 9 (Z.of_nat (length (dec_u id)) - 1)). lia.
Qed.

Section Lists.
  Context `{AprFormat}.

Lemma id_list_generate_spec (total : Z) (ids : list Z) (first : bool) (text : cstr) :
  Forall short_id ids → (total < 2 ^ 64)%Z →
  (Z.of_nat (length text) + 10 * Z.of_nat (length ids) +
     Z.of_nat (length ids - (if first then 1 else 0)) ≤ total)%Z →
  id_list_generate_loop total ids first text =
    Some (text ++ (if first then [] else match ids with [] => [] | _ => [","%char] end)
               ++ comma_join ids).
Proof.
  intros Hids Ht. revert first text. induction Hids as [|id ids Hid Hids IH]; intros first text Hr.
  { simpl. by destruct first; rewrite ?app_nil_r. }
  cbn [id_list_generate_loop]. destruct (short_id_text id Hid) as [_ Hlen].
  set (text1 := if first then text else text ++ [","%char]).
  assert (Hl1 : (Z.of_nat (length text1) + 10 * Z.of_nat (S (length ids)) +
                 Z.of_nat (length ids) ≤ total)%Z).
  { subst text1. destruct first; rewrite ?length_app; simpl in *; lia. }
  rewrite wrap_u_small by lia. rewrite apr_snprintf_d_fits by (fold (id_text id); lia).
  fold (id_text id). cbn [fst snd]. rewrite decide_False by lia.
  rewrite Nat2Z.id, firstn_all, IH by (rewrite length_app; simpl; lia). f_equal.
  subst text1. destruct ids as [|id2 ids]; cbn [comma_join]; destruct first;
    rewrite ?app_nil_r, <- ?app_assoc; done.
Qed.

Lemma id_list_loop_spec (ids : list Z) (n : nat) (st : apt_text_stream_t) :
  Forall short_id ids → length ids ≤ n → stream_wf st → window st = comma_join ids →
  isdigit (hd_char (drop (end_ st) (mem st))) = false → id_list_loop n st = ids.
Proof.
  intros Hids. revert n st. induction Hids as [|id ids Hid Hids IH]; intros n st Hn Hwf Hw Hd.
  { destruct n; [done|]. cbn [id_list_loop].
    destruct (field_read_last st ","%char [] Hwf Hw) as (f & -> & _); [apply not_elem_of_nil|done|done]. }
  simpl in Hn. destruct n as [|n]; [lia|]. cbn [id_list_loop].
  assert (Hc : ","%char ∉ id_text id) by (by apply id_text_not_elem).
  assert (Hh : head (id_text id) ≠ Some APT_TOKEN_SP) by apply head_field_not_sp, id_text_ok.
  assert (Hne : id_text id ≠ []) by apply id_text_ok.
  assert (Hid32 : (0 ≤ id < 2 ^ 32)%Z) by (unfold short_id in Hid; lia).
  pose proof (drop_pos_window st Hwf) as Hdrop. rewrite Hw in Hdrop.
  pose proof (window_length st Hwf) as Hl. rewrite Hw in Hl.
  assert (∀ field rest, buf field = Some (id_text id ++ rest) → isdigit (hd_char rest) = false →
    mrcp_request_id_parse field = id) as Hparse.
  { intros field rest Hb Hr. unfold mrcp_request_id_parse. rewrite Hb.
    destruct (short_id_text id Hid) as [-> _]. rewrite atol_dec_u by (unfold LONG_MAX; lia || done).
    by apply wrap_u_small. }
  destruct ids as [|id2 ids]; cbn [comma_join] in *.
  - destruct (field_read_last st ","%char _ Hwf Hw Hc Hh) as (f & -> & _ & _ & Hb).
    rewrite bool_decide_eq_true_2 by done. unfold ptr in Hb. rewrite Hdrop in Hb.
    f_equal; [by eapply Hparse|]. apply IH; [lia| | |done].
    + destruct Hwf. split; simpl; lia.
    + rewrite window_with_pos, Hw. by apply drop_ge.
  - destruct (field_read_exact st ","%char _ _ Hwf Hw Hc Hh) as (f & -> & _ & _ & Hb); [done|].
    rewrite length_app in Hl. simpl in Hl.
    rewrite bool_decide_eq_true_2 by done. unfold ptr in Hb. rewrite Hdrop, <- app_assoc in Hb.
    f_equal; [by eapply Hparse|]. apply IH; [simpl in *; lia| | |done].
    + destruct Hwf. split; simpl; lia.
    + by rewrite window_with_pos, Hw, <- drop_drop, drop_app_length.
Qed.

Lemma request_id_list_parse_generate (ids : list Z) :
  Forall short_id ids → length ids ≤ MAX_ACTIVE_REQUEST_ID_COUNT →
  ∃ v, mrcp_request_id_list_generate ids = Some v ∧ mrcp_request_id_list_parse v = ids.
Proof.
  intros Hids Hn. unfold mrcp_request_id_list_generate.
  rewrite id_list_generate_spec; [|done|case_decide; lia|case_decide; simpl; lia].
  eexists. split; [done|]. simpl. unfold mrcp_request_id_list_parse.
  apply id_list_loop_spec; [done|done| | |].
  - by apply stream_of_str_wf.
  - rewrite window_stream_of_str. apply chars_str_of.
  - simpl. by rewrite drop_ge.
Qed.

(** An Active-Request-Id-List with a single identifier of 10 digits is
    truncated: the buffer size given to [apr_snprintf] has no room for the
    terminating NUL, so at most 9 of the 10 digits are kept. *)
Theorem request_id_list_truncates (id : Z) (Hid : (10 ^ 9 ≤ id < 2 ^ 31)%Z) :
  ∃ v, mrcp_request_id_list_generate [id] = Some v ∧ len v ≤ 9 ∧ length (dec_u id) = 10.
Proof.
  unfold mrcp_request_id_list_generate. cbn [length id_list_generate_loop].
  replace (usz _) with 10%Z by done. set (out := apr_snprintf_d 10 (i32 id)).
  pose proof (apr_snprintf_d_bound 10 (i32 id) ltac:(lia)) as Hb.
  pose proof (apr_snprintf_d_count 10 (i32 id) ltac:(lia)) as Hc. fold out in Hb, Hc.
  rewrite decide_False by lia. eexists. split; [done|]. cbn [app len str_of]. split.
  - rewrite length_take. lia.
  - apply Nat2Z.inj. apply dec_u_length; lia.
Qed.

End Lists.

Lemma request_id_list_truncates_witness :
  ∃ v, mrcp_request_id_list_generate [1234567890%Z] = Some v ∧ len v ≤ 9 ∧
    length (dec_u 1234567890) = 10.
Proof. apply request_id_list_truncates. lia. Defined.

(** ** The fields *)

Definition pairs_chars (arr : list apt_pair_t) : list (cstr * cstr) := pair_chars <$> arr.

(** [h] and [h'] agree on the field [f]. *)
Definition same_field (f : mrcp_generic_header_id) (h h' : mrcp_generic_header_t) : Prop :=
  match f with
  | GENERIC_HEADER_ACTIVE_REQUEST_ID_LIST => active_request_id_list h' = active_request_id_list h
  | GENERIC_HEADER_PROXY_SYNC_ID => proxy_sync_id h' = proxy_sync_id h
  | GENERIC_HEADER_ACCEPT_CHARSET => accept_charset h' = accept_charset h
  | GENERIC_HEADER_CONTENT_TYPE => content_type h' = content_type h
  | GENERIC_HEADER_CONTENT_ID => content_id h' = content_id h
  | GENERIC_HEADER_CONTENT_BASE => content_base h' = content_base h
  | GENERIC_HEADER_CONTENT_ENCODING => content_encoding h' = content_encoding h
  | GENERIC_HEADER_CONTENT_LOCATION => content_location h' = content_location h
  | GENERIC_HEADER_CONTENT_LENGTH => content_length h' = content_length h
  | GENERIC_HEADER_CACHE_CONTROL => cache_control h' = cache_control h
  | GENERIC_HEADER_LOGGING_TAG => logging_tag h' = logging_tag h
  | GENERIC_HEADER_VENDOR_SPECIFIC_PARAMS =>
      pairs_chars <$> vendor_specific_params h' = pairs_chars <$> vendor_specific_params h
  | GENERIC_HEADER_ACCEPT => accept h' = accept h
  | GENERIC_HEADER_FETCH_TIMEOUT => fetch_timeout h' = fetch_timeout h
  | GENERIC_HEADER_SET_COOKIE => set_cookie h' = set_cookie h
  | GENERIC_HEADER_SET_COOKIE2 => set_cookie2 h' = set_cookie2 h
  end.

(** The values that have a text of their own. *)
Definition field_sound (f : mrcp_generic_header_id) (h : mrcp_generic_header_t) : Prop :=
  match f with
  | GENERIC_HEADER_ACTIVE_REQUEST_ID_LIST =>
      Forall short_id (active_request_id_list h) ∧
      length (active_request_id_list h) ≤ MAX_ACTIVE_REQUEST_ID_COUNT
  | GENERIC_HEADER_CONTENT_LENGTH => (0 ≤ content_length h < 2 ^ 63)%Z
  | GENERIC_HEADER_FETCH_TIMEOUT => (0 ≤ fetch_timeout h < 2 ^ 63)%Z
  | GENERIC_HEADER_VENDOR_SPECIFIC_PARAMS =>
      ∃ arr, vendor_specific_params h = Some arr ∧ Forall pair_ok arr
  | _ => True
  end.

Lemma generic_header_of_num_num (f : mrcp_generic_header_id) :
  generic_header_of_num (generic_header_num f) = Some f.
Proof. by destruct f. Qed.

Section Fields.
  Context `{AprFormat}.

Lemma size_value_roundtrip (v : Z) :
  (0 ≤ v < 2 ^ 63)%Z → apt_size_value_parse (apt_size_value_generate v) = v.
Proof.
  intros Hv. unfold apt_size_value_parse, apt_size_value_generate. simpl.
  rewrite apr_psprintf_u_spec by lia. rewrite <- (app_nil_r (dec_u v)).
  rewrite atol_dec_u by (unfold LONG_MAX; lia || done). apply wrap_u_small. lia.
Qed.

(** Every generic header field is read back from its text.  For each of the
    sixteen fields, parsing the generated value gives the field the value it
    was generated from and leaves all other fields alone; numbers are taken
    below 2^63, request identifiers up to nine digits and at most five of
    them, and vendor-specific parameters with separator-free names and
    values. *)
Theorem generic_header_roundtrip (fresh : apt_pair_t) (h h0 : mrcp_generic_header_t)
  (f g : mrcp_generic_header_id) (v0 : apt_str_t)
  (Hok : field_sound f h) (Hnew : vendor_specific_params h0 = None) :
  ∃ h', mrcp_generic_header_parse fresh h0 (generic_header_num f)
          (mrcp_generic_header_generate h (generic_header_num f) v0) = (true, h') ∧
    same_field f h h' ∧ (g ≠ f → same_field g h0 h').
Proof.
  unfold mrcp_generic_header_parse, mrcp_generic_header_generate.
  rewrite !generic_header_of_num_num.
  destruct f; try (eexists; split; [reflexivity|]; split; [done|]; by destruct g).
  - destruct Hok as [Hs Hn].
    destruct (request_id_list_parse_generate _ Hs Hn) as (v & -> & Hp). simpl. rewrite Hp.
    eexists. split; [reflexivity|]. split; [done|]. by destruct g.
  - rewrite size_value_roundtrip by done.
    eexists. split; [reflexivity|]. split; [done|]. by destruct g.
  - destruct Hok as (arr & Hv & Harr). rewrite Hv, Hnew. simpl default.
    destruct (pair_array_roundtrip fresh [] arr Harr) as (out & -> & Hout).
    eexists. split; [reflexivity|]. simpl. rewrite Hv. unfold pairs_chars. simpl.
    rewrite Hout. split; [done|]. by destruct g.
  - rewrite size_value_roundtrip by done.
    eexists. split; [reflexivity|]. split; [done|]. by destruct g.
Qed.

End Fields.

Lemma generic_header_roundtrip_witness :
  let h := set_request_ids [3; 12]%Z mrcp_generic_header_init in
  let f := GENERIC_HEADER_ACTIVE_REQUEST_ID_LIST in
  ∃ h', mrcp_generic_header_parse (mk_pair apt_string_reset apt_string_reset)
          mrcp_generic_header_init (generic_header_num f)
          (mrcp_generic_header_generate h (generic_header_num f) apt_string_reset) = (true, h') ∧
    same_field f h h' ∧
    (GENERIC_HEADER_ACCEPT ≠ f → same_field GENERIC_HEADER_ACCEPT mrcp_generic_header_init h').
Proof.
  intros h f. apply generic_header_roundtrip; [|reflexivity].
  split; [|vm_compute; lia].
  repeat first [apply List.Forall_nil | apply List.Forall_cons]; unfold short_id; lia.
Defined.

(** The list of active requests never holds more than five identifiers.
    Appending succeeds, and makes the identifier found, exactly while the list
    is not full; a full list is left as it is. *)
Theorem active_request_id_list_append_spec (h : mrcp_generic_header_t) (id : Z)
  (Hn : length (active_request_id_list h) ≤ MAX_ACTIVE_REQUEST_ID_COUNT) :
  let '(ok, h') := active_request_id_list_append h id in
  ok = bool_decide (length (active_request_id_list h) < MAX_ACTIVE_REQUEST_ID_COUNT) ∧
  length (active_request_id_list h') ≤ MAX_ACTIVE_REQUEST_ID_COUNT ∧
  (∀ id', active_request_id_list_find h' id' =
     active_request_id_list_find h id' || (ok && bool_decide (id' = id))).
Proof.
  unfold active_request_id_list_append. case_decide as Hd.
  - split_and!; [symmetry; apply bool_decide_eq_false; lia|done|].
    intros id'. by rewrite orb_false_r.
  - split_and!; [symmetry; apply bool_decide_eq_true; lia|simpl; rewrite length_app; simpl; lia|].
    intros id'. unfold active_request_id_list_find. simpl. rewrite <- bool_decide_or.
    apply bool_decide_ext. rewrite elem_of_app, list_elem_of_singleton. done.
Qed.

Lemma active_request_id_list_append_witness :
  let h := set_request_ids [1; 2; 3; 4; 5]%Z mrcp_generic_header_init in
  let '(ok, h') := active_request_id_list_append h 6 in
  ok = bool_decide (length (active_request_id_list h) < MAX_ACTIVE_REQUEST_ID_COUNT) ∧
  length (active_request_id_list h') ≤ MAX_ACTIVE_REQUEST_ID_COUNT ∧
  (∀ id', active_request_id_list_find h' id' =
     active_request_id_list_find h id' || (ok && bool_decide (id' = 6%Z))).
Proof. intros h. apply (active_request_id_list_append_spec h 6). vm_compute. lia. Defined.
