(* ===== verification/MrcpMessage.v ===== *)
(** * MrcpMessage: [mrcp_header_accessor.c], [mrcp_header.c], [mrcp_message.c],
    [mrcp_resource_factory.c] and [mrcp_stream.c]: MRCP messages, their headers
    and the handlers that plug them into the text message parser and generator.

    A resource brings its own header fields through a vtable; their data has
    the type [R].  [fresh] is the storage [apr_array_push] hands out, and
    [uninit] the value of [method_id] in a new message, which
    [mrcp_message_create] does not assign. *)
From S2P Require Import Prelude CString StringTable TextStream StartLine HeaderSection.
From S2P Require Import TextMessage GenericHeader.

(** ** Header accessors *)

Record mrcp_header_vtable_t (D : Type) := mk_vtable {
  allocate : D;
  parse_field : D → nat → apt_str_t → bool * D;
  generate_field : D → nat → apt_str_t → bool * apt_str_t;
  duplicate_field : D → D → nat → apt_str_t → bool * D;
  field_table : list apt_str_table_item_t;
  field_count : nat
}.
Arguments mk_vtable {D}.
Arguments allocate {D}.
Arguments parse_field {D}.
Arguments generate_field {D}.
Arguments duplicate_field {D}.
Arguments field_table {D}.
Arguments field_count {D}.

Record mrcp_header_accessor_t (D : Type) := mk_accessor {
  acc_data : option D;
  acc_vtable : option (mrcp_header_vtable_t D)
}.
Arguments mk_accessor {D}.
Arguments acc_data {D}.
Arguments acc_vtable {D}.

Section Accessor.
  Context {D : Type}.

Definition mrcp_header_accessor_init : mrcp_header_accessor_t D := mk_accessor None None.

Definition mrcp_header_allocate (acc : mrcp_header_accessor_t D) : mrcp_header_accessor_t D :=
  match acc_data acc, acc_vtable acc with
  | Some _, _ => acc
  | None, None => acc
  | None, Some vt => mk_accessor (Some (allocate vt)) (Some vt)
  end.

(** The result, the accessor and the header field, whose [id] is assigned as
    soon as its name is found, also when its value is then refused. *)
Definition mrcp_header_field_value_parse (acc : mrcp_header_accessor_t D)
    (f : apt_header_field_t) : res (bool * mrcp_header_accessor_t D * apt_header_field_t) :=
  match acc_vtable acc with
  | None => Ok (false, acc, f)
  | Some vt =>
      let id := apt_string_table_id_find (field_table vt) (field_count vt) (field_name f) in
      if decide (field_count vt ≤ id) then Ok (false, acc, f)
      else
        let f := set_field_id f (Z.of_nat id) in
        if decide (len (field_value f) = 0) then Ok (true, acc, f)
        else
          data ← deref (acc_data acc);
          let '(ok, data) := parse_field vt data id (field_value f) in
          Ok (ok, mk_accessor (Some data) (Some vt), f)
  end.

(** A NULL result is [None]. *)
Definition mrcp_header_field_value_generate (acc : mrcp_header_accessor_t D) (id : nat)
    (empty_value : bool) : res (option apt_header_field_t) :=
  match acc_vtable acc with
  | None => Ok None
  | Some vt =>
      let f := apt_header_field_alloc in
      let f := match apt_string_table_str_get (field_table vt) (field_count vt) id with
               | Some name => set_field_name f name
               | None => f
               end in
      if empty_value then Ok (Some f)
      else
        data ← deref (acc_data acc);
        let '(ok, value) := generate_field vt data id (field_value f) in
        Ok (if ok : bool then Some (set_field_value f value) else None)
  end.

(** The vtables return FALSE when one of the two headers has no data. *)
Definition mrcp_header_field_value_duplicate (acc src : mrcp_header_accessor_t D) (id : nat)
    (value : apt_str_t) : bool * mrcp_header_accessor_t D :=
  match acc_vtable acc with
  | None => (false, acc)
  | Some vt =>
      if decide (len value = 0) then (true, acc)
      else
        match acc_data acc, acc_data src with
        | Some d, Some s =>
            let '(ok, d) := duplicate_field vt d s id value in
            (ok, mk_accessor (Some d) (Some vt))
        | _, _ => (false, acc)
        end
  end.

End Accessor.

Record mrcp_channel_id := mk_channel_id { session_id : apt_str_t; resource_name : apt_str_t }.

Definition MRCP_CHANNEL_ID : cstr := lit "Channel-Identifier".

Section Message.
  Context `{AprFormat} {R : Type} (fresh : apt_pair_t) (uninit : nat).

Definition generic_vtable : mrcp_header_vtable_t mrcp_generic_header_t :=
  mk_vtable mrcp_generic_header_init (mrcp_generic_header_parse fresh)
    (λ h id v, (true, mrcp_generic_header_generate h id v))
    mrcp_generic_header_duplicate generic_header_string_table GENERIC_HEADER_COUNT.

Definition mrcp_generic_header_vtable_get (v : mrcp_version_e) := generic_vtable.

(** ** Message headers *)

Record mrcp_message_header_t := mk_header {
  generic_header_accessor : mrcp_header_accessor_t mrcp_generic_header_t;
  resource_header_accessor : mrcp_header_accessor_t R;
  header_section : apt_header_section_t
}.

Definition with_section (h : mrcp_message_header_t) (s : apt_header_section_t) :=
  mk_header (generic_header_accessor h) (resource_header_accessor h) s.

Definition mrcp_message_header_init : mrcp_message_header_t :=
  mk_header mrcp_header_accessor_init mrcp_header_accessor_init apt_header_section_init.

Definition mrcp_message_header_data_alloc (h : mrcp_message_header_t)
    (gvt : mrcp_header_vtable_t mrcp_generic_header_t) (rvt : mrcp_header_vtable_t R)
    : mrcp_message_header_t :=
  mk_header (mrcp_header_allocate (mk_accessor None (Some gvt)))
    (mrcp_header_allocate (mk_accessor None (Some rvt)))
    (apt_header_section_array_alloc (header_section h)
       (field_count gvt + field_count rvt)).2.

Definition mrcp_message_header_create (gvt : mrcp_header_vtable_t mrcp_generic_header_t)
    (rvt : mrcp_header_vtable_t R) : mrcp_message_header_t :=
  mrcp_message_header_data_alloc
    (mk_header mrcp_header_accessor_init mrcp_header_accessor_init apt_header_section_init) gvt rvt.

(** Parse the value of a field with the resource header, then with the generic
    one; whether one of them knows the field, the header and the field. *)
Definition field_value_parse (h : mrcp_message_header_t) (f : apt_header_field_t)
    : res (bool * mrcp_message_header_t * apt_header_field_t) :=
  '(ok, racc, f) ← mrcp_header_field_value_parse (resource_header_accessor h) f;
  let h := mk_header (generic_header_accessor h) racc (header_section h) in
  if (ok : bool) then
    Ok (true, h, set_field_id f (usz (field_id f + Z.of_nat GENERIC_HEADER_COUNT)))
  else
    '(ok, gacc, f) ← mrcp_header_field_value_parse (generic_header_accessor h) f;
    Ok (ok, mk_header gacc (resource_header_accessor h) (header_section h), f).

Definition mrcp_header_field_add (h : mrcp_message_header_t) (f : apt_header_field_t)
    : res (bool * mrcp_message_header_t) :=
  if apt_string_is_empty (field_name f) then Ok (false, h)
  else
    '(_, h, f) ← field_value_parse h f;
    let '(ok, s) :=
      apt_header_section_field_add (header_section h) (fresh_loc (header_section h)) f in
    Ok (ok, with_section h s).

(** One iteration of [mrcp_header_fields_parse], on the field at [l]. *)
Definition fields_parse_step (h : mrcp_message_header_t) (l : loc)
    : res mrcp_message_header_t :=
  f ← deref (field_at (header_section h) l);
  '(known, h, f) ← field_value_parse h f;
  let s := field_update (header_section h) l (λ _, f) in
  Ok (with_section h (if known : bool then (apt_header_section_field_set s l f).2 else s)).

Fixpoint fields_parse_loop (h : mrcp_message_header_t) (ls : list loc)
    : res mrcp_message_header_t :=
  match ls with
  | [] => Ok h
  | l :: ls => h ← fields_parse_step h l; fields_parse_loop h ls
  end.

Definition mrcp_header_fields_parse (h : mrcp_message_header_t) : res mrcp_message_header_t :=
  fields_parse_loop h (fst <$> ring (header_section h)).

Definition mrcp_header_accessor_value_duplicate (h src : mrcp_message_header_t)
    (f : apt_header_field_t) : mrcp_message_header_t :=
  if decide (field_id f < Z.of_nat GENERIC_HEADER_COUNT)%Z then
    mk_header (mrcp_header_field_value_duplicate (generic_header_accessor h)
                 (generic_header_accessor src) (Z.to_nat (field_id f)) (field_value f)).2
      (resource_header_accessor h) (header_section h)
  else
    mk_header (generic_header_accessor h)
      (mrcp_header_field_value_duplicate (resource_header_accessor h)
         (resource_header_accessor src)
         (Z.to_nat (field_id f - Z.of_nat GENERIC_HEADER_COUNT)) (field_value f)).2
      (header_section h).

(** Append a field to the section, at a new address. *)
Definition section_append (h : mrcp_message_header_t) (f : apt_header_field_t)
    : mrcp_message_header_t :=
  with_section h
    (apt_header_section_field_add (header_section h) (fresh_loc (header_section h)) f).2.

Definition fields_set_step (src : mrcp_message_header_t) (h : mrcp_message_header_t)
    (sf : apt_header_field_t) : res mrcp_message_header_t :=
  match apt_header_section_field_get (header_section h) (field_id sf) with
  | Some l =>
      f ← deref (field_at (header_section h) l);
      let f := set_field_value f (apt_string_copy (field_value sf)) in
      let h := with_section h (field_update (header_section h) l (λ _, f)) in
      Ok (mrcp_header_accessor_value_duplicate h src f)
  | None =>
      let f := apt_header_field_copy sf in
      Ok (mrcp_header_accessor_value_duplicate (section_append h f) src f)
  end.

Definition fields_inherit_step (src : mrcp_message_header_t) (h : mrcp_message_header_t)
    (sf : apt_header_field_t) : mrcp_message_header_t :=
  match apt_header_section_field_get (header_section h) (field_id sf) with
  | Some _ => h
  | None =>
      let f := apt_header_field_copy sf in
      section_append (mrcp_header_accessor_value_duplicate h src f) f
  end.

Definition fields_get_step (src : mrcp_message_header_t) (h : mrcp_message_header_t)
    (mf : apt_header_field_t) : res mrcp_message_header_t :=
  match apt_header_section_field_get (header_section h) (field_id mf) with
  | Some _ => Ok h
  | None =>
      match apt_header_section_field_get (header_section src) (field_id mf) with
      | Some l =>
          sf ← deref (field_at (header_section src) l);
          let f := apt_header_field_copy sf in
          Ok (section_append (mrcp_header_accessor_value_duplicate h src f) f)
      | None => Ok (section_append h (apt_header_field_copy mf))
      end
  end.

(** Fold a step over fields. *)
Fixpoint fold_fields (step : mrcp_message_header_t → apt_header_field_t → res mrcp_message_header_t)
    (h : mrcp_message_header_t) (fs : list apt_header_field_t) : res mrcp_message_header_t :=
  match fs with
  | [] => Ok h
  | f :: fs => h ← step h f; fold_fields step h fs
  end.

Definition section_fields (h : mrcp_message_header_t) : list apt_header_field_t :=
  snd <$> ring (header_section h).

Definition mrcp_header_fields_set (h src : mrcp_message_header_t) : res mrcp_message_header_t :=
  fold_fields (fields_set_step src) h (section_fields src).
Definition mrcp_header_fields_get (h src mask : mrcp_message_header_t)
    : res mrcp_message_header_t :=
  fold_fields (fields_get_step src) h (section_fields mask).
Definition mrcp_header_fields_inherit (h src : mrcp_message_header_t)
    : mrcp_message_header_t :=
  foldl (fields_inherit_step src) h (section_fields src).

(** ** Channel identifiers *)

Definition mrcp_channel_id_init : mrcp_channel_id :=
  mk_channel_id apt_string_reset apt_string_reset.

(** The loop of [mrcp_channel_id_parse]: the first field with a value and a
    name that starts with the name of the header. *)
Fixpoint channel_id_find (r : list (loc * apt_header_field_t))
    : option (loc * apt_header_field_t) :=
  match r with
  | [] => None
  | (l, f) :: r =>
      if decide (len (field_value f) ≠ 0 ∧
                 strncasecmp_eq (default [] (buf (field_name f))) MRCP_CHANNEL_ID
                   (length MRCP_CHANNEL_ID) = true)
      then Some (l, f) else channel_id_find r
  end.

Definition mrcp_channel_id_parse (c : mrcp_channel_id) (h : mrcp_message_header_t)
    : res (bool * mrcp_channel_id * mrcp_message_header_t) :=
  match channel_id_find (ring (header_section h)) with
  | None => Ok (false, c, h)
  | Some (l, f) =>
      r ← apt_id_resource_parse (field_value f) "@"%char;
      let c := match r with Some (id, resource) => mk_channel_id id resource | None => c end in
      Ok (true, c, with_section h (apt_header_section_field_remove (header_section h) l f))
  end.

Definition mrcp_channel_id_generate (c : mrcp_channel_id) (st : apt_text_stream_t)
    : res (bool * apt_text_stream_t) :=
  if decide (end_ st ≤ pos st + length MRCP_CHANNEL_ID + 2 + len (session_id c) + 1 +
               len (resource_name c)) then Ok (false, st)
  else
    st ← put_all st MRCP_CHANNEL_ID;
    st ← put st ":"%char;
    st ← put st APT_TOKEN_SP;
    st ← put_all st (chars (session_id c));
    st ← put st "@"%char;
    st ← put_all st (chars (resource_name c));
    apt_text_eol_insert st.

(** ** Resources *)

Record mrcp_resource_t := mk_resource {
  res_id : nat;
  res_name : apt_str_t;
  get_method_str_table : mrcp_version_e → list apt_str_table_item_t;
  method_count : nat;
  get_event_str_table : mrcp_version_e → list apt_str_table_item_t;
  event_count : nat;
  get_resource_header_vtable : mrcp_version_e → mrcp_header_vtable_t R
}.

(** The hash of the factory, keyed by the characters of the name; the newest
    entry first. *)
Record mrcp_resource_factory_t := mk_factory {
  resource_array : list (option mrcp_resource_t);
  resource_hash : list (cstr * mrcp_resource_t)
}.

Definition mrcp_resource_factory_create (count : nat) : option mrcp_resource_factory_t :=
  if decide (count = 0) then None else Some (mk_factory (replicate count None) []).

Definition mrcp_resource_validate (r : mrcp_resource_t) : bool :=
  bool_decide (method_count r ≠ 0 ∧ event_count r ≠ 0 ∧ is_Some (buf (res_name r)) ∧
               len (res_name r) ≠ 0).

Definition mrcp_resource_register (rf : mrcp_resource_factory_t) (r : mrcp_resource_t)
    : bool * mrcp_resource_factory_t :=
  if decide (length (resource_array rf) ≤ res_id r) then (false, rf)
  else
    match resource_array rf !! res_id r with
    | Some (Some _) => (false, rf)
    | _ =>
        if mrcp_resource_validate r then
          (true, mk_factory (<[res_id r := Some r]> (resource_array rf))
                   ((chars (res_name r), r) :: resource_hash rf))
        else (false, rf)
    end.

Definition mrcp_resource_get (rf : mrcp_resource_factory_t) (id : nat) : option mrcp_resource_t :=
  mjoin (resource_array rf !! id).

Definition mrcp_resource_find (rf : mrcp_resource_factory_t) (name : apt_str_t)
    : option mrcp_resource_t :=
  match buf name with
  | None => None
  | Some _ =>
      if decide (len name = 0) then None
      else snd <$> (snd <$> list_find (λ p, p.1 = chars name) (resource_hash rf))
  end.

(** ** Messages *)

Record mrcp_message_t := mk_message {
  start_line : mrcp_start_line_t;
  channel_id : mrcp_channel_id;
  header : mrcp_message_header_t;
  body : apt_str_t;
  resource : option mrcp_resource_t
}.

Definition with_start_line (m : mrcp_message_t) (sl : mrcp_start_line_t) :=
  mk_message sl (channel_id m) (header m) (body m) (resource m).
Definition with_channel_id (m : mrcp_message_t) (c : mrcp_channel_id) :=
  mk_message (start_line m) c (header m) (body m) (resource m).
Definition with_header (m : mrcp_message_t) (h : mrcp_message_header_t) :=
  mk_message (start_line m) (channel_id m) h (body m) (resource m).
Definition with_body (m : mrcp_message_t) (b : apt_str_t) :=
  mk_message (start_line m) (channel_id m) (header m) b (resource m).
Definition with_resource (m : mrcp_message_t) (r : option mrcp_resource_t) :=
  mk_message (start_line m) (channel_id m) (header m) (body m) r.

Definition mrcp_message_create : mrcp_message_t :=
  mk_message
    (mrcp_start_line_init (mk_start_line MRCP_MESSAGE_TYPE_UNKNOWN MRCP_VERSION_UNKNOWN 0 0
       apt_string_reset uninit 0 MRCP_REQUEST_STATE_UNKNOWN))
    mrcp_channel_id_init mrcp_message_header_init apt_string_reset None.

Definition message_data_alloc (m : mrcp_message_t) (r : mrcp_resource_t) : mrcp_message_t :=
  let v := version (start_line m) in
  with_header m (mrcp_message_header_data_alloc (header m) (mrcp_generic_header_vtable_get v)
                   (get_resource_header_vtable r v)).

(** The name of the method or event of a message, from its identifier. *)
Definition mrcp_message_resource_set_by_id (m : mrcp_message_t) (r : option mrcp_resource_t)
    : bool * mrcp_message_t :=
  match r with
  | None => (false, m)
  | Some r =>
      let c := mk_channel_id (session_id (channel_id m)) (res_name r) in
      let m := message_data_alloc (with_channel_id (with_resource m (Some r)) c) r in
      let sl := start_line m in
      let named name :=
        match name with
        | None => (false, m)
        | Some n => (true, with_start_line m (set_method_name sl n))
        end in
      match message_type sl with
      | MRCP_MESSAGE_TYPE_REQUEST =>
          named (apt_string_table_str_get (get_method_str_table r (version sl))
                   (method_count r) (method_id sl))
      | MRCP_MESSAGE_TYPE_EVENT =>
          named (apt_string_table_str_get (get_event_str_table r (version sl))
                   (event_count r) (method_id sl))
      | _ => (true, m)
      end
  end.

(** The identifier of the method or event of a message, from its name. *)
Definition mrcp_message_resource_set (m : mrcp_message_t) (r : option mrcp_resource_t)
    : bool * mrcp_message_t :=
  match r with
  | None => (false, m)
  | Some r =>
      let m := message_data_alloc (with_resource m (Some r)) r in
      let sl := start_line m in
      let identified id count :=
        (bool_decide (id < count), with_start_line m (set_method_id sl id)) in
      match message_type sl with
      | MRCP_MESSAGE_TYPE_REQUEST =>
          identified (apt_string_table_id_find (get_method_str_table r (version sl))
                        (method_count r) (method_name sl)) (method_count r)
      | MRCP_MESSAGE_TYPE_EVENT =>
          identified (apt_string_table_id_find (get_event_str_table r (version sl))
                        (event_count r) (method_name sl)) (event_count r)
      | _ => (true, m)
      end
  end.

Definition mrcp_request_create (r : option mrcp_resource_t) (v : mrcp_version_e)
    (mid : nat) : mrcp_message_t :=
  let m := mrcp_message_create in
  let sl := set_method_id (set_version (set_message_type (start_line m)
              MRCP_MESSAGE_TYPE_REQUEST) v) mid in
  (mrcp_message_resource_set_by_id (with_start_line m sl) r).2.

Definition mrcp_response_create (req : option mrcp_message_t) : mrcp_message_t :=
  let m := mrcp_message_create in
  let sl := set_status_code (set_request_state (set_message_type (start_line m)
              MRCP_MESSAGE_TYPE_RESPONSE) MRCP_REQUEST_STATE_COMPLETE)
              MRCP_STATUS_CODE_SUCCESS in
  match req with
  | None => with_start_line m sl
  | Some q =>
      let sl := set_method_name (set_method_id (set_version (set_request_id sl
                  (request_id (start_line q))) (version (start_line q)))
                  (method_id (start_line q))) (method_name (start_line q)) in
      (mrcp_message_resource_set_by_id
         (with_start_line (with_channel_id m (channel_id q)) sl) (resource q)).2
  end.

Definition mrcp_event_create (req : option mrcp_message_t) (event_id : nat) : mrcp_message_t :=
  let m := mrcp_message_create in
  let sl := set_method_id (set_message_type (start_line m) MRCP_MESSAGE_TYPE_EVENT) event_id in
  match req with
  | None => with_start_line m sl
  | Some q =>
      let sl := set_version (set_request_id sl (request_id (start_line q)))
                  (version (start_line q)) in
      (mrcp_message_resource_set_by_id
         (with_start_line (with_channel_id m (channel_id q)) sl) (resource q)).2
  end.

(** *** Properties of the header *)

Definition mrcp_generic_header_get (m : mrcp_message_t) : option mrcp_generic_header_t :=
  acc_data (generic_header_accessor (header m)).

Definition with_generic_accessor (m : mrcp_message_t)
    (acc : mrcp_header_accessor_t mrcp_generic_header_t) : mrcp_message_t :=
  with_header m (mk_header acc (resource_header_accessor (header m)) (header_section (header m))).

Definition mrcp_generic_header_prepare (m : mrcp_message_t) : mrcp_message_t :=
  with_generic_accessor m (mrcp_header_allocate (generic_header_accessor (header m))).

(** Change the generic header data in place. *)
Definition generic_header_update (m : mrcp_message_t)
    (g : mrcp_generic_header_t → mrcp_generic_header_t) : mrcp_message_t :=
  with_generic_accessor m
    (mk_accessor (g <$> acc_data (generic_header_accessor (header m)))
       (acc_vtable (generic_header_accessor (header m)))).

(** Add a generated field ([None] for NULL) to the section. *)
Definition property_add (m : mrcp_message_t) (f : option apt_header_field_t) (id : Z)
    : bool * mrcp_message_t :=
  match f with
  | None => (false, m)
  | Some f =>
      let s := header_section (header m) in
      let '(ok, s) := apt_header_section_field_add s (fresh_loc s) (set_field_id f id) in
      (ok, with_header m (with_section (header m) s))
  end.

Definition mrcp_generic_header_property_add (m : mrcp_message_t) (id : nat)
    : res (bool * mrcp_message_t) :=
  f ← mrcp_header_field_value_generate (generic_header_accessor (header m)) id false;
  Ok (property_add m f (Z.of_nat id)).
Definition mrcp_generic_header_name_property_add (m : mrcp_message_t) (id : nat)
    : res (bool * mrcp_message_t) :=
  f ← mrcp_header_field_value_generate (generic_header_accessor (header m)) id true;
  Ok (property_add m f (Z.of_nat id)).
Definition mrcp_resource_header_property_add (m : mrcp_message_t) (id : nat)
    : res (bool * mrcp_message_t) :=
  f ← mrcp_header_field_value_generate (resource_header_accessor (header m)) id false;
  Ok (property_add m f (Z.of_nat (id + GENERIC_HEADER_COUNT))).
Definition mrcp_resource_header_name_property_add (m : mrcp_message_t) (id : nat)
    : res (bool * mrcp_message_t) :=
  f ← mrcp_header_field_value_generate (resource_header_accessor (header m)) id true;
  Ok (property_add m f (Z.of_nat (id + GENERIC_HEADER_COUNT))).

Definition mrcp_generic_header_property_check (m : mrcp_message_t) (id : nat) : bool :=
  apt_header_section_field_check (header_section (header m)) (Z.of_nat id).

Definition mrcp_resource_header_get (m : mrcp_message_t) : option R :=
  acc_data (resource_header_accessor (header m)).

Definition with_resource_accessor (m : mrcp_message_t)
    (acc : mrcp_header_accessor_t R) : mrcp_message_t :=
  with_header m (mk_header (generic_header_accessor (header m)) acc (header_section (header m))).

Definition mrcp_resource_header_prepare (m : mrcp_message_t) : mrcp_message_t :=
  with_resource_accessor m (mrcp_header_allocate (resource_header_accessor (header m))).

Definition mrcp_resource_header_property_check (m : mrcp_message_t) (id : nat) : bool :=
  apt_header_section_field_check (header_section (header m)) (Z.of_nat (id + GENERIC_HEADER_COUNT)).

Definition property_remove (m : mrcp_message_t) (id : Z) : res (bool * mrcp_message_t) :=
  let s := header_section (header m) in
  match apt_header_section_field_get s id with
  | None => Ok (false, m)
  | Some l =>
      f ← deref (field_at s l);
      Ok (true, with_header m (with_section (header m) (apt_header_section_field_remove s l f)))
  end.
Definition mrcp_generic_header_property_remove (m : mrcp_message_t) (id : nat) :=
  property_remove m (Z.of_nat id).
Definition mrcp_resource_header_property_remove (m : mrcp_message_t) (id : nat) :=
  property_remove m (Z.of_nat (id + GENERIC_HEADER_COUNT)).

Definition mrcp_message_validate (m : mrcp_message_t) : res (bool * mrcp_message_t) :=
  if decide (len (body m) = 0) then Ok (true, m)
  else
    let m := mrcp_generic_header_prepare m in
    let cl := generic_header_num GENERIC_HEADER_CONTENT_LENGTH in
    match mrcp_generic_header_get m with
    | None => Ok (false, m)
    | Some g =>
        if decide (mrcp_generic_header_property_check m cl = false ∨ content_length g = 0%Z) then
          let m := generic_header_update m (set_content_length (Z.of_nat (len (body m)))) in
          '(_, m) ← mrcp_generic_header_property_add m cl; Ok (true, m)
        else Ok (true, m)
    end.

(** ** The stream handlers *)

#[export, program] Instance mrcp_message_context : MessageContext mrcp_message_t := {|
  msg_header m := header_section (header m);
  msg_with_header m s := with_header m (with_section (header m) s);
  msg_body := body;
  msg_with_body := with_body
|}.
Solve Obligations with done.

Record mrcp_parser_t := mk_mrcp_parser {
  parser_factory : mrcp_resource_factory_t;
  parser_resource : option mrcp_resource_t
}.

Definition mrcp_parser_resource_set (p : mrcp_parser_t) (name : apt_str_t) : mrcp_parser_t :=
  mk_mrcp_parser (parser_factory p) (mrcp_resource_find (parser_factory p) name).

Definition mrcp_parser_on_start (p : mrcp_parser_t) (st : apt_text_stream_t)
    : option mrcp_message_t * apt_text_stream_t :=
  match apt_text_line_read st with
  | (false, st, _) => (None, st)
  | (true, st, line) =>
      let m := mrcp_message_create in
      match mrcp_start_line_parse (start_line m) line with
      | (false, _) => (None, st)
      | (true, sl) =>
          let m := with_start_line m sl in
          if decide (version sl = MRCP_VERSION_1) then
            match parser_resource p with
            | None => (None, st)
            | Some r =>
                let m := with_channel_id m (mk_channel_id (session_id (channel_id m))
                           (apt_string_copy (res_name r))) in
                match mrcp_message_resource_set m (Some r) with
                | (false, _) => (None, st)
                | (true, m) => (Some m, st)
                end
            end
          else (Some m, st)
      end
  end.

(** The part of [mrcp_parser_on_header_complete] that finds the resource of an
    MRCPv2 message. *)
Definition header_complete_resource (p : mrcp_parser_t) (m : mrcp_message_t)
    : res (bool * mrcp_message_t) :=
  if decide (version (start_line m) = MRCP_VERSION_2) then
    '(ok, c, h) ← mrcp_channel_id_parse (channel_id m) (header m);
    let m := with_header (with_channel_id m c) h in
    if negb ok then Ok (false, m)
    else
      match mrcp_resource_find (parser_factory p) (resource_name c) with
      | None => Ok (false, m)
      | Some r => Ok (mrcp_message_resource_set m (Some r))
      end
  else Ok (true, m).

Definition mrcp_parser_on_header_complete (p : mrcp_parser_t) (m : mrcp_message_t)
    : res (bool * mrcp_message_t) :=
  '(ok, m) ← header_complete_resource p m;
  if negb ok then Ok (false, m)
  else
    h ← mrcp_header_fields_parse (header m);
    let m := with_header m h in
    if mrcp_generic_header_property_check m (generic_header_num GENERIC_HEADER_CONTENT_LENGTH)
    then
      match mrcp_generic_header_get m with
      | Some g =>
          if decide (content_length g = 0%Z) then Ok (true, m)
          else Ok (true, with_body m (mk_str (buf (body m)) (Z.to_nat (content_length g))))
      | None => Ok (true, m)
      end
    else Ok (true, m).

Definition mrcp_parser_vtable (p : mrcp_parser_t) : apt_message_parser_vtable_t mrcp_message_t :=
  mk_parser_vtable (mrcp_parser_on_start p) (mrcp_parser_on_header_complete p) (λ m, m).

Definition mrcp_parser_run (p : mrcp_parser_t) := apt_message_parser_run (mrcp_parser_vtable p).

Definition mrcp_generator_on_start (m : mrcp_message_t) (st : apt_text_stream_t)
    : res (bool * mrcp_message_t * apt_text_stream_t) :=
  '(ok, m) ← mrcp_message_validate m;
  if negb ok then Ok (false, m, st)
  else
    '(ok, sl, st) ← mrcp_start_line_generate (start_line m) st;
    let m := with_start_line m sl in
    if negb ok then Ok (false, m, st)
    else if decide (version sl = MRCP_VERSION_2) then
      '(_, st) ← mrcp_channel_id_generate (channel_id m) st; Ok (true, m, st)
    else Ok (true, m, st).

Definition mrcp_generator_on_header_complete (m : mrcp_message_t) (st : apt_text_stream_t)
    : res (mrcp_message_t * apt_text_stream_t) :=
  '(_, sl, st) ← mrcp_start_line_finalize (start_line m) (Z.of_nat (len (body m))) st;
  Ok (with_start_line m sl, st).

Definition mrcp_generator_vtable : apt_message_generator_vtable_t mrcp_message_t :=
  mk_generator_vtable mrcp_generator_on_start mrcp_generator_on_header_complete.

Definition mrcp_generator_run := apt_message_generator_run mrcp_generator_vtable.

(** The header part of a message, as RTSP carries it (MRCPv1). *)
Definition mrcp_message_generate (m : mrcp_message_t) (st : apt_text_stream_t)
    : res (bool * mrcp_message_t * apt_text_stream_t) :=
  '(ok, m, st) ← mrcp_generator_on_start m st;
  if negb ok then Ok (false, m, st)
  else
    '(ok, st) ← apt_header_section_generate (header_section (header m)) st;
    if negb ok then Ok (false, m, st)
    else
      '(ok, sl, st) ← mrcp_start_line_finalize (start_line m) (Z.of_nat (len (body m))) st;
      Ok (ok, with_start_line m sl, st).

End Message.
