(* ===== verification/HeaderFields.v ===== *)
(** * HeaderFields: what the header of a resource promises to the messages.

    A resource header is specified as a list of values, one for each of its
    fields.  The kind of a field says how its value is written and read.  The
    class [HeaderSpec] states that a vtable implements such a list: parsing a
    field assigns the value read to that field and to no other, generating a
    field writes the value, duplicating copies it.  That a value which is
    written is read back is proved here once for every kind. *)
From S2P Require Import Prelude CString StringTable TextStream TextStreamTheory TextValues.
From S2P Require Import FloatValue SynthValues MrcpMessage StartLineTheory.
From Stdlib Require Import SpecFloat.

Inductive field_kind :=
  | KSize
  | KBool
  | KText
  | KFloat
  | KPercent
  | KChar
  | KCause (table : list apt_str_table_item_t) (count : nat)
  | KName (table : list apt_str_table_item_t) (count : nat)
  | KLength
  | KVolume
  | KRate.

Inductive field_val :=
  | VNum (n : Z)
  | VBool (b : bool)
  | VText (s : cstr)
  | VFloat (x : float)
  | VChar (c : char)
  | VId (n : nat)
  | VLength (l : mrcp_speech_length_value_t)
  | VVolume (v : mrcp_prosody_volume_t)
  | VRate (r : mrcp_prosody_rate_t).

(** A speech length, up to the storage of its tag. *)
Definition length_view (l : mrcp_speech_length_value_t) : mrcp_speech_length_value_t :=
  mk_speech_length (length_type l)
    match length_value l with
    | SpeechTag tag => SpeechTag (str_of (chars tag))
    | u => u
    end.

Section Kinds.
  Context `{AprFormat} `{AprFloat} (junk : nat).

(** The value of a field after the text [v] was read into it. *)
Definition value_read (k : field_kind) (v : apt_str_t) (old : field_val) : field_val :=
  match k with
  | KSize => VNum (apt_size_value_parse v)
  | KBool => match apt_boolean_value_parse v with Some b => VBool b | None => old end
  | KText => VText (chars v)
  | KFloat => VFloat (apt_float_value_parse v)
  | KPercent => VFloat (apt_size_value_parse_as_float v)
  | KChar => VChar (hd_char (default [] (buf v)))
  | KCause _ _ => VNum (u32 (apt_size_value_parse v))
  | KName t n => VId (apt_string_table_value_parse t n v)
  | KLength =>
      match old with
      | VLength l => VLength (length_view (mrcp_speech_length_value_parse junk l v).2)
      | _ => old
      end
  | KVolume =>
      match old with VVolume x => VVolume (mrcp_prosody_param_volume_parse x v).2 | _ => old end
  | KRate =>
      match old with VRate x => VRate (mrcp_prosody_param_rate_parse x v).2 | _ => old end
  end.

(** The text of a value. *)
Definition value_text (k : field_kind) (x : field_val) : cstr :=
  match k, x with
  | KSize, VNum n => chars (apt_size_value_generate n)
  | KBool, VBool b => chars (apt_boolean_value_generate b)
  | KText, VText s => s
  | KFloat, VFloat f => chars (apt_float_value_generate f)
  | KPercent, VFloat f => chars (apt_size_value_generate_from_float f)
  | KChar, VChar c => [c]
  | KCause t n, VNum c => chars (default apt_string_reset (apt_completion_cause_generate t n (Z.to_nat c)))
  | KName t n, VId i => chars (apt_string_table_value_pgenerate t n i apt_string_reset).2
  | KLength, VLength l => chars (mrcp_speech_length_generate junk l apt_string_reset).2
  | KVolume, VVolume v => chars (mrcp_prosody_volume_generate v apt_string_reset).2
  | KRate, VRate r => chars (mrcp_prosody_rate_generate r apt_string_reset).2
  | _, _ => []
  end.

(** Text that can be the value of a header field. *)
Definition plain_text (s : cstr) : Prop := s ≠ [] ∧ NUL ∉ s ∧ header_value_ok s.

(** Names that tell their identifiers apart, as long as one field. *)
Definition name_table_ok (t : list apt_str_table_item_t) (n : nat) : Prop :=
  n ≤ length t ∧ table_wf (take n t) ∧ names_distinct (take n t) ∧
  Forall (λ it, plain_text (chars (value it))) (take n t).

(** Values that can be sent. *)
Definition value_ok (k : field_kind) (x : field_val) : Prop :=
  match k, x with
  | KSize, VNum n => (0 ≤ n < 2 ^ 63)%Z
  | KBool, VBool _ => True
  | KText, VText s => plain_text s
  | KFloat, VFloat f => float_finite f = true
  | KPercent, VFloat f => from_option (λ n, n < 2 ^ 63)%Z False (percent f)
  | KChar, VChar c => plain_text [c]
  | KCause t n, VNum c => name_table_ok t n ∧ (0 ≤ c < Z.of_nat n)%Z ∧ n ≤ 1000
  | KName t n, VId i => name_table_ok t n ∧ i < n
  | KLength, VLength l =>
      match length_type l, length_value l with
      | SPEECH_LENGTH_TYPE_TEXT, SpeechTag tag =>
          plain_text (chars tag) ∧ tag = str_of (chars tag) ∧
          hd_char (chars tag) ≠ "+"%char ∧ hd_char (chars tag) ≠ "-"%char
      | SPEECH_LENGTH_TYPE_NUMERIC_POSITIVE, SpeechNumeric n u
      | SPEECH_LENGTH_TYPE_NUMERIC_NEGATIVE, SpeechNumeric n u => (0 ≤ n < 2 ^ 63)%Z ∧ u < SPEECH_UNIT_COUNT
      | _, _ => False
      end
  | KVolume, VVolume v =>
      match v with
      | PROSODY_VOLUME_TYPE_LABEL i => i < PROSODY_VOLUME_COUNT
      | PROSODY_VOLUME_TYPE_NUMERIC f | PROSODY_VOLUME_TYPE_RELATIVE_CHANGE f => float_finite f = true
      | PROSODY_VOLUME_TYPE_UNKNOWN _ => False
      end
  | KRate, VRate r =>
      match r with
      | PROSODY_RATE_TYPE_LABEL i => i < PROSODY_RATE_COUNT
      | PROSODY_RATE_TYPE_RELATIVE_CHANGE f => float_finite f = true ∧ float_sign f = false
      | PROSODY_RATE_TYPE_UNKNOWN _ => False
      end
  | _, _ => False
  end.

(** The value [y] the peer reads when [x] was sent.  Floats are written as
    millionths, and the levels of MRCPv1 as whole percents.  A volume is written
    without its type: the peer takes a number with a minus sign for a relative
    change and one without for an absolute volume, whatever it was. *)
Definition value_received (k : field_kind) (x y : field_val) : Prop :=
  match k, x with
  | KFloat, VFloat f => ∃ f', float_received f f' ∧ y = VFloat f'
  | KPercent, VFloat f => ∃ n, percent f = Some n ∧ y = VFloat (F32 SFdiv (float_of_Z n) (float_of_Z 100))
  | KVolume, VVolume (PROSODY_VOLUME_TYPE_NUMERIC f)
  | KVolume, VVolume (PROSODY_VOLUME_TYPE_RELATIVE_CHANGE f) =>
      ∃ f', float_received f f' ∧
        y = VVolume (if float_sign f then PROSODY_VOLUME_TYPE_RELATIVE_CHANGE f' else PROSODY_VOLUME_TYPE_NUMERIC f')
  | KRate, VRate (PROSODY_RATE_TYPE_RELATIVE_CHANGE f) =>
      ∃ f', float_received f f' ∧ y = VRate (PROSODY_RATE_TYPE_RELATIVE_CHANGE f')
  | _, _ => y = x
  end.

End Kinds.

(** ** Decisions *)

#[export] Instance starts_plain_dec (s : cstr) : Decision (starts_plain s).
Proof. destruct s; apply _. Defined.

#[export] Instance plain_text_dec (s : cstr) : Decision (plain_text s).
Proof. unfold plain_text, header_value_ok, no_eol. apply _. Defined.

(** The checks of a name table, to be evaluated. *)
Definition name_table_check (t : list apt_str_table_item_t) (n : nat) : bool :=
  bool_decide (n ≤ length t) &&
  bool_decide (Forall (λ it, len (value it) ≤ length (default [] (buf (value it)))) (take n t)) &&
  bool_decide (NoDup ((λ it, tolower <$> chars (value it)) <$> take n t)) &&
  bool_decide (Forall (λ it, plain_text (chars (value it))) (take n t)).

Lemma name_table_check_ok (t : list apt_str_table_item_t) (n : nat) :
  name_table_check t n = true → name_table_ok t n.
Proof.
  unfold name_table_check. rewrite !andb_true_iff, !bool_decide_eq_true.
  intros [[[Hn Hl] Hd] Hp]. split_and!; [done| |by apply names_distinct_NoDup|done].
  unfold table_wf. rewrite Forall_forall in *. intros it Hit. split; [by apply Hl|apply Hp, Hit].
Qed.

(** ** Written values are read back *)

Lemma str_of_chars_wf (s : cstr) : plain_text s → str_wf (str_of s).
Proof. intros (_ & Hn & _). by apply str_of_wf. Qed.

Lemma plain_digits (s : cstr) : s ≠ [] → Forall (λ c, isdigit c = true) s → plain_text s.
Proof.
  intros Hne Hd. rewrite Forall_forall in Hd.
  assert (Hnot : ∀ c, isdigit c = false → c ∉ s) by (intros c Hc Hin; by rewrite (Hd c Hin) in Hc).
  split_and!; [done|by apply Hnot|split; [split; by apply Hnot|]].
  destruct s as [|c s]; [done|]. simpl. specialize (Hd c ltac:(left)).
  unfold apt_text_is_wsp. rewrite bool_decide_eq_false. intros [->| ->]; by vm_compute in Hd.
Qed.

Lemma name_table_find (t : list apt_str_table_item_t) (n i : nat) :
  name_table_ok t n → i < n →
  ∃ name, apt_string_table_str_get t n i = Some name ∧ str_wf name ∧ plain_text (chars name) ∧
    ∀ v, str_wf v → ci_eq (chars v) (chars name) → apt_string_table_id_find t n v = i.
Proof.
  intros (Hn & Hw & Hd & Hp) Hi. destruct (lookup_lt_is_Some_2 t i) as [it Hit]; [lia|].
  assert (Ht : take n t !! i = Some it) by (by rewrite lookup_take_lt).
  pose proof (Forall_lookup_1 _ _ _ _ Hw Ht) as Hwi. pose proof (Forall_lookup_1 _ _ _ _ Hp Ht) as Hpi.
  exists (value it). unfold apt_string_table_str_get. rewrite decide_True, Hit by done.
  split_and!; [done..|]. intros v Hv Hc. eapply id_find_at; try done. by destruct Hpi.
Qed.

Lemma plain_app (s t : cstr) : plain_text s → NUL ∉ t → no_eol t → plain_text (s ++ t).
Proof.
  intros (Hne & Hn & He & Hp) Ht Hte. split_and!.
  - by destruct s.
  - by apply not_elem_of_app.
  - split; [by apply no_eol_app|by destruct s].
Qed.

(** *** Numbers, booleans and causes *)

Section ReadBack.
  Context `{AprFormat} `{AprFloat} (junk : nat).

Lemma size_text (n : Z) : (0 ≤ n)%Z → chars (apt_size_value_generate n) = dec_u n.
Proof. intros. unfold apt_size_value_generate. by rewrite chars_str_of, apr_psprintf_u_spec. Qed.

Lemma dec_u_plain (n : Z) : (0 ≤ n)%Z → plain_text (dec_u n).
Proof. intros. apply plain_digits; [apply dec_u_nonempty|by apply dec_u_digits]. Qed.

Lemma size_read_back (n : Z) (rest : cstr) (k : nat) :
  (0 ≤ n < 2 ^ 63)%Z → isdigit (hd_char rest) = false →
  apt_size_value_parse (mk_str (Some (dec_u n ++ rest)) k) = n.
Proof.
  intros Hn Hr. unfold apt_size_value_parse. simpl.
  rewrite atol_dec_u by (done || unfold LONG_MAX; lia). apply wrap_u_small. lia.
Qed.

Lemma size_read_back_nil (n : Z) :
  (0 ≤ n < 2 ^ 63)%Z → apt_size_value_parse (str_of (dec_u n)) = n.
Proof.
  intros Hn. pose proof (size_read_back n [] (length (dec_u n)) Hn eq_refl) as E.
  by rewrite app_nil_r in E.
Qed.

Lemma bool_read_back (b : bool) :
  apt_boolean_value_parse (str_of (chars (apt_boolean_value_generate b))) = Some b.
Proof. by destruct b. Qed.

Lemma bool_plain (b : bool) : plain_text (chars (apt_boolean_value_generate b)).
Proof. destruct b; apply (bool_decide_unpack _); vm_compute; exact I. Qed.

Lemma dec_pad3_length (n : Z) : (0 ≤ n < 1000)%Z → length (dec_pad3 n) = 4.
Proof.
  intros Hn. unfold dec_pad3. destruct (dec_u_length_bounds n) as (H1 & _ & Hl); [lia|].
  assert (Z.of_nat (length (dec_u n)) ≤ 3)%Z.
  { destruct (decide (Z.of_nat (length (dec_u n)) ≤ 3)%Z) as [|Hgt]; [done|]. exfalso.
    destruct Hl as [Hl|Hl]; [lia|].
    assert (10 ^ 3 ≤ 10 ^ (Z.of_nat (length (dec_u n)) - 1))%Z by (apply Z.pow_le_mono_r; lia). lia. }
  rewrite !length_app, length_replicate. simpl. lia.
Qed.

Lemma cause_text (t : list apt_str_table_item_t) (n c : nat) :
  name_table_ok t n → c < n → n ≤ 1000 →
  ∃ str, apt_completion_cause_generate t n c = Some str ∧ plain_text (chars str) ∧
    apt_size_value_parse (str_of (chars str)) = Z.of_nat c.
Proof.
  intros Ht Hc Hn. destruct (name_table_find t n c Ht Hc) as (name & Hget & Hw & Hp & _).
  unfold apt_completion_cause_generate. rewrite Hget, dec_pad3_length by lia.
  rewrite decide_False by lia. eexists. split; [done|].
  assert (Hch : chars (mk_str (Some (dec_pad3 (Z.of_nat c) ++ chars name)) (4 + len name))
    = dec_pad3 (Z.of_nat c) ++ chars name).
  { unfold chars at 1. simpl default. rewrite take_ge; [done|].
    rewrite length_app, dec_pad3_length, chars_length by (done || lia). done. }
  rewrite Hch. split.
  - unfold dec_pad3. rewrite <- app_assoc, <- app_assoc. rewrite app_assoc.
    destruct Hp as (_ & Hnul & [Heol _]). apply plain_app.
    + apply plain_digits; [|apply Forall_app; split; [by apply Forall_replicate|apply dec_u_digits; lia]].
      intros [_ He]%app_eq_nil. by apply dec_u_nonempty in He.
    + by apply not_elem_of_cons.
    + by apply no_eol_cons.
  - unfold apt_size_value_parse. simpl. rewrite dec_pad3_atol by lia. apply wrap_u_small. lia.
Qed.

(** *** Names and the values of the synthesizer *)

Lemma copy_str_of (s : apt_str_t) : str_wf s → chars s ≠ [] → apt_string_copy s = str_of (chars s).
Proof.
  intros Hw Hne. unfold apt_string_copy, str_of. rewrite chars_length by done.
  destruct (decide (len s = 0)) as [Hz|]; [exfalso; apply Hne; unfold chars; by rewrite Hz|].
  destruct Hw as [Hl _]. unfold chars. by destruct (buf s); simpl in *; [|lia].
Qed.

Lemma name_text (t : list apt_str_table_item_t) (n i : nat) (str : apt_str_t) :
  name_table_ok t n → i < n →
  ∃ s, apt_string_table_value_pgenerate t n i str = (true, str_of s) ∧ plain_text s ∧
    apt_string_table_value_parse t n (str_of s) = i.
Proof.
  intros Ht Hi. destruct (name_table_find t n i Ht Hi) as (name & Hget & Hw & Hp & Hfind).
  exists (chars name). unfold apt_string_table_value_pgenerate. rewrite Hget.
  rewrite copy_str_of by (done || apply Hp). split_and!; [done|done|].
  apply Hfind; [by apply str_of_chars_wf|by rewrite chars_str_of].
Qed.

Lemma units_ok : name_table_ok speech_unit_string_table SPEECH_UNIT_COUNT.
Proof. apply name_table_check_ok. vm_compute. reflexivity. Qed.
Lemma volumes_ok : name_table_ok prosody_volume_string_table PROSODY_VOLUME_COUNT.
Proof. apply name_table_check_ok. vm_compute. reflexivity. Qed.
Lemma rates_ok : name_table_ok prosody_rate_string_table PROSODY_RATE_COUNT.
Proof. apply name_table_check_ok. vm_compute. reflexivity. Qed.

(** The text of a numeric speech length: sign, number, unit. *)
Definition signed_length (sign : char) (n : Z) (name : cstr) : cstr :=
  sign :: dec_u n ++ " "%char :: name.

Lemma length_fields_read (sign : char) (n : Z) (name : cstr) :
  (0 ≤ n < 2 ^ 63)%Z → plain_text name → APT_TOKEN_SP ∉ name →
  let st := stream_of_str (str_of (signed_length sign n name)) in
  ∃ f1 f2 st1 st2,
    apt_text_field_read (with_pos st (S (pos st))) APT_TOKEN_SP true = (true, st1, f1) ∧
    apt_text_field_read st1 APT_TOKEN_SP true = (true, st2, f2) ∧
    apt_size_value_parse f1 = n ∧ str_wf f2 ∧ chars f2 = name.
Proof.
  intros Hn (Hne & Hnul & _ & _) Hsp st. set (w := dec_u n ++ APT_TOKEN_SP :: name).
  assert (Hmem : mem st = sign :: w) by done.
  assert (Hend : end_ st = S (length w)) by done. assert (Hpos : pos st = 0) by done.
  set (st0 := with_pos st (S (pos st))).
  assert (Hwf0 : stream_wf st0) by (split; simpl; lia).
  assert (Hw0 : window st0 = w).
  { unfold window. simpl. rewrite drop_0, Nat.sub_0_r. apply firstn_all. }
  assert (Hd : APT_TOKEN_SP ∉ dec_u n) by (apply dec_u_not_elem; [lia|done]).
  assert (Hdn : dec_u n ≠ []) by apply dec_u_nonempty.
  assert (Hh : head (dec_u n) ≠ Some APT_TOKEN_SP).
  { destruct (dec_u n) as [|c d]; [done|]. simpl. intros [= ->]. apply Hd. left. }
  destruct (field_read_exact st0 APT_TOKEN_SP (dec_u n) name Hwf0 Hw0 Hd Hh) as (f1 & -> & Hc1 & Hl1 & Hb1);
    [done|].
  set (st1 := with_pos st0 _).
  assert (Hlw : length w = length (dec_u n) + S (length name)) by (unfold w; by rewrite length_app).
  assert (Hwf1 : stream_wf st1) by (split; simpl in *; lia).
  assert (Hw1 : window st1 = name).
  { unfold st1. rewrite window_with_pos, Hw0. unfold w. by rewrite <- drop_drop, drop_app_length. }
  assert (Hhn : head name ≠ Some APT_TOKEN_SP).
  { destruct name as [|c d]; [done|]. simpl. intros [= ->]. apply Hsp. left. }
  destruct (field_read_last st1 APT_TOKEN_SP name Hwf1 Hw1 Hsp Hhn) as (f2 & Hr2 & Hc2 & Hl2 & Hb2).
  rewrite bool_decide_eq_true_2 in Hr2 |- * by done.
  eexists f1, f2, st1, _. split_and!; [done|exact Hr2| | |done].
  - destruct f1 as [b1 k1]. simpl in Hb1. subst b1. unfold ptr. simpl. rewrite drop_0.
    by apply size_read_back.
  - split; [|by rewrite Hc2]. rewrite Hb2, Hl2. pose proof (window_length st1 Hwf1) as Hwl.
    rewrite Hw1 in Hwl. destruct Hwf1 as [_ He1]. unfold ptr. cbn [from_option id].
    rewrite length_drop. lia.
Qed.

Lemma signed_length_plain (sign : char) (n : Z) (name : cstr) :
  plain_text [sign] → (0 ≤ n)%Z → plain_text name → plain_text (signed_length sign n name).
Proof.
  intros Hs Hn (_ & Hnul & Heol & _). apply (plain_app [sign]); [done|..].
  - apply not_elem_of_app. split; [by apply dec_u_not_elem|by apply not_elem_of_cons].
  - apply no_eol_app. split; [by apply dec_u_no_eol|by apply no_eol_cons].
Qed.

(** A numeric speech length. *)
Lemma length_numeric (old : mrcp_speech_length_value_t) (ty : mrcp_speech_length_type_e) (sign : char)
    (n : Z) (u : nat) (str : apt_str_t) :
  (ty, sign) = (SPEECH_LENGTH_TYPE_NUMERIC_POSITIVE, "+"%char) ∨
  (ty, sign) = (SPEECH_LENGTH_TYPE_NUMERIC_NEGATIVE, "-"%char) →
  (0 ≤ n < 2 ^ 63)%Z → u < SPEECH_UNIT_COUNT →
  ∃ s, mrcp_speech_length_generate junk (mk_speech_length ty (SpeechNumeric n u)) str = (true, str_of s) ∧
    plain_text s ∧
    mrcp_speech_length_value_parse junk old (str_of s) = (true, mk_speech_length ty (SpeechNumeric n u)).
Proof.
  intros Hty Hn Hu. destruct (name_table_find _ _ u units_ok Hu) as (name & Hget & Hw & Hp & Hfind).
  assert (Hsp : APT_TOKEN_SP ∉ chars name).
  { destruct u as [|[|[|[|u]]]]; [..|lia]; vm_compute in Hget; injection Hget as <-;
      apply (bool_decide_unpack _); vm_compute; exact I. }
  exists (signed_length sign n (chars name)).
  destruct (length_fields_read sign n (chars name) Hn Hp Hsp) as (f1 & f2 & st1 & st2 & H1 & H2 & Hv & Hwf & Hc).
  assert (Hs : plain_text [sign]).
  { destruct Hty as [[= _ ->]|[= _ ->]]; apply (bool_decide_unpack _); vm_compute; exact I. }
  split_and!.
  - unfold mrcp_speech_length_generate. cbn [length_type length_value union_unit]. rewrite Hget.
    destruct Hty as [[= -> ->]|[= -> ->]]; by rewrite apr_psprintf_u_spec by lia.
  - apply signed_length_plain; [done|lia|done].
  - unfold mrcp_speech_length_value_parse. rewrite decide_False by done.
    cbv zeta in H1. cbn [buf str_of default signed_length] in *.
    destruct Hty as [[= -> ->]|[= -> ->]]; cbn [signed_length]; rewrite decide_False by done;
      unfold signed_length in *; rewrite H1; cbn [negb]; rewrite H2; cbn [negb]; rewrite Hv;
      do 3 f_equal; (apply Hfind; [exact Hwf|by rewrite Hc]).
Qed.

(** The old value of a field has the type of the field. *)
Definition shaped (k : field_kind) (old : field_val) : Prop :=
  match k, old with
  | KLength, VLength _ | KVolume, VVolume _ | KRate, VRate _ => True
  | KLength, _ | KVolume, _ | KRate, _ => False
  | _, _ => True
  end.

Lemma length_sent (l old : mrcp_speech_length_value_t) :
  value_ok KLength (VLength l) →
  plain_text (value_text junk KLength (VLength l)) ∧
  length_view (mrcp_speech_length_value_parse junk old (str_of (value_text junk KLength (VLength l)))).2 = l.
Proof.
  destruct l as [ty u]. simpl.
  assert (Hnum : ∀ sign n unit, u = SpeechNumeric n unit →
    (ty, sign) = (SPEECH_LENGTH_TYPE_NUMERIC_POSITIVE, "+"%char) ∨
    (ty, sign) = (SPEECH_LENGTH_TYPE_NUMERIC_NEGATIVE, "-"%char) →
    (0 ≤ n < 2 ^ 63)%Z → unit < SPEECH_UNIT_COUNT →
    plain_text (chars (mrcp_speech_length_generate junk (mk_speech_length ty u) apt_string_reset).2) ∧
    length_view (mrcp_speech_length_value_parse junk old
      (str_of (chars (mrcp_speech_length_generate junk (mk_speech_length ty u) apt_string_reset).2))).2
    = mk_speech_length ty u).
  { intros sign n unit -> Hty Hn Hu.
    destruct (length_numeric old ty sign n unit apt_string_reset Hty Hn Hu) as (s & -> & Hp & Hr).
    simpl. by rewrite chars_str_of, Hr. }
  destruct ty, u as [tag|n unit]; try done; [|intros [Hn Hu]; by eapply Hnum; eauto..].
  intros (Hp & Htag & Hplus & Hminus). remember (chars tag) as s eqn:Hs0. clear Hs0 Hnum. subst tag.
  unfold mrcp_speech_length_generate. cbn [length_type length_value].
  assert (Hs : len (str_of s) ≠ 0) by (destruct Hp as [Hne _]; simpl; by destruct s).
  rewrite decide_False by done. cbn [snd].
  rewrite copy_str_of by (by apply str_of_chars_wf || rewrite chars_str_of; apply Hp).
  rewrite !chars_str_of. split; [done|].
  unfold mrcp_speech_length_value_parse. rewrite decide_False by done. cbn [buf str_of from_option id].
  assert (Hty : match s with
    | "+"%char :: _ => SPEECH_LENGTH_TYPE_NUMERIC_POSITIVE
    | "-"%char :: _ => SPEECH_LENGTH_TYPE_NUMERIC_NEGATIVE
    | _ => SPEECH_LENGTH_TYPE_TEXT end = SPEECH_LENGTH_TYPE_TEXT).
  { destruct s as [|[[] [] [] [] [] [] [] []] s']; done. }
  rewrite Hty. rewrite decide_True by done. unfold length_view. simpl.
  rewrite copy_str_of by (by apply str_of_chars_wf || rewrite chars_str_of; apply Hp).
  by rewrite !chars_str_of.
Qed.

(** How the first character of the text selects the type. *)
Lemma volume_parse_cases (old : mrcp_prosody_volume_t) (v : apt_str_t) :
  len v ≠ 0 →
  (mrcp_prosody_param_volume_parse old v).2 =
    let c := hd_char (default [] (buf v)) in
    if decide (c = "+"%char ∨ c = "-"%char)
    then PROSODY_VOLUME_TYPE_RELATIVE_CHANGE (apt_float_value_parse v)
    else if isdigit c then PROSODY_VOLUME_TYPE_NUMERIC (apt_float_value_parse v)
    else PROSODY_VOLUME_TYPE_LABEL
           (apt_string_table_value_parse prosody_volume_string_table PROSODY_VOLUME_COUNT v).
Proof.
  intros Hl. unfold mrcp_prosody_param_volume_parse, starts_with_digit. rewrite decide_False by done.
  destruct (default [] (buf v)) as [|[[] [] [] [] [] [] [] []] s]; try done; by vm_compute.
Qed.

Lemma plain_len (s : cstr) : plain_text s → len (str_of s) ≠ 0.
Proof. intros [Hne _]. simpl. by destruct s. Qed.

(** The text of a float can be sent; its first character tells its sign. *)
Lemma float_sent (f : float) :
  float_finite f = true →
  let s := chars (apt_float_value_generate f) in
  plain_text s ∧ float_received f (apt_float_value_parse (str_of s)) ∧
  if float_sign f then hd_char s = "-"%char else isdigit (hd_char s) = true.
Proof.
  intros Hf s. destruct (float_text f Hf) as (ds & fr & n & Et & Hne & Hds & Hfr & Hn & Hr).
  fold s in Et, Hr. split_and!; [|by exists n|].
  - rewrite Et. assert (plain_text (ds ++ "."%char :: fr)) as (Hp1 & Hp2 & Hp3 & Hp4).
    { apply plain_app; [by apply plain_digits| |].
      - apply not_elem_of_cons. split; [done|]. intros Hin. rewrite Forall_forall in Hfr. by specialize (Hfr _ Hin).
      - split; (apply not_elem_of_cons; split; [done|]); intros Hin; rewrite Forall_forall in Hfr;
          by specialize (Hfr _ Hin). }
    destruct (float_sign f); [|done]. unfold signed. split_and!; [done|by apply not_elem_of_cons|split; [|done]].
    destruct Hp3. split; by apply not_elem_of_cons.
  - rewrite Et. destruct (float_sign f); [done|]. destruct ds as [|c ds]; [done|]. by apply Forall_cons in Hds as [? _].
Qed.

Lemma float_volume_sent (f : float) (old : mrcp_prosody_volume_t) :
  float_finite f = true →
  let s := chars (apt_float_value_generate f) in
  plain_text s ∧ ∃ f', float_received f f' ∧
    (mrcp_prosody_param_volume_parse old (str_of s)).2 =
      if float_sign f then PROSODY_VOLUME_TYPE_RELATIVE_CHANGE f' else PROSODY_VOLUME_TYPE_NUMERIC f'.
Proof.
  intros Hf s. destruct (float_sent f Hf) as (Hp & Hr & Hs). fold s in Hp, Hr, Hs. split; [done|].
  eexists. split; [exact Hr|]. rewrite volume_parse_cases by (by apply plain_len).
  cbn [buf str_of from_option id]. destruct (float_sign f).
  - by rewrite decide_True by auto.
  - rewrite Hs, decide_False; [done|]. intros [He|He]; rewrite He in Hs; by vm_compute in Hs.
Qed.

Lemma volume_sent (v old : mrcp_prosody_volume_t) :
  value_ok KVolume (VVolume v) →
  plain_text (value_text junk KVolume (VVolume v)) ∧
  value_received KVolume (VVolume v)
    (VVolume (mrcp_prosody_param_volume_parse old (str_of (value_text junk KVolume (VVolume v)))).2).
Proof.
  destruct v as [i|f|f|]; simpl; [| | |done].
  - intros Hi. destruct (name_text _ _ i apt_string_reset volumes_ok Hi) as (s & Hg & Hp & Hr).
    rewrite Hg. simpl. rewrite chars_str_of. split; [done|].
    assert (Hc : ∃ c s', s = c :: s' ∧ c ≠ "+"%char ∧ c ≠ "-"%char ∧ isdigit c = false).
    { clear Hr. do 7 (destruct i as [|i]; [vm_compute in Hg; injection Hg as <-; by eexists _, _|]). lia. }
    destruct Hc as (c & s' & -> & Hplus & Hminus & Hd).
    rewrite volume_parse_cases by (by apply plain_len). simpl.
    rewrite decide_False by tauto. by rewrite Hd, Hr.
  - intros Hf. destruct (float_volume_sent f old Hf) as (Hp & f' & Hr & ->). eauto.
  - intros Hf. destruct (float_volume_sent f old Hf) as (Hp & f' & Hr & ->). eauto.
Qed.

Lemma rate_sent (r old : mrcp_prosody_rate_t) :
  value_ok KRate (VRate r) →
  plain_text (value_text junk KRate (VRate r)) ∧
  value_received KRate (VRate r)
    (VRate (mrcp_prosody_param_rate_parse old (str_of (value_text junk KRate (VRate r)))).2).
Proof.
  unfold mrcp_prosody_param_rate_parse, starts_with_digit. destruct r as [i|f|]; simpl; [| |done].
  - intros Hi. destruct (name_text _ _ i apt_string_reset rates_ok Hi) as (s & Hg & Hp & Hr).
    rewrite Hg. simpl. rewrite chars_str_of. split; [done|].
    assert (Hd : isdigit (hd_char s) = false).
    { clear Hr. do 6 (destruct i as [|i]; [by vm_compute in Hg; injection Hg as <-|]). lia. }
    rewrite decide_False by (by apply (plain_len s)). rewrite Hd. simpl. by rewrite Hr.
  - intros [Hf Hsign]. destruct (float_sent f Hf) as (Hp & Hr & Hd). rewrite Hsign in Hd. split; [done|].
    rewrite decide_False by (by apply (plain_len _ Hp)). rewrite Hd. eauto.
Qed.

(** A value that can be sent has a text, from which its received value is read. *)
Lemma value_sent (k : field_kind) (x old : field_val) :
  value_ok k x → shaped k old →
  plain_text (value_text junk k x) ∧
  value_received k x (value_read junk k (str_of (value_text junk k x)) old).
Proof.
  destruct k, x; simpl; try done; intros Hx Hold.
  - rewrite size_text by lia. split; [by apply dec_u_plain; lia|]. by rewrite size_read_back_nil.
  - split; [apply bool_plain|]. by rewrite bool_read_back.
  - split; [done|]. by rewrite chars_str_of.
  - destruct (float_sent x Hx) as (Hp & Hr & _). split; [done|]. eauto.
  - unfold apt_size_value_generate_from_float. destruct (percent x) as [n|] eqn:En; [|done].
    pose proof (percent_nonneg _ _ En). cbn [default from_option] in *. rewrite size_text by done.
    split; [by apply dec_u_plain|]. exists n. split; [done|]. unfold apt_size_value_parse_as_float.
    by rewrite size_read_back_nil.
  - destruct Hx as (Ht & Hn & Hc). destruct (cause_text table count (Z.to_nat n) Ht) as (str & -> & Hp & Hr);
      [lia|done|].
    simpl. rewrite Hr. split; [done|]. rewrite Z2Nat.id, wrap_u_small by lia. done.
  - destruct Hx as [Ht Hn]. destruct (name_text table count n apt_string_reset Ht Hn) as (s & -> & Hp & Hr).
    simpl. by rewrite chars_str_of, Hr.
  - destruct old; try done. destruct (length_sent l l0 Hx) as [Hp Hr]. split; [done|]. by f_equal.
  - destruct old; try done. by apply volume_sent.
  - destruct old; try done. by apply rate_sent.
Qed.
End ReadBack.

(** ** The interface *)

(** The vtable [vt] implements a list of values of the kinds [hs_kinds]. *)
Class HeaderSpec `{AprFormat} `{AprFloat} (junk : nat) {D : Type} (vt : mrcp_header_vtable_t D) := {
  hs_kinds : list field_kind;
  hs_view : D → list field_val;
  hs_count : length hs_kinds = field_count vt;
  hs_shape d : Forall2 shaped hs_kinds (hs_view d);
  hs_names : name_table_ok (field_table vt) (field_count vt);
  hs_parse d id k v : hs_kinds !! id = Some k →
    ∃ d', parse_field vt d id v = (true, d') ∧ hs_view d' = alter (value_read junk k v) id (hs_view d);
  hs_generate d id k x v0 : hs_kinds !! id = Some k → hs_view d !! id = Some x → value_ok k x →
    ∃ s, generate_field vt d id v0 = (true, s) ∧ chars s = value_text junk k x;
  hs_duplicate d src id k x v : hs_kinds !! id = Some k → hs_view src !! id = Some x →
    ∃ d', duplicate_field vt d src id v = (true, d') ∧
      hs_view d' = <[id := if k is KText then VText (chars v) else x]> (hs_view d);
  hs_duplicate_other d src id v : hs_kinds !! id = None → duplicate_field vt d src id v = (false, d)
}.

(** ** Proofs of the interface, field by field *)

Section Values.
  Context `{AprFormat} `{AprFloat} (junk : nat).

(** What was in the string does not matter to a value that can be sent. *)
Lemma name_text_any (t : list apt_str_table_item_t) (n i : nat) (s s' : apt_str_t) :
  name_table_ok t n → i < n →
  apt_string_table_value_pgenerate t n i s = apt_string_table_value_pgenerate t n i s'.
Proof.
  intros Ht Hi. destruct (name_table_find t n i Ht Hi) as (name & Hget & _).
  unfold apt_string_table_value_pgenerate. by rewrite Hget.
Qed.

Lemma cause_some (t : list apt_str_table_item_t) (n : nat) (c : Z) :
  value_ok (KCause t n) (VNum c) → ∃ s, apt_completion_cause_generate t n (Z.to_nat c) = Some s.
Proof.
  intros (Ht & Hc & Hn). destruct (cause_text t n (Z.to_nat c) Ht) as (s & Hs & _); [lia|done|].
  by exists s.
Qed.

Lemma length_text_any (l : mrcp_speech_length_value_t) (s : apt_str_t) :
  value_ok KLength (VLength (length_view l)) →
  chars (mrcp_speech_length_generate junk l s).2 = value_text junk KLength (VLength (length_view l)).
Proof.
  destruct l as [ty [tag|n u]]; destruct ty; try done.
  - intros ([Hne _] & _). simpl in Hne. rewrite chars_str_of in Hne.
    unfold value_text, mrcp_speech_length_generate. simpl.
    assert (len tag ≠ 0) by (intros Hz; apply Hne; unfold chars; by rewrite Hz).
    assert (length (chars tag) ≠ 0) by by destruct (chars tag).
    rewrite !decide_False by done. by rewrite !chars_copy, chars_str_of.
  - intros [Hn Hu]. unfold value_text, mrcp_speech_length_generate. simpl.
    by destruct (name_table_find _ _ u units_ok Hu) as (name & -> & _).
  - intros [Hn Hu]. unfold value_text, mrcp_speech_length_generate. simpl.
    by destruct (name_table_find _ _ u units_ok Hu) as (name & -> & _).
Qed.

Lemma volume_text_any (v : mrcp_prosody_volume_t) (s : apt_str_t) :
  value_ok KVolume (VVolume v) →
  chars (mrcp_prosody_volume_generate v s).2 = value_text junk KVolume (VVolume v).
Proof. destruct v; try done. intros Hi. simpl. by rewrite (name_text_any _ _ _ s apt_string_reset volumes_ok Hi). Qed.

Lemma rate_text_any (r : mrcp_prosody_rate_t) (s : apt_str_t) :
  value_ok KRate (VRate r) →
  chars (mrcp_prosody_rate_generate r s).2 = value_text junk KRate (VRate r).
Proof. destruct r; try done. intros Hi. simpl. by rewrite (name_text_any _ _ _ s apt_string_reset rates_ok Hi). Qed.

Lemma length_view_read (l : mrcp_speech_length_value_t) (v : apt_str_t) :
  length_view (mrcp_speech_length_value_parse junk (length_view l) v).2
  = length_view (mrcp_speech_length_value_parse junk l v).2.
Proof.
  assert (Hi : length_view (length_view l) = length_view l).
  { destruct l as [ty [tag|n u]]; [|done]. unfold length_view. simpl. by rewrite chars_str_of. }
  unfold mrcp_speech_length_value_parse. destruct l as [ty [tag|n u]]; [|done].
  cbn [length_view length_type length_value union_unit] in *.
  repeat case_match; simplify_eq/=; try done; unfold length_view; simpl; by rewrite chars_str_of.
Qed.
End Values.

(** One field of a header after the other. *)
Ltac each_field Hk id tac :=
  repeat (destruct id as [|id]; [cbn in Hk; injection Hk as <-; tac|]); done.

Ltac parse_cases :=
  match goal with
  | Hk : _ !! ?id = Some _ |- context [alter (value_read _ _ ?v)] =>
      each_field Hk id ltac:(
        eexists; split; [reflexivity|];
        lazymatch goal with
        | |- context [value_read _ KLength] =>
            cbn -[mrcp_speech_length_value_parse length_view]; by rewrite length_view_read
        | |- context [value_read _ KBool] => cbn; by destruct (apt_boolean_value_parse v)
        | _ => reflexivity
        end)
  end.

Ltac generate_cases :=
  match goal with
  | Hk : _ !! ?id = Some _, Hx : _ !! ?id = Some _, Hok : value_ok _ _ |- _ =>
      each_field Hk id ltac:(
        cbn in Hx; injection Hx as <-;
        first [ eexists; split; [reflexivity|];
                first [ reflexivity
                      | by apply length_text_any | by apply volume_text_any | by apply rate_text_any
                      | let Ht := fresh in let Hi := fresh in
                        destruct Hok as [Ht Hi]; cbn; by rewrite (name_text_any _ _ _ _ apt_string_reset Ht Hi) ]
              | let s := fresh in let Hs := fresh in
                destruct (cause_some _ _ _ Hok) as [s Hs];
                exists s; cbn; rewrite Hs; split; reflexivity ])
  end.

Ltac duplicate_cases :=
  match goal with
  | Hk : _ !! ?id = Some _, Hx : _ !! ?id = Some _ |- _ =>
      each_field Hk id ltac:(
        cbn in Hx; injection Hx as <-; eexists; split; reflexivity)
  end.

Ltac duplicate_other :=
  match goal with
  | Hk : _ !! ?id = None |- _ =>
      repeat (destruct id as [|id]; [discriminate Hk|]); reflexivity
  end.
