(* ===== verification/RecorderResource.v ===== *)
(** * RecorderResource: the recorder resource, its names and its header fields
    ([mrcp_recorder_header.c], [mrcp_recorder_resource.c]). *)
From S2P Require Import Prelude CString StringTable TextStream StartLine FloatValue SynthValues.
From S2P Require Import RecordUpdate MrcpMessage HeaderFields.
From Stdlib Require Import SpecFloat.

(** ** Header fields *)

Notation RECORDER_HEADER_SENSITIVITY_LEVEL := 0 (only parsing).
Notation RECORDER_HEADER_NO_INPUT_TIMEOUT := 1 (only parsing).
Notation RECORDER_HEADER_COMPLETION_CAUSE := 2 (only parsing).
Notation RECORDER_HEADER_COMPLETION_REASON := 3 (only parsing).
Notation RECORDER_HEADER_FAILED_URI := 4 (only parsing).
Notation RECORDER_HEADER_FAILED_URI_CAUSE := 5 (only parsing).
Notation RECORDER_HEADER_RECORD_URI := 6 (only parsing).
Notation RECORDER_HEADER_MEDIA_TYPE := 7 (only parsing).
Notation RECORDER_HEADER_MAX_TIME := 8 (only parsing).
Notation RECORDER_HEADER_TRIM_LENGTH := 9 (only parsing).
Notation RECORDER_HEADER_FINAL_SILENCE := 10 (only parsing).
Notation RECORDER_HEADER_CAPTURE_ON_SPEECH := 11 (only parsing).
Notation RECORDER_HEADER_VER_BUFFER_UTTERANCE := 12 (only parsing).
Notation RECORDER_HEADER_START_INPUT_TIMERS := 13 (only parsing).
Notation RECORDER_HEADER_NEW_AUDIO_CHANNEL := 14 (only parsing).
Notation RECORDER_HEADER_COUNT := 15 (only parsing).
Notation RECORDER_COMPLETION_CAUSE_COUNT := 5 (only parsing).

Definition recorder_header_string_table : list apt_str_table_item_t :=
  [item "Sensitivity-Level" 3; item "No-Input-Timeout" 2; item "Completion-Cause" 16;
   item "Completion-Reason" 11; item "Failed-Uri" 10; item "Failed-Uri-Cause" 16;
   item "Record-Uri" 0; item "Media-Type" 2; item "Max-Time" 2; item "Trim-Length" 0;
   item "Final-Silence" 1; item "Capture-On-Speech" 2; item "Ver-Buffer-Utterance" 0;
   item "Start-Input-Timers" 1; item "New-Audio-Channel" 2].

Definition recorder_completion_cause_string_table : list apt_str_table_item_t :=
  [item "success-silence" 8; item "success-maxtime" 8; item "no-input-timeout" 0;
   item "uri-failure" 0; item "error" 0].

(** An enumeration is an [unsigned int]. *)
Record mrcp_recorder_header_t := mk_recorder_header {
  sensitivity_level : float;
  no_input_timeout : Z;
  completion_cause : Z;
  completion_reason : apt_str_t;
  failed_uri : apt_str_t;
  failed_uri_cause : apt_str_t;
  record_uri : apt_str_t;
  media_type : apt_str_t;
  max_time : Z;
  trim_length : Z;
  final_silence : Z;
  capture_on_speech : bool;
  ver_buffer_utterance : bool;
  start_input_timers : bool;
  new_audio_channel : bool
}.

#[export] Instance eta_recorder_header : Settable mrcp_recorder_header_t :=
  settable! mk_recorder_header < sensitivity_level; no_input_timeout; completion_cause;
    completion_reason; failed_uri; failed_uri_cause; record_uri; media_type; max_time; trim_length;
    final_silence; capture_on_speech; ver_buffer_utterance; start_input_timers; new_audio_channel >.

Definition mrcp_recorder_header_init : mrcp_recorder_header_t :=
  mk_recorder_header (S754_zero false) 0 (Z.of_nat RECORDER_COMPLETION_CAUSE_COUNT) apt_string_reset
    apt_string_reset apt_string_reset apt_string_reset apt_string_reset 0 0 0 false false false
    false.

Definition mrcp_recorder_header_parse (h : mrcp_recorder_header_t) (id : nat) (v : apt_str_t)
    : bool * mrcp_recorder_header_t :=
  match id with
  | RECORDER_HEADER_SENSITIVITY_LEVEL =>
      (true, h <| sensitivity_level := apt_float_value_parse v |>)
  | RECORDER_HEADER_NO_INPUT_TIMEOUT =>
      (true, h <| no_input_timeout := apt_size_value_parse v |>)
  | RECORDER_HEADER_COMPLETION_CAUSE =>
      (true, h <| completion_cause := u32 (apt_size_value_parse v) |>)
  | RECORDER_HEADER_COMPLETION_REASON =>
      (true, h <| completion_reason := v |>)
  | RECORDER_HEADER_FAILED_URI =>
      (true, h <| failed_uri := v |>)
  | RECORDER_HEADER_FAILED_URI_CAUSE =>
      (true, h <| failed_uri_cause := v |>)
  | RECORDER_HEADER_RECORD_URI =>
      (true, h <| record_uri := v |>)
  | RECORDER_HEADER_MEDIA_TYPE =>
      (true, h <| media_type := v |>)
  | RECORDER_HEADER_MAX_TIME =>
      (true, h <| max_time := apt_size_value_parse v |>)
  | RECORDER_HEADER_TRIM_LENGTH =>
      (true, h <| trim_length := apt_size_value_parse v |>)
  | RECORDER_HEADER_FINAL_SILENCE =>
      (true, h <| final_silence := apt_size_value_parse v |>)
  | RECORDER_HEADER_CAPTURE_ON_SPEECH =>
      (true, h <| capture_on_speech := default (capture_on_speech h) (apt_boolean_value_parse v) |>)
  | RECORDER_HEADER_VER_BUFFER_UTTERANCE =>
      (true, h <| ver_buffer_utterance := default (ver_buffer_utterance h) (apt_boolean_value_parse v) |>)
  | RECORDER_HEADER_START_INPUT_TIMERS =>
      (true, h <| start_input_timers := default (start_input_timers h) (apt_boolean_value_parse v) |>)
  | RECORDER_HEADER_NEW_AUDIO_CHANNEL =>
      (true, h <| new_audio_channel := default (new_audio_channel h) (apt_boolean_value_parse v) |>)
  | _ => (false, h)
  end.

Section Generate.
  Context `{AprFormat} `{AprFloat}.

(** The results of the inner calls are not used. *)
Definition mrcp_recorder_header_generate (h : mrcp_recorder_header_t) (id : nat) (v : apt_str_t)
    : bool * apt_str_t :=
  match id with
  | RECORDER_HEADER_SENSITIVITY_LEVEL => (true, apt_float_value_generate (sensitivity_level h))
  | RECORDER_HEADER_NO_INPUT_TIMEOUT => (true, apt_size_value_generate (no_input_timeout h))
  | RECORDER_HEADER_COMPLETION_CAUSE => (true, default v
        (apt_completion_cause_generate recorder_completion_cause_string_table RECORDER_COMPLETION_CAUSE_COUNT (Z.to_nat (completion_cause h))))
  | RECORDER_HEADER_COMPLETION_REASON => (true, completion_reason h)
  | RECORDER_HEADER_FAILED_URI => (true, failed_uri h)
  | RECORDER_HEADER_FAILED_URI_CAUSE => (true, failed_uri_cause h)
  | RECORDER_HEADER_RECORD_URI => (true, record_uri h)
  | RECORDER_HEADER_MEDIA_TYPE => (true, media_type h)
  | RECORDER_HEADER_MAX_TIME => (true, apt_size_value_generate (max_time h))
  | RECORDER_HEADER_TRIM_LENGTH => (true, apt_size_value_generate (trim_length h))
  | RECORDER_HEADER_FINAL_SILENCE => (true, apt_size_value_generate (final_silence h))
  | RECORDER_HEADER_CAPTURE_ON_SPEECH => (true, apt_boolean_value_generate (capture_on_speech h))
  | RECORDER_HEADER_VER_BUFFER_UTTERANCE => (true, apt_boolean_value_generate (ver_buffer_utterance h))
  | RECORDER_HEADER_START_INPUT_TIMERS => (true, apt_boolean_value_generate (start_input_timers h))
  | RECORDER_HEADER_NEW_AUDIO_CHANNEL => (true, apt_boolean_value_generate (new_audio_channel h))
  | _ => (true, v)
  end.

Definition mrcp_recorder_header_duplicate (h src : mrcp_recorder_header_t) (id : nat) (v : apt_str_t)
    : bool * mrcp_recorder_header_t :=
  match id with
  | RECORDER_HEADER_SENSITIVITY_LEVEL => (true, h <| sensitivity_level := sensitivity_level src |>)
  | RECORDER_HEADER_NO_INPUT_TIMEOUT => (true, h <| no_input_timeout := no_input_timeout src |>)
  | RECORDER_HEADER_COMPLETION_CAUSE => (true, h <| completion_cause := completion_cause src |>)
  | RECORDER_HEADER_COMPLETION_REASON => (true, h <| completion_reason := v |>)
  | RECORDER_HEADER_FAILED_URI => (true, h <| failed_uri := v |>)
  | RECORDER_HEADER_FAILED_URI_CAUSE => (true, h <| failed_uri_cause := v |>)
  | RECORDER_HEADER_RECORD_URI => (true, h <| record_uri := v |>)
  | RECORDER_HEADER_MEDIA_TYPE => (true, h <| media_type := v |>)
  | RECORDER_HEADER_MAX_TIME => (true, h <| max_time := max_time src |>)
  | RECORDER_HEADER_TRIM_LENGTH => (true, h <| trim_length := trim_length src |>)
  | RECORDER_HEADER_FINAL_SILENCE => (true, h <| final_silence := final_silence src |>)
  | RECORDER_HEADER_CAPTURE_ON_SPEECH => (true, h <| capture_on_speech := capture_on_speech src |>)
  | RECORDER_HEADER_VER_BUFFER_UTTERANCE => (true, h <| ver_buffer_utterance := ver_buffer_utterance src |>)
  | RECORDER_HEADER_START_INPUT_TIMERS => (true, h <| start_input_timers := start_input_timers src |>)
  | RECORDER_HEADER_NEW_AUDIO_CHANNEL => (true, h <| new_audio_channel := new_audio_channel src |>)
  | _ => (false, h)
  end.

Definition recorder_vtable : mrcp_header_vtable_t mrcp_recorder_header_t :=
  mk_vtable mrcp_recorder_header_init mrcp_recorder_header_parse mrcp_recorder_header_generate
    mrcp_recorder_header_duplicate recorder_header_string_table RECORDER_HEADER_COUNT.

Definition mrcp_recorder_header_vtable_get (v : mrcp_version_e) : mrcp_header_vtable_t mrcp_recorder_header_t :=
  recorder_vtable.

Definition mrcp_recorder_completion_cause_get (cause : nat) (v : mrcp_version_e) : option apt_str_t :=
  apt_string_table_str_get recorder_completion_cause_string_table RECORDER_COMPLETION_CAUSE_COUNT cause.

(** ** The resource *)

Definition recorder_method_string_table : list apt_str_table_item_t :=
  [item "SET-PARAMS" 10; item "GET-PARAMS" 0; item "RECORD" 0; item "STOP" 2;
   item "START-INPUT-TIMERS" 2].

Definition recorder_event_string_table : list apt_str_table_item_t :=
  [item "START-OF-INPUT" 0; item "RECORD-COMPLETE" 0].

Definition mrcp_recorder_resource_create : @mrcp_resource_t mrcp_recorder_header_t :=
  mk_resource 0 apt_string_reset (λ _, recorder_method_string_table) 5
    (λ _, recorder_event_string_table) 2 mrcp_recorder_header_vtable_get.

(** ** The fields as values *)

Definition recorder_kinds : list field_kind :=
  [KFloat; KSize; KCause recorder_completion_cause_string_table RECORDER_COMPLETION_CAUSE_COUNT;
   KText; KText; KText; KText; KText; KSize; KSize; KSize; KBool; KBool; KBool; KBool].

Definition recorder_view (h : mrcp_recorder_header_t) : list field_val :=
  [VFloat (sensitivity_level h); VNum (no_input_timeout h); VNum (completion_cause h);
   VText (chars (completion_reason h)); VText (chars (failed_uri h));
   VText (chars (failed_uri_cause h)); VText (chars (record_uri h)); VText (chars (media_type h));
   VNum (max_time h); VNum (trim_length h); VNum (final_silence h); VBool (capture_on_speech h);
   VBool (ver_buffer_utterance h); VBool (start_input_timers h); VBool (new_audio_channel h)].

#[local] Obligation Tactic := intros.

#[export] Program Instance recorder_spec (junk : nat) : HeaderSpec junk recorder_vtable := {
  hs_kinds := recorder_kinds;
  hs_view := recorder_view
}.
Next Obligation. done. Qed.
Next Obligation. repeat constructor. Qed.
Next Obligation. apply name_table_check_ok. vm_compute. reflexivity. Qed.
Next Obligation. parse_cases. Qed.
Next Obligation. generate_cases. Qed.
Next Obligation. duplicate_cases. Qed.
Next Obligation. duplicate_other. Qed.

End Generate.
