(* ===== verification/VerifierResource.v ===== *)
(** * VerifierResource: the verifier resource, its names and its header fields
    ([mrcp_verifier_header.c], [mrcp_verifier_resource.c]). *)
From S2P Require Import Prelude CString StringTable TextStream StartLine FloatValue SynthValues.
From S2P Require Import RecordUpdate MrcpMessage HeaderFields.
From Stdlib Require Import SpecFloat.

(** ** Header fields *)

Notation VERIFIER_HEADER_REPOSITORY_URI := 0 (only parsing).
Notation VERIFIER_HEADER_VOICEPRINT_IDENTIFIER := 1 (only parsing).
Notation VERIFIER_HEADER_VERIFICATION_MODE := 2 (only parsing).
Notation VERIFIER_HEADER_ADAPT_MODEL := 3 (only parsing).
Notation VERIFIER_HEADER_ABORT_MODEL := 4 (only parsing).
Notation VERIFIER_HEADER_MIN_VERIFICATION_SCORE := 5 (only parsing).
Notation VERIFIER_HEADER_NUM_MIN_VERIFICATION_PHRASES := 6 (only parsing).
Notation VERIFIER_HEADER_NUM_MAX_VERIFICATION_PHRASES := 7 (only parsing).
Notation VERIFIER_HEADER_NO_INPUT_TIMEOUT := 8 (only parsing).
Notation VERIFIER_HEADER_SAVE_WAVEFORM := 9 (only parsing).
Notation VERIFIER_HEADER_MEDIA_TYPE := 10 (only parsing).
Notation VERIFIER_HEADER_WAVEFORM_URI := 11 (only parsing).
Notation VERIFIER_HEADER_VOICEPRINT_EXISTS := 12 (only parsing).
Notation VERIFIER_HEADER_VER_BUFFER_UTTERANCE := 13 (only parsing).
Notation VERIFIER_HEADER_INPUT_WAVEFORM_URI := 14 (only parsing).
Notation VERIFIER_HEADER_COMPLETION_CAUSE := 15 (only parsing).
Notation VERIFIER_HEADER_COMPLETION_REASON := 16 (only parsing).
Notation VERIFIER_HEADER_SPEECH_COMPLETE_TIMEOUT := 17 (only parsing).
Notation VERIFIER_HEADER_NEW_AUDIO_CHANNEL := 18 (only parsing).
Notation VERIFIER_HEADER_ABORT_VERIFICATION := 19 (only parsing).
Notation VERIFIER_HEADER_START_INPUT_TIMERS := 20 (only parsing).
Notation VERIFIER_HEADER_COUNT := 21 (only parsing).
Notation VERIFIER_COMPLETION_CAUSE_COUNT := 12 (only parsing).

Definition verifier_header_string_table : list apt_str_table_item_t :=
  [item "Repository-URI" 0; item "Voiceprint-Identifier" 12; item "Verification-Mode" 6;
   item "Adapt-Model" 1; item "Abort-Model" 11; item "Min-Verification-Score" 1;
   item "Num-Min-Verification-Phrases" 6; item "Num-Max-Verification-Phrases" 5;
   item "No-Input-Timeout" 2; item "Save-Waveform" 4; item "Media-Type" 2; item "Waveform-URI" 0;
   item "Voiceprint-Exists" 11; item "Ver-Buffer-Utterance" 4; item "Input-Waveform-URI" 0;
   item "Completion-Cause" 11; item "Completion-Reason" 15; item "Speech-Complete-Timeout" 1;
   item "New-Audio-Channel" 2; item "Abort-Verification" 6; item "Start-Input-Timers" 1].

Definition verifier_completion_cause_string_table : list apt_str_table_item_t :=
  [item "success" 2; item "error" 0; item "no-input-timeout" 0; item "too-much-speech-timeout" 0;
   item "speech-too-early" 9; item "buffer-empty" 0; item "out-of-sequence" 0;
   item "repository-uri-failure" 15; item "repository-uri-missing" 15;
   item "voiceprint-id-missing" 14; item "voiceprint-id-not-exist" 14; item "speech-not-usable" 7].

(** An enumeration is an [unsigned int]. *)
Record mrcp_verifier_header_t := mk_verifier_header {
  repository_uri : apt_str_t;
  voiceprint_identifier : apt_str_t;
  verification_mode : apt_str_t;
  adapt_model : bool;
  abort_model : bool;
  min_verification_score : float;
  num_min_verification_phrases : Z;
  num_max_verification_phrases : Z;
  no_input_timeout : Z;
  save_waveform : bool;
  media_type : apt_str_t;
  waveform_uri : apt_str_t;
  voiceprint_exists : bool;
  ver_buffer_utterance : bool;
  input_waveform_uri : apt_str_t;
  completion_cause : Z;
  completion_reason : apt_str_t;
  speech_complete_timeout : Z;
  new_audio_channel : bool;
  abort_verification : bool;
  start_input_timers : bool
}.

#[export] Instance eta_verifier_header : Settable mrcp_verifier_header_t :=
  settable! mk_verifier_header < repository_uri; voiceprint_identifier; verification_mode;
    adapt_model; abort_model; min_verification_score; num_min_verification_phrases;
    num_max_verification_phrases; no_input_timeout; save_waveform; media_type; waveform_uri;
    voiceprint_exists; ver_buffer_utterance; input_waveform_uri; completion_cause;
    completion_reason; speech_complete_timeout; new_audio_channel; abort_verification;
    start_input_timers >.

Definition mrcp_verifier_header_init : mrcp_verifier_header_t :=
  mk_verifier_header apt_string_reset apt_string_reset apt_string_reset false false
    (S754_zero false) 0 0 0 false apt_string_reset apt_string_reset false false apt_string_reset
    (Z.of_nat VERIFIER_COMPLETION_CAUSE_COUNT) apt_string_reset 0 false false false.

Definition mrcp_verifier_header_parse (h : mrcp_verifier_header_t) (id : nat) (v : apt_str_t)
    : bool * mrcp_verifier_header_t :=
  match id with
  | VERIFIER_HEADER_REPOSITORY_URI =>
      (true, h <| repository_uri := v |>)
  | VERIFIER_HEADER_VOICEPRINT_IDENTIFIER =>
      (true, h <| voiceprint_identifier := v |>)
  | VERIFIER_HEADER_VERIFICATION_MODE =>
      (true, h <| verification_mode := v |>)
  | VERIFIER_HEADER_ADAPT_MODEL =>
      (true, h <| adapt_model := default (adapt_model h) (apt_boolean_value_parse v) |>)
  | VERIFIER_HEADER_ABORT_MODEL =>
      (true, h <| abort_model := default (abort_model h) (apt_boolean_value_parse v) |>)
  | VERIFIER_HEADER_MIN_VERIFICATION_SCORE =>
      (true, h <| min_verification_score := apt_float_value_parse v |>)
  | VERIFIER_HEADER_NUM_MIN_VERIFICATION_PHRASES =>
      (true, h <| num_min_verification_phrases := apt_size_value_parse v |>)
  | VERIFIER_HEADER_NUM_MAX_VERIFICATION_PHRASES =>
      (true, h <| num_max_verification_phrases := apt_size_value_parse v |>)
  | VERIFIER_HEADER_NO_INPUT_TIMEOUT =>
      (true, h <| no_input_timeout := apt_size_value_parse v |>)
  | VERIFIER_HEADER_SAVE_WAVEFORM =>
      (true, h <| save_waveform := default (save_waveform h) (apt_boolean_value_parse v) |>)
  | VERIFIER_HEADER_MEDIA_TYPE =>
      (true, h <| media_type := v |>)
  | VERIFIER_HEADER_WAVEFORM_URI =>
      (true, h <| waveform_uri := v |>)
  | VERIFIER_HEADER_VOICEPRINT_EXISTS =>
      (true, h <| voiceprint_exists := default (voiceprint_exists h) (apt_boolean_value_parse v) |>)
  | VERIFIER_HEADER_VER_BUFFER_UTTERANCE =>
      (true, h <| ver_buffer_utterance := default (ver_buffer_utterance h) (apt_boolean_value_parse v) |>)
  | VERIFIER_HEADER_INPUT_WAVEFORM_URI =>
      (true, h <| input_waveform_uri := v |>)
  | VERIFIER_HEADER_COMPLETION_CAUSE =>
      (true, h <| completion_cause := u32 (apt_size_value_parse v) |>)
  | VERIFIER_HEADER_COMPLETION_REASON =>
      (true, h <| completion_reason := v |>)
  | VERIFIER_HEADER_SPEECH_COMPLETE_TIMEOUT =>
      (true, h <| speech_complete_timeout := apt_size_value_parse v |>)
  | VERIFIER_HEADER_NEW_AUDIO_CHANNEL =>
      (true, h <| new_audio_channel := default (new_audio_channel h) (apt_boolean_value_parse v) |>)
  | VERIFIER_HEADER_ABORT_VERIFICATION =>
      (true, h <| abort_verification := default (abort_verification h) (apt_boolean_value_parse v) |>)
  | VERIFIER_HEADER_START_INPUT_TIMERS =>
      (true, h <| start_input_timers := default (start_input_timers h) (apt_boolean_value_parse v) |>)
  | _ => (false, h)
  end.

Section Generate.
  Context `{AprFormat} `{AprFloat}.

(** The results of the inner calls are not used. *)
Definition mrcp_verifier_header_generate (h : mrcp_verifier_header_t) (id : nat) (v : apt_str_t)
    : bool * apt_str_t :=
  match id with
  | VERIFIER_HEADER_REPOSITORY_URI => (true, repository_uri h)
  | VERIFIER_HEADER_VOICEPRINT_IDENTIFIER => (true, voiceprint_identifier h)
  | VERIFIER_HEADER_VERIFICATION_MODE => (true, verification_mode h)
  | VERIFIER_HEADER_ADAPT_MODEL => (true, apt_boolean_value_generate (adapt_model h))
  | VERIFIER_HEADER_ABORT_MODEL => (true, apt_boolean_value_generate (abort_model h))
  | VERIFIER_HEADER_MIN_VERIFICATION_SCORE => (true, apt_float_value_generate (min_verification_score h))
  | VERIFIER_HEADER_NUM_MIN_VERIFICATION_PHRASES => (true, apt_size_value_generate (num_min_verification_phrases h))
  | VERIFIER_HEADER_NUM_MAX_VERIFICATION_PHRASES => (true, apt_size_value_generate (num_max_verification_phrases h))
  | VERIFIER_HEADER_NO_INPUT_TIMEOUT => (true, apt_size_value_generate (no_input_timeout h))
  | VERIFIER_HEADER_SAVE_WAVEFORM => (true, apt_boolean_value_generate (save_waveform h))
  | VERIFIER_HEADER_MEDIA_TYPE => (true, media_type h)
  | VERIFIER_HEADER_WAVEFORM_URI => (true, waveform_uri h)
  | VERIFIER_HEADER_VOICEPRINT_EXISTS => (true, apt_boolean_value_generate (voiceprint_exists h))
  | VERIFIER_HEADER_VER_BUFFER_UTTERANCE => (true, apt_boolean_value_generate (ver_buffer_utterance h))
  | VERIFIER_HEADER_INPUT_WAVEFORM_URI => (true, input_waveform_uri h)
  | VERIFIER_HEADER_COMPLETION_CAUSE => (true, default v
        (apt_completion_cause_generate verifier_completion_cause_string_table VERIFIER_COMPLETION_CAUSE_COUNT (Z.to_nat (completion_cause h))))
  | VERIFIER_HEADER_COMPLETION_REASON => (true, completion_reason h)
  | VERIFIER_HEADER_SPEECH_COMPLETE_TIMEOUT => (true, apt_size_value_generate (speech_complete_timeout h))
  | VERIFIER_HEADER_NEW_AUDIO_CHANNEL => (true, apt_boolean_value_generate (new_audio_channel h))
  | VERIFIER_HEADER_ABORT_VERIFICATION => (true, apt_boolean_value_generate (abort_verification h))
  | VERIFIER_HEADER_START_INPUT_TIMERS => (true, apt_boolean_value_generate (start_input_timers h))
  | _ => (true, v)
  end.

Definition mrcp_verifier_header_duplicate (h src : mrcp_verifier_header_t) (id : nat) (v : apt_str_t)
    : bool * mrcp_verifier_header_t :=
  match id with
  | VERIFIER_HEADER_REPOSITORY_URI => (true, h <| repository_uri := v |>)
  | VERIFIER_HEADER_VOICEPRINT_IDENTIFIER => (true, h <| voiceprint_identifier := v |>)
  | VERIFIER_HEADER_VERIFICATION_MODE => (true, h <| verification_mode := v |>)
  | VERIFIER_HEADER_ADAPT_MODEL => (true, h <| adapt_model := adapt_model src |>)
  | VERIFIER_HEADER_ABORT_MODEL => (true, h <| abort_model := abort_model src |>)
  | VERIFIER_HEADER_MIN_VERIFICATION_SCORE => (true, h <| min_verification_score := min_verification_score src |>)
  | VERIFIER_HEADER_NUM_MIN_VERIFICATION_PHRASES => (true, h <| num_min_verification_phrases := num_min_verification_phrases src |>)
  | VERIFIER_HEADER_NUM_MAX_VERIFICATION_PHRASES => (true, h <| num_max_verification_phrases := num_max_verification_phrases src |>)
  | VERIFIER_HEADER_NO_INPUT_TIMEOUT => (true, h <| no_input_timeout := no_input_timeout src |>)
  | VERIFIER_HEADER_SAVE_WAVEFORM => (true, h <| save_waveform := save_waveform src |>)
  | VERIFIER_HEADER_MEDIA_TYPE => (true, h <| media_type := v |>)
  | VERIFIER_HEADER_WAVEFORM_URI => (true, h <| waveform_uri := v |>)
  | VERIFIER_HEADER_VOICEPRINT_EXISTS => (true, h <| voiceprint_exists := voiceprint_exists src |>)
  | VERIFIER_HEADER_VER_BUFFER_UTTERANCE => (true, h <| ver_buffer_utterance := ver_buffer_utterance src |>)
  | VERIFIER_HEADER_INPUT_WAVEFORM_URI => (true, h <| input_waveform_uri := v |>)
  | VERIFIER_HEADER_COMPLETION_CAUSE => (true, h <| completion_cause := completion_cause src |>)
  | VERIFIER_HEADER_COMPLETION_REASON => (true, h <| completion_reason := v |>)
  | VERIFIER_HEADER_SPEECH_COMPLETE_TIMEOUT => (true, h <| speech_complete_timeout := speech_complete_timeout src |>)
  | VERIFIER_HEADER_NEW_AUDIO_CHANNEL => (true, h <| new_audio_channel := new_audio_channel src |>)
  | VERIFIER_HEADER_ABORT_VERIFICATION => (true, h <| abort_verification := abort_verification src |>)
  | VERIFIER_HEADER_START_INPUT_TIMERS => (true, h <| start_input_timers := start_input_timers src |>)
  | _ => (false, h)
  end.

Definition verifier_vtable : mrcp_header_vtable_t mrcp_verifier_header_t :=
  mk_vtable mrcp_verifier_header_init mrcp_verifier_header_parse mrcp_verifier_header_generate
    mrcp_verifier_header_duplicate verifier_header_string_table VERIFIER_HEADER_COUNT.

Definition mrcp_verifier_header_vtable_get (v : mrcp_version_e) : mrcp_header_vtable_t mrcp_verifier_header_t :=
  verifier_vtable.

Definition mrcp_verifier_completion_cause_get (cause : nat) (v : mrcp_version_e) : option apt_str_t :=
  apt_string_table_str_get verifier_completion_cause_string_table VERIFIER_COMPLETION_CAUSE_COUNT cause.

(** ** The resource *)

Definition verifier_method_string_table : list apt_str_table_item_t :=
  [item "SET-PARAMS" 10; item "GET-PARAMS" 10; item "START-SESSION" 8; item "END-SESSION" 0;
   item "QUERY-VOICEPRINT" 0; item "DELETE-VOICEPRINT" 0; item "VERIFY" 6;
   item "VERIFY-FROM-BUFFER" 7; item "VERIFY-ROLLBACK" 7; item "STOP" 2; item "CLEAR-BUFFER" 0;
   item "START-INPUT-TIMERS" 6; item "GET-INTERMEDIATE-RESULT" 4].

Definition verifier_event_string_table : list apt_str_table_item_t :=
  [item "START-OF-INPUT" 0; item "VERIFICATION-COMPLETE" 0].

Definition mrcp_verifier_resource_create : @mrcp_resource_t mrcp_verifier_header_t :=
  mk_resource 0 apt_string_reset (λ _, verifier_method_string_table) 13
    (λ _, verifier_event_string_table) 2 mrcp_verifier_header_vtable_get.

(** ** The fields as values *)

Definition verifier_kinds : list field_kind :=
  [KText; KText; KText; KBool; KBool; KFloat; KSize; KSize; KSize; KBool; KText; KText; KBool;
   KBool; KText; KCause verifier_completion_cause_string_table VERIFIER_COMPLETION_CAUSE_COUNT;
   KText; KSize; KBool; KBool; KBool].

Definition verifier_view (h : mrcp_verifier_header_t) : list field_val :=
  [VText (chars (repository_uri h)); VText (chars (voiceprint_identifier h));
   VText (chars (verification_mode h)); VBool (adapt_model h); VBool (abort_model h);
   VFloat (min_verification_score h); VNum (num_min_verification_phrases h);
   VNum (num_max_verification_phrases h); VNum (no_input_timeout h); VBool (save_waveform h);
   VText (chars (media_type h)); VText (chars (waveform_uri h)); VBool (voiceprint_exists h);
   VBool (ver_buffer_utterance h); VText (chars (input_waveform_uri h)); VNum (completion_cause h);
   VText (chars (completion_reason h)); VNum (speech_complete_timeout h);
   VBool (new_audio_channel h); VBool (abort_verification h); VBool (start_input_timers h)].

#[local] Obligation Tactic := intros.

#[export] Program Instance verifier_spec (junk : nat) : HeaderSpec junk verifier_vtable := {
  hs_kinds := verifier_kinds;
  hs_view := verifier_view
}.
Next Obligation. done. Qed.
Next Obligation. repeat constructor. Qed.
Next Obligation. apply name_table_check_ok. vm_compute. reflexivity. Qed.
Next Obligation. parse_cases. Qed.
Next Obligation. generate_cases. Qed.
Next Obligation. duplicate_cases. Qed.
Next Obligation. duplicate_other. Qed.

End Generate.
