(* ===== verification/SynthResource.v ===== *)
(** * SynthResource: the synthesizer resource, its names and its header fields
    ([mrcp_synth_header.c], [mrcp_synth_resource.c]). *)
From S2P Require Import Prelude CString StringTable TextStream StartLine FloatValue SynthValues.
From S2P Require Import RecordUpdate MrcpMessage HeaderFields.
From Stdlib Require Import SpecFloat.

(** ** Header fields *)

Notation SYNTHESIZER_HEADER_JUMP_SIZE := 0 (only parsing).
Notation SYNTHESIZER_HEADER_KILL_ON_BARGE_IN := 1 (only parsing).
Notation SYNTHESIZER_HEADER_SPEAKER_PROFILE := 2 (only parsing).
Notation SYNTHESIZER_HEADER_COMPLETION_CAUSE := 3 (only parsing).
Notation SYNTHESIZER_HEADER_COMPLETION_REASON := 4 (only parsing).
Notation SYNTHESIZER_HEADER_VOICE_GENDER := 5 (only parsing).
Notation SYNTHESIZER_HEADER_VOICE_AGE := 6 (only parsing).
Notation SYNTHESIZER_HEADER_VOICE_VARIANT := 7 (only parsing).
Notation SYNTHESIZER_HEADER_VOICE_NAME := 8 (only parsing).
Notation SYNTHESIZER_HEADER_PROSODY_VOLUME := 9 (only parsing).
Notation SYNTHESIZER_HEADER_PROSODY_RATE := 10 (only parsing).
Notation SYNTHESIZER_HEADER_SPEECH_MARKER := 11 (only parsing).
Notation SYNTHESIZER_HEADER_SPEECH_LANGUAGE := 12 (only parsing).
Notation SYNTHESIZER_HEADER_FETCH_HINT := 13 (only parsing).
Notation SYNTHESIZER_HEADER_AUDIO_FETCH_HINT := 14 (only parsing).
Notation SYNTHESIZER_HEADER_FAILED_URI := 15 (only parsing).
Notation SYNTHESIZER_HEADER_FAILED_URI_CAUSE := 16 (only parsing).
Notation SYNTHESIZER_HEADER_SPEAK_RESTART := 17 (only parsing).
Notation SYNTHESIZER_HEADER_SPEAK_LENGTH := 18 (only parsing).
Notation SYNTHESIZER_HEADER_LOAD_LEXICON := 19 (only parsing).
Notation SYNTHESIZER_HEADER_LEXICON_SEARCH_ORDER := 20 (only parsing).
Notation SYNTHESIZER_HEADER_COUNT := 21 (only parsing).
Notation SYNTHESIZER_COMPLETION_CAUSE_COUNT := 8 (only parsing).

Definition synth_header_string_table : list apt_str_table_item_t :=
  [item "Jump-Size" 0; item "Kill-On-Barge-In" 0; item "Speaker-Profile" 8;
   item "Completion-Cause" 16; item "Completion-Reason" 13; item "Voice-Gender" 6;
   item "Voice-Age" 6; item "Voice-Variant" 6; item "Voice-Name" 8; item "Prosody-Volume" 8;
   item "Prosody-Rate" 12; item "Speech-Marker" 7; item "Speech-Language" 7; item "Fetch-Hint" 2;
   item "Audio-Fetch-Hint" 0; item "Failed-Uri" 10; item "Failed-Uri_Cause" 10;
   item "Speak-Restart" 13; item "Speak-Length" 6; item "Load-Lexicon" 2;
   item "Lexicon-Search-Order" 2].

Definition synth_completion_cause_string_table : list apt_str_table_item_t :=
  [item "normal" 0; item "barge-in" 0; item "parse-failure" 0; item "uri-failure" 0;
   item "error" 0; item "language-unsupported" 4; item "lexicon-load-failure" 1;
   item "cancelled" 0].

(** [VOICE_GENDER_UNKNOWN] is [VOICE_GENDER_COUNT]. *)
Record mrcp_voice_param_t := mk_voice_param {
  gender : nat;
  age : Z;
  variant : Z;
  name : apt_str_t
}.

#[export] Instance eta_voice_param : Settable mrcp_voice_param_t :=
  settable! mk_voice_param < gender; age; variant; name >.

Record mrcp_prosody_param_t := mk_prosody_param {
  volume : mrcp_prosody_volume_t;
  rate : mrcp_prosody_rate_t
}.

#[export] Instance eta_prosody_param : Settable mrcp_prosody_param_t :=
  settable! mk_prosody_param < volume; rate >.

(** An enumeration is an [unsigned int]. *)
Record mrcp_synth_header_t := mk_synth_header {
  jump_size : mrcp_speech_length_value_t;
  kill_on_barge_in : bool;
  speaker_profile : apt_str_t;
  completion_cause : Z;
  completion_reason : apt_str_t;
  voice_param : mrcp_voice_param_t;
  prosody_param : mrcp_prosody_param_t;
  speech_marker : apt_str_t;
  speech_language : apt_str_t;
  fetch_hint : apt_str_t;
  audio_fetch_hint : apt_str_t;
  failed_uri : apt_str_t;
  failed_uri_cause : apt_str_t;
  speak_restart : bool;
  speak_length : mrcp_speech_length_value_t;
  load_lexicon : bool;
  lexicon_search_order : apt_str_t
}.

#[export] Instance eta_synth_header : Settable mrcp_synth_header_t :=
  settable! mk_synth_header < jump_size; kill_on_barge_in; speaker_profile; completion_cause;
    completion_reason; voice_param; prosody_param; speech_marker; speech_language; fetch_hint;
    audio_fetch_hint; failed_uri; failed_uri_cause; speak_restart; speak_length; load_lexicon;
    lexicon_search_order >.

(** What the unions of a freshly allocated header hold. *)
Record synth_junk := mk_synth_junk {
  junk_jump_size : speech_length_union;
  junk_speak_length : speech_length_union;
  junk_volume : float;
  junk_rate : float
}.

Definition mrcp_synth_header_init (m : synth_junk) : mrcp_synth_header_t :=
  mk_synth_header (mk_speech_length SPEECH_LENGTH_TYPE_UNKNOWN (junk_jump_size m)) false
    apt_string_reset (Z.of_nat SYNTHESIZER_COMPLETION_CAUSE_COUNT) apt_string_reset
    (mk_voice_param VOICE_GENDER_COUNT 0 0 apt_string_reset)
    (mk_prosody_param (PROSODY_VOLUME_TYPE_UNKNOWN (junk_volume m)) (PROSODY_RATE_TYPE_UNKNOWN (junk_rate m)))
    apt_string_reset apt_string_reset apt_string_reset apt_string_reset apt_string_reset
    apt_string_reset false (mk_speech_length SPEECH_LENGTH_TYPE_UNKNOWN (junk_speak_length m)) false
    apt_string_reset.

Section Operations.
  Context `{AprFormat} `{AprFloat} (junk : nat).

Definition mrcp_synth_header_parse (h : mrcp_synth_header_t) (id : nat) (v : apt_str_t)
    : bool * mrcp_synth_header_t :=
  match id with
  | SYNTHESIZER_HEADER_JUMP_SIZE =>
      (true, h <| jump_size := (mrcp_speech_length_value_parse junk (jump_size h) v).2 |>)
  | SYNTHESIZER_HEADER_KILL_ON_BARGE_IN =>
      (true, h <| kill_on_barge_in := default (kill_on_barge_in h) (apt_boolean_value_parse v) |>)
  | SYNTHESIZER_HEADER_SPEAKER_PROFILE =>
      (true, h <| speaker_profile := v |>)
  | SYNTHESIZER_HEADER_COMPLETION_CAUSE =>
      (true, h <| completion_cause := u32 (apt_size_value_parse v) |>)
  | SYNTHESIZER_HEADER_COMPLETION_REASON =>
      (true, h <| completion_reason := v |>)
  | SYNTHESIZER_HEADER_VOICE_GENDER =>
      (true, h <| voice_param := voice_param h <| gender := apt_string_table_value_parse voice_gender_string_table VOICE_GENDER_COUNT v |> |>)
  | SYNTHESIZER_HEADER_VOICE_AGE =>
      (true, h <| voice_param := voice_param h <| age := apt_size_value_parse v |> |>)
  | SYNTHESIZER_HEADER_VOICE_VARIANT =>
      (true, h <| voice_param := voice_param h <| variant := apt_size_value_parse v |> |>)
  | SYNTHESIZER_HEADER_VOICE_NAME =>
      (true, h <| voice_param := voice_param h <| name := v |> |>)
  | SYNTHESIZER_HEADER_PROSODY_VOLUME =>
      (true, h <| prosody_param := prosody_param h <| volume := (mrcp_prosody_param_volume_parse (volume (prosody_param h)) v).2 |> |>)
  | SYNTHESIZER_HEADER_PROSODY_RATE =>
      (true, h <| prosody_param := prosody_param h <| rate := (mrcp_prosody_param_rate_parse (rate (prosody_param h)) v).2 |> |>)
  | SYNTHESIZER_HEADER_SPEECH_MARKER =>
      (true, h <| speech_marker := v |>)
  | SYNTHESIZER_HEADER_SPEECH_LANGUAGE =>
      (true, h <| speech_language := v |>)
  | SYNTHESIZER_HEADER_FETCH_HINT =>
      (true, h <| fetch_hint := v |>)
  | SYNTHESIZER_HEADER_AUDIO_FETCH_HINT =>
      (true, h <| audio_fetch_hint := v |>)
  | SYNTHESIZER_HEADER_FAILED_URI =>
      (true, h <| failed_uri := v |>)
  | SYNTHESIZER_HEADER_FAILED_URI_CAUSE =>
      (true, h <| failed_uri_cause := v |>)
  | SYNTHESIZER_HEADER_SPEAK_RESTART =>
      (true, h <| speak_restart := default (speak_restart h) (apt_boolean_value_parse v) |>)
  | SYNTHESIZER_HEADER_SPEAK_LENGTH =>
      (true, h <| speak_length := (mrcp_speech_length_value_parse junk (speak_length h) v).2 |>)
  | SYNTHESIZER_HEADER_LOAD_LEXICON =>
      (true, h <| load_lexicon := default (load_lexicon h) (apt_boolean_value_parse v) |>)
  | SYNTHESIZER_HEADER_LEXICON_SEARCH_ORDER =>
      (true, h <| lexicon_search_order := v |>)
  | _ => (false, h)
  end.

(** The results of the inner calls are not used. *)
Definition mrcp_synth_header_generate (h : mrcp_synth_header_t) (id : nat) (v : apt_str_t)
    : bool * apt_str_t :=
  match id with
  | SYNTHESIZER_HEADER_JUMP_SIZE => (true, (mrcp_speech_length_generate junk (jump_size h) v).2)
  | SYNTHESIZER_HEADER_KILL_ON_BARGE_IN => (true, apt_boolean_value_generate (kill_on_barge_in h))
  | SYNTHESIZER_HEADER_SPEAKER_PROFILE => (true, speaker_profile h)
  | SYNTHESIZER_HEADER_COMPLETION_CAUSE => (true, default v
        (apt_completion_cause_generate synth_completion_cause_string_table SYNTHESIZER_COMPLETION_CAUSE_COUNT (Z.to_nat (completion_cause h))))
  | SYNTHESIZER_HEADER_COMPLETION_REASON => (true, completion_reason h)
  | SYNTHESIZER_HEADER_VOICE_GENDER => (true,
      (apt_string_table_value_pgenerate voice_gender_string_table VOICE_GENDER_COUNT
        (gender (voice_param h)) v).2)
  | SYNTHESIZER_HEADER_VOICE_AGE => (true, apt_size_value_generate (age (voice_param h)))
  | SYNTHESIZER_HEADER_VOICE_VARIANT => (true, apt_size_value_generate (variant (voice_param h)))
  | SYNTHESIZER_HEADER_VOICE_NAME => (true, name (voice_param h))
  | SYNTHESIZER_HEADER_PROSODY_VOLUME => (true, (mrcp_prosody_volume_generate (volume (prosody_param h)) v).2)
  | SYNTHESIZER_HEADER_PROSODY_RATE => (true, (mrcp_prosody_rate_generate (rate (prosody_param h)) v).2)
  | SYNTHESIZER_HEADER_SPEECH_MARKER => (true, speech_marker h)
  | SYNTHESIZER_HEADER_SPEECH_LANGUAGE => (true, speech_language h)
  | SYNTHESIZER_HEADER_FETCH_HINT => (true, fetch_hint h)
  | SYNTHESIZER_HEADER_AUDIO_FETCH_HINT => (true, audio_fetch_hint h)
  | SYNTHESIZER_HEADER_FAILED_URI => (true, failed_uri h)
  | SYNTHESIZER_HEADER_FAILED_URI_CAUSE => (true, failed_uri_cause h)
  | SYNTHESIZER_HEADER_SPEAK_RESTART => (true, apt_boolean_value_generate (speak_restart h))
  | SYNTHESIZER_HEADER_SPEAK_LENGTH => (true, (mrcp_speech_length_generate junk (speak_length h) v).2)
  | SYNTHESIZER_HEADER_LOAD_LEXICON => (true, apt_boolean_value_generate (load_lexicon h))
  | SYNTHESIZER_HEADER_LEXICON_SEARCH_ORDER => (true, lexicon_search_order h)
  | _ => (true, v)
  end.

Definition mrcp_synth_header_duplicate (h src : mrcp_synth_header_t) (id : nat) (v : apt_str_t)
    : bool * mrcp_synth_header_t :=
  match id with
  | SYNTHESIZER_HEADER_JUMP_SIZE =>
      (true, h <| jump_size := jump_size src |>)
  | SYNTHESIZER_HEADER_KILL_ON_BARGE_IN =>
      (true, h <| kill_on_barge_in := kill_on_barge_in src |>)
  | SYNTHESIZER_HEADER_SPEAKER_PROFILE =>
      (true, h <| speaker_profile := v |>)
  | SYNTHESIZER_HEADER_COMPLETION_CAUSE =>
      (true, h <| completion_cause := completion_cause src |>)
  | SYNTHESIZER_HEADER_COMPLETION_REASON =>
      (true, h <| completion_reason := v |>)
  | SYNTHESIZER_HEADER_VOICE_GENDER =>
      (true, h <| voice_param := voice_param h <| gender := gender (voice_param src) |> |>)
  | SYNTHESIZER_HEADER_VOICE_AGE =>
      (true, h <| voice_param := voice_param h <| age := age (voice_param src) |> |>)
  | SYNTHESIZER_HEADER_VOICE_VARIANT =>
      (true, h <| voice_param := voice_param h <| variant := variant (voice_param src) |> |>)
  | SYNTHESIZER_HEADER_VOICE_NAME =>
      (true, h <| voice_param := voice_param h <| name := v |> |>)
  | SYNTHESIZER_HEADER_PROSODY_VOLUME =>
      (true, h <| prosody_param := prosody_param h <| volume := volume (prosody_param src) |> |>)
  | SYNTHESIZER_HEADER_PROSODY_RATE =>
      (true, h <| prosody_param := prosody_param h <| rate := rate (prosody_param src) |> |>)
  | SYNTHESIZER_HEADER_SPEECH_MARKER =>
      (true, h <| speech_marker := v |>)
  | SYNTHESIZER_HEADER_SPEECH_LANGUAGE =>
      (true, h <| speech_language := v |>)
  | SYNTHESIZER_HEADER_FETCH_HINT =>
      (true, h <| fetch_hint := v |>)
  | SYNTHESIZER_HEADER_AUDIO_FETCH_HINT =>
      (true, h <| audio_fetch_hint := v |>)
  | SYNTHESIZER_HEADER_FAILED_URI =>
      (true, h <| failed_uri := v |>)
  | SYNTHESIZER_HEADER_FAILED_URI_CAUSE =>
      (true, h <| failed_uri_cause := v |>)
  | SYNTHESIZER_HEADER_SPEAK_RESTART =>
      (true, h <| speak_restart := speak_restart src |>)
  | SYNTHESIZER_HEADER_SPEAK_LENGTH =>
      (true, h <| speak_length := speak_length src |>)
  | SYNTHESIZER_HEADER_LOAD_LEXICON =>
      (true, h <| load_lexicon := load_lexicon src |>)
  | SYNTHESIZER_HEADER_LEXICON_SEARCH_ORDER =>
      (true, h <| lexicon_search_order := v |>)
  | _ => (false, h)
  end.

Definition synth_vtable (m : synth_junk) : mrcp_header_vtable_t mrcp_synth_header_t :=
  mk_vtable (mrcp_synth_header_init m) mrcp_synth_header_parse mrcp_synth_header_generate
    mrcp_synth_header_duplicate synth_header_string_table SYNTHESIZER_HEADER_COUNT.

Definition mrcp_synth_header_vtable_get (m : synth_junk) (v : mrcp_version_e)
    : mrcp_header_vtable_t mrcp_synth_header_t :=
  synth_vtable m.

Definition mrcp_synth_completion_cause_get (cause : nat) (v : mrcp_version_e) : option apt_str_t :=
  apt_string_table_str_get synth_completion_cause_string_table SYNTHESIZER_COMPLETION_CAUSE_COUNT cause.

(** ** The resource *)

Definition synth_method_string_table : list apt_str_table_item_t :=
  [item "SET-PARAMS" 10; item "GET-PARAMS" 0; item "SPEAK" 1; item "STOP" 1; item "PAUSE" 0;
   item "RESUME" 0; item "BARGE-IN-OCCURRED" 0; item "CONTROL" 0; item "DEFINE-LEXICON" 0].

Definition synth_event_string_table : list apt_str_table_item_t :=
  [item "SPEECH-MARKER" 3; item "SPEAK-COMPLETE" 3].

Definition mrcp_synth_resource_create (m : synth_junk) : @mrcp_resource_t mrcp_synth_header_t :=
  mk_resource 0 apt_string_reset (λ _, synth_method_string_table) 9
    (λ _, synth_event_string_table) 2 (mrcp_synth_header_vtable_get m).

(** ** The fields as values *)

Definition synth_kinds : list field_kind :=
  [KLength; KBool; KText;
   KCause synth_completion_cause_string_table SYNTHESIZER_COMPLETION_CAUSE_COUNT; KText;
   KName voice_gender_string_table VOICE_GENDER_COUNT; KSize; KSize; KText; KVolume; KRate; KText;
   KText; KText; KText; KText; KText; KBool; KLength; KBool; KText].

Definition synth_view (h : mrcp_synth_header_t) : list field_val :=
  [VLength (length_view (jump_size h)); VBool (kill_on_barge_in h);
   VText (chars (speaker_profile h)); VNum (completion_cause h);
   VText (chars (completion_reason h)); VId (gender (voice_param h)); VNum (age (voice_param h));
   VNum (variant (voice_param h)); VText (chars (name (voice_param h)));
   VVolume (volume (prosody_param h)); VRate (rate (prosody_param h));
   VText (chars (speech_marker h)); VText (chars (speech_language h)); VText (chars (fetch_hint h));
   VText (chars (audio_fetch_hint h)); VText (chars (failed_uri h));
   VText (chars (failed_uri_cause h)); VBool (speak_restart h);
   VLength (length_view (speak_length h)); VBool (load_lexicon h);
   VText (chars (lexicon_search_order h))].

#[local] Obligation Tactic := intros.

#[export] Program Instance synth_spec (m : synth_junk) : HeaderSpec junk (synth_vtable m) := {
  hs_kinds := synth_kinds;
  hs_view := synth_view
}.
Next Obligation. done. Qed.
Next Obligation. repeat constructor. Qed.
Next Obligation. apply name_table_check_ok. vm_compute. reflexivity. Qed.
Next Obligation. parse_cases. Qed.
Next Obligation. generate_cases. Qed.
Next Obligation. duplicate_cases. Qed.
Next Obligation. duplicate_other. Qed.

End Operations.
