(* ===== verification/RecogResource.v ===== *)
(** * RecogResource: the recognizer resource, its names and its header fields in
    both versions of the protocol ([mrcp_recog_header.c], [mrcp_recog_resource.c]). *)
From S2P Require Import Prelude CString StringTable TextStream StartLine FloatValue SynthValues.
From S2P Require Import RecordUpdate MrcpMessage HeaderFields.
From Stdlib Require Import SpecFloat.

(** ** Header fields *)

Notation RECOGNIZER_HEADER_CONFIDENCE_THRESHOLD := 0 (only parsing).
Notation RECOGNIZER_HEADER_SENSITIVITY_LEVEL := 1 (only parsing).
Notation RECOGNIZER_HEADER_SPEED_VS_ACCURACY := 2 (only parsing).
Notation RECOGNIZER_HEADER_N_BEST_LIST_LENGTH := 3 (only parsing).
Notation RECOGNIZER_HEADER_NO_INPUT_TIMEOUT := 4 (only parsing).
Notation RECOGNIZER_HEADER_RECOGNITION_TIMEOUT := 5 (only parsing).
Notation RECOGNIZER_HEADER_WAVEFORM_URI := 6 (only parsing).
Notation RECOGNIZER_HEADER_COMPLETION_CAUSE := 7 (only parsing).
Notation RECOGNIZER_HEADER_RECOGNIZER_CONTEXT_BLOCK := 8 (only parsing).
Notation RECOGNIZER_HEADER_START_INPUT_TIMERS := 9 (only parsing).
Notation RECOGNIZER_HEADER_SPEECH_COMPLETE_TIMEOUT := 10 (only parsing).
Notation RECOGNIZER_HEADER_SPEECH_INCOMPLETE_TIMEOUT := 11 (only parsing).
Notation RECOGNIZER_HEADER_DTMF_INTERDIGIT_TIMEOUT := 12 (only parsing).
Notation RECOGNIZER_HEADER_DTMF_TERM_TIMEOUT := 13 (only parsing).
Notation RECOGNIZER_HEADER_DTMF_TERM_CHAR := 14 (only parsing).
Notation RECOGNIZER_HEADER_FAILED_URI := 15 (only parsing).
Notation RECOGNIZER_HEADER_FAILED_URI_CAUSE := 16 (only parsing).
Notation RECOGNIZER_HEADER_SAVE_WAVEFORM := 17 (only parsing).
Notation RECOGNIZER_HEADER_NEW_AUDIO_CHANNEL := 18 (only parsing).
Notation RECOGNIZER_HEADER_SPEECH_LANGUAGE := 19 (only parsing).
Notation RECOGNIZER_HEADER_INPUT_TYPE := 20 (only parsing).
Notation RECOGNIZER_HEADER_INPUT_WAVEFORM_URI := 21 (only parsing).
Notation RECOGNIZER_HEADER_COMPLETION_REASON := 22 (only parsing).
Notation RECOGNIZER_HEADER_MEDIA_TYPE := 23 (only parsing).
Notation RECOGNIZER_HEADER_VER_BUFFER_UTTERANCE := 24 (only parsing).
Notation RECOGNIZER_HEADER_RECOGNITION_MODE := 25 (only parsing).
Notation RECOGNIZER_HEADER_CANCEL_IF_QUEUE := 26 (only parsing).
Notation RECOGNIZER_HEADER_HOTWORD_MAX_DURATION := 27 (only parsing).
Notation RECOGNIZER_HEADER_HOTWORD_MIN_DURATION := 28 (only parsing).
Notation RECOGNIZER_HEADER_INTERPRET_TEXT := 29 (only parsing).
Notation RECOGNIZER_HEADER_DTMF_BUFFER_TIME := 30 (only parsing).
Notation RECOGNIZER_HEADER_CLEAR_DTMF_BUFFER := 31 (only parsing).
Notation RECOGNIZER_HEADER_EARLY_NO_MATCH := 32 (only parsing).
Notation RECOGNIZER_HEADER_NUM_MIN_CONSISTENT_PRONUNCIATIONS := 33 (only parsing).
Notation RECOGNIZER_HEADER_CONSISTENCY_THRESHOLD := 34 (only parsing).
Notation RECOGNIZER_HEADER_CLASH_THRESHOLD := 35 (only parsing).
Notation RECOGNIZER_HEADER_PERSONAL_GRAMMAR_URI := 36 (only parsing).
Notation RECOGNIZER_HEADER_ENROLL_UTTERANCE := 37 (only parsing).
Notation RECOGNIZER_HEADER_PHRASE_ID := 38 (only parsing).
Notation RECOGNIZER_HEADER_PHRASE_NL := 39 (only parsing).
Notation RECOGNIZER_HEADER_WEIGHT := 40 (only parsing).
Notation RECOGNIZER_HEADER_SAVE_BEST_WAVEFORM := 41 (only parsing).
Notation RECOGNIZER_HEADER_NEW_PHRASE_ID := 42 (only parsing).
Notation RECOGNIZER_HEADER_CONFUSABLE_PHRASES_URI := 43 (only parsing).
Notation RECOGNIZER_HEADER_ABORT_PHRASE_ENROLLMENT := 44 (only parsing).
Notation RECOGNIZER_HEADER_COUNT := 45 (only parsing).
Notation RECOGNIZER_COMPLETION_CAUSE_COUNT := 17 (only parsing).

Definition v1_recog_header_string_table : list apt_str_table_item_t :=
  [item "Confidence-Threshold" 16; item "Sensitivity-Level" 14; item "Speed-Vs-Accuracy" 4;
   item "N-Best-List-Length" 1; item "No-Input-Timeout" 2; item "Recognition-Timeout" 19;
   item "Waveform-Url" 4; item "Completion-Cause" 16; item "Recognizer-Context-Block" 16;
   item "Recognizer-Start-Timers" 18; item "Speech-Complete-Timeout" 7;
   item "Speech-Incomplete-Timeout" 12; item "DTMF-Interdigit-Timeout" 10;
   item "DTMF-Term-Timeout" 14; item "DTMF-Term-Char" 14; item "Failed-Uri" 10;
   item "Failed-Uri-Cause" 16; item "Save-Waveform" 5; item "New-Audio-Channel" 17;
   item "Speech-Language" 8; item "Input-Type" 10; item "Input-Waveform-Uri" 6;
   item "Completion-Reason" 17; item "Media-Type" 0; item "Ver-Buffer-Utterance" 0;
   item "Recognition-Mode" 16; item "Cancel-If-Queue" 3; item "Hotword-Max-Duration" 10;
   item "Hotword-Min-Duration" 20; item "Interpret-Text" 12; item "DTMF-Buffer-Time" 16;
   item "Clear-DTMF-Buffer" 11; item "Early-No-Match" 4;
   item "Num-Min-Consistent-Pronunciations" 1; item "Consistency-Threshold" 16;
   item "Clash-Threshold" 2; item "Personal-Grammar-URI" 9; item "Enroll-Utterance" 10;
   item "Phrase-ID" 8; item "Phrase-NL" 9; item "Weight" 3; item "Save-Best-Waveform" 10;
   item "New-Phrase-ID" 4; item "Confusable-Phrases-URI" 4; item "Abort-Phrase-Enrollment" 0].

Definition v2_recog_header_string_table : list apt_str_table_item_t :=
  [item "Confidence-Threshold" 16; item "Sensitivity-Level" 14; item "Speed-Vs-Accuracy" 4;
   item "N-Best-List-Length" 1; item "No-Input-Timeout" 2; item "Recognition-Timeout" 19;
   item "Waveform-Uri" 4; item "Completion-Cause" 16; item "Recognizer-Context-Block" 7;
   item "Start-Input-Timers" 18; item "Speech-Complete-Timeout" 7;
   item "Speech-Incomplete-Timeout" 12; item "DTMF-Interdigit-Timeout" 10;
   item "DTMF-Term-Timeout" 14; item "DTMF-Term-Char" 14; item "Failed-Uri" 10;
   item "Failed-Uri-Cause" 16; item "Save-Waveform" 5; item "New-Audio-Channel" 17;
   item "Speech-Language" 8; item "Input-Type" 10; item "Input-Waveform-Uri" 6;
   item "Completion-Reason" 13; item "Media-Type" 0; item "Ver-Buffer-Utterance" 0;
   item "Recognition-Mode" 16; item "Cancel-If-Queue" 3; item "Hotword-Max-Duration" 10;
   item "Hotword-Min-Duration" 20; item "Interpret-Text" 12; item "DTMF-Buffer-Time" 16;
   item "Clear-DTMF-Buffer" 11; item "Early-No-Match" 4;
   item "Num-Min-Consistent-Pronunciations" 1; item "Consistency-Threshold" 16;
   item "Clash-Threshold" 15; item "Personal-Grammar-URI" 9; item "Enroll-Utterance" 10;
   item "Phrase-ID" 8; item "Phrase-NL" 9; item "Weight" 3; item "Save-Best-Waveform" 10;
   item "New-Phrase-ID" 4; item "Confusable-Phrases-URI" 4; item "Abort-Phrase-Enrollment" 0].

Definition v1_recog_completion_cause_string_table : list apt_str_table_item_t :=
  [item "success" 1; item "no-match" 8; item "no-input-timeout" 3; item "recognition-timeout" 0;
   item "gram-load-failure" 7; item "gram-comp-failure" 5; item "error" 0;
   item "speech-too-early" 1; item "too-much-speech-timeout" 0; item "uri-failure" 0;
   item "language-unsupported" 0; item "cancelled" 0; item "semantics-failure" 2;
   item "partial-match" 13; item "partial-match-maxtime" 13; item "no-match-maxtime" 9;
   item "gram-definition-failure" 5].

Definition v2_recog_completion_cause_string_table : list apt_str_table_item_t :=
  [item "success" 7; item "no-match" 4; item "no-input-timeout" 3; item "hotword-maxtime" 0;
   item "grammar-load-failure" 8; item "grammar-compilation-failure" 8; item "recognizer-error" 0;
   item "speech-too-early" 1; item "success-maxtime" 15; item "uri-failure" 0;
   item "language-unsupported" 0; item "cancelled" 0; item "semantics-failure" 2;
   item "partial-match" 13; item "partial-match-maxtime" 13; item "no-match-maxtime" 9;
   item "grammar-definition-failure" 9].

(** An enumeration is an [unsigned int]. *)
Record mrcp_recog_header_t := mk_recog_header {
  confidence_threshold : float;
  sensitivity_level : float;
  speed_vs_accuracy : float;
  n_best_list_length : Z;
  no_input_timeout : Z;
  recognition_timeout : Z;
  waveform_uri : apt_str_t;
  completion_cause : Z;
  recognizer_context_block : apt_str_t;
  start_input_timers : bool;
  speech_complete_timeout : Z;
  speech_incomplete_timeout : Z;
  dtmf_interdigit_timeout : Z;
  dtmf_term_timeout : Z;
  dtmf_term_char : char;
  failed_uri : apt_str_t;
  failed_uri_cause : apt_str_t;
  save_waveform : bool;
  new_audio_channel : bool;
  speech_language : apt_str_t;
  input_type : apt_str_t;
  input_waveform_uri : apt_str_t;
  completion_reason : apt_str_t;
  media_type : apt_str_t;
  ver_buffer_utterance : bool;
  recognition_mode : apt_str_t;
  cancel_if_queue : bool;
  hotword_max_duration : Z;
  hotword_min_duration : Z;
  interpret_text : apt_str_t;
  dtmf_buffer_time : Z;
  clear_dtmf_buffer : bool;
  early_no_match : bool;
  num_min_consistent_pronunciations : Z;
  consistency_threshold : float;
  clash_threshold : float;
  personal_grammar_uri : apt_str_t;
  enroll_utterance : bool;
  phrase_id : apt_str_t;
  phrase_nl : apt_str_t;
  weight : float;
  save_best_waveform : bool;
  new_phrase_id : apt_str_t;
  confusable_phrases_uri : apt_str_t;
  abort_phrase_enrollment : bool
}.

#[export] Instance eta_recog_header : Settable mrcp_recog_header_t :=
  settable! mk_recog_header < confidence_threshold; sensitivity_level; speed_vs_accuracy;
    n_best_list_length; no_input_timeout; recognition_timeout; waveform_uri; completion_cause;
    recognizer_context_block; start_input_timers; speech_complete_timeout;
    speech_incomplete_timeout; dtmf_interdigit_timeout; dtmf_term_timeout; dtmf_term_char;
    failed_uri; failed_uri_cause; save_waveform; new_audio_channel; speech_language; input_type;
    input_waveform_uri; completion_reason; media_type; ver_buffer_utterance; recognition_mode;
    cancel_if_queue; hotword_max_duration; hotword_min_duration; interpret_text; dtmf_buffer_time;
    clear_dtmf_buffer; early_no_match; num_min_consistent_pronunciations; consistency_threshold;
    clash_threshold; personal_grammar_uri; enroll_utterance; phrase_id; phrase_nl; weight;
    save_best_waveform; new_phrase_id; confusable_phrases_uri; abort_phrase_enrollment >.

Definition mrcp_recog_header_init : mrcp_recog_header_t :=
  mk_recog_header (S754_zero false) (S754_zero false) (S754_zero false) 0 0 0 apt_string_reset
    (Z.of_nat RECOGNIZER_COMPLETION_CAUSE_COUNT) apt_string_reset false 0 0 0 0 NUL apt_string_reset
    apt_string_reset false false apt_string_reset apt_string_reset apt_string_reset apt_string_reset
    apt_string_reset false apt_string_reset false 0 0 apt_string_reset 0 false false 0
    (S754_zero false) (S754_zero false) apt_string_reset false apt_string_reset apt_string_reset
    (S754_zero false) false apt_string_reset apt_string_reset false.

Definition mrcp_recog_header_parse (h : mrcp_recog_header_t) (id : nat) (v : apt_str_t)
    : bool * mrcp_recog_header_t :=
  match id with
  | RECOGNIZER_HEADER_N_BEST_LIST_LENGTH =>
      (true, h <| n_best_list_length := apt_size_value_parse v |>)
  | RECOGNIZER_HEADER_NO_INPUT_TIMEOUT =>
      (true, h <| no_input_timeout := apt_size_value_parse v |>)
  | RECOGNIZER_HEADER_RECOGNITION_TIMEOUT =>
      (true, h <| recognition_timeout := apt_size_value_parse v |>)
  | RECOGNIZER_HEADER_WAVEFORM_URI =>
      (true, h <| waveform_uri := v |>)
  | RECOGNIZER_HEADER_COMPLETION_CAUSE =>
      (true, h <| completion_cause := u32 (apt_size_value_parse v) |>)
  | RECOGNIZER_HEADER_RECOGNIZER_CONTEXT_BLOCK =>
      (true, h <| recognizer_context_block := v |>)
  | RECOGNIZER_HEADER_START_INPUT_TIMERS =>
      (true, h <| start_input_timers := default (start_input_timers h) (apt_boolean_value_parse v) |>)
  | RECOGNIZER_HEADER_SPEECH_COMPLETE_TIMEOUT =>
      (true, h <| speech_complete_timeout := apt_size_value_parse v |>)
  | RECOGNIZER_HEADER_SPEECH_INCOMPLETE_TIMEOUT =>
      (true, h <| speech_incomplete_timeout := apt_size_value_parse v |>)
  | RECOGNIZER_HEADER_DTMF_INTERDIGIT_TIMEOUT =>
      (true, h <| dtmf_interdigit_timeout := apt_size_value_parse v |>)
  | RECOGNIZER_HEADER_DTMF_TERM_TIMEOUT =>
      (true, h <| dtmf_term_timeout := apt_size_value_parse v |>)
  | RECOGNIZER_HEADER_DTMF_TERM_CHAR =>
      (true, h <| dtmf_term_char := hd_char (default [] (buf v)) |>)
  | RECOGNIZER_HEADER_FAILED_URI =>
      (true, h <| failed_uri := v |>)
  | RECOGNIZER_HEADER_FAILED_URI_CAUSE =>
      (true, h <| failed_uri_cause := v |>)
  | RECOGNIZER_HEADER_SAVE_WAVEFORM =>
      (true, h <| save_waveform := default (save_waveform h) (apt_boolean_value_parse v) |>)
  | RECOGNIZER_HEADER_NEW_AUDIO_CHANNEL =>
      (true, h <| new_audio_channel := default (new_audio_channel h) (apt_boolean_value_parse v) |>)
  | RECOGNIZER_HEADER_SPEECH_LANGUAGE =>
      (true, h <| speech_language := v |>)
  | RECOGNIZER_HEADER_INPUT_TYPE =>
      (true, h <| input_type := v |>)
  | RECOGNIZER_HEADER_MEDIA_TYPE =>
      (true, h <| media_type := v |>)
  | RECOGNIZER_HEADER_INPUT_WAVEFORM_URI =>
      (true, h <| input_waveform_uri := v |>)
  | RECOGNIZER_HEADER_COMPLETION_REASON =>
      (true, h <| completion_reason := v |>)
  | RECOGNIZER_HEADER_VER_BUFFER_UTTERANCE =>
      (true, h <| ver_buffer_utterance := default (ver_buffer_utterance h) (apt_boolean_value_parse v) |>)
  | RECOGNIZER_HEADER_RECOGNITION_MODE =>
      (true, h <| recognition_mode := v |>)
  | RECOGNIZER_HEADER_CANCEL_IF_QUEUE =>
      (true, h <| cancel_if_queue := default (cancel_if_queue h) (apt_boolean_value_parse v) |>)
  | RECOGNIZER_HEADER_HOTWORD_MAX_DURATION =>
      (true, h <| hotword_max_duration := apt_size_value_parse v |>)
  | RECOGNIZER_HEADER_HOTWORD_MIN_DURATION =>
      (true, h <| hotword_min_duration := apt_size_value_parse v |>)
  | RECOGNIZER_HEADER_INTERPRET_TEXT =>
      (true, h <| interpret_text := v |>)
  | RECOGNIZER_HEADER_DTMF_BUFFER_TIME =>
      (true, h <| dtmf_buffer_time := apt_size_value_parse v |>)
  | RECOGNIZER_HEADER_CLEAR_DTMF_BUFFER =>
      (true, h <| clear_dtmf_buffer := default (clear_dtmf_buffer h) (apt_boolean_value_parse v) |>)
  | RECOGNIZER_HEADER_EARLY_NO_MATCH =>
      (true, h <| early_no_match := default (early_no_match h) (apt_boolean_value_parse v) |>)
  | RECOGNIZER_HEADER_NUM_MIN_CONSISTENT_PRONUNCIATIONS =>
      (true, h <| num_min_consistent_pronunciations := apt_size_value_parse v |>)
  | RECOGNIZER_HEADER_CONSISTENCY_THRESHOLD =>
      (true, h <| consistency_threshold := apt_float_value_parse v |>)
  | RECOGNIZER_HEADER_CLASH_THRESHOLD =>
      (true, h <| clash_threshold := apt_float_value_parse v |>)
  | RECOGNIZER_HEADER_PERSONAL_GRAMMAR_URI =>
      (true, h <| personal_grammar_uri := v |>)
  | RECOGNIZER_HEADER_ENROLL_UTTERANCE =>
      (true, h <| enroll_utterance := default (enroll_utterance h) (apt_boolean_value_parse v) |>)
  | RECOGNIZER_HEADER_PHRASE_ID =>
      (true, h <| phrase_id := v |>)
  | RECOGNIZER_HEADER_PHRASE_NL =>
      (true, h <| phrase_nl := v |>)
  | RECOGNIZER_HEADER_WEIGHT =>
      (true, h <| weight := apt_float_value_parse v |>)
  | RECOGNIZER_HEADER_SAVE_BEST_WAVEFORM =>
      (true, h <| save_best_waveform := default (save_best_waveform h) (apt_boolean_value_parse v) |>)
  | RECOGNIZER_HEADER_NEW_PHRASE_ID =>
      (true, h <| new_phrase_id := v |>)
  | RECOGNIZER_HEADER_CONFUSABLE_PHRASES_URI =>
      (true, h <| confusable_phrases_uri := v |>)
  | RECOGNIZER_HEADER_ABORT_PHRASE_ENROLLMENT =>
      (true, h <| abort_phrase_enrollment := default (abort_phrase_enrollment h) (apt_boolean_value_parse v) |>)
  | _ => (false, h)
  end.

Definition mrcp_v1_recog_header_parse (h : mrcp_recog_header_t) (id : nat) (v : apt_str_t)
    : bool * mrcp_recog_header_t :=
  match id with
  | RECOGNIZER_HEADER_CONFIDENCE_THRESHOLD => (true, h <| confidence_threshold := apt_size_value_parse_as_float v |>)
  | RECOGNIZER_HEADER_SENSITIVITY_LEVEL => (true, h <| sensitivity_level := apt_size_value_parse_as_float v |>)
  | RECOGNIZER_HEADER_SPEED_VS_ACCURACY => (true, h <| speed_vs_accuracy := apt_size_value_parse_as_float v |>)
  | _ => mrcp_recog_header_parse h id v
  end.

Definition mrcp_v2_recog_header_parse (h : mrcp_recog_header_t) (id : nat) (v : apt_str_t)
    : bool * mrcp_recog_header_t :=
  match id with
  | RECOGNIZER_HEADER_CONFIDENCE_THRESHOLD => (true, h <| confidence_threshold := apt_float_value_parse v |>)
  | RECOGNIZER_HEADER_SENSITIVITY_LEVEL => (true, h <| sensitivity_level := apt_float_value_parse v |>)
  | RECOGNIZER_HEADER_SPEED_VS_ACCURACY => (true, h <| speed_vs_accuracy := apt_float_value_parse v |>)
  | _ => mrcp_recog_header_parse h id v
  end.

Section Generate.
  Context `{AprFormat} `{AprFloat}.

Definition mrcp_recog_header_generate (h : mrcp_recog_header_t) (id : nat) (v : apt_str_t)
    : bool * apt_str_t :=
  match id with
  | RECOGNIZER_HEADER_N_BEST_LIST_LENGTH => (true, apt_size_value_generate (n_best_list_length h))
  | RECOGNIZER_HEADER_NO_INPUT_TIMEOUT => (true, apt_size_value_generate (no_input_timeout h))
  | RECOGNIZER_HEADER_RECOGNITION_TIMEOUT => (true, apt_size_value_generate (recognition_timeout h))
  | RECOGNIZER_HEADER_WAVEFORM_URI => (true, waveform_uri h)
  | RECOGNIZER_HEADER_RECOGNIZER_CONTEXT_BLOCK => (true, recognizer_context_block h)
  | RECOGNIZER_HEADER_START_INPUT_TIMERS => (true, apt_boolean_value_generate (start_input_timers h))
  | RECOGNIZER_HEADER_SPEECH_COMPLETE_TIMEOUT => (true, apt_size_value_generate (speech_complete_timeout h))
  | RECOGNIZER_HEADER_SPEECH_INCOMPLETE_TIMEOUT => (true, apt_size_value_generate (speech_incomplete_timeout h))
  | RECOGNIZER_HEADER_DTMF_INTERDIGIT_TIMEOUT => (true, apt_size_value_generate (dtmf_interdigit_timeout h))
  | RECOGNIZER_HEADER_DTMF_TERM_TIMEOUT => (true, apt_size_value_generate (dtmf_term_timeout h))
  | RECOGNIZER_HEADER_DTMF_TERM_CHAR => (true, str_of [dtmf_term_char h])
  | RECOGNIZER_HEADER_FAILED_URI => (true, failed_uri h)
  | RECOGNIZER_HEADER_FAILED_URI_CAUSE => (true, failed_uri_cause h)
  | RECOGNIZER_HEADER_SAVE_WAVEFORM => (true, apt_boolean_value_generate (save_waveform h))
  | RECOGNIZER_HEADER_NEW_AUDIO_CHANNEL => (true, apt_boolean_value_generate (new_audio_channel h))
  | RECOGNIZER_HEADER_SPEECH_LANGUAGE => (true, speech_language h)
  | RECOGNIZER_HEADER_INPUT_TYPE => (true, input_type h)
  | RECOGNIZER_HEADER_INPUT_WAVEFORM_URI => (true, input_waveform_uri h)
  | RECOGNIZER_HEADER_COMPLETION_REASON => (true, completion_reason h)
  | RECOGNIZER_HEADER_MEDIA_TYPE => (true, media_type h)
  | RECOGNIZER_HEADER_VER_BUFFER_UTTERANCE => (true, apt_boolean_value_generate (ver_buffer_utterance h))
  | RECOGNIZER_HEADER_RECOGNITION_MODE => (true, recognition_mode h)
  | RECOGNIZER_HEADER_CANCEL_IF_QUEUE => (true, apt_boolean_value_generate (cancel_if_queue h))
  | RECOGNIZER_HEADER_HOTWORD_MAX_DURATION => (true, apt_size_value_generate (hotword_max_duration h))
  | RECOGNIZER_HEADER_HOTWORD_MIN_DURATION => (true, apt_size_value_generate (hotword_min_duration h))
  | RECOGNIZER_HEADER_INTERPRET_TEXT => (true, interpret_text h)
  | RECOGNIZER_HEADER_DTMF_BUFFER_TIME => (true, apt_size_value_generate (dtmf_buffer_time h))
  | RECOGNIZER_HEADER_CLEAR_DTMF_BUFFER => (true, apt_boolean_value_generate (clear_dtmf_buffer h))
  | RECOGNIZER_HEADER_EARLY_NO_MATCH => (true, apt_boolean_value_generate (early_no_match h))
  | RECOGNIZER_HEADER_NUM_MIN_CONSISTENT_PRONUNCIATIONS => (true, apt_size_value_generate (num_min_consistent_pronunciations h))
  | RECOGNIZER_HEADER_CONSISTENCY_THRESHOLD => (true, apt_float_value_generate (consistency_threshold h))
  | RECOGNIZER_HEADER_CLASH_THRESHOLD => (true, apt_float_value_generate (clash_threshold h))
  | RECOGNIZER_HEADER_PERSONAL_GRAMMAR_URI => (true, personal_grammar_uri h)
  | RECOGNIZER_HEADER_ENROLL_UTTERANCE => (true, apt_boolean_value_generate (enroll_utterance h))
  | RECOGNIZER_HEADER_PHRASE_ID => (true, phrase_id h)
  | RECOGNIZER_HEADER_PHRASE_NL => (true, phrase_nl h)
  | RECOGNIZER_HEADER_WEIGHT => (true, apt_float_value_generate (weight h))
  | RECOGNIZER_HEADER_SAVE_BEST_WAVEFORM => (true, apt_boolean_value_generate (save_best_waveform h))
  | RECOGNIZER_HEADER_NEW_PHRASE_ID => (true, new_phrase_id h)
  | RECOGNIZER_HEADER_CONFUSABLE_PHRASES_URI => (true, confusable_phrases_uri h)
  | RECOGNIZER_HEADER_ABORT_PHRASE_ENROLLMENT => (true, apt_boolean_value_generate (abort_phrase_enrollment h))
  | _ => (true, v)
  end.

Definition mrcp_v1_recog_header_generate (h : mrcp_recog_header_t) (id : nat) (v : apt_str_t)
    : bool * apt_str_t :=
  match id with
  | RECOGNIZER_HEADER_CONFIDENCE_THRESHOLD => (true, apt_size_value_generate_from_float (confidence_threshold h))
  | RECOGNIZER_HEADER_SENSITIVITY_LEVEL => (true, apt_size_value_generate_from_float (sensitivity_level h))
  | RECOGNIZER_HEADER_SPEED_VS_ACCURACY => (true, apt_size_value_generate_from_float (speed_vs_accuracy h))
  | RECOGNIZER_HEADER_COMPLETION_CAUSE =>
      match apt_completion_cause_generate v1_recog_completion_cause_string_table
        RECOGNIZER_COMPLETION_CAUSE_COUNT (Z.to_nat (completion_cause h)) with
      | Some s => (true, s)
      | None => (false, v)
      end
  | _ => mrcp_recog_header_generate h id v
  end.

Definition mrcp_v2_recog_header_generate (h : mrcp_recog_header_t) (id : nat) (v : apt_str_t)
    : bool * apt_str_t :=
  match id with
  | RECOGNIZER_HEADER_CONFIDENCE_THRESHOLD => (true, apt_float_value_generate (confidence_threshold h))
  | RECOGNIZER_HEADER_SENSITIVITY_LEVEL => (true, apt_float_value_generate (sensitivity_level h))
  | RECOGNIZER_HEADER_SPEED_VS_ACCURACY => (true, apt_float_value_generate (speed_vs_accuracy h))
  | RECOGNIZER_HEADER_COMPLETION_CAUSE =>
      match apt_completion_cause_generate v2_recog_completion_cause_string_table
        RECOGNIZER_COMPLETION_CAUSE_COUNT (Z.to_nat (completion_cause h)) with
      | Some s => (true, s)
      | None => (false, v)
      end
  | _ => mrcp_recog_header_generate h id v
  end.

Definition mrcp_recog_header_duplicate (h src : mrcp_recog_header_t) (id : nat) (v : apt_str_t)
    : bool * mrcp_recog_header_t :=
  match id with
  | RECOGNIZER_HEADER_CONFIDENCE_THRESHOLD => (true, h <| confidence_threshold := confidence_threshold src |>)
  | RECOGNIZER_HEADER_SENSITIVITY_LEVEL => (true, h <| sensitivity_level := sensitivity_level src |>)
  | RECOGNIZER_HEADER_SPEED_VS_ACCURACY => (true, h <| speed_vs_accuracy := speed_vs_accuracy src |>)
  | RECOGNIZER_HEADER_N_BEST_LIST_LENGTH => (true, h <| n_best_list_length := n_best_list_length src |>)
  | RECOGNIZER_HEADER_NO_INPUT_TIMEOUT => (true, h <| no_input_timeout := no_input_timeout src |>)
  | RECOGNIZER_HEADER_RECOGNITION_TIMEOUT => (true, h <| recognition_timeout := recognition_timeout src |>)
  | RECOGNIZER_HEADER_WAVEFORM_URI => (true, h <| waveform_uri := v |>)
  | RECOGNIZER_HEADER_COMPLETION_CAUSE => (true, h <| completion_cause := completion_cause src |>)
  | RECOGNIZER_HEADER_RECOGNIZER_CONTEXT_BLOCK => (true, h <| recognizer_context_block := v |>)
  | RECOGNIZER_HEADER_START_INPUT_TIMERS => (true, h <| start_input_timers := start_input_timers src |>)
  | RECOGNIZER_HEADER_SPEECH_COMPLETE_TIMEOUT => (true, h <| speech_complete_timeout := speech_complete_timeout src |>)
  | RECOGNIZER_HEADER_SPEECH_INCOMPLETE_TIMEOUT => (true, h <| speech_incomplete_timeout := speech_incomplete_timeout src |>)
  | RECOGNIZER_HEADER_DTMF_INTERDIGIT_TIMEOUT => (true, h <| dtmf_interdigit_timeout := dtmf_interdigit_timeout src |>)
  | RECOGNIZER_HEADER_DTMF_TERM_TIMEOUT => (true, h <| dtmf_term_timeout := dtmf_term_timeout src |>)
  | RECOGNIZER_HEADER_DTMF_TERM_CHAR => (true, h <| dtmf_term_char := dtmf_term_char src |>)
  | RECOGNIZER_HEADER_FAILED_URI => (true, h <| failed_uri := v |>)
  | RECOGNIZER_HEADER_FAILED_URI_CAUSE => (true, h <| failed_uri_cause := v |>)
  | RECOGNIZER_HEADER_SAVE_WAVEFORM => (true, h <| save_waveform := save_waveform src |>)
  | RECOGNIZER_HEADER_NEW_AUDIO_CHANNEL => (true, h <| new_audio_channel := new_audio_channel src |>)
  | RECOGNIZER_HEADER_SPEECH_LANGUAGE => (true, h <| speech_language := v |>)
  | RECOGNIZER_HEADER_INPUT_TYPE => (true, h <| input_type := v |>)
  | RECOGNIZER_HEADER_INPUT_WAVEFORM_URI => (true, h <| input_waveform_uri := v |>)
  | RECOGNIZER_HEADER_COMPLETION_REASON => (true, h <| completion_reason := v |>)
  | RECOGNIZER_HEADER_MEDIA_TYPE => (true, h <| media_type := v |>)
  | RECOGNIZER_HEADER_VER_BUFFER_UTTERANCE => (true, h <| ver_buffer_utterance := ver_buffer_utterance src |>)
  | RECOGNIZER_HEADER_RECOGNITION_MODE => (true, h <| recognition_mode := v |>)
  | RECOGNIZER_HEADER_CANCEL_IF_QUEUE => (true, h <| cancel_if_queue := cancel_if_queue src |>)
  | RECOGNIZER_HEADER_HOTWORD_MAX_DURATION => (true, h <| hotword_max_duration := hotword_max_duration src |>)
  | RECOGNIZER_HEADER_HOTWORD_MIN_DURATION => (true, h <| hotword_min_duration := hotword_min_duration src |>)
  | RECOGNIZER_HEADER_INTERPRET_TEXT => (true, h <| interpret_text := v |>)
  | RECOGNIZER_HEADER_DTMF_BUFFER_TIME => (true, h <| dtmf_buffer_time := dtmf_buffer_time src |>)
  | RECOGNIZER_HEADER_CLEAR_DTMF_BUFFER => (true, h <| clear_dtmf_buffer := clear_dtmf_buffer src |>)
  | RECOGNIZER_HEADER_EARLY_NO_MATCH => (true, h <| early_no_match := early_no_match src |>)
  | RECOGNIZER_HEADER_NUM_MIN_CONSISTENT_PRONUNCIATIONS => (true, h <| num_min_consistent_pronunciations := num_min_consistent_pronunciations src |>)
  | RECOGNIZER_HEADER_CONSISTENCY_THRESHOLD => (true, h <| consistency_threshold := consistency_threshold src |>)
  | RECOGNIZER_HEADER_CLASH_THRESHOLD => (true, h <| clash_threshold := clash_threshold src |>)
  | RECOGNIZER_HEADER_PERSONAL_GRAMMAR_URI => (true, h <| personal_grammar_uri := v |>)
  | RECOGNIZER_HEADER_ENROLL_UTTERANCE => (true, h <| enroll_utterance := enroll_utterance src |>)
  | RECOGNIZER_HEADER_PHRASE_ID => (true, h <| phrase_id := v |>)
  | RECOGNIZER_HEADER_PHRASE_NL => (true, h <| phrase_nl := v |>)
  | RECOGNIZER_HEADER_WEIGHT => (true, h <| weight := weight src |>)
  | RECOGNIZER_HEADER_SAVE_BEST_WAVEFORM => (true, h <| save_best_waveform := save_best_waveform src |>)
  | RECOGNIZER_HEADER_NEW_PHRASE_ID => (true, h <| new_phrase_id := v |>)
  | RECOGNIZER_HEADER_CONFUSABLE_PHRASES_URI => (true, h <| confusable_phrases_uri := v |>)
  | RECOGNIZER_HEADER_ABORT_PHRASE_ENROLLMENT => (true, h <| abort_phrase_enrollment := abort_phrase_enrollment src |>)
  | _ => (false, h)
  end.

Definition v1_recog_vtable : mrcp_header_vtable_t mrcp_recog_header_t :=
  mk_vtable mrcp_recog_header_init mrcp_v1_recog_header_parse mrcp_v1_recog_header_generate
    mrcp_recog_header_duplicate v1_recog_header_string_table RECOGNIZER_HEADER_COUNT.

Definition v2_recog_vtable : mrcp_header_vtable_t mrcp_recog_header_t :=
  mk_vtable mrcp_recog_header_init mrcp_v2_recog_header_parse mrcp_v2_recog_header_generate
    mrcp_recog_header_duplicate v2_recog_header_string_table RECOGNIZER_HEADER_COUNT.

Definition mrcp_recog_header_vtable_get (v : mrcp_version_e) : mrcp_header_vtable_t mrcp_recog_header_t :=
  match v with MRCP_VERSION_1 => v1_recog_vtable | _ => v2_recog_vtable end.

Definition mrcp_recog_completion_cause_get (cause : nat) (v : mrcp_version_e) : option apt_str_t :=
  apt_string_table_str_get
    (match v with MRCP_VERSION_1 => v1_recog_completion_cause_string_table
     | _ => v2_recog_completion_cause_string_table end)
    RECOGNIZER_COMPLETION_CAUSE_COUNT cause.

(** ** The resource *)

Definition v1_recog_method_string_table : list apt_str_table_item_t :=
  [item "SET-PARAMS" 10; item "GET-PARAMS" 10; item "DEFINE-GRAMMAR" 2; item "RECOGNIZE" 7;
   item "INTERPRET" 0; item "GET-RESULT" 6; item "RECOGNITION-START-TIMERS" 7; item "STOP" 2;
   item "START-PHRASE-ENROLLMENT" 2; item "ENROLLMENT-ROLLBACK" 2; item "END-PHRASE-ENROLLMENT" 5;
   item "MODIFY-PHRASE" 0; item "DELETE-PHRASE" 2].

Definition v1_recog_event_string_table : list apt_str_table_item_t :=
  [item "START-OF-SPEECH" 0; item "RECOGNITION-COMPLETE" 0; item "INTERPRETATION-COMPLETE" 0].

Definition v2_recog_method_string_table : list apt_str_table_item_t :=
  [item "SET-PARAMS" 10; item "GET-PARAMS" 10; item "DEFINE-GRAMMAR" 2; item "RECOGNIZE" 0;
   item "INTERPRET" 0; item "GET-RESULT" 6; item "START-INPUT-TIMERS" 7; item "STOP" 2;
   item "START-PHRASE-ENROLLMENT" 6; item "ENROLLMENT-ROLLBACK" 2; item "END-PHRASE-ENROLLMENT" 5;
   item "MODIFY-PHRASE" 0; item "DELETE-PHRASE" 2].

Definition v2_recog_event_string_table : list apt_str_table_item_t :=
  [item "START-OF-INPUT" 0; item "RECOGNITION-COMPLETE" 0; item "INTERPRETATION-COMPLETE" 0].

Definition recog_method_string_table_get (v : mrcp_version_e) : list apt_str_table_item_t :=
  match v with MRCP_VERSION_1 => v1_recog_method_string_table | _ => v2_recog_method_string_table end.

Definition recog_event_string_table_get (v : mrcp_version_e) : list apt_str_table_item_t :=
  match v with MRCP_VERSION_1 => v1_recog_event_string_table | _ => v2_recog_event_string_table end.

Definition mrcp_recog_resource_create : @mrcp_resource_t mrcp_recog_header_t :=
  mk_resource 0 apt_string_reset recog_method_string_table_get 13
    recog_event_string_table_get 3 mrcp_recog_header_vtable_get.

(** ** The fields as values *)

(** [level] is the kind of the three levels: a percentage in version 1, a fraction in version 2. *)
Definition recog_kinds (level : field_kind) (causes : list apt_str_table_item_t) : list field_kind :=
  [level; level; level; KSize; KSize; KSize; KText; KCause causes RECOGNIZER_COMPLETION_CAUSE_COUNT;
   KText; KBool; KSize; KSize; KSize; KSize; KChar; KText; KText; KBool; KBool; KText; KText; KText;
   KText; KText; KBool; KText; KBool; KSize; KSize; KText; KSize; KBool; KBool; KSize; KFloat;
   KFloat; KText; KBool; KText; KText; KFloat; KBool; KText; KText; KBool].

Definition recog_view (h : mrcp_recog_header_t) : list field_val :=
  [VFloat (confidence_threshold h); VFloat (sensitivity_level h); VFloat (speed_vs_accuracy h);
   VNum (n_best_list_length h); VNum (no_input_timeout h); VNum (recognition_timeout h);
   VText (chars (waveform_uri h)); VNum (completion_cause h);
   VText (chars (recognizer_context_block h)); VBool (start_input_timers h);
   VNum (speech_complete_timeout h); VNum (speech_incomplete_timeout h);
   VNum (dtmf_interdigit_timeout h); VNum (dtmf_term_timeout h); VChar (dtmf_term_char h);
   VText (chars (failed_uri h)); VText (chars (failed_uri_cause h)); VBool (save_waveform h);
   VBool (new_audio_channel h); VText (chars (speech_language h)); VText (chars (input_type h));
   VText (chars (input_waveform_uri h)); VText (chars (completion_reason h));
   VText (chars (media_type h)); VBool (ver_buffer_utterance h); VText (chars (recognition_mode h));
   VBool (cancel_if_queue h); VNum (hotword_max_duration h); VNum (hotword_min_duration h);
   VText (chars (interpret_text h)); VNum (dtmf_buffer_time h); VBool (clear_dtmf_buffer h);
   VBool (early_no_match h); VNum (num_min_consistent_pronunciations h);
   VFloat (consistency_threshold h); VFloat (clash_threshold h);
   VText (chars (personal_grammar_uri h)); VBool (enroll_utterance h); VText (chars (phrase_id h));
   VText (chars (phrase_nl h)); VFloat (weight h); VBool (save_best_waveform h);
   VText (chars (new_phrase_id h)); VText (chars (confusable_phrases_uri h));
   VBool (abort_phrase_enrollment h)].

#[local] Obligation Tactic := intros.

#[export] Program Instance v1_recog_spec (junk : nat) : HeaderSpec junk v1_recog_vtable := {
  hs_kinds := recog_kinds KPercent v1_recog_completion_cause_string_table;
  hs_view := recog_view
}.
Next Obligation. done. Qed.
Next Obligation. repeat constructor. Qed.
Next Obligation. apply name_table_check_ok. vm_compute. reflexivity. Qed.
Next Obligation. parse_cases. Qed.
Next Obligation. generate_cases. Qed.
Next Obligation. duplicate_cases. Qed.
Next Obligation. duplicate_other. Qed.

#[export] Program Instance v2_recog_spec (junk : nat) : HeaderSpec junk v2_recog_vtable := {
  hs_kinds := recog_kinds KFloat v2_recog_completion_cause_string_table;
  hs_view := recog_view
}.
Next Obligation. done. Qed.
Next Obligation. repeat constructor. Qed.
Next Obligation. apply name_table_check_ok. vm_compute. reflexivity. Qed.
Next Obligation. parse_cases. Qed.
Next Obligation. generate_cases. Qed.
Next Obligation. duplicate_cases. Qed.
Next Obligation. duplicate_other. Qed.

End Generate.
