(* ===== verification/ResourceNames.v ===== *)
(** * ResourceNames: the names of the four resources are told apart, and what the
    text of a header value keeps of it: the percentages of MRCPv1 and the
    relative volumes. *)
From S2P Require Import Prelude CString StringTable TextStream TextValues StartLine FloatValue.
From S2P Require Import SynthValues RecordUpdate MrcpMessage HeaderFields.
From S2P Require Import RecorderResource VerifierResource SynthResource RecogResource.
From Stdlib Require Import SpecFloat.

(** ** Names *)

(** The first [n] names of the table [t] stand for their positions, in any case. *)
Definition tells_apart (p : list apt_str_table_item_t * nat) : Prop :=
  ∀ id, id < p.2 →
  ∃ name, apt_string_table_str_get p.1 p.2 id = Some name ∧
    ∀ v, str_wf v → ci_eq (chars v) (chars name) → apt_string_table_id_find p.1 p.2 v = id.

Lemma name_table_tells (p : list apt_str_table_item_t * nat) :
  name_table_check p.1 p.2 = true → tells_apart p.
Proof.
  intros Hok%name_table_check_ok id Hid.
  destruct (name_table_find _ _ _ Hok Hid) as (name & Hget & _ & _ & Hfind). by exists name.
Qed.

(** The tables of a resource in the version [v] of the protocol. *)
Definition resource_tables {R} (r : @mrcp_resource_t R) (v : mrcp_version_e)
    : list (list apt_str_table_item_t * nat) :=
  let vt := get_resource_header_vtable r v in
  [(get_method_str_table r v, method_count r); (get_event_str_table r v, event_count r);
   (field_table vt, field_count vt)].

(** The completion causes of the resources. *)
Definition cause_tables : list (list apt_str_table_item_t * nat) :=
  [(recorder_completion_cause_string_table, RECORDER_COMPLETION_CAUSE_COUNT);
   (verifier_completion_cause_string_table, VERIFIER_COMPLETION_CAUSE_COUNT);
   (synth_completion_cause_string_table, SYNTHESIZER_COMPLETION_CAUSE_COUNT);
   (v1_recog_completion_cause_string_table, RECOGNIZER_COMPLETION_CAUSE_COUNT);
   (v2_recog_completion_cause_string_table, RECOGNIZER_COMPLETION_CAUSE_COUNT)].

(** No name of a resource is taken for another.  For the recognizer, the
    synthesizer, the recorder and the verifier, in both versions of the
    protocol, every identifier of a method, an event, a header field or a
    completion cause has a name, and the keyed search for that name, in any
    case, finds the identifier. *)
Theorem resource_names_unambiguous `{AprFormat} `{AprFloat} (junk : nat) (m : synth_junk)
  (v : mrcp_version_e) (p : list apt_str_table_item_t * nat)
  (Hp : p ∈ resource_tables mrcp_recog_resource_create v ++
            resource_tables (mrcp_synth_resource_create junk m) v ++
            resource_tables mrcp_recorder_resource_create v ++
            resource_tables mrcp_verifier_resource_create v ++ cause_tables) :
  tells_apart p.
Proof.
  apply name_table_tells. revert p Hp. apply Forall_forall.
  destruct v; repeat apply List.Forall_cons; try apply List.Forall_nil; vm_compute; reflexivity.
Qed.

Lemma resource_names_unambiguous_witness :
  tells_apart (v2_recog_method_string_table, 13).
Proof.
  apply (resource_names_unambiguous 0 (mk_synth_junk (SpeechNumeric 0 0) (SpeechNumeric 0 0)
    (S754_zero false) (S754_zero false)) MRCP_VERSION_2).
  left.
Defined.

(** ** Percentages *)

(** The recognizer reads [n] percent and writes them back. *)
Definition level_kept `{AprFormat} (id n : nat) : Prop :=
  ∀ h v, mrcp_v1_recog_header_generate
           (mrcp_v1_recog_header_parse h id (str_of (dec_u (Z.of_nat n)))).2 id v
         = (true, str_of (dec_u (Z.of_nat n))).

(** The number a percentage is written as. *)
Definition percent_out (n : nat) : option Z :=
  size_of_float (F32 SFmul (F32 SFadd
    (apt_size_value_parse_as_float (str_of (dec_u (Z.of_nat n)))) milli) (float_of_Z 100)).

Lemma percent_exact (n : nat) : n ≤ 100 → percent_out n = Some (Z.of_nat n).
Proof.
  intros Hn. assert (Hall : Forall (λ n, percent_out n = Some (Z.of_nat n)) (seq 0 101))
    by (apply (bool_decide_unpack _); vm_compute; exact I).
  apply (proj1 (Forall_forall _ _) Hall). apply elem_of_seq. lia.
Qed.

(** The levels of MRCPv1 are percentages, and no percentage is lost in the
    floats they are kept in: a confidence threshold, a sensitivity level or a
    speed of 0 to 100 percent that the recognizer header reads is written back
    as the same number. *)
Theorem percentages_kept `{AprFormat} (id n : nat)
  (Hid : id ∈ [RECOGNIZER_HEADER_CONFIDENCE_THRESHOLD; RECOGNIZER_HEADER_SENSITIVITY_LEVEL;
               RECOGNIZER_HEADER_SPEED_VS_ACCURACY]) (Hn : n ≤ 100) :
  level_kept id n.
Proof.
  assert (Hgen : apt_size_value_generate_from_float
    (apt_size_value_parse_as_float (str_of (dec_u (Z.of_nat n)))) = str_of (dec_u (Z.of_nat n))).
  { unfold apt_size_value_generate_from_float, percent. fold (percent_out n). rewrite percent_exact by done.
    unfold apt_size_value_generate. simpl. by rewrite apr_psprintf_u_spec by lia. }
  intros h v. rewrite !elem_of_cons, elem_of_nil in Hid.
  destruct Hid as [->|[->|[->|[]]]]; simpl; by rewrite Hgen.
Qed.

Lemma percentages_kept_witness : level_kept RECOGNIZER_HEADER_SENSITIVITY_LEVEL 29.
Proof. apply (percentages_kept 1 29); [right; left|lia]. Defined.

(** ** Relative volumes *)

(** A louder Prosody-Volume becomes an absolute one on the way.  A
    relative change that is read from a text with a plus sign is written
    without the sign, so the peer reads the number as an absolute volume. *)
Theorem louder_becomes_absolute `{AprFormat} `{AprFloat} (junk : nat)
  (h h0 : mrcp_synth_header_t) (digits : cstr) (v : apt_str_t) (x : float)
  (Hx : x = apt_float_value_parse (str_of ("+"%char :: digits)))
  (Hfin : float_finite x = true) (Hsign : float_sign x = false) :
  let read h s := (mrcp_synth_header_parse junk h SYNTHESIZER_HEADER_PROSODY_VOLUME s).2 in
  let h1 := read h (str_of ("+"%char :: digits)) in
  let out := (mrcp_synth_header_generate junk h1 SYNTHESIZER_HEADER_PROSODY_VOLUME v).2 in
  volume (prosody_param h1) = PROSODY_VOLUME_TYPE_RELATIVE_CHANGE x ∧
  ∃ x', float_received x x' ∧
    volume (prosody_param (read h0 (str_of (chars out)))) = PROSODY_VOLUME_TYPE_NUMERIC x'.
Proof.
  intros read h1 out. assert (Hv : volume (prosody_param h1) = PROSODY_VOLUME_TYPE_RELATIVE_CHANGE x)
    by (by rewrite Hx). split; [done|].
  assert (Hout : out = apt_float_value_generate x).
  { change out with (mrcp_prosody_volume_generate (volume (prosody_param h1)) v).2. by rewrite Hv. }
  rewrite Hout. destruct (float_volume_sent x (volume (prosody_param h0)) Hfin) as (_ & x' & Hr & E).
  rewrite Hsign in E. by exists x'.
Qed.

Lemma louder_becomes_absolute_witness :
  let x := apt_float_value_parse (str_of (lit "+5")) in
  let h := mrcp_synth_header_init (mk_synth_junk (SpeechNumeric 0 0) (SpeechNumeric 0 0)
             (S754_zero false) (S754_zero false)) in
  let h1 := (mrcp_synth_header_parse 0 h SYNTHESIZER_HEADER_PROSODY_VOLUME (str_of (lit "+5"))).2 in
  volume (prosody_param h1) = PROSODY_VOLUME_TYPE_RELATIVE_CHANGE x ∧
  ∃ x', float_received x x' ∧ volume (prosody_param (mrcp_synth_header_parse 0 h SYNTHESIZER_HEADER_PROSODY_VOLUME
    (str_of (lit "5.0"))).2) = PROSODY_VOLUME_TYPE_NUMERIC x'.
Proof.
  intros x h h1.
  destruct (louder_becomes_absolute 0 h h (lit "5") apt_string_reset x) as (Hv & x' & Hr & Hn).
  - reflexivity.
  - vm_compute. reflexivity.
  - vm_compute. reflexivity.
  - split; [exact Hv|]. exists x'. split; [exact Hr|]. etransitivity; [|exact Hn]. vm_compute. reflexivity.
Defined.

(** ** Hundredths *)

Definition hundredth (n : nat) : float := F32 SFdiv (float_of_Z (Z.of_nat n)) (float_of_Z 100).

(** The confidences and sensitivities of MRCPv2 are kept: a hundredth between 0
    and 1 is read back as the same float. *)
Theorem hundredths_kept (n : nat) (Hn : n ≤ 100) :
  apt_float_value_parse (str_of (chars (apt_float_value_generate (hundredth n)))) = hundredth n.
Proof.
  assert (Hall : Forall (λ n, apt_float_value_parse (str_of (chars (apt_float_value_generate (hundredth n))))
    = hundredth n) (seq 0 101)) by (apply (bool_decide_unpack _); vm_compute; exact I).
  apply (proj1 (Forall_forall _ _) Hall). apply elem_of_seq. lia.
Qed.
