(* ===== verification/MrcpMessageTheory.v ===== *)
(** * MrcpMessageTheory: an MRCP message that was generated is read back, and
    what a hostile Content-Length does. *)
From S2P Require Import Prelude CString StringTable TextStream TextStreamTheory TextValues.
From S2P Require Import StartLine StartLineTheory HeaderSection TextMessage TextMessageTheory.
From S2P Require Import GenericHeader GenericHeaderTheory MrcpMessage.

(** ** Fields in place *)

Lemma field_at_elem (h : apt_header_section_t) (l : loc) (f : apt_header_field_t) :
  NoDup (fst <$> ring h) → (l, f) ∈ ring h → field_at h l = Some f.
Proof.
  intros Hnd Hin. unfold field_at.
  destruct (list_find_elem_of (λ p, p.1 = l) (ring h) (l, f) Hin eq_refl) as [[i [l' g]] E].
  rewrite E. simpl. apply list_find_Some in E as (Hi & Hl & _). simpl in *. subst l'.
  apply list_elem_of_lookup in Hin as [j Hj]. assert (i = j) as ->; [|congruence].
  eapply NoDup_lookup; [exact Hnd|rewrite list_lookup_fmap, Hi; done|].
  by rewrite list_lookup_fmap, Hj.
Qed.

(** The addresses, names and values of the fields, without the identifiers. *)
Definition skeleton (h : apt_header_section_t) : list (loc * (apt_str_t * apt_str_t)) :=
  (λ p, (p.1, (field_name p.2, field_value p.2))) <$> ring h.

Lemma skeleton_locs (h : apt_header_section_t) : fst <$> skeleton h = fst <$> ring h.
Proof. unfold skeleton. rewrite <- list_fmap_compose. done. Qed.

Lemma skeleton_field (h : apt_header_section_t) (l : loc) (nv : apt_str_t * apt_str_t) :
  NoDup (fst <$> ring h) → (l, nv) ∈ skeleton h →
  ∃ f, field_at h l = Some f ∧ (l, f) ∈ ring h ∧ field_name f = nv.1 ∧ field_value f = nv.2.
Proof.
  intros Hnd Hin. unfold skeleton in Hin. apply list_elem_of_fmap in Hin as ([l' f] & Heq & Hin).
  simpl in Heq. injection Heq as -> ->. exists f. split_and!; try done. by apply field_at_elem.
Qed.

Lemma skeleton_update (h : apt_header_section_t) (l : loc) (f f' : apt_header_field_t) :
  NoDup (fst <$> ring h) → (l, f) ∈ ring h →
  field_name f' = field_name f → field_value f' = field_value f →
  skeleton (field_update h l (λ _, f')) = skeleton h.
Proof.
  intros Hnd Hin Hn Hv. unfold skeleton, field_update. simpl. rewrite <- list_fmap_compose.
  apply list_fmap_ext. intros i [l' g] Hg. simpl. case_decide as He; [|done]. subst l'. simpl.
  rewrite Hn, Hv. do 2 f_equal.
  - pose proof (field_at_elem h l f Hnd Hin) as E1.
    rewrite (field_at_elem h l g Hnd) in E1 by (by eapply list_elem_of_lookup_2). congruence.
  - pose proof (field_at_elem h l f Hnd Hin) as E1.
    rewrite (field_at_elem h l g Hnd) in E1 by (by eapply list_elem_of_lookup_2). congruence.
Qed.

(** ** The Content-Length field *)

Definition CONTENT_LENGTH_NAME : cstr := lit "Content-Length".
Definition CL : nat := generic_header_num GENERIC_HEADER_CONTENT_LENGTH.

Definition is_cl (name : apt_str_t) : Prop := ci_eq (chars name) CONTENT_LENGTH_NAME.

#[export] Instance is_cl_dec (name : apt_str_t) : Decision (is_cl name).
Proof. unfold is_cl. apply _. Defined.

Lemma generic_table_wf : table_wf (take GENERIC_HEADER_COUNT generic_header_string_table).
Proof. repeat constructor; try (vm_compute; lia); by apply (bool_decide_unpack _). Qed.

Lemma generic_table_distinct :
  names_distinct (take GENERIC_HEADER_COUNT generic_header_string_table).
Proof. apply names_distinct_NoDup. apply (bool_decide_unpack _). vm_compute. exact I. Qed.

Lemma generic_find_cl (name : apt_str_t) :
  str_wf name →
  apt_string_table_id_find generic_header_string_table GENERIC_HEADER_COUNT name = CL ↔ is_cl name.
Proof.
  intros Hw. split.
  - intros Hid. destruct (id_find_inv generic_header_string_table GENERIC_HEADER_COUNT name)
      as (it & Hit & Heq); [apply generic_table_wf|done|rewrite Hid; vm_compute; lia|].
    rewrite Hid in Hit. vm_compute in Hit. injection Hit as <-. unfold is_cl. by symmetry.
  - intros Hcl. eapply id_find_at; [apply generic_table_wf|done|apply generic_table_distinct
      |reflexivity|done|exact Hcl].
Qed.

(** Resource headers that do not define a Content-Length of their own. *)
Definition resource_vtable_ok {R} (rvt : mrcp_header_vtable_t R) : Prop :=
  table_wf (take (field_count rvt) (field_table rvt)) ∧
  Forall (λ it, ~ ci_eq (chars (value it)) CONTENT_LENGTH_NAME)
    (take (field_count rvt) (field_table rvt)) ∧
  (Z.of_nat (field_count rvt) < 2 ^ 32)%Z.

(** What a header section leaves behind, field by field: the data of the resource
    header and the identifiers of the fields it accepted. *)
Definition recv {R} (rvt : mrcp_header_vtable_t R) (acc : R * list nat) (nv : apt_str_t * apt_str_t)
    : R * list nat :=
  let id := apt_string_table_id_find (field_table rvt) (field_count rvt) nv.1 in
  if decide (field_count rvt ≤ id) then acc
  else if decide (len nv.2 = 0) then (acc.1, id :: acc.2)
  else
    let '(ok, d) := parse_field rvt acc.1 id nv.2 in
    (d, if ok : bool then id :: acc.2 else acc.2).

Definition recv_all {R} (rvt : mrcp_header_vtable_t R) (acc : R * list nat)
    (sk : list (loc * (apt_str_t * apt_str_t))) : R * list nat :=
  foldl (λ a p, recv rvt a p.2) acc sk.

(** The resource properties of a section. *)
Definition has_resource (s : apt_header_section_t) (id : nat) : bool :=
  apt_header_section_field_check s (Z.of_nat (id + GENERIC_HEADER_COUNT)).

Section Parse.
  Context `{AprFormat} {R : Type} (fresh : apt_pair_t) (rvt : mrcp_header_vtable_t R).
  Hypothesis Hrvt : resource_vtable_ok rvt.

(** A header whose accessors are allocated. *)
Definition ready (h : @mrcp_message_header_t R) : Prop :=
  acc_vtable (generic_header_accessor h) = Some (generic_vtable fresh) ∧
  is_Some (acc_data (generic_header_accessor h)) ∧
  acc_vtable (resource_header_accessor h) = Some rvt ∧
  is_Some (acc_data (resource_header_accessor h)).

Definition cl_value (h : @mrcp_message_header_t R) : option Z :=
  content_length <$> acc_data (generic_header_accessor h).

Lemma generic_parse_content_length (g : mrcp_generic_header_t) (id : nat) (v : apt_str_t) :
  content_length (mrcp_generic_header_parse fresh g id v).2 =
    if decide (id = CL) then apt_size_value_parse v else content_length g.
Proof.
  do 16 (destruct id as [|id]; [reflexivity|]). reflexivity.
Qed.

(** The resource header does not know the Content-Length. *)
Lemma resource_value_parse (acc : mrcp_header_accessor_t R) (f : apt_header_field_t)
    (d : R) (ids : list nat) :
  acc_vtable acc = Some rvt → acc_data acc = Some d → str_wf (field_name f) →
  let a := recv rvt (d, ids) (field_name f, field_value f) in
  ∃ ok acc' f', mrcp_header_field_value_parse acc f = Ok (ok, acc', f') ∧
    acc_vtable acc' = Some rvt ∧ acc_data acc' = Some a.1 ∧
    a.2 = (if ok : bool then Z.to_nat (field_id f') :: ids else ids) ∧
    field_name f' = field_name f ∧ field_value f' = field_value f ∧
    (ok = true → (0 ≤ field_id f' < Z.of_nat (field_count rvt))%Z) ∧
    (is_cl (field_name f) → ok = false).
Proof.
  intros Hvt Hd Hw. destruct Hrvt as (Htw & Hncl & _). unfold mrcp_header_field_value_parse, recv.
  rewrite Hvt, Hd. simpl fst. simpl snd.
  case_decide as Hid; [by eexists _, acc, f; rewrite Hvt, Hd|].
  destruct (id_find_inv (field_table rvt) (field_count rvt) (field_name f)) as (it & Hit & Heq);
    [done|done|lia|].
  assert (~ is_cl (field_name f)) as Hnot.
  { intros Hcl. rewrite Forall_lookup in Hncl. apply (Hncl _ _ Hit). by rewrite Heq. }
  cbn [set_field_id field_value]. case_decide; cbn [deref mbind res_bind].
  - eexists _, acc, _. split_and!; try done; simpl; [by rewrite Nat2Z.id|intros _; lia].
  - destruct (parse_field _ _ _ _) as [ok d'] eqn:E. eexists _, _, _. split_and!; try done; simpl.
    + by rewrite Nat2Z.id.
    + intros _. lia.
Qed.

Lemma generic_value_parse (acc : mrcp_header_accessor_t mrcp_generic_header_t)
    (f : apt_header_field_t) :
  acc_vtable acc = Some (generic_vtable fresh) → is_Some (acc_data acc) →
  str_wf (field_name f) →
  ∃ ok acc' f', mrcp_header_field_value_parse acc f = Ok (ok, acc', f') ∧
    acc_vtable acc' = Some (generic_vtable fresh) ∧ is_Some (acc_data acc') ∧
    field_name f' = field_name f ∧ field_value f' = field_value f ∧
    (ok = true → (0 ≤ field_id f' < 16)%Z ∧ (field_id f' = Z.of_nat CL ↔ is_cl (field_name f))) ∧
    content_length <$> acc_data acc' =
      (if decide (is_cl (field_name f) ∧ len (field_value f) ≠ 0)
       then Some (apt_size_value_parse (field_value f)) else content_length <$> acc_data acc) ∧
    (is_cl (field_name f) → ok = true).
Proof.
  intros Hvt [d Hd] Hw. unfold mrcp_header_field_value_parse. rewrite Hvt, Hd.
  change (field_table (generic_vtable fresh)) with generic_header_string_table.
  change (field_count (generic_vtable fresh)) with GENERIC_HEADER_COUNT.
  pose proof (generic_find_cl (field_name f) Hw) as Hcl.
  set (id := apt_string_table_id_find _ _ _) in *. unfold GENERIC_HEADER_COUNT in *.
  case_decide as Hid.
  { assert (~ is_cl (field_name f)) as Hnot by (rewrite <- Hcl; intros ->; vm_compute in Hid; lia).
    eexists _, acc, f. rewrite Hvt, Hd. split_and!; try done. by rewrite decide_False by tauto. }
  assert (Hids : (0 ≤ Z.of_nat id < 16)%Z ∧ (Z.of_nat id = Z.of_nat CL ↔ is_cl (field_name f))).
  { rewrite <- Hcl, Nat2Z.inj_iff. split; [lia|done]. }
  case_decide as Hz; cbn [deref mbind res_bind].
  - eexists _, acc, _. rewrite Hvt, Hd. split_and!; try done. simpl in *. by rewrite decide_False by tauto.
  - cbn [set_field_id field_value] in *.
    pose proof (generic_parse_content_length d id (field_value f)) as Hc.
    change (parse_field (generic_vtable fresh)) with (mrcp_generic_header_parse fresh).
    destruct (mrcp_generic_header_parse fresh d id (field_value f)) as [ok d'] eqn:E.
    eexists _, _, _. split; [done|]. split_and!; try done.
    + simpl in *. f_equal. rewrite Hc. destruct (decide (id = CL)) as [Hi|Hi].
      * rewrite decide_True; [done|]. rewrite <- Hcl. done.
      * rewrite decide_False; [done|]. rewrite <- Hcl. tauto.
    + intros His. apply Hcl in His. rewrite His in E. by injection E as <- _.
Qed.

(** A field and the Content-Length [n] it may carry. *)
Definition field_cl_ok (n : Z) (name v : apt_str_t) : Prop :=
  str_wf name ∧ (is_cl name → len v ≠ 0 ∧ apt_size_value_parse v = n).

Lemma field_value_parse_spec (h : @mrcp_message_header_t R) (f : apt_header_field_t) (n : Z)
    (d : R) (ids : list nat) :
  ready h → field_cl_ok n (field_name f) (field_value f) →
  acc_data (resource_header_accessor h) = Some d →
  let a := recv rvt (d, ids) (field_name f, field_value f) in
  ∃ known h' f', field_value_parse h f = Ok (known, h', f') ∧ ready h' ∧
    header_section h' = header_section h ∧
    field_name f' = field_name f ∧ field_value f' = field_value f ∧
    (known = true → (0 ≤ field_id f')%Z ∧
       (field_id f' = Z.of_nat CL ↔ is_cl (field_name f))) ∧
    (is_cl (field_name f) → known = true ∧ cl_value h' = Some n) ∧
    (~ is_cl (field_name f) → cl_value h' = cl_value h) ∧
    acc_data (resource_header_accessor h') = Some a.1 ∧
    a.2 = (if decide (known = true ∧ 16 ≤ field_id f')%Z
           then Z.to_nat (field_id f' - 16) :: ids else ids) ∧
    (known = true → field_id f' < Z.of_nat (16 + field_count rvt))%Z.
Proof.
  intros (Hg & Hgd & Hr & Hrd) [Hw Hcl] Hd a. unfold field_value_parse.
  destruct (resource_value_parse _ f d ids Hr Hd Hw)
    as (ok & racc & f1 & -> & Hr1 & Hrd1 & Hids1 & Hn1 & Hv1 & Hid1 & Hno1). fold a in Hrd1, Hids1.
  cbn [mbind res_bind]. destruct ok.
  - specialize (Hid1 eq_refl). destruct Hrvt as (_ & _ & Hlt).
    assert (~ is_cl (field_name f)) as Hnot by (intros Hc; by specialize (Hno1 Hc)).
    rewrite wrap_u_small by (change (Z.of_nat GENERIC_HEADER_COUNT) with 16%Z; lia).
    eexists _, _, _. split; [done|]. split; [by split_and!; rewrite ?Hrd1|].
    change (Z.of_nat GENERIC_HEADER_COUNT) with 16%Z. cbn [set_field_id field_id field_name field_value].
    split_and!; try done.
    + intros _. split; [lia|]. split; [|done]. change (Z.of_nat CL) with 8%Z. lia.
    + rewrite decide_True by lia. rewrite Hids1. do 2 f_equal. lia.
    + lia.
  - cbn [generic_header_accessor resource_header_accessor header_section].
    destruct (generic_value_parse _ f1 Hg Hgd) as
      (ok & gacc & f2 & -> & Hg2 & Hgd2 & Hn2 & Hv2 & Hid2 & Hcl2 & Hyes2); [by rewrite Hn1|].
    cbn [mbind res_bind]. rewrite Hn1, Hv1 in *.
    eexists _, _, _. split; [done|]. split; [by split_and!; rewrite ?Hrd1|].
    cbn [header_section resource_header_accessor].
    split_and!; try (done || congruence).
    + intros ->. specialize (Hid2 eq_refl). split; [lia|]. tauto.
    + intros His. split; [by apply Hyes2|]. unfold cl_value. simpl. rewrite Hcl2.
      destruct (Hcl His) as [Hz <-]. by rewrite decide_True.
    + intros Hnot. unfold cl_value. simpl. rewrite Hcl2. by rewrite decide_False by tauto.
    + rewrite decide_False; [done|]. intros [-> Hle]. specialize (Hid2 eq_refl). lia.
    + intros ->. specialize (Hid2 eq_refl). lia.
Qed.

(** Whether the section has the Content-Length property. *)
Definition has_cl (s : apt_header_section_t) : bool :=
  apt_header_section_field_check s (Z.of_nat CL).

Lemma has_cl_spec (s : apt_header_section_t) :
  has_cl s = true ↔ ∃ l, arr s !! CL = Some (Some l).
Proof. unfold has_cl. rewrite field_check_spec by lia. by rewrite Nat2Z.id. Qed.

Lemma field_set_check (s : apt_header_section_t) (l : loc) (f : apt_header_field_t) :
  (0 ≤ field_id f)%Z →
  let s' := (apt_header_section_field_set s l f).2 in
  ring s' = ring s ∧ length (arr s') = length (arr s) ∧
  ∀ i, i < length (arr s) →
    apt_header_section_field_check s' (Z.of_nat i) =
    apt_header_section_field_check s (Z.of_nat i) || bool_decide (field_id f = Z.of_nat i).
Proof.
  intros Hid. unfold apt_header_section_field_set.
  case_decide as Hle; [|destruct (apt_header_section_field_check s (field_id f)) eqn:Hc].
  - split_and!; try done. intros i Hi. unfold arr_size in Hle.
    rewrite bool_decide_eq_false_2 by lia. by rewrite orb_false_r.
  - split_and!; try done. intros i Hi. case_bool_decide as He; [|by rewrite orb_false_r].
    by rewrite <- He, Hc.
  - simpl. rewrite length_insert. split_and!; try done. intros i Hi. apply eq_true_iff_eq.
    rewrite orb_true_iff, !field_check_spec, bool_decide_eq_true by lia. simpl. rewrite Nat2Z.id.
    destruct (decide (field_id f = Z.of_nat i)) as [He|He].
    + rewrite He, Nat2Z.id. rewrite list_lookup_insert_eq by done. naive_solver.
    + rewrite list_lookup_insert_ne by lia. naive_solver.
Qed.

(** The header while the fields of [s0] are parsed: [seen] tells whether the
    Content-Length was met, [a] what the resource header got. *)
Record parse_inv (s0 : apt_header_section_t) (n : Z) (seen : bool)
    (a : R * list nat) (h : @mrcp_message_header_t R) : Prop := {
  inv_ready : ready h;
  inv_skel : skeleton (header_section h) = skeleton s0;
  inv_arr : length (arr (header_section h)) = length (arr s0);
  inv_has : has_cl (header_section h) = seen;
  inv_cl : seen = true → cl_value h = Some n;
  inv_data : acc_data (resource_header_accessor h) = Some a.1;
  inv_props : 16 + field_count rvt ≤ length (arr s0) → ∀ id, id < field_count rvt →
    has_resource (header_section h) id = has_resource s0 id || bool_decide (id ∈ a.2)
}.

(** Only a known resource field changes the properties of the resource. *)
Lemma has_resource_set (s : apt_header_section_t) (l : loc) (f : apt_header_field_t)
    (ids : list nat) (base : bool) (id : nat) :
  (0 ≤ field_id f)%Z → id + 16 < length (arr s) →
  has_resource s id = base || bool_decide (id ∈ ids) →
  has_resource (apt_header_section_field_set s l f).2 id =
  base ||
  bool_decide (id ∈ if decide (16 ≤ field_id f)%Z then Z.to_nat (field_id f - 16) :: ids else ids).
Proof.
  intros H0 Hlt Hs. unfold has_resource in *. change GENERIC_HEADER_COUNT with 16 in *.
  destruct (field_set_check s l f H0) as (_ & _ & Hc). rewrite Hc, Hs, <- orb_assoc by done.
  f_equal. apply eq_true_iff_eq. rewrite orb_true_iff, !bool_decide_eq_true.
  clear Hs. case_decide.
  - rewrite elem_of_cons.
    split; [intros [?|?]; [by right|left; lia]|intros [->|?]; [right; lia|by left]].
  - split; [intros [?|?]; [done|lia]|by left].
Qed.

Lemma fields_parse_step_spec (s0 : apt_header_section_t) (n : Z) (seen : bool)
    (a : R * list nat) (h : @mrcp_message_header_t R) (l : loc) (nv : apt_str_t * apt_str_t) :
  NoDup (fst <$> skeleton s0) → (l, nv) ∈ skeleton s0 → field_cl_ok n nv.1 nv.2 →
  16 ≤ length (arr s0) → parse_inv s0 n seen a h →
  ∃ h', fields_parse_step h l = Ok h' ∧
    parse_inv s0 n (seen || bool_decide (is_cl nv.1)) (recv rvt a nv) h'.
Proof.
  destruct a as [d ids], nv as [name v].
  intros Hnd Hin Hok Hsize [Hready Hskel Harr Hhas Hcl Hdata Hprops]. unfold fields_parse_step.
  rewrite <- Hskel, skeleton_locs in Hnd. rewrite <- Hskel in Hin.
  destruct (skeleton_field _ _ _ Hnd Hin) as (f & -> & Hring & Hn & Hv). cbn [deref mbind res_bind].
  simpl in Hn, Hv, Hok. subst name v. simpl fst.
  destruct (field_value_parse_spec h f n d ids Hready Hok Hdata)
    as (known & h' & f' & -> & Hready' & Hsec & Hn' & Hv' & Hid & Hyes & Hno & Hd' & Hids & Hmax).
  cbn [mbind res_bind]. rewrite Hsec.
  set (s := field_update (header_section h) l (λ _, f')).
  assert (Hs : skeleton s = skeleton s0) by (rewrite <- Hskel; by eapply skeleton_update).
  assert (H8l : CL < length (arr s)).
  { change (arr s) with (arr (header_section h)). rewrite Harr.
    exact (Nat.lt_le_trans 8 16 _ ltac:(lia) Hsize). }
  assert (cl_value h' = if decide (is_cl (field_name f)) then Some n else cl_value h) as Hclv.
  { destruct (decide (is_cl (field_name f))) as [His|]; [apply (proj2 (Hyes His))|by apply Hno]. }
  destruct known; cbn [mbind res_bind].
  - destruct (Hid eq_refl) as [H0 H8]. destruct (field_set_check s l f') as (Hr & Hl & Hc); [done|].
    eexists. split; [done|]. split; simpl; [done| | |unfold has_cl; rewrite Hc by done| |done|].
    + unfold skeleton in *. by rewrite Hr.
    + by rewrite Hl.
    + change (apt_header_section_field_check s _) with (has_cl (header_section h)). rewrite Hhas.
      f_equal. by apply bool_decide_ext.
    + rewrite orb_true_iff, bool_decide_eq_true. unfold cl_value in *. simpl. rewrite Hclv.
      destruct (decide (is_cl (field_name f))); [done|]. intros [?|?]; [by apply Hcl|done].
    + intros Hlen id Hlt. erewrite has_resource_set; [|done|change (arr s) with (arr (header_section h)); lia|by apply Hprops].
      rewrite Hids. simpl. repeat case_decide; intuition.
  - assert (~ is_cl (field_name f)) as Hnot by (intros His; by destruct (Hyes His)).
    rewrite bool_decide_eq_false_2, orb_false_r by done. rewrite decide_False in Hclv by done.
    rewrite decide_False in Hids by (by intros [? _]).
    eexists. split; [done|]. split; simpl; try done.
    + intros Hseen. unfold cl_value in *. simpl. rewrite Hclv. by apply Hcl.
    + rewrite Hids. apply Hprops.
Qed.

Lemma fields_parse_loop_spec (s0 : apt_header_section_t) (n : Z)
    (todo : list (loc * (apt_str_t * apt_str_t))) (seen : bool) (a : R * list nat)
    (h : @mrcp_message_header_t R) :
  NoDup (fst <$> skeleton s0) → todo ⊆ skeleton s0 → Forall (λ p, field_cl_ok n p.2.1 p.2.2) todo →
  16 ≤ length (arr s0) → parse_inv s0 n seen a h →
  ∃ h', fields_parse_loop h (fst <$> todo) = Ok h' ∧
    parse_inv s0 n (seen || existsb (λ p, bool_decide (is_cl p.2.1)) todo)
      (recv_all rvt a todo) h'.
Proof.
  intros Hnd Hsub Hok Hsize. revert seen a h. induction Hok as [|[l nv] todo Hp Hok IH]; intros seen a h Hinv.
  - exists h. simpl. by rewrite orb_false_r.
  - simpl. destruct (fields_parse_step_spec s0 n seen a h l nv Hnd) as (h1 & -> & H1); [|done..|].
    { apply Hsub. left. }
    cbn [mbind res_bind]. rewrite orb_assoc. apply IH; [|done].
    intros x Hx. apply Hsub. by right.
Qed.

End Parse.

(** ** Completing the header *)

Section Complete.
  Context `{AprFormat} {R : Type} (fresh : apt_pair_t) (uninit : nat).

(** Whether one of the fields is the Content-Length. *)
Definition any_cl (sk : list (loc * (apt_str_t * apt_str_t))) : bool :=
  existsb (λ p, bool_decide (is_cl p.2.1)) sk.

Lemma header_fields_parse_spec (rvt : mrcp_header_vtable_t R) (h : @mrcp_message_header_t R) (n : Z)
    (d : R) :
  resource_vtable_ok rvt → ready fresh rvt h → acc_data (resource_header_accessor h) = Some d →
  NoDup (fst <$> ring (header_section h)) → 16 ≤ length (arr (header_section h)) →
  has_cl (header_section h) = false →
  Forall (λ p, field_cl_ok n p.2.1 p.2.2) (skeleton (header_section h)) →
  ∃ h', mrcp_header_fields_parse h = Ok h' ∧
    parse_inv fresh rvt (header_section h) n (any_cl (skeleton (header_section h)))
      (recv_all rvt (d, []) (skeleton (header_section h))) h'.
Proof.
  intros Hrvt Hready Hd Hnd Harr Hhas Hok. unfold mrcp_header_fields_parse.
  rewrite <- skeleton_locs.
  destruct (fields_parse_loop_spec fresh rvt Hrvt (header_section h) n
    (skeleton (header_section h)) false (d, []) h) as (h' & -> & Hinv).
  - by rewrite skeleton_locs.
  - done.
  - done.
  - done.
  - split; try done. intros _ id Hid. by rewrite orb_false_r.
  - by exists h'.
Qed.

(** The end of [mrcp_parser_on_header_complete], once the resource of the
    message is known: the body is announced with the Content-Length. *)
Lemma header_complete_body (mp : @mrcp_parser_t R) (rvt : mrcp_header_vtable_t R)
    (m m1 : @mrcp_message_t R) (n : Z) (d : R) :
  header_complete_resource fresh mp m = Ok (true, m1) →
  resource_vtable_ok rvt → ready fresh rvt (header m1) →
  mrcp_resource_header_get m1 = Some d →
  let s := header_section (header m1) in
  NoDup (fst <$> ring s) → 16 ≤ length (arr s) → has_cl s = false →
  Forall (λ p, field_cl_ok n p.2.1 p.2.2) (skeleton s) →
  ∃ m2, mrcp_parser_on_header_complete fresh mp m = Ok (true, m2) ∧
    start_line m2 = start_line m1 ∧ channel_id m2 = channel_id m1 ∧
    skeleton (header_section (header m2)) = skeleton s ∧
    buf (body m2) = buf (body m1) ∧
    len (body m2) = (if any_cl (skeleton s) && negb (bool_decide (n = 0%Z))
                     then Z.to_nat n else len (body m1)) ∧
    let a := recv_all rvt (d, []) (skeleton s) in
    mrcp_resource_header_get m2 = Some a.1 ∧
    (16 + field_count rvt ≤ length (arr s) → ∀ id, id < field_count rvt →
       mrcp_resource_header_property_check m2 id = has_resource s id || bool_decide (id ∈ a.2)).
Proof.
  intros Hres Hrvt Hready Hd s Hnd Harr Hhas Hok. unfold mrcp_parser_on_header_complete.
  rewrite Hres. cbn [mbind res_bind negb].
  destruct (header_fields_parse_spec rvt (header m1) n d) as (h' & -> & [Hr Hsk Ha Hh Hc Hd' Hp]); try done.
  cbn [mbind res_bind]. fold s in Hsk, Hh, Hc, Hd', Hp.
  unfold mrcp_generic_header_property_check. simpl header_section.
  fold CL. fold (has_cl (header_section h')). rewrite Hh.
  destruct (any_cl (skeleton s)) eqn:Hany; [|eexists; split; [done|]; by split_and!].
  specialize (Hc eq_refl). unfold cl_value in Hc. unfold mrcp_generic_header_get. simpl header.
  destruct (acc_data (generic_header_accessor h')) as [g|]; [|done].
  injection Hc as Hc. rewrite Hc. case_decide as Hz.
  - eexists; split; [done|]. rewrite bool_decide_eq_true_2 by done. by split_and!.
  - eexists; split; [done|]. rewrite bool_decide_eq_false_2 by done. by split_and!.
Qed.

End Complete.

(** *** A negative Content-Length *)

Definition minus_one_field : apt_header_field_t :=
  mk_field (str_of CONTENT_LENGTH_NAME) (str_of (lit "-1")) UNKNOWN_HEADER_FIELD_ID.

Lemma minus_one_parse : apt_size_value_parse (str_of (lit "-1")) = (2 ^ 64 - 1)%Z.
Proof. reflexivity. Qed.

(** A Content-Length of -1 makes the parser write out of bounds.  A peer
    that sends an MRCPv1 header section with "Content-Length: -1" announces a
    body of 2^64 - 1 characters; the size of the allocation, that length plus
    one, wraps to 0, and the store of the terminating NUL falls outside the
    buffer. *)
Theorem negative_content_length_faults `{AprFormat} {R : Type} (fresh : apt_pair_t)
  (uninit : nat) (rvt : mrcp_header_vtable_t R) (mp : @mrcp_parser_t R)
  (p : apt_message_parser_t (@mrcp_message_t R)) (m : @mrcp_message_t R)
  (st : apt_text_stream_t) (rest : cstr)
  (Hstage : p_stage p = APT_MESSAGE_STAGE_HEADER) (Hlf : p_skip_lf p = false)
  (Hm : p_context p = Some m) (Hv : version (start_line m) = MRCP_VERSION_1)
  (Hrvt : resource_vtable_ok rvt) (Hready : ready fresh rvt (header m))
  (Hring : ring (header_section (header m)) = [])
  (Harr : 16 ≤ length (arr (header_section (header m))))
  (Hsize : (arr_size (header_section (header m)) ≤ UNKNOWN_HEADER_FIELD_ID)%Z)
  (Hhas : has_cl (header_section (header m)) = false)
  (Hwf : stream_wf st) (Heos : is_eos st = false)
  (Hw : window st = lit "Content-Length: -1" ++ CRLF ++ CRLF ++ rest) :
  mrcp_parser_run fresh uninit mp p st = Fault.
Proof.
  unfold mrcp_parser_run, apt_message_parser_run. rewrite Hlf, Hstage. unfold run_header.
  rewrite Hm. cbn [deref mbind res_bind]. unfold apt_header_section_parse.
  assert (Hf : field_wf minus_one_field) by text_side.
  destruct (section_parse_fields [minus_one_field] (S (length (window st)))
    (msg_header m) st rest) as (new & -> & Hnew & Hdup); [by constructor|done..|lia|].
  cbn [deref mbind res_bind]. destruct new as [|[l f] [|? ?]]; try done.
  simpl in Hnew. injection Hnew as Hf'.
  destruct (last_read_lf st (fields_text [minus_one_field]) rest Hwf) as (q & Hq & Hlfq);
    [by rewrite <- app_assoc|].
  unfold apt_crlf_segmentation_test.
  rewrite (ends_with_cr_lf (with_pos st (pos st + length (fields_text [minus_one_field] ++ CRLF))) q) by done.
  cbn [mbind res_bind negb on_header_complete mrcp_parser_vtable]. set (m1 := msg_with_header m _).
  pose proof Hready as (_ & _ & _ & d & Hd).
  destruct (header_complete_body fresh mp rvt m1 m1 (2 ^ 64 - 1) d) as (m2 & -> & _ & _ & _ & _ & Hl & _).
  - unfold header_complete_resource.
    change (version (start_line m1)) with (version (start_line m)). by rewrite Hv.
  - done.
  - done.
  - exact Hd.
  - apply Hdup. change (ring (msg_header m)) with (ring (header_section (header m))). rewrite Hring. constructor.
  - done.
  - done.
  - change (skeleton _) with ((λ p, (p.1, (field_name p.2, field_value p.2))) <$>
      (ring (header_section (header m)) ++ [(l, f)])). rewrite Hring, Hf'.
    repeat constructor; text_side.
  - cbn [mbind res_bind negb]. change (msg_body m2) with (body m2).
    assert (Hlen : len (body m2) = Z.to_nat (2 ^ 64 - 1)).
    { rewrite Hl. change (skeleton _) with ((λ p, (p.1, (field_name p.2, field_value p.2))) <$>
        (ring (header_section (header m)) ++ [(l, f)])). rewrite Hring, Hf'. done. }
    rewrite decide_False by lia. rewrite body_alloc_overflow by lia. done.
Qed.

(** ** A small synthesizer resource, for concrete messages *)

Definition small_vtable : mrcp_header_vtable_t unit :=
  mk_vtable tt (λ d _ _, (false, d)) (λ _ _ v, (false, v)) (λ d _ _ _, (false, d)) [] 0.

Definition small_resource : @mrcp_resource_t unit :=
  mk_resource 0 (str_of (lit "speechsynth"))
    (λ _, [mk_item (str_of (lit "SPEAK")) 1; mk_item (str_of (lit "STOP")) 1]) 2
    (λ _, [mk_item (str_of (lit "SPEAK-COMPLETE")) 0]) 1 (λ _, small_vtable).

Definition small_factory : @mrcp_resource_factory_t unit :=
  (mrcp_resource_register (mk_factory [None] []) small_resource).2.

Definition small_parser : @mrcp_parser_t unit :=
  mk_mrcp_parser small_factory (Some small_resource).

Definition no_pair : apt_pair_t := mk_pair apt_string_reset apt_string_reset.

Lemma small_vtable_ok : resource_vtable_ok small_vtable.
Proof. by split_and!; [constructor|constructor|]. Qed.

(** A request whose start-line is read. *)
Definition small_request (v : mrcp_version_e) : @mrcp_message_t unit :=
  mrcp_request_create no_pair 0 (Some small_resource) v 0.

Definition stream_of (s : cstr) : apt_text_stream_t := apt_text_stream_init s (length s).

Lemma stream_of_wf (s : cstr) : stream_wf (stream_of s).
Proof. split; simpl; lia. Qed.

Lemma negative_content_length_faults_witness :
  mrcp_parser_run no_pair 0 small_parser
    (p_set_context (p_set_stage apt_message_parser_create APT_MESSAGE_STAGE_HEADER)
       (small_request MRCP_VERSION_1))
    (stream_of (lit "Content-Length: -1" ++ CRLF ++ CRLF)) = Fault.
Proof.
  apply (negative_content_length_faults no_pair 0 small_vtable small_parser _
    (small_request MRCP_VERSION_1) _ []); try done.
  - apply small_vtable_ok.
  - apply stream_of_wf.
Defined.
