(* ===== verification/MrcpRoundtrip.v ===== *)
(** * MrcpRoundtrip: an MRCPv2 message that the generator writes is read back
    by the parser: start-line, channel identifier, header fields and body. *)
From S2P Require Import Prelude CString StringTable TextStream TextStreamTheory TextValues.
From S2P Require Import StartLine StartLineTheory HeaderSection TextMessage TextMessageTheory.
From S2P Require Import GenericHeader GenericHeaderTheory MrcpMessage MrcpMessageTheory.

(** The value of the Channel-Identifier header. *)
Definition channel_text (c : mrcp_channel_id) : cstr :=
  chars (session_id c) ++ "@"%char :: chars (resource_name c).

Definition channel_field (c : mrcp_channel_id) : apt_header_field_t :=
  mk_field (str_of MRCP_CHANNEL_ID) (str_of (channel_text c)) UNKNOWN_HEADER_FIELD_ID.

(** Channel identifiers whose text is one header line. *)
Record channel_ok (c : mrcp_channel_id) : Prop := {
  ch_session : str_wf (session_id c);
  ch_resource : str_wf (resource_name c);
  ch_nonempty : chars (resource_name c) ≠ [];
  ch_sep : "@"%char ∉ chars (session_id c);
  ch_line : header_value_ok (channel_text c)
}.

Lemma channel_field_wf (c : mrcp_channel_id) : channel_ok c → field_wf (channel_field c).
Proof.
  intros [Ws Wr _ _ Hl]. unfold field_wf, channel_field. simpl. rewrite !chars_str_of.
  split_and!; [apply str_of_wf; not_elem| |text_side|done].
  apply str_of_wf. unfold channel_text. apply not_elem_of_app. split; [apply Ws|].
  apply not_elem_of_cons. split; [done|apply Wr].
Qed.

Section Roundtrip.
  Context `{AprFormat} {R : Type} (fresh : apt_pair_t) (uninit : nat).

(** ** Generation *)

Lemma emits_channel_id (c : mrcp_channel_id) :
  channel_ok c → emits_ok (mrcp_channel_id_generate c) (field_text (channel_field c)).
Proof.
  intros Hc st Hfit. unfold mrcp_channel_id_generate.
  assert (Hl : length (field_text (channel_field c)) =
    18 + 2 + len (session_id c) + 1 + len (resource_name c) + 2).
  { rewrite field_text_length by (by apply channel_field_wf). simpl. unfold channel_text.
    rewrite length_app. simpl. destruct Hc. rewrite !chars_length by done. lia. }
  pose proof Hfit as (Hf & He & _). rewrite Hl in Hf. change (length MRCP_CHANNEL_ID) with 18.
  rewrite decide_False by lia.
  assert (emits_ok (λ st, st ← put_all st MRCP_CHANNEL_ID; st ← put st ":"%char;
    st ← put st APT_TOKEN_SP; st ← put_all st (chars (session_id c)); st ← put st "@"%char;
    st ← put_all st (chars (resource_name c)); apt_text_eol_insert st)
    (MRCP_CHANNEL_ID ++ [":"%char] ++ [APT_TOKEN_SP] ++ chars (session_id c) ++ ["@"%char] ++
     chars (resource_name c) ++ CRLF)) as Hem.
  { repeat (apply emits_bind_then; [apply emits_put_all || apply emits_put|]). apply emits_eol. }
  replace (field_text (channel_field c)) with (MRCP_CHANNEL_ID ++ [":"%char] ++ [APT_TOKEN_SP] ++
    chars (session_id c) ++ ["@"%char] ++ chars (resource_name c) ++ CRLF) in *.
  - by apply Hem.
  - unfold field_text, header_line, channel_field, channel_text. simpl field_name. simpl field_value.
    rewrite !chars_str_of. simpl. by rewrite <- !app_assoc.
Qed.


(** What follows the message length of a message: the rest of the start-line,
    the Channel-Identifier, the header fields and the empty line. *)
Definition message_tail (m : @mrcp_message_t R) : cstr :=
  joined (v2_fields (start_line m)) ++ CRLF ++
  field_text (channel_field (channel_id m)) ++ fields_text (section_fields (header m)) ++ CRLF.

(** The text of the message, with the message length [L]. *)
Definition message_text (m : @mrcp_message_t R) (L : Z) : cstr :=
  v2_prefix ++ dec_u L ++ APT_TOKEN_SP :: message_tail m ++ chars (body m).

(** Messages that can be sent: they passed [mrcp_message_validate]. *)
Record sendable (m : @mrcp_message_t R) : Prop := {
  sd_version : version (start_line m) = MRCP_VERSION_2;
  sd_line : line_ok (start_line m);
  sd_channel : channel_ok (channel_id m);
  sd_fields : Forall (λ p, field_wf p.2) (ring (header_section (header m)));
  sd_body : len (body m) ≤ length (default [] (buf (body m)));
  sd_size : (v2_base_length (message_tail m) (Z.of_nat (len (body m))) < 10 ^ 6 - 7)%Z
}.

Lemma generator_on_start_spec (m m1 : @mrcp_message_t R) (st : apt_text_stream_t) :
  mrcp_message_validate m = Ok (true, m1) → sendable m1 →
  fits st (length (v2_prefix ++ v2_reserved ++ joined (v2_fields (start_line m1))) + 2 +
           length (field_text (channel_field (channel_id m1)))) →
  ∃ st1, mrcp_generator_on_start m st =
      Ok (true, with_start_line m1 (set_length (start_line m1) 9), st1) ∧
    emitted st st1 ((v2_prefix ++ v2_reserved ++ joined (v2_fields (start_line m1))) ++ CRLF ++
      field_text (channel_field (channel_id m1))).
Proof.
  intros Hval [Hv Hline Hch _ _ _] Hfit. unfold mrcp_generator_on_start. rewrite Hval.
  cbn [mbind res_bind negb].
  destruct (v2_start_line_spec (start_line m1) st Hline Hv) as (st1 & -> & H1).
  { eapply fits_le; [done|lia]. }
  cbn [mbind res_bind negb]. simpl version. rewrite decide_True by done. simpl channel_id.
  destruct (emits_channel_id (channel_id m1) Hch st1) as (st2 & -> & H2).
  { eapply emitted_fits; [exact H1|]. by rewrite length_app. }
  exists st2. split; [done|]. rewrite app_assoc. by eapply emitted_app.
Qed.

Lemma generator_spec (g : apt_message_generator_t) (a : nat) (m m1 : @mrcp_message_t R)
    (st : apt_text_stream_t) :
  g_context g ≠ Some a → mrcp_message_validate m = Ok (true, m1) → sendable m1 →
  text_buf st = pos st → text_buf st + text_len st = end_ st →
  fits st (length (v2_prefix ++ v2_reserved ++ message_tail m1) + len (body m1)) →
  ∃ L g' m' st', mrcp_generator_run g a m st = Ok (APT_MESSAGE_STATUS_COMPLETE, g', m', st') ∧
    text_so_far st' = message_text m1 L ∧ L = Z.of_nat (length (message_text m1 L)) ∧
    text_buf st' ≤ pos st' ≤ length (mem st').
Proof.
  intros Hg Hval Hs Htb Htl Hfit. pose proof Hs as [Hv Hline Hch Hfs Hbody Hsize].
  unfold mrcp_generator_run, apt_message_generator_run. rewrite decide_False by done. simpl g_stage.
  simpl g_on_start. unfold message_tail in Hfit. pose proof Hfit as (Hroom & Hend & _).
  rewrite !length_app in Hfit. rewrite !length_app in Hroom. change (length CRLF) with 2 in *.
  destruct (generator_on_start_spec m m1 st Hval Hs) as (st1 & -> & H1).
  { eapply fits_le; [done|]. rewrite !length_app. lia. }
  cbn [mbind res_bind negb]. simpl msg_header.
  destruct (emits_section (header_section (header m1)) Hfs st1) as (st2 & -> & H2).
  { eapply emitted_fits; [exact H1|]. eapply fits_le; [done|]. rewrite !length_app.
    change (length CRLF) with 2. unfold section_fields. lia. }
  cbn [mbind res_bind negb]. simpl g_on_header_complete.
  pose proof (emitted_app _ _ _ _ _ H1 H2) as H12.
  assert (Htext : text_so_far st2 = v2_prefix ++ v2_reserved ++ message_tail m1).
  { rewrite (emitted_text_so_far st st2 _ Htb ltac:(lia) H12). unfold message_tail, section_fields.
    by rewrite <- !app_assoc. }
  destruct H12 as (Hb2 & Hl2 & He2 & Hm2 & Hp2 & Hle2 & _). rewrite !length_app in Hp2.
  change (length CRLF) with 2 in Hp2. unfold section_fields in Hroom.
  unfold mrcp_generator_on_header_complete. simpl start_line. simpl body.
  destruct (finalize_spec st2 (set_length (start_line m1) 9) (Z.of_nat (len (body m1)))
    (message_tail m1)) as (L & st3 & -> & Ht3 & HL & Hp3 & Hpos & Hend3 & Hmem3 & Hinv);
    try done; [lia|lia|].
  cbn [mbind res_bind]. simpl msg_body. specialize (Hinv ltac:(lia) ltac:(lia)).
  assert (Hchars : length (chars (body m1)) = len (body m1)) by (unfold chars; rewrite length_take; lia).
  assert (HL' : L = Z.of_nat (length (message_text m1 L))).
  { rewrite HL at 1. rewrite Ht3. unfold message_text. rewrite !length_app. simpl length.
    rewrite !length_app, Hchars. lia. }
  case_decide as Hz.
  { assert (chars (body m1) = []) as Hnil by (unfold chars; by rewrite Hz).
    eexists L, _, _, st3. split; [done|]. split; [|done].
    rewrite Ht3. unfold message_text. by rewrite Hnil, app_nil_r. }
  destruct (buf (body m1)) as [b|] eqn:Hbuf; [|simpl in Hbody; lia].
  match goal with |- context [generate_body ?g ?m st3] =>
    destruct (generate_body_spec g m st3 b (len (body m1))) as (g' & m' & st4 & -> & W)
  end; try done; simpl in *; try lia.
  exists L, g', m', st4. split; [done|].
  rewrite (wrote_text_so_far st3 st4 _ ltac:(lia) W), Ht3. unfold message_text, chars.
  rewrite Hbuf. simpl. rewrite <- !app_assoc. split; [done|]. split.
  2:{ apply wrote_emitted in W as (? & _ & _ & ? & ? & ? & _). lia. }
  etransitivity; [exact HL'|]. unfold message_text, chars. rewrite Hbuf. done.
Qed.


(** ** Parsing *)

(** The method or event of a start-line is one of the resource's. *)
Definition method_known (r : @mrcp_resource_t R) (sl : mrcp_start_line_t) : Prop :=
  let known table count :=
    table_wf (take count table) ∧ str_wf (method_name sl) ∧
    apt_string_table_id_find table count (method_name sl) < count in
  match message_type sl with
  | MRCP_MESSAGE_TYPE_REQUEST => known (get_method_str_table r (version sl)) (method_count r)
  | MRCP_MESSAGE_TYPE_EVENT => known (get_event_str_table r (version sl)) (event_count r)
  | _ => True
  end.

(** The parser of the peer knows the resource and the method of the message,
    and the Content-Length of the message, if any, is the length of its body. *)
Record receivable (mp : @mrcp_parser_t R) (r : @mrcp_resource_t R) (m : @mrcp_message_t R)
    : Prop := {
  rc_factory : ∃ i k, list_find (λ p, p.1 = chars (resource_name (channel_id m)))
    (resource_hash (parser_factory mp)) = Some (i, (k, r));
  rc_vtable : resource_vtable_ok (get_resource_header_vtable r MRCP_VERSION_2);
  rc_method : method_known r (start_line m);
  rc_cl : Forall (λ f, is_cl (field_name f) → chars (field_value f) = dec_u (Z.of_nat (len (body m))))
    (section_fields (header m));
  rc_cl_some : len (body m) ≠ 0 → Exists (λ f, is_cl (field_name f)) (section_fields (header m))
}.

Lemma resource_set_spec (m : @mrcp_message_t R) (r : @mrcp_resource_t R) (sl : mrcp_start_line_t) :
  method_known r sl → same_line sl (start_line m) →
  (message_type sl ≠ MRCP_MESSAGE_TYPE_RESPONSE → str_wf (method_name (start_line m))) →
  ∃ sl', mrcp_message_resource_set fresh m (Some r) =
      (true, with_start_line (message_data_alloc fresh (with_resource m (Some r)) r) sl') ∧
    same_line sl sl'.
Proof.
  intros Hk Hsame Hwf. pose proof Hsame as (Ht & Hv & Hrest). unfold mrcp_message_resource_set. simpl start_line.
  unfold method_known in Hk. rewrite Ht, Hv.
  destruct (message_type sl) eqn:Hty.
  - exists (start_line m). split; [reflexivity|done].
  - destruct Hk as (Hw & Hs & Hlt). destruct Hrest as (Hid & Hm & Hq1 & Hq2).
    rewrite (id_find_chars _ _ (method_name (start_line m)) (method_name sl)) by (auto; done).
    rewrite bool_decide_eq_true_2 by done. eexists. split; [done|].
    unfold same_line. simpl. rewrite Hty. by split_and!.
  - exists (start_line m). split; [reflexivity|done].
  - destruct Hk as (Hw & Hs & Hlt). destruct Hrest as (Hid & Hm & Hq1 & Hq2).
    rewrite (id_find_chars _ _ (method_name (start_line m)) (method_name sl)) by (auto; done).
    rewrite bool_decide_eq_true_2 by done. eexists. split; [done|].
    unfold same_line. simpl. rewrite Hty. by split_and!.
Qed.

Lemma parsed_channel_field (c : mrcp_channel_id) :
  parsed_field (channel_field c) = channel_field c.
Proof. unfold parsed_field, channel_field. simpl. by rewrite !chars_str_of. Qed.

Lemma filter_head_loc (l : loc) (f : apt_header_field_t) (r : list (loc * apt_header_field_t)) :
  NoDup (fst <$> (l, f) :: r) → filter (λ p, p.1 ≠ l) ((l, f) :: r) = r.
Proof.
  intros [Hl _]%NoDup_cons. simpl. rewrite filter_cons_False by (simpl; tauto).
  induction r as [|[l' g] r IH]; [done|]. apply not_elem_of_cons in Hl as [Hne Hl].
  rewrite filter_cons_True by (simpl in *; by intros ->). by rewrite IH.
Qed.

Lemma check_alloc (s : apt_header_section_t) (n i : nat) :
  arr s = replicate n None → apt_header_section_field_check s (Z.of_nat i) = false.
Proof.
  intros Ha. apply not_true_is_false. rewrite field_check_spec, Ha by lia. intros [l Hl].
  by apply lookup_replicate_1 in Hl as [? _].
Qed.

(** The message while its header completes: the start-line is parsed, the ring
    holds the parsed fields. *)
Lemma header_complete_resource_spec (mp : @mrcp_parser_t R) (r : @mrcp_resource_t R)
    (m m0 : @mrcp_message_t R) (l : loc) (new : list (loc * apt_header_field_t)) :
  sendable m → receivable mp r m →
  same_line (start_line m) (start_line m0) →
  (message_type (start_line m) ≠ MRCP_MESSAGE_TYPE_RESPONSE →
     str_wf (method_name (start_line m0))) →
  header_section (header m0) = mk_section ((l, channel_field (channel_id m)) :: new) [] →
  NoDup (fst <$> (l, channel_field (channel_id m)) :: new) →
  ∃ m1, header_complete_resource fresh mp m0 = Ok (true, m1) ∧
    same_line (start_line m) (start_line m1) ∧ body m1 = body m0 ∧
    chars (session_id (channel_id m1)) = chars (session_id (channel_id m)) ∧
    chars (resource_name (channel_id m1)) = chars (resource_name (channel_id m)) ∧
    ready fresh (get_resource_header_vtable r MRCP_VERSION_2) (header m1) ∧
    ring (header_section (header m1)) = new ∧
    let vt := get_resource_header_vtable r MRCP_VERSION_2 in
    arr (header_section (header m1)) = replicate (16 + field_count vt) None ∧
    mrcp_resource_header_get m1 = Some (allocate vt).
Proof.
  intros [Hv _ [Ws Wr Hne Hsep _] _ _ _] [(i & k & Hfind) _ Hmk _ _] Hsame Hmwf Hsec Hnd.
  unfold header_complete_resource. pose proof Hsame as (_ & Hver & _). rewrite Hver, Hv.
  rewrite decide_True by done. unfold mrcp_channel_id_parse. rewrite Hsec.
  cbn [ring channel_id_find channel_field field_name field_value]. rewrite decide_True.
  2:{ unfold channel_text. simpl len. rewrite length_app. simpl. split; [lia|done]. }
  destruct (id_resource_parse_spec (chars (session_id (channel_id m)))
    (chars (resource_name (channel_id m))) "@"%char) as (id & rn & Hp & Hid & Hrn & Hlrn);
    [done|apply Ws|].
  fold (channel_text (channel_id m)) in Hp.
  change (field_value (channel_field _)) with (str_of (channel_text (channel_id m))). rewrite Hp. cbn [mbind res_bind negb resource_name].
  unfold mrcp_resource_find. assert (Hlne : len rn ≠ 0) by (rewrite Hlrn; by destruct (chars (resource_name (channel_id m)))).
  destruct (buf rn) as [b|] eqn:Hbuf.
  2:{ exfalso. apply Hne. rewrite <- Hrn. unfold chars. rewrite Hbuf. apply take_nil. }
  rewrite decide_False, Hrn, Hfind by done. cbn [fmap option_fmap option_map snd].
  match goal with |- context [mrcp_message_resource_set fresh ?x (Some r)] =>
    destruct (resource_set_spec x r (start_line m) Hmk Hsame Hmwf) as (sl' & -> & Hsame')
  end.
  eexists. split; [done|]. simpl. split_and!; try done.
  - unfold ready. simpl. rewrite Hver, Hv. by split_and!.
  - by apply filter_head_loc.
  - by rewrite Hver, Hv.
  - unfold mrcp_resource_header_get. simpl. by rewrite Hver, Hv.
Qed.


Lemma parser_on_start_spec (mp : @mrcp_parser_t R) (sl : mrcp_start_line_t) (L : Z)
    (st : apt_text_stream_t) (rest : cstr) :
  line_ok sl → version sl = MRCP_VERSION_2 → (0 ≤ L < 2 ^ 63)%Z → stream_wf st →
  window st = joined (version_text MRCP_VERSION_2 :: dec_u L :: v2_fields sl) ++ CRLF ++ rest →
  ∃ m0 k, mrcp_parser_on_start fresh uninit mp st = (Some m0, with_pos st (pos st + k)) ∧
    drop k (window st) = rest ∧ k ≤ length (window st) ∧
    same_line sl (start_line m0) ∧
    (message_type sl ≠ MRCP_MESSAGE_TYPE_RESPONSE → str_wf (method_name (start_line m0))) ∧
    header m0 = mrcp_message_header_init ∧ body m0 = apt_string_reset.
Proof.
  intros Hok Hv HL Hwf Hw. unfold mrcp_parser_on_start.
  destruct (line_read_fields st _ rest Hwf Hw) as (str & -> & Hline).
  { repeat apply List.Forall_cons; [apply version_text_ok|apply dec_u_ok; lia|by apply v2_fields_ok]. }
  { repeat apply List.Forall_cons; [apply version_text_no_eol|apply dec_u_no_eol; lia|
      by apply v2_fields_no_eol]. }
  destruct (v2_line_parse sl (start_line (mrcp_message_create (R:=R) uninit)) L str Hok Hv HL Hline)
    as (sl' & -> & _ & Hs & Hm).
  pose proof Hs as (_ & Hver & _). rewrite decide_False by (rewrite Hver, Hv; done).
  eexists _, _. split; [done|]. simpl start_line. simpl header. simpl body.
  rewrite Hw. rewrite length_app. simpl (length (CRLF ++ rest)).
  split_and!; try done; [|lia]. by rewrite <- drop_drop, drop_app_length.
Qed.

(** The names and values of the header fields, as text. *)
Definition header_pairs (h : @mrcp_message_header_t R) : list (cstr * cstr) :=
  (λ f, (chars (field_name f), chars (field_value f))) <$> section_fields h.

Definition skeleton_pairs (sk : list (loc * (apt_str_t * apt_str_t))) : list (cstr * cstr) :=
  (λ p, (chars p.2.1, chars p.2.2)) <$> sk.

(** The resource header and its properties after the fields [fs] were received. *)
Definition received (vt : mrcp_header_vtable_t R) (fs : list apt_header_field_t) : R * list nat :=
  foldl (λ a f, recv vt a (field_name f, field_value f)) (allocate vt, []) (parsed_field <$> fs).

Lemma recv_all_received (vt : mrcp_header_vtable_t R) (s : apt_header_section_t)
    (fs : list apt_header_field_t) :
  snd <$> ring s = parsed_field <$> fs →
  recv_all vt (allocate vt, []) (skeleton s) = received vt fs.
Proof.
  unfold recv_all, received, skeleton. intros <-. generalize (allocate vt, @nil nat).
  induction (ring s) as [|[l f] q IH]; intros a; [done|]. simpl. apply IH.
Qed.

(** What the receiver of the fields [fs] sees of the resource header. *)
Definition resource_received (vt : mrcp_header_vtable_t R) (fs : list apt_header_field_t)
    (m : @mrcp_message_t R) : Prop :=
  mrcp_resource_header_get m = Some (received vt fs).1 ∧
  ∀ id, id < field_count vt →
    mrcp_resource_header_property_check m id = bool_decide (id ∈ (received vt fs).2).

Lemma skeleton_pairs_spec (h : @mrcp_message_header_t R) :
  skeleton_pairs (skeleton (header_section h)) = header_pairs h.
Proof.
  unfold skeleton_pairs, skeleton, header_pairs, section_fields.
  by rewrite <- !list_fmap_compose.
Qed.

(** The parsed fields: same text, and their Content-Length. *)
Lemma parsed_skeleton (s : apt_header_section_t) (fs : list apt_header_field_t) (n : nat) :
  snd <$> ring s = parsed_field <$> fs → Forall field_wf fs →
  Forall (λ f, is_cl (field_name f) → chars (field_value f) = dec_u (Z.of_nat n)) fs →
  (Z.of_nat n < 2 ^ 63)%Z →
  skeleton_pairs (skeleton s) = (λ f, (chars (field_name f), chars (field_value f))) <$> fs ∧
  Forall (λ p, field_cl_ok (Z.of_nat n) p.2.1 p.2.2) (skeleton s) ∧
  (Exists (λ f, is_cl (field_name f)) fs → any_cl (skeleton s) = true).
Proof.
  intros Hr. unfold skeleton. revert fs Hr. generalize (ring s) as r.
  induction r as [|[l g] r IH]; intros [|f fs] Hr; try done.
  { intros _ _ _. split; [done|]. split; [constructor|]. intros He. by inversion He. }
  rewrite !fmap_cons in Hr. injection Hr as -> Hr.
  intros Hfw Hcl Hn. inversion_clear Hfw as [|?? Hf Hfs]. inversion_clear Hcl as [|?? Hc Hcs].
  destruct (IH fs Hr Hfs Hcs Hn) as (IH1 & IH2 & IH3). clear IH.
  assert (Hcn : is_cl (str_of (chars (field_name f))) ↔ is_cl (field_name f))
    by (unfold is_cl; by rewrite chars_str_of).
  split_and!.
  - rewrite !fmap_cons, <- IH1. unfold skeleton_pairs. rewrite fmap_cons.
    simpl. by rewrite !chars_str_of.
  - rewrite fmap_cons. constructor; [|done]. simpl. split.
    + apply str_of_wf. by destruct Hf as ((_ & ?) & _).
    + rewrite Hcn. intros His. rewrite (Hc His). simpl. split.
      * pose proof (dec_u_nonempty (Z.of_nat n)). by destruct (dec_u (Z.of_nat n)).
      * unfold apt_size_value_parse. simpl. rewrite <- (app_nil_r (dec_u _)).
        rewrite atol_dec_u by (unfold LONG_MAX; lia || done). apply wrap_u_small. lia.
  - intros [His|Hex]%Exists_cons; rewrite fmap_cons; unfold any_cl in *; simpl.
    + rewrite bool_decide_eq_true_2; [done|by rewrite Hcn].
    + rewrite IH3 by done. apply orb_true_r.
Qed.

(** Completing the header of a received message. *)
Lemma on_header_complete_spec (mp : @mrcp_parser_t R) (r : @mrcp_resource_t R)
    (m m0 : @mrcp_message_t R) (new : list (loc * apt_header_field_t)) :
  sendable m → receivable mp r m → same_line (start_line m) (start_line m0) →
  (message_type (start_line m) ≠ MRCP_MESSAGE_TYPE_RESPONSE →
     str_wf (method_name (start_line m0))) →
  body m0 = apt_string_reset → header_section (header m0) = mk_section new [] →
  snd <$> new = parsed_field <$> (channel_field (channel_id m) :: section_fields (header m)) →
  NoDup (fst <$> new) →
  ∃ m2, mrcp_parser_on_header_complete fresh mp m0 = Ok (true, m2) ∧
    same_line (start_line m) (start_line m2) ∧
    chars (session_id (channel_id m2)) = chars (session_id (channel_id m)) ∧
    chars (resource_name (channel_id m2)) = chars (resource_name (channel_id m)) ∧
    header_pairs (header m2) = header_pairs (header m) ∧ len (body m2) = len (body m) ∧
    resource_received (get_resource_header_vtable r MRCP_VERSION_2) (section_fields (header m)) m2.
Proof.
  intros Hs Hrc Hsame Hmwf Hb Hsec Hnew Hnd.
  destruct new as [|[l f] new]; [done|]. rewrite !fmap_cons, parsed_channel_field in Hnew.
  injection Hnew as Hf Hnew. simpl in Hf. subst f.
  destruct (header_complete_resource_spec mp r m m0 l new Hs Hrc Hsame Hmwf Hsec Hnd)
    as (m1 & Hres & Hsl & Hb1 & Hsid & Hrn & Hready & Hring & Harr & Hd).
  destruct Hs as [_ _ _ Hfs _ Hsize]. destruct Hrc as [_ Hvt _ Hcl Hsome].
  destruct (parsed_skeleton (header_section (header m1)) (section_fields (header m))
    (len (body m))) as (Hpairs & Hok & Hany); [by rewrite Hring|by apply Forall_fmap|done| |].
  { unfold v2_base_length in Hsize. lia. }
  destruct (header_complete_body fresh mp _ m0 m1 (Z.of_nat (len (body m))) _ Hres Hvt Hready Hd) as
    (m2 & -> & Hsl2 & Hc2 & Hsk2 & _ & Hl2 & Hdata & Hprops).
  { rewrite Hring. by apply NoDup_cons in Hnd as [_ ?]. }
  { rewrite Harr, length_replicate. lia. }
  { by apply (check_alloc _ _ CL Harr). }
  { exact Hok. }
  rewrite (recv_all_received _ _ (section_fields (header m))) in Hdata, Hprops by (by rewrite Hring).
  exists m2. rewrite Hsl2, Hc2, <- skeleton_pairs_spec, Hsk2, Hpairs, Hl2, Hb1, Hb.
  split_and!; try done.
  - simpl len. case_bool_decide as Hz; [rewrite andb_false_r; lia|].
    rewrite Hany by (apply Hsome; lia). simpl. lia.
  - split; [done|]. intros id Hid. rewrite Hprops by (done || rewrite Harr, length_replicate; lia).
    unfold has_resource. by rewrite (check_alloc _ _ _ Harr).
Qed.

Lemma message_length_bound (m : @mrcp_message_t R) (L : Z) :
  sendable m → L = Z.of_nat (length (message_text m L)) → (0 ≤ L < 2 ^ 63)%Z.
Proof.
  intros [_ _ _ _ Hb Hsize] HL.
  assert (Hlen : length (chars (body m)) = len (body m)) by (unfold chars; rewrite length_take; lia).
  assert (HL' : L = (v2_base_length (message_tail m) (Z.of_nat (len (body m))) +
    Z.of_nat (length (dec_u L)))%Z).
  { rewrite HL at 1. unfold message_text, v2_base_length. rewrite !length_app. simpl length.
    rewrite length_app, Hlen. lia. }
  assert (H0 : (0 ≤ v2_base_length (message_tail m) (Z.of_nat (len (body m))))%Z)
    by (unfold v2_base_length; lia).
  pose proof (six_digits _ L (conj H0 Hsize) HL'). lia.
Qed.

Lemma message_text_shape (m : @mrcp_message_t R) (L : Z) (rest : cstr) :
  message_text m L ++ rest =
  joined (version_text MRCP_VERSION_2 :: dec_u L :: v2_fields (start_line m)) ++ CRLF ++
  fields_text (channel_field (channel_id m) :: section_fields (header m)) ++ CRLF ++
  chars (body m) ++ rest.
Proof.
  rewrite !joined_cons by (done || apply v2_fields_nonempty).
  unfold message_text, message_tail, v2_prefix. change (fields_text (?f :: ?fs)) with
    (field_text f ++ fields_text fs).
  rewrite <- !app_assoc. cbn [app]. by rewrite <- !app_assoc.
Qed.

(** The parser on the text of a message. *)
Lemma parser_spec (mp : @mrcp_parser_t R) (r : @mrcp_resource_t R) (m1 : @mrcp_message_t R)
    (L : Z) (ps : apt_text_stream_t) (rest : cstr) :
  sendable m1 → receivable mp r m1 → (0 ≤ L < 2 ^ 63)%Z →
  stream_wf ps → is_eos ps = false → end_ ps = text_buf ps + text_len ps →
  text_buf ps ≤ pos ps → window ps = message_text m1 L ++ rest →
   ∃ p' ps' m2,
     mrcp_parser_run fresh uninit mp apt_message_parser_create ps =
       Ok (APT_MESSAGE_STATUS_COMPLETE, p', ps', Some m2) ∧
     window ps' = rest ∧ same_line (start_line m1) (start_line m2) ∧
     chars (session_id (channel_id m2)) = chars (session_id (channel_id m1)) ∧
     chars (resource_name (channel_id m2)) = chars (resource_name (channel_id m1)) ∧
     header_pairs (header m2) = header_pairs (header m1) ∧
     chars (body m2) = chars (body m1) ∧
     resource_received (get_resource_header_vtable r MRCP_VERSION_2) (section_fields (header m1)) m2.
Proof.
  intros Hs Hrc HL Hpwf Heos Hpend Hppos Hw.
  pose proof Hs as [Hv Hline Hch Hfs Hbody Hsize]. rewrite message_text_shape in Hw.
  destruct (parser_on_start_spec mp (start_line m1) L ps _ Hline Hv HL Hpwf Hw)
    as (m0 & k & Hon & Hdrop & Hk & Hsame & Hmwf & Hh & Hb).
  assert (Hlen : length (chars (body m1)) = len (body m1)) by (unfold chars; rewrite length_take; lia).
  assert (Hsec : msg_header m0 = mk_section [] []) by (simpl; by rewrite Hh).
  assert (Hcomplete := λ new, on_header_complete_spec mp r m1
    (msg_with_header m0 (mk_section new [])) new Hs Hrc Hsame Hmwf Hb eq_refl).
  destruct (parser_reads_message (mrcp_parser_vtable fresh uninit mp) apt_message_parser_create ps
    (with_pos ps (pos ps + k)) m0 (channel_field (channel_id m1) :: section_fields (header m1))
    (chars (body m1)) rest eq_refl eq_refl Hon)
    as (p' & ps' & m2 & m3 & new & Hnew & Hnd & Hm2 & Hprun & _ & _ & Hrest & Hnil & Hcons);
    try done; try rewrite Hsec; try done.
  - rewrite window_length in Hk by done. destruct Hpwf. split; simpl; lia.
  - simpl. lia.
  - by rewrite window_with_pos.
  - constructor; [by apply channel_field_wf|by apply Forall_fmap].
  - unfold v2_base_length in Hsize. rewrite Hlen. lia.
  - constructor.
  - intros new Hnew Hnd. destruct (Hcomplete new Hnew Hnd) as (m2 & Hm2 & _ & _ & _ & _ & Hl & _).
    exists m2. by rewrite Hlen.
  - rewrite Hsec in Hm2, Hnd. destruct (Hcomplete new Hnew Hnd) as (m2' & Hm2' & Hl & Hsid & Hrn & Hp & Hbl & Hrr).
    assert (Ok (true, m2') = Ok (true, m2)) as [= ->] by (by rewrite <- Hm2', <- Hm2).
    exists p', ps', m3.
    destruct (chars (body m1)) as [|c b] eqn:Hc.
    + rewrite (Hnil eq_refl) in *. split_and!; try done. unfold chars. by rewrite Hbl, <- Hlen.
    + destruct Hcons as (b' & -> & Hb'); [done|]. by split_and!.
Qed.

(** C12: an MRCPv2 message that is sent is received.  The generator writes a
    validated message into a buffer with room for it and reports completion;
    the message length in the start-line is the size of the text.  A parser
    that knows the resource, run on that text followed by anything, reports
    completion, leaves exactly what follows unread, and delivers a message with
    the same start-line (type, version, request identifier, method, status,
    request state), channel identifier, header fields in order and body. *)
Theorem mrcp_message_roundtrip (g : apt_message_generator_t) (a : nat)
  (mp : @mrcp_parser_t R) (r : @mrcp_resource_t R)
  (m m1 : @mrcp_message_t R) (st ps : apt_text_stream_t) (rest : cstr)
  (Hg : g_context g ≠ Some a) (Hval : mrcp_message_validate m = Ok (true, m1))
  (Hs : sendable m1) (Hrc : receivable mp r m1)
  (Htb : text_buf st = pos st) (Htl : text_buf st + text_len st = end_ st)
  (Hfit : fits st (length (v2_prefix ++ v2_reserved ++ message_tail m1) + len (body m1)))
  (Hpwf : stream_wf ps) (Heos : is_eos ps = false)
  (Hpend : end_ ps = text_buf ps + text_len ps) (Hppos : text_buf ps ≤ pos ps) :
  ∃ g' m' st', mrcp_generator_run g a m st = Ok (APT_MESSAGE_STATUS_COMPLETE, g', m', st') ∧
  (window ps = text_so_far st' ++ rest →
   ∃ p' ps' m2,
     mrcp_parser_run fresh uninit mp apt_message_parser_create ps =
       Ok (APT_MESSAGE_STATUS_COMPLETE, p', ps', Some m2) ∧
     window ps' = rest ∧ same_line (start_line m1) (start_line m2) ∧
     chars (session_id (channel_id m2)) = chars (session_id (channel_id m1)) ∧
     chars (resource_name (channel_id m2)) = chars (resource_name (channel_id m1)) ∧
     header_pairs (header m2) = header_pairs (header m1) ∧
     chars (body m2) = chars (body m1)).
Proof.
  destruct (generator_spec g a m m1 st Hg Hval Hs Htb Htl Hfit)
    as (L & g' & m' & st' & Hrun & Htext & HL & _).
  exists g', m', st'. split; [done|]. rewrite Htext. intros Hw.
  destruct (parser_spec mp r m1 L ps rest Hs Hrc) as (p' & ps' & m2 & Hp); try done.
  { by apply (message_length_bound m1). }
  exists p', ps', m2. split_and!; apply Hp.
Qed.

End Roundtrip.

(** ** A concrete request *)

(** SPEAK, with a body. *)
Definition hello_request : @mrcp_message_t unit :=
  let m := small_request MRCP_VERSION_2 in
  with_body
    (with_channel_id (with_start_line m (set_request_id (start_line m) 543257))
       (mk_channel_id (str_of (lit "32AECB23433802")) (str_of (lit "speechsynth"))))
    (str_of (lit "Hello")).

(** The request with its Content-Length, as [mrcp_message_validate] leaves it. *)
Definition hello_valid : @mrcp_message_t unit :=
  match mrcp_message_validate hello_request with
  | Ok (_, m) => m
  | Fault => hello_request
  end.

Definition blank_stream (n : nat) : apt_text_stream_t := apt_text_stream_init (replicate n NUL) n.

Definition hello_length : apt_header_field_t :=
  mk_field (str_of CONTENT_LENGTH_NAME) (str_of (lit "5")) 8.

Lemma hello_ring : ring (header_section (header hello_valid)) = [(1, hello_length)].
Proof. vm_compute. reflexivity. Qed.

Lemma hello_sendable : sendable hello_valid.
Proof.
  split.
  - reflexivity.
  - exact (speak_request_ok MRCP_VERSION_2).
  - split; text_side.
  - rewrite hello_ring. apply Forall_singleton. text_side.
  - vm_compute. lia.
  - vm_compute. done.
Qed.

Lemma hello_receivable : receivable small_parser small_resource hello_valid.
Proof.
  split.
  - eexists _, _. vm_compute. reflexivity.
  - apply small_vtable_ok.
  - split_and!; [repeat apply List.Forall_cons; try apply List.Forall_nil|..]; text_side.
  - unfold section_fields. rewrite hello_ring. apply Forall_singleton. done.
  - intros _. unfold section_fields. rewrite hello_ring. by left.
Qed.

Lemma hello_validates : mrcp_message_validate hello_request = Ok (true, hello_valid).
Proof.
  assert (match mrcp_message_validate hello_request with Ok (ok, _) => ok | Fault => false end = true)
    as Hok by (vm_compute; reflexivity).
  unfold hello_valid. by destruct (mrcp_message_validate hello_request) as [[[] m]|].
Qed.

Definition hello_text : cstr :=
  lit "MRCP/2.0 101 SPEAK 543257" ++ CRLF ++
  lit "Channel-Identifier: 32AECB23433802@speechsynth" ++ CRLF ++
  lit "Content-Length: 5" ++ CRLF ++ CRLF ++ lit "Hello".

Lemma hello_generated :
  match mrcp_generator_run apt_message_generator_create 0 hello_request (blank_stream 200) with
  | Ok (_, _, _, st) => text_so_far st
  | Fault => []
  end = hello_text.
Proof. vm_compute. reflexivity. Qed.

Lemma mrcp_message_roundtrip_witness :
  let ps := stream_of (hello_text ++ lit "MRCP/2.0") in
  ∃ p' ps' m2,
    mrcp_parser_run no_pair 0 small_parser apt_message_parser_create ps =
      Ok (APT_MESSAGE_STATUS_COMPLETE, p', ps', Some m2) ∧
    window ps' = lit "MRCP/2.0" ∧ same_line (start_line hello_valid) (start_line m2) ∧
    chars (body m2) = lit "Hello".
Proof.
  intros ps.
  destruct (mrcp_message_roundtrip no_pair 0 apt_message_generator_create 0 small_parser
    small_resource hello_request hello_valid (blank_stream 200) ps (lit "MRCP/2.0"))
    as (g' & m' & st' & Hrun & Hparse).
  - done.
  - apply hello_validates.
  - apply hello_sendable.
  - apply hello_receivable.
  - reflexivity.
  - reflexivity.
  - unfold fits. split_and!; vm_compute; (lia || done).
  - apply stream_of_wf.
  - reflexivity.
  - reflexivity.
  - apply Nat.le_0_l.
  - pose proof hello_generated as Ht. rewrite Hrun in Ht.
    destruct Hparse as (p' & ps' & m2 & Hp & Hw & Hs & _ & _ & _ & Hb); [by rewrite Ht|].
    exists p', ps', m2. split; [exact Hp|]. split; [exact Hw|]. split; [exact Hs|exact Hb].
Defined.
