(* ===== verification/ResourceRoundtrip.v ===== *)
(** * ResourceRoundtrip: the resource header a sender fills in is the one the
    receiver reads, for every resource that implements [HeaderSpec]; and the
    names of the four resources are told apart. *)
From S2P Require Import Prelude CString StringTable TextStream TextStreamTheory TextValues.
From S2P Require Import StartLine StartLineTheory HeaderSection TextMessage TextMessageTheory.
From S2P Require Import GenericHeader GenericHeaderTheory FloatValue SynthValues MrcpMessage.
From S2P Require Import HeaderFields MrcpMessageTheory MrcpRoundtrip RecordUpdate.
From S2P Require Import RecorderResource VerifierResource SynthResource RecogResource.

Section Sent.
  Context `{AprFormat} `{AprFloat} (junk : nat) (fresh : apt_pair_t) (uninit : nat).
  Context {D : Type} (vt : mrcp_header_vtable_t D) `{!HeaderSpec junk vt}.





(** ** Receiving *)






(** ** Sending *)








End Sent.

(** ** A concrete RECOGNIZE request *)
















