(* ===== verification/ResourceParams.v ===== *)
(** * ResourceParams: session parameters.  What SET-PARAMS stores and a later
    request inherits are the values of the resource header. *)
From S2P Require Import Prelude CString StringTable TextStream TextStreamTheory StartLine HeaderSection.
From S2P Require Import GenericHeader FloatValue SynthValues MrcpMessage HeaderFields.
From S2P Require Import MrcpMessageTheory RecordUpdate RecogResource.

(** [f] is the resource field of the identifier [id]. *)
Definition names_field (f : apt_header_field_t) (id : nat) : Prop := field_id f = Z.of_nat (id + 16).

#[export] Instance names_field_dec (f : apt_header_field_t) (id : nat) : Decision (names_field f id).
Proof. unfold names_field. apply _. Defined.

Section Params.
  Context `{AprFormat} `{AprFloat} (junk : nat).
  Context {D : Type} (vt : mrcp_header_vtable_t D) `{!HeaderSpec junk vt}.
  Notation head := (@mrcp_message_header_t D).

(** A field with the text of the value [x]; the values of text fields are copied
    from the fields. *)
Definition field_agrees (d : D) (f : apt_header_field_t) : Prop :=
  ∀ id k, names_field f id → hs_kinds !! id = Some k →
    len (field_value f) ≠ 0 ∧ (k = KText → hs_view d !! id = Some (VText (chars (field_value f)))).

(** A header with the data [d], in which no field is repeated. *)
Record params (d : D) (h : head) : Prop := {
  pr_acc : resource_header_accessor h = mk_accessor (Some d) (Some vt);
  pr_size : length (arr (header_section h)) = 16 + field_count vt;
  pr_wf : section_wf (header_section h);
  pr_ids : Forall id_ok (section_fields h);
  pr_own : ∀ l f id, (l, f) ∈ ring (header_section h) → names_field f id → id < field_count vt →
    arr (header_section h) !! (id + 16) = Some (Some l);
  pr_agrees : Forall (field_agrees d) (section_fields h)
}.

(** The header [h'] has got the field [f] of [src]. *)
Definition gained (f : apt_header_field_t) (d ds d' : D) (h h' : head) : Prop :=
  ∀ id, id < field_count vt →
    hs_view d' !! id = (if decide (names_field f id) then hs_view ds !! id else hs_view d !! id) ∧
    has_resource (header_section h') id =
      has_resource (header_section h) id || bool_decide (names_field f id).

Lemma kind_lt (id : nat) : id < field_count vt → ∃ k, hs_kinds !! id = Some k.
Proof. intros Hid. apply lookup_lt_is_Some_2. by rewrite hs_count. Qed.

Lemma view_some (d : D) (id : nat) (k : field_kind) :
  hs_kinds !! id = Some k → ∃ x, hs_view d !! id = Some x.
Proof. intros Hk. destruct (Forall2_lookup_l _ _ _ _ _ (hs_shape d) Hk) as (x & Hx & _). by exists x. Qed.

(** ** Duplicating one value *)

Lemma value_duplicated (h src : head) (d ds : D) (f : apt_header_field_t) :
  resource_header_accessor h = mk_accessor (Some d) (Some vt) →
  resource_header_accessor src = mk_accessor (Some ds) (Some vt) →
  (0 ≤ field_id f)%Z → field_agrees ds f →
  ∃ d', resource_header_accessor (mrcp_header_accessor_value_duplicate h src f)
      = mk_accessor (Some d') (Some vt) ∧
    header_section (mrcp_header_accessor_value_duplicate h src f) = header_section h ∧
    ∀ id, id < field_count vt →
      hs_view d' !! id = if decide (names_field f id) then hs_view ds !! id else hs_view d !! id.
Proof.
  intros Hh Hs Hid Hag. unfold mrcp_header_accessor_value_duplicate.
  change (Z.of_nat GENERIC_HEADER_COUNT) with 16%Z. case_decide as Hlt.
  { exists d. split_and!; try done. intros id _. rewrite decide_False by (unfold names_field; lia). done. }
  set (i := Z.to_nat (field_id f - 16)).
  assert (Hi : ∀ id, names_field f id ↔ id = i) by (intros id; unfold names_field; lia).
  rewrite Hh, Hs. unfold mrcp_header_field_value_duplicate. cbn [acc_vtable acc_data].
  destruct (hs_kinds !! i) as [k|] eqn:Hk.
  - destruct (Hag i k) as [Hlen Htext]; [by apply Hi|done|]. rewrite decide_False by done.
    destruct (view_some ds i k Hk) as [x Hx].
    destruct (hs_duplicate d ds i k x (field_value f) Hk Hx) as (d' & -> & Hview).
    exists d'. split_and!; try done. intros id Hlt'. rewrite Hview.
    destruct (decide (names_field f id)) as [->%Hi|Hne].
    + rewrite list_lookup_insert_eq, Hx.
      2:{ destruct (view_some d i k Hk) as [y Hy]. by eapply lookup_lt_Some. }
      destruct k; try done. by rewrite <- Hx, Htext.
    + apply list_lookup_insert_ne. rewrite Hi in Hne. done.
  - exists d. assert (Hno : ∀ id, id < field_count vt → ~ names_field f id).
    { intros id Hid' ->%Hi. destruct (kind_lt i Hid') as [k Hk']. congruence. }
    case_decide; [|rewrite (hs_duplicate_other d ds i (field_value f) Hk)];
      (split_and!; [done|done|]; intros id Hid'; rewrite decide_False; [done|by apply Hno]).
Qed.

(** ** Appending a field *)

Lemma agrees_after (d ds d' : D) (f g : apt_header_field_t) :
  field_agrees d g → (∀ id, id < field_count vt → names_field f id → ~ names_field g id) →
  (∀ id, id < field_count vt →
     hs_view d' !! id = if decide (names_field f id) then hs_view ds !! id else hs_view d !! id) →
  field_agrees d' g.
Proof.
  intros Hg Hne Hview id k Hn Hk. destruct (Hg id k Hn Hk) as [Hlen Htext]. split; [done|].
  assert (Hid : id < field_count vt) by (rewrite <- hs_count; by eapply lookup_lt_Some).
  rewrite Hview by done. rewrite decide_False; [done|]. intros Hf. by apply (Hne id Hid Hf).
Qed.

Lemma copy_agrees (d ds d' : D) (sf : apt_header_field_t) :
  field_agrees ds sf →
  (∀ id, id < field_count vt →
     hs_view d' !! id = if decide (names_field sf id) then hs_view ds !! id else hs_view d !! id) →
  field_agrees d' (apt_header_field_copy sf).
Proof.
  intros Hg Hview id k Hn Hk. destruct (Hg id k Hn Hk) as [Hlen Htext]. simpl.
  rewrite chars_copy. split; [done|].
  rewrite Hview by (rewrite <- hs_count; by eapply lookup_lt_Some). by rewrite decide_True.
Qed.

(** A field that is not in the array of [h] has another name than all its fields. *)
Lemma not_owned (h : head) (d : D) (sf g : apt_header_field_t) (l : loc) (id : nat) :
  params d h → apt_header_section_field_get (header_section h) (field_id sf) = None →
  (l, g) ∈ ring (header_section h) → id < field_count vt → names_field sf id → ~ names_field g id.
Proof.
  intros Hp Hget Hin Hid Hsf Hg. pose proof (pr_own _ _ Hp l g id Hin Hg Hid) as Harr.
  unfold apt_header_section_field_get, arr_size in Hget. rewrite Hsf, Nat2Z.id, Harr in Hget.
  rewrite decide_True in Hget; [done|]. pose proof (pr_size _ _ Hp). lia.
Qed.

(** The array after a field was appended. *)
Lemma appended_arr (s : apt_header_section_t) (f : apt_header_field_t) (i : nat) :
  id_ok f → apt_header_section_field_get s (field_id f) = None → i < length (arr s) →
  let s' := (apt_header_section_field_add s (fresh_loc s) f).2 in
  ring s' = ring s ++ [(fresh_loc s, f)] ∧ length (arr s') = length (arr s) ∧
  arr s' !! i = if decide (field_id f = Z.of_nat i) then Some (Some (fresh_loc s)) else arr s !! i.
Proof.
  intros [Hpos _] Hget Hi. unfold apt_header_section_field_add, apt_header_section_field_check.
  rewrite Hget. unfold arr_size. destruct (decide (field_id f < _)%Z) as [Hlt|Hge]; simpl.
  - rewrite length_insert. split_and!; try done. case_decide as He.
    + rewrite He, Nat2Z.id. by apply list_lookup_insert_eq.
    + apply list_lookup_insert_ne. lia.
  - split_and!; try done. rewrite decide_False by lia. done.
Qed.

Lemma has_resource_arr (s : apt_header_section_t) (id : nat) :
  has_resource s id = true ↔ ∃ l, arr s !! (id + 16) = Some (Some l).
Proof. unfold has_resource. rewrite field_check_spec by lia. by rewrite Nat2Z.id. Qed.

Lemma append_params (h src : head) (d ds : D) (sf : apt_header_field_t) :
  params d h → params ds src → id_ok sf → field_agrees ds sf →
  apt_header_section_field_get (header_section h) (field_id sf) = None →
  let f := apt_header_field_copy sf in
  ∃ d', params d' (section_append (mrcp_header_accessor_value_duplicate h src f) f) ∧
    gained sf d ds d' h (section_append (mrcp_header_accessor_value_duplicate h src f) f).
Proof.
  intros Hp Hs Hid Hag Hget f.
  destruct (value_duplicated h src d ds f) as (d' & Hacc & Hsec & Hview);
    [apply Hp|apply Hs|apply Hid| |].
  { apply (copy_agrees ds ds ds sf Hag). intros. by case_decide. }
  unfold section_append. rewrite Hsec. set (s := header_section h) in *.
  assert (Harr := λ i, appended_arr s f i Hid Hget). pose proof (pr_size _ _ Hp) as Hsize. fold s in Hsize.
  destruct (Harr 0) as (Hring & Hlen & _); [lia|]. exists d'. split.
  - split; cbn [with_section header_section resource_header_accessor].
    + done.
    + by rewrite Hlen.
    + apply section_wf_add; [apply Hp|done|apply fresh_loc_spec].
    + unfold section_fields. simpl header_section. rewrite Hring, fmap_app. apply Forall_app.
      split; [apply Hp|by apply Forall_singleton].
    + intros l g id Hin Hn Hlt. destruct (Harr (id + 16)) as (_ & _ & ->); [lia|].
      rewrite Hring in Hin. apply elem_of_app in Hin as [Hin|[= -> ->]%list_elem_of_singleton].
      * rewrite decide_False; [by eapply (pr_own _ _ Hp)|].
        intros Hf. by apply (not_owned h d sf g l id Hp Hget Hin Hlt Hf).
      * by rewrite decide_True.
    + unfold section_fields. simpl header_section. rewrite Hring, fmap_app. apply Forall_app. split.
      2:{ apply Forall_singleton. by apply (copy_agrees d ds d' sf). }
      apply Forall_fmap, Forall_forall. intros [l g] Hin. simpl. eapply agrees_after; [|  |exact Hview].
      { apply (proj1 (Forall_forall _ _) (pr_agrees _ _ Hp)). unfold section_fields.
        apply list_elem_of_fmap. by exists (l, g). }
      intros id Hlt Hf. by apply (not_owned h d sf g l id Hp Hget Hin Hlt).
  - intros id Hlt. split; [by apply Hview|]. apply eq_true_iff_eq.
    rewrite orb_true_iff, bool_decide_eq_true, !has_resource_arr. simpl header_section.
    destruct (Harr (id + 16)) as (_ & _ & ->); [lia|]. change (field_id f) with (field_id sf).
    unfold names_field. case_decide as He; [naive_solver|]. naive_solver.
Qed.

(** ** Setting one parameter *)

Lemma updated_ring (s : apt_header_section_t) (l : loc) (f' : apt_header_field_t) (l' : loc)
    (g : apt_header_field_t) :
  (l', g) ∈ ring (field_update s l (λ _, f')) →
  (l' = l ∧ g = f') ∨ (l' ≠ l ∧ (l', g) ∈ ring s).
Proof.
  simpl. intros ([l0 g0] & Heq & Hin)%list_elem_of_fmap. simpl in Heq. case_decide; simplify_eq; auto.
Qed.

Lemma Forall_section (P : apt_header_field_t → Prop) (h : head) :
  (∀ l f, (l, f) ∈ ring (header_section h) → P f) → Forall P (section_fields h).
Proof. intros Hall. apply Forall_fmap, Forall_forall. intros [l f] Hin. by apply (Hall l). Qed.

Lemma section_Forall (P : apt_header_field_t → Prop) (h : head) :
  Forall P (section_fields h) → ∀ l f, (l, f) ∈ ring (header_section h) → P f.
Proof.
  intros Hall l f Hin. apply (proj1 (Forall_forall _ _) Hall). apply list_elem_of_fmap. by exists (l, f).
Qed.

Lemma owned_field (h : head) (d : D) (sf : apt_header_field_t) (l : loc) :
  params d h → id_ok sf → apt_header_section_field_get (header_section h) (field_id sf) = Some l →
  ∃ f, field_at (header_section h) l = Some f ∧ (l, f) ∈ ring (header_section h) ∧
    field_id f = field_id sf.
Proof.
  intros Hp [Hpos _] Hget. unfold apt_header_section_field_get in Hget. case_decide; [|done].
  destruct (arr (header_section h) !! Z.to_nat (field_id sf)) as [[l'|]|] eqn:Ha; simplify_eq/=.
  destruct (wf_arr _ (pr_wf _ _ Hp) _ _ Ha) as (f & Hin & Hid). exists f. split_and!; [|done|lia].
  by apply field_at_Some; [apply Hp|].
Qed.

Lemma update_params (h src : head) (d ds : D) (sf f : apt_header_field_t) (l : loc) :
  params d h → params ds src → id_ok sf → field_agrees ds sf →
  (l, f) ∈ ring (header_section h) → field_id f = field_id sf →
  let f' := set_field_value f (apt_string_copy (field_value sf)) in
  let h1 := with_section h (field_update (header_section h) l (λ _, f')) in
  (∀ id, names_field sf id → id < field_count vt → has_resource (header_section h) id = true) →
  ∃ d', params d' (mrcp_header_accessor_value_duplicate h1 src f') ∧
    gained sf d ds d' h (mrcp_header_accessor_value_duplicate h1 src f').
Proof.
  intros Hp Hs Hid Hag Hin Hf f' h1 Hhas.
  assert (Hnames : ∀ id, names_field f' id ↔ names_field sf id) by (intros; unfold names_field; simpl; by rewrite Hf).
  destruct (value_duplicated h1 src d ds f') as (d' & Hacc & Hsec & Hview);
    [apply Hp|apply Hs|simpl; rewrite Hf; apply Hid| |].
  { intros id k Hn Hk. simpl. rewrite chars_copy. apply (Hag id k); [by apply Hnames|done]. }
  assert (Hview' : ∀ id, id < field_count vt →
    hs_view d' !! id = if decide (names_field sf id) then hs_view ds !! id else hs_view d !! id).
  { intros id Hlt. rewrite Hview by done. by rewrite (decide_ext (names_field f' id) (names_field sf id)). }
  set (h2 := mrcp_header_accessor_value_duplicate h1 src f') in *.
  assert (Hring := updated_ring (header_section h) l f'). change (header_section h1) with
    (field_update (header_section h) l (λ _, f')) in Hsec.
  exists d'. split.
  - split; rewrite ?Hsec.
    + done.
    + apply Hp.
    + apply section_wf_update; [apply Hp|]. intros g Hg. simpl.
      pose proof (pr_wf _ _ Hp) as Hwf. apply (field_at_Some _ _ _ Hwf) in Hin, Hg. congruence.
    + apply Forall_section. rewrite Hsec. intros l' g [[-> ->]|[_ Hg]]%Hring.
      * unfold id_ok. simpl. by rewrite Hf.
      * by apply (section_Forall _ _ (pr_ids _ _ Hp) l').
    + intros l' g id [[-> ->]|[_ Hg]]%Hring Hn Hlt; simpl.
      * eapply (pr_own _ _ Hp); [exact Hin| |done]. unfold names_field in *. by rewrite Hf, <- Hf.
      * by eapply (pr_own _ _ Hp).
    + apply Forall_section. rewrite Hsec. intros l' g [[-> ->]|[Hne Hg]]%Hring.
      * intros id k Hn Hk. simpl. rewrite chars_copy. apply Hnames in Hn.
        destruct (Hag id k Hn Hk) as [Hlen Htext]. split; [done|].
        rewrite Hview' by (rewrite <- hs_count; by eapply lookup_lt_Some). by rewrite decide_True.
      * eapply agrees_after; [|  |exact Hview'].
        { by apply (section_Forall _ _ (pr_agrees _ _ Hp) l'). }
        intros id Hlt Hsf Hgn. apply Hne.
        pose proof (pr_own _ _ Hp l' g id Hg Hgn Hlt) as E1.
        pose proof (pr_own _ _ Hp l f id Hin) as E2. unfold names_field in E2, Hsf. rewrite Hf in E2.
        specialize (E2 Hsf Hlt). congruence.
  - intros id Hlt. split; [by apply Hview'|]. unfold has_resource in *. rewrite Hsec.
    change (apt_header_section_field_check (field_update _ _ _)) with
      (apt_header_section_field_check (header_section h)).
    case_bool_decide as Hn; [|by rewrite orb_false_r]. by rewrite Hhas.
Qed.

Lemma duplicate_append (h src : head) (f : apt_header_field_t) :
  mrcp_header_accessor_value_duplicate (section_append h f) src f =
  section_append (mrcp_header_accessor_value_duplicate h src f) f.
Proof. unfold mrcp_header_accessor_value_duplicate. by case_decide. Qed.

Lemma owned_has (h : head) (d : D) (sf : apt_header_field_t) (l : loc) (id : nat) :
  params d h → apt_header_section_field_get (header_section h) (field_id sf) = Some l →
  names_field sf id → has_resource (header_section h) id = true.
Proof.
  intros Hp Hget Hn. unfold has_resource, apt_header_section_field_check.
  unfold names_field in Hn. change GENERIC_HEADER_COUNT with 16. by rewrite <- Hn, Hget.
Qed.

Lemma set_step_spec (h src : head) (d ds : D) (sf : apt_header_field_t) :
  params d h → params ds src → id_ok sf → field_agrees ds sf →
  ∃ h' d', fields_set_step src h sf = Ok h' ∧ params d' h' ∧ gained sf d ds d' h h'.
Proof.
  intros Hp Hs Hid Hag. unfold fields_set_step.
  destruct (apt_header_section_field_get (header_section h) (field_id sf)) as [l|] eqn:Hget.
  - destruct (owned_field h d sf l Hp Hid Hget) as (f & -> & Hin & Hf). cbn [deref mbind res_bind].
    destruct (update_params h src d ds sf f l Hp Hs Hid Hag Hin Hf) as (d' & Hp' & Hg').
    { intros id Hn _. by eapply owned_has. }
    by eexists _, d'.
  - rewrite duplicate_append. destruct (append_params h src d ds sf Hp Hs Hid Hag Hget) as (d' & Hp' & Hg').
    by eexists _, d'.
Qed.

(** Whether one of the fields is the resource field of [id]. *)
Definition named (fs : list apt_header_field_t) (id : nat) : bool :=
  existsb (λ f, bool_decide (names_field f id)) fs.

Lemma set_fold_spec (src : head) (ds : D) (fs : list apt_header_field_t) (h : head) (d : D) :
  params ds src → Forall id_ok fs → Forall (field_agrees ds) fs → params d h →
  ∃ h' d', fold_fields (fields_set_step src) h fs = Ok h' ∧ params d' h' ∧
    ∀ id, id < field_count vt →
      hs_view d' !! id = (if named fs id then hs_view ds !! id else hs_view d !! id) ∧
      has_resource (header_section h') id = has_resource (header_section h) id || named fs id.
Proof.
  intros Hs Hids Hag. revert h d. induction fs as [|sf fs IH]; intros h d Hp.
  { exists h, d. split_and!; try done. intros id _. by rewrite orb_false_r. }
  apply Forall_cons_1 in Hids as [Hid Hids]. apply Forall_cons_1 in Hag as [Ha Hag].
  destruct (set_step_spec h src d ds sf Hp Hs Hid Ha) as (h1 & d1 & Hstep & Hp1 & Hg1).
  destruct (IH Hids Hag h1 d1 Hp1) as (h2 & d2 & Hfold & Hp2 & Hg2).
  exists h2, d2. cbn [fold_fields]. rewrite Hstep. cbn [mbind res_bind]. split_and!; try done.
  intros id Hlt. destruct (Hg1 id Hlt) as [Hv1 Hh1]. destruct (Hg2 id Hlt) as [Hv2 Hh2].
  rewrite Hv2, Hh2, Hv1, Hh1. unfold named. cbn [existsb].
  destruct (decide (names_field sf id)); [rewrite bool_decide_eq_true_2 by done|
    rewrite bool_decide_eq_false_2 by done];
    by destruct (existsb _ fs), (has_resource (header_section h) id).
Qed.

Lemma inherit_fold_spec (src : head) (ds : D) (fs : list apt_header_field_t) (h : head) (d : D) :
  params ds src → Forall id_ok fs → Forall (field_agrees ds) fs → params d h →
  let h' := foldl (fields_inherit_step src) h fs in
  ∃ d', params d' h' ∧
    ∀ id, id < field_count vt →
      hs_view d' !! id = (if negb (has_resource (header_section h) id) && named fs id
                          then hs_view ds !! id else hs_view d !! id) ∧
      has_resource (header_section h') id = has_resource (header_section h) id || named fs id.
Proof.
  intros Hs Hids Hag. revert h d. induction fs as [|sf fs IH]; intros h d Hp.
  { exists d. split; [done|]. intros id _. by rewrite orb_false_r, andb_false_r. }
  apply Forall_cons_1 in Hids as [Hid Hids]. apply Forall_cons_1 in Hag as [Ha Hag].
  cbn [foldl]. unfold fields_inherit_step at 2 4.
  destruct (apt_header_section_field_get (header_section h) (field_id sf)) as [l|] eqn:Hget.
  - destruct (IH Hids Hag h d Hp) as (d2 & Hp2 & Hg2). exists d2. split; [done|].
    intros id Hlt. destruct (Hg2 id Hlt) as [-> ->]. unfold named. cbn [existsb].
    case_bool_decide as Hn; [|done]. by rewrite (owned_has h d sf l id Hp Hget Hn).
  - destruct (append_params h src d ds sf Hp Hs Hid Ha Hget) as (d1 & Hp1 & Hg1).
    destruct (IH Hids Hag _ d1 Hp1) as (d2 & Hp2 & Hg2). exists d2. split; [done|].
    intros id Hlt. destruct (Hg1 id Hlt) as [Hv1 Hh1]. destruct (Hg2 id Hlt) as [Hv2 Hh2].
    rewrite Hv2, Hh2, Hv1, Hh1. unfold named. cbn [existsb].
    destruct (decide (names_field sf id)) as [Hn|Hn].
    + rewrite bool_decide_eq_true_2 by done. rewrite orb_true_r. simpl. rewrite orb_true_r. split; [|done].
      assert (has_resource (header_section h) id = false) as ->; [|done].
      unfold has_resource, apt_header_section_field_check. change GENERIC_HEADER_COUNT with 16.
      unfold names_field in Hn. by rewrite <- Hn, Hget.
    + rewrite bool_decide_eq_false_2 by done. by rewrite orb_false_r.
Qed.

(** A header has a resource field exactly when its array says so. *)
Lemma named_has (h : head) (d : D) (id : nat) :
  params d h → id < field_count vt → named (section_fields h) id = has_resource (header_section h) id.
Proof.
  intros Hp Hlt. apply eq_true_iff_eq. rewrite has_resource_arr. unfold named.
  rewrite existsb_exists. split.
  - intros (f & Hf & Hn). apply bool_decide_eq_true in Hn. apply list_elem_of_In in Hf.
    apply list_elem_of_fmap in Hf as ([l g] & -> & Hin). exists l. by eapply (pr_own _ _ Hp).
  - intros [l Hl]. destruct (wf_arr _ (pr_wf _ _ Hp) _ _ Hl) as (f & Hin & Hid). exists f.
    split; [|by apply bool_decide_eq_true]. apply list_elem_of_In, list_elem_of_fmap. by exists (l, f).
Qed.

(** *** Headers with at most one field *)

Definition header_of (d : D) (r : list (loc * apt_header_field_t)) (a : list (option loc)) : head :=
  mk_header mrcp_header_accessor_init (mk_accessor (Some d) (Some vt)) (mk_section r a).

Lemma no_param (d : D) :
  (Z.of_nat (16 + field_count vt) < UNKNOWN_HEADER_FIELD_ID)%Z →
  params d (header_of d [] (replicate (16 + field_count vt) None)).
Proof.
  intros Hsmall. split; cbn [header_of header_section ring arr]; try done.
  - by rewrite length_replicate.
  - split; [apply NoDup_nil_2| |by rewrite <- (length_replicate _ (@None loc)) in Hsmall].
    cbn [arr].
    intros i l Hl. by apply lookup_replicate_1 in Hl as [? _].
  - intros l f id Hin. by apply elem_of_nil in Hin.
Qed.

Lemma one_param (d : D) (f : apt_header_field_t) (id : nat) :
  (Z.of_nat (16 + field_count vt) < UNKNOWN_HEADER_FIELD_ID)%Z →
  names_field f id → id < field_count vt → field_agrees d f →
  params d (header_of d [(1, f)] (<[id + 16 := Some 1]> (replicate (16 + field_count vt) None))).
Proof.
  intros Hsmall Hf Hlt Hag. pose proof (length_replicate (16 + field_count vt) (@None loc)) as Hl.
  split; cbn [header_of header_section ring arr]; try done.
  - by rewrite length_insert.
  - split; [apply NoDup_singleton| |unfold arr_size; cbn [arr]; by rewrite length_insert, Hl].
    cbn [arr ring].
    intros i l Hi. destruct (decide (i = id + 16)) as [->|Hne].
    + rewrite list_lookup_insert_eq in Hi by lia. injection Hi as <-. exists f. split; [left|done].
    + rewrite list_lookup_insert_ne in Hi by done. by apply lookup_replicate_1 in Hi as [? _].
  - apply Forall_singleton. unfold id_ok, names_field, UNKNOWN_HEADER_FIELD_ID in *. simpl. lia.
  - intros l g i [= -> ->]%list_elem_of_singleton Hg Hi.
    assert (i = id) as -> by (unfold names_field in *; lia). apply list_lookup_insert_eq. lia.
  - by apply Forall_singleton.
Qed.

(** Parameters set for a session reach the later requests.  Take the
    properties of a session, a SET-PARAMS request and a later request, none of
    which repeats a field.  Setting the properties from the first request and
    letting the second inherit them does not fault, and each field of the second
    request then has its own value if the request has the field, else the value
    of SET-PARAMS, else that of the properties, and it has the field if one of
    the three has. *)
Theorem session_parameters (props set req : head) (dp ds dr : D)
  (Hp : params dp props) (Hs : params ds set) (Hr : params dr req) :
  ∃ props' d', mrcp_header_fields_set props set = Ok props' ∧
    params d' (mrcp_header_fields_inherit req props') ∧
    ∀ id, id < field_count vt →
      let has h := has_resource (header_section h) id in
      hs_view d' !! id = (if has req then hs_view dr !! id
                          else if has set then hs_view ds !! id
                          else if has props then hs_view dp !! id else hs_view dr !! id) ∧
      has (mrcp_header_fields_inherit req props') = has req || has set || has props.
Proof.
  destruct (set_fold_spec set ds (section_fields set) props dp Hs) as (props' & dp' & Hset & Hp' & Hg);
    [apply Hs|apply Hs|done|].
  destruct (inherit_fold_spec props' dp' (section_fields props') req dr Hp') as (d' & Hp2 & Hg2);
    [apply Hp'|apply Hp'|done|].
  exists props', d'. split_and!; [done|done|]. intros id Hlt has.
  destruct (Hg id Hlt) as [Hv1 Hh1]. destruct (Hg2 id Hlt) as [Hv2 Hh2].
  unfold mrcp_header_fields_inherit, has in *. rewrite Hv2, Hh2.
  rewrite (named_has props' dp' id Hp' Hlt), Hh1, Hv1, (named_has set ds id Hs Hlt).
  destruct (has_resource (header_section req) id), (has_resource (header_section set) id),
    (has_resource (header_section props) id); done.
Qed.

End Params.

(** ** A concrete session *)

Definition timeout_set : mrcp_recog_header_t := mrcp_recog_header_init <| no_input_timeout := 5000%Z |>.
Definition timeout_asked : mrcp_recog_header_t := mrcp_recog_header_init <| recognition_timeout := 9%Z |>.

Definition set_header :=
  header_of v2_recog_vtable timeout_set
    [(1, mk_field (str_of (lit "No-Input-Timeout")) (str_of (lit "5000")) 20)]
    (<[20 := Some 1]> (replicate 61 None)).
Definition request_header :=
  header_of v2_recog_vtable timeout_asked
    [(1, mk_field (str_of (lit "Recognition-Timeout")) (str_of (lit "9")) 21)]
    (<[21 := Some 1]> (replicate 61 None)).
Definition no_properties :=
  header_of v2_recog_vtable mrcp_recog_header_init [] (replicate 61 None).

Lemma session_parameters_witness :
  ∃ props' d', mrcp_header_fields_set no_properties set_header = Ok props' ∧
    params 0 v2_recog_vtable d' (mrcp_header_fields_inherit request_header props') ∧
    recog_view d' !! RECOGNIZER_HEADER_NO_INPUT_TIMEOUT = Some (VNum 5000) ∧
    recog_view d' !! RECOGNIZER_HEADER_RECOGNITION_TIMEOUT = Some (VNum 9).
Proof.
  destruct (session_parameters 0 v2_recog_vtable no_properties set_header request_header
    mrcp_recog_header_init timeout_set timeout_asked) as (props' & d' & Hset & Hp & Hall).
  - by apply (no_param 0 v2_recog_vtable).
  - apply (one_param 0 v2_recog_vtable timeout_set _ 4); try done; [vm_compute; lia|].
    intros id k Hn Hk. assert (id = 4) as -> by (unfold names_field in Hn; simpl in Hn; lia).
    injection Hk as <-. done.
  - apply (one_param 0 v2_recog_vtable timeout_asked _ 5); try done; [vm_compute; lia|].
    intros id k Hn Hk. assert (id = 5) as -> by (unfold names_field in Hn; simpl in Hn; lia).
    injection Hk as <-. done.
  - exists props', d'. split; [exact Hset|]. split; [exact Hp|].
    split; [exact (proj1 (Hall 4 ltac:(vm_compute; lia)))|exact (proj1 (Hall 5 ltac:(vm_compute; lia)))].
Defined.
