(* ===== verification/RtspStartLine.v ===== *)
(** * RtspStartLine: the request and status lines of RTSP
    ([rtsp_start_line.c], [rtsp_start_line.h]). *)
From S2P Require Import Prelude CString StringTable TextStream StartLine RecordUpdate.

Inductive rtsp_version_e := RTSP_VERSION_UNKNOWN | RTSP_VERSION_1.

#[export] Instance rtsp_version_e_eq_dec : EqDecision rtsp_version_e.
Proof. solve_decision. Defined.

Notation RTSP_METHOD_SETUP := 0 (only parsing).
Notation RTSP_METHOD_ANNOUNCE := 1 (only parsing).
Notation RTSP_METHOD_COUNT := 5 (only parsing).
Notation RTSP_METHOD_UNKNOWN := 5 (only parsing).
Notation RTSP_STATUS_CODE_OK := 200%Z (only parsing).
Notation RTSP_REASON_PHRASE_OK := 0 (only parsing).
Notation RTSP_REASON_PHRASE_NOT_FOUND := 4 (only parsing).
Notation RTSP_REASON_PHRASE_COUNT := 13 (only parsing).
Notation RTSP_NAME := (lit "RTSP") (only parsing).

Definition rtsp_method_string_table : list apt_str_table_item_t :=
  [item "SETUP" 0; item "ANNOUNCE" 0; item "TEARDOWN" 0; item "DESCRIBE" 0; item "OPTIONS" 0].

Definition rtsp_reason_string_table : list apt_str_table_item_t :=
  [item "OK" 0; item "Created" 0; item "Bad Request" 0; item "Unauthorized" 0; item "Not Found" 4;
   item "Method Not Allowed" 0; item "Not Acceptable" 4; item "Proxy Auth Required" 0;
   item "Request Timeout" 0; item "Session Not Found" 2; item "Internal Server Error" 0;
   item "Not Implemented" 5; item "Service Unavailable" 2].

(** [rl_resource_name] points into the URL; [None] is NULL. *)
Record rtsp_request_line_t := mk_request_line {
  rl_method_name : apt_str_t;
  rl_method_id : nat;
  rl_url : apt_str_t;
  rl_resource_name : option cstr;
  rl_version : rtsp_version_e
}.

#[export] Instance eta_request_line : Settable rtsp_request_line_t :=
  settable! mk_request_line < rl_method_name; rl_method_id; rl_url; rl_resource_name; rl_version >.

Record rtsp_status_line_t := mk_status_line {
  st_version : rtsp_version_e;
  st_status_code : Z;
  st_reason : apt_str_t
}.

#[export] Instance eta_status_line : Settable rtsp_status_line_t :=
  settable! mk_status_line < st_version; st_status_code; st_reason >.

(** The type of the message tells which line the union holds. *)
Inductive rtsp_start_line_t :=
  | RTSP_MESSAGE_TYPE_UNKNOWN
  | RTSP_MESSAGE_TYPE_REQUEST (request_line : rtsp_request_line_t)
  | RTSP_MESSAGE_TYPE_RESPONSE (status_line : rtsp_status_line_t).

Definition rtsp_request_line_init : rtsp_request_line_t :=
  mk_request_line apt_string_reset RTSP_METHOD_UNKNOWN apt_string_reset None RTSP_VERSION_1.

Definition rtsp_status_line_init : rtsp_status_line_t :=
  mk_status_line RTSP_VERSION_1 RTSP_STATUS_CODE_OK apt_string_reset.

(** ** Parsing *)

(** [strrchr(s,c) + 1]: what follows the last [c] before the terminator. *)
Fixpoint after_last (s : cstr) (c : char) : option cstr :=
  match s with
  | [] => None
  | x :: s' =>
      if decide (x = NUL) then None
      else
        match after_last s' c with
        | Some r => Some r
        | None => if decide (x = c) then Some (take (default (length s') (strchr s' NUL)) s') else None
        end
  end.

(** A slash at the end of the copy is replaced by the terminator. *)
Definition rtsp_resource_uri_parse (field : apt_str_t) (rl : rtsp_request_line_t)
    : bool * rtsp_request_line_t :=
  match buf field with
  | None => (false, rl)
  | Some b =>
      if decide (len field = 0) then (false, rl)
      else
        let url := take (len field) b in
        let n := if decide (last url = Some "/"%char) then len field - 1 else len field in
        let url := take n url in
        (true, rl <| rl_url := mk_str (Some url) n |> <| rl_resource_name := after_last url "/" |>)
  end.

Definition rtsp_version_parse (field : apt_str_t) : rtsp_version_e :=
  let b := default [] (buf field) in
  if decide (len field ≤ length RTSP_NAME ∨ strncasecmp_eq b RTSP_NAME (length RTSP_NAME) = false)
  then RTSP_VERSION_UNKNOWN
  else
    let p := drop (length RTSP_NAME) b in
    if decide (hd_char p = "/"%char ∧ hd_char (tail p) = "1"%char) then RTSP_VERSION_1
    else RTSP_VERSION_UNKNOWN.

(** The enumeration is an [unsigned int]. *)
Definition rtsp_status_code_parse (field : apt_str_t) : Z := u32 (apt_size_value_parse field).

(** The line is written while it is parsed, also when the result is FALSE. *)
Definition rtsp_start_line_parse (sl : rtsp_start_line_t) (str : apt_str_t)
    : bool * rtsp_start_line_t :=
  match read_field (stream_of_str str) with
  | (false, _, _) => (false, sl)
  | (true, line, field) =>
      if strstr_at_start (default [] (buf field)) RTSP_NAME then
        let s := rtsp_status_line_init <| st_version := rtsp_version_parse field |> in
        match read_field line with
        | (false, _, _) => (false, RTSP_MESSAGE_TYPE_RESPONSE s)
        | (true, line, field) =>
            let s := s <| st_status_code := rtsp_status_code_parse field |> in
            match read_field line with
            | (false, _, _) => (false, RTSP_MESSAGE_TYPE_RESPONSE s)
            | (true, _, field) =>
                (true, RTSP_MESSAGE_TYPE_RESPONSE (s <| st_reason := apt_string_copy field |>))
            end
        end
      else
        let r := rtsp_request_line_init <| rl_method_name := apt_string_copy field |>
          <| rl_method_id :=
               apt_string_table_id_find rtsp_method_string_table RTSP_METHOD_COUNT field |> in
        match read_field line with
        | (false, _, _) => (false, RTSP_MESSAGE_TYPE_REQUEST r)
        | (true, line, field) =>
            let r := (rtsp_resource_uri_parse field r).2 in
            match read_field line with
            | (false, _, _) => (false, RTSP_MESSAGE_TYPE_REQUEST r)
            | (true, _, field) =>
                (true, RTSP_MESSAGE_TYPE_REQUEST (r <| rl_version := rtsp_version_parse field |>))
            end
        end
  end.

(** ** Generating *)

Section Generate.
  Context `{AprFormat}.

Definition rtsp_version_generate (v : rtsp_version_e) (st : apt_text_stream_t)
    : res (bool * apt_text_stream_t) :=
  if decide (end_ st ≤ pos st + length RTSP_NAME + 1) then Ok (false, st)
  else
    st ← put_all st RTSP_NAME;
    st ← put st "/"%char;
    '(ok, st) ← apt_text_size_value_insert st
                  (match v with RTSP_VERSION_UNKNOWN => 0%Z | RTSP_VERSION_1 => 1%Z end);
    if negb ok then Ok (false, st)
    else if decide (end_ st ≤ pos st + 2) then Ok (false, st)
    else st ← put st "."%char; st ← put st "0"%char; Ok (true, st).

Definition rtsp_status_code_generate (code : Z) (st : apt_text_stream_t)
    : res (bool * apt_text_stream_t) := apt_text_size_value_insert st code.

(** One insertion after the other, until one fails. *)
Fixpoint inserts (fs : list (apt_text_stream_t → res (bool * apt_text_stream_t)))
    (st : apt_text_stream_t) : res (bool * apt_text_stream_t) :=
  match fs with
  | [] => Ok (true, st)
  | f :: fs => '(ok, st) ← f st; if ok : bool then inserts fs st else Ok (false, st)
  end.

Definition rtsp_request_line_generate (r : rtsp_request_line_t) (st : apt_text_stream_t)
    : res (bool * rtsp_request_line_t * apt_text_stream_t) :=
  match apt_string_table_str_get rtsp_method_string_table RTSP_METHOD_COUNT (rl_method_id r) with
  | None => Ok (false, r, st)
  | Some name =>
      let r := r <| rl_method_name := name |> in
      '(ok, st) ← inserts
        [λ st, apt_text_string_insert st (rl_method_name r); apt_text_space_insert;
         λ st, apt_text_string_insert st (rl_url r); apt_text_space_insert;
         rtsp_version_generate (rl_version r)] st;
      Ok (ok, r, st)
  end.

Definition rtsp_status_line_generate (s : rtsp_status_line_t) (st : apt_text_stream_t)
    : res (bool * apt_text_stream_t) :=
  inserts
    [rtsp_version_generate (st_version s); apt_text_space_insert;
     rtsp_status_code_generate (st_status_code s); apt_text_space_insert;
     λ st, apt_text_string_insert st (st_reason s)] st.

(** The result, the line, whose method name is assigned, and the stream. *)
Definition rtsp_start_line_generate (sl : rtsp_start_line_t) (st : apt_text_stream_t)
    : res (bool * rtsp_start_line_t * apt_text_stream_t) :=
  '(ok, sl, st) ←
    match sl with
    | RTSP_MESSAGE_TYPE_REQUEST r =>
        '(ok, r, st) ← rtsp_request_line_generate r st; Ok (ok, RTSP_MESSAGE_TYPE_REQUEST r, st)
    | RTSP_MESSAGE_TYPE_RESPONSE s =>
        '(ok, st) ← rtsp_status_line_generate s st; Ok (ok, sl, st)
    | RTSP_MESSAGE_TYPE_UNKNOWN => Ok (false, sl, st)
    end;
  if negb ok then Ok (false, sl, st)
  else '(ok, st) ← apt_text_eol_insert st; Ok (ok, sl, st).

End Generate.

Definition rtsp_reason_phrase_get (reason : nat) : option apt_str_t :=
  apt_string_table_str_get rtsp_reason_string_table RTSP_REASON_PHRASE_COUNT reason.
