(* ===== verification/RtspLineTheory.v ===== *)
(** * RtspLineTheory: the start-lines of RTSP are read back, but for the reason
    phrase, of which only the first word is. *)
From S2P Require Import Prelude CString StringTable TextStream TextStreamTheory TextValues.
From S2P Require Import StartLine StartLineTheory TextMessageTheory HeaderFields RecordUpdate RtspStartLine.

(** ** Text of the lines *)

Definition rtsp_version_text (v : rtsp_version_e) : cstr :=
  match v with
  | RTSP_VERSION_UNKNOWN => lit "RTSP/0.0"
  | RTSP_VERSION_1 => lit "RTSP/1.0"
  end.

Definition method_text (r : rtsp_request_line_t) : cstr :=
  chars (default apt_string_reset
    (apt_string_table_str_get rtsp_method_string_table RTSP_METHOD_COUNT (rl_method_id r))).

(** The fields of a line; [reason] are the words of the reason phrase. *)
Definition rtsp_fields (sl : rtsp_start_line_t) (reason : list cstr) : list cstr :=
  match sl with
  | RTSP_MESSAGE_TYPE_UNKNOWN => []
  | RTSP_MESSAGE_TYPE_REQUEST r => [method_text r; chars (rl_url r); rtsp_version_text (rl_version r)]
  | RTSP_MESSAGE_TYPE_RESPONSE s =>
      rtsp_version_text (st_version s) :: dec_u (st_status_code s) :: reason
  end.

(** Lines that can be sent. *)
Definition rtsp_line_ok (sl : rtsp_start_line_t) (reason : list cstr) : Prop :=
  match sl with
  | RTSP_MESSAGE_TYPE_UNKNOWN => False
  | RTSP_MESSAGE_TYPE_REQUEST r =>
      rl_method_id r < RTSP_METHOD_COUNT ∧ str_wf (rl_url r) ∧ field_ok (chars (rl_url r)) ∧
      no_eol (chars (rl_url r)) ∧ last (chars (rl_url r)) ≠ Some "/"%char
  | RTSP_MESSAGE_TYPE_RESPONSE s =>
      (0 ≤ st_status_code s < 2 ^ 32)%Z ∧ str_wf (st_reason s) ∧ chars (st_reason s) = joined reason ∧
      reason ≠ [] ∧ Forall field_ok reason ∧ Forall no_eol reason
  end.

Lemma rtsp_method_names : name_table_ok rtsp_method_string_table RTSP_METHOD_COUNT.
Proof. apply name_table_check_ok. vm_compute. reflexivity. Qed.

(** A name of a method is one field of the line. *)
Lemma method_name_ok (id : nat) (name : apt_str_t) :
  apt_string_table_str_get rtsp_method_string_table RTSP_METHOD_COUNT id = Some name →
  field_ok (chars name) ∧ no_eol (chars name) ∧
  ∀ rest, strstr_at_start (chars name ++ rest) RTSP_NAME = false.
Proof.
  do 5 (destruct id as [|id]; [intros [= <-]; split; [text_side|split; [text_side|done]]|]). done.
Qed.

Lemma rtsp_version_text_ok (v : rtsp_version_e) :
  field_ok (rtsp_version_text v) ∧ no_eol (rtsp_version_text v).
Proof. destruct v; text_side. Qed.

Lemma rtsp_fields_ok (sl : rtsp_start_line_t) (reason : list cstr) :
  rtsp_line_ok sl reason →
  Forall field_ok (rtsp_fields sl reason) ∧ Forall no_eol (rtsp_fields sl reason).
Proof.
  destruct sl as [|r|s]; [done|..].
  - intros (Hid & Wu & Hu & Hn & _).
    destruct (name_table_find _ _ _ rtsp_method_names Hid) as (name & Hget & _).
    destruct (method_name_ok _ _ Hget) as (Hf & He & _).
    pose proof (rtsp_version_text_ok (rl_version r)) as [].
    unfold rtsp_fields, method_text. rewrite Hget. split; by repeat (apply List.Forall_cons; [done|]).
  - intros (Hc & _ & _ & _ & Hr & Hn). pose proof (rtsp_version_text_ok (st_version s)) as [].
    pose proof (dec_u_ok (st_status_code s)). pose proof (dec_u_no_eol (st_status_code s)).
    split; repeat (apply List.Forall_cons; [by auto with lia|]); done.
Qed.

(** ** Generation *)

Section Generate.
  Context `{AprFormat}.

Lemma emits_string (s : apt_str_t) :
  str_wf s → emits_ok (λ st, apt_text_string_insert st s) (chars s).
Proof.
  intros Ws st (Hf & He & _). rewrite chars_length in Hf by done. unfold apt_text_string_insert.
  rewrite decide_False by lia. case_decide as Hz.
  - exists st. split; [done|]. unfold chars. rewrite Hz. apply emitted_nil. lia.
  - destruct (put_all_wrote st (chars s)) as (st' & -> & W); [rewrite chars_length by done; lia|].
    exists st'. split; [done|]. by apply wrote_emitted.
Qed.

Lemma emits_char (c : char) : emits_ok (λ st, apt_text_char_insert st c) [c].
Proof.
  intros st Hf. unfold apt_text_char_insert. rewrite decide_True by (destruct Hf; simpl in *; lia).
  destruct (emits_put c st Hf) as (st' & -> & Hem). by exists st'.
Qed.

Lemma emits_inserts fs ss s :
  Forall2 emits_ok fs ss → mjoin ss = s → emits_ok (inserts fs) s.
Proof.
  intros Hfs <-. induction Hfs as [|f s fs ss Hf _ IH]; intros st Hfit; simpl.
  - exists st. split; [done|]. apply emitted_nil. destruct Hfit as (?&?&?). lia.
  - simpl in Hfit. rewrite length_app in Hfit.
    destruct (Hf st) as (st1 & -> & H1); [eapply fits_le; [done|lia]|]. cbn [mbind res_bind].
    destruct (IH st1) as (st2 & -> & H2); [by eapply emitted_fits|].
    exists st2. split; [done|]. by eapply emitted_app.
Qed.

Lemma emits_rtsp_version (v : rtsp_version_e) :
  emits_ok (rtsp_version_generate v) (rtsp_version_text v).
Proof.
  intros st Hfit. unfold rtsp_version_generate.
  assert (Hl : length (rtsp_version_text v) = 8) by (by destruct v).
  rewrite Hl in Hfit. rewrite decide_False by (destruct Hfit; simpl; lia).
  destruct (emits_put_all RTSP_NAME st) as (st1 & -> & E1); [eapply fits_le; [done|simpl; lia]|].
  cbn [mbind res_bind]. pose proof (emitted_fits _ _ _ 4 E1 Hfit) as Hfit1.
  destruct (emits_put "/"%char st1) as (st2 & -> & E2); [eapply fits_le; [done|simpl; lia]|].
  cbn [mbind res_bind]. pose proof (emitted_fits _ _ _ 3 E2 Hfit1) as Hfit2.
  set (n := match v with RTSP_VERSION_UNKNOWN => 0%Z | RTSP_VERSION_1 => 1%Z end).
  assert (Hd : dec_u n = [digit n]) by (by destruct v).
  destruct (emits_size_value n ltac:(by destruct v) st2) as (st3 & -> & E3);
    [rewrite Hd; eapply fits_le; [done|simpl; lia]|].
  rewrite Hd in E3. cbn [mbind res_bind negb].
  pose proof (emitted_fits _ _ _ 2 E3 Hfit2) as Hfit3.
  rewrite decide_False by (destruct Hfit3; lia).
  destruct (emits_put "."%char st3) as (st4 & -> & E4); [eapply fits_le; [done|simpl; lia]|].
  cbn [mbind res_bind]. pose proof (emitted_fits _ _ _ 1 E4 Hfit3) as Hfit4.
  destruct (emits_put "0"%char st4) as (st5 & -> & E5); [done|].
  exists st5. split; [done|].
  pose proof (emitted_app _ _ _ _ _ E1 (emitted_app _ _ _ _ _ E2
    (emitted_app _ _ _ _ _ E3 (emitted_app _ _ _ _ _ E4 E5)))) as E.
  by destruct v.
Qed.

(** The line as it is after generation. *)
Definition named_line (sl : rtsp_start_line_t) : rtsp_start_line_t :=
  match sl with
  | RTSP_MESSAGE_TYPE_REQUEST r =>
      RTSP_MESSAGE_TYPE_REQUEST (r <| rl_method_name := default apt_string_reset
        (apt_string_table_str_get rtsp_method_string_table RTSP_METHOD_COUNT (rl_method_id r)) |>)
  | _ => sl
  end.

Lemma rtsp_line_emitted (sl : rtsp_start_line_t) (reason : list cstr) (st : apt_text_stream_t) :
  rtsp_line_ok sl reason → fits st (length (joined (rtsp_fields sl reason) ++ CRLF)) →
  ∃ st', rtsp_start_line_generate sl st = Ok (true, named_line sl, st') ∧
    emitted st st' (joined (rtsp_fields sl reason) ++ CRLF).
Proof.
  intros Hok Hfit. rewrite length_app in Hfit. unfold rtsp_start_line_generate.
  assert (∃ st1, emitted st st1 (joined (rtsp_fields sl reason)) ∧
    match sl with
    | RTSP_MESSAGE_TYPE_REQUEST r =>
        '(ok, r, st) ← rtsp_request_line_generate r st; Ok (ok, RTSP_MESSAGE_TYPE_REQUEST r, st)
    | RTSP_MESSAGE_TYPE_RESPONSE s =>
        '(ok, st) ← rtsp_status_line_generate s st; Ok (ok, sl, st)
    | RTSP_MESSAGE_TYPE_UNKNOWN => Ok (false, sl, st)
    end = Ok (true, named_line sl, st1)) as (st1 & H1 & ->).
  2:{ cbn [mbind res_bind negb].
      destruct (emits_eol st1) as (st2 & -> & H2); [by eapply emitted_fits|].
      exists st2. split; [done|]. by eapply emitted_app. }
  destruct sl as [|r|s]; [done|..].
  - destruct Hok as (Hid & Wu & _).
    destruct (name_table_find _ _ _ rtsp_method_names Hid) as (name & Hget & Wn & _).
    unfold rtsp_request_line_generate, named_line. rewrite Hget. cbn [default from_option id].
    unfold rtsp_fields, method_text in *. rewrite Hget in *. cbn [joined default from_option id] in *.
    edestruct (emits_inserts [λ st, apt_text_string_insert st name; apt_text_space_insert;
      λ st, apt_text_string_insert st (rl_url r); apt_text_space_insert;
      rtsp_version_generate (rl_version r)]
      [chars name; [APT_TOKEN_SP]; chars (rl_url r); [APT_TOKEN_SP]; rtsp_version_text (rl_version r)])
      as (st1 & E & Hem).
    { repeat constructor; try (by apply emits_string); try apply emits_char. apply emits_rtsp_version. }
    { cbn [mjoin list_join app]. rewrite app_nil_r. reflexivity. }
    { eapply fits_le; [done|]. lia. }
    exists st1. split; [exact Hem|]. cbn -[inserts]. by rewrite E.
  - destruct Hok as (Hc & Wr & Hr & Hne & _). unfold rtsp_status_line_generate.
    assert (Hj : joined (rtsp_fields (RTSP_MESSAGE_TYPE_RESPONSE s) reason) =
      rtsp_version_text (st_version s) ++ APT_TOKEN_SP :: dec_u (st_status_code s) ++
      APT_TOKEN_SP :: chars (st_reason s)) by (rewrite Hr; by destruct reason).
    rewrite Hj in *.
    edestruct (emits_inserts [rtsp_version_generate (st_version s); apt_text_space_insert;
      rtsp_status_code_generate (st_status_code s); apt_text_space_insert;
      λ st, apt_text_string_insert st (st_reason s)]
      [rtsp_version_text (st_version s); [APT_TOKEN_SP]; dec_u (st_status_code s); [APT_TOKEN_SP];
       chars (st_reason s)]) as (st1 & E & Hem).
    { repeat constructor; try (by apply emits_string); try apply emits_char;
        [apply emits_rtsp_version|apply emits_size_value; lia]. }
    { cbn [mjoin list_join app]. rewrite app_nil_r. reflexivity. }
    { eapply fits_le; [done|]. lia. }
    exists st1. split; [exact Hem|]. by rewrite E.
Qed.

End Generate.

(** ** Parsing *)

(** What the peer makes of a line: all of it but the words of the reason phrase
    after the first one. *)
Definition line_received (sl : rtsp_start_line_t) (reason : list cstr) (sl' : rtsp_start_line_t) : Prop :=
  match sl, sl' with
  | RTSP_MESSAGE_TYPE_REQUEST r, RTSP_MESSAGE_TYPE_REQUEST r' =>
      rl_method_id r' = rl_method_id r ∧ chars (rl_method_name r') = method_text r ∧
      chars (rl_url r') = chars (rl_url r) ∧
      rl_resource_name r' = after_last (chars (rl_url r)) "/" ∧ rl_version r' = rl_version r
  | RTSP_MESSAGE_TYPE_RESPONSE s, RTSP_MESSAGE_TYPE_RESPONSE s' =>
      st_version s' = st_version s ∧ st_status_code s' = st_status_code s ∧
      Some (chars (st_reason s')) = head reason
  | _, _ => False
  end.

Lemma rtsp_version_read (field : apt_str_t) (v : rtsp_version_e) (fs : list cstr) :
  field_is field (rtsp_version_text v) fs →
  rtsp_version_parse field = v ∧ strstr_at_start (default [] (buf field)) RTSP_NAME = true.
Proof.
  intros (_ & Hl & rest & Hb & _). unfold rtsp_version_parse. rewrite Hb, Hl. by destruct v.
Qed.

Lemma url_read (field : apt_str_t) (u : cstr) (fs : list cstr) (r : rtsp_request_line_t) :
  u ≠ [] → last u ≠ Some "/"%char → field_is field u fs →
  rtsp_resource_uri_parse field r =
    (true, r <| rl_url := mk_str (Some u) (length u) |> <| rl_resource_name := after_last u "/" |>).
Proof.
  intros Hne Hlast (_ & Hl & rest & Hb & _). unfold rtsp_resource_uri_parse. rewrite Hb, Hl.
  rewrite decide_False by (by destruct u). rewrite take_app_length. cbv zeta.
  rewrite (decide_False (P := last u = _)) by done. by rewrite take_ge by lia.
Qed.

Lemma rtsp_line_parsed (sl sl0 : rtsp_start_line_t) (reason : list cstr) (str : apt_str_t) :
  rtsp_line_ok sl reason → line_is str (rtsp_fields sl reason) →
  ∃ sl', rtsp_start_line_parse sl0 str = (true, sl') ∧ line_received sl reason sl'.
Proof.
  intros Hok Hline%line_is_fields. unfold rtsp_start_line_parse.
  destruct sl as [|r|s]; [done|..]; unfold rtsp_fields in Hline; next_field.
  - destruct Hok as (Hid & Wu & (Hne & _) & _ & Hlast).
    destruct (name_table_find _ _ _ rtsp_method_names Hid) as (name & Hget & Wn & _ & Hfind).
    assert (Hm : method_text r = chars name) by (unfold method_text; by rewrite Hget).
    destruct (method_name_ok _ _ Hget) as (Hf1 & _ & Hpre).
    rewrite Hm in Hf. pose proof (field_is_wf _ _ _ Hf1 Hf) as Wf.
    destruct Hf as (Hc & Hl & rest & Hb & _). rewrite Hb. cbn [default from_option id].
    rewrite Hpre. next_field. rewrite (url_read _ _ _ _ Hne Hlast Hf). next_field.
    eexists. split; [done|]. cbn [line_received]. destruct (rtsp_version_read _ _ _ Hf0) as [Hv _].
    rewrite Hm. split_and!; [by apply Hfind; rewrite ?Hc|by etransitivity; [apply chars_copy|]|
      apply chars_str_of|done|done].
  - destruct Hok as (Hc & _ & _ & Hne & _). destruct (rtsp_version_read _ _ _ Hf) as [Hv ->].
    destruct reason as [|w ws]; [done|]. do 2 next_field. eexists. split; [done|].
    cbn [line_received head]. split_and!; [exact Hv| |f_equal; by eapply chars_field_copy].
    match type of Hf0 with field_is ?f _ _ =>
      change (u32 (apt_size_value_parse f) = st_status_code s) end.
    rewrite (size_parse_text _ (st_status_code s) _ ltac:(lia) Hf0). apply wrap_u_small. lia.
Qed.

(** The start-line on the wire. *)
Lemma rtsp_line_read (sl sl0 : rtsp_start_line_t) (reason : list cstr) (st : apt_text_stream_t)
    (rest : cstr) :
  rtsp_line_ok sl reason → stream_wf st → window st = joined (rtsp_fields sl reason) ++ CRLF ++ rest →
  ∃ line sl', apt_text_line_read st =
      (true, with_pos st (pos st + length (joined (rtsp_fields sl reason) ++ CRLF)), line) ∧
    rtsp_start_line_parse sl0 line = (true, sl') ∧ line_received sl reason sl'.
Proof.
  intros Hok Hwf Hw. destruct (rtsp_fields_ok sl reason Hok) as [Hf Hn].
  destruct (line_read_fields st _ rest Hwf Hw Hf Hn) as (str & -> & Hline).
  destruct (rtsp_line_parsed sl sl0 reason str Hok Hline) as (sl' & Hp & Hr).
  exists str, sl'. rewrite length_app. by split_and!.
Qed.

(** ** The reason phrase *)

(** The words of the phrases in the table. *)
Definition reason_words (reason : nat) : list cstr :=
  nth reason
    [[lit "OK"]; [lit "Created"]; [lit "Bad"; lit "Request"]; [lit "Unauthorized"];
     [lit "Not"; lit "Found"]; [lit "Method"; lit "Not"; lit "Allowed"]; [lit "Not"; lit "Acceptable"];
     [lit "Proxy"; lit "Auth"; lit "Required"]; [lit "Request"; lit "Timeout"];
     [lit "Session"; lit "Not"; lit "Found"]; [lit "Internal"; lit "Server"; lit "Error"];
     [lit "Not"; lit "Implemented"]; [lit "Service"; lit "Unavailable"]] [].

Lemma reason_words_spec (reason : nat) (phrase : apt_str_t) :
  rtsp_reason_phrase_get reason = Some phrase →
  str_wf phrase ∧ chars phrase = joined (reason_words reason) ∧ reason_words reason ≠ [] ∧
  Forall field_ok (reason_words reason) ∧ Forall no_eol (reason_words reason).
Proof.
  do 13 (destruct reason as [|reason]; [intros [= <-]; split; [text_side|];
    split; [done|]; split; [done|]; split; repeat (apply List.Forall_cons; [text_side|]); constructor|]).
  done.
Qed.

Lemma reason_first_word (reason : nat) (phrase : apt_str_t) (w : cstr) :
  rtsp_reason_phrase_get reason = Some phrase → Some w = head (reason_words reason) →
  (w = chars phrase ↔ APT_TOKEN_SP ∉ chars phrase).
Proof.
  do 13 (destruct reason as [|reason];
    [intros [= <-] [= ->]; apply (bool_decide_unpack _); vm_compute; exact I|]). done.
Qed.

(** A reason phrase of more than one word does not survive.  The status line
    with any status code and any phrase of the table is written and parsed
    successfully, with its version and its code; the phrase is received as it
    was sent if and only if it has no space, since the parser takes one field
    and not the rest of the line. *)
Theorem reason_phrase_cut `{AprFormat} (reason : nat) (phrase : apt_str_t) (code : Z)
  (st : apt_text_stream_t) (sl0 : rtsp_start_line_t)
  (Hr : rtsp_reason_phrase_get reason = Some phrase) (Hc : (0 ≤ code < 2 ^ 32)%Z)
  (Hfit : fits st (length (joined (rtsp_version_text RTSP_VERSION_1 :: dec_u code ::
            reason_words reason) ++ CRLF))) :
  let s := mk_status_line RTSP_VERSION_1 code phrase in
  ∃ st1 st2 line s', rtsp_start_line_generate (RTSP_MESSAGE_TYPE_RESPONSE s) st =
      Ok (true, RTSP_MESSAGE_TYPE_RESPONSE s, st1) ∧
    apt_text_line_read (reread st st1) = (true, st2, line) ∧ window st2 = [] ∧
    rtsp_start_line_parse sl0 line = (true, RTSP_MESSAGE_TYPE_RESPONSE s') ∧
    st_version s' = RTSP_VERSION_1 ∧ st_status_code s' = code ∧
    (chars (st_reason s') = chars phrase ↔ APT_TOKEN_SP ∉ chars phrase).
Proof.
  intros s. destruct (reason_words_spec reason phrase Hr) as (Wp & Hp & Hne & Hf & Hn).
  assert (Hok : rtsp_line_ok (RTSP_MESSAGE_TYPE_RESPONSE s) (reason_words reason))
    by exact (conj Hc (conj Wp (conj Hp (conj Hne (conj Hf Hn))))).
  destruct (rtsp_line_emitted _ _ st Hok Hfit) as (st1 & Hg & Hem).
  pose proof Hfit as (Hf1 & Hf2 & _).
  pose proof (emitted_window st st1 _ ltac:(lia) Hem) as Hw.
  assert (Hwf : stream_wf (reread st st1)).
  { destruct Hem as (_ & _ & _ & Hm & Hp1 & Hle & _). split; simpl; lia. }
  destruct (rtsp_line_read _ sl0 _ (reread st st1) [] Hok Hwf) as (line & sl' & Hl & Hparse & Hrec);
    [by rewrite Hw, app_nil_r|].
  destruct sl' as [|?|s']; [done..|]. destruct Hrec as (Hv & Hcode & Hw1).
  eexists st1, _, line, s'. split_and!; try done.
  - by rewrite window_with_pos, Hw, drop_ge by lia.
  - by eapply reason_first_word.
Qed.

Lemma reason_phrase_cut_witness :
  let s := mk_status_line RTSP_VERSION_1 404 (str_of (lit "Not Found")) in
  let st := apt_text_stream_init (replicate 40 NUL) 40 in
  ∃ st1 st2 line s', rtsp_start_line_generate (RTSP_MESSAGE_TYPE_RESPONSE s) st =
      Ok (true, RTSP_MESSAGE_TYPE_RESPONSE s, st1) ∧
    apt_text_line_read (reread st st1) = (true, st2, line) ∧ window st2 = [] ∧
    rtsp_start_line_parse RTSP_MESSAGE_TYPE_UNKNOWN line = (true, RTSP_MESSAGE_TYPE_RESPONSE s') ∧
    st_version s' = RTSP_VERSION_1 ∧ st_status_code s' = 404%Z ∧
    (chars (st_reason s') = lit "Not Found" ↔ APT_TOKEN_SP ∉ lit "Not Found").
Proof.
  intros s st. apply (reason_phrase_cut RTSP_REASON_PHRASE_NOT_FOUND); [reflexivity|lia|].
  vm_compute. split_and!; (lia || reflexivity).
Defined.
