(* ===== verification/RtspHeader.v ===== *)
(** * RtspHeader: the header of RTSP messages with its typed fields
    ([rtsp_header.c], [rtsp_header.h]). *)
From S2P Require Import Prelude CString StringTable TextStream HeaderSection RecordUpdate.
#[local] Open Scope cint_scope.

Notation RTSP_TRANSPORT_RTP := 0%nat (only parsing).
Notation RTSP_TRANSPORT_COUNT := 1%nat (only parsing).
Notation RTSP_PROFILE_AVP := 0%nat (only parsing).
Notation RTSP_PROFILE_COUNT := 2%nat (only parsing).
Notation RTSP_PROFILE_NONE := 2%nat (only parsing).
Notation RTSP_LOWER_TRANSPORT_UDP := 0%nat (only parsing).
Notation RTSP_LOWER_TRANSPORT_COUNT := 2%nat (only parsing).
Notation RTSP_LOWER_TRANSPORT_NONE := 2%nat (only parsing).
Notation RTSP_TRANSPORT_ATTRIB_CLIENT_PORT := 0%nat (only parsing).
Notation RTSP_TRANSPORT_ATTRIB_SERVER_PORT := 1%nat (only parsing).
Notation RTSP_TRANSPORT_ATTRIB_SOURCE := 2%nat (only parsing).
Notation RTSP_TRANSPORT_ATTRIB_DESTINATION := 3%nat (only parsing).
Notation RTSP_TRANSPORT_ATTRIB_UNICAST := 4%nat (only parsing).
Notation RTSP_TRANSPORT_ATTRIB_MULTICAST := 5%nat (only parsing).
Notation RTSP_TRANSPORT_ATTRIB_MODE := 6%nat (only parsing).
Notation RTSP_TRANSPORT_ATTRIB_COUNT := 7%nat (only parsing).
Notation RTSP_TRANSPORT_ATTRIB_NONE := 7%nat (only parsing).
Notation RTSP_DELIVERY_UNICAST := 0%nat (only parsing).
Notation RTSP_DELIVERY_MULTICAST := 1%nat (only parsing).
Notation RTSP_DELIVERY_NONE := 2%nat (only parsing).
Notation RTSP_HEADER_FIELD_CSEQ := 0%nat (only parsing).
Notation RTSP_HEADER_FIELD_TRANSPORT := 1%nat (only parsing).
Notation RTSP_HEADER_FIELD_SESSION_ID := 2%nat (only parsing).
Notation RTSP_HEADER_FIELD_RTP_INFO := 3%nat (only parsing).
Notation RTSP_HEADER_FIELD_CONTENT_TYPE := 4%nat (only parsing).
Notation RTSP_HEADER_FIELD_CONTENT_LENGTH := 5%nat (only parsing).
Notation RTSP_HEADER_FIELD_COUNT := 6%nat (only parsing).
Notation RTSP_CONTENT_TYPE_COUNT := 2%nat (only parsing).
Notation RTSP_CONTENT_TYPE_NONE := 2%nat (only parsing).

Definition rtsp_header_string_table : list apt_str_table_item_t :=
  [item "CSeq" 1; item "Transport" 0; item "Session" 0; item "RTP-Info" 0;
   item "Content-Type" 8; item "Content-Length" 8].

Definition rtsp_content_type_string_table : list apt_str_table_item_t :=
  [item "application/sdp" 12; item "application/mrcp" 12].

Definition rtsp_transport_string_table : list apt_str_table_item_t := [item "RTP" 0].

Definition rtsp_lower_transport_string_table : list apt_str_table_item_t :=
  [item "UDP" 0; item "TCP" 0].

Definition rtsp_profile_string_table : list apt_str_table_item_t := [item "AVP" 0; item "SAVP" 0].

Definition rtsp_transport_attrib_string_table : list apt_str_table_item_t :=
  [item "client_port" 0; item "server_port" 2; item "source" 2; item "destination" 0;
   item "unicast" 0; item "multicast" 1; item "mode" 2].

(** Ports have 16 bits. *)
Record rtsp_port_range_t := mk_port_range { port_min : Z; port_max : Z }.

#[export] Instance eta_port_range : Settable rtsp_port_range_t :=
  settable! mk_port_range < port_min; port_max >.

Record rtsp_transport_t := mk_transport {
  protocol : nat;
  profile : nat;
  lower_protocol : nat;
  delivery : nat;
  client_port_range : rtsp_port_range_t;
  server_port_range : rtsp_port_range_t;
  source : apt_str_t;
  destination : apt_str_t;
  mode : apt_str_t
}.

#[export] Instance eta_transport : Settable rtsp_transport_t :=
  settable! mk_transport < protocol; profile; lower_protocol; delivery; client_port_range;
    server_port_range; source; destination; mode >.

Record rtsp_header_t := mk_rtsp_header {
  cseq : Z;
  transport : rtsp_transport_t;
  rtsp_session_id : apt_str_t;
  rtp_info : apt_str_t;
  content_type : nat;
  rtsp_content_length : Z;
  rtsp_header_section : apt_header_section_t
}.

#[export] Instance eta_rtsp_header : Settable rtsp_header_t :=
  settable! mk_rtsp_header < cseq; transport; rtsp_session_id; rtp_info; content_type;
    rtsp_content_length; rtsp_header_section >.

Definition rtsp_port_range_init : rtsp_port_range_t := mk_port_range 0 0.

Definition rtsp_port_range_is_valid (r : rtsp_port_range_t) : bool :=
  negb (bool_decide (port_min r = 0%Z ∧ port_max r = 0%Z)).

(** The delivery is not assigned: [junk] is what the memory holds. *)
Definition rtsp_transport_init (junk : nat) : rtsp_transport_t :=
  mk_transport RTSP_TRANSPORT_RTP RTSP_PROFILE_NONE RTSP_LOWER_TRANSPORT_NONE junk
    rtsp_port_range_init rtsp_port_range_init apt_string_reset apt_string_reset apt_string_reset.

Definition rtsp_header_init (junk : nat) : rtsp_header_t :=
  mk_rtsp_header 0 (rtsp_transport_init junk) apt_string_reset apt_string_reset
    RTSP_CONTENT_TYPE_NONE 0
    (apt_header_section_array_alloc apt_header_section_init RTSP_HEADER_FIELD_COUNT).2.

(** ** Transport *)

Definition rtsp_port_range_parse (r : rtsp_port_range_t) (st : apt_text_stream_t)
    : bool * rtsp_port_range_t :=
  match apt_text_field_read st "-"%char true with
  | (false, _, _) => (false, r)
  | (true, st, value) =>
      let r := r <| port_min := wrap_u 16 (apt_size_value_parse value) |> in
      match apt_text_field_read st ";"%char true with
      | (true, _, value) => (true, r <| port_max := wrap_u 16 (apt_size_value_parse value) |>)
      | (false, _, _) => (true, r)
      end
  end.

Definition rtsp_transport_attrib_value_parse (value : apt_str_t) (st : apt_text_stream_t)
    : bool * apt_str_t :=
  match apt_text_field_read st ";"%char true with
  | (false, _, _) => (false, value)
  | (true, _, field) => (true, apt_string_copy field)
  end.

(** The range of the server is stored as that of the client. *)
Definition rtsp_transport_attrib_parse (t : rtsp_transport_t) (field : apt_str_t)
    : bool * rtsp_transport_t :=
  match apt_text_field_read (stream_of_str field) "="%char true with
  | (false, _, _) => (false, t)
  | (true, st, name) =>
      (true,
       match apt_string_table_id_find rtsp_transport_attrib_string_table
               RTSP_TRANSPORT_ATTRIB_COUNT name with
       | RTSP_TRANSPORT_ATTRIB_CLIENT_PORT =>
           t <| client_port_range := (rtsp_port_range_parse (client_port_range t) st).2 |>
       | RTSP_TRANSPORT_ATTRIB_SERVER_PORT =>
           t <| client_port_range := (rtsp_port_range_parse (client_port_range t) st).2 |>
       | RTSP_TRANSPORT_ATTRIB_SOURCE =>
           t <| source := (rtsp_transport_attrib_value_parse (source t) st).2 |>
       | RTSP_TRANSPORT_ATTRIB_DESTINATION =>
           t <| destination := (rtsp_transport_attrib_value_parse (destination t) st).2 |>
       | RTSP_TRANSPORT_ATTRIB_UNICAST => t <| delivery := RTSP_DELIVERY_UNICAST |>
       | RTSP_TRANSPORT_ATTRIB_MULTICAST => t <| delivery := RTSP_DELIVERY_MULTICAST |>
       | RTSP_TRANSPORT_ATTRIB_MODE =>
           t <| mode := (rtsp_transport_attrib_value_parse (mode t) st).2 |>
       | _ => t
       end)
  end.

Definition rtsp_transport_protocol_parse (t : rtsp_transport_t) (value : apt_str_t)
    : bool * rtsp_transport_t :=
  let t := t <| protocol := RTSP_TRANSPORT_RTP |> <| profile := RTSP_PROFILE_AVP |>
             <| lower_protocol := RTSP_LOWER_TRANSPORT_UDP |> in
  match apt_text_field_read (stream_of_str value) "/"%char true with
  | (false, _, _) => (false, t)
  | (true, st, field) =>
      let t := t <| protocol :=
        apt_string_table_id_find rtsp_transport_string_table RTSP_TRANSPORT_COUNT field |> in
      if decide (RTSP_TRANSPORT_COUNT ≤ protocol t)%nat then (false, t)
      else
        match apt_text_field_read st "/"%char true with
        | (false, _, _) => (false, t)
        | (true, st, field) =>
            let t := t <| profile :=
              apt_string_table_id_find rtsp_profile_string_table RTSP_PROFILE_COUNT field |> in
            if decide (RTSP_PROFILE_COUNT ≤ profile t)%nat then (false, t)
            else
              match apt_text_field_read st "/"%char true with
              | (false, _, _) => (true, t)
              | (true, _, field) =>
                  let t := t <| lower_protocol :=
                    apt_string_table_id_find rtsp_lower_transport_string_table
                      RTSP_LOWER_TRANSPORT_COUNT field |> in
                  (bool_decide (lower_protocol t < RTSP_LOWER_TRANSPORT_COUNT)%nat, t)
              end
        end
  end.

(** The loop over the attributes.  An iteration that continues passes at least one
    character, so [S (length (window st))] iterations are enough
    ([attribs_loop_total]). *)
Fixpoint attribs_loop (fuel : nat) (t : rtsp_transport_t) (st : apt_text_stream_t)
    : option rtsp_transport_t :=
  match fuel with
  | O => None
  | S fuel =>
      match apt_text_field_read st ";"%char true with
      | (true, st, field) => attribs_loop fuel (rtsp_transport_attrib_parse t field).2 st
      | (false, _, _) => Some t
      end
  end.

Definition rtsp_transport_parse (t : rtsp_transport_t) (value : apt_str_t)
    : option (bool * rtsp_transport_t) :=
  match apt_text_field_read (stream_of_str value) ";"%char true with
  | (false, _, _) => Some (false, t)
  | (true, st, field) =>
      match rtsp_transport_protocol_parse t field with
      | (false, t) => Some (false, t)
      | (true, t) => t ← attribs_loop (S (length (window st))) t st; Some (true, t)
      end
  end.

Section Generate.
  Context `{AprFormat}.

(** Insertions whose results are not used. *)
Definition text_put (st : apt_text_stream_t) (s : apt_str_t) : res apt_text_stream_t :=
  '(_, st) ← apt_text_string_insert st s; Ok st.
Definition char_put (st : apt_text_stream_t) (c : char) : res apt_text_stream_t :=
  '(_, st) ← apt_text_char_insert st c; Ok st.
Definition size_put (st : apt_text_stream_t) (v : Z) : res apt_text_stream_t :=
  '(_, st) ← apt_text_size_value_insert st v; Ok st.

Definition rtsp_port_range_generate (attrib : nat) (r : rtsp_port_range_t) (st : apt_text_stream_t)
    : res (bool * apt_text_stream_t) :=
  match apt_string_table_str_get rtsp_transport_attrib_string_table RTSP_TRANSPORT_ATTRIB_COUNT attrib with
  | None => Ok (false, st)
  | Some str =>
      st ← text_put st str;
      st ← char_put st "="%char;
      st ← size_put st (port_min r);
      st ← (if decide (port_min r < port_max r)%Z
            then st ← char_put st "-"%char; size_put st (port_max r)
            else Ok st);
      Ok (true, st)
  end.

(** A range of ports as an attribute, unless it is unset. *)
Definition port_attrib (attrib : nat) (r : rtsp_port_range_t) (st : apt_text_stream_t)
    : res apt_text_stream_t :=
  if rtsp_port_range_is_valid r then
    st ← char_put st ";"%char;
    '(_, st) ← rtsp_port_range_generate attrib r st; Ok st
  else Ok st.

(** The result and [*value] after the call; [buf] is an array of 256 characters. *)
Definition rtsp_transport_generate (t : rtsp_transport_t) (value : apt_str_t)
    : res (bool * apt_str_t) :=
  match apt_string_table_str_get rtsp_transport_string_table RTSP_TRANSPORT_COUNT (protocol t),
        apt_string_table_str_get rtsp_profile_string_table RTSP_PROFILE_COUNT (profile t) with
  | Some protocol, Some profile =>
      let st := apt_text_stream_init (replicate 256 NUL) 256 in
      st ← text_put st protocol;
      st ← char_put st "/"%char;
      st ← text_put st profile;
      let attrib :=
        if decide (delivery t = RTSP_DELIVERY_UNICAST) then RTSP_TRANSPORT_ATTRIB_UNICAST
        else if decide (delivery t = RTSP_DELIVERY_MULTICAST) then RTSP_TRANSPORT_ATTRIB_MULTICAST
        else RTSP_TRANSPORT_ATTRIB_NONE in
      '(ok, st) ←
        (if decide (delivery t = RTSP_DELIVERY_NONE) then Ok (true, st)
         else
           match apt_string_table_str_get rtsp_transport_attrib_string_table
                   RTSP_TRANSPORT_ATTRIB_COUNT attrib with
           | None => Ok (false, st)
           | Some delivery =>
               st ← char_put st ";"%char; st ← text_put st delivery; Ok (true, st)
           end);
      if negb ok then Ok (false, value)
      else
        st ← port_attrib RTSP_TRANSPORT_ATTRIB_CLIENT_PORT (client_port_range t) st;
        st ← port_attrib RTSP_TRANSPORT_ATTRIB_SERVER_PORT (server_port_range t) st;
        st ← (if decide (len (mode t) = 0) then Ok st
              else
                match apt_string_table_str_get rtsp_transport_attrib_string_table
                        RTSP_TRANSPORT_ATTRIB_COUNT RTSP_TRANSPORT_ATTRIB_MODE with
                | None => Ok st
                | Some str =>
                    st ← char_put st ";"%char; st ← text_put st str;
                    st ← char_put st "="%char; text_put st (mode t)
                end);
        Ok (true, str_of (take (pos st) (mem st)))
  | _, _ => Ok (false, value)
  end.

(** ** Header fields *)

(** What follows a semicolon is cut off. *)
Definition rtsp_session_id_parse (value : apt_str_t) (session_id : apt_str_t) : res (bool * apt_str_t) :=
  match buf value with
  | None => Ok (false, session_id)
  | Some _ =>
      let id := apt_string_copy value in
      b ← deref (buf id);
      Ok (true, match strchr b ";"%char with
                | Some n => mk_str (Some (take n b)) n
                | None => id
                end)
  end.

Definition rtsp_header_field_value_parse (h : rtsp_header_t) (id : nat) (value : apt_str_t)
    : res (bool * rtsp_header_t) :=
  match id with
  | RTSP_HEADER_FIELD_CSEQ => Ok (true, h <| cseq := apt_size_value_parse value |>)
  | RTSP_HEADER_FIELD_TRANSPORT =>
      '(ok, t) ← deref (rtsp_transport_parse (transport h) value); Ok (ok, h <| transport := t |>)
  | RTSP_HEADER_FIELD_SESSION_ID =>
      '(ok, s) ← rtsp_session_id_parse value (rtsp_session_id h); Ok (ok, h <| rtsp_session_id := s |>)
  | RTSP_HEADER_FIELD_RTP_INFO => Ok (true, h <| rtp_info := value |>)
  | RTSP_HEADER_FIELD_CONTENT_TYPE =>
      Ok (true, h <| content_type :=
        apt_string_table_id_find rtsp_content_type_string_table RTSP_CONTENT_TYPE_COUNT value |>)
  | RTSP_HEADER_FIELD_CONTENT_LENGTH => Ok (true, h <| rtsp_content_length := apt_size_value_parse value |>)
  | _ => Ok (false, h)
  end.

(** The result is TRUE always; the results of the inner calls are not used. *)
Definition rtsp_header_field_value_generate (h : rtsp_header_t) (id : nat) (value : apt_str_t)
    : res apt_str_t :=
  match id with
  | RTSP_HEADER_FIELD_CSEQ => Ok (apt_size_value_generate (cseq h))
  | RTSP_HEADER_FIELD_TRANSPORT => '(_, v) ← rtsp_transport_generate (transport h) value; Ok v
  | RTSP_HEADER_FIELD_SESSION_ID => Ok (rtsp_session_id h)
  | RTSP_HEADER_FIELD_RTP_INFO => Ok (rtp_info h)
  | RTSP_HEADER_FIELD_CONTENT_TYPE =>
      Ok (default value (apt_string_table_str_get rtsp_content_type_string_table
                           RTSP_CONTENT_TYPE_COUNT (content_type h)))
  | RTSP_HEADER_FIELD_CONTENT_LENGTH => Ok (apt_size_value_generate (rtsp_content_length h))
  | _ => Ok value
  end.

(** Name a field and parse its value, if it has one. *)
Definition field_identify (h : rtsp_header_t) (f : apt_header_field_t)
    : res (rtsp_header_t * apt_header_field_t) :=
  let id := apt_string_table_id_find rtsp_header_string_table RTSP_HEADER_FIELD_COUNT (field_name f) in
  let f := set_field_id f (Z.of_nat id) in
  if apt_string_is_empty (field_value f) then Ok (h, f)
  else '(_, h) ← rtsp_header_field_value_parse h id (field_value f); Ok (h, f).

Definition rtsp_header_field_add (h : rtsp_header_t) (f : apt_header_field_t)
    : res (bool * rtsp_header_t) :=
  '(h, f) ← field_identify h f;
  let s := rtsp_header_section h in
  let '(ok, s) := apt_header_section_field_add s (fresh_loc s) f in
  Ok (ok, h <| rtsp_header_section := s |>).

(** One iteration of [rtsp_header_fields_parse], on the field at [l]. *)
Definition rtsp_parse_step (h : rtsp_header_t) (l : loc) : res rtsp_header_t :=
  f ← deref (field_at (rtsp_header_section h) l);
  '(h, f) ← field_identify h f;
  let s := field_update (rtsp_header_section h) l (λ _, f) in
  Ok (h <| rtsp_header_section := (apt_header_section_field_set s l f).2 |>).

Fixpoint rtsp_parse_loop (h : rtsp_header_t) (ls : list loc) : res rtsp_header_t :=
  match ls with
  | [] => Ok h
  | l :: ls => h ← rtsp_parse_step h l; rtsp_parse_loop h ls
  end.

Definition rtsp_header_fields_parse (h : rtsp_header_t) : res rtsp_header_t :=
  rtsp_parse_loop h (fst <$> ring (rtsp_header_section h)).

Definition rtsp_header_property_add (h : rtsp_header_t) (id : nat) : res (bool * rtsp_header_t) :=
  let s := rtsp_header_section h in
  match apt_header_section_field_get s (Z.of_nat id) with
  | Some l =>
      f ← deref (field_at s l);
      v ← rtsp_header_field_value_generate h id (field_value f);
      Ok (true, h <| rtsp_header_section := field_update s l (λ f, set_field_value f v) |>)
  | None =>
      let f := apt_header_field_alloc in
      v ← rtsp_header_field_value_generate h id (field_value f);
      match apt_string_table_str_get rtsp_header_string_table RTSP_HEADER_FIELD_COUNT id with
      | None => Ok (false, h)
      | Some name =>
          let f := set_field_id (set_field_name (set_field_value f v) name) (Z.of_nat id) in
          let '(ok, s) := apt_header_section_field_insert s (fresh_loc s) f in
          Ok (ok, h <| rtsp_header_section := s |>)
      end
  end.

End Generate.

Definition rtsp_header_property_remove (h : rtsp_header_t) (id : nat) : res (bool * rtsp_header_t) :=
  let s := rtsp_header_section h in
  match apt_header_section_field_get s (Z.of_nat id) with
  | Some l =>
      f ← deref (field_at s l);
      Ok (true, h <| rtsp_header_section := apt_header_section_field_remove s l f |>)
  | None => Ok (false, h)
  end.

Definition rtsp_header_property_check (h : rtsp_header_t) (id : nat) : bool :=
  apt_header_section_field_check (rtsp_header_section h) (Z.of_nat id).
