(* ===== verification/RtspHeaderTheory.v ===== *)
(** * RtspHeaderTheory: the Transport header is written and read, but for the
    ports of the server; every field of an RTSP header is read back; parsing a
    header ends without a fault. *)
From S2P Require Import Prelude CString StringTable TextStream TextStreamTheory TextValues.
From S2P Require Import StartLine StartLineTheory HeaderSection HeaderFields RecordUpdate RtspStartLine.
From S2P Require Import RtspLineTheory RtspHeader.

(** ** Reading pieces *)

(** A string that points at [f] inside a text; no digit follows. *)
Definition piece (field : apt_str_t) (f : cstr) : Prop :=
  len field = length f ∧ ∃ rest, buf field = Some (f ++ rest) ∧ isdigit (hd_char rest) = false.

(** [s] is left to read; no digit follows it. *)
Definition at_text (st : apt_text_stream_t) (s : cstr) : Prop :=
  stream_wf st ∧ window st = s ∧ isdigit (hd_char (drop (end_ st) (mem st))) = false.

Lemma piece_chars (field : apt_str_t) (f : cstr) : piece field f → chars field = f.
Proof. intros (Hl & rest & Hb & _). unfold chars. rewrite Hb, Hl. apply take_app_length. Qed.

Lemma piece_wf (field : apt_str_t) (f : cstr) : NUL ∉ f → piece field f → str_wf field.
Proof.
  intros Hn Hp. split; [|by rewrite (piece_chars _ _ Hp)]. destruct Hp as (-> & rest & -> & _).
  simpl. rewrite length_app. lia.
Qed.

Lemma piece_stream (field : apt_str_t) (f : cstr) : piece field f → at_text (stream_of_str field) f.
Proof.
  intros Hp. pose proof (piece_chars _ _ Hp) as Hc. destruct Hp as (Hl & rest & Hb & Hd). split_and!.
  - apply stream_of_str_wf. rewrite Hb, Hl. simpl. rewrite length_app. lia.
  - by rewrite window_stream_of_str.
  - unfold stream_of_str. rewrite Hb, Hl. simpl. by rewrite drop_app_length.
Qed.

Lemma piece_str_of (s : cstr) : piece (str_of s) s.
Proof. split; [done|]. exists []. split; [|done]. simpl. by rewrite app_nil_r. Qed.

Lemma size_piece (field : apt_str_t) (v : Z) :
  (0 ≤ v < 2 ^ 63)%Z → piece field (dec_u v) → apt_size_value_parse field = v.
Proof.
  intros Hv (Hl & rest & Hb & Hd). apply (size_parse_text field v []); [done|].
  split_and!; [by apply piece_chars; split; [|by exists rest]|done|by exists rest].
Qed.

(** A field that is read up to a separator, or to the end of the text. *)
Definition first_of (sep : char) (f : cstr) (rest : option cstr) : cstr :=
  match rest with Some r => f ++ sep :: r | None => f end.

Lemma read_piece (st : apt_text_stream_t) (sep : char) (f : cstr) (rest : option cstr) :
  at_text st (first_of sep f rest) → f ≠ [] → sep ∉ f → head f ≠ Some APT_TOKEN_SP →
  isdigit sep = false →
  ∃ st' field, apt_text_field_read st sep true = (true, st', field) ∧
    at_text st' (default [] rest) ∧ piece field f.
Proof.
  intros (Hwf & Hw & Hd) Hne Hsep Hsp Hdig.
  pose proof (drop_pos_window st Hwf) as Hdrop. rewrite Hw in Hdrop.
  pose proof (window_length st Hwf) as Hl. rewrite Hw in Hl. destruct rest as [r|]; simpl in *.
  - destruct (field_read_exact st sep f r Hwf Hw Hsep Hsp) as (field & -> & Hc & Hlen & Hb); [done|].
    rewrite bool_decide_eq_true_2 by done. rewrite length_app in Hl. simpl in Hl.
    eexists _, field. split; [done|]. split.
    + split_and!; [destruct Hwf; split; simpl; lia| |done].
      by rewrite window_with_pos, Hw, <- drop_drop, drop_app_length.
    + split; [done|]. eexists. unfold ptr in Hb. rewrite Hb, Hdrop, <- app_assoc. by split.
  - destruct (field_read_last st sep f Hwf Hw Hsep Hsp) as (field & -> & Hc & Hlen & Hb).
    rewrite bool_decide_eq_true_2 by done. eexists _, field. split; [done|]. split.
    + split_and!; [destruct Hwf; split; simpl; lia| |done].
      rewrite window_with_pos, Hw. by apply drop_ge.
    + split; [done|]. eexists. unfold ptr in Hb. rewrite Hb, Hdrop. by split.
Qed.

Lemma read_nothing (st : apt_text_stream_t) (sep : char) :
  at_text st [] → ∃ st' field, apt_text_field_read st sep true = (false, st', field).
Proof.
  intros (Hwf & Hw & _).
  destruct (field_read_last st sep [] Hwf Hw) as (field & -> & _); [apply not_elem_of_nil|done|].
  by eexists _, _.
Qed.

(** ** The text of a transport *)

Definition port_text (attrib : string) (r : rtsp_port_range_t) : cstr :=
  lit attrib ++ "="%char :: dec_u (port_min r) ++
  (if decide (port_min r < port_max r)%Z then "-"%char :: dec_u (port_max r) else []).

Definition delivery_texts (t : rtsp_transport_t) : list cstr :=
  match delivery t with
  | RTSP_DELIVERY_UNICAST => [lit "unicast"]
  | RTSP_DELIVERY_MULTICAST => [lit "multicast"]
  | _ => []
  end.

Definition port_texts (attrib : string) (r : rtsp_port_range_t) : list cstr :=
  if rtsp_port_range_is_valid r then [port_text attrib r] else [].

Definition mode_texts (t : rtsp_transport_t) : list cstr :=
  if decide (chars (mode t) = []) then [] else [lit "mode=" ++ chars (mode t)].

Definition attrib_texts (t : rtsp_transport_t) : list cstr :=
  delivery_texts t ++ port_texts "client_port" (client_port_range t) ++
  port_texts "server_port" (server_port_range t) ++ mode_texts t.

Definition protocol_text (t : rtsp_transport_t) : cstr :=
  lit "RTP/" ++ chars (default apt_string_reset
    (apt_string_table_str_get rtsp_profile_string_table RTSP_PROFILE_COUNT (profile t))).

Definition transport_text (t : rtsp_transport_t) : cstr :=
  protocol_text t ++ mjoin (cons ";"%char <$> attrib_texts t).

(** Ranges of ports: unset, or the port of RTP and a greater one for RTCP. *)
Definition ports_ok (r : rtsp_port_range_t) : Prop :=
  r = rtsp_port_range_init ∨ (0 ≤ port_min r < port_max r)%Z ∧ (port_max r < 2 ^ 16)%Z.

(** Transports that can be sent. *)
Record transport_ok (t : rtsp_transport_t) : Prop := {
  tr_protocol : protocol t = RTSP_TRANSPORT_RTP;
  tr_profile : profile t < RTSP_PROFILE_COUNT;
  tr_delivery : delivery t < RTSP_DELIVERY_NONE;
  tr_client : ports_ok (client_port_range t);
  tr_server : ports_ok (server_port_range t);
  tr_mode_wf : str_wf (mode t);
  tr_mode : chars (mode t) ≠ [] → plain_text (chars (mode t)) ∧ ";"%char ∉ chars (mode t);
  tr_size : length (transport_text t) < 256
}.

(** ** Writing a transport *)

Section Generate.
  Context `{AprFormat}.

(** The result of an insertion is not used. *)
Lemma emits_unused f s : emits_ok f s → emits (λ st, '(_, st) ← f st; Ok st) s.
Proof. intros Hf st Hfit. destruct (Hf st Hfit) as (st' & -> & Hem). by exists st'. Qed.

Lemma emits_true f s : emits f s → emits_ok (λ st, st ← f st; Ok (true, st)) s.
Proof. intros Hf st Hfit. destruct (Hf st Hfit) as (st' & -> & Hem). by exists st'. Qed.

Lemma emits_text_put (s : apt_str_t) : str_wf s → emits (λ st, text_put st s) (chars s).
Proof. intros Hs. by apply emits_unused, emits_string. Qed.

Lemma emits_char_put (c : char) : emits (λ st, char_put st c) [c].
Proof. apply emits_unused, emits_char. Qed.

Lemma emits_size_put (v : Z) : (0 ≤ v)%Z → emits (λ st, size_put st v) (dec_u v).
Proof. intros Hv. by apply emits_unused, emits_size_value. Qed.

Lemma attrib_name (id : nat) (s : string) :
  nth_error ["client_port"; "server_port"; "source"; "destination"; "unicast"; "multicast"; "mode"]%string
    id = Some s →
  apt_string_table_str_get rtsp_transport_attrib_string_table RTSP_TRANSPORT_ATTRIB_COUNT id =
    Some (str_of (lit s)) ∧ str_wf (str_of (lit s)).
Proof.
  do 7 (destruct id as [|id]; [intros [= <-]; split; [reflexivity|apply str_of_wf; not_elem]|]).
  by destruct id.
Qed.

Lemma emits_port_attrib (id : nat) (attrib : string) (r : rtsp_port_range_t) :
  nth_error ["client_port"; "server_port"]%string id = Some attrib → ports_ok r →
  emits (port_attrib id r) (mjoin (cons ";"%char <$> port_texts attrib r)).
Proof.
  intros Hid Hr. unfold port_attrib, port_texts. destruct (rtsp_port_range_is_valid r) eqn:Hv.
  2:{ apply emits_ret. }
  destruct Hr as [->|[Hmin Hmax]]; [done|]. unfold rtsp_port_range_generate.
  destruct (attrib_name id attrib) as [-> Hw]; [by destruct id as [|[|[]]]|].
  unfold port_text. destruct (decide (port_min r < port_max r)%Z); [|lia]. eapply emits_ext.
  - eapply emits_bind; [apply emits_char_put|]. apply emits_unused.
    eapply emits_bind_then; [by apply emits_text_put|].
    eapply emits_bind_then; [apply emits_char_put|].
    eapply emits_bind_then; [apply emits_size_put; lia|].
    apply emits_true.
    eapply emits_bind; [apply emits_char_put|apply emits_size_put; lia].
  - rewrite chars_str_of. simpl. rewrite app_nil_r. by destruct r.
Qed.

(** Append to what was emitted so far. *)
Lemma emit_next (st0 st : apt_text_stream_t) (n : nat) (s t : cstr) f :
  fits st0 n → emitted st0 st s → emits f t → length s + length t ≤ n →
  ∃ st', f st = Ok st' ∧ emitted st0 st' (s ++ t).
Proof.
  intros Hn Hs Hf Hle. destruct (Hf st) as (st' & Hst & Ht).
  - eapply emitted_fits; [exact Hs|]. by eapply fits_le.
  - exists st'. split; [done|]. by eapply emitted_app.
Qed.

Lemma rtsp_profile_names : name_table_ok rtsp_profile_string_table RTSP_PROFILE_COUNT.
Proof. apply name_table_check_ok. vm_compute. reflexivity. Qed.

Lemma emits_delivery (t : rtsp_transport_t) :
  delivery t < RTSP_DELIVERY_NONE →
  emits_ok (λ st,
    if decide (delivery t = RTSP_DELIVERY_NONE) then Ok (true, st)
    else
      match apt_string_table_str_get rtsp_transport_attrib_string_table RTSP_TRANSPORT_ATTRIB_COUNT
              (if decide (delivery t = RTSP_DELIVERY_UNICAST) then RTSP_TRANSPORT_ATTRIB_UNICAST
               else if decide (delivery t = RTSP_DELIVERY_MULTICAST) then RTSP_TRANSPORT_ATTRIB_MULTICAST
               else RTSP_TRANSPORT_ATTRIB_NONE) with
      | None => Ok (false, st)
      | Some delivery => st ← char_put st ";"%char; st ← text_put st delivery; Ok (true, st)
      end) (mjoin (cons ";"%char <$> delivery_texts t)).
Proof.
  intros Hd. unfold delivery_texts.
  destruct (delivery t) as [|[|]]; [| |lia]; apply (emits_bind_then _ _ [_]);
    (apply emits_char_put || (apply emits_true, emits_text_put, str_of_wf; not_elem)).
Qed.

Lemma emits_mode (t : rtsp_transport_t) :
  str_wf (mode t) →
  emits (λ st,
    if decide (len (mode t) = 0) then Ok st
    else
      match apt_string_table_str_get rtsp_transport_attrib_string_table
              RTSP_TRANSPORT_ATTRIB_COUNT RTSP_TRANSPORT_ATTRIB_MODE with
      | None => Ok st
      | Some str =>
          st ← char_put st ";"%char; st ← text_put st str;
          st ← char_put st "="%char; text_put st (mode t)
      end) (mjoin (cons ";"%char <$> mode_texts t)).
Proof.
  intros Hw. unfold mode_texts. pose proof (chars_length _ Hw) as Hl.
  destruct (decide (chars (mode t) = [])) as [Hz|Hz].
  { rewrite Hz in Hl. simpl in Hl. destruct (decide (len (mode t) = 0)); [|done]. apply emits_ret. }
  destruct (decide (len (mode t) = 0)) as [Hlz|_].
  { exfalso. apply Hz, nil_length_inv. lia. }
  eapply emits_ext.
  - eapply emits_bind; [apply emits_char_put|].
    eapply emits_bind; [apply emits_text_put, str_of_wf; not_elem|].
    eapply emits_bind; [apply emits_char_put|by apply emits_text_put].
  - simpl. by rewrite app_nil_r.
Qed.

Lemma transport_written (t : rtsp_transport_t) (value : apt_str_t) :
  transport_ok t → rtsp_transport_generate t value = Ok (true, str_of (transport_text t)).
Proof.
  intros [Hp Hf Hd Hc Hs Hw _ Hsize]. unfold rtsp_transport_generate. rewrite Hp.
  destruct (name_table_find _ _ _ rtsp_profile_names Hf) as (name & Hget & Wn & _).
  assert (Htext : transport_text t = ((((((lit "RTP" ++ ["/"%char]) ++ chars name) ++
      mjoin (cons ";"%char <$> delivery_texts t)) ++
      mjoin (cons ";"%char <$> port_texts "client_port" (client_port_range t))) ++
      mjoin (cons ";"%char <$> port_texts "server_port" (server_port_range t))) ++
      mjoin (cons ";"%char <$> mode_texts t))).
  { unfold transport_text, attrib_texts, protocol_text. rewrite Hget, !fmap_app, !join_app, <- !app_assoc.
    done. }
  rewrite Hget. cbv beta iota zeta.
  change (apt_string_table_str_get rtsp_transport_string_table RTSP_TRANSPORT_COUNT RTSP_TRANSPORT_RTP)
    with (Some (str_of (lit "RTP"))).
  set (st0 := apt_text_stream_init (replicate 256 NUL) 256). rewrite Htext in Hsize.
  assert (Hfit : fits st0 255) by (vm_compute; split_and!; (lia || done)).
  rewrite !length_app in Hsize.
  destruct (emit_next st0 st0 255 [] (lit "RTP") _ Hfit ltac:(apply emitted_nil; simpl; lia)
    (emits_text_put (str_of (lit "RTP")) ltac:(apply str_of_wf; not_elem))) as (st1 & -> & H1);
    [simpl; lia|]. cbn [mbind res_bind].
  destruct (emit_next _ _ _ _ _ _ Hfit H1 (emits_char_put "/")) as (st2 & -> & H2);
    [simpl; lia|]. cbn [mbind res_bind].
  destruct (emit_next _ _ _ _ _ _ Hfit H2 (emits_text_put name Wn)) as (st3 & -> & H3);
    [simpl in *; lia|]. cbn [mbind res_bind].
  destruct (emits_delivery t Hd st3) as (st4 & -> & H4).
  { eapply emitted_fits; [exact H3|]. eapply fits_le; [done|]. rewrite !length_app. simpl in *. lia. }
  cbn [mbind res_bind negb]. pose proof (emitted_app _ _ _ _ _ H3 H4) as H5. clear H4.
  destruct (emit_next _ _ _ _ _ _ Hfit H5 (emits_port_attrib 0 _ _ eq_refl Hc)) as (st5 & -> & H6);
    [rewrite !length_app; simpl in *; lia|]. cbn [mbind res_bind].
  destruct (emit_next _ _ _ _ _ _ Hfit H6 (emits_port_attrib 1 _ _ eq_refl Hs)) as (st6 & -> & H7);
    [rewrite !length_app; simpl in *; lia|]. cbn [mbind res_bind].
  destruct (emit_next _ _ _ _ _ _ Hfit H7 (emits_mode t Hw)) as (st7 & -> & H8);
    [rewrite !length_app; simpl in *; lia|]. cbn [mbind res_bind].
  destruct H8 as (_ & _ & _ & _ & _ & _ & Htake). rewrite Htake. by rewrite Htext.
Qed.
End Generate.

(** ** Reading a transport *)

(** The loop over the attributes ends: a field that was read is not empty. *)
Lemma attribs_loop_total (fuel : nat) (t : rtsp_transport_t) (st : apt_text_stream_t) :
  stream_wf st → length (window st) < fuel → is_Some (attribs_loop fuel t st).
Proof.
  revert t st. induction fuel as [|fuel IH]; intros t st Hwf Hl; [lia|]. cbn [attribs_loop].
  destruct (apt_text_field_read st ";" true) as [[[] st'] field] eqn:Hr; [|by eexists].
  destruct (apt_text_field_read_wf _ _ _ _ _ _ Hwf Hr) as [Hwf' Hlen].
  apply IH; [done|]. pose proof (apt_text_field_read_spec st ";" true Hwf) as Hs. rewrite Hr in Hs.
  destruct Hs as (sp & mk & rest & Hw & _ & _ & _ & _ & _ & Hok & _).
  assert (length (window st) ≠ 0).
  { rewrite Hw, !length_app. symmetry in Hok. apply bool_decide_eq_true in Hok.
    destruct (chars field); simpl; [done|lia]. }
  lia.
Qed.

Lemma transport_parse_total (t : rtsp_transport_t) (value : apt_str_t) :
  len value ≤ length (default [] (buf value)) → is_Some (rtsp_transport_parse t value).
Proof.
  intros Hl. unfold rtsp_transport_parse.
  destruct (apt_text_field_read (stream_of_str value) ";" true) as [[[] st] field] eqn:Hr; [|by eexists].
  destruct (apt_text_field_read_wf _ _ _ _ _ _ (stream_of_str_wf value Hl) Hr) as [Hwf _].
  destruct (rtsp_transport_protocol_parse t field) as [[] t1]; [|by eexists].
  destruct (attribs_loop_total (S (length (window st))) t1 st Hwf ltac:(lia)) as [t2 ->]. by eexists.
Qed.

(** The attribute [a] is one field, and it changes the transport by [g]. *)
Definition has_effect (a : cstr) (g : rtsp_transport_t → rtsp_transport_t) : Prop :=
  a ≠ [] ∧ ";"%char ∉ a ∧ head a ≠ Some APT_TOKEN_SP ∧
  ∀ t field, piece field a → (rtsp_transport_attrib_parse t field).2 = g t.

Definition attribs_tail (attribs : list cstr) : option cstr :=
  match attribs with
  | [] => None
  | a :: attribs => Some (a ++ mjoin (cons ";"%char <$> attribs))
  end.

Lemma attribs_first (a : cstr) (attribs : list cstr) :
  a ++ mjoin (cons ";"%char <$> attribs) = first_of ";" a (attribs_tail attribs).
Proof. destruct attribs; simpl; [by rewrite app_nil_r|done]. Qed.

Lemma attribs_loop_effects (attribs : list cstr) (gs : list (rtsp_transport_t → rtsp_transport_t))
    (fuel : nat) (t : rtsp_transport_t) (st : apt_text_stream_t) :
  Forall2 has_effect attribs gs → at_text st (default [] (attribs_tail attribs)) →
  length (window st) < fuel →
  attribs_loop fuel t st = Some (foldl (λ t g, g t) t gs).
Proof.
  intros He. revert fuel t st. induction He as [|a g attribs gs (Hne & Hsep & Hsp & Hg) _ IH];
    intros fuel t st Hat Hl; (destruct fuel as [|fuel]; [lia|]); cbn [attribs_loop].
  - destruct (read_nothing st ";" Hat) as (st' & field & ->). done.
  - cbn [attribs_tail default from_option id] in Hat. rewrite attribs_first in Hat.
    pose proof Hat as (_ & Hw & _).
    destruct (read_piece st ";" a (attribs_tail attribs) Hat Hne Hsep Hsp eq_refl)
      as (st' & field & -> & Hat' & Hp).
    rewrite (Hg _ _ Hp). apply IH; [done|]. destruct Hat' as (_ & -> & _). rewrite Hw in Hl.
    assert (0 < length a) by (destruct a; [done|simpl; lia]).
    destruct (attribs_tail attribs); simpl in *; [rewrite length_app in Hl; simpl in Hl|]; lia.
Qed.

Lemma rtsp_attrib_names :
  name_table_ok rtsp_transport_attrib_string_table RTSP_TRANSPORT_ATTRIB_COUNT.
Proof. apply name_table_check_ok. vm_compute. reflexivity. Qed.

(** The name of an attribute is found. *)
Lemma attrib_find (id : nat) (s : string) (field : apt_str_t) :
  nth_error ["client_port"; "server_port"; "source"; "destination"; "unicast"; "multicast"; "mode"]%string
    id = Some s → piece field (lit s) →
  apt_string_table_id_find rtsp_transport_attrib_string_table RTSP_TRANSPORT_ATTRIB_COUNT field = id.
Proof.
  intros Hs Hp. destruct (attrib_name id s Hs) as [Hget [_ Hn]]. rewrite chars_str_of in Hn.
  assert (Hid : id < RTSP_TRANSPORT_ATTRIB_COUNT) 
    by (do 7 (destruct id; [lia|]); by destruct id).
  destruct (name_table_find _ _ _ rtsp_attrib_names Hid) as (name & Hget' & _ & _ & Hfind).
  rewrite Hget' in Hget. injection Hget as ->. apply Hfind; [by eapply piece_wf|].
  by rewrite (piece_chars _ _ Hp), chars_str_of.
Qed.

Lemma effect_flag (id : nat) (s : string) g :
  nth_error ["client_port"; "server_port"; "source"; "destination"; "unicast"; "multicast"]%string
    id = Some s → (id = 4 ∧ g = (λ t, t <| delivery := RTSP_DELIVERY_UNICAST |>) ∨
                   id = 5 ∧ g = (λ t, t <| delivery := RTSP_DELIVERY_MULTICAST |>)) →
  has_effect (lit s) g.
Proof.
  intros Hs Hid. assert (Hs' : nth_error ["client_port"; "server_port"; "source"; "destination";
    "unicast"; "multicast"; "mode"]%string id = Some s) by (by destruct Hid as [[-> _]|[-> _]]).
  assert (lit s ≠ [] ∧ ";"%char ∉ lit s ∧ head (lit s) ≠ Some APT_TOKEN_SP ∧ "="%char ∉ lit s)
    as (Hne & Hsep & Hsp & Heq).
  { destruct Hid as [[-> _]|[-> _]]; injection Hs as <-; split_and!; (done || not_elem). }
  split_and!; try done. intros t field Hp. unfold rtsp_transport_attrib_parse.
  destruct (read_piece (stream_of_str field) "=" (lit s) None (piece_stream _ _ Hp) Hne Heq Hsp eq_refl)
    as (st & name & -> & _ & Hname).
  rewrite (attrib_find id s name Hs' Hname). by destruct Hid as [[-> ->]|[-> ->]].
Qed.

(** An attribute with a value. *)
Lemma attrib_value (id : nat) (s : string) (v : cstr) (field : apt_str_t) :
  nth_error ["client_port"; "server_port"; "source"; "destination"; "unicast"; "multicast"; "mode"]%string
    id = Some s → piece field (lit s ++ "="%char :: v) →
  ∃ st name, apt_text_field_read (stream_of_str field) "=" true = (true, st, name) ∧
    apt_string_table_id_find rtsp_transport_attrib_string_table RTSP_TRANSPORT_ATTRIB_COUNT name = id ∧
    at_text st v.
Proof.
  intros Hs Hp.
  assert (lit s ≠ [] ∧ "="%char ∉ lit s ∧ head (lit s) ≠ Some APT_TOKEN_SP) as (Hne & Heq & Hsp).
  { do 7 (destruct id as [|id]; [injection Hs as <-; split_and!; (done || not_elem)|]). by destruct id. }
  destruct (read_piece (stream_of_str field) "=" (lit s) (Some v) (piece_stream _ _ Hp) Hne Heq Hsp eq_refl)
    as (st & name & Hr & Hat & Hname).
  exists st, name. split_and!; [done|by eapply attrib_find|done].
Qed.

Lemma digits_head (v : Z) (c : char) : (0 ≤ v)%Z → isdigit c = false → head (dec_u v) ≠ Some c.
Proof.
  intros Hv Hc Hh. apply (dec_u_not_elem v c Hv Hc). destruct (dec_u v); [done|].
  injection Hh as ->. left.
Qed.

Lemma range_parsed (r r0 : rtsp_port_range_t) (st : apt_text_stream_t) :
  (0 ≤ port_min r < port_max r)%Z → (port_max r < 2 ^ 16)%Z →
  at_text st (dec_u (port_min r) ++ "-"%char :: dec_u (port_max r)) →
  rtsp_port_range_parse r0 st = (true, r).
Proof.
  intros Hmin Hmax Hat. unfold rtsp_port_range_parse.
  destruct (read_piece st "-" (dec_u (port_min r)) (Some (dec_u (port_max r))) Hat) as (st1 & a & -> & Hat1 & Ha);
    [apply dec_u_nonempty|apply dec_u_not_elem; [lia|done]|apply digits_head; [lia|done]|done|].
  destruct (read_piece st1 ";" (dec_u (port_max r)) None Hat1) as (st2 & b & -> & _ & Hb);
    [apply dec_u_nonempty|apply dec_u_not_elem; [lia|done]|apply digits_head; [lia|done]|done|].
  rewrite (size_piece a (port_min r)), (size_piece b (port_max r)) by (done || lia).
  rewrite !wrap_u_small by lia. by destruct r.
Qed.

(** Both ranges of ports are stored in the range of the client. *)
Lemma effect_port (id : nat) (s : string) (r : rtsp_port_range_t) :
  nth_error ["client_port"; "server_port"]%string id = Some s →
  (0 ≤ port_min r < port_max r)%Z → (port_max r < 2 ^ 16)%Z →
  has_effect (port_text s r) (λ t, t <| client_port_range := r |>).
Proof.
  intros Hs Hmin Hmax. unfold port_text. rewrite decide_True by lia.
  assert (lit s ≠ [] ∧ ";"%char ∉ lit s ∧ head (lit s) ≠ Some APT_TOKEN_SP) as (Hne & Hsep & Hsp).
  { destruct id as [|[|[]]]; [| |done|done]; injection Hs as <-; split_and!; (done || not_elem). }
  split_and!; [by destruct (lit s)| |by destruct (lit s)|].
  - rewrite !not_elem_of_app, !not_elem_of_cons. split_and!; try done.
    rewrite not_elem_of_app, not_elem_of_cons. split_and!; [|done|]; apply dec_u_not_elem; (lia || done).
  - intros t field Hp. unfold rtsp_transport_attrib_parse.
    destruct (attrib_value id s _ field ltac:(by destruct id as [|[|[]]]) Hp) as (st & name & -> & -> & Hat).
    destruct id as [|[|[]]]; [..|done|done]; simpl; by rewrite (range_parsed r _ st Hmin Hmax Hat).
Qed.

Lemma effect_mode (m : cstr) :
  plain_text m → ";"%char ∉ m → has_effect (lit "mode=" ++ m) (λ t, t <| mode := str_of m |>).
Proof.
  intros (Hne & _ & _ & Hst) Hsep. split_and!; [done| |done|].
  - apply not_elem_of_app. split; [not_elem|done].
  - intros t field Hp. unfold rtsp_transport_attrib_parse.
    destruct (attrib_value 6 "mode" m field eq_refl Hp) as (st & name & -> & -> & Hat).
    unfold rtsp_transport_attrib_value_parse.
    destruct (read_piece st ";" m None Hat Hne Hsep) as (st1 & v & -> & _ & Hv); [|done|].
    { destruct m as [|c m]; [done|]. simpl in *. intros [= ->]. by vm_compute in Hst. }
    simpl. destruct Hv as (Hl & rest & Hb & _). unfold apt_string_copy, str_of. rewrite Hl, Hb.
    rewrite decide_False by (by destruct m). simpl. by rewrite take_app_length.
Qed.

(** What the peer has of a transport [t], where it had [t0] before. *)
Definition transport_read (t t0 : rtsp_transport_t) : rtsp_transport_t :=
  mk_transport (protocol t) (profile t) RTSP_LOWER_TRANSPORT_UDP (delivery t)
    (if rtsp_port_range_is_valid (server_port_range t) then server_port_range t
     else if rtsp_port_range_is_valid (client_port_range t) then client_port_range t
     else client_port_range t0)
    (server_port_range t0) (source t0) (destination t0)
    (if decide (chars (mode t) = []) then mode t0 else str_of (chars (mode t))).

Lemma protocol_read (t t0 : rtsp_transport_t) (field : apt_str_t) :
  profile t < RTSP_PROFILE_COUNT → piece field (protocol_text t) →
  rtsp_transport_protocol_parse t0 field =
    (true, t0 <| protocol := RTSP_TRANSPORT_RTP |> <| profile := profile t |>
              <| lower_protocol := RTSP_LOWER_TRANSPORT_UDP |>).
Proof.
  intros Hp Hf. unfold rtsp_transport_protocol_parse, protocol_text in *.
  destruct (name_table_find _ _ _ rtsp_profile_names Hp) as (name & Hget & Wn & (Hne & _) & Hfind).
  rewrite Hget in Hf. cbn [default from_option id] in Hf.
  assert (Hslash : "/"%char ∉ chars name ∧ head (chars name) ≠ Some APT_TOKEN_SP).
  { destruct (profile t) as [|[|]]; [..|lia]; injection Hget as <-; split; (done || not_elem). }
  destruct (read_piece (stream_of_str field) "/" (lit "RTP") (Some (chars name)) (piece_stream _ _ Hf))
    as (st1 & a & -> & Hat1 & Ha); [done|not_elem|done|done|].
  assert (apt_string_table_id_find rtsp_transport_string_table RTSP_TRANSPORT_COUNT a = 0) as ->.
  { assert (Ht : name_table_ok rtsp_transport_string_table RTSP_TRANSPORT_COUNT)
      by (apply name_table_check_ok; vm_compute; reflexivity).
    destruct (name_table_find _ _ 0 Ht ltac:(lia)) as (rtp & Hrtp & _ & _ & Hrfind).
    injection Hrtp as <-. apply Hrfind; [eapply piece_wf; [|exact Ha]; not_elem|].
    by rewrite (piece_chars _ _ Ha). }
  cbv zeta. rewrite decide_False by (cbn; lia).
  destruct (read_piece st1 "/" (chars name) None Hat1) as (st2 & b & -> & Hat2 & Hb);
    [done|apply Hslash|apply Hslash|done|].
  rewrite (Hfind b); [|eapply piece_wf; [apply Wn|exact Hb]|by rewrite (piece_chars _ _ Hb)].
  rewrite decide_False by (cbn; lia). by destruct (read_nothing st2 "/" Hat2) as (? & ? & ->).
Qed.

Lemma ports_effects (id : nat) (s : string) (r : rtsp_port_range_t) :
  nth_error ["client_port"; "server_port"]%string id = Some s → ports_ok r →
  Forall2 has_effect (port_texts s r)
    (if rtsp_port_range_is_valid r then [λ t, t <| client_port_range := r |>] else []).
Proof.
  intros Hs Hr. unfold port_texts. destruct (rtsp_port_range_is_valid r) eqn:Hv; [|constructor].
  destruct Hr as [->|[Hmin Hmax]]; [done|]. constructor; [by eapply effect_port|constructor].
Qed.

Lemma transport_parsed (t t0 : rtsp_transport_t) (value : apt_str_t) :
  transport_ok t → piece value (transport_text t) →
  rtsp_transport_parse t0 value = Some (true, transport_read t t0).
Proof.
  intros [Hp Hf Hd Hc Hs Hw Hm _] Hv. unfold rtsp_transport_parse.
  pose proof (piece_stream _ _ Hv) as Hat. unfold transport_text in Hat. rewrite attribs_first in Hat.
  assert (protocol_text t ≠ [] ∧ ";"%char ∉ protocol_text t ∧ head (protocol_text t) ≠ Some APT_TOKEN_SP)
    as (Hne & Hsep & Hsp).
  { unfold protocol_text. destruct (profile t) as [|[|]]; [..|lia]; split_and!; (done || not_elem). }
  destruct (read_piece _ _ _ _ Hat Hne Hsep Hsp eq_refl) as (st & field & -> & Hat1 & Hfield).
  rewrite (protocol_read t t0 field Hf Hfield).
  assert (Hmode : Forall2 has_effect (mode_texts t)
    (if decide (chars (mode t) = []) then [] else [λ t', t' <| mode := str_of (chars (mode t)) |>])).
  { unfold mode_texts. case_decide as Hz; [constructor|]. destruct (Hm Hz).
    constructor; [by apply effect_mode|constructor]. }
  assert (Hdel : Forall2 has_effect (delivery_texts t) [λ t', t' <| delivery := delivery t |>]).
  { unfold delivery_texts. destruct (delivery t) as [|[|]]; [..|lia]; (constructor; [|constructor]).
    - eapply (effect_flag 4); [reflexivity|by left].
    - eapply (effect_flag 5); [reflexivity|by right]. }
  rewrite (attribs_loop_effects (attrib_texts t) _ _ _ _
    (Forall2_app Hdel (Forall2_app (ports_effects 0 _ _ eq_refl Hc)
      (Forall2_app (ports_effects 1 _ _ eq_refl Hs) Hmode))) Hat1) by lia.
  cbn [mbind option_bind]. unfold transport_read. rewrite Hp.
  destruct (rtsp_port_range_is_valid (client_port_range t)), (rtsp_port_range_is_valid (server_port_range t)),
    (decide (chars (mode t) = [])); reflexivity.
Qed.

(** The ports of the server are lost.  A transport with a range of ports for
    the server is written successfully, within the 256 characters of the buffer,
    and parsed successfully; but the parser stores the ports of the server as
    those of the client, which replaces the ones the message carries, and leaves
    the range of the server as it was. *)
Theorem server_port_misplaced `{AprFormat} (t t0 : rtsp_transport_t) (value : apt_str_t)
  (Hok : transport_ok t) (Hserver : rtsp_port_range_is_valid (server_port_range t) = true) :
  ∃ text t', rtsp_transport_generate t value = Ok (true, text) ∧
    rtsp_transport_parse t0 text = Some (true, t') ∧
    client_port_range t' = server_port_range t ∧ server_port_range t' = server_port_range t0.
Proof.
  exists (str_of (transport_text t)), (transport_read t t0). rewrite transport_written by done.
  rewrite (transport_parsed t t0) by (done || apply piece_str_of).
  split_and!; try done. unfold transport_read. simpl. by rewrite Hserver.
Qed.

Definition sample_transport : rtsp_transport_t :=
  mk_transport RTSP_TRANSPORT_RTP RTSP_PROFILE_AVP RTSP_LOWER_TRANSPORT_UDP RTSP_DELIVERY_UNICAST
    (mk_port_range 4000 4001) (mk_port_range 5000 5001) apt_string_reset apt_string_reset apt_string_reset.

Lemma server_port_misplaced_witness :
  let t0 := rtsp_transport_init 0 in
  ∃ text t', rtsp_transport_generate sample_transport apt_string_reset = Ok (true, text) ∧
    rtsp_transport_parse t0 text = Some (true, t') ∧
    client_port_range t' = server_port_range sample_transport ∧
    server_port_range t' = server_port_range t0.
Proof.
  intros t0. apply server_port_misplaced; [|reflexivity].
  constructor; try (vm_compute; lia); try (right; vm_compute; split_and!; (lia || reflexivity || discriminate)).
  - split; [vm_compute; lia|not_elem].
  - intros H. exfalso. by apply H.
Defined.
