(* ===== verification/RtspMessage.v ===== *)
(** * RtspMessage: RTSP messages, and the handlers that plug them into the text
    message parser and generator ([rtsp_message.c], [rtsp_stream.c]). *)
From S2P Require Import Prelude CString StringTable TextStream HeaderSection TextMessage.
From S2P Require Import RecordUpdate RtspStartLine RtspHeader.

Record rtsp_message_t := mk_rtsp_message {
  rtsp_start_line : rtsp_start_line_t;
  rtsp_header : rtsp_header_t;
  rtsp_body : apt_str_t
}.

#[export] Instance eta_rtsp_message : Settable rtsp_message_t :=
  settable! mk_rtsp_message < rtsp_start_line; rtsp_header; rtsp_body >.

(** [rtsp_start_line_init]: the type of the new message is that of the line. *)
Definition rtsp_message_create (junk : nat) (sl : rtsp_start_line_t) : rtsp_message_t :=
  mk_rtsp_message sl (rtsp_header_init junk) apt_string_reset.

Definition rtsp_request_create (junk : nat) : rtsp_message_t :=
  rtsp_message_create junk
    (RTSP_MESSAGE_TYPE_REQUEST (rtsp_request_line_init <| rl_version := RTSP_VERSION_1 |>)).

Section Message.
  Context `{AprFormat} (junk : nat).

(** [junk_version] is what the union holds where a request has its version. *)
Definition rtsp_response_create (request : rtsp_message_t) (status_code : Z) (reason : nat)
    (junk_version : rtsp_version_e) : res rtsp_message_t :=
  let version := match rtsp_start_line request with
                 | RTSP_MESSAGE_TYPE_REQUEST r => rl_version r
                 | _ => junk_version
                 end in
  let s := rtsp_status_line_init <| st_version := version |> <| st_status_code := status_code |> in
  let s := match rtsp_reason_phrase_get reason with
           | Some str => s <| st_reason := apt_string_copy str |>
           | None => s
           end in
  let response := rtsp_message_create junk (RTSP_MESSAGE_TYPE_RESPONSE s) in
  let h := rtsp_header response in
  h ← (if rtsp_header_property_check (rtsp_header request) RTSP_HEADER_FIELD_CSEQ then
         '(_, h) ← rtsp_header_property_add (h <| cseq := cseq (rtsp_header request) |>)
                     RTSP_HEADER_FIELD_CSEQ; Ok h
       else Ok h);
  let m := mode (transport (rtsp_header request)) in
  let h := if rtsp_header_property_check (rtsp_header request) RTSP_HEADER_FIELD_TRANSPORT then
             if decide (len m = 0) then h
             else h <| transport := transport h <| mode := apt_string_copy m |> |>
           else h in
  Ok (response <| rtsp_header := h |>).

(** ** The stream handlers *)

#[export, program] Instance rtsp_message_context : MessageContext rtsp_message_t := {|
  msg_header m := rtsp_header_section (rtsp_header m);
  msg_with_header m s := m <| rtsp_header := rtsp_header m <| rtsp_header_section := s |> |>;
  msg_body := rtsp_body;
  msg_with_body m b := m <| rtsp_body := b |>
|}.
Solve Obligations with done.

Definition rtsp_parser_on_start (st : apt_text_stream_t)
    : option rtsp_message_t * apt_text_stream_t :=
  match apt_text_line_read st with
  | (false, st, _) => (None, st)
  | (true, st, line) =>
      let m := rtsp_message_create junk RTSP_MESSAGE_TYPE_UNKNOWN in
      match rtsp_start_line_parse (rtsp_start_line m) line with
      | (false, _) => (None, st)
      | (true, sl) => (Some (m <| rtsp_start_line := sl |>), st)
      end
  end.

Definition rtsp_parser_on_header_complete (m : rtsp_message_t) : res (bool * rtsp_message_t) :=
  h ← rtsp_header_fields_parse (rtsp_header m);
  let m := m <| rtsp_header := h |> in
  Ok (true, if rtsp_header_property_check h RTSP_HEADER_FIELD_CONTENT_LENGTH
            then m <| rtsp_body := mk_str (buf (rtsp_body m)) (Z.to_nat (rtsp_content_length h)) |>
            else m).

Definition rtsp_parser_vtable : apt_message_parser_vtable_t rtsp_message_t :=
  mk_parser_vtable rtsp_parser_on_start rtsp_parser_on_header_complete (λ m, m).

Definition rtsp_parser_run := apt_message_parser_run rtsp_parser_vtable.

Definition rtsp_generator_on_start (m : rtsp_message_t) (st : apt_text_stream_t)
    : res (bool * rtsp_message_t * apt_text_stream_t) :=
  '(ok, sl, st) ← rtsp_start_line_generate (rtsp_start_line m) st;
  Ok (ok, m <| rtsp_start_line := sl |>, st).

Definition rtsp_generator_vtable : apt_message_generator_vtable_t rtsp_message_t :=
  mk_generator_vtable rtsp_generator_on_start (λ m st, Ok (m, st)).

Definition rtsp_generator_run := apt_message_generator_run rtsp_generator_vtable.

End Message.
