(* ===== verification/RtspRoundtrip.v ===== *)
(** * RtspRoundtrip: an RTSP message that the generator writes is read back by the
    parser: start-line, typed header fields and body. *)
From S2P Require Import Prelude CString StringTable TextStream TextStreamTheory TextValues.
From S2P Require Import StartLine StartLineTheory HeaderSection TextMessage TextMessageTheory.
From S2P Require Import HeaderFields MrcpMessageTheory MrcpRoundtrip RecordUpdate.
From S2P Require Import RtspStartLine RtspLineTheory RtspHeader RtspHeaderTheory RtspMessage.

(** ** The values of the fields *)

Lemma rtsp_header_names : name_table_ok rtsp_header_string_table RTSP_HEADER_FIELD_COUNT.
Proof. apply name_table_check_ok. vm_compute. reflexivity. Qed.

Lemma rtsp_content_names : name_table_ok rtsp_content_type_string_table RTSP_CONTENT_TYPE_COUNT.
Proof. apply name_table_check_ok. vm_compute. reflexivity. Qed.

Definition rtsp_text (h : rtsp_header_t) (id : nat) : cstr :=
  match id with
  | RTSP_HEADER_FIELD_CSEQ => dec_u (cseq h)
  | RTSP_HEADER_FIELD_TRANSPORT => transport_text (transport h)
  | RTSP_HEADER_FIELD_SESSION_ID => chars (rtsp_session_id h)
  | RTSP_HEADER_FIELD_RTP_INFO => chars (rtp_info h)
  | RTSP_HEADER_FIELD_CONTENT_TYPE =>
      chars (default apt_string_reset (apt_string_table_str_get rtsp_content_type_string_table
        RTSP_CONTENT_TYPE_COUNT (content_type h)))
  | RTSP_HEADER_FIELD_CONTENT_LENGTH => dec_u (rtsp_content_length h)
  | _ => []
  end.

(** Values that can be sent. *)
Definition rtsp_value_ok (h : rtsp_header_t) (id : nat) : Prop :=
  match id with
  | RTSP_HEADER_FIELD_CSEQ => (0 ≤ cseq h < 2 ^ 63)%Z
  | RTSP_HEADER_FIELD_TRANSPORT => transport_ok (transport h)
  | RTSP_HEADER_FIELD_SESSION_ID =>
      str_wf (rtsp_session_id h) ∧ plain_text (chars (rtsp_session_id h)) ∧
      ";"%char ∉ chars (rtsp_session_id h)
  | RTSP_HEADER_FIELD_RTP_INFO => str_wf (rtp_info h) ∧ plain_text (chars (rtp_info h))
  | RTSP_HEADER_FIELD_CONTENT_TYPE => content_type h < RTSP_CONTENT_TYPE_COUNT
  | RTSP_HEADER_FIELD_CONTENT_LENGTH => (0 ≤ rtsp_content_length h < 2 ^ 63)%Z
  | _ => False
  end.

(** The value of the field [id] of [h], as it is in the header [h'] of the peer. *)
Definition rtsp_same (junk : nat) (h : rtsp_header_t) (id : nat) (h' : rtsp_header_t) : Prop :=
  match id with
  | RTSP_HEADER_FIELD_CSEQ => cseq h' = cseq h
  | RTSP_HEADER_FIELD_TRANSPORT =>
      transport h' = transport_read (transport h) (rtsp_transport_init junk)
  | RTSP_HEADER_FIELD_SESSION_ID => chars (rtsp_session_id h') = chars (rtsp_session_id h)
  | RTSP_HEADER_FIELD_RTP_INFO => chars (rtp_info h') = chars (rtp_info h)
  | RTSP_HEADER_FIELD_CONTENT_TYPE => content_type h' = content_type h
  | RTSP_HEADER_FIELD_CONTENT_LENGTH => rtsp_content_length h' = rtsp_content_length h
  | _ => False
  end.

Lemma rtsp_value_lt (h : rtsp_header_t) (id : nat) :
  rtsp_value_ok h id → id < RTSP_HEADER_FIELD_COUNT.
Proof. do 6 (destruct id as [|id]; [lia|]). done. Qed.

Lemma attrib_plain (t : rtsp_transport_t) :
  transport_ok t → Forall (λ a, NUL ∉ a ∧ no_eol a) (attrib_texts t).
Proof.
  intros [_ _ Hd Hc Hs Hw Hm _].
  assert (Hport : ∀ s r, NUL ∉ lit s → no_eol (lit s) → ports_ok r →
    Forall (λ a, NUL ∉ a ∧ no_eol a) (port_texts s r)).
  { intros s r Hn He Hr. unfold port_texts, port_text. destruct (rtsp_port_range_is_valid r) eqn:Hv; [|constructor].
    destruct Hr as [->|[Hmin Hmax]]; [done|]. rewrite decide_True by lia. apply Forall_singleton.
    unfold no_eol in *. rewrite !not_elem_of_app, !not_elem_of_cons, !not_elem_of_app, !not_elem_of_cons.
    split_and!; try (apply dec_u_not_elem; (lia || done)); (done || apply He). }
  unfold attrib_texts. rewrite !Forall_app. split_and!.
  - unfold delivery_texts. destruct (delivery t) as [|[|]]; [..|lia]; apply Forall_singleton; text_side.
  - apply Hport; [not_elem|text_side|done].
  - apply Hport; [not_elem|text_side|done].
  - unfold mode_texts. case_decide as Hz; [constructor|]. apply Forall_singleton.
    destruct (Hm Hz) as [(_ & Hn & [He _]) _]. rewrite no_eol_app, not_elem_of_app.
    split_and!; (done || not_elem || text_side || apply He).
Qed.

Lemma transport_text_plain (t : rtsp_transport_t) : transport_ok t → plain_text (transport_text t).
Proof.
  intros Ht. pose proof (attrib_plain t Ht) as Ha. destruct Ht as [_ Hp _ _ _ _ _ _].
  assert (Hall : NUL ∉ transport_text t ∧ no_eol (transport_text t)).
  { unfold transport_text, no_eol. rewrite !not_elem_of_app.
    assert (NUL ∉ protocol_text t ∧ no_eol (protocol_text t)) as (Hn & Hcr & Hlf).
    { unfold protocol_text. destruct (profile t) as [|[|]]; [..|lia]; text_side. }
    assert (Hj : ∀ c, c ≠ ";"%char → (∀ a, a ∈ attrib_texts t → c ∉ a) →
      c ∉ mjoin (cons ";"%char <$> attrib_texts t)).
    { intros c Hc Hin (a & Hca & Hel)%list_elem_of_join.
      apply list_elem_of_fmap in Hel as (a' & -> & Hel). apply elem_of_cons in Hca as [?|?]; [done|].
      by eapply Hin. }
    rewrite Forall_forall in Ha. unfold no_eol in Ha.
    split_and!; try done; apply Hj; try done; intros a Hin; by destruct (Ha a Hin) as (? & ? & ?). }
  destruct Hall as [Hn He]. split_and!; [|done|split; [done|]]; unfold transport_text, protocol_text;
    by destruct (profile t) as [|[|]]; [..|lia].
Qed.

Lemma rtsp_text_plain (h : rtsp_header_t) (id : nat) : rtsp_value_ok h id → plain_text (rtsp_text h id).
Proof.
  destruct id as [|[|[|[|[|[|id]]]]]]; simpl; [..|done].
  - intros. apply dec_u_plain. lia.
  - apply transport_text_plain.
  - tauto.
  - tauto.
  - intros Hc. by destruct (name_table_find _ _ _ rtsp_content_names Hc) as (name & -> & _ & ? & _).
  - intros. apply dec_u_plain. lia.
Qed.

Lemma strchr_None (s : cstr) (c : char) : c ∉ s → strchr s c = None.
Proof.
  induction s as [|x s IH]; intros Hn; [done|]. apply not_elem_of_cons in Hn as [Hx Hs]. simpl.
  rewrite IH by done. by repeat case_decide.
Qed.

Section Values.
  Context `{AprFormat} (junk : nat).

Lemma rtsp_value_written (h : rtsp_header_t) (id : nat) (value : apt_str_t) :
  rtsp_value_ok h id →
  ∃ v, rtsp_header_field_value_generate h id value = Ok v ∧ str_wf v ∧ chars v = rtsp_text h id.
Proof.
  intros Hok. pose proof (rtsp_text_plain h id Hok) as Hp. revert Hok Hp.
  destruct id as [|[|[|[|[|[|id]]]]]]; simpl; [..|done]; intros Hok Hp; unfold rtsp_header_field_value_generate.
  - eexists. split; [done|]. rewrite size_text by lia. split; [|done].
    unfold apt_size_value_generate. rewrite apr_psprintf_u_spec by lia. by apply str_of_chars_wf.
  - rewrite transport_written by done. eexists. split; [done|].
    split; [by apply str_of_chars_wf|apply chars_str_of].
  - eexists. split; [done|]. split; [apply Hok|done].
  - eexists. split; [done|]. split; [apply Hok|done].
  - destruct (name_table_find _ _ _ rtsp_content_names Hok) as (name & -> & Wn & _). by exists name.
  - eexists. split; [done|]. rewrite size_text by lia. split; [|done].
    unfold apt_size_value_generate. rewrite apr_psprintf_u_spec by lia. by apply str_of_chars_wf.
Qed.

(** A value that is sent is read back, and no other field changes. *)
Lemma rtsp_value_read (h h0 : rtsp_header_t) (id : nat) :
  rtsp_value_ok h id →
  (id = RTSP_HEADER_FIELD_TRANSPORT → transport h0 = rtsp_transport_init junk) →
  ∃ h1, rtsp_header_field_value_parse h0 id (str_of (rtsp_text h id)) = Ok (true, h1) ∧
    rtsp_header_section h1 = rtsp_header_section h0 ∧ rtsp_same junk h id h1 ∧
    (∀ i, i ≠ id → rtsp_same junk h i h0 → rtsp_same junk h i h1) ∧
    (id ≠ RTSP_HEADER_FIELD_TRANSPORT → transport h1 = transport h0).
Proof.
  intros Hok Ht. pose proof (rtsp_text_plain h id Hok) as Hp.
  destruct id as [|[|[|[|[|[|id]]]]]]; simpl in Hok, Hp; [..|done];
    unfold rtsp_header_field_value_parse, rtsp_text.
  - eexists. split; [done|]. split_and!; try done; simpl.
    + apply size_piece; [done|apply piece_str_of].
    + intros i Hi. by destruct i as [|[|[|[|[|[|]]]]]].
  - rewrite (transport_parsed (transport h)) by (done || apply piece_str_of). cbn [deref mbind res_bind].
    eexists. split; [done|]. split_and!; try done; simpl.
    + by rewrite Ht.
    + intros i Hi. by destruct i as [|[|[|[|[|[|]]]]]].
  - destruct Hok as (Ws & (Hne & _) & Hsep). unfold rtsp_session_id_parse. cbn [buf str_of].
    rewrite copy_str_of by (by rewrite ?chars_str_of; apply str_of_chars_wf || done).
    rewrite chars_str_of. cbn [buf str_of deref mbind res_bind].
    replace (strchr (chars (rtsp_session_id h)) ";"%char) with (@None nat).
    2:{ symmetry. by apply strchr_None. }
    eexists. split; [done|]. split_and!; try done; simpl; [apply chars_str_of|].
    intros i Hi. by destruct i as [|[|[|[|[|[|]]]]]].
  - eexists. split; [done|]. split_and!; try done; simpl; [apply chars_str_of|].
    intros i Hi. by destruct i as [|[|[|[|[|[|]]]]]].
  - destruct (name_table_find _ _ _ rtsp_content_names Hok) as (name & Hget & Wn & Hpn & Hfind).
    rewrite Hget. cbn [default from_option id].
    eexists. split; [done|]. split_and!; try done; simpl.
    + apply Hfind; [by apply str_of_chars_wf|by rewrite chars_str_of].
    + intros i Hi. by destruct i as [|[|[|[|[|[|]]]]]].
  - eexists. split; [done|]. split_and!; try done; simpl.
    + apply size_piece; [done|apply piece_str_of].
    + intros i Hi. by destruct i as [|[|[|[|[|[|]]]]]].
Qed.
(** ** Receiving *)

(** The field of one of the values of [h]. *)
Record rtsp_sent (h : rtsp_header_t) (f : apt_header_field_t) : Prop := {
  se_id : (0 ≤ field_id f)%Z;
  se_value : rtsp_value_ok h (Z.to_nat (field_id f));
  se_name : ∃ name, apt_string_table_str_get rtsp_header_string_table RTSP_HEADER_FIELD_COUNT
    (Z.to_nat (field_id f)) = Some name ∧ chars (field_name f) = chars name;
  se_name_wf : str_wf (field_name f);
  se_value_wf : str_wf (field_value f);
  se_text : chars (field_value f) = rtsp_text h (Z.to_nat (field_id f))
}.

(** The header of the peer, while it is parsed: the section [s0] was received,
    the fields [seen] were met. *)
Record recv_inv (h : rtsp_header_t) (s0 : apt_header_section_t) (seen : list nat) (h0 : rtsp_header_t)
    : Prop := {
  rv_skel : skeleton (rtsp_header_section h0) = skeleton s0;
  rv_arr : length (arr (rtsp_header_section h0)) = RTSP_HEADER_FIELD_COUNT;
  rv_check : ∀ i, i < RTSP_HEADER_FIELD_COUNT →
    rtsp_header_property_check h0 i = bool_decide (i ∈ seen);
  rv_same : ∀ i, i ∈ seen → rtsp_same junk h i h0;
  rv_transport : RTSP_HEADER_FIELD_TRANSPORT ∉ seen → transport h0 = rtsp_transport_init junk
}.

Lemma identify_sent (h h0 : rtsp_header_t) (f g : apt_header_field_t) :
  rtsp_sent h f → field_name g = field_name (parsed_field f) → field_value g = field_value (parsed_field f) →
  (Z.to_nat (field_id f) = RTSP_HEADER_FIELD_TRANSPORT → transport h0 = rtsp_transport_init junk) →
  ∃ h1, field_identify h0 g = Ok (h1, set_field_id g (field_id f)) ∧
    rtsp_header_section h1 = rtsp_header_section h0 ∧
    rtsp_same junk h (Z.to_nat (field_id f)) h1 ∧
    (∀ i, i ≠ Z.to_nat (field_id f) → rtsp_same junk h i h0 → rtsp_same junk h i h1) ∧
    (Z.to_nat (field_id f) ≠ RTSP_HEADER_FIELD_TRANSPORT → transport h1 = transport h0).
Proof.
  intros [Hid Hok (name & Hget & Hname) Wn Wv Htext] Hgn Hgv Ht. unfold field_identify.
  destruct g as [gn gv gi]. cbn [field_name field_value] in Hgn, Hgv. subst gn gv.
  pose proof (rtsp_value_lt _ _ Hok) as Hlt.
  destruct (name_table_find _ _ _ rtsp_header_names Hlt) as (name' & Hget' & _ & Hp & Hfind).
  rewrite Hget' in Hget. injection Hget as ->.
  cbn [field_name field_value set_field_id]. rewrite (Hfind (field_name (parsed_field f))).
  2:{ apply str_of_wf, Wn. }
  2:{ unfold parsed_field. simpl. by rewrite chars_str_of, Hname. }
  rewrite Z2Nat.id by done. change (field_value (parsed_field f)) with (str_of (chars (field_value f))). rewrite Htext.
  unfold apt_string_is_empty. rewrite bool_decide_eq_false_2.
  2:{ destruct (rtsp_text_plain _ _ Hok) as [Hne _]. simpl. by destruct (rtsp_text _ _). }
  destruct (rtsp_value_read h h0 _ Hok Ht) as (h1 & -> & Hrest). cbn [mbind res_bind].
  by exists h1.
Qed.

Lemma parse_step_sent (h h0 : rtsp_header_t) (s0 : apt_header_section_t) (seen : list nat) (l : loc)
    (f : apt_header_field_t) :
  NoDup (fst <$> skeleton s0) → rtsp_sent h f →
  (l, (field_name (parsed_field f), field_value (parsed_field f))) ∈ skeleton s0 →
  Z.to_nat (field_id f) ∉ seen → recv_inv h s0 seen h0 →
  ∃ h1, rtsp_parse_step h0 l = Ok h1 ∧ recv_inv h s0 (Z.to_nat (field_id f) :: seen) h1.
Proof.
  intros Hnd Hs Hin Hnew [Hskel Harr Hcheck Hsame Htr]. unfold rtsp_parse_step.
  rewrite <- Hskel, skeleton_locs in Hnd. rewrite <- Hskel in Hin.
  destruct (skeleton_field _ _ _ Hnd Hin) as (g & -> & Hring & Hn & Hv). cbn [deref mbind res_bind].
  simpl in Hn, Hv.
  destruct (identify_sent h h0 f g Hs) as (h1 & -> & Hsec & Hsame1 & Hother & Htr1);
    [by rewrite Hn|by rewrite Hv|intros He; apply Htr; by rewrite <- He|].
  cbn [mbind res_bind]. rewrite Hsec. set (s := field_update _ l _).
  assert (Hsk : skeleton s = skeleton s0) by (rewrite <- Hskel; by eapply skeleton_update).
  destruct (field_set_check s l (set_field_id g (field_id f))) as (Hr & Hl & Hc); [apply Hs|].
  eexists. split; [done|]. split; simpl.
  - unfold skeleton in *. by rewrite Hr.
  - by rewrite Hl.
  - intros i Hi. unfold rtsp_header_property_check in *. simpl. rewrite Hc by (by change (i < length (arr (rtsp_header_section h0))); rewrite Harr).
    change (apt_header_section_field_check s _) with
      (apt_header_section_field_check (rtsp_header_section h0) (Z.of_nat i)). rewrite Hcheck by done.
    apply eq_true_iff_eq. rewrite orb_true_iff, !bool_decide_eq_true, elem_of_cons. simpl.
    pose proof (se_id _ _ Hs). split; intros [?|?]; [by right|left; lia|right; lia|by left].
  - intros i [->|Hi]%elem_of_cons; [done|]. apply Hother; [by intros ->|by apply Hsame].
  - rewrite not_elem_of_cons. intros [Hne Hni]. etransitivity; [|by apply Htr]. apply Htr1. congruence.
Qed.

Lemma parse_loop_sent (h : rtsp_header_t) (s0 : apt_header_section_t) (ls : list loc)
    (fs : list apt_header_field_t) (seen : list nat) (h0 : rtsp_header_t) :
  NoDup (fst <$> skeleton s0) → Forall (rtsp_sent h) fs → NoDup (field_id <$> fs) →
  Forall2 (λ l f, (l, (field_name (parsed_field f), field_value (parsed_field f))) ∈ skeleton s0) ls fs →
  Forall (λ f, Z.to_nat (field_id f) ∉ seen) fs → recv_inv h s0 seen h0 →
  ∃ h1, rtsp_parse_loop h0 ls = Ok h1 ∧
    recv_inv h s0 (reverse ((λ f, Z.to_nat (field_id f)) <$> fs) ++ seen) h1.
Proof.
  intros Hnd Hs Hids Hls. revert seen h0 Hs Hids.
  induction Hls as [|l f ls fs Hin _ IH]; intros seen h0 Hs Hids Hnew Hinv; [by exists h0|].
  apply Forall_cons_1 in Hs as [Hf Hs]. apply Forall_cons_1 in Hnew as [Hn Hnew].
  rewrite fmap_cons in Hids. apply NoDup_cons in Hids as [Hfid Hids]. cbn [rtsp_parse_loop].
  destruct (parse_step_sent h h0 s0 seen l f Hnd Hf Hin Hn Hinv) as (h1 & -> & Hinv1).
  cbn [mbind res_bind]. destruct (IH (Z.to_nat (field_id f) :: seen) h1 Hs Hids) as (h2 & -> & Hinv2);
    [|done|].
  - rewrite Forall_forall in Hnew, Hs |- *. intros g Hg. apply not_elem_of_cons. split; [|by apply Hnew].
    intros He. apply Hfid. apply list_elem_of_fmap. exists g. split; [|done].
    pose proof (se_id _ _ Hf). pose proof (se_id _ _ (Hs g Hg)). lia.
  - exists h2. split; [done|]. by rewrite fmap_cons, reverse_cons, <- app_assoc.
Qed.

(** A header section that carries the values [ids] of [h]. *)
Record rtsp_carries (h : rtsp_header_t) (ids : list nat) (fs : list apt_header_field_t) : Prop := {
  ca_fields : Forall (rtsp_sent h) fs;
  ca_ids : (λ f, Z.to_nat (field_id f)) <$> fs ≡ₚ ids;
  ca_nodup : NoDup ids
}.

Lemma rtsp_fields_read (h h0 : rtsp_header_t) (ids : list nat) (fs : list apt_header_field_t) :
  rtsp_carries h ids fs → snd <$> ring (rtsp_header_section h0) = parsed_field <$> fs →
  NoDup (fst <$> ring (rtsp_header_section h0)) →
  arr (rtsp_header_section h0) = replicate RTSP_HEADER_FIELD_COUNT None →
  transport h0 = rtsp_transport_init junk →
  ∃ h1, rtsp_header_fields_parse h0 = Ok h1 ∧
    skeleton (rtsp_header_section h1) = skeleton (rtsp_header_section h0) ∧
    (∀ i, i < RTSP_HEADER_FIELD_COUNT → rtsp_header_property_check h1 i = bool_decide (i ∈ ids)) ∧
    ∀ i, i ∈ ids → rtsp_same junk h i h1.
Proof.
  intros [Hs Hids Hnd] Hring Hlocs Harr Htr.
  destruct (parse_loop_sent h (rtsp_header_section h0) (fst <$> ring (rtsp_header_section h0)) fs [] h0)
    as (h1 & Hl & [Hskel _ Hcheck Hsame _]); try done.
  - by rewrite skeleton_locs.
  - rewrite <- Hids in Hnd. clear -Hs Hnd. induction Hs as [|f fs Hf Hs IH]; [constructor|].
    rewrite fmap_cons in Hnd. apply NoDup_cons in Hnd as [Hn Hnd].
    rewrite fmap_cons. apply NoDup_cons. split; [|by apply IH].
    intros (g & He & Hg)%list_elem_of_fmap. apply Hn. apply list_elem_of_fmap. exists g. by rewrite He.
  - unfold skeleton. clear -Hring. revert fs Hring. generalize (ring (rtsp_header_section h0)) as r.
    induction r as [|[l g] r IH]; intros [|f fs] Hring; try done.
    rewrite !fmap_cons in *. injection Hring as Hg Hring. subst g. constructor; [left|].
    eapply Forall2_impl; [by apply IH|]. intros; by right.
  - by apply Forall_forall; intros ? _; apply not_elem_of_nil.
  - split; try done; [by rewrite Harr|intros i Hi|intros i Hi; by apply elem_of_nil in Hi].
    unfold rtsp_header_property_check. rewrite (check_alloc _ _ _ Harr).
    symmetry. apply bool_decide_eq_false, not_elem_of_nil.
  - exists h1. rewrite app_nil_r in *. split_and!; try done.
    + intros i Hi. rewrite Hcheck by done. apply bool_decide_ext. by rewrite elem_of_reverse, Hids.
    + intros i Hi. apply Hsame. by rewrite elem_of_reverse, Hids.
Qed.

(** ** Sending *)

(** Add the properties [ids], one after the other. *)
Fixpoint rtsp_properties_add (h : rtsp_header_t) (ids : list nat) : res (bool * rtsp_header_t) :=
  match ids with
  | [] => Ok (true, h)
  | id :: ids =>
      '(ok, h) ← rtsp_header_property_add h id;
      '(oks, h) ← rtsp_properties_add h ids;
      Ok (ok && oks, h)
  end.

(** The section [s] holds the values [ids] of [h]. *)
Record rtsp_filled (h : rtsp_header_t) (ids : list nat) (s : apt_header_section_t) : Prop := {
  fi_arr : length (arr s) = RTSP_HEADER_FIELD_COUNT;
  fi_check : ∀ i, i < RTSP_HEADER_FIELD_COUNT →
    apt_header_section_field_check s (Z.of_nat i) = bool_decide (i ∈ ids);
  fi_fields : Forall (λ p, rtsp_sent h p.2) (ring s);
  fi_ids : (λ p, Z.to_nat (field_id p.2)) <$> ring s ≡ₚ ids
}.

Lemma rtsp_property_added (h : rtsp_header_t) (ids : list nat) (s : apt_header_section_t) (id : nat) :
  rtsp_filled h ids s → rtsp_value_ok h id → id ∉ ids →
  ∃ s', rtsp_header_property_add (h <| rtsp_header_section := s |>) id =
      Ok (true, h <| rtsp_header_section := s' |>) ∧ rtsp_filled h (id :: ids) s'.
Proof.
  intros [Harr Hcheck Hfields Hids] Hok Hnew. pose proof (rtsp_value_lt _ _ Hok) as Hlt.
  pose proof (Hcheck id Hlt) as Hc. rewrite bool_decide_eq_false_2 in Hc by done.
  unfold rtsp_header_property_add. change (rtsp_header_section (h <| rtsp_header_section := s |>)) with s.
  destruct (apt_header_section_field_get s (Z.of_nat id)) eqn:Hget;
    [unfold apt_header_section_field_check in Hc; by rewrite Hget in Hc|]. clear Hget.
  destruct (rtsp_value_written h id (field_value apt_header_field_alloc) Hok) as (v & Hv & Wv & Ht).
  change (rtsp_header_field_value_generate (h <| rtsp_header_section := s |>))
    with (rtsp_header_field_value_generate h). rewrite Hv. cbn [mbind res_bind].
  destruct (name_table_find _ _ _ rtsp_header_names Hlt) as (name & Hname & Wn & _). rewrite Hname.
  set (f := set_field_id _ _). unfold apt_header_section_field_insert.
  change (field_id f) with (Z.of_nat id). rewrite decide_True by (unfold arr_size; lia). rewrite Hc.
  pose proof (ring_insert_sorted_perm (ring s) (fresh_loc s) f) as Hperm.
  assert (Hsent : rtsp_sent h f).
  { split; cbn [f set_field_id set_field_name set_field_value field_id field_name field_value];
      rewrite ?Nat2Z.id; [lia|done|by exists name|done..]. }
  eexists. split; [done|]. split; simpl.
  - by rewrite length_insert.
  - intros i Hi. apply eq_true_iff_eq. rewrite field_check_spec, bool_decide_eq_true, elem_of_cons by lia.
    simpl. rewrite !Nat2Z.id. pose proof (field_check_spec s (Z.of_nat i) ltac:(lia)) as Hci.
    rewrite Hcheck, bool_decide_eq_true, Nat2Z.id in Hci by done. rewrite Hci.
    destruct (decide (i = id)) as [->|Hne].
    + rewrite list_lookup_insert_eq by lia. naive_solver.
    + rewrite list_lookup_insert_ne by done. naive_solver.
  - rewrite Hperm. by constructor.
  - rewrite Hperm. rewrite fmap_cons, Hids. simpl. by rewrite Nat2Z.id.
Qed.

Lemma rtsp_properties_added (h : rtsp_header_t) (new ids : list nat) (s : apt_header_section_t) :
  rtsp_filled h ids s → Forall (rtsp_value_ok h) new → NoDup new → Forall (λ i, i ∉ ids) new →
  ∃ s', rtsp_properties_add (h <| rtsp_header_section := s |>) new =
      Ok (true, h <| rtsp_header_section := s' |>) ∧ rtsp_filled h (reverse new ++ ids) s'.
Proof.
  intros Hs Hok. revert ids s Hs. induction Hok as [|id new Hid _ IH]; intros ids s Hs Hnd Hn.
  { by exists s. }
  apply NoDup_cons in Hnd as [Hni Hnd]. apply Forall_cons_1 in Hn as [Hi Hn]. cbn [rtsp_properties_add].
  destruct (rtsp_property_added h ids s id Hs Hid Hi) as (s1 & -> & Hs1). cbn [mbind res_bind].
  destruct (IH (id :: ids) s1 Hs1 Hnd) as (s2 & -> & Hs2).
  { rewrite Forall_forall in Hn |- *. intros i Hin. apply not_elem_of_cons.
    split; [by intros ->|by apply Hn]. }
  exists s2. split; [done|]. by rewrite reverse_cons, <- app_assoc.
Qed.

(** A new header has no fields. *)
Lemma rtsp_filled_nil (h : rtsp_header_t) (s : apt_header_section_t) :
  ring s = [] → arr s = replicate RTSP_HEADER_FIELD_COUNT None → rtsp_filled h [] s.
Proof.
  intros Hr Ha. split; [by rewrite Ha| |by rewrite Hr|by rewrite Hr].
  intros i _. rewrite (check_alloc _ _ _ Ha). symmetry. apply bool_decide_eq_false, not_elem_of_nil.
Qed.

End Values.

(** ** Messages *)

Section Messages.
  Context `{AprFormat} (junk : nat).

(** The fields of a header, in the order of their lines. *)
Definition rtsp_section_fields (h : rtsp_header_t) : list apt_header_field_t :=
  snd <$> ring (rtsp_header_section h).

(** The header [h] with the properties [ids]. *)
Definition rtsp_properties (h : rtsp_header_t) (ids : list nat) : rtsp_header_t :=
  match rtsp_properties_add h ids with Ok (_, h) => h | Fault => h end.

Definition rtsp_message_text (m : rtsp_message_t) (reason : list cstr) : cstr :=
  joined (rtsp_fields (rtsp_start_line m) reason) ++ CRLF ++
  fields_text (rtsp_section_fields (rtsp_header m)) ++ CRLF ++ chars (rtsp_body m).

(** Messages that can be sent, with the values [ids] in the header: the
    Content-Length is present if there is a body, and tells its length. *)
Record rtsp_sendable (m : rtsp_message_t) (ids : list nat) (reason : list cstr) : Prop := {
  rs_line : rtsp_line_ok (rtsp_start_line m) reason;
  rs_ring : ring (rtsp_header_section (rtsp_header m)) = [];
  rs_arr : arr (rtsp_header_section (rtsp_header m)) = replicate RTSP_HEADER_FIELD_COUNT None;
  rs_values : Forall (rtsp_value_ok (rtsp_header m)) ids;
  rs_ids : NoDup ids;
  rs_body : len (rtsp_body m) ≤ length (default [] (buf (rtsp_body m)));
  rs_length : if decide (RTSP_HEADER_FIELD_CONTENT_LENGTH ∈ ids)
    then rtsp_content_length (rtsp_header m) = Z.of_nat (len (rtsp_body m))
    else len (rtsp_body m) = 0
}.

Lemma rtsp_sent_wf (h : rtsp_header_t) (f : apt_header_field_t) : rtsp_sent h f → field_wf f.
Proof.
  intros [_ Hok (name & Hget & Hn) Wn Wv Ht]. split_and!; try apply Wn; try apply Wv.
  - rewrite Hn. pose proof (rtsp_value_lt _ _ Hok) as Hlt. clear -Hget Hlt. revert Hget Hlt.
    generalize (Z.to_nat (field_id f)) as id.
    do 6 (intros [|id]; [intros [= <-] _; text_side|revert id]). intros id _. lia.
  - rewrite Ht. apply (rtsp_text_plain _ _ Hok).
Qed.

Lemma rtsp_body_bound (m : rtsp_message_t) (ids : list nat) (reason : list cstr) :
  rtsp_sendable m ids reason → (Z.of_nat (len (rtsp_body m)) < 2 ^ 63)%Z.
Proof.
  intros [_ _ _ Hv _ _ Hl]. case_decide as Hin; [|rewrite Hl; lia].
  rewrite Forall_forall in Hv. specialize (Hv _ Hin). simpl in Hv. lia.
Qed.

Lemma rtsp_generated (g : apt_message_generator_t) (a : nat) (m : rtsp_message_t)
    (reason : list cstr) (st : apt_text_stream_t) :
  g_context g ≠ Some a → rtsp_line_ok (rtsp_start_line m) reason →
  Forall field_wf (rtsp_section_fields (rtsp_header m)) →
  len (rtsp_body m) ≤ length (default [] (buf (rtsp_body m))) →
  text_buf st = pos st → text_buf st + text_len st = end_ st →
  fits st (length (rtsp_message_text m reason)) →
  ∃ g' m' st', rtsp_generator_run g a m st = Ok (APT_MESSAGE_STATUS_COMPLETE, g', m', st') ∧
    text_so_far st' = rtsp_message_text m reason.
Proof.
  intros Hg Hline Hfs Hbody Htb Htl Hfit. unfold rtsp_generator_run, apt_message_generator_run.
  rewrite decide_False by done. simpl g_stage. simpl g_on_start. unfold rtsp_generator_on_start.
  unfold rtsp_message_text in *. pose proof Hfit as (Hroom & Hend & _).
  rewrite !length_app in Hfit, Hroom.
  assert (Hchars : length (chars (rtsp_body m)) = len (rtsp_body m)) by (unfold chars; rewrite length_take; lia).
  destruct (rtsp_line_emitted _ _ st Hline) as (st1 & -> & H1).
  { eapply fits_le; [done|]. rewrite length_app. lia. }
  cbn [mbind res_bind negb]. simpl msg_header.
  destruct (emits_section (rtsp_header_section (rtsp_header m)) (proj1 (Forall_fmap _ _ _) Hfs) st1) as (st2 & -> & H2).
  { eapply emitted_fits; [exact H1|]. eapply fits_le; [done|]. rewrite !length_app.
    unfold rtsp_section_fields. lia. }
  cbn [mbind res_bind negb]. simpl g_on_header_complete. cbn [mbind res_bind]. simpl msg_body.
  pose proof (emitted_app _ _ _ _ _ H1 H2) as H12.
  pose proof (emitted_text_so_far st st2 _ Htb ltac:(lia) H12) as Htext. rewrite <- app_assoc in Htext.
  destruct H12 as (Hb2 & Hl2 & He2 & Hm2 & Hp2 & Hle2 & _). rewrite !length_app in Hp2.
  unfold rtsp_section_fields in *. case_decide as Hz.
  { eexists _, _, st2. split; [done|]. rewrite Htext. unfold chars. by rewrite Hz, app_nil_r. }
  destruct (buf (rtsp_body m)) as [b|] eqn:Hbuf; [|simpl in Hbody; lia].
  match goal with |- context [generate_body ?gb ?mb st2] =>
    destruct (generate_body_spec gb mb st2 b (len (rtsp_body m))) as (g' & m' & st3 & -> & W)
  end; try done; change (length CRLF) with 2 in *; simpl in Hbody; try lia.
  exists g', m', st3. split; [done|].
  rewrite (wrote_text_so_far st2 st3 _ ltac:(lia) W), Htext. unfold chars. rewrite Hbuf.
  by rewrite <- !app_assoc.
Qed.

(** The properties of a message, once they are added. *)
Lemma rtsp_properties_spec (m : rtsp_message_t) (ids : list nat) (reason : list cstr) :
  rtsp_sendable m ids reason →
  let h := rtsp_properties (rtsp_header m) ids in
  rtsp_properties_add (rtsp_header m) ids = Ok (true, h) ∧
  rtsp_carries (rtsp_header m) ids (rtsp_section_fields h).
Proof.
  intros [_ Hr Ha Hv Hnd _ _]. unfold rtsp_properties.
  destruct (rtsp_properties_added (rtsp_header m) ids [] (rtsp_header_section (rtsp_header m)))
    as (s & Hadd & [_ _ Hf Hids]); try done; [by apply rtsp_filled_nil|
    by apply Forall_forall; intros ? _; apply not_elem_of_nil|].
  replace (rtsp_header m <| rtsp_header_section := rtsp_header_section (rtsp_header m) |>)
    with (rtsp_header m) in Hadd by (by destruct (rtsp_header m)).
  rewrite Hadd. split; [done|]. split; [by apply Forall_fmap| |done].
  unfold rtsp_section_fields. cbn. rewrite <- list_fmap_compose.
  etransitivity; [exact Hids|]. rewrite app_nil_r. by rewrite reverse_Permutation.
Qed.

(** The names and values of the header fields, as text. *)
Definition rtsp_pairs (h : rtsp_header_t) : list (cstr * cstr) :=
  skeleton_pairs (skeleton (rtsp_header_section h)).

Lemma parsed_pairs (s s' : apt_header_section_t) :
  snd <$> ring s' = parsed_field <$> (snd <$> ring s) →
  skeleton_pairs (skeleton s') = skeleton_pairs (skeleton s).
Proof.
  unfold skeleton_pairs, skeleton. rewrite <- !list_fmap_compose.
  generalize (ring s) as r. induction (ring s') as [|[l f] r' IH]; intros [|[k g] r] Hr; try done.
  rewrite !fmap_cons in *. injection Hr as -> Hr. rewrite (IH _ Hr). simpl. by rewrite !chars_str_of.
Qed.

Lemma rtsp_header_complete (m m0 : rtsp_message_t) (ids : list nat) (reason : list cstr)
    (new : list (loc * apt_header_field_t)) :
  rtsp_sendable m ids reason → let h := rtsp_properties (rtsp_header m) ids in
  snd <$> new = parsed_field <$> rtsp_section_fields h → NoDup (fst <$> new) →
  rtsp_header m0 = rtsp_header_init junk → rtsp_body m0 = apt_string_reset →
  ∃ m2, rtsp_parser_on_header_complete
      (msg_with_header m0 (mk_section new (replicate RTSP_HEADER_FIELD_COUNT None))) = Ok (true, m2) ∧
    rtsp_start_line m2 = rtsp_start_line m0 ∧ rtsp_pairs (rtsp_header m2) = rtsp_pairs h ∧
    (∀ i, i < RTSP_HEADER_FIELD_COUNT →
       rtsp_header_property_check (rtsp_header m2) i = bool_decide (i ∈ ids)) ∧
    (∀ i, i ∈ ids → rtsp_same junk (rtsp_header m) i (rtsp_header m2)) ∧
    len (rtsp_body m2) = len (rtsp_body m).
Proof.
  intros Hs h Hnew Hnd Hh0 Hb0. destruct (rtsp_properties_spec m ids reason Hs) as [_ Hca].
  unfold rtsp_parser_on_header_complete. set (m1 := msg_with_header _ _).
  destruct (rtsp_fields_read junk (rtsp_header m) (rtsp_header m1) ids (rtsp_section_fields h))
    as (h1 & -> & Hskel & Hcheck & Hsame); try done.
  { subst m1. cbn. by rewrite Hh0. }
  cbn [mbind res_bind]. eexists. split; [done|].
  pose proof (Hcheck RTSP_HEADER_FIELD_CONTENT_LENGTH ltac:(lia)) as Hcl. rewrite Hcl.
  assert (Hpairs : rtsp_pairs h1 = rtsp_pairs h).
  { unfold rtsp_pairs. rewrite Hskel. apply parsed_pairs. exact Hnew. }
  pose proof (rs_length _ _ _ Hs) as Hlen.
  case_bool_decide as Hin; simpl; split_and!; try done.
  - specialize (Hsame _ Hin). simpl in Hsame. rewrite decide_True in Hlen by done. lia.
  - rewrite decide_False in Hlen by done. by rewrite Hb0, Hlen.
Qed.

(** C13: An RTSP message that is sent is received.  The properties of the header
    are added successfully, and the generator writes the message and reports
    completion.  The parser, run on that text followed by anything, reports
    completion, leaves exactly what follows unread, and delivers a message with
    the start-line (but for the later words of a reason phrase), the same header
    fields in the order of their lines, the properties that were added and no
    others, the value of each of them, and the same body.  The value of the
    Transport field is the exception: the protocol, the profile, the delivery and
    the mode are kept; the ports of the client are those of the client, or those of
    the server where it has such; the ports of the server, the source, the
    destination and the lower protocol are not received. *)
Theorem rtsp_message_roundtrip (g : apt_message_generator_t) (a : nat) (m : rtsp_message_t)
  (ids : list nat) (reason : list cstr) (st ps : apt_text_stream_t) (rest : cstr)
  (Hg : g_context g ≠ Some a) (Hs : rtsp_sendable m ids reason)
  (Htb : text_buf st = pos st) (Htl : text_buf st + text_len st = end_ st)
  (Hfit : fits st (length (rtsp_message_text
            (m <| rtsp_header := rtsp_properties (rtsp_header m) ids |>) reason)))
  (Hpwf : stream_wf ps) (Heos : is_eos ps = false)
  (Hpend : end_ ps = text_buf ps + text_len ps) (Hppos : text_buf ps ≤ pos ps) :
  let h := rtsp_properties (rtsp_header m) ids in
  rtsp_properties_add (rtsp_header m) ids = Ok (true, h) ∧
  ∃ g' m' st', rtsp_generator_run g a (m <| rtsp_header := h |>) st =
      Ok (APT_MESSAGE_STATUS_COMPLETE, g', m', st') ∧
    (window ps = text_so_far st' ++ rest →
     ∃ p' ps' m2, rtsp_parser_run junk apt_message_parser_create ps =
         Ok (APT_MESSAGE_STATUS_COMPLETE, p', ps', Some m2) ∧
       window ps' = rest ∧ line_received (rtsp_start_line m) reason (rtsp_start_line m2) ∧
       rtsp_pairs (rtsp_header m2) = rtsp_pairs h ∧
       (∀ i, i < RTSP_HEADER_FIELD_COUNT →
          rtsp_header_property_check (rtsp_header m2) i = bool_decide (i ∈ ids)) ∧
       (∀ i, i ∈ ids → rtsp_same junk (rtsp_header m) i (rtsp_header m2)) ∧
       chars (rtsp_body m2) = chars (rtsp_body m)).
Proof.
  intros h. destruct (rtsp_properties_spec m ids reason Hs) as [Hadd Hca]. fold h in Hadd, Hca.
  pose proof Hs as [Hline _ _ _ _ Hbody _]. pose proof (rtsp_body_bound _ _ _ Hs) as Hbound.
  assert (Hwf : Forall field_wf (rtsp_section_fields h)).
  { eapply Forall_impl; [apply (ca_fields _ _ _ Hca)|apply rtsp_sent_wf]. }
  assert (Hlen : length (chars (rtsp_body m)) = len (rtsp_body m)) by (unfold chars; rewrite length_take; lia).
  split; [done|]. set (m1 := m <| rtsp_header := h |>).
  destruct (rtsp_generated g a m1 reason st Hg Hline Hwf Hbody Htb Htl Hfit)
    as (g' & m' & st' & Hrun & Htext).
  exists g', m', st'. split; [done|]. rewrite Htext. intros Hw. unfold rtsp_message_text in Hw.
  change (rtsp_header m1) with h in Hw. change (rtsp_start_line m1) with (rtsp_start_line m) in Hw.
  change (rtsp_body m1) with (rtsp_body m) in Hw. rewrite <- !app_assoc in Hw.
  destruct (rtsp_line_read _ RTSP_MESSAGE_TYPE_UNKNOWN reason ps _ Hline Hpwf Hw) as (line & sl' & Hl & Hp & Hrec).
  set (k := length _) in Hl. set (m0 := mk_rtsp_message sl' (rtsp_header_init junk) apt_string_reset).
  assert (Hk : k ≤ length (window ps)).
  { subst k. rewrite Hw, app_assoc, (length_app (_ ++ CRLF)). lia. }
  destruct (parser_reads_message (rtsp_parser_vtable junk) apt_message_parser_create ps
    (with_pos ps (pos ps + k)) m0 (rtsp_section_fields h) (chars (rtsp_body m)) rest eq_refl eq_refl)
    as (p' & ps' & m2 & m3 & new & Hnew & Hnd & Hm2 & Hprun & _ & _ & Hrest & Hnil & Hcons); try done.
  - unfold rtsp_parser_vtable, on_start, rtsp_parser_on_start. rewrite Hl. cbn [rtsp_start_line rtsp_message_create].
    by rewrite Hp.
  - rewrite window_length in Hk by done. destruct Hpwf. split; simpl; lia.
  - simpl. lia.
  - rewrite window_with_pos, Hw, app_assoc. apply drop_app_length.
  - lia.
  - constructor.
  - intros new Hnew Hnd.
    destruct (rtsp_header_complete m m0 ids reason new Hs Hnew Hnd) as (m2 & Hm2 & _ & _ & _ & _ & Hl2);
      [done..|]. exists m2. split; [exact Hm2|]. by rewrite Hlen.
  - destruct (rtsp_header_complete m m0 ids reason new Hs Hnew Hnd)
      as (m2' & Hm2' & Hsl & Hpairs & Hcheck & Hsame & Hl2); [done..|].
    assert (Ok (true, m2') = Ok (true, m2)) as [= ->] by (by rewrite <- Hm2', <- Hm2).
    exists p', ps', m3. destruct (chars (rtsp_body m)) as [|c b] eqn:Hc.
    + rewrite (Hnil eq_refl) in *. rewrite Hsl. split_and!; try done.
      unfold chars. by rewrite Hl2, <- Hlen.
    + destruct Hcons as (b' & -> & Hb'); [done|]. cbn -[line_received]. rewrite Hsl. by split_and!.
Qed.

End Messages.

(** ** A concrete request *)

Definition setup_line : rtsp_request_line_t :=
  rtsp_request_line_init <| rl_method_id := RTSP_METHOD_SETUP |>
    <| rl_url := str_of (lit "rtsp://host/media/speechsynthesizer") |>.

(** SETUP, with the port of the client and a body. *)
Definition setup_request : rtsp_message_t :=
  mk_rtsp_message
    (RTSP_MESSAGE_TYPE_REQUEST setup_line)
    (rtsp_header_init 0 <| cseq := 7%Z |>
       <| transport := sample_transport <| server_port_range := rtsp_port_range_init |> |>
       <| content_type := 0 |> <| rtsp_content_length := 3%Z |>)
    (str_of (lit "v=0")).

Definition setup_ids : list nat :=
  [RTSP_HEADER_FIELD_CONTENT_LENGTH; RTSP_HEADER_FIELD_CSEQ; RTSP_HEADER_FIELD_TRANSPORT;
   RTSP_HEADER_FIELD_CONTENT_TYPE].

Definition setup_text : cstr :=
  lit "SETUP rtsp://host/media/speechsynthesizer RTSP/1.0" ++ CRLF ++ lit "CSeq: 7" ++ CRLF ++
  lit "Transport: RTP/AVP;unicast;client_port=4000-4001" ++ CRLF ++
  lit "Content-Type: application/sdp" ++ CRLF ++ lit "Content-Length: 3" ++ CRLF ++ CRLF ++ lit "v=0".

Lemma setup_generated :
  match rtsp_generator_run apt_message_generator_create 0
          (setup_request <| rtsp_header := rtsp_properties (rtsp_header setup_request) setup_ids |>)
          (blank_stream 400) with
  | Ok (_, _, _, st) => text_so_far st
  | Fault => []
  end = setup_text.
Proof. vm_compute. reflexivity. Qed.

Lemma setup_transport : transport_ok (transport (rtsp_header setup_request)).
Proof.
  split; [reflexivity|apply Nat.lt_0_2|apply Nat.lt_0_2|right; by split|by left| | |].
  - split; [vm_compute; lia|not_elem].
  - intros Hm. by destruct Hm.
  - vm_compute. lia.
Qed.

Lemma setup_sendable : rtsp_sendable setup_request setup_ids [].
Proof.
  split.
  - split; [vm_compute; lia|]. split; [split; [vm_compute; lia|not_elem]|]. text_side.
  - reflexivity.
  - reflexivity.
  - apply List.Forall_cons; [split; done|]. apply List.Forall_cons; [split; done|].
    apply List.Forall_cons; [exact setup_transport|]. apply List.Forall_cons; [apply Nat.lt_0_2|constructor].
  - apply (bool_decide_unpack _). vm_compute. exact I.
  - vm_compute. lia.
  - reflexivity.
Qed.

Lemma setup_fits :
  fits (blank_stream 400) (length (rtsp_message_text
    (setup_request <| rtsp_header := rtsp_properties (rtsp_header setup_request) setup_ids |>) [])).
Proof. unfold fits. split; [vm_compute; lia|split; [vm_compute; lia|vm_compute; done]]. Qed.

Lemma rtsp_message_roundtrip_witness :
  let ps := stream_of (setup_text ++ lit "RTSP/1.0") in
  ∃ p' ps' m2, rtsp_parser_run 0 apt_message_parser_create ps =
      Ok (APT_MESSAGE_STATUS_COMPLETE, p', ps', Some m2) ∧
    window ps' = lit "RTSP/1.0" ∧ cseq (rtsp_header m2) = 7%Z ∧
    client_port_range (transport (rtsp_header m2)) = mk_port_range 4000 4001 ∧
    chars (rtsp_body m2) = lit "v=0".
Proof.
  intros ps.
  destruct (rtsp_message_roundtrip 0 apt_message_generator_create 0 setup_request setup_ids []
    (blank_stream 400) ps (lit "RTSP/1.0")) as (_ & g' & m' & st' & Hrun & Hparse).
  - done.
  - apply setup_sendable.
  - reflexivity.
  - reflexivity.
  - exact setup_fits.
  - apply stream_of_wf.
  - reflexivity.
  - reflexivity.
  - apply Nat.le_0_l.
  - pose proof setup_generated as Ht. rewrite Hrun in Ht.
    destruct Hparse as (p' & ps' & m2 & Hp & Hw & _ & _ & _ & Hsame & Hb); [by rewrite Ht|].
    exists p', ps', m2. split; [exact Hp|]. split; [exact Hw|].
    split; [apply (Hsame RTSP_HEADER_FIELD_CSEQ); right; left|].
    split; [|exact Hb]. specialize (Hsame RTSP_HEADER_FIELD_TRANSPORT ltac:(right; right; left)).
    simpl in Hsame. by rewrite Hsame.
Defined.
