(* ===== verification/RtspMessageTheory.v ===== *)
(** * RtspMessageTheory: whatever header an RTSP peer sends is parsed without a
    fault, and a response carries the sequence number of its request. *)
From S2P Require Import Prelude CString StringTable TextStream TextStreamTheory TextValues.
From S2P Require Import HeaderSection TextMessage TextMessageTheory HeaderFields MrcpMessageTheory.
From S2P Require Import MrcpRoundtrip RecordUpdate RtspStartLine RtspLineTheory RtspHeader.
From S2P Require Import RtspHeaderTheory RtspMessage RtspRoundtrip.

(** ** Parsing any header *)

Lemma session_id_total (value s : apt_str_t) :
  len value ≠ 0 → ∃ r, rtsp_session_id_parse value s = Ok r.
Proof.
  intros Hl. unfold rtsp_session_id_parse, apt_string_copy. destruct (buf value) as [b|]; [|by eexists].
  cbn [buf]. rewrite decide_False by done. cbn. by eexists.
Qed.

(** The value of any field is parsed; the section is not touched. *)
Lemma rtsp_value_total (h : rtsp_header_t) (id : nat) (value : apt_str_t) :
  len value ≠ 0 → len value ≤ length (default [] (buf value)) →
  ∃ ok h', rtsp_header_field_value_parse h id value = Ok (ok, h') ∧
    rtsp_header_section h' = rtsp_header_section h.
Proof.
  intros Hne Hl.
  destruct id as [|[|[|[|[|[|id]]]]]]; unfold rtsp_header_field_value_parse; try (by eexists _, _).
  - destruct (transport_parse_total (transport h) value Hl) as [[ok t] ->]. by eexists _, _.
  - destruct (session_id_total value (rtsp_session_id h) Hne) as [[ok s] ->]. by eexists _, _.
Qed.

(** Strings that point at as many characters as they say. *)
Definition value_backed (v : apt_str_t) : Prop := len v ≤ length (default [] (buf v)).

Lemma identify_total (h : rtsp_header_t) (f : apt_header_field_t) :
  value_backed (field_value f) →
  ∃ h' id, field_identify h f = Ok (h', set_field_id f (Z.of_nat id)) ∧
    rtsp_header_section h' = rtsp_header_section h.
Proof.
  intros Hv. unfold field_identify. unfold apt_string_is_empty at 1. case_bool_decide as Hz.
  - by eexists _, _.
  - match goal with |- context [rtsp_header_field_value_parse h ?id ?v] =>
      destruct (rtsp_value_total h id v) as (ok & h' & -> & Hs) end; [|done|by eexists _, _].
    intros Hl. by apply Hz.
Qed.

(** Parsing the header of an RTSP message never faults and always ends:
    whatever names and values the peer sent (a Transport with any number of
    attributes, an unknown field, an empty value), every field is visited, and
    the fields keep their names, their values and their order. *)
Theorem rtsp_header_parse_total (h : rtsp_header_t)
  (Hlocs : NoDup (fst <$> ring (rtsp_header_section h)))
  (Hvalues : Forall (λ p, value_backed (field_value p.2)) (ring (rtsp_header_section h))) :
  ∃ h', rtsp_header_fields_parse h = Ok h' ∧ rtsp_pairs h' = rtsp_pairs h.
Proof.
  unfold rtsp_header_fields_parse, rtsp_pairs. set (s0 := rtsp_header_section h) in *.
  assert (Hsk : Forall (λ p, value_backed p.2.2) (skeleton s0)) by (by apply Forall_fmap).
  enough (Hloop : ∀ ls h1, (∀ l, l ∈ ls → l ∈ fst <$> skeleton s0) →
    skeleton (rtsp_header_section h1) = skeleton s0 →
    ∃ h', rtsp_parse_loop h1 ls = Ok h' ∧ skeleton (rtsp_header_section h') = skeleton s0).
  { destruct (Hloop (fst <$> ring s0) h) as (h' & Hp & Hs); [by rewrite skeleton_locs|done|].
    exists h'. by rewrite Hs. }
  rewrite <- skeleton_locs in Hlocs. clearbody s0. clear -Hlocs Hsk.
  induction ls as [|l ls IH]; intros h1 Hin Hs; [by exists h1|]. cbn [rtsp_parse_loop].
  destruct (proj1 (list_elem_of_fmap _ _ _) (Hin l ltac:(left))) as ([l' nv] & -> & Hel).
  assert (Hnd : NoDup (fst <$> ring (rtsp_header_section h1))) by (by rewrite <- skeleton_locs, Hs).
  assert (Hback : value_backed nv.2) by (by rewrite Forall_forall in Hsk; specialize (Hsk _ Hel)).
  rewrite <- Hs in Hel. unfold rtsp_parse_step.
  destruct (skeleton_field _ _ _ Hnd Hel) as (f & Hf & Hring & Hn & Hv). cbn [fst] in Hf |- *. rewrite Hf.
  cbn [deref mbind res_bind].
  destruct (identify_total h1 f) as (h2 & id & -> & Hsec); [by rewrite Hv|].
  cbn [mbind res_bind]. apply IH; [intros k Hk; apply Hin; by right|]. rewrite Hsec. simpl.
  destruct (field_set_check (field_update (rtsp_header_section h1) l' (λ _, set_field_id f (Z.of_nat id)))
    l' (set_field_id f (Z.of_nat id))) as (Hr & _); [simpl; lia|].
  rewrite <- Hs. etransitivity; [unfold skeleton at 1; rewrite Hr; reflexivity|].
  by eapply skeleton_update.
Qed.

Lemma rtsp_header_parse_total_witness :
  let f n v := mk_field (str_of (lit n)) (str_of (lit v)) UNKNOWN_HEADER_FIELD_ID in
  let h := rtsp_header_init 0 <| rtsp_header_section :=
    mk_section [(1, f "transport"%string "RTP/AVP;;x;mode"%string); (2, f "Foo"%string ""%string)]
      (replicate RTSP_HEADER_FIELD_COUNT None) |> in
  ∃ h', rtsp_header_fields_parse h = Ok h' ∧ rtsp_pairs h' = rtsp_pairs h.
Proof.
  intros f h. apply (rtsp_header_parse_total h).
  - apply (bool_decide_unpack _). vm_compute. exact I.
  - repeat (apply List.Forall_cons; [vm_compute; lia|]). constructor.
Defined.

(** ** Responses *)

(** A response carries the sequence number of its request.  For a request
    with a CSeq, any status code and any reason phrase of the table, the
    response has the version of the request, that code and that phrase; its
    header has the CSeq property and no other, with the value of the request,
    and its only line is the one of the CSeq. *)
Theorem response_correlates `{AprFormat} (junk : nat) (request : rtsp_message_t)
  (r : rtsp_request_line_t) (code : Z) (reason : nat) (phrase : apt_str_t) (v : rtsp_version_e)
  (Hr : rtsp_start_line request = RTSP_MESSAGE_TYPE_REQUEST r)
  (Hp : rtsp_reason_phrase_get reason = Some phrase)
  (Hc : rtsp_header_property_check (rtsp_header request) RTSP_HEADER_FIELD_CSEQ = true)
  (Hseq : (0 ≤ cseq (rtsp_header request) < 2 ^ 63)%Z) :
  ∃ m s, rtsp_response_create junk request code reason v = Ok m ∧
    rtsp_start_line m = RTSP_MESSAGE_TYPE_RESPONSE s ∧ st_version s = rl_version r ∧
    st_status_code s = code ∧ chars (st_reason s) = chars phrase ∧
    cseq (rtsp_header m) = cseq (rtsp_header request) ∧
    rtsp_pairs (rtsp_header m) = [(lit "CSeq", dec_u (cseq (rtsp_header request)))] ∧
    ∀ i, i < RTSP_HEADER_FIELD_COUNT →
      rtsp_header_property_check (rtsp_header m) i = bool_decide (i = RTSP_HEADER_FIELD_CSEQ).
Proof.
  unfold rtsp_response_create. rewrite Hr, Hp, Hc. cbv zeta.
  set (h := rtsp_header_init junk <| cseq := cseq (rtsp_header request) |>).
  destruct (rtsp_property_added h [] (rtsp_header_section h) RTSP_HEADER_FIELD_CSEQ)
    as (s' & Hadd & [_ Hcheck Hf Hids]); [by apply rtsp_filled_nil|done|apply not_elem_of_nil|].
  replace (h <| rtsp_header_section := rtsp_header_section h |>) with h in Hadd by done.
  change (rtsp_header (rtsp_message_create junk ?x)) with (rtsp_header_init junk). fold h. rewrite Hadd.
  cbn [mbind res_bind].
  assert (Hpairs : skeleton_pairs (skeleton s') = [(lit "CSeq", dec_u (cseq (rtsp_header request)))]).
  { apply Permutation_singleton_r in Hids. destruct (ring s') as [|[l f] [|]] eqn:Hring; try done.
    apply Forall_cons_1 in Hf as [[_ Hok (name & Hget & Hn) _ _ Ht] _]. injection Hids as Hid.
    unfold skeleton_pairs, skeleton. rewrite Hring. cbn [fmap list_fmap snd fst] in *.
    rewrite Hid in Hget, Ht. injection Hget as <-. by rewrite Hn, Ht. }
  assert (Hprops : ∀ i, i < RTSP_HEADER_FIELD_COUNT →
    apt_header_section_field_check s' (Z.of_nat i) = bool_decide (i = RTSP_HEADER_FIELD_CSEQ)).
  { intros i Hi. rewrite Hcheck by done. apply bool_decide_ext. apply list_elem_of_singleton. }
  destruct (rtsp_header_property_check (rtsp_header request) RTSP_HEADER_FIELD_TRANSPORT);
    [destruct (decide (len (mode (transport (rtsp_header request))) = 0))|];
    (eexists _, _; split; [reflexivity|]; split; [reflexivity|]; split_and!;
      [done|done|apply chars_copy|done|exact Hpairs|exact Hprops]).
Qed.

Lemma response_correlates_witness :
  let request := setup_request <| rtsp_header := rtsp_properties (rtsp_header setup_request) setup_ids |> in
  ∃ m s, rtsp_response_create 0 request 200 RTSP_REASON_PHRASE_OK RTSP_VERSION_UNKNOWN = Ok m ∧
    rtsp_start_line m = RTSP_MESSAGE_TYPE_RESPONSE s ∧ st_version s = RTSP_VERSION_1 ∧
    st_status_code s = 200%Z ∧ chars (st_reason s) = lit "OK" ∧
    cseq (rtsp_header m) = cseq (rtsp_header request) ∧
    rtsp_pairs (rtsp_header m) = [(lit "CSeq", dec_u (cseq (rtsp_header request)))] ∧
    ∀ i, i < RTSP_HEADER_FIELD_COUNT →
      rtsp_header_property_check (rtsp_header m) i = bool_decide (i = RTSP_HEADER_FIELD_CSEQ).
Proof.
  intros request.
  apply (response_correlates 0 request setup_line 200 RTSP_REASON_PHRASE_OK (str_of (lit "OK"))
    RTSP_VERSION_UNKNOWN); try reflexivity.
  vm_compute. split; [discriminate|reflexivity].
Defined.
