(* ===== verification/StateMachine.v ===== *)
(** * StateMachine: what the server-side state machines of the MRCP resources
    share ([mrcp_state_machine.h], [apt_obj_list.c]).

    A state machine is updated with the requests of the client and with the
    responses and events of the engine; it hands messages on through its
    dispatcher.  An update is a function of the state that may fault and
    produces the calls of the dispatchers in order.  Both dispatchers of the
    server ([state_machine_on_message_dispatch], [state_machine_on_deactivate]
    of [mrcp_server_session.c]) return TRUE. *)
From S2P Require Import Prelude CString StringTable TextStream StartLine HeaderSection.
From S2P Require Import TextMessage GenericHeader MrcpMessage.

(** ** Object lists: the queues of pending requests *)

Section ObjList.
  Context {A : Type}.

Definition apt_list_create : list A := [].
Definition apt_list_push_back (l : list A) (obj : A) : list A := l ++ [obj].
Definition apt_list_pop_front (l : list A) : option A * list A :=
  match l with
  | [] => (None, [])
  | x :: l => (Some x, l)
  end.
Definition apt_list_head (l : list A) : option A := head l.
Definition apt_list_is_empty (l : list A) : bool := bool_decide (l = []).

End ObjList.

(** ** Updates *)

(** The calls of the dispatchers. *)
Inductive action {R : Type} :=
  | Dispatch (m : @mrcp_message_t R)
  | Deactivated.
Arguments action : clear implicits.

Definition sm (R S A : Type) : Type := S → res (A * S * list (action R)).

#[export] Instance sm_ret (R S : Type) : MRet (sm R S) := λ A a s, Ok (a, s, []).
#[export] Instance sm_bind (R S : Type) : MBind (sm R S) := λ A B f m s,
  '(a, s, o) ← m s; '(b, s, o') ← f a s; Ok (b, s, o ++ o').

Section Ops.
  Context {R S : Type}.

Definition read {A} (f : S → A) : sm R S A := λ s, Ok (f s, s, []).
Definition modify (f : S → S) : sm R S unit := λ s, Ok (tt, f s, []).
Definition lift {A} (x : res A) : sm R S A := λ s, a ← x; Ok (a, s, []).
Definition on_dispatch (m : mrcp_message_t) : sm R S bool := λ s, Ok (true, s, [Dispatch m]).
Definition on_deactivate : sm R S bool := λ s, Ok (true, s, [Deactivated]).

End Ops.

(** The virtual functions of a state machine and its flag [active]. *)
Class StateMachine (R S : Type) := {
  set_active : bool → S → S;
  update : @mrcp_message_t R → sm R S bool;
  deactivate : sm R S bool
}.

Definition mrcp_state_machine_update {R S} `{StateMachine R S} (m : mrcp_message_t)
    : sm R S bool := update m.
Definition mrcp_state_machine_deactivate {R S} `{StateMachine R S} : sm R S bool :=
  modify (set_active false) ≫= λ _, deactivate.

(** ** Changes of messages the handlers share *)

(** Resource headers have a completion cause. *)
Class CompletionCause (R : Type) := set_completion_cause : R → nat → R.

Section Messages.
  Context `{AprFormat} {R : Type} (fresh : apt_pair_t) (uninit : nat).

Definition set_status (m : @mrcp_message_t R) (code : Z) : mrcp_message_t :=
  with_start_line m (set_status_code (start_line m) code).
Definition set_message_state (m : @mrcp_message_t R) (s : mrcp_request_state_e) : mrcp_message_t :=
  with_start_line m (set_request_state (start_line m) s).

(** The immediate response of a handler that refuses a request. *)
Definition not_valid_response (m : @mrcp_message_t R) : mrcp_message_t :=
  set_status (mrcp_response_create fresh uninit (Some m)) MRCP_STATUS_CODE_METHOD_NOT_VALID.

(** Unless the message has a completion cause, prepare the resource header, set
    its cause and add the property [id]. *)
Definition completion_cause_default `{CompletionCause R} (id cause : nat) (m : @mrcp_message_t R)
    : res mrcp_message_t :=
  if mrcp_resource_header_property_check m id then Ok m
  else
    let m := mrcp_resource_header_prepare m in
    d ← deref (mrcp_resource_header_get m);
    let m := with_resource_accessor m
               (mk_accessor (Some (set_completion_cause d cause))
                  (acc_vtable (resource_header_accessor (header m)))) in
    '(_, m) ← mrcp_resource_header_property_add m id;
    Ok m.

(** [active_request_id_list_append] on the generic header of a message; a
    header that is not there is a NULL pointer. *)
Definition message_id_append (m : @mrcp_message_t R) (id : Z) : res mrcp_message_t :=
  g ← deref (mrcp_generic_header_get m);
  Ok (generic_header_update m (λ _, (active_request_id_list_append g id).2)).

(** The internal STOP request that deactivates a machine with the request
    [source] in progress; [stop] is the number of the STOP method. *)
Definition deactivate_request (stop : nat) (source : @mrcp_message_t R) : @mrcp_message_t R :=
  let m := mrcp_request_create fresh uninit (resource source) (version (start_line source)) stop in
  let m := with_channel_id m (channel_id source) in
  let m := with_start_line m (set_request_id (start_line m)
             (u32 (request_id (start_line source) + 1))) in
  let m := with_start_line m (set_method_name (start_line m) (str_of (lit "DEACTIVATE"))) in
  with_header m (header source).

(** The list of a selective STOP request: the generic header of the request
    when it has the property with at least one identifier. *)
Definition selective_ids (m : @mrcp_message_t R) : option mrcp_generic_header_t :=
  g ← mrcp_generic_header_get m;
  if mrcp_generic_header_property_check m
       (generic_header_num GENERIC_HEADER_ACTIVE_REQUEST_ID_LIST) then
    if decide (active_request_id_list g = []) then None else Some g
  else None.

(** Whether a STOP request is meant for the request [id]. *)
Definition stop_selects (ids : option mrcp_generic_header_t) (id : Z) : bool :=
  match ids with
  | None => true
  | Some g => active_request_id_list_find g id
  end.

(** The loop over the queue in [recog_pending_requests_remove] and
    [synth_pending_requests_remove]: the requests that stay, and the response
    with the identifiers of the removed ones. *)
Fixpoint pending_remove_loop (ids : option mrcp_generic_header_t)
    (queue : list (@mrcp_message_t R)) (response : mrcp_message_t)
    : res (list mrcp_message_t * mrcp_message_t) :=
  match queue with
  | [] => Ok ([], response)
  | m :: queue =>
      if stop_selects ids (request_id (start_line m)) then
        response ← message_id_append response (request_id (start_line m));
        pending_remove_loop ids queue response
      else
        '(queue, response) ← pending_remove_loop ids queue response;
        Ok (m :: queue, response)
  end.

Definition pending_requests_remove (queue : list (@mrcp_message_t R))
    (request response : mrcp_message_t) : res (list mrcp_message_t * mrcp_message_t) :=
  let response := mrcp_generic_header_prepare response in
  '(queue, response) ← pending_remove_loop (selective_ids request) queue response;
  g ← deref (mrcp_generic_header_get response);
  if decide (active_request_id_list g = []) then Ok (queue, response)
  else
    '(_, response) ← mrcp_generic_header_property_add response
                       (generic_header_num GENERIC_HEADER_ACTIVE_REQUEST_ID_LIST);
    Ok (queue, response).

End Messages.
