(* ===== verification/StateMachineTheory.v ===== *)
(** * StateMachineTheory: runs of state machines and the headers of the
    messages they handle.

    The interface [SafeMachine] says what a state machine promises: an
    invariant, kept by every update with an acceptable message and by
    deactivation, under which no update faults.  [run_safe] is proved against
    it; the machines of the resources discharge it. *)
From S2P Require Import Prelude CString StringTable TextStream StartLine HeaderSection.
From S2P Require Import TextMessage GenericHeader MrcpMessage StateMachine.

(** ** Runs *)

(** What happens to a state machine. *)
Inductive input {R : Type} :=
  | Update (m : @mrcp_message_t R)
  | Deactivate.
Arguments input : clear implicits.

Section Runs.
  Context {R S : Type} `{StateMachine R S}.

Definition handle (i : input R) : sm R S bool :=
  match i with
  | Update m => mrcp_state_machine_update m
  | Deactivate => mrcp_state_machine_deactivate
  end.

Fixpoint run (ins : list (input R)) : sm R S (list bool) :=
  match ins with
  | [] => mret []
  | i :: ins => handle i ≫= λ b, run ins ≫= λ bs, mret (b :: bs)
  end.

End Runs.

(** The promise of a state machine. *)
Class SafeMachine (R S : Type) `{StateMachine R S} := {
  machine_inv : S → Prop;
  accepts : S → input R → Prop;
  handle_safe s i : machine_inv s → accepts s i →
    ∃ b s' o, handle i s = Ok (b, s', o) ∧ machine_inv s'
}.

Section Safe.
  Context {R S : Type} `{SafeMachine R S}.

(** The inputs of a run are acceptable in the states they meet. *)
Fixpoint accepted (s : S) (ins : list (input R)) : Prop :=
  match ins with
  | [] => True
  | i :: ins => accepts s i ∧ ∀ b s' o, handle i s = Ok (b, s', o) → accepted s' ins
  end.

Lemma run_safe (s : S) (ins : list (input R)) :
  machine_inv s → accepted s ins →
  ∃ bs s' o, run ins s = Ok (bs, s', o) ∧ machine_inv s' ∧ length bs = length ins.
Proof.
  revert s. induction ins as [|i ins IH]; intros s Hinv Hacc; [by exists [], s, []|].
  destruct Hacc as [Hi His]. destruct (handle_safe s i Hinv Hi) as (b & s1 & o1 & E1 & H1).
  destruct (IH s1 H1 (His _ _ _ E1)) as (bs & s2 & o2 & E2 & H2 & Hlen).
  exists (b :: bs), s2, (o1 ++ o2 ++ []). split; [|by simpl; rewrite Hlen].
  cbn [run]. unfold mbind, sm_bind. rewrite E1. cbn [mbind res_bind]. rewrite E2. done.
Qed.

End Safe.

(** ** Headers that are ready for the handlers *)

Section Headers.
  Context `{AprFormat} {R : Type} (fresh : apt_pair_t) (uninit : nat).

Record header_ok (h : @mrcp_message_header_t R) : Prop := {
  hk_section : section_wf (header_section h);
  hk_ids : Forall (λ p, id_ok p.2) (ring (header_section h));
  hk_gdata : is_Some (acc_data (generic_header_accessor h));
  hk_rdata : is_Some (acc_data (resource_header_accessor h))
}.

(** Messages of a resource, with their header data allocated. *)
Record message_ok (m : @mrcp_message_t R) : Prop := {
  mk_res : ∃ r, resource m = Some r ∧
    ∀ v, (Z.of_nat (field_count (get_resource_header_vtable r v)) < 2 ^ 32)%Z;
  mk_hdr : header_ok (header m)
}.

Lemma value_duplicate_data {D} (acc src : mrcp_header_accessor_t D) (id : nat) (v : apt_str_t) :
  is_Some (acc_data acc) →
  is_Some (acc_data (mrcp_header_field_value_duplicate acc src id v).2).
Proof.
  intros Hd. unfold mrcp_header_field_value_duplicate.
  destruct (acc_vtable acc); [|done]. case_decide; [done|].
  destruct (acc_data acc) as [d|] eqn:E; [|done].
  destruct (acc_data src); [|simpl; by rewrite E].
  destruct (duplicate_field _ _ _ _ _). by eexists.
Qed.

Lemma accessor_duplicate_ok (h src : @mrcp_message_header_t R) (f : apt_header_field_t) :
  header_ok h → header_ok (mrcp_header_accessor_value_duplicate h src f).
Proof.
  intros [Hs Hi Hg Hr]. unfold mrcp_header_accessor_value_duplicate.
  case_decide; split; try done; by apply value_duplicate_data.
Qed.

Lemma section_append_ok (h : @mrcp_message_header_t R) (f : apt_header_field_t) :
  header_ok h → id_ok f → header_ok (section_append h f).
Proof.
  intros [Hs Hi Hg Hr] Hf. split; try done; simpl.
  - apply section_wf_add; [done..|apply fresh_loc_spec].
  - destruct (ring_add (header_section h) (fresh_loc (header_section h)) f) as [->| ->]; [done|].
    apply Forall_app. split; [done|]. by apply Forall_singleton.
Qed.

Lemma field_copy_id (f : apt_header_field_t) : id_ok f → id_ok (apt_header_field_copy f).
Proof. done. Qed.

(** The address of an identifier is the address of a field. *)
Lemma field_get_at (h : @mrcp_message_header_t R) (id : Z) (l : loc) :
  header_ok h → id_ok (mk_field apt_string_reset apt_string_reset id) →
  apt_header_section_field_get (header_section h) id = Some l →
  ∃ f, field_at (header_section h) l = Some f ∧ id_ok f ∧ field_id f = id.
Proof.
  intros [Hs Hi _ _] Hid Hget. unfold apt_header_section_field_get in Hget.
  case_decide; [|done].
  destruct (arr (header_section h) !! Z.to_nat id) as [[l'|]|] eqn:E; simplify_eq/=.
  destruct (wf_arr _ Hs _ _ E) as (f & Hf & Hfid). exists f.
  rewrite field_at_Some by done. split; [done|]. split.
  - rewrite Forall_forall in Hi. by apply (Hi (l, f)).
  - destruct Hid as [Hid _]. simpl in Hid. lia.
Qed.

Lemma fold_fields_ok (step : mrcp_message_header_t → apt_header_field_t → res mrcp_message_header_t)
    (src h : @mrcp_message_header_t R) :
  (∀ h f, header_ok h → id_ok f → ∃ h', step h f = Ok h' ∧ header_ok h') →
  header_ok h → header_ok src →
  ∃ h', fold_fields step h (section_fields src) = Ok h' ∧ header_ok h'.
Proof.
  intros Hstep Hh [_ Hsrc _ _]. apply Forall_fmap in Hsrc.
  change (Forall id_ok (section_fields src)) in Hsrc. revert h Hh.
  induction Hsrc as [|f fs Hf Hfs IH]; intros h Hh; [by exists h|]. cbn [fold_fields].
  destruct (Hstep h f Hh Hf) as (h1 & -> & H1). cbn [mbind res_bind]. by apply IH.
Qed.

Lemma fields_set_ok (h src : @mrcp_message_header_t R) :
  header_ok h → header_ok src → ∃ h', mrcp_header_fields_set h src = Ok h' ∧ header_ok h'.
Proof.
  apply fold_fields_ok. clear h. intros h f Hh Hf. unfold fields_set_step.
  destruct (apt_header_section_field_get (header_section h) (field_id f)) as [l|] eqn:E.
  - destruct (field_get_at h _ l Hh Hf E) as (g & Hat & Hg & Hgid). rewrite Hat.
    cbn [deref mbind res_bind]. eexists. split; [done|]. apply accessor_duplicate_ok.
    destruct Hh as [Hs Hi Hgd Hrd]. split; try done; simpl.
    + apply section_wf_update; [done|]. intros g' Hin. simpl.
      rewrite field_at_Some in Hat by done. by rewrite (ring_field_unique _ _ _ _ Hs Hin Hat).
    + apply Forall_fmap. eapply Forall_impl; [exact Hi|]. intros [l' g'] Hg'. simpl. by case_decide.
  - eexists. split; [done|]. by apply accessor_duplicate_ok, section_append_ok.
Qed.

Lemma fields_get_ok (h src mask : @mrcp_message_header_t R) :
  header_ok h → header_ok src → header_ok mask →
  ∃ h', mrcp_header_fields_get h src mask = Ok h' ∧ header_ok h'.
Proof.
  intros Hh Hsrc. apply fold_fields_ok; [|done]. clear h Hh. intros h f Hh Hf.
  unfold fields_get_step.
  destruct (apt_header_section_field_get (header_section h) (field_id f)) as [l|]; [by exists h|].
  destruct (apt_header_section_field_get (header_section src) (field_id f)) as [l|] eqn:E.
  - destruct (field_get_at src _ l Hsrc Hf E) as (g & -> & Hg & _). cbn [deref mbind res_bind].
    eexists. split; [done|]. apply section_append_ok; [by apply accessor_duplicate_ok|done].
  - eexists. split; [done|]. by apply section_append_ok.
Qed.

Lemma fields_inherit_ok (h src : @mrcp_message_header_t R) :
  header_ok h → header_ok src → header_ok (mrcp_header_fields_inherit h src).
Proof.
  intros Hh [_ Hsrc _ _]. unfold mrcp_header_fields_inherit. apply Forall_fmap in Hsrc.
  change (Forall id_ok (section_fields src)) in Hsrc. revert h Hh.
  induction Hsrc as [|f fs Hf Hfs IH]; intros h Hh; [done|]. simpl. apply IH.
  unfold fields_inherit_step. destruct (apt_header_section_field_get _ _); [done|].
  apply section_append_ok; [by apply accessor_duplicate_ok|done].
Qed.

(** ** Messages that are ready for the handlers *)

Lemma property_add_ok (m : @mrcp_message_t R) (f : option apt_header_field_t) (id : Z) :
  message_ok m → (0 ≤ id < 2 ^ 64)%Z → message_ok (property_add m f id).2.
Proof.
  intros [Hr Hh] Hid. unfold property_add. destruct f as [f|]; [|done].
  destruct (apt_header_section_field_add _ _ _) as [ok s] eqn:E. split; [done|]. simpl.
  pose proof (section_append_ok (header m) (set_field_id f id) Hh Hid) as Ha.
  unfold section_append in Ha. by rewrite E in Ha.
Qed.

Lemma field_value_generate_ok {D} (acc : mrcp_header_accessor_t D) (id : nat) (e : bool) :
  is_Some (acc_data acc) → ∃ f, mrcp_header_field_value_generate acc id e = Ok f.
Proof.
  intros [d Hd]. unfold mrcp_header_field_value_generate. destruct (acc_vtable acc); [|by eexists].
  destruct e; [by eexists|]. rewrite Hd. cbn [deref mbind res_bind].
  destruct (generate_field _ _ _ _). by eexists.
Qed.

Lemma property_add_line (m : @mrcp_message_t R) (f : option apt_header_field_t) (id : Z) :
  start_line (property_add m f id).2 = start_line m.
Proof.
  unfold property_add. destruct f; [|done]. by destruct (apt_header_section_field_add _ _ _).
Qed.

Lemma generic_property_add_ok (m : @mrcp_message_t R) (id : nat) :
  message_ok m → (Z.of_nat id < 2 ^ 64)%Z →
  ∃ b m', mrcp_generic_header_property_add m id = Ok (b, m') ∧ message_ok m' ∧
    start_line m' = start_line m.
Proof.
  intros Hm Hid. unfold mrcp_generic_header_property_add.
  destruct (field_value_generate_ok (generic_header_accessor (header m)) id false) as [f ->];
    [apply Hm|].
  exists (property_add m f (Z.of_nat id)).1, (property_add m f (Z.of_nat id)).2.
  split; [cbn [mbind res_bind]; by destruct (property_add _ _ _)|]. split; [|apply property_add_line].
  apply property_add_ok; [done|lia].
Qed.

Lemma resource_property_add_ok (m : @mrcp_message_t R) (id : nat) :
  message_ok m → (Z.of_nat (id + GENERIC_HEADER_COUNT) < 2 ^ 64)%Z →
  ∃ b m', mrcp_resource_header_property_add m id = Ok (b, m') ∧ message_ok m' ∧
    start_line m' = start_line m.
Proof.
  intros Hm Hid. unfold mrcp_resource_header_property_add.
  destruct (field_value_generate_ok (resource_header_accessor (header m)) id false) as [f ->];
    [apply Hm|].
  set (i := Z.of_nat (id + GENERIC_HEADER_COUNT)).
  exists (property_add m f i).1, (property_add m f i).2.
  split; [cbn [mbind res_bind]; by destruct (property_add _ _ _)|]. split; [|apply property_add_line].
  apply property_add_ok; [done|lia].
Qed.

Lemma allocate_data {D} (acc : mrcp_header_accessor_t D) :
  is_Some (acc_data acc) → mrcp_header_allocate acc = acc.
Proof. unfold mrcp_header_allocate. by intros [d ->]. Qed.

Lemma generic_prepare_id (m : @mrcp_message_t R) :
  message_ok m → mrcp_generic_header_prepare m = m.
Proof.
  intros [_ [_ _ Hg _]]. unfold mrcp_generic_header_prepare. rewrite allocate_data by done.
  by destruct m as [? ? [] ? ?].
Qed.

Lemma resource_prepare_id (m : @mrcp_message_t R) :
  message_ok m → mrcp_resource_header_prepare m = m.
Proof.
  intros [_ [_ _ _ Hr]]. unfold mrcp_resource_header_prepare. rewrite allocate_data by done.
  by destruct m as [? ? [] ? ?].
Qed.

Lemma completion_cause_ok `{CompletionCause R} (id cause : nat) (m : @mrcp_message_t R) :
  message_ok m → (Z.of_nat (id + GENERIC_HEADER_COUNT) < 2 ^ 64)%Z →
  ∃ m', completion_cause_default id cause m = Ok m' ∧ message_ok m' ∧ start_line m' = start_line m.
Proof.
  intros Hm Hid. unfold completion_cause_default.
  destruct (mrcp_resource_header_property_check m id); [by exists m|].
  rewrite resource_prepare_id by done. pose proof Hm as [Hres [Hs Hi Hg [d Hd]]].
  unfold mrcp_resource_header_get. rewrite Hd. cbn [deref mbind res_bind].
  match goal with |- context [mrcp_resource_header_property_add ?x id] =>
    assert (message_ok x) as Hx by (split; [done|]; split; try done; by eexists);
    destruct (resource_property_add_ok x id Hx Hid) as (b & m' & -> & Hm' & Hl) end.
  exists m'. by split_and!.
Qed.

Lemma id_append_ok (m : @mrcp_message_t R) (id : Z) :
  message_ok m → ∃ m', message_id_append m id = Ok m' ∧ message_ok m' ∧ start_line m' = start_line m.
Proof.
  intros [Hr [Hs Hi [g Hg] Hd]]. unfold message_id_append, mrcp_generic_header_get. rewrite Hg.
  cbn [deref mbind res_bind]. eexists. split; [done|]. split; [|done].
  split; [done|]. split; try done. simpl. rewrite Hg. by eexists.
Qed.

(** What the removal of pending requests leaves in the queue. *)
Lemma pending_remove_loop_ok (ids : option mrcp_generic_header_t)
    (queue : list (@mrcp_message_t R)) (response : mrcp_message_t) :
  message_ok response →
  ∃ response', pending_remove_loop ids queue response =
      Ok (filter (λ m, stop_selects ids (request_id (start_line m)) = false) queue, response') ∧
    message_ok response' ∧ start_line response' = start_line response.
Proof.
  revert response. induction queue as [|m queue IH]; intros response Hr; [by exists response|].
  cbn [pending_remove_loop]. destruct (stop_selects ids _) eqn:E.
  - destruct (id_append_ok response (request_id (start_line m)) Hr) as (r1 & -> & H1 & Hl1).
    cbn [mbind res_bind]. rewrite filter_cons_False by (by rewrite E).
    destruct (IH r1 H1) as (r2 & -> & H2 & Hl2). exists r2. by rewrite Hl2.
  - destruct (IH response Hr) as (r1 & -> & H1 & Hl1). cbn [mbind res_bind].
    rewrite filter_cons_True by done. by exists r1.
Qed.

Lemma pending_requests_remove_ok (queue : list (@mrcp_message_t R)) (request response : mrcp_message_t) :
  message_ok response →
  ∃ response', pending_requests_remove queue request response =
      Ok (filter (λ m, stop_selects (selective_ids request) (request_id (start_line m)) = false) queue,
          response') ∧
    message_ok response' ∧ start_line response' = start_line response.
Proof.
  intros Hr. unfold pending_requests_remove. rewrite generic_prepare_id by done.
  destruct (pending_remove_loop_ok (selective_ids request) queue response Hr) as (r1 & -> & H1 & Hl).
  cbn [mbind res_bind]. pose proof H1 as [_ [_ _ [g Hg] _]].
  unfold mrcp_generic_header_get. rewrite Hg. cbn [deref mbind res_bind].
  case_decide; [by exists r1|].
  destruct (generic_property_add_ok r1 (generic_header_num GENERIC_HEADER_ACTIVE_REQUEST_ID_LIST) H1)
    as (b & r2 & -> & H2 & Hl2); [done|]. exists r2. by rewrite Hl2.
Qed.

Lemma data_alloc_ok (h : @mrcp_message_header_t R) (rvt : mrcp_header_vtable_t R) (v : mrcp_version_e) :
  (Z.of_nat (field_count rvt) < 2 ^ 32)%Z → header_section h = apt_header_section_init →
  header_ok (mrcp_message_header_data_alloc h (mrcp_generic_header_vtable_get fresh v) rvt).
Proof.
  intros Hr Hsec. unfold mrcp_message_header_data_alloc. rewrite Hsec.
  split; cbn [header_section generic_header_accessor resource_header_accessor].
  - apply arr_alloc_wf. unfold UNKNOWN_HEADER_FIELD_ID.
    change (field_count (mrcp_generic_header_vtable_get fresh v)) with 16. lia.
  - unfold apt_header_section_array_alloc. case_decide; apply List.Forall_nil.
  - by eexists.
  - by eexists.
Qed.

Lemma set_by_id_ok (m : @mrcp_message_t R) (r : @mrcp_resource_t R) :
  (∀ v, Z.of_nat (field_count (get_resource_header_vtable r v)) < 2 ^ 32)%Z →
  header_section (header m) = apt_header_section_init →
  message_ok (mrcp_message_resource_set_by_id fresh m (Some r)).2 ∧
  request_id (start_line (mrcp_message_resource_set_by_id fresh m (Some r)).2) =
    request_id (start_line m) ∧
  method_id (start_line (mrcp_message_resource_set_by_id fresh m (Some r)).2) =
    method_id (start_line m) ∧
  message_type (start_line (mrcp_message_resource_set_by_id fresh m (Some r)).2) =
    message_type (start_line m).
Proof.
  intros Hr Hsec. unfold mrcp_message_resource_set_by_id. simpl.
  pose proof (data_alloc_ok (header m) _ (version (start_line m)) (Hr (version (start_line m))) Hsec).
  destruct (message_type (start_line m)) eqn:Ht;
    try (destruct (apt_string_table_str_get _ _ _)); simpl; rewrite ?Ht; split_and!; try done;
    (split; [by exists r|done]).
Qed.

Lemma response_create_ok (m : @mrcp_message_t R) :
  message_ok m →
  let r := mrcp_response_create fresh uninit (Some m) in
  message_ok r ∧ request_id (start_line r) = request_id (start_line m) ∧
  method_id (start_line r) = method_id (start_line m) ∧
  message_type (start_line r) = MRCP_MESSAGE_TYPE_RESPONSE.
Proof.
  intros [(r & Hr & Hc) _]. unfold mrcp_response_create. rewrite Hr.
  match goal with |- context [mrcp_message_resource_set_by_id fresh ?x (Some r)] =>
    exact (set_by_id_ok x r Hc eq_refl) end.
Qed.

Lemma deactivate_request_ok (stop : nat) (source : @mrcp_message_t R) :
  message_ok source → message_ok (deactivate_request fresh uninit stop source).
Proof.
  intros [(r & Hr & Hc) Hh]. unfold deactivate_request, mrcp_request_create. rewrite Hr.
  match goal with |- context [mrcp_message_resource_set_by_id fresh ?x (Some r)] =>
    destruct (set_by_id_ok x r Hc eq_refl) as ([Hres _] & _) end.
  by split.
Qed.

Lemma with_line_ok (m : @mrcp_message_t R) (sl : mrcp_start_line_t) :
  message_ok m → message_ok (with_start_line m sl).
Proof. intros [? ?]. by split. Qed.

Lemma with_header_ok (m : @mrcp_message_t R) (h : mrcp_message_header_t) :
  message_ok m → header_ok h → message_ok (with_header m h).
Proof. intros [? ?] ?. by split. Qed.

(** *** What the client and the engine see *)

(** A message [x] of type [t] for the request [m]. *)
Definition about (m x : @mrcp_message_t R) (t : mrcp_message_type_e) : Prop :=
  request_id (start_line x) = request_id (start_line m) ∧
  method_id (start_line x) = method_id (start_line m) ∧ message_type (start_line x) = t.

Lemma response_about (m x : @mrcp_message_t R) (sl : mrcp_start_line_t) :
  message_ok m → x = with_start_line (mrcp_response_create fresh uninit (Some m)) sl →
  request_id sl = request_id (start_line (mrcp_response_create fresh uninit (Some m))) →
  method_id sl = method_id (start_line (mrcp_response_create fresh uninit (Some m))) →
  message_type sl = message_type (start_line (mrcp_response_create fresh uninit (Some m))) →
  about m x MRCP_MESSAGE_TYPE_RESPONSE.
Proof.
  intros Hm -> E1 E2 E3. destruct (response_create_ok m Hm) as (_ & H1 & H2 & H3).
  unfold about. simpl. by rewrite E1, E2, E3.
Qed.

Lemma pop_front_eq {A} (q : list A) : apt_list_pop_front q = (head q, tail q).
Proof. by destruct q. Qed.

(** The start of a pending request. *)
Definition pending_actions (p : option (@mrcp_message_t R)) : list (action R) :=
  match p with Some m => [Dispatch m] | None => [] end.

(** The requests that a STOP request does not select. *)
Definition unselected (request : @mrcp_message_t R) (q : list (@mrcp_message_t R)) : list mrcp_message_t :=
  filter (λ m, stop_selects (selective_ids request) (request_id (start_line m)) = false) q.

End Headers.

(** ** Symbolic execution of updates *)

(** One computation that succeeds and ends in a state with [Q]. *)
Definition ends {R S A} (c : sm R S A) (s : S) (Q : A → S → list (action R) → Prop) : Prop :=
  ∃ a s' o, c s = Ok (a, s', o) ∧ Q a s' o.

Section Ends.
  Context {R S : Type}.

Lemma ends_bind {A B} (c : sm R S A) (k : A → sm R S B) (s : S)
    (Q : B → S → list (action R) → Prop) :
  ends c s (λ a s' o, ends (k a) s' (λ b s'' o', Q b s'' (o ++ o'))) → ends (c ≫= k) s Q.
Proof.
  intros (a & s1 & o1 & E1 & b & s2 & o2 & E2 & HQ). exists b, s2, (o1 ++ o2). split; [|done].
  unfold mbind, sm_bind. rewrite E1. cbn [mbind res_bind]. by rewrite E2.
Qed.

Lemma ends_weaken {A} (c : sm R S A) (s : S) (Q Q' : A → S → list (action R) → Prop) :
  ends c s Q → (∀ a s' o, Q a s' o → Q' a s' o) → ends c s Q'.
Proof. intros (a & s' & o & E & HQ) Hw. exists a, s', o. auto. Qed.

Lemma ends_ret {A} (a : A) (s : S) (Q : A → S → list (action R) → Prop) :
  Q a s [] → ends (mret a) s Q.
Proof. intros HQ. by exists a, s, []. Qed.

Lemma ends_read {A} (f : S → A) (s : S) (Q : A → S → list (action R) → Prop) :
  Q (f s) s [] → ends (read f) s Q.
Proof. intros HQ. by exists (f s), s, []. Qed.

Lemma ends_modify (f : S → S) (s : S) (Q : unit → S → list (action R) → Prop) :
  Q tt (f s) [] → ends (modify f) s Q.
Proof. intros HQ. by exists tt, (f s), []. Qed.

Lemma ends_lift {A} (x : res A) (a : A) (s : S) (Q : A → S → list (action R) → Prop) :
  x = Ok a → Q a s [] → ends (lift x) s Q.
Proof. intros -> HQ. by exists a, s, []. Qed.

Lemma ends_dispatch (m : @mrcp_message_t R) (s : S) (Q : bool → S → list (action R) → Prop) :
  Q true s [Dispatch m] → ends (on_dispatch m) s Q.
Proof. intros HQ. by exists true, s, [Dispatch m]. Qed.

Lemma ends_deactivate (s : S) (Q : bool → S → list (action R) → Prop) :
  Q true s [Deactivated] → ends on_deactivate s Q.
Proof. intros HQ. by exists true, s, [Deactivated]. Qed.

End Ends.

(** Run the steps of an update that do not call a fallible function. *)
Ltac sm_run :=
  repeat first
    [ apply ends_bind | apply ends_ret | apply ends_read | apply ends_modify
    | apply ends_dispatch | apply ends_deactivate ].

(** ** Concrete messages *)

(** A resource whose header holds a completion cause only. *)
#[export] Instance cause_only : CompletionCause nat := λ _ c, c.

Definition cause_vtable : mrcp_header_vtable_t nat :=
  mk_vtable 0 (λ d _ _, (false, d)) (λ d _ _, (true, str_of (dec_u (Z.of_nat d))))
    (λ _ s _ _, (true, s)) [] 0.

Definition cause_resource : @mrcp_resource_t nat :=
  mk_resource 0 (str_of (lit "speechrecog")) (λ _, []) 13 (λ _, []) 3 (λ _, cause_vtable).

Definition no_pair : apt_pair_t := mk_pair apt_string_reset apt_string_reset.

Definition message_of (t : mrcp_message_type_e) (mid : nat) (id : Z) (s : mrcp_request_state_e)
    : @mrcp_message_t nat :=
  let m := mrcp_request_create no_pair 0 (Some cause_resource) MRCP_VERSION_2 mid in
  with_start_line m (set_request_state (set_request_id (set_message_type (start_line m) t) id) s).

Definition request_of (mid : nat) (id : Z) : @mrcp_message_t nat :=
  message_of MRCP_MESSAGE_TYPE_REQUEST mid id MRCP_REQUEST_STATE_UNKNOWN.
Definition response_of (mid : nat) (id : Z) (s : mrcp_request_state_e) : @mrcp_message_t nat :=
  message_of MRCP_MESSAGE_TYPE_RESPONSE mid id s.
Definition event_of (mid : nat) (id : Z) (s : mrcp_request_state_e) : @mrcp_message_t nat :=
  message_of MRCP_MESSAGE_TYPE_EVENT mid id s.

Lemma message_of_ok (t : mrcp_message_type_e) (mid : nat) (id : Z) (s : mrcp_request_state_e) :
  message_ok (message_of t mid id s).
Proof.
  apply with_line_ok. unfold mrcp_request_create.
  match goal with |- message_ok (mrcp_message_resource_set_by_id _ ?x _).2 =>
    apply (set_by_id_ok no_pair x cause_resource) end; [done|reflexivity].
Qed.

Lemma request_of_ok (mid : nat) (id : Z) : message_ok (request_of mid id).
Proof. unfold request_of. apply message_of_ok. Qed.
Lemma response_of_ok (mid : nat) (id : Z) (s : mrcp_request_state_e) :
  message_ok (response_of mid id s).
Proof. unfold response_of. apply message_of_ok. Qed.
Lemma event_of_ok (mid : nat) (id : Z) (s : mrcp_request_state_e) : message_ok (event_of mid id s).
Proof. unfold event_of. apply message_of_ok. Qed.

(** A run, seen from outside: what the messages of its actions say. *)
Definition action_text {R} (a : action R) : option (mrcp_message_type_e * nat * Z) :=
  match a with
  | Dispatch m => Some (message_type (start_line m), method_id (start_line m),
                        request_id (start_line m))
  | Deactivated => None
  end.

Definition run_text {R S A} (r : res (A * S * list (action R)))
    : option (A * list (option (mrcp_message_type_e * nat * Z))) :=
  match r with
  | Ok (bs, _, o) => Some (bs, action_text <$> o)
  | Fault => None
  end.
