(* ===== verification/RtspServer.v ===== *)
(** * RtspServer: the connections and sessions of the RTSP server
    ([rtsp_server.c]).

    The server runs in one task.  It reads the requests of the clients from
    their connections and hands them to the signaling agent, one at a time for
    each session; the agent answers with messages to the task.  Connections and
    sessions are objects of a store, so that a pointer to a session that was
    destroyed is seen.  The agent is not part of the server: what its functions
    return are arguments, and that they are called is recorded.  The sockets are
    those of APR: a message that is handed to the socket is recorded. *)
From S2P Require Import Prelude CString StringTable TextStream HeaderSection TextMessage StateMachine.
From S2P Require Import RecordUpdate Operation RtspStartLine RtspHeader RtspMessage.
From stdpp Require Import gmap.

Notation RTSP_METHOD_TEARDOWN := 2 (only parsing).
Notation RTSP_METHOD_DESCRIBE := 3 (only parsing).
Notation RTSP_METHOD_OPTIONS := 4 (only parsing).
Notation RTSP_STATUS_CODE_BAD_REQUEST := 400%Z (only parsing).
Notation RTSP_STATUS_CODE_NOT_FOUND := 404%Z (only parsing).
Notation RTSP_STATUS_CODE_NOT_ACCEPTABLE := 406%Z (only parsing).
Notation RTSP_STATUS_CODE_INTERNAL_SERVER_ERROR := 500%Z (only parsing).
Notation RTSP_STATUS_CODE_SERVICE_UNAVAILABLE := 503%Z (only parsing).
Notation RTSP_REASON_PHRASE_BAD_REQUEST := 2 (only parsing).
Notation RTSP_REASON_PHRASE_NOT_ACCEPTABLE := 6 (only parsing).
Notation RTSP_REASON_PHRASE_INTERNAL_SERVER_ERROR := 10 (only parsing).
Notation RTSP_REASON_PHRASE_SERVICE_UNAVAILABLE := 12 (only parsing).
Notation RTSP_SESSION_ID_HEX_STRING_LENGTH := 16 (only parsing).
Notation RTSP_STREAM_BUFFER_SIZE := 1024 (only parsing).

(** ** Hash tables with strings as keys *)

Section Hash.
  Context {A : Type}.

Definition hash_get (t : list (cstr * A)) (k : cstr) : option A :=
  snd <$> (snd <$> list_find (λ p, p.1 = k) t).
Definition hash_remove (t : list (cstr * A)) (k : cstr) : list (cstr * A) := filter (λ p, p.1 ≠ k) t.
Definition hash_set (t : list (cstr * A)) (k : cstr) (x : A) : list (cstr * A) :=
  (k, x) :: hash_remove t k.

End Hash.

(** ** State *)

(** The addresses of connections and sessions. *)
Notation cid := nat (only parsing).
Notation sid := nat (only parsing).

Record rtsp_server_session_t := mk_rtsp_session {
  connection : cid;
  s_id : apt_str_t;
  last_cseq : Z;
  active_request : option rtsp_message_t;
  request_queue : list rtsp_message_t;
  resource_table : list (cstr * rtsp_message_t);
  terminating : bool
}.

#[export] Instance eta_rtsp_session : Settable rtsp_server_session_t :=
  settable! mk_rtsp_session < connection; s_id; last_cseq; active_request; request_queue;
    resource_table; terminating >.

(** [sock] tells whether the socket is open. *)
Record rtsp_server_connection_t := mk_rtsp_connection {
  sock : bool;
  client_ip : option apt_str_t;
  session_table : list (cstr * sid);
  rx_stream : apt_text_stream_t;
  rx_parser : apt_message_parser_t rtsp_message_t
}.

#[export] Instance eta_rtsp_connection : Settable rtsp_server_connection_t :=
  settable! mk_rtsp_connection < sock; client_ip; session_table; rx_stream; rx_parser >.

(** [next] is the address of the next object. *)
Record rtsp_server_t := mk_rtsp_server {
  online : bool;
  connection_list : list cid;
  connections : gmap cid rtsp_server_connection_t;
  sessions : gmap sid rtsp_server_session_t;
  next : nat
}.

#[export] Instance eta_rtsp_server : Settable rtsp_server_t :=
  settable! mk_rtsp_server < online; connection_list; connections; sessions; next >.

Inductive task_msg_data_t :=
  | TASK_MSG_SEND_MESSAGE (s : sid) (m : rtsp_message_t)
  | TASK_MSG_TERMINATE_SESSION (s : sid)
  | TASK_MSG_RELEASE_SESSION (s : sid).

(** What the server does to others: it hands a message to a socket, and calls the
    functions of the agent. *)
Inductive rtsp_action :=
  | SocketSend (c : cid) (m : rtsp_message_t)
  | CreateSession (s : sid)
  | HandleMessage (s : sid) (m : rtsp_message_t)
  | TerminateSession (s : sid).

(** ** Operations of the task *)

Notation op := (operation rtsp_server_t rtsp_action).

(** The object behind a pointer. *)
Definition session_at (s : sid) : op rtsp_server_session_t :=
  x ← ask (λ sv, sessions sv !! s); try (deref x).
Definition connection_at (c : cid) : op rtsp_server_connection_t :=
  x ← ask (λ sv, connections sv !! c); try (deref x).
Definition session_put (s : sid) (x : rtsp_server_session_t) : op unit :=
  change (λ sv, sv <| sessions := <[s := x]> (sessions sv) |>).
Definition connection_put (c : cid) (x : rtsp_server_connection_t) : op unit :=
  change (λ sv, sv <| connections := <[c := x]> (connections sv) |>).

(** The request line of a message that is a request. *)
Definition request_line (m : rtsp_message_t) : op rtsp_request_line_t :=
  try (match rtsp_start_line m with RTSP_MESSAGE_TYPE_REQUEST r => Ok r | _ => Fault end).

Section Server.
  Context `{AprFormat} (junk : nat) (junk_version : rtsp_version_e) (junk_status : Z).
  (** What the agent returns, the identifiers [apr_uuid_get] makes, and the name
      of the peer of a connection. *)
  Context (create_session : sid → bool) (handle_message : sid → rtsp_message_t → bool).
  Context (terminate_session : sid → bool) (uuid : sid → list Z) (remote_ip : cid → option apt_str_t).

(** The text is made by the generator of RTSP messages; nothing depends on the
    result. *)
Definition rtsp_server_message_send (c : cid) (m : rtsp_message_t) : op unit :=
  x ← connection_at c;
  if sock x then emit (SocketSend c m) else mret tt.

Definition rtsp_server_error_respond (c : cid) (request : rtsp_message_t) (status_code : Z)
    (reason : nat) : op unit :=
  response ← try (rtsp_response_create junk request status_code reason junk_version);
  rtsp_server_message_send c response.

(** [session->connection] is assigned by the caller of the function in the
    source, before anything else is done with the session. *)
Definition rtsp_server_session_create (c : cid) : op (option sid) :=
  s ← ask next;
  change (λ sv, sv <| next := S (next sv) |>);;
  emit (CreateSession s);;
  if create_session s then
    session_put s (mk_rtsp_session c
      (apt_unique_id_generate (uuid s) RTSP_SESSION_ID_HEX_STRING_LENGTH) 0 None apt_list_create [] false);;
    mret (Some s)
  else mret None.

Definition rtsp_server_session_destroy (s : sid) : op unit :=
  change (λ sv, sv <| sessions := delete s (sessions sv) |>).

Definition rtsp_server_connection_destroy (c : cid) : op unit :=
  change (λ sv, sv <| connections := delete c (connections sv) |>).

(** A message with the identifier of the session. *)
Definition with_session_id (m : rtsp_message_t) (id : apt_str_t) : res rtsp_message_t :=
  match buf id with
  | None => Ok m
  | Some _ =>
      '(_, h) ← rtsp_header_property_add (rtsp_header m <| rtsp_session_id := id |>)
                  RTSP_HEADER_FIELD_SESSION_ID;
      Ok (m <| rtsp_header := h |>)
  end.

Definition rtsp_server_session_do_terminate (s : sid) : op unit :=
  x ← session_at s;
  (match active_request x with
   | Some request =>
       response ← try (rtsp_response_create junk request RTSP_STATUS_CODE_OK
                         RTSP_REASON_PHRASE_OK junk_version);
       response ← try (with_session_id response (s_id x));
       rtsp_server_message_send (connection x) response
   | None => mret tt
   end);;
  c ← connection_at (connection x);
  connection_put (connection x) (c <| session_table := hash_remove (session_table c) (chars (s_id x)) |>);;
  rtsp_server_session_destroy s;;
  c ← connection_at (connection x);
  if negb (sock c) && bool_decide (session_table c = []) then
    rtsp_server_connection_destroy (connection x)
  else mret tt.

Definition rtsp_server_session_terminate_request (s : sid) : op bool :=
  x ← session_at s;
  if terminating x then mret false
  else
    session_put s (x <| terminating := true |>);;
    emit (TerminateSession s);;
    mret (terminate_session s).

Definition rtsp_server_session_do_release (s : sid) : op bool :=
  rtsp_server_session_terminate_request s.

(** A resource name that is NULL is dereferenced by the hash table. *)
Definition rtsp_server_session_message_handle (s : sid) (m : rtsp_message_t) : op bool :=
  r ← request_line m;
  torn ← (if decide (rl_method_id r = RTSP_METHOD_TEARDOWN) then
            x ← session_at s;
            name ← try (deref (rl_resource_name r));
            let table := hash_remove (resource_table x) name in
            session_put s (x <| resource_table := table |>);;
            if decide (table = []) then
              rtsp_server_session_terminate_request s;; mret true
            else mret false
          else mret false);
  if torn : bool then mret true
  else
    emit (HandleMessage s m);;
    if handle_message s m then mret true
    else
      x ← session_at s;
      rtsp_server_error_respond (connection x) m RTSP_STATUS_CODE_INTERNAL_SERVER_ERROR
        RTSP_REASON_PHRASE_INTERNAL_SERVER_ERROR;;
      mret false.

Definition rtsp_server_session_setup_process (c : cid) : op (option sid) :=
  s ← rtsp_server_session_create c;
  match s with
  | None => mret None
  | Some s =>
      x ← session_at s;
      conn ← connection_at c;
      connection_put c (conn <| session_table := hash_set (session_table conn) (chars (s_id x)) s |>);;
      mret (Some s)
  end.

(** The session works on [m]. *)
Definition session_activate (s : sid) (m : option rtsp_message_t) : op unit :=
  x ← session_at s; session_put s (x <| active_request := m |>).

(** The session is destroyed when the first request is refused. *)
Definition new_session_request (c : cid) (m : rtsp_message_t) (s : option sid) : op unit :=
  match s with
  | Some s =>
      session_activate s (Some m);;
      ok ← rtsp_server_session_message_handle s m;
      if ok : bool then mret tt else rtsp_server_session_destroy s
  | None =>
      rtsp_server_error_respond c m RTSP_STATUS_CODE_NOT_ACCEPTABLE RTSP_REASON_PHRASE_NOT_ACCEPTABLE
  end.

Definition rtsp_server_session_request_process (c : cid) (m : rtsp_message_t) : op unit :=
  match rtsp_start_line m with
  | RTSP_MESSAGE_TYPE_REQUEST r =>
      if negb (rtsp_header_property_check (rtsp_header m) RTSP_HEADER_FIELD_SESSION_ID) then
        if decide (rl_method_id r = RTSP_METHOD_SETUP ∨ rl_method_id r = RTSP_METHOD_DESCRIBE) then
          up ← ask online;
          if negb up then
            rtsp_server_error_respond c m RTSP_STATUS_CODE_SERVICE_UNAVAILABLE
              RTSP_REASON_PHRASE_SERVICE_UNAVAILABLE
          else s ← rtsp_server_session_setup_process c; new_session_request c m s
        else if decide (rl_method_id r = RTSP_METHOD_OPTIONS) then
          rtsp_server_error_respond c m RTSP_STATUS_CODE_OK RTSP_REASON_PHRASE_OK
        else
          rtsp_server_error_respond c m RTSP_STATUS_CODE_BAD_REQUEST RTSP_REASON_PHRASE_BAD_REQUEST
      else
        conn ← connection_at c;
        match hash_get (session_table conn) (chars (rtsp_session_id (rtsp_header m))) with
        | None =>
            rtsp_server_error_respond c m RTSP_STATUS_CODE_NOT_FOUND RTSP_REASON_PHRASE_NOT_FOUND
        | Some s =>
            x ← session_at s;
            if terminating x then
              rtsp_server_error_respond c m RTSP_STATUS_CODE_NOT_ACCEPTABLE
                RTSP_REASON_PHRASE_NOT_ACCEPTABLE
            else
              match active_request x with
              | Some _ =>
                  session_put s (x <| request_queue := apt_list_push_back (request_queue x) m |>)
              | None =>
                  session_activate s (Some m);;
                  rtsp_server_session_message_handle s m;;
                  mret tt
              end
        end
  | _ => mret tt
  end.

(** An ANNOUNCE request of the agent: an event of a resource of the session. *)
Definition session_announce (s : sid) (r : rtsp_request_line_t) (m : rtsp_message_t) : op bool :=
  x ← session_at s;
  match rl_resource_name r ≫= hash_get (resource_table x) with
  | None => mret false
  | Some request =>
      q ← request_line request;
      let h := rtsp_header m <| cseq := last_cseq x |> in
      '(_, h) ← try (rtsp_header_property_add h RTSP_HEADER_FIELD_CSEQ);
      let m := m <| rtsp_start_line := RTSP_MESSAGE_TYPE_REQUEST (r <| rl_url := rl_url q |>) |>
                 <| rtsp_header := h |> in
      m ← try (with_session_id m (s_id x));
      rtsp_server_message_send (connection x) m;;
      mret true
  end.

(** The response of the agent to the request in progress [q]: what is sent, the
    resources of the session, and whether the session ends. *)
Definition response_prepare (x : rtsp_server_session_t) (request : rtsp_message_t)
    (q : rtsp_request_line_t) (m : rtsp_message_t)
    : res (rtsp_message_t * list (cstr * rtsp_message_t) * bool) :=
  if decide (rl_method_id q = RTSP_METHOD_DESCRIBE) then Ok (m, resource_table x, true)
  else
    m ← with_session_id m (s_id x);
    if decide (rl_method_id q = RTSP_METHOD_SETUP) then
      let code := match rtsp_start_line m with
                  | RTSP_MESSAGE_TYPE_RESPONSE l => st_status_code l
                  | _ => junk_status
                  end in
      if decide (code = RTSP_STATUS_CODE_OK) then
        name ← deref (rl_resource_name q);
        Ok (m, hash_set (resource_table x) name request, false)
      else Ok (m, resource_table x, bool_decide (resource_table x = []))
    else Ok (m, resource_table x, false).

(** A response of the agent. *)
Definition response_process (s : sid) (m : rtsp_message_t) : op bool :=
  x ← session_at s;
  match active_request x with
  | None => mret false
  | Some request =>
      q ← request_line request;
      '(m, table, terminate) ← try (response_prepare x request q m);
      session_put s (x <| resource_table := table |> <| last_cseq := cseq (rtsp_header m) |>);;
      rtsp_server_message_send (connection x) m;;
      if terminate : bool then
        session_activate s None;;
        rtsp_server_session_terminate_request s;;
        mret true
      else
        x ← session_at s;
        let '(request, queue) := apt_list_pop_front (request_queue x) in
        session_put s (x <| active_request := request |> <| request_queue := queue |>);;
        match request with
        | Some request => rtsp_server_session_message_handle s request;; mret true
        | None => mret true
        end
  end.

Definition rtsp_server_session_response_process (s : sid) (m : rtsp_message_t) : op bool :=
  match rtsp_start_line m with
  | RTSP_MESSAGE_TYPE_REQUEST r => session_announce s r m
  | _ => response_process s m
  end.

(** The message with the address of the client as the destination of the media,
    where it names none. *)
Definition destination_set (conn : rtsp_server_connection_t) (m : rtsp_message_t) : rtsp_message_t :=
  let t := transport (rtsp_header m) in
  let t := match buf (destination t), client_ip conn with
           | None, Some ip => t <| destination := ip |>
           | _, _ => t
           end in
  m <| rtsp_header := rtsp_header m <| transport := t |> |>.

(** A message that was parsed, or text that could not be. *)
Definition rtsp_server_message_handler (c : cid) (m : option rtsp_message_t)
    (status : apt_message_status_e) : op unit :=
  match status, m with
  | APT_MESSAGE_STATUS_COMPLETE, Some m =>
      conn ← connection_at c;
      rtsp_server_session_request_process c (destination_set conn m)
  | APT_MESSAGE_STATUS_COMPLETE, None => try Fault
  | APT_MESSAGE_STATUS_INVALID, Some m =>
      rtsp_server_error_respond c m RTSP_STATUS_CODE_BAD_REQUEST RTSP_REASON_PHRASE_BAD_REQUEST
  | _, _ => mret tt
  end.

(** ** Connections *)

Definition rtsp_server_connection_accept : op unit :=
  c ← ask next;
  change (λ sv, sv <| next := S (next sv) |>);;
  connection_put c (mk_rtsp_connection true (remote_ip c) []
    (apt_text_stream_init (replicate RTSP_STREAM_BUFFER_SIZE NUL) (RTSP_STREAM_BUFFER_SIZE - 1))
    apt_message_parser_create);;
  change (λ sv, sv <| connection_list := connection_list sv ++ [c] |>).

(** The loop over the sessions that remain. *)
Fixpoint terminate_loop (ss : list sid) : op unit :=
  match ss with
  | [] => mret tt
  | s :: ss => rtsp_server_session_terminate_request s;; terminate_loop ss
  end.

Definition rtsp_server_connection_close (c : cid) : op bool :=
  x ← connection_at c;
  if negb (sock x) then mret false
  else
    connection_put c (x <| sock := false |>);;
    change (λ sv, sv <| connection_list := filter (λ d, d ≠ c) (connection_list sv) |>);;
    (if decide (session_table x = []) then rtsp_server_connection_destroy c
     else terminate_loop (snd <$> session_table x));;
    mret true.

(** The messages of the text received so far.  Each turn of the loop reads
    something or meets the end of the text, so that one turn more than there are
    characters is enough: the result is false when the turns run out. *)
Fixpoint receive_loop (fuel : nat) (c : cid) : op bool :=
  match fuel with
  | O => mret false
  | S fuel =>
      x ← connection_at c;
      '(status, p, st, m) ← try (rtsp_parser_run junk (rx_parser x) (rx_stream x));
      connection_put c (x <| rx_parser := p |> <| rx_stream := st |>);;
      rtsp_server_message_handler c m status;;
      if apt_text_is_eos st then mret true else receive_loop fuel c
  end.

(** [data] is what the socket returned, at most as many characters as there is
    room for; nothing at the end of the connection. *)
Definition rtsp_server_poller_signal_process (c : cid) (data : cstr) : op bool :=
  x ← connection_at c;
  if negb (sock x) then mret false
  else if decide (data = []) then rtsp_server_connection_close c
  else
    let st := rx_stream x in
    let offset := pos st - text_buf st in
    st ← try (store_all st (data ++ [NUL]));
    let st := apt_text_stream_reset
      (mk_stream (mem st) (text_buf st) (offset + length data) (pos st) (end_ st) (is_eos st)) in
    connection_put c (x <| rx_stream := st |>);;
    ended ← receive_loop (S (length (window st))) c;
    (if ended : bool then mret tt else try Fault);;
    x ← connection_at c;
    '(_, st) ← try (apt_text_stream_scroll (rx_stream x));
    connection_put c (x <| rx_stream := st |>);;
    mret true.

Definition rtsp_server_inactivity_timer_proc (c : cid) : op bool := rtsp_server_connection_close c.

(** ** The task *)

Definition rtsp_server_on_offline : op unit := change (λ sv, sv <| online := false |>).
Definition rtsp_server_on_online : op unit := change (λ sv, sv <| online := true |>).

Definition rtsp_server_task_msg_process (t : task_msg_data_t) : op unit :=
  match t with
  | TASK_MSG_SEND_MESSAGE s m => rtsp_server_session_response_process s m;; mret tt
  | TASK_MSG_TERMINATE_SESSION s => rtsp_server_session_do_terminate s
  | TASK_MSG_RELEASE_SESSION s => rtsp_server_session_do_release s;; mret tt
  end.

End Server.

(** ** Signals of the agent: messages to the task *)

Definition rtsp_server_session_respond (tasks : list task_msg_data_t) (s : sid) (m : rtsp_message_t)
    : list task_msg_data_t := tasks ++ [TASK_MSG_SEND_MESSAGE s m].
Definition rtsp_server_session_terminate (tasks : list task_msg_data_t) (s : sid)
    : list task_msg_data_t := tasks ++ [TASK_MSG_TERMINATE_SESSION s].
Definition rtsp_server_session_release (tasks : list task_msg_data_t) (s : sid)
    : list task_msg_data_t := tasks ++ [TASK_MSG_RELEASE_SESSION s].

Definition rtsp_server_create : rtsp_server_t := mk_rtsp_server true [] ∅ ∅ 0.
