(* ===== verification/RtspServerTheory.v ===== *)
(** * RtspServerTheory: the RTSP server uses only sessions and connections that
    exist, and serves the requests of a session one at a time, in order: it refines a
    service with a queue of requests for each session. *)
From S2P Require Import Prelude CString StringTable TextStream HeaderSection TextMessage StateMachine.
From S2P Require Import RecordUpdate Operation RtspStartLine RtspHeader RtspMessage RtspServer.
From stdpp Require Import gmap.

(** ** The service

    Each session has a queue of requests; the agent works on the first of them,
    and is given the next one when the first is answered. *)

Definition service : Type := sid → option (list rtsp_message_t).

Inductive service_label :=
  | LAccept (s : sid) (m : rtsp_message_t)
  | LAnswer (s : sid)
  | LEnd (s : sid)
  | LNone.

Definition update (σ : service) (s : sid) (q : option (list rtsp_message_t)) : service :=
  λ s', if decide (s' = s) then q else σ s'.

Definition request_method (m : rtsp_message_t) : option nat :=
  match rtsp_start_line m with RTSP_MESSAGE_TYPE_REQUEST r => Some (rl_method_id r) | _ => None end.

(** What the agent is given when [q] becomes the queue of the session [s]: the
    first request.  It is not told of a TEARDOWN that ends the session. *)
Definition turn (s : sid) (q : list rtsp_message_t) (g : list (sid * rtsp_message_t)) : Prop :=
  match q with
  | [] => g = []
  | m :: _ => g = [(s, m)] ∨ g = [] ∧ request_method m = Some RTSP_METHOD_TEARDOWN
  end.

(** The answer to such a request may end the session. *)
Definition may_end (m : rtsp_message_t) : Prop :=
  request_method m = Some RTSP_METHOD_SETUP ∨ request_method m = Some RTSP_METHOD_DESCRIBE.

(** A request joins the queue; the first one is answered; the session ends. *)
Inductive service_step (σ : service) : service_label → list (sid * rtsp_message_t) → service → Prop :=
  | serve_first s m g σ' :
      default [] (σ s) = [] → (∀ s', σ' s' = update σ s (Some [m]) s') → turn s [m] g →
      service_step σ (LAccept s m) g σ'
  | serve_later s m q σ' :
      σ s = Some q → q ≠ [] → (∀ s', σ' s' = update σ s (Some (q ++ [m])) s') →
      service_step σ (LAccept s m) [] σ'
  | serve_answer s m q g σ' :
      σ s = Some (m :: q) → (∀ s', σ' s' = update σ s (Some q) s') →
      turn s q g ∨ g = [] ∧ may_end m →
      service_step σ (LAnswer s) g σ'
  | serve_end s σ' : (∀ s', σ' s' = update σ s None s') → service_step σ (LEnd s) [] σ'
  | serve_none σ' : (∀ s', σ' s' = σ s') → service_step σ LNone [] σ'.

(** The requests of the session [s] in a trace: those that were accepted, those
    that were answered, and those given to the agent. *)
Definition trace : Type := list (service_label * list (sid * rtsp_message_t)).

Definition arrived (s : sid) (tr : trace) : list rtsp_message_t :=
  omap (λ p, match p.1 with LAccept s' m => if decide (s' = s) then Some m else None | _ => None end) tr.
Definition answers (s : sid) (tr : trace) : nat :=
  length (omap (λ p, match p.1 with LAnswer s' => if decide (s' = s) then Some tt else None | _ => None end) tr).
Definition own (s : sid) (g : list (sid * rtsp_message_t)) : list rtsp_message_t :=
  omap (λ p, if decide (p.1 = s) then Some p.2 else None) g.
Definition served (s : sid) (tr : trace) : list rtsp_message_t := own s (tr.*2 ≫= id).

Inductive service_run (σ : service) : trace → service → Prop :=
  | run_done : service_run σ [] σ
  | run_step l g σ1 tr σ' :
      service_step σ l g σ1 → service_run σ1 tr σ' → service_run σ ((l, g) :: tr) σ'.

Lemma served_cons s l g tr : served s ((l, g) :: tr) = own s g ++ served s tr.
Proof. unfold served, own. simpl. apply omap_app. Qed.

(** The first request of a queue, which the agent works on. *)
Definition first (q : option (list rtsp_message_t)) : list rtsp_message_t := option_list (head (default [] q)).

Lemma own_other s s' q g : turn s' q g → s' ≠ s → own s g = [].
Proof.
  intros Hg Hne. destruct q as [|m q]; [by rewrite Hg|].
  destruct Hg as [->|[-> _]]; unfold own; simpl; [by rewrite decide_False|done].
Qed.

Lemma turn_first s q g : turn s q g → own s g `sublist_of` option_list (head q).
Proof.
  destruct q as [|m q]; [by intros ->|]. intros [->|[-> _]]; unfold own; simpl; [|apply sublist_nil_l].
  by rewrite decide_True.
Qed.

(** What a step does to one session. *)
Lemma service_step_own σ l g σ' s :
  service_step σ l g σ' → l ≠ LEnd s →
  ∃ done, default [] (σ s) ++ arrived s [(l, g)] = done ++ default [] (σ' s) ∧
    length done = answers s [(l, g)] ∧ first (σ s) ++ own s g `sublist_of` done ++ first (σ' s).
Proof.
  intros Hstep Hne.
  assert (Hother : σ' s = σ s → arrived s [(l, g)] = [] → answers s [(l, g)] = 0 → own s g = [] →
    ∃ done, default [] (σ s) ++ arrived s [(l, g)] = done ++ default [] (σ' s) ∧
      length done = answers s [(l, g)] ∧ first (σ s) ++ own s g `sublist_of` done ++ first (σ' s)).
  { intros -> -> -> ->. exists []. by rewrite !app_nil_r. }
  destruct Hstep as [s0 m g σ' Hq Hσ Hg|s0 m q σ' Hq Hn Hσ|s0 m q g σ' Hq Hσ Hg|s0 σ' Hσ|σ' Hσ];
    specialize (Hσ s); unfold update in Hσ; [..|by apply Hother].
  all: destruct (decide (s = s0)) as [<-|Hs].
  all: unfold first, arrived, answers in Hother |- *; simpl in Hother |- *.
  - exists []. rewrite Hσ, Hq, decide_True by done. split_and!; [done..|]. by apply (turn_first s [m]).
  - apply Hother; [done|by rewrite decide_False by congruence|done|eapply own_other; [done|congruence]].
  - exists []. rewrite Hσ, Hq, decide_True by done. split_and!; [done..|]. simpl. rewrite app_nil_r.
    by destruct q.
  - apply Hother; [done|by rewrite decide_False by congruence|done|done].
  - exists [m]. rewrite Hσ, Hq, decide_True, app_nil_r by done. split_and!; [done..|]. simpl. constructor.
    destruct Hg as [Hg|[-> _]]; [by apply turn_first|apply sublist_nil_l].
  - apply Hother; [done|done|by rewrite decide_False by congruence|].
    destruct Hg as [Hg|[-> _]]; [eapply own_other; [done|congruence]|done].
  - done.
  - by apply Hother.
Qed.

(** Only the end of a session removes it. *)
Lemma service_step_live σ l g σ' s :
  service_step σ l g σ' → l ≠ LEnd s → is_Some (σ s) → is_Some (σ' s).
Proof.
  intros Hstep Hne Hs. destruct Hstep as [???? _ Hσ _|???? _ _ Hσ|????? _ Hσ _|s0 ? Hσ|? Hσ]; rewrite Hσ; try done;
    unfold update; destruct (decide (s = _)); try done; congruence.
Qed.

(** One at a time, in order: the requests of a session are those answered and
    those in its queue, and the agent was given no others than those answered and
    the first of the queue, in that order. *)
Lemma service_run_own σ tr σ' s :
  service_run σ tr σ' → LEnd s ∉ tr.*1 →
  ∃ done, default [] (σ s) ++ arrived s tr = done ++ default [] (σ' s) ∧
    length done = answers s tr ∧ first (σ s) ++ served s tr `sublist_of` done ++ first (σ' s).
Proof.
  induction 1 as [|σ l g σ1 tr σ' Hstep Hrun IH]; intros Hend.
  { exists []. by rewrite !app_nil_r. }
  apply not_elem_of_cons in Hend as [Hne Hend].
  destruct (service_step_own _ _ _ _ s Hstep ltac:(done)) as (d1 & Hd1 & Hn1 & Hs1).
  destruct (IH Hend) as (d2 & Hd2 & Hn2 & Hs2). exists (d1 ++ d2). split_and!.
  - change (arrived s ((l, g) :: tr)) with (arrived s ([(l, g)] ++ tr)). unfold arrived in *.
    rewrite omap_app, app_assoc, Hd1, <- !app_assoc. by rewrite Hd2.
  - change (answers s ((l, g) :: tr)) with (answers s ([(l, g)] ++ tr)). unfold answers in *.
    rewrite omap_app, !length_app. lia.
  - rewrite served_cons, app_assoc. etrans; [by apply sublist_app|]. rewrite <- !app_assoc.
    by apply sublist_app.
Qed.

(** ** Rules for the operations of the task *)

Lemma wp_session_at s x Q sv : sessions sv !! s = Some x → Q x sv [] → wp (session_at s) Q sv.
Proof.
  intros Hs HQ. apply wp_bind, wp_ask. rewrite Hs. by eapply wp_try.
Qed.

Lemma wp_connection_at c x Q sv : connections sv !! c = Some x → Q x sv [] → wp (connection_at c) Q sv.
Proof.
  intros Hc HQ. apply wp_bind, wp_ask. rewrite Hc. by eapply wp_try.
Qed.

Lemma wp_request_line m r Q sv :
  rtsp_start_line m = RTSP_MESSAGE_TYPE_REQUEST r → Q r sv [] → wp (request_line m) Q sv.
Proof. intros Hm HQ. unfold request_line. rewrite Hm. by eapply wp_try. Qed.

(** ** Headers of messages *)

Lemma section_wf_insert (h : apt_header_section_t) (l : loc) (f : apt_header_field_t) :
  section_wf h → id_ok f → l ∉ fst <$> ring h → section_wf (apt_header_section_field_insert h l f).2.
Proof.
  intros Hwf Hid Hl. unfold apt_header_section_field_insert.
  case_decide as Hlt; [destruct (apt_header_section_field_check _ _); [done|]|].
  - eapply section_wf_place; [done..|apply ring_insert_sorted_perm|by right].
  - eapply section_wf_place; [done..| |by left]. simpl. by rewrite Permutation_app_comm.
Qed.

(** A header whose fields can be looked up. *)
Definition header_wf (h : rtsp_header_t) : Prop := section_wf (rtsp_header_section h).

Section Headers.
  Context `{AprFormat} (junk : nat).

(** Adding the sequence number or the session identifier cannot fail. *)
Lemma property_add_total (h : rtsp_header_t) (id : nat) :
  header_wf h → id = RTSP_HEADER_FIELD_CSEQ ∨ id = RTSP_HEADER_FIELD_SESSION_ID →
  ∃ ok s, rtsp_header_property_add h id = Ok (ok, h <| rtsp_header_section := s |>) ∧ section_wf s.
Proof.
  intros Hwf Hid. unfold rtsp_header_property_add.
  assert (Hv : ∀ v, ∃ w, rtsp_header_field_value_generate h id v = Ok w)
    by (intros v; destruct Hid as [-> | ->]; by eexists).
  destruct (apt_header_section_field_get (rtsp_header_section h) (Z.of_nat id)) as [l|] eqn:Hget.
  - assert (∃ f, (l, f) ∈ ring (rtsp_header_section h)) as (f & Hf).
    { unfold apt_header_section_field_get in Hget. case_decide; [|done].
      destruct (arr (rtsp_header_section h) !! Z.to_nat (Z.of_nat id)) as [[l'|]|] eqn:Hl; try done.
      injection Hget as ->. destruct (wf_arr _ Hwf _ _ Hl) as (f & Hf & _). by exists f. }
    rewrite (proj2 (field_at_Some _ l f Hwf) Hf). cbn [deref mbind res_bind].
    destruct (Hv (field_value f)) as (w & ->). cbn [mbind res_bind]. eexists _, _. split; [done|].
    apply section_wf_update; [done|]. by intros g _.
  - destruct (Hv (field_value apt_header_field_alloc)) as (w & ->). cbn [mbind res_bind].
    assert (∃ name, apt_string_table_str_get rtsp_header_string_table RTSP_HEADER_FIELD_COUNT id = Some name)
      as (name & ->) by (destruct Hid as [-> | ->]; by eexists).
    set (f := set_field_id _ _).
    pose proof (section_wf_insert (rtsp_header_section h) (fresh_loc (rtsp_header_section h)) f Hwf) as Hins.
    destruct (apt_header_section_field_insert _ _ f) as [ok s]. eexists _, _. split; [done|].
    apply Hins; [|apply fresh_loc_spec]. destruct Hid as [-> | ->]; split; simpl; lia.
Qed.

Lemma with_session_id_total (m : rtsp_message_t) (id : apt_str_t) :
  header_wf (rtsp_header m) →
  ∃ m', with_session_id m id = Ok m' ∧ header_wf (rtsp_header m') ∧
    rtsp_start_line m' = rtsp_start_line m ∧ cseq (rtsp_header m') = cseq (rtsp_header m).
Proof.
  intros Hwf. unfold with_session_id. destruct (buf id); [|by exists m].
  match goal with |- context [rtsp_header_property_add ?h ?i] =>
    destruct (property_add_total h i) as (ok & s & -> & Hs); [exact Hwf|by right|] end.
  cbn [mbind res_bind]. eexists. split; [done|]. by split_and!.
Qed.

Lemma header_init_wf : header_wf (rtsp_header_init junk).
Proof. apply arr_alloc_wf. done. Qed.

Lemma response_create_total (request : rtsp_message_t) (code : Z) (reason : nat) (v : rtsp_version_e) :
  ∃ m, rtsp_response_create junk request code reason v = Ok m ∧ header_wf (rtsp_header m).
Proof.
  unfold rtsp_response_create. cbv zeta.
  assert (∃ h, (if rtsp_header_property_check (rtsp_header request) RTSP_HEADER_FIELD_CSEQ then
      '(_, h) ← rtsp_header_property_add (rtsp_header_init junk <| cseq := cseq (rtsp_header request) |>)
                  RTSP_HEADER_FIELD_CSEQ; Ok h
    else Ok (rtsp_header_init junk)) = Ok h ∧ header_wf h) as (h & Hh & Hwf).
  { destruct (rtsp_header_property_check _ _); [|exists (rtsp_header_init junk); split; [done|apply header_init_wf]].
    match goal with |- context [rtsp_header_property_add ?h ?i] =>
      destruct (property_add_total h i) as (ok & s & -> & Hs); [exact header_init_wf|by left|] end.
    eexists. by split. }
  change (rtsp_header (rtsp_message_create junk ?x)) with (rtsp_header_init junk). rewrite Hh.
  cbn [mbind res_bind]. eexists. split; [done|].
  destruct (rtsp_header_property_check _ RTSP_HEADER_FIELD_TRANSPORT); [|exact Hwf].
  by destruct (decide (len (mode (transport (rtsp_header request))) = 0)).
Qed.

End Headers.

(** ** Invariant *)

(** A request as the parser delivers it, with the name of a resource. *)
Definition request_ok (m : rtsp_message_t) : Prop :=
  ∃ r, rtsp_start_line m = RTSP_MESSAGE_TYPE_REQUEST r ∧ is_Some (rl_resource_name r).

(** The requests of a session that have no response yet, in the order of their
    arrival. *)
Definition outstanding (x : rtsp_server_session_t) : list rtsp_message_t :=
  option_list (active_request x) ++ request_queue x.

(** [sv] with the session [x] at [s]. *)
Definition put (sv : rtsp_server_t) (s : sid) (x : rtsp_server_session_t) : rtsp_server_t :=
  sv <| sessions := <[s := x]> (sessions sv) |>.

Section Specs.
  Context `{AprFormat} (junk : nat) (junk_version : rtsp_version_e) (junk_status : Z).
  Context (create_session : sid → bool) (handle_message : sid → rtsp_message_t → bool).
  Context (terminate_session : sid → bool) (uuid : sid → list Z) (remote_ip : cid → option apt_str_t).

Notation new_id s := (apt_unique_id_generate (uuid s) RTSP_SESSION_ID_HEX_STRING_LENGTH).

(** The key of a session in the table of its connection. *)
Definition id_text (s : sid) : cstr := chars (new_id s).
#[local] Arguments id_text : simpl never.

Record session_ok (s : sid) (x : rtsp_server_session_t) : Prop := {
  so_id : s_id x = new_id s;
  so_requests : Forall request_ok (outstanding x);
  so_resources : Forall (λ p, request_ok p.2) (resource_table x);
  so_idle : terminating x = false → active_request x = None → request_queue x = []
}.

(** Tables and sessions refer to each other, and a closed connection exists only
    while it has sessions. *)
Record server_wf (sv : rtsp_server_t) : Prop := {
  wf_fresh : ∀ i, next sv ≤ i → sessions sv !! i = None ∧ connections sv !! i = None;
  wf_tables : ∀ c x, connections sv !! c = Some x →
    NoDup (session_table x).*1 ∧ (sock x = false → session_table x ≠ []) ∧
    ∀ k s, (k, s) ∈ session_table x → k = id_text s ∧ ∃ y, sessions sv !! s = Some y ∧ connection y = c;
  wf_sessions : ∀ s y, sessions sv !! s = Some y →
    session_ok s y ∧ ∃ x, connections sv !! connection y = Some x ∧ (id_text s, s) ∈ session_table x
}.

Lemma wf_create : server_wf rtsp_server_create.
Proof. split; [done|by intros ??|by intros ??]. Qed.

(** A session that changes keeps its identifier and its connection. *)
Lemma wf_put sv s x y :
  server_wf sv → sessions sv !! s = Some x → connection y = connection x → session_ok s y →
  server_wf (put sv s y).
Proof.
  intros [Hf Ht Hs] Hx Hc Hy. split; cbn.
  - intros i Hi. destruct (Hf i Hi) as [Hi1 Hi2]. split; [|done].
    rewrite lookup_insert_ne; [done|]. intros ->. congruence.
  - intros c z Hz. destruct (Ht c z Hz) as (? & ? & Hk). split_and!; [done..|].
    intros k s' Hin. destruct (Hk k s' Hin) as (-> & y' & Hy' & Hcy). split; [done|].
    destruct (decide (s' = s)) as [->|Hne].
    + exists y. rewrite lookup_insert_eq. split; [done|]. rewrite Hc. congruence.
    + exists y'. by rewrite lookup_insert_ne.
  - intros s' y' Hy'. destruct (decide (s' = s)) as [->|Hne].
    + rewrite lookup_insert_eq in Hy'. injection Hy' as <-. split; [done|].
      rewrite Hc. apply (Hs s x Hx).
    + rewrite lookup_insert_ne in Hy' by done. by apply Hs.
Qed.

Lemma put_id sv s x : sessions sv !! s = Some x → put sv s x = sv.
Proof. intros Hx. unfold put. rewrite insert_id by done. by destruct sv. Qed.

Lemma put_put sv s x y : put (put sv s x) s y = put sv s y.
Proof. unfold put. cbn. by rewrite insert_insert_eq. Qed.

Lemma put_at sv s x : sessions (put sv s x) !! s = Some x.
Proof. apply lookup_insert_eq. Qed.

(** ** What the operations do *)

(** A message reaches the socket of an open connection. *)
Definition sent (x : rtsp_server_connection_t) (c : cid) (m : rtsp_message_t) : list rtsp_action :=
  if sock x then [SocketSend c m] else [].

Lemma send_spec c x m sv Q :
  connections sv !! c = Some x → Q tt sv (sent x c m) → wp (rtsp_server_message_send c m) Q sv.
Proof.
  intros Hc HQ. eapply wp_bind, wp_connection_at; [done|]. unfold sent in HQ.
  destruct (sock x); [by apply wp_emit|by apply wp_ret].
Qed.

Lemma error_respond_spec c x m code reason sv Q :
  connections sv !! c = Some x →
  (∀ r, rtsp_response_create junk m code reason junk_version = Ok r → Q tt sv (sent x c r)) →
  wp (rtsp_server_error_respond junk junk_version c m code reason) Q sv.
Proof.
  intros Hc HQ. destruct (response_create_total junk m code reason junk_version) as (r & Hr & _).
  eapply wp_bind, wp_try; [done|]. eapply send_spec; [done|]. by apply HQ.
Qed.

Lemma terminate_request_spec s x sv Q :
  sessions sv !! s = Some x →
  (∀ b, Q b (put sv s (x <| terminating := true |>)) (if terminating x then [] else [TerminateSession s])) →
  wp (rtsp_server_session_terminate_request terminate_session s) Q sv.
Proof.
  intros Hx HQ. eapply wp_bind, wp_session_at; [done|].
  destruct (terminating x) eqn:Ht.
  - apply wp_ret. specialize (HQ false). replace (x <| terminating := true |>) with x in HQ.
    + by rewrite put_id in HQ.
    + destruct x. cbn in *. by rewrite Ht.
  - apply wp_bind, wp_change, wp_bind, wp_emit, wp_ret. apply HQ.
Qed.

(** What handling a request leaves of a session: the resources may be fewer, and
    the session may be terminating. *)
Definition handled (x y : rtsp_server_session_t) : Prop :=
  connection y = connection x ∧ s_id y = s_id x ∧ last_cseq y = last_cseq x ∧
  active_request y = active_request x ∧ request_queue y = request_queue x ∧
  (∀ p, p ∈ resource_table y → p ∈ resource_table x) ∧ (terminating y = false → terminating x = false).

(** The agent is given the request, or is asked to terminate the session by the
    last TEARDOWN. *)
Definition begins (s : sid) (m : rtsp_message_t) (x : rtsp_server_session_t) (o : list rtsp_action) : Prop :=
  (∃ o', o = HandleMessage s m :: o' ∧ ∀ a, a ∈ o' → ∃ c r, a = SocketSend c r) ∨
  (o = [TerminateSession s] ∨ o = [] ∧ terminating x = true) ∧ request_method m = Some RTSP_METHOD_TEARDOWN.

(** The result: the agent refuses the request, or does not. *)
Definition accepts (s : sid) (m : rtsp_message_t) (b : bool) : Prop :=
  b = handle_message s m ∨ b = true ∧ request_method m = Some RTSP_METHOD_TEARDOWN.

Lemma message_handle_spec s x c m sv Q :
  sessions sv !! s = Some x → connections sv !! connection x = Some c → request_ok m →
  (∀ b y o, handled x y → begins s m x o → accepts s m b →
     Q b (put sv s y) o) →
  wp (rtsp_server_session_message_handle junk junk_version handle_message terminate_session s m) Q sv.
Proof.
  intros Hx Hc (r & Hr & name & Hn) HQ.
  eapply wp_bind, wp_request_line; [done|]. apply wp_bind.
  assert (Hhandle : ∀ y, handled x y →
    wp (emit (HandleMessage s m);;
        if handle_message s m then mret true
        else
          x ← session_at s;
          rtsp_server_error_respond junk junk_version (connection x) m RTSP_STATUS_CODE_INTERNAL_SERVER_ERROR
            RTSP_REASON_PHRASE_INTERNAL_SERVER_ERROR;;
          mret false) Q (put sv s y)).
  { intros y Hy. apply wp_bind, wp_emit. destruct (handle_message s m) eqn:Hh.
    - apply wp_ret, HQ; [done| |by left]. left. exists []. split; [done|]. by intros a Ha%elem_of_nil.
    - eapply wp_bind, wp_session_at; [apply put_at|]. destruct Hy as (Hcy & Hy).
      eapply wp_bind, error_respond_spec; [cbn; by rewrite Hcy|].
      intros r' _. apply wp_ret, HQ; [by split| |by left]. left. eexists. split; [done|].
      rewrite app_nil_r. intros a Ha. unfold sent in Ha.
      destruct (sock c); [|by apply elem_of_nil in Ha]. apply list_elem_of_singleton in Ha as ->. by eexists _, _. }
  destruct (decide (rl_method_id r = RTSP_METHOD_TEARDOWN)) as [Ht|Ht].
  - eapply wp_bind, wp_session_at; [done|]. eapply wp_bind, wp_try; [by rewrite Hn|].
    apply wp_bind, wp_change. fold (put sv s (x <| resource_table := hash_remove (resource_table x) name |>)).
    assert (Hh : ∀ b, (b = false → terminating x = false) →
      handled x (x <| resource_table := hash_remove (resource_table x) name |> <| terminating := b |>)).
    { intros b Hb. split_and!; try done. intros p Hp. by apply list_elem_of_filter in Hp as [_ ?]. }
    destruct (decide (hash_remove (resource_table x) name = [])) as [He|He].
    + eapply wp_bind, terminate_request_spec; [apply put_at|]. intros b. apply wp_ret. cbn.
      apply wp_ret. rewrite put_put. cbn. 
      assert (Hm : request_method m = Some RTSP_METHOD_TEARDOWN) by (unfold request_method; by rewrite Hr, Ht).
      apply HQ; [by apply Hh| |right; by split]. rewrite app_nil_r. right. split; [|done].
      destruct (terminating x); [by right|by left].
    + apply wp_ret. cbn. eapply wp_mono.
      * apply Hhandle. exact (Hh (terminating x) (λ H, H)).
      * done.
  - apply wp_ret. cbn. rewrite <- (put_id sv s x Hx). eapply wp_mono.
    + apply Hhandle. by split_and!.
    + done.
Qed.

(** The requests in service, session by session. *)
Definition out (sv : rtsp_server_t) (s : sid) : option (list rtsp_message_t) :=
  outstanding <$> sessions sv !! s.

(** The sessions announced to the agent, and the requests it is given. *)
Definition created (o : list rtsp_action) : list sid :=
  omap (λ a, match a with CreateSession s => Some s | _ => None end) o.
Definition given (o : list rtsp_action) : list (sid * rtsp_message_t) :=
  omap (λ a, match a with HandleMessage s m => Some (s, m) | _ => None end) o.

Definition quiet (o : list rtsp_action) : Prop := created o = [] ∧ given o = [].

(** The agent is given no request but [m], for the session [s]. *)
Definition gives (s : sid) (m : rtsp_message_t) (o : list rtsp_action) : Prop :=
  created o = [] ∧ turn s [m] (given o).

Lemma created_app o o' : created (o ++ o') = created o ++ created o'.
Proof. apply omap_app. Qed.

Lemma given_app o o' : given (o ++ o') = given o ++ given o'.
Proof. apply omap_app. Qed.

Lemma quiet_app o o' : quiet o → quiet o' → quiet (o ++ o').
Proof. intros [Hc Hg] [Hc' Hg']. split; [by rewrite created_app, Hc, Hc'|by rewrite given_app, Hg, Hg']. Qed.

Lemma quiet_sent x c m : quiet (sent x c m).
Proof. unfold sent. by destruct (sock x). Qed.

Lemma quiet_terminate (b : bool) s : quiet (if b then [] else [TerminateSession s]).
Proof. by destruct b. Qed.

Lemma quiet_nil : quiet [].
Proof. done. Qed.

#[local] Hint Resolve quiet_sent quiet_terminate quiet_nil quiet_app : core.

Lemma gives_app s m o o' : quiet o → gives s m o' → gives s m (o ++ o').
Proof. intros [Hc Hg] [Hc' Hg']. unfold gives. by rewrite created_app, given_app, Hc, Hg. Qed.

Lemma begins_gives s m x o : begins s m x o → gives s m o.
Proof.
  intros [(o' & -> & Ho)|[[->|[-> _]] Ht]]; [|split; [done|by right]..].
  assert (quiet o') as [Hc Hg].
  { clear -Ho. induction o' as [|a o' IH]; [done|]. apply (quiet_app [a]); [|apply IH; intros b Hb; apply Ho; by right].
    by destruct (Ho a) as (? & ? & ->); [left|]. }
  split; [exact Hc|]. left. change (given (HandleMessage s m :: o')) with ((s, m) :: given o'). by rewrite Hg.
Qed.

Lemma out_put_same sv s x y s' :
  sessions sv !! s = Some x → outstanding y = outstanding x → out (put sv s y) s' = out sv s'.
Proof.
  intros Hx Hy. unfold out, put. cbn. destruct (decide (s' = s)) as [->|Hne].
  - rewrite lookup_insert_eq, Hx. simpl. by rewrite Hy.
  - by rewrite lookup_insert_ne.
Qed.

Lemma handled_ok s x y : session_ok s x → handled x y → session_ok s y ∧ outstanding y = outstanding x.
Proof.
  intros [Hi Hr Ht Hidle] (_ & Hid & _ & Ha & Hq & Htab & Hterm). split.
  - split; [by rewrite Hid| | |rewrite Ha, Hq; auto].
    + unfold outstanding in *. by rewrite Ha, Hq.
    + rewrite Forall_forall in Ht |- *. intros p Hp. by apply Ht, Htab.
  - unfold outstanding. by rewrite Ha, Hq.
Qed.

(** ** Terminating the sessions of a connection *)

Lemma terminate_loop_spec (ss : list sid) sv Q :
  server_wf sv → Forall (λ s, is_Some (sessions sv !! s)) ss →
  (∀ sv' o, server_wf sv' → quiet o → (∀ s, out sv' s = out sv s) →
     connections sv' = connections sv → Q tt sv' o) →
  wp (terminate_loop terminate_session ss) Q sv.
Proof.
  intros Hwf Hss. revert sv Hwf Hss Q. induction ss as [|s ss IH]; intros sv Hwf Hss Q HQ.
  { apply wp_ret, HQ; by auto. }
  apply Forall_cons_1 in Hss as [[x Hx] Hss]. apply wp_bind.
  eapply terminate_request_spec; [done|]. intros _.
  assert (Hwf' : server_wf (put sv s (x <| terminating := true |>))).
  { eapply wf_put; [done|done|done|]. by destruct (wf_sessions _ Hwf s x Hx) as [[] _]. }
  apply IH; [done| |].
  - eapply Forall_impl; [done|]. intros s' [y Hy]. cbn. destruct (decide (s' = s)) as [->|Hne].
    + rewrite lookup_insert_eq. by eexists.
    + rewrite lookup_insert_ne by done. by eexists.
  - intros sv' o Hwf2 Ho Hout Hconn. apply HQ; [done| | |done].
    + by auto.
    + intros s'. rewrite Hout. by apply (out_put_same sv s x).
Qed.

Lemma close_spec c x sv Q :
  server_wf sv → connections sv !! c = Some x →
  (∀ b sv' o, server_wf sv' → quiet o → (∀ s, out sv' s = out sv s) → Q b sv' o) →
  wp (rtsp_server_connection_close terminate_session c) Q sv.
Proof.
  intros Hwf Hx HQ. eapply wp_bind, wp_connection_at; [done|].
  destruct (sock x) eqn:Hsock; cbn [negb].
  2:{ apply wp_ret, HQ; by auto. }
  apply wp_bind, wp_change, wp_bind, wp_change, wp_bind.
  destruct Hwf as [Hf Ht Hs]. destruct (decide (session_table x = [])) as [He|He].
  - apply wp_change, wp_ret, HQ; [| |done].
    2:{ done. }
    split; cbn; rewrite ?delete_insert_eq.
    + intros i Hi. destruct (Hf i Hi) as [? Hn]. split; [done|]. by rewrite lookup_delete_None; right.
    + intros d y [Hne Hy]%lookup_delete_Some. by apply Ht.
    + intros s y Hy. destruct (Hs s y Hy) as (Hok & z & Hz & Hin). split; [done|].
      exists z. split; [|done]. rewrite lookup_delete_ne; [done|]. intros ->.
      rewrite Hx in Hz. injection Hz as <-. rewrite He in Hin. by apply elem_of_nil in Hin.
  - apply terminate_loop_spec; cbn.
    + split; cbn.
      * intros i Hi. destruct (Hf i Hi) as [? Hn]. split; [done|].
        rewrite lookup_insert_ne; [done|]. intros ->. congruence.
      * intros d y [(<- & <-)|(Hne & Hy)]%lookup_insert_Some; [|by apply Ht].
        destruct (Ht c x Hx) as (? & _ & ?). by split_and!.
      * intros s y Hy. destruct (Hs s y Hy) as (Hok & z & Hz & Hin). split; [done|].
        destruct (decide (connection y = c)) as [<-|Hc].
        -- rewrite Hx in Hz. injection Hz as <-. eexists. rewrite lookup_insert_eq. by split.
        -- exists z. by rewrite lookup_insert_ne.
    + apply Forall_fmap, Forall_forall. intros [k s] Hin. destruct (Ht c x Hx) as (_ & _ & Hk).
      destruct (Hk k s Hin) as (_ & y & Hy & _). by exists y.
    + intros sv' o Hwf' Ho Hout _. apply wp_ret, HQ; [done| |done].
      cbn. by rewrite app_nil_r.
Qed.

(** ** The end of a session *)

Lemma hash_remove_elem {A} (t : list (cstr * A)) k k' (a : A) :
  (k', a) ∈ hash_remove t k ↔ (k', a) ∈ t ∧ k' ≠ k.
Proof. unfold hash_remove. rewrite list_elem_of_filter. simpl. tauto. Qed.

Lemma hash_remove_nodup {A} (t : list (cstr * A)) k : NoDup t.*1 → NoDup (hash_remove t k).*1.
Proof. intros Hn. eapply sublist_NoDup; [exact Hn|]. apply fmap_sublist, sublist_filter. Qed.

(** The session [s] at [x] and its entry are removed; a closed connection without
    sessions goes too. *)
Lemma wf_remove sv s x c :
  server_wf sv → sessions sv !! s = Some x → connections sv !! connection x = Some c →
  let c' := c <| session_table := hash_remove (session_table c) (id_text s) |> in
  let conns :=
    if negb (sock c) && bool_decide (session_table c' = []) then delete (connection x) (connections sv)
    else <[connection x := c']> (connections sv) in
  server_wf (sv <| sessions := delete s (sessions sv) |> <| connections := conns |>).
Proof.
  intros [Hf Ht Hs] Hx Hc c' conns. destruct (Ht _ _ Hc) as (Hnd & Hopen & Hk).
  assert (Hother : ∀ k s', (k, s') ∈ session_table c → s' ≠ s → (k, s') ∈ session_table c').
  { intros k s' Hin Hne. apply hash_remove_elem. split; [done|]. destruct (Hk k s' Hin) as (-> & _).
    intros Heq. apply Hne. destruct (Hs s x Hx) as (_ & c2 & Hc2 & Hin2).
    rewrite Hc in Hc2. injection Hc2 as <-. rewrite Heq in Hin.
    apply list_elem_of_lookup in Hin as [i Hi], Hin2 as [j Hj].
    assert (i = j) as ->; [|congruence].
    eapply NoDup_lookup; [exact Hnd| |]; rewrite list_lookup_fmap; [by rewrite Hi|by rewrite Hj]. }
  assert (Hmine : ∀ k s', (k, s') ∈ session_table c' → s' ≠ s).
  { intros k s' [Hin Hne]%hash_remove_elem ->. destruct (Hk k s Hin) as (-> & _). done. }
  assert (Hconns : ∀ d y, conns !! d = Some y →
    (d = connection x ∧ y = c' ∧ (sock c = false → session_table c' ≠ [])) ∨
    (d ≠ connection x ∧ connections sv !! d = Some y)).
  { intros d y. subst conns. destruct (negb (sock c) && bool_decide (session_table c' = [])) eqn:Hb.
    - intros [Hne Hy]%lookup_delete_Some. right. by split.
    - intros [(<- & <-)|(Hne & Hy)]%lookup_insert_Some; [left|right; by split].
      split_and!; try done. intros Hsock. rewrite Hsock in Hb. simpl in Hb.
      by apply bool_decide_eq_false in Hb. }
  split; cbn.
  - intros i Hi. destruct (Hf i Hi) as [Hi1 Hi2]. split; [by rewrite lookup_delete_None; right|].
    subst conns. destruct (negb _ && _); [by rewrite lookup_delete_None; right|].
    rewrite lookup_insert_ne; [done|]. intros <-. congruence.
  - intros d y Hy. destruct (Hconns d y Hy) as [(-> & -> & Hsock)|(Hne & Hd)].
    + split_and!; [by apply hash_remove_nodup|exact Hsock|]. intros k s' Hin.
      pose proof (Hmine k s' Hin) as Hne. apply hash_remove_elem in Hin as [Hin _].
      destruct (Hk k s' Hin) as (-> & z & Hz & Hcz). split; [done|]. exists z.
      by rewrite lookup_delete_ne.
    + destruct (Ht d y Hd) as (? & ? & Hkd). split_and!; try done. intros k s' Hin.
      destruct (Hkd k s' Hin) as (-> & z & Hz & Hcz). split; [done|]. exists z.
      rewrite lookup_delete_ne; [done|]. intros ->. congruence.
  - intros s' y [Hne Hy]%lookup_delete_Some. destruct (Hs s' y Hy) as (Hok & z & Hz & Hin). split; [done|].
    destruct (decide (connection y = connection x)) as [Heq|Hneq].
    + rewrite Heq in Hz |- *. rewrite Hc in Hz. injection Hz as <-.
      pose proof (Hother _ _ Hin ltac:(congruence)) as Hin'. exists c'. split; [|done].
      subst conns. destruct (session_table c') as [|e t] eqn:Het; [by apply elem_of_nil in Hin'|].
      rewrite bool_decide_eq_false_2 by done. rewrite andb_false_r. apply lookup_insert_eq.
    + exists z. split; [|done]. subst conns. destruct (negb _ && _);
        [by rewrite lookup_delete_ne|by rewrite lookup_insert_ne].
Qed.

Lemma do_terminate_spec s x sv Q :
  server_wf sv → sessions sv !! s = Some x →
  (∀ sv' o, server_wf sv' → quiet o → sessions sv' = delete s (sessions sv) → next sv' = next sv →
     Q tt sv' o) →
  wp (rtsp_server_session_do_terminate junk junk_version s) Q sv.
Proof.
  intros Hwf Hx HQ. destruct (wf_sessions _ Hwf s x Hx) as ([Hid _ _ _] & c & Hc & Hin).
  eapply wp_bind, wp_session_at; [done|]. apply wp_bind.
  assert (Hsend : ∀ Q, (∀ o, quiet o → Q tt sv o) →
    wp (match active_request x with
        | Some request =>
            response ← try (rtsp_response_create junk request RTSP_STATUS_CODE_OK
                              RTSP_REASON_PHRASE_OK junk_version);
            response ← try (with_session_id response (s_id x));
            rtsp_server_message_send (connection x) response
        | None => mret tt
        end) Q sv).
  { intros Q' HQ'. destruct (active_request x) as [request|].
    2:{ apply wp_ret, HQ'; by auto. }
    destruct (response_create_total junk request RTSP_STATUS_CODE_OK RTSP_REASON_PHRASE_OK junk_version)
      as (r & Hr & Hrwf).
    destruct (with_session_id_total r (s_id x) Hrwf) as (r' & Hr' & _).
    eapply wp_bind, wp_try; [done|]. eapply wp_bind, wp_try; [done|].
    eapply send_spec; [done|]. apply HQ', quiet_sent. }
  apply Hsend. intros o Ho. eapply wp_bind, wp_connection_at; [done|].
  apply wp_bind, wp_change, wp_bind, wp_change. eapply wp_bind, wp_connection_at; [apply lookup_insert_eq|].
  pose proof (wf_remove sv s x c Hwf Hx Hc) as Hwf'. rewrite Hid. fold (id_text s). cbn [sock session_table].
  set (c' := c <| session_table := _ |>) in *. cbn [sock session_table] in Hwf'.
  change (sock c') with (sock c).
  destruct (negb (sock c) && bool_decide (session_table c' = [])); cbn in *.
  - apply wp_change, HQ; [|by rewrite app_nil_r|done|done]. cbn. by rewrite delete_insert_eq.
  - apply wp_ret, HQ; [done|by rewrite app_nil_r|done|done].
Qed.

(** ** New sessions *)

(** The identifier of the next session is not in use. *)
Definition id_unused (sv : rtsp_server_t) : Prop :=
  ∀ s, is_Some (sessions sv !! s) → id_text s ≠ id_text (next sv).

(** The next session, on the connection [c]. *)
Definition new_session (sv : rtsp_server_t) (c : cid) : rtsp_server_session_t :=
  mk_rtsp_session c (new_id (next sv)) 0 None [] [] false.

(** [sv] with that session. *)
Definition with_new_session (sv : rtsp_server_t) (c : cid) (x : rtsp_server_connection_t) : rtsp_server_t :=
  let table := hash_set (session_table x) (id_text (next sv)) (next sv) in
  sv <| next := S (next sv) |> <| sessions := <[next sv := new_session sv c]> (sessions sv) |>
     <| connections := <[c := x <| session_table := table |>]> (connections sv) |>.

Lemma wf_next sv : server_wf sv → server_wf (sv <| next := S (next sv) |>).
Proof. intros [Hf Ht Hs]. split; cbn; [|done|done]. intros i Hi. apply Hf. lia. Qed.

Lemma wf_new sv c x :
  server_wf sv → connections sv !! c = Some x → id_unused sv → server_wf (with_new_session sv c x).
Proof.
  intros [Hf Ht Hs] Hx Hid. destruct (Hf (next sv) ltac:(lia)) as [Hns Hnc].
  destruct (Ht c x Hx) as (Hnd & Hopen & Hk).
  assert (Hfree : ∀ s, (id_text (next sv), s) ∉ session_table x).
  { intros s Hin. destruct (Hk _ _ Hin) as (He & y & Hy & _). by apply (Hid s); [exists y|]. }
  assert (Hrem : hash_remove (session_table x) (id_text (next sv)) = session_table x).
  { unfold hash_remove. clear -Hfree. induction (session_table x) as [|[k s] t IH]; [done|].
    rewrite filter_cons_True.
    - by rewrite IH by (intros s' Hin; apply (Hfree s'); by right).
    - simpl. intros ->. apply (Hfree s). left. }
  unfold with_new_session. cbv zeta. unfold hash_set. rewrite Hrem.
  split; cbn.
  - intros i Hi. destruct (Hf i ltac:(lia)) as [Hi1 Hi2]. split.
    + rewrite lookup_insert_ne by lia. done.
    + rewrite lookup_insert_ne; [done|]. intros Heq. congruence.
  - intros d y [(<- & <-)|(Hne & Hy)]%lookup_insert_Some.
    + cbn. split_and!; [|done|].
      * apply NoDup_cons. split; [|done]. intros ([k s] & He & Hin)%list_elem_of_fmap.
        simpl in He. subst k. by apply (Hfree s).
      * intros k s [[= -> ->]|Hin]%elem_of_cons.
        -- split; [done|]. eexists. rewrite lookup_insert_eq. by split.
        -- destruct (Hk k s Hin) as (-> & z & Hz & Hcz). split; [done|]. exists z.
           rewrite lookup_insert_ne; [done|]. intros Heq. congruence.
    + destruct (Ht d y Hy) as (? & ? & Hkd). split_and!; try done. intros k s Hin.
      destruct (Hkd k s Hin) as (-> & z & Hz & Hcz). split; [done|]. exists z.
      rewrite lookup_insert_ne; [done|]. intros Heq. congruence.
  - intros s y [(<- & <-)|(Hne & Hy)]%lookup_insert_Some.
    + split; [by split; [|constructor|constructor|]|]. eexists. cbn. rewrite lookup_insert_eq.
      split; [done|]. left.
    + destruct (Hs s y Hy) as (Hok & z & Hz & Hin). split; [done|].
      destruct (decide (connection y = c)) as [<-|Hneq].
      * rewrite Hx in Hz. injection Hz as <-. eexists. rewrite lookup_insert_eq. split; [done|].
        by right.
      * exists z. by rewrite lookup_insert_ne.
Qed.

Lemma setup_spec c x sv Q :
  connections sv !! c = Some x →
  (create_session (next sv) = true →
     Q (Some (next sv)) (with_new_session sv c x) [CreateSession (next sv)]) →
  (create_session (next sv) = false →
     Q None (sv <| next := S (next sv) |>) [CreateSession (next sv)]) →
  wp (rtsp_server_session_setup_process create_session uuid c) Q sv.
Proof.
  intros Hx Hyes Hno. apply wp_bind, wp_bind, wp_ask, wp_bind, wp_change, wp_bind, wp_emit.
  destruct (create_session (next sv)).
  - apply wp_bind, wp_change, wp_ret. cbn. eapply wp_bind, wp_session_at; [apply lookup_insert_eq|].
    eapply wp_bind, wp_connection_at; [done|]. apply wp_bind, wp_change, wp_ret. by apply Hyes.
  - apply wp_ret. cbn. apply wp_ret. by apply Hno.
Qed.

(** ** Requests *)

(** The session a request of the connection [c] is for. *)
Definition accepted (sv : rtsp_server_t) (c : cid) (m : rtsp_message_t) : option sid :=
  match rtsp_start_line m with
  | RTSP_MESSAGE_TYPE_REQUEST r =>
      if rtsp_header_property_check (rtsp_header m) RTSP_HEADER_FIELD_SESSION_ID then
        x ← connections sv !! c;
        s ← hash_get (session_table x) (chars (rtsp_session_id (rtsp_header m)));
        y ← sessions sv !! s;
        if terminating y then None else Some s
      else if decide ((rl_method_id r = RTSP_METHOD_SETUP ∨ rl_method_id r = RTSP_METHOD_DESCRIBE) ∧
                      online sv = true ∧ create_session (next sv) = true)
           then Some (next sv) else None
  | _ => None
  end.

Definition accept_label (t : option sid) (m : rtsp_message_t) : service_label :=
  match t with Some s => LAccept s m | None => LNone end.

(** What a client may send: a request names a resource, and the identifier of a
    new session is not in use. *)
Definition message_ok (sv : rtsp_server_t) (m : rtsp_message_t) : Prop :=
  match rtsp_start_line m with RTSP_MESSAGE_TYPE_REQUEST r => is_Some (rl_resource_name r) | _ => True end ∧
  (rtsp_header_property_check (rtsp_header m) RTSP_HEADER_FIELD_SESSION_ID = false → id_unused sv).

(** The agent takes the new session but refuses its first request. *)
Definition first_refused (sv : rtsp_server_t) (c : cid) (m : rtsp_message_t) : Prop :=
  rtsp_header_property_check (rtsp_header m) RTSP_HEADER_FIELD_SESSION_ID = false ∧
  accepted sv c m = Some (next sv) ∧ handle_message (next sv) m = false.

#[global] Instance first_refused_dec sv c m : Decision (first_refused sv c m).
Proof. apply _. Defined.

(** The sessions that the agent takes are new. *)
Definition creates (sv sv' : rtsp_server_t) (o : list rtsp_action) : Prop :=
  ∀ s, s ∈ created o → create_session s = true → sessions sv !! s = None ∧ is_Some (sessions sv' !! s).

Lemma creates_gives s m sv sv' o : gives s m o → creates sv sv' o.
Proof. intros [Hc _] s' Hs. rewrite Hc in Hs. by apply elem_of_nil in Hs. Qed.

Lemma creates_quiet sv sv' o : quiet o → creates sv sv' o.
Proof. intros [Hc _] s' Hs. rewrite Hc in Hs. by apply elem_of_nil in Hs. Qed.

Lemma serves_quiet sv sv' o :
  quiet o → (∀ s, out sv' s = out sv s) → service_step (out sv) LNone (given o) (out sv').
Proof. intros [_ ->]. by constructor. Qed.

#[local] Hint Resolve creates_quiet serves_quiet creates_gives : core.

(** Handling the request that a session works on. *)
Lemma activate_handle_spec {A} s x c m (k : bool → op A) sv Q :
  server_wf sv → sessions sv !! s = Some x → connections sv !! connection x = Some c → request_ok m →
  active_request x = None → request_queue x = [] →
  (∀ b sv' o, server_wf sv' → gives s m o → accepts s m b →
     (∀ s', out sv' s' = if decide (s' = s) then Some [m] else out sv s') → next sv' = next sv →
     wp (k b) (λ a sv'' o', Q a sv'' (o ++ o')) sv') →
  wp (session_activate s (Some m);;
      b ← rtsp_server_session_message_handle junk junk_version handle_message terminate_session s m; k b) Q sv.
Proof.
  intros Hwf Hx Hc Hm Ha Hq HQ. apply wp_bind. eapply wp_bind, wp_session_at; [done|]. apply wp_change.
  fold (put sv s (x <| active_request := Some m |>)). set (x1 := x <| active_request := Some m |>).
  assert (Hx1 : session_ok s x1).
  { destruct (wf_sessions _ Hwf s x Hx) as ([Hi Hr Ht _] & _). split; [done| |done|done].
    unfold outstanding. cbn. rewrite Hq. by constructor. }
  apply wp_bind. eapply (message_handle_spec s x1 c); [apply put_at|done|done|]. intros b y o Hy Ho Hb.
  destruct (handled_ok s x1 y Hx1 Hy) as [Hyok Hyout]. rewrite put_put. cbn [app].
  apply HQ; [| |done| |done].
  - eapply wf_put; [done|done|apply Hy|done].
  - by eapply begins_gives.
  - intros s'. unfold out, put. cbn. destruct (decide (s' = s)) as [->|Hne].
    + rewrite lookup_insert_eq. simpl. rewrite Hyout. unfold outstanding. cbn. by rewrite Hq.
    + by rewrite lookup_insert_ne.
Qed.

Lemma hash_get_Some {A} (t : list (cstr * A)) k (a : A) : hash_get t k = Some a → (k, a) ∈ t.
Proof.
  unfold hash_get. destruct (list_find _ _) as [[i [k' a']]|] eqn:E; [|done]. simpl. intros [= ->].
  apply list_find_Some in E as (Hi & Hk & _). simpl in Hk. subst k'. by eapply list_elem_of_lookup_2.
Qed.

(** A refusal changes nothing. *)
Lemma refuse_spec c x m code reason sv (Q : unit → rtsp_server_t → list rtsp_action → Prop) :
  connections sv !! c = Some x → (∀ o, quiet o → Q tt sv o) →
  wp (rtsp_server_error_respond junk junk_version c m code reason) Q sv.
Proof. intros Hc HQ. eapply error_respond_spec; [done|]. intros r _. apply HQ, quiet_sent. Qed.

Lemma new_request_spec c x m r sv Q :
  server_wf sv → connections sv !! c = Some x → id_unused sv → rtsp_start_line m = RTSP_MESSAGE_TYPE_REQUEST r →
  is_Some (rl_resource_name r) →
  (create_session (next sv) = true → handle_message (next sv) m = true) →
  (∀ sv' o, server_wf sv' → creates sv sv' o →
     service_step (out sv) (accept_label (if create_session (next sv) then Some (next sv) else None) m)
       (given o) (out sv') → Q tt sv' o) →
  wp (s ← rtsp_server_session_setup_process create_session uuid c;
      new_session_request junk junk_version handle_message terminate_session c m s) Q sv.
Proof.
  intros Hwf Hx Hid Hr Hn Hh HQ. destruct (wf_fresh _ Hwf (next sv) ltac:(lia)) as [Hns Hnc].
  apply wp_bind. eapply setup_spec; [done|..]; intros Hcr; rewrite Hcr in HQ; unfold new_session_request.
  - set (sv1 := with_new_session sv c x). pose proof (wf_new sv c x Hwf Hx Hid) as Hwf1.
    assert (Hout1 : ∀ s, s ≠ next sv → out sv1 s = out sv s).
    { intros s Hne. unfold out, sv1, with_new_session. cbn. by rewrite lookup_insert_ne. }
    eapply (activate_handle_spec (next sv) (new_session sv c)); [done|apply lookup_insert_eq|apply lookup_insert_eq|
      by exists r|done|done|].
    intros b sv' o Hwf' Ho Hb Hout _. assert (b = true) as -> by (destruct Hb as [->|[-> _]]; auto). apply wp_ret.
    pose proof (Hout (next sv)) as Hnew. rewrite decide_True in Hnew by done.
    apply HQ; [done|rewrite app_nil_r..].
    + intros s Hs Hcs. change (s ∈ next sv :: created o) in Hs. rewrite (proj1 Ho) in Hs.
      apply list_elem_of_singleton in Hs as ->. split; [done|]. unfold out in Hnew. by apply fmap_Some in Hnew as (y & -> & _).
    + apply serve_first; [unfold out; by rewrite Hns| |apply Ho]. intros s. rewrite Hout. unfold update.
      destruct (decide (s = next sv)); [done|by apply Hout1].
  - eapply refuse_spec; [done|]. intros o Ho. apply HQ; [by apply wf_next|intros s Hs|by apply (serves_quiet sv _ o)].
    change (s ∈ next sv :: created o) in Hs. rewrite (proj1 Ho) in Hs.
    apply list_elem_of_singleton in Hs as ->. congruence.
Qed.

Lemma request_spec c x m sv Q :
  server_wf sv → connections sv !! c = Some x → message_ok sv m → ¬ first_refused sv c m →
  (∀ sv' o, server_wf sv' → creates sv sv' o →
     service_step (out sv) (accept_label (accepted sv c m) m) (given o) (out sv') → Q tt sv' o) →
  wp (rtsp_server_session_request_process junk junk_version create_session handle_message
        terminate_session uuid c m) Q sv.
Proof.
  intros Hwf Hx [Hname Hfirst] Hnr HQ. unfold rtsp_server_session_request_process, first_refused, accepted in *.
  assert (Hrefuse : ∀ code reason,
    (∀ sv' o, server_wf sv' → creates sv sv' o → service_step (out sv) LNone (given o) (out sv') → Q tt sv' o) →
    wp (rtsp_server_error_respond junk junk_version c m code reason) Q sv).
  { intros code reason HQ'. eapply refuse_spec; [done|]. intros o Ho. apply HQ'; by auto. }
  destruct (rtsp_start_line m) as [|r|st] eqn:Hsl.
  1,3: apply wp_ret, HQ; by auto.
  destruct (rtsp_header_property_check (rtsp_header m) RTSP_HEADER_FIELD_SESSION_ID) eqn:Hsess; cbn [negb].
  - rewrite Hx in HQ. cbn [mbind option_bind] in HQ. eapply wp_bind, wp_connection_at; [done|].
    destruct (hash_get (session_table x) (chars (rtsp_session_id (rtsp_header m)))) as [s|] eqn:Hget;
      cbn [mbind option_bind] in HQ; [|by apply Hrefuse].
    apply hash_get_Some in Hget. destruct (wf_tables _ Hwf c x Hx) as (_ & _ & Hk).
    destruct (Hk _ _ Hget) as (_ & y & Hy & Hcy). rewrite Hy in HQ. cbn [mbind option_bind] in HQ.
    eapply wp_bind, wp_session_at; [done|]. destruct (terminating y) eqn:Hterm; [by apply Hrefuse|].
    destruct (wf_sessions _ Hwf s y Hy) as ([Hi Hr Ht Hidle] & _).
    assert (Hm : request_ok m) by (by exists r).
    destruct (active_request y) as [q|] eqn:Hact.
    + apply wp_change. fold (put sv s (y <| request_queue := apt_list_push_back (request_queue y) m |>)).
      set (y1 := y <| request_queue := _ |>).
      assert (Hout1 : outstanding y1 = outstanding y ++ [m]).
      { unfold outstanding, y1, apt_list_push_back. cbn. by rewrite <- app_assoc. }
      apply HQ; [|by auto|].
      * eapply wf_put; [done|done|done|]. split; [done| |done|].
        -- rewrite Hout1. apply Forall_app. split; [done|by apply Forall_singleton].
        -- cbn. by rewrite Hact.
      * eapply serve_later with (q := outstanding y).
        -- unfold out. by rewrite Hy.
        -- unfold outstanding. by rewrite Hact.
        -- intros s'. unfold out, put, update. cbn. destruct (decide (s' = s)) as [->|Hne].
           ++ rewrite lookup_insert_eq. simpl. by rewrite Hout1.
           ++ by rewrite lookup_insert_ne.
    + eapply (activate_handle_spec s y x m (λ _, mret tt)); [done|done|by rewrite Hcy|done|done|by apply Hidle|].
      intros b sv' o Hwf' Ho _ Hout _. apply wp_ret, HQ; [done|rewrite app_nil_r..]; [by eauto|].
      apply serve_first; [|exact Hout|apply Ho]. unfold out. rewrite Hy. simpl. unfold outstanding.
      by rewrite Hact, Hidle.
  - destruct (decide (rl_method_id r = RTSP_METHOD_SETUP ∨ rl_method_id r = RTSP_METHOD_DESCRIBE)) as [Hmeth|Hmeth].
    + apply wp_bind, wp_ask. destruct (online sv) eqn:Hup; cbn [negb].
      * eapply (new_request_spec c x m r); try done; [by apply Hfirst| |].
        { intros Hcr. apply not_false_is_true. intros Hh. apply Hnr. by rewrite decide_True by done. }
        intros sv' o Hwf' Hcr Hsv. apply HQ; [done..|].
        destruct (create_session (next sv)); [by rewrite decide_True|by rewrite decide_False by naive_solver].
      * rewrite decide_False in HQ by naive_solver. by apply Hrefuse.
    + rewrite decide_False in HQ by naive_solver.
      destruct (decide (rl_method_id r = RTSP_METHOD_OPTIONS)); by apply Hrefuse.
Qed.

(** ** Messages of the agent *)

(** What a message [m] of the agent means to the session [s] at [x]: a response
    answers the first request. *)
Definition answer_label (s : sid) (x : rtsp_server_session_t) (m : rtsp_message_t) : service_label :=
  match rtsp_start_line m, active_request x with
  | RTSP_MESSAGE_TYPE_REQUEST _, _ | _, None => LNone
  | _, Some _ => LAnswer s
  end.

Lemma announce_spec s x r m sv Q :
  server_wf sv → sessions sv !! s = Some x → header_wf (rtsp_header m) →
  (∀ b o, quiet o → Q b sv o) → wp (session_announce s r m) Q sv.
Proof.
  intros Hwf Hx Hm HQ. destruct (wf_sessions _ Hwf s x Hx) as ([_ _ Ht _] & c & Hc & _).
  eapply wp_bind, wp_session_at; [done|].
  destruct (rl_resource_name r ≫= hash_get (resource_table x)) as [q|] eqn:Hq.
  2:{ apply wp_ret, HQ; by auto. }
  apply bind_Some in Hq as (name & _ & Hq%hash_get_Some).
  rewrite Forall_forall in Ht. destruct (Ht _ Hq) as (l & Hl & _).
  eapply wp_bind, wp_request_line; [done|]. cbv beta zeta.
  match goal with |- context [rtsp_header_property_add ?h ?i] =>
    destruct (property_add_total h i) as (ok & hs & Hadd & Hhs); [exact Hm|by left|] end.
  eapply wp_bind, wp_try; [exact Hadd|]. cbv beta iota zeta.
  match goal with |- context [with_session_id ?m' ?i] =>
    destruct (with_session_id_total m' i) as (m2 & Hm2 & _); [exact Hhs|] end.
  eapply wp_bind, wp_try; [exact Hm2|]. eapply wp_bind, send_spec; [done|].
  apply wp_ret, HQ. rewrite app_nil_r. apply quiet_sent.
Qed.

Lemma response_prepare_total s x request q m :
  session_ok s x → request_ok request → rtsp_start_line request = RTSP_MESSAGE_TYPE_REQUEST q →
  header_wf (rtsp_header m) →
  ∃ m' t b, response_prepare junk_status x request q m = Ok (m', t, b) ∧
    Forall (λ p, request_ok p.2) t ∧ (b = true → may_end request).
Proof.
  intros [_ _ Ht _] Hreq Hq Hm. unfold response_prepare, may_end, request_method. rewrite Hq.
  case_decide as Hd.
  { eexists _, _, _. split_and!; [done..|]. rewrite Hd. by right. }
  destruct (with_session_id_total m (s_id x) Hm) as (m' & -> & _ & Hsl & Hcs). cbn [mbind res_bind].
  case_decide as Hs; [rewrite Hs|eexists _, _, _; by split_and!].
  case_decide; [|eexists _, _, _; split_and!; [done..|by left]].
  destruct Hreq as (r & Hr & name & Hn). rewrite Hq in Hr. injection Hr as ->. rewrite Hn.
  cbn [deref mbind res_bind]. eexists _, _, _. split_and!; [done| |done].
  unfold hash_set. constructor; [exists r; split; [done|by exists name]|].
  rewrite Forall_forall in Ht |- *. intros p Hp. apply Ht. by apply list_elem_of_filter in Hp as [_ ?].
Qed.

(** The session [x] once the first request is answered: it ends, or works on the
    next request. *)
Lemma next_request_ok s x request (t : list (cstr * rtsp_message_t)) (n : Z) :
  session_ok s x → outstanding x = request :: request_queue x → Forall (λ p, request_ok p.2) t →
  let x1 := x <| resource_table := t |> <| last_cseq := n |> in
  session_ok s (x1 <| active_request := None |> <| terminating := true |>) ∧
  session_ok s (x1 <| active_request := head (request_queue x) |> <| request_queue := tail (request_queue x) |>).
Proof.
  intros [Hi Hr _ _] Hout Ht. rewrite Hout in Hr. apply Forall_cons_1 in Hr as [_ Hr].
  split; split; try done; cbn.
  - by destruct (request_queue x).
  - by destruct (request_queue x).
Qed.

(** Both have the requests that remain. *)
Lemma wf_answer sv s x y :
  server_wf sv → sessions sv !! s = Some x → connection y = connection x → session_ok s y →
  outstanding y = request_queue x →
  server_wf (put sv s y) ∧
  ∀ s', out (put sv s y) s' = update (out sv) s (Some (request_queue x)) s'.
Proof.
  intros Hwf Hx Hc Hy Hout. split; [by eapply wf_put|]. intros s'. unfold out, put, update. cbn.
  destruct (decide (s' = s)) as [->|]; [|by rewrite lookup_insert_ne].
  rewrite lookup_insert_eq. simpl. by rewrite Hout.
Qed.

Lemma response_process_spec s x c m request sv Q :
  server_wf sv → sessions sv !! s = Some x → connections sv !! connection x = Some c →
  header_wf (rtsp_header m) → active_request x = Some request →
  (∀ b sv' o, server_wf sv' → creates sv sv' o → service_step (out sv) (LAnswer s) (given o) (out sv') →
     Q b sv' o) →
  wp (response_process junk junk_version junk_status handle_message terminate_session s m) Q sv.
Proof.
  intros Hwf Hx Hc Hm Hact HQ. destruct (wf_sessions _ Hwf s x Hx) as (Hok & _).
  assert (Hout : outstanding x = request :: request_queue x) by (unfold outstanding; by rewrite Hact).
  pose proof (so_requests _ _ Hok) as Hr. rewrite Hout in Hr. apply Forall_cons_1 in Hr as [Hreq Hrest].
  eapply wp_bind, wp_session_at; [done|]. rewrite Hact.
  pose proof Hreq as (q & Hq & _). eapply wp_bind, wp_request_line; [exact Hq|].
  destruct (response_prepare_total s x request q m Hok Hreq Hq Hm) as (m' & t & b & Hp & Hts & Hend).
  eapply wp_bind, wp_try; [exact Hp|]. apply wp_bind, wp_change.
  destruct (next_request_ok s x request t (cseq (rtsp_header m')) Hok Hout Hts) as [Hdone Hnext].
  set (x1 := x <| resource_table := t |> <| last_cseq := _ |>) in *. fold (put sv s x1).
  assert (Hxo : out sv s = Some (request :: request_queue x)) by (unfold out; rewrite Hx; simpl; by rewrite Hout).
  eapply wp_bind, send_spec; [exact Hc|]. destruct b.
  - apply wp_bind. eapply wp_bind, wp_session_at; [apply put_at|]. apply wp_change.
    fold (put (put sv s x1) s (x1 <| active_request := None |>)). rewrite put_put.
    eapply wp_bind, terminate_request_spec; [apply put_at|]. intros b. rewrite put_put.
    edestruct (wf_answer sv s x) as [Hwf' Hout']; [done|done| |exact Hdone|done|]; [done|].
    assert (Ho : quiet (sent c (connection x) m' ++ (if terminating x then [] else [TerminateSession s]) ++ []))
      by auto.
    apply wp_ret, HQ; [exact Hwf'|by apply creates_quiet|].
    eapply serve_answer; [exact Hxo|exact Hout'|]. right. split; [apply Ho|by apply Hend].
  - eapply wp_bind, wp_session_at; [apply put_at|]. cbn [request_queue].
    assert (Hpop : apt_list_pop_front (request_queue x1) = (head (request_queue x), tail (request_queue x)))
      by (subst x1; cbn; by destruct (request_queue x)).
    rewrite Hpop. apply wp_bind, wp_change. set (x2 := x1 <| active_request := _ |> <| request_queue := _ |>) in *.
    fold (put (put sv s x1) s x2). rewrite put_put.
    assert (Hx2 : outstanding x2 = request_queue x) by (unfold outstanding; cbn; by destruct (request_queue x)).
    destruct (request_queue x) as [|r rest] eqn:Hqueue; cbn [head].
    + edestruct (wf_answer sv s x x2) as [Hwf' Hout']; [done|done|done|exact Hnext|by rewrite Hqueue|].
      rewrite Hqueue in Hout'. assert (Ho : quiet (sent c (connection x) m' ++ [])) by auto.
      apply wp_ret, HQ; [exact Hwf'|by apply creates_quiet|].
      eapply serve_answer; [exact Hxo|exact Hout'|]. left. apply Ho.
    + eapply wp_bind, message_handle_spec; [apply put_at|exact Hc|by apply Forall_cons_1 in Hrest as [? _]|].
      intros b y o Hy Ho _. destruct (handled_ok s x2 y Hnext Hy) as [Hyok Hyout]. rewrite put_put.
      edestruct (wf_answer sv s x y) as [Hwf' Hout']; [done|done|apply Hy|done|by rewrite Hyout, Hqueue|].
      rewrite Hqueue in Hout'.
      assert (Hg : gives s r (sent c (connection x) m' ++ o)).
      { apply gives_app; [apply quiet_sent|by eapply begins_gives]. }
      apply wp_ret, HQ; [exact Hwf'|cbn [app]; rewrite app_nil_r..]; [by eauto|].
      eapply serve_answer; [exact Hxo|exact Hout'|]. left. apply Hg.
Qed.

Lemma response_spec s x c m sv Q :
  server_wf sv → sessions sv !! s = Some x → connections sv !! connection x = Some c →
  header_wf (rtsp_header m) →
  (∀ b sv' o, server_wf sv' → creates sv sv' o →
     service_step (out sv) (answer_label s x m) (given o) (out sv') → Q b sv' o) →
  wp (rtsp_server_session_response_process junk junk_version junk_status handle_message terminate_session s m) Q sv.
Proof.
  intros Hwf Hx Hc Hm HQ. unfold rtsp_server_session_response_process, answer_label in *.
  assert (Hresponse :
    (∀ b sv' o, server_wf sv' → creates sv sv' o →
       service_step (out sv) (if active_request x then LAnswer s else LNone) (given o) (out sv') → Q b sv' o) →
    wp (response_process junk junk_version junk_status handle_message terminate_session s m) Q sv).
  { destruct (active_request x) as [request|] eqn:Hact; intros HQ'.
    - by eapply response_process_spec.
    - eapply wp_bind, wp_session_at; [done|]. rewrite Hact. apply wp_ret, HQ'; by auto. }
  destruct (rtsp_start_line m) as [|r|st] eqn:Hsl.
  1,3: apply Hresponse; by destruct (active_request x).
  eapply announce_spec; [done..|]. intros b o Ho. apply HQ; by auto.
Qed.

(** ** Connections and tasks *)

Lemma handler_spec c x m sv Q :
  server_wf sv → connections sv !! c = Some x → message_ok sv (destination_set x m) →
  ¬ first_refused sv c (destination_set x m) →
  (∀ sv' o, server_wf sv' → creates sv sv' o →
     service_step (out sv) (accept_label (accepted sv c (destination_set x m)) (destination_set x m))
       (given o) (out sv') → Q tt sv' o) →
  wp (rtsp_server_message_handler junk junk_version create_session handle_message terminate_session uuid
        c (Some m) APT_MESSAGE_STATUS_COMPLETE) Q sv.
Proof.
  intros Hwf Hx Hm Hnr HQ. eapply wp_bind, wp_connection_at; [done|]. by eapply request_spec.
Qed.

Lemma accept_spec sv Q :
  server_wf sv →
  (∀ sv', server_wf sv' → sessions sv' = sessions sv → Q tt sv' []) →
  wp (rtsp_server_connection_accept remote_ip) Q sv.
Proof.
  intros Hwf HQ. apply wp_bind, wp_ask, wp_bind, wp_change, wp_bind, wp_change, wp_change. apply HQ; [|done].
  destruct Hwf as [Hf Ht Hs]. destruct (Hf (next sv) ltac:(lia)) as [Hns Hnc]. split; cbn.
  - intros i Hi. destruct (Hf i ltac:(lia)) as [? ?]. split; [done|]. by rewrite lookup_insert_ne by lia.
  - intros d y [(<- & <-)|(Hne & Hy)]%lookup_insert_Some; [|by apply Ht].
    split_and!; [constructor|done|]. intros k s Hin. by apply elem_of_nil in Hin.
  - intros s y Hy. destruct (Hs s y Hy) as (Hok & z & Hz & Hin). split; [done|].
    exists z. rewrite lookup_insert_ne; [done|]. intros Heq. congruence.
Qed.

(** The session a task message is for. *)
Definition task_session (t : task_msg_data_t) : sid :=
  match t with
  | TASK_MSG_SEND_MESSAGE s _ | TASK_MSG_TERMINATE_SESSION s | TASK_MSG_RELEASE_SESSION s => s
  end.

(** The messages of the agent have a header. *)
Definition task_ok (t : task_msg_data_t) : Prop :=
  match t with TASK_MSG_SEND_MESSAGE _ m => header_wf (rtsp_header m) | _ => True end.

Definition task_label (x : rtsp_server_session_t) (t : task_msg_data_t) : service_label :=
  match t with
  | TASK_MSG_SEND_MESSAGE s m => answer_label s x m
  | TASK_MSG_TERMINATE_SESSION s => LEnd s
  | TASK_MSG_RELEASE_SESSION s => LNone
  end.

Lemma task_spec t x sv Q :
  server_wf sv → sessions sv !! task_session t = Some x → task_ok t →
  (∀ sv' o, server_wf sv' → creates sv sv' o →
     service_step (out sv) (task_label x t) (given o) (out sv') → Q tt sv' o) →
  wp (rtsp_server_task_msg_process junk junk_version junk_status handle_message terminate_session t) Q sv.
Proof.
  intros Hwf Hx Ht HQ. destruct (wf_sessions _ Hwf _ x Hx) as (Hok & c & Hc & _).
  destruct t as [s m|s|s]; cbn [task_session task_ok task_label] in *.
  - eapply wp_bind, response_spec; [done..|]. intros b sv' o ???. apply wp_ret.
    rewrite app_nil_r. by apply HQ.
  - eapply do_terminate_spec; [done..|]. intros sv' o ? Ho Hs _. apply HQ; [by auto..|].
    rewrite (proj2 Ho). constructor. intros s'. unfold out, update. rewrite Hs.
    destruct (decide (s' = s)) as [->|]; [by rewrite lookup_delete_eq|by rewrite lookup_delete_ne].
  - eapply wp_bind, terminate_request_spec; [done|]. intros b. apply wp_ret. apply HQ; [|by auto|].
    + eapply wf_put; [done..|]. by destruct Hok.
    + apply serves_quiet; [by auto|]. intros s'. by apply (out_put_same sv s x).
Qed.

End Specs.
