(* ===== verification/RtspSystem.v ===== *)
(** * RtspSystem: the RTSP server with its clients and its agent.

    A run is a sequence of what can happen to the server: connections are opened
    and closed, requests arrive, the agent signals, and the task takes a signal
    from its queue.  Whatever the order, the server uses only sessions and
    connections that exist; what it does to the requests of its sessions is what
    a queue for each session does, and the agent is given the requests of a
    session one at a time, in the order of their arrival. *)
From S2P Require Import Prelude CString TextStream HeaderSection TextMessage TextMessageTheory RecordUpdate Operation.
From S2P Require Import RtspStartLine RtspHeader RtspMessage RtspServer RtspServerTheory.
From stdpp Require Import gmap.

(** ** The server in its surroundings *)

(** [held]: the sessions the agent was told of and has not terminated. *)
Record rtsp_system := mk_system {
  server : rtsp_server_t;
  tasks : list task_msg_data_t;
  held : gset sid
}.

Inductive rtsp_event :=
  | EAccept
  | EMessage (c : cid) (m : rtsp_message_t)
  | EClose (c : cid)
  | ETask
  | ERespond (s : sid) (m : rtsp_message_t)
  | ETerminate (s : sid)
  | ERelease (s : sid)
  | EOnline (b : bool).

Section System.
  Context `{AprFormat} (junk : nat) (junk_version : rtsp_version_e) (junk_status : Z).
  Context (create_session : sid → bool) (handle_message : sid → rtsp_message_t → bool).
  Context (terminate_session : sid → bool) (uuid : sid → list Z) (remote_ip : cid → option apt_str_t).

(** An operation of the task; the agent holds the sessions it took. *)
Definition run_op {A} (m : op A) (sy : rtsp_system) : res (rtsp_system * list rtsp_action) :=
  '(_, sv, o) ← m (server sy);
  Ok (mk_system sv (tasks sy)
        (held sy ∪ list_to_set (filter (λ s, create_session s = true) (created o))), o).

Definition system_step (e : rtsp_event) (sy : rtsp_system) : res (rtsp_system * list rtsp_action) :=
  match e with
  | EAccept => run_op (rtsp_server_connection_accept remote_ip) sy
  | EMessage c m =>
      run_op (rtsp_server_message_handler junk junk_version create_session handle_message
                terminate_session uuid c (Some m) APT_MESSAGE_STATUS_COMPLETE) sy
  | EClose c => run_op (rtsp_server_connection_close terminate_session c) sy
  | ETask =>
      match tasks sy with
      | [] => Ok (sy, [])
      | t :: ts =>
          run_op (rtsp_server_task_msg_process junk junk_version junk_status handle_message
                    terminate_session t) (mk_system (server sy) ts (held sy))
      end
  | ERespond s m => Ok (mk_system (server sy) (rtsp_server_session_respond (tasks sy) s m) (held sy), [])
  | ETerminate s =>
      Ok (mk_system (server sy) (rtsp_server_session_terminate (tasks sy) s) (held sy ∖ {[s]}), [])
  | ERelease s => Ok (mk_system (server sy) (rtsp_server_session_release (tasks sy) s) (held sy), [])
  | EOnline b => run_op (if b then rtsp_server_on_online else rtsp_server_on_offline) sy
  end.

(** What the surroundings keep to.  A socket that is open delivers requests that
    name a resource, and the identifier of a new session is not in use.  The agent
    signals for the sessions it holds, and its messages have a header. *)
Definition conforms (e : rtsp_event) (sy : rtsp_system) : Prop :=
  match e with
  | EMessage c m =>
      ∃ x, connections (server sy) !! c = Some x ∧ message_ok uuid (server sy) (destination_set x m)
  | EClose c => is_Some (connections (server sy) !! c)
  | ERespond s m => s ∈ held sy ∧ header_wf (rtsp_header m)
  | ETerminate s | ERelease s => s ∈ held sy
  | EAccept | ETask | EOnline _ => True
  end.

(** The message that the agent refuses, though it took the session that the message
    is to begin. *)
Definition refusal (e : rtsp_event) (sy : rtsp_system) : Prop :=
  match e with
  | EMessage c m =>
      from_option (λ x, first_refused create_session handle_message (server sy) c (destination_set x m)) False
        (connections (server sy) !! c)
  | _ => False
  end.

#[local] Instance refusal_dec e sy : Decision (refusal e sy).
Proof. unfold refusal. destruct e; try apply _. destruct (connections (server sy) !! c); apply _. Defined.

(** The agent does not refuse the first request of a session. *)
Definition allowed (e : rtsp_event) (sy : rtsp_system) : Prop := conforms e sy ∧ ¬ refusal e sy.

(** What an event means to the requests in service. *)
Definition label (e : rtsp_event) (sy : rtsp_system) : service_label :=
  match e with
  | EMessage c m =>
      match connections (server sy) !! c with
      | Some x => accept_label (accepted create_session (server sy) c (destination_set x m)) (destination_set x m)
      | None => LNone
      end
  | ETask =>
      match tasks sy with
      | t :: _ => from_option (λ x, task_label x t) LNone (sessions (server sy) !! task_session t)
      | [] => LNone
      end
  | _ => LNone
  end.

Fixpoint system_run (es : list rtsp_event) (sy : rtsp_system) : res (rtsp_system * trace) :=
  match es with
  | [] => Ok (sy, [])
  | e :: es =>
      '(sy1, o) ← system_step e sy;
      '(sy2, tr) ← system_run es sy1;
      Ok (sy2, (label e sy, given o) :: tr)
  end.

Fixpoint allowed_run (es : list rtsp_event) (sy : rtsp_system) : Prop :=
  match es with
  | [] => True
  | e :: es => allowed e sy ∧ ∀ sy1 o, system_step e sy = Ok (sy1, o) → allowed_run es sy1
  end.

Fixpoint conforming_run (es : list rtsp_event) (sy : rtsp_system) : Prop :=
  match es with
  | [] => True
  | e :: es => conforms e sy ∧ ∀ sy1 o, system_step e sy = Ok (sy1, o) → conforming_run es sy1
  end.

(** ** Invariant *)

(** The sessions that exist after a task message. *)
Definition live_after (live : gset sid) (t : task_msg_data_t) : gset sid :=
  match t with TASK_MSG_TERMINATE_SESSION s => live ∖ {[s]} | _ => live end.

(** The messages in the queue are for sessions that exist when they are taken. *)
Fixpoint tasks_ok (live : gset sid) (ts : list task_msg_data_t) : Prop :=
  match ts with
  | [] => True
  | t :: ts => task_session t ∈ live ∧ task_ok t ∧ tasks_ok (live_after live t) ts
  end.

Definition live (sv : rtsp_server_t) : gset sid := dom (sessions sv).

Record system_wf (sy : rtsp_system) : Prop := {
  sy_server : server_wf uuid (server sy);
  sy_tasks : tasks_ok (live (server sy)) (tasks sy);
  sy_held : held sy ⊆ foldl live_after (live (server sy)) (tasks sy)
}.

Definition system_create : rtsp_system := mk_system rtsp_server_create [] ∅.

Lemma system_wf_create : system_wf system_create.
Proof. split; [apply wf_create|done|set_solver]. Qed.

Lemma live_after_mono l l' t : l ⊆ l' → live_after l t ⊆ live_after l' t.
Proof. destruct t; simpl; set_solver. Qed.

Lemma live_fold_mono ts l l' : l ⊆ l' → foldl live_after l ts ⊆ foldl live_after l' ts.
Proof. revert l l'. induction ts as [|t ts IH]; simpl; [done|]. intros l l' Hl. by apply IH, live_after_mono. Qed.

Lemma tasks_ok_mono ts l l' : l ⊆ l' → tasks_ok l ts → tasks_ok l' ts.
Proof.
  revert l l'. induction ts as [|t ts IH]; simpl; [done|]. intros l l' Hl (Ht & Hk & Hts).
  split_and!; [set_solver|done|]. eapply IH; [|done]. by apply live_after_mono.
Qed.

Lemma tasks_ok_snoc ts l t :
  tasks_ok l ts → task_session t ∈ foldl live_after l ts → task_ok t → tasks_ok l (ts ++ [t]).
Proof. revert l. induction ts as [|u ts IH]; simpl; [done|]. intros l (? & ? & ?) ??. split_and!; auto. Qed.

Lemma live_out sv s : s ∈ live sv ↔ is_Some (out sv s).
Proof. unfold live, out. by rewrite elem_of_dom, fmap_is_Some. Qed.

(** A session that is new is not terminated by what is in the queue. *)
Lemma live_fold_new ts l l' s :
  tasks_ok l ts → s ∉ l → s ∈ l' → s ∈ foldl live_after l' ts.
Proof.
  revert l l'. induction ts as [|t ts IH]; simpl; [done|]. intros l l' (Ht & _ & Hts) Hs Hs'.
  eapply IH; [done|destruct t; simpl; set_solver|]. destruct t; simpl in *; set_solver.
Qed.

(** ** Refinement *)

(** An operation of the task, while [ts] is in the queue: it keeps the sessions
    [l] that those messages need. *)
Lemma run_op_ok {A} (m : op A) sv ts hs (l : gset sid) lbl :
  tasks_ok l ts → hs ⊆ foldl live_after l ts → l ⊆ live sv →
  wp m (λ _ sv' o, server_wf uuid sv' ∧ creates create_session sv sv' o ∧ l ⊆ live sv' ∧
          service_step (out sv) lbl (given o) (out sv')) sv →
  ∃ sy' o, run_op m (mk_system sv ts hs) = Ok (sy', o) ∧ system_wf sy' ∧
    service_step (out sv) lbl (given o) (out (server sy')).
Proof.
  intros Hts Hhs Hl (a & sv' & o & Hm & Hwf & Hcr & Hl' & Hstep). unfold run_op. cbn [server tasks held].
  rewrite Hm. cbn [mbind res_bind]. eexists _, _. split; [done|]. split; [|done]. split; cbn [server tasks held].
  - done.
  - by eapply tasks_ok_mono.
  - apply union_subseteq. split; [etrans; [done|by apply live_fold_mono]|].
    intros s. rewrite elem_of_list_to_set, list_elem_of_filter. intros [Hcs Hin].
    destruct (Hcr s Hin Hcs) as [Hnew [y Hy]]. eapply live_fold_new; [done| |by apply elem_of_dom_2 in Hy].
    intros Hs%Hl. apply (elem_of_dom (sessions sv)) in Hs as [z Hz]. congruence.
Qed.

Lemma live_kept sv sv' l g :
  service_step (out sv) l g (out sv') → (∀ s, l ≠ LEnd s) → live sv ⊆ live sv'.
Proof. intros Hstep Hl s. rewrite !live_out. by apply (service_step_live _ _ _ _ _ Hstep). Qed.

Lemma task_step_ok t ts sv hs :
  system_wf (mk_system sv (t :: ts) hs) →
  ∃ sy' o, system_step ETask (mk_system sv (t :: ts) hs) = Ok (sy', o) ∧ system_wf sy' ∧
    service_step (out sv) (label ETask (mk_system sv (t :: ts) hs)) (given o) (out (server sy')).
Proof.
  intros [Hwf (Hs & Ht & Hts) Hhs]. cbn [system_step server tasks held] in *.
  apply (elem_of_dom (sessions sv)) in Hs as [x Hx].
  apply (run_op_ok _ _ _ _ (live_after (live sv) t)); [done|done|destruct t; simpl; set_solver|].
  cbn [label tasks server]. rewrite Hx. cbn [from_option].
  eapply task_spec; [done..|]. intros sv' o Hwf' Hcr Hstep. split_and!; try done.
  intros s Hs. apply live_out. eapply service_step_live; [done| |apply live_out; destruct t; simpl in *; set_solver].
  destruct t as [s' m|s'|s']; simpl in *; [|set_solver|done].
  unfold answer_label. by destruct (rtsp_start_line m), (active_request x).
Qed.

(** A signal of the agent joins the queue. *)
Lemma signal_ok sv ts hs hs' t :
  system_wf (mk_system sv ts hs) → task_session t ∈ hs → task_ok t → hs' ⊆ live_after hs t →
  system_wf (mk_system sv (ts ++ [t]) hs').
Proof.
  intros [Hwf Hts Hhs] Hs Ht Hh. cbn [server tasks held] in *. split; cbn [server tasks held].
  - done.
  - apply tasks_ok_snoc; [done|by apply Hhs|done].
  - rewrite foldl_app. simpl. etrans; [done|by apply live_after_mono].
Qed.

Lemma system_step_ok e sy :
  system_wf sy → allowed e sy →
  ∃ sy' o, system_step e sy = Ok (sy', o) ∧ system_wf sy' ∧
    service_step (out (server sy)) (label e sy) (given o) (out (server sy')).
Proof.
  destruct sy as [sv ts hs]. intros [Hwf Hts Hhs] [Hal Hnr]. cbn [server tasks held] in *.
  assert (Hsame : ∀ sv' o, server_wf uuid sv' → quiet o → (∀ s, out sv' s = out sv s) →
    server_wf uuid sv' ∧ creates create_session sv sv' o ∧ live sv ⊆ live sv' ∧
    service_step (out sv) LNone (given o) (out sv')).
  { intros sv' o Hwf' Ho Hout. split_and!; [done|by apply creates_quiet| |by apply serves_quiet].
    eapply live_kept; [by apply serves_quiet|done]. }
  destruct e as [|c m|c| |s m|s|s|b]; cbn [system_step label conforms refusal server tasks held] in *.
  - apply (run_op_ok _ _ _ _ (live sv)); [done..|]. eapply accept_spec; [done|]. intros sv' Hwf' Hs.
    apply Hsame; [done|done|]. intros s. unfold out. by rewrite Hs.
  - destruct Hal as (x & Hx & Hm). rewrite Hx in Hnr |- *. apply (run_op_ok _ _ _ _ (live sv)); [done..|].
    eapply handler_spec; [done..|]. intros sv' o Hwf' Hcr Hstep. split_and!; try done.
    eapply live_kept; [done|]. intros s. by destruct (accepted _ _ _ _).
  - destruct Hal as [x Hx]. apply (run_op_ok _ _ _ _ (live sv)); [done..|].
    eapply close_spec; [done..|]. intros _ sv' o Hwf' Ho Hout. by apply Hsame.
  - destruct ts as [|t ts]; [|by apply task_step_ok]. eexists _, _. split; [done|]. split; [done|]. by constructor.
  - destruct Hal as [Hs Hm]. eexists _, _. split; [done|]. split; [|by constructor].
    by eapply (signal_ok _ _ hs).
  - eexists _, _. split; [done|]. split; [|by constructor]. by eapply (signal_ok _ _ hs).
  - eexists _, _. split; [done|]. split; [|by constructor]. by eapply (signal_ok _ _ hs).
  - apply (run_op_ok _ _ _ _ (live sv)); [done..|].
    destruct b; apply wp_change, Hsame; try done; by destruct Hwf.
Qed.

Lemma system_run_ok es sy :
  system_wf sy → allowed_run es sy →
  ∃ sy' tr, system_run es sy = Ok (sy', tr) ∧ system_wf sy' ∧ service_run (out (server sy)) tr (out (server sy')).
Proof.
  revert sy. induction es as [|e es IH]; intros sy Hwf Hal.
  { exists sy, []. split_and!; [done..|constructor]. }
  destruct Hal as [He Hes]. destruct (system_step_ok e sy Hwf He) as (sy1 & o & Hst & Hwf1 & Hserve).
  destruct (IH sy1 Hwf1 (Hes _ _ Hst)) as (sy2 & tr & Hrun & Hwf2 & Hserves).
  exists sy2, ((label e sy, given o) :: tr). cbn [system_run]. rewrite Hst. cbn [mbind res_bind]. rewrite Hrun.
  split_and!; [done..|]. by econstructor.
Qed.

(** A run goes on to the first refusal. *)
Lemma conforming_run_ok es sy :
  conforming_run es sy →
  ∃ done rest, es = done ++ rest ∧ allowed_run done sy ∧
    ∀ sy1 tr, system_run done sy = Ok (sy1, tr) → from_option (λ e, refusal e sy1) True (head rest).
Proof.
  revert sy. induction es as [|e es IH]; intros sy; [by exists [], []|]. intros [He Hes].
  destruct (decide (refusal e sy)) as [Hr|Hr].
  { exists [], (e :: es). split_and!; [done..|]. by intros sy1 tr [= <- <-]. }
  destruct (system_step e sy) as [[sy1 o]|] eqn:Hst.
  - destruct (IH sy1 (Hes _ _ eq_refl)) as (done & rest & -> & Hd & Hrest). exists (e :: done), rest.
    split_and!; [done| |].
    + split; [done|]. intros sy2 o2 Hst2. rewrite Hst in Hst2. by injection Hst2 as <- <-.
    + intros sy2 tr. cbn [system_run]. rewrite Hst. cbn [mbind res_bind].
      destruct (system_run done sy1) as [[sy3 tr']|] eqn:Hrun; [|done]. intros [= <- <-]. by eapply Hrest.
  - exists (e :: es), []. split_and!; [by rewrite app_nil_r| |done]. split; [done|]. intros. congruence.
Qed.

(** A run is allowed when each of its steps is. *)
Lemma allowed_run_step e es sy sy1 o :
  allowed e sy → system_step e sy = Ok (sy1, o) → allowed_run es sy1 → allowed_run (e :: es) sy.
Proof. intros He Hst Hes. split; [done|]. intros sy1' o' Hst'. rewrite Hst in Hst'. by injection Hst' as <- <-. Qed.

Lemma allowed_conforming es sy : allowed_run es sy → conforming_run es sy.
Proof.
  revert sy. induction es as [|e es IH]; intros sy; [done|]. intros [[He _] Hes]. split; [done|].
  intros sy1 o Hst. by eapply IH, Hes.
Qed.

Lemma allowed_run_prefix es es' sy : allowed_run (es ++ es') sy → allowed_run es sy.
Proof.
  revert sy. induction es as [|e es IH]; intros sy; [done|]. intros [He Hes]. split; [done|].
  intros sy1 o Hst. by eapply IH, Hes.
Qed.

(** C6: Whatever the order of events, the RTSP server does not use a session or a
    connection that was destroyed, and its tables stay consistent: every entry of
    the table of a connection is a session of that connection, and the reverse.
    Connections are opened and closed, requests arrive, the agent responds,
    terminates and releases the sessions it holds, and the task takes the signals
    in order.  This holds to the end of the run or up to the first message that the
    agent refuses after it took the session the message is to begin.  The requests
    are those that name a resource, and the identifiers generated for new sessions
    are not in use. *)
Theorem rtsp_server_safe (es : list rtsp_event) :
  conforming_run es system_create →
  ∃ done rest sy tr, es = done ++ rest ∧ system_run done system_create = Ok (sy, tr) ∧ system_wf sy ∧
    from_option (λ e, refusal e sy) True (head rest).
Proof.
  intros (done & rest & -> & Hal & Hrest)%conforming_run_ok.
  destruct (system_run_ok done system_create system_wf_create Hal) as (sy & tr & Hrun & Hwf & _).
  exists done, rest, sy, tr. split_and!; try done. by eapply Hrest.
Qed.


(** C8: The requests of a session are served one at a time, in the order of
    arrival, in a run in which the agent does not refuse the first request of a
    session.  At any time before the session ends, the requests that arrived are
    those that the agent answered, as many as it sent responses, followed by those
    that wait; and the agent was given, in this order and at most once each, only
    requests that were answered and the first that waits.  A later request that the
    agent refuses counts as waiting, although the server itself responds to it with
    an error: it stays the first. *)
Theorem requests_in_order (es : list rtsp_event) (sy : rtsp_system) (tr : trace) (s : sid) :
  allowed_run es system_create → system_run es system_create = Ok (sy, tr) → LEnd s ∉ tr.*1 →
  let waiting := default [] (out (server sy) s) in
  ∃ done, arrived s tr = done ++ waiting ∧ length done = answers s tr ∧
    served s tr `sublist_of` done ++ option_list (head waiting).
Proof.
  intros Hal Hrun Hend.
  destruct (system_run_ok es system_create system_wf_create Hal) as (sy' & tr' & Hrun' & _ & Hserve).
  rewrite Hrun in Hrun'. injection Hrun' as <- <-. exact (service_run_own _ _ _ s Hserve Hend).
Qed.

End System.

(** ** A session of one client *)

(** The message that the parser makes of a text. *)
Definition parsed (text : cstr) : rtsp_message_t :=
  match rtsp_parser_run 0 apt_message_parser_create (apt_text_stream_init text (length text)) with
  | Ok (_, _, _, Some m) => m
  | _ => rtsp_message_create 0 RTSP_MESSAGE_TYPE_UNKNOWN
  end.

Definition client_setup : rtsp_message_t :=
  parsed (lit "SETUP rtsp://host/media/speechrecognizer RTSP/1.0" ++ CRLF ++ lit "CSeq: 1" ++ CRLF ++ CRLF).

Definition client_announce : rtsp_message_t :=
  parsed (lit "ANNOUNCE rtsp://host/media/speechrecognizer RTSP/1.0" ++ CRLF ++ lit "CSeq: 2" ++ CRLF ++
          lit "Session: 0101010101010101" ++ CRLF ++ CRLF).

Definition agent_ok (request : rtsp_message_t) : rtsp_message_t :=
  match rtsp_response_create 0 request RTSP_STATUS_CODE_OK RTSP_REASON_PHRASE_OK RTSP_VERSION_1 with
  | Ok m => m
  | Fault => rtsp_message_create 0 RTSP_MESSAGE_TYPE_UNKNOWN
  end.

Lemma agent_ok_wf request : header_wf (rtsp_header (agent_ok request)).
Proof.
  unfold agent_ok.
  destruct (response_create_total 0 request RTSP_STATUS_CODE_OK RTSP_REASON_PHRASE_OK RTSP_VERSION_1) as (m & -> & Hm).
  exact Hm.
Qed.

(** The client sends a second request before the first is answered, and closes
    the connection after that. *)
Definition client_events : list rtsp_event :=
  [EAccept; EMessage 0 client_setup; EMessage 0 client_announce; ERespond 1 (agent_ok client_setup); ETask;
   EClose 0; ETerminate 1; ETask].

Notation sample_run f :=
  (f 0 RTSP_VERSION_1 0%Z (λ _ : nat, true) (λ (_ : nat) (_ : rtsp_message_t), true) (λ _ : nat, true)
     (λ s : nat, replicate 8 (Z.of_nat s)) (λ _ : nat, None)).

(** An agent that takes every request refuses none. *)
Lemma takes_all create e sy : ¬ refusal create (λ _ _, true) e sy.
Proof. destruct e as [|c m| | | | | |]; simpl; try by intros []. by destruct (connections _ !! c); [intros (_ & _ & ?)|intros []]. Qed.

Lemma client_allowed : sample_run (@allowed_run _) client_events system_create.
Proof.
  eapply allowed_run_step; [split; [exact I|apply takes_all]|vm_compute; reflexivity|].
  eapply allowed_run_step; [|vm_compute; reflexivity|].
  { split; [|apply takes_all]. eexists. split; [vm_compute; reflexivity|]. split; [vm_compute; by eexists|].
    intros _ s [y Hy]. done. }
  eapply allowed_run_step; [|vm_compute; reflexivity|].
  { split; [|apply takes_all]. eexists. split; [vm_compute; reflexivity|]. split; [vm_compute; by eexists|].
    intros Hs. vm_compute in Hs. done. }
  eapply allowed_run_step; [|vm_compute; reflexivity|].
  { split; [|apply takes_all]. split; [apply (bool_decide_unpack _); vm_compute; exact I|apply agent_ok_wf]. }
  eapply allowed_run_step; [split; [exact I|apply takes_all]|vm_compute; reflexivity|].
  eapply allowed_run_step; [split; [vm_compute; by eexists|apply takes_all]|vm_compute; reflexivity|].
  eapply allowed_run_step; [|vm_compute; reflexivity|].
  { split; [|apply takes_all]. cbn [conforms]. apply (bool_decide_unpack _). vm_compute. exact I. }
  eapply allowed_run_step; [split; [exact I|apply takes_all]|vm_compute; reflexivity|exact I].
Qed.

Lemma rtsp_server_safe_witness :
  ∃ sy tr, sample_run (@system_run _) client_events system_create = Ok (sy, tr) ∧
    system_wf (λ s, replicate 8 (Z.of_nat s)) sy.
Proof.
  destruct (rtsp_server_safe 0 RTSP_VERSION_1 0 (λ _, true) (λ _ _, true) (λ _, true) _ (λ _, None) _
    (allowed_conforming _ _ _ _ _ _ _ _ _ _ client_allowed)) as (done & rest & sy & tr & Hes & Hrun & Hwf & Hrest).
  destruct rest as [|e rest]; [|destruct (takes_all _ _ _ Hrest)].
  rewrite app_nil_r in Hes. exists sy, tr. rewrite Hes. exact (conj Hrun Hwf).
Defined.




Definition after_answer : rtsp_system * trace :=
  match sample_run (@system_run _) (take 5 client_events) system_create with
  | Ok x => x
  | Fault => (system_create, [])
  end.

Lemma requests_in_order_witness :
  ∃ done, arrived 1 after_answer.2 = done ++ [client_announce] ∧ length done = 1 ∧
    served 1 after_answer.2 `sublist_of` done ++ [client_announce].
Proof.
  destruct (requests_in_order 0 RTSP_VERSION_1 0 (λ _, true) (λ _ _, true) (λ _, true)
    (λ s, replicate 8 (Z.of_nat s)) (λ _, None) (take 5 client_events) after_answer.1 after_answer.2 1)
    as (done & Ha & Hn & Hs).
  - eapply (allowed_run_prefix _ _ _ _ _ _ _ _ _ (drop 5 client_events)). rewrite take_drop. exact client_allowed.
  - vm_compute. reflexivity.
  - vm_compute. intros Hin. repeat (apply elem_of_cons in Hin as [Hin|Hin]; [discriminate Hin|]).
    by apply elem_of_nil in Hin.
  - assert (Hw : default [] (out (server after_answer.1) 1) = [client_announce]) by (vm_compute; reflexivity).
    assert (H1 : answers 1 after_answer.2 = 1) by (vm_compute; reflexivity).
    rewrite Hw in Ha, Hs. exists done. exact (conj Ha (conj (eq_trans Hn H1) Hs)).
Defined.
