(* ===== verification/RtspServerErrors.v ===== *)
(** * RtspServerErrors: what a refused request does to the RTSP server. *)
From S2P Require Import Prelude CString StringTable TextStream HeaderSection TextMessage TextMessageTheory.
From S2P Require Import RecordUpdate Operation RtspStartLine RtspHeader RtspMessage RtspServer RtspServerTheory RtspSystem.
From stdpp Require Import gmap.

(** ** Objects that exist, or not *)

Lemma session_at_Ok s x sv : sessions sv !! s = Some x → session_at s sv = Ok (x, sv, []).
Proof.
  intros Hx. unfold session_at, ask, try, mbind, operation_bind. cbn [mbind res_bind]. by rewrite Hx.
Qed.

Lemma session_at_Fault s sv : sessions sv !! s = None → session_at s sv = Fault.
Proof. intros Hx. unfold session_at, ask, try, mbind, operation_bind. cbn [mbind res_bind]. by rewrite Hx. Qed.

Lemma connection_at_Ok c x sv : connections sv !! c = Some x → connection_at c sv = Ok (x, sv, []).
Proof. intros Hx. unfold connection_at, ask, try, mbind, operation_bind. cbn [mbind res_bind]. by rewrite Hx. Qed.

Lemma hash_get_set {A} (t : list (cstr * A)) k (a : A) : hash_get (hash_set t k a) k = Some a.
Proof. unfold hash_get, hash_set. cbn [list_find]. by rewrite decide_True. Qed.

Section Errors.
  Context `{AprFormat} (junk : nat) (junk_version : rtsp_version_e).
  Context (create_session : sid → bool) (handle_message : sid → rtsp_message_t → bool).
  Context (terminate_session : sid → bool) (uuid : sid → list Z).

Notation process c m :=
  (rtsp_server_session_request_process junk junk_version create_session handle_message terminate_session uuid c m).

(** A request with the session identifier [k]. *)
Definition names (k : cstr) (m : rtsp_message_t) : Prop :=
  (∃ r, rtsp_start_line m = RTSP_MESSAGE_TYPE_REQUEST r) ∧
  rtsp_header_property_check (rtsp_header m) RTSP_HEADER_FIELD_SESSION_ID = true ∧
  chars (rtsp_session_id (rtsp_header m)) = k.

(** The identifier is looked up in the table of the connection. *)
Lemma process_names c x m k s sv :
  connections sv !! c = Some x → names k m → hash_get (session_table x) k = Some s →
  sessions sv !! s = None → process c m sv = Fault.
Proof.
  intros Hx ((r & Hr) & Hc & Hk) Hget Hs. unfold rtsp_server_session_request_process. rewrite Hr, Hc. cbn [negb].
  eapply fault_after; [by apply connection_at_Ok|]. cbv beta. rewrite Hk, Hget.
  by apply fault_bind, session_at_Fault.
Qed.

(** C39: A session whose first request the agent refuses is destroyed, but stays in
    the table of its connection.  The next request with its identifier, and the
    end of the connection, use the session that was destroyed. *)
Theorem refused_session_dangles (sv : rtsp_server_t) (c : cid) (x : rtsp_server_connection_t)
    (m : rtsp_message_t) (r : rtsp_request_line_t) :
  server_wf uuid sv → connections sv !! c = Some x → id_unused uuid sv →
  rtsp_start_line m = RTSP_MESSAGE_TYPE_REQUEST r → is_Some (rl_resource_name r) →
  rl_method_id r = RTSP_METHOD_SETUP ∨ rl_method_id r = RTSP_METHOD_DESCRIBE →
  rtsp_header_property_check (rtsp_header m) RTSP_HEADER_FIELD_SESSION_ID = false →
  online sv = true → create_session (next sv) = true → handle_message (next sv) m = false →
  ∃ sv' o, process c m sv = Ok (tt, sv', o) ∧
    (∀ m2, names (id_text uuid (next sv)) m2 → process c m2 sv' = Fault) ∧
    (sock x = true → rtsp_server_connection_close terminate_session c sv' = Fault).
Proof.
  intros Hwf Hx Hid Hr Hn Hmeth Hsess Hup Hcr Hh.
  enough (wp (process c m) (λ _ sv' o, connections sv' !! c = Some (x <| session_table :=
      hash_set (session_table x) (id_text uuid (next sv)) (next sv) |>) ∧ sessions sv' !! next sv = None) sv)
    as ([] & sv' & o & Hrun & Hc & Hs).
  { exists sv', o. split; [done|]. split.
    - intros m2 Hm2. eapply process_names; [done|done|apply hash_get_set|done].
    - intros Hsock. unfold rtsp_server_connection_close. eapply fault_after; [by apply connection_at_Ok|].
      replace (sock _) with true by (symmetry; exact Hsock). cbn [negb].
      eapply fault_after; [reflexivity|]. eapply fault_after; [reflexivity|]. apply fault_bind.
      rewrite decide_False by done. cbn [fmap list_fmap snd terminate_loop].
      by apply fault_bind, fault_bind, session_at_Fault. }
  unfold rtsp_server_session_request_process. rewrite Hr, Hsess. cbn [negb]. rewrite decide_True by done.
  apply wp_bind, wp_ask. rewrite Hup. cbn [negb]. apply wp_bind. eapply setup_spec; [done| |congruence]. intros _.
  unfold new_session_request. apply wp_bind. eapply wp_bind, wp_session_at; [apply lookup_insert_eq|].
  apply wp_change, wp_bind. eapply message_handle_spec; [apply lookup_insert_eq|apply lookup_insert_eq|by exists r|].
  intros b y o _ _ Hb. assert (b = false) as ->.
  { destruct Hb as [->|[_ Ht]]; [done|]. unfold request_method in Ht. rewrite Hr in Ht. injection Ht as Ht.
    rewrite Ht in Hmeth. by destruct Hmeth. }
  apply wp_change. cbn. split; [apply lookup_insert_eq|apply lookup_delete_eq].
Qed.

(** ** A session that waits for ever *)

(** The requests [ms] arrive, one after the other. *)
Fixpoint process_all (c : cid) (ms : list rtsp_message_t) : op unit :=
  match ms with
  | [] => mret tt
  | m :: ms => process c m;; process_all c ms
  end.

(** A request for a session that works on another one waits. *)
Lemma process_busy c x m k s y q sv :
  connections sv !! c = Some x → names k m → hash_get (session_table x) k = Some s →
  sessions sv !! s = Some y → terminating y = false → active_request y = Some q →
  process c m sv = Ok (tt, put sv s (y <| request_queue := request_queue y ++ [m] |>), []).
Proof.
  intros Hx ((r & Hr) & Hc & Hk) Hget Hs Ht Ha. unfold rtsp_server_session_request_process. rewrite Hr, Hc.
  cbn [negb]. rewrite (bind_pure _ _ _ _ _ (connection_at_Ok _ _ _ Hx)), Hk, Hget.
  by rewrite (bind_pure _ _ _ _ _ (session_at_Ok _ _ _ Hs)), Ht, Ha.
Qed.

Lemma process_all_busy c x ms k s y q sv :
  connections sv !! c = Some x → Forall (names k) ms → hash_get (session_table x) k = Some s →
  sessions sv !! s = Some y → terminating y = false → active_request y = Some q →
  process_all c ms sv = Ok (tt, put sv s (y <| request_queue := request_queue y ++ ms |>), []).
Proof.
  intros Hx Hms Hget. revert sv y Hx. induction Hms as [|m ms Hm Hms IH]; intros sv y Hx Hs Ht Ha.
  - cbn [process_all]. rewrite app_nil_r. replace (y <| request_queue := _ |>) with y by (by destruct y).
    by rewrite put_id.
  - cbn [process_all]. rewrite (bind_pure _ _ _ _ _ (process_busy _ _ _ _ _ _ _ _ Hx Hm Hget Hs Ht Ha)).
    erewrite IH; [|exact Hx|apply put_at|exact Ht|exact Ha].
    rewrite put_put. cbn. by rewrite <- app_assoc.
Qed.

(** A request that the agent refuses is answered, and stays the active one. *)
Lemma process_refused c x m k s y r sv :
  connections sv !! c = Some x → names k m → hash_get (session_table x) k = Some s →
  sessions sv !! s = Some y → connection y = c → terminating y = false → active_request y = None →
  rtsp_start_line m = RTSP_MESSAGE_TYPE_REQUEST r → rl_method_id r ≠ RTSP_METHOD_TEARDOWN →
  handle_message s m = false →
  ∃ error, rtsp_response_create junk m RTSP_STATUS_CODE_INTERNAL_SERVER_ERROR
      RTSP_REASON_PHRASE_INTERNAL_SERVER_ERROR junk_version = Ok error ∧
    process c m sv = Ok (tt, put sv s (y <| active_request := Some m |>), HandleMessage s m :: sent x c error).
Proof.
  intros Hx (_ & Hc & Hk) Hget Hs Hcy Ht Ha Hr Hmeth Hh.
  destruct (response_create_total junk m RTSP_STATUS_CODE_INTERNAL_SERVER_ERROR
    RTSP_REASON_PHRASE_INTERNAL_SERVER_ERROR junk_version) as (error & Herr & _).
  exists error. split; [done|]. set (y1 := y <| active_request := Some m |>).
  assert (Hsend : rtsp_server_message_send c error (put sv s y1) = Ok (tt, put sv s y1, sent x c error)).
  { unfold rtsp_server_message_send. rewrite (bind_pure _ _ _ _ _ (connection_at_Ok c x (put sv s y1) Hx)).
    unfold sent. by destruct (sock x). }
  assert (Hhandle : rtsp_server_session_message_handle junk junk_version handle_message terminate_session s m
    (put sv s y1) = Ok (false, put sv s y1, HandleMessage s m :: sent x c error)).
  { unfold rtsp_server_session_message_handle, request_line, rtsp_server_error_respond. rewrite Hr.
    erewrite bind_pure by reflexivity. cbv beta iota. rewrite decide_False by done. erewrite bind_pure by reflexivity. cbv beta iota.
    erewrite bind_after by reflexivity. rewrite Hh.
    rewrite (bind_pure _ _ _ _ _ (session_at_Ok s y1 (put sv s y1) (put_at _ _ _))).
    change (connection y1) with (connection y). rewrite Hcy, Herr.
    assert (Hr2 : ((response ← try (Ok error); rtsp_server_message_send c response) : op unit) (put sv s y1) =
      Ok (tt, put sv s y1, sent x c error)) by (erewrite bind_pure by reflexivity; exact Hsend).
    rewrite (bind_after _ _ _ _ _ _ Hr2). cbn. by rewrite app_nil_r. }
  unfold rtsp_server_session_request_process. rewrite Hr, Hc. cbn [negb].
  rewrite (bind_pure _ _ _ _ _ (connection_at_Ok _ _ _ Hx)), Hk, Hget.
  rewrite (bind_pure _ _ _ _ _ (session_at_Ok _ _ _ Hs)), Ht, Ha.
  assert (Hact : session_activate s (Some m) sv = Ok (tt, put sv s y1, [])).
  { unfold session_activate. by rewrite (bind_pure _ _ _ _ _ (session_at_Ok _ _ _ Hs)). }
  rewrite (bind_pure _ _ _ _ _ Hact), (bind_after _ _ _ _ _ _ Hhandle). cbn. by rewrite app_nil_r.
Qed.

(** A request that the agent refuses is answered with an error, and still
    blocks its session: all later requests of the session wait behind it, without
    a response and without being given to the agent. *)
Theorem refused_request_blocks (sv : rtsp_server_t) (c : cid) (x : rtsp_server_connection_t) (s : sid)
    (y : rtsp_server_session_t) (m : rtsp_message_t) (r : rtsp_request_line_t) (k : cstr) (ms : list rtsp_message_t) :
  connections sv !! c = Some x → hash_get (session_table x) k = Some s →
  sessions sv !! s = Some y → connection y = c → terminating y = false →
  active_request y = None → request_queue y = [] →
  rtsp_start_line m = RTSP_MESSAGE_TYPE_REQUEST r → rl_method_id r ≠ RTSP_METHOD_TEARDOWN →
  handle_message s m = false → Forall (names k) (m :: ms) →
  ∃ sv1 sv2 error,
    rtsp_response_create junk m RTSP_STATUS_CODE_INTERNAL_SERVER_ERROR
      RTSP_REASON_PHRASE_INTERNAL_SERVER_ERROR junk_version = Ok error ∧
    process c m sv = Ok (tt, sv1, HandleMessage s m :: sent x c error) ∧
    process_all c ms sv1 = Ok (tt, sv2, []) ∧ out sv2 s = Some (m :: ms).
Proof.
  intros Hx Hget Hs Hcy Ht Ha Hq Hr Hmeth Hh [Hm Hms]%Forall_cons_1.
  destruct (process_refused c x m k s y r sv Hx Hm Hget Hs Hcy Ht Ha Hr Hmeth Hh) as (error & Herr & Hrun).
  eexists _, _, error. split; [exact Herr|]. split; [exact Hrun|]. split.
  - eapply process_all_busy; [exact Hx|exact Hms|exact Hget|apply put_at|exact Ht|done].
  - unfold out. rewrite put_at. cbn. unfold outstanding. cbn. by rewrite Hq.
Qed.

(** A TEARDOWN request of a session whose URL names no resource makes the
    server look up a name that is NULL. *)
Theorem teardown_without_resource_faults (sv : rtsp_server_t) (c : cid) (x : rtsp_server_connection_t) (s : sid)
    (y : rtsp_server_session_t) (m : rtsp_message_t) (r : rtsp_request_line_t) (k : cstr) :
  connections sv !! c = Some x → hash_get (session_table x) k = Some s →
  sessions sv !! s = Some y → terminating y = false → active_request y = None →
  names k m → rtsp_start_line m = RTSP_MESSAGE_TYPE_REQUEST r → rl_method_id r = RTSP_METHOD_TEARDOWN →
  rl_resource_name r = None → process c m sv = Fault.
Proof.
  intros Hx Hget Hs Ht Ha (_ & Hc & Hk) Hr Hmeth Hn.
  unfold rtsp_server_session_request_process. rewrite Hr, Hc. cbn [negb].
  rewrite (bind_pure _ _ _ _ _ (connection_at_Ok _ _ _ Hx)), Hk, Hget.
  rewrite (bind_pure _ _ _ _ _ (session_at_Ok _ _ _ Hs)), Ht, Ha.
  assert (Hact : session_activate s (Some m) sv = Ok (tt, put sv s (y <| active_request := Some m |>), [])).
  { unfold session_activate. by rewrite (bind_pure _ _ _ _ _ (session_at_Ok _ _ _ Hs)). }
  rewrite (bind_pure _ _ _ _ _ Hact). apply fault_bind.
  unfold rtsp_server_session_message_handle, request_line. rewrite Hr. erewrite bind_pure by reflexivity.
  apply fault_bind. rewrite decide_True by done. eapply fault_after; [apply session_at_Ok, put_at|]. cbv beta.
  rewrite Hn. by apply fault_bind.
Qed.

End Errors.

(** ** Concrete servers *)

Definition sample_ids (s : sid) : list Z := replicate 8 (Z.of_nat s).

Definition server_after (es : list rtsp_event) : rtsp_server_t :=
  match system_run 0 RTSP_VERSION_1 0 (λ _, true) (λ _ _, true) (λ _, true) sample_ids (λ _, None) es system_create with
  | Ok (sy, _) => server sy
  | Fault => rtsp_server_create
  end.

Lemma accepted_server_wf : server_wf sample_ids (server_after [EAccept]).
Proof.
  destruct (system_run_ok 0 RTSP_VERSION_1 0 (λ _, true) (λ _ _, true) (λ _, true) sample_ids (λ _, None)
    [EAccept] system_create (system_wf_create _)) as (sy & tr & Hrun & [Hwf _ _] & _);
    [split; [split; [done|apply takes_all]|done]|].
  unfold server_after. by rewrite Hrun.
Qed.

Lemma refused_session_dangles_witness :
  ∃ sv' o, rtsp_server_session_request_process 0 RTSP_VERSION_1 (λ _, true) (λ _ _, false) (λ _, true) sample_ids
      0 client_setup (server_after [EAccept]) = Ok (tt, sv', o) ∧
    rtsp_server_session_request_process 0 RTSP_VERSION_1 (λ _, true) (λ _ _, false) (λ _, true) sample_ids
      0 client_announce sv' = Fault ∧
    rtsp_server_connection_close (λ _, true) 0 sv' = Fault.
Proof.
  edestruct (refused_session_dangles 0 RTSP_VERSION_1 (λ _, true) (λ _ _, false) (λ _, true) sample_ids
    (server_after [EAccept]) 0) with (m := client_setup) as (sv' & o & Hrun & Hnext & Hclose).
  - exact accepted_server_wf.
  - vm_compute. reflexivity.
  - intros s [y Hy]. vm_compute in Hy. discriminate Hy.
  - vm_compute. reflexivity.
  - vm_compute. by eexists.
  - left. vm_compute. reflexivity.
  - vm_compute. reflexivity.
  - vm_compute. reflexivity.
  - vm_compute. reflexivity.
  - vm_compute. reflexivity.
  - exists sv', o. split; [exact Hrun|]. split; [apply Hnext|apply Hclose; vm_compute; reflexivity].
    split; [eexists; vm_compute; reflexivity|]. split; vm_compute; reflexivity.
Defined.

(** A session that works on nothing. *)
Definition idle_server : rtsp_server_t :=
  server_after [EAccept; EMessage 0 client_setup; ERespond 1 (agent_ok client_setup); ETask].

Lemma announce_names : names (lit "0101010101010101") client_announce.
Proof. split; [eexists; vm_compute; reflexivity|]. split; vm_compute; reflexivity. Qed.

Lemma refused_request_blocks_witness :
  ∃ sv1 sv2 o,
    rtsp_server_session_request_process 0 RTSP_VERSION_1 (λ _, true) (λ _ _, false) (λ _, true) sample_ids
      0 client_announce idle_server = Ok (tt, sv1, o) ∧
    process_all 0 RTSP_VERSION_1 (λ _, true) (λ _ _, false) (λ _, true) sample_ids
      0 [client_announce; client_announce] sv1 = Ok (tt, sv2, []) ∧
    out sv2 1 = Some [client_announce; client_announce; client_announce].
Proof.
  edestruct (refused_request_blocks 0 RTSP_VERSION_1 (λ _, true) (λ _ _, false) (λ _, true) sample_ids
    idle_server 0) with (k := lit "0101010101010101") (s := 1) (m := client_announce)
      (ms := [client_announce; client_announce]) as (sv1 & sv2 & error & _ & Hrun & Hall & Hout).
  - vm_compute. reflexivity.
  - vm_compute. reflexivity.
  - vm_compute. reflexivity.
  - vm_compute. reflexivity.
  - vm_compute. reflexivity.
  - vm_compute. reflexivity.
  - vm_compute. reflexivity.
  - vm_compute. reflexivity.
  - vm_compute. discriminate.
  - vm_compute. reflexivity.
  - repeat (constructor; [exact announce_names|]). constructor.
  - eexists sv1, sv2, _. exact (conj Hrun (conj Hall Hout)).
Defined.

Definition client_teardown : rtsp_message_t :=
  parsed (lit "TEARDOWN media RTSP/1.0" ++ CRLF ++ lit "CSeq: 2" ++ CRLF ++
          lit "Session: 0101010101010101" ++ CRLF ++ CRLF).

Lemma teardown_without_resource_faults_witness :
  rtsp_server_session_request_process 0 RTSP_VERSION_1 (λ _, true) (λ _ _, true) (λ _, true) sample_ids
    0 client_teardown idle_server = Fault.
Proof.
  eapply teardown_without_resource_faults with (k := lit "0101010101010101") (s := 1).
  - vm_compute. reflexivity.
  - vm_compute. reflexivity.
  - vm_compute. reflexivity.
  - vm_compute. reflexivity.
  - vm_compute. reflexivity.
  - split; [eexists; vm_compute; reflexivity|]. split; vm_compute; reflexivity.
  - vm_compute. reflexivity.
  - vm_compute. reflexivity.
  - vm_compute. reflexivity.
Defined.
