(* ===== verification/RtspReceive.v ===== *)
(** * RtspReceive: the loop over the text a client has sent ends. *)
From S2P Require Import Prelude CString StringTable TextStream TextStreamTheory HeaderSection TextMessage.
From S2P Require Import TextMessageTheory RecordUpdate Operation RtspStartLine RtspHeader RtspMessage RtspServer.
From stdpp Require Import gmap.

(** ** What handling a message leaves alone *)

(** The parser and the text of a connection. *)
Definition rx (sv : rtsp_server_t) (c : cid) : option (apt_message_parser_t rtsp_message_t * apt_text_stream_t) :=
  (λ x, (rx_parser x, rx_stream x)) <$> connections sv !! c.

Definition keeps {A} (m : op A) : Prop :=
  ∀ sv a sv' o, m sv = Ok (a, sv', o) → ∀ c, rx sv' c = rx sv c.

Lemma keeps_ret {A} (a : A) : keeps (mret a).
Proof. by intros sv a' sv' o [= <- <- <-]. Qed.

Lemma keeps_bind {A B} (m : op A) (f : A → op B) : keeps m → (∀ a, keeps (f a)) → keeps (m ≫= f).
Proof.
  intros Hm Hf sv b sv' o. unfold mbind, operation_bind. destruct (m sv) as [[[a sv1] o1]|] eqn:E; [|done].
  cbn [mbind res_bind]. destruct (f a sv1) as [[[b' sv2] o2]|] eqn:E2; [|done]. cbn [mbind res_bind].
  intros [= <- <- <-] c. by rewrite (Hf _ _ _ _ _ E2), (Hm _ _ _ _ E).
Qed.

Lemma keeps_ask {A} (f : rtsp_server_t → A) : keeps (ask f).
Proof. by intros sv a sv' o [= <- <- <-]. Qed.

Lemma keeps_try {A} (x : res A) : keeps (try x).
Proof. intros sv a sv' o. unfold try. destruct x as [y|]; [|done]. cbn [mbind res_bind]. by intros [= <- <- <-]. Qed.

Lemma keeps_emit a : keeps (emit a).
Proof. by intros sv a' sv' o [= <- <- <-]. Qed.

Lemma keeps_change f : (∀ sv, connections (f sv) = connections sv) → keeps (change f).
Proof. intros Hf sv a sv' o [= <- <- <-] c. unfold rx. by rewrite Hf. Qed.

(** Only the table of sessions of the connection changes. *)
Lemma keeps_table {A} c (f : rtsp_server_connection_t → list (cstr * sid)) (k : op A) :
  keeps k → keeps (x ← connection_at c; connection_put c (x <| session_table := f x |>);; k).
Proof.
  intros Hk sv a sv' o. unfold connection_at, ask, try, mbind, operation_bind. cbn [mbind res_bind].
  destruct (connections sv !! c) as [x|] eqn:Hx; [|done]. cbn [deref mbind res_bind connection_put change].
  match goal with |- context [k ?s] => destruct (k s) as [[[b sv2] o2]|] eqn:E end; [|done]. cbn [mbind res_bind].
  intros [= <- <- <-] d. rewrite (Hk _ _ _ _ E). unfold rx. cbn.
  destruct (decide (d = c)) as [->|Hne]; [by rewrite lookup_insert_eq, Hx|by rewrite lookup_insert_ne].
Qed.

Create HintDb keeps.
#[export] Hint Resolve keeps_ret keeps_ask keeps_try keeps_emit : keeps.

(** Follows the structure of an operation. *)
Ltac keep :=
  repeat match goal with
  | |- keeps (_ ≫= _) => apply keeps_bind; [|intros]
  | |- keeps (match ?x with _ => _ end) => destruct x
  | |- keeps (if ?x then _ else _) => destruct x
  | |- keeps (change _) => apply keeps_change; done
  | |- keeps _ => solve [auto with keeps]
  end.

Section Receive.
  Context `{AprFormat} (junk : nat) (junk_version : rtsp_version_e).
  Context (create_session : sid → bool) (handle_message : sid → rtsp_message_t → bool).
  Context (terminate_session : sid → bool) (uuid : sid → list Z).

Lemma keeps_session_at s : keeps (session_at s).
Proof. unfold session_at. keep. Qed.

Lemma keeps_connection_at c : keeps (connection_at c).
Proof. unfold connection_at. keep. Qed.

Lemma keeps_session_put s x : keeps (session_put s x).
Proof. unfold session_put. keep. Qed.

Hint Resolve keeps_session_at keeps_connection_at keeps_session_put : keeps.

Lemma keeps_error_respond c m code reason : keeps (rtsp_server_error_respond junk junk_version c m code reason).
Proof. unfold rtsp_server_error_respond, rtsp_server_message_send. keep. Qed.

Lemma keeps_terminate_request s : keeps (rtsp_server_session_terminate_request terminate_session s).
Proof. unfold rtsp_server_session_terminate_request. keep. Qed.

Hint Resolve keeps_error_respond keeps_terminate_request : keeps.

Lemma keeps_message_handle s m :
  keeps (rtsp_server_session_message_handle junk junk_version handle_message terminate_session s m).
Proof. unfold rtsp_server_session_message_handle, request_line. keep. Qed.

Lemma keeps_activate s m : keeps (session_activate s m).
Proof. unfold session_activate. keep. Qed.

Hint Resolve keeps_message_handle keeps_activate : keeps.

Lemma keeps_setup c : keeps (rtsp_server_session_setup_process create_session uuid c).
Proof.
  unfold rtsp_server_session_setup_process, rtsp_server_session_create.
  apply keeps_bind; [keep|]. intros [s|]; [|keep]. apply keeps_bind; [keep|]. intros x.
  apply (keeps_table c (λ conn, hash_set (session_table conn) (chars (s_id x)) s)). keep.
Qed.

Hint Resolve keeps_setup : keeps.

Lemma keeps_request_process c m :
  keeps (rtsp_server_session_request_process junk junk_version create_session handle_message terminate_session uuid c m).
Proof. unfold rtsp_server_session_request_process, new_session_request, rtsp_server_session_destroy. keep. Qed.

Hint Resolve keeps_request_process : keeps.

Lemma keeps_handler c m status :
  keeps (rtsp_server_message_handler junk junk_version create_session handle_message terminate_session uuid c m status).
Proof. unfold rtsp_server_message_handler. keep. Qed.

(** ** The loop *)

Lemma start_progress (st : apt_text_stream_t) (m : option rtsp_message_t) (st' : apt_text_stream_t) :
  stream_wf st → on_start (rtsp_parser_vtable junk) st = (m, st') → progressed st st'.
Proof.
  intros Hwf. simpl. unfold rtsp_parser_on_start.
  destruct (apt_text_line_read st) as [[ok st1] line] eqn:El. pose proof (line_read_progress _ _ _ _ Hwf El) as Hp.
  destruct ok; [|by intros [= <- <-]]. destruct (rtsp_start_line_parse _ line) as [ok sl].
  destruct ok; by intros [= <- <-].
Qed.

Notation loop :=
  (receive_loop junk junk_version create_session handle_message terminate_session uuid).

(** A loop with more turns than there are characters has the same result with any
    number of turns more. *)
Lemma receive_loop_fuel fuel fuel' sv c x :
  connections sv !! c = Some x → parser_ok (rx_parser x) → text_wf (rx_stream x) →
  length (window (rx_stream x)) < fuel → length (window (rx_stream x)) < fuel' →
  loop fuel c sv = loop fuel' c sv ∧ ∀ sv' o, loop fuel c sv ≠ Ok (false, sv', o).
Proof.
  revert fuel' sv x. induction fuel as [|fuel IH]; intros fuel' sv x Hx Hp Hst Hf Hf'; [lia|].
  destruct fuel' as [|fuel']; [lia|]. cbn [receive_loop]. unfold connection_at, ask, try, mbind, operation_bind.
  cbn [mbind res_bind]. rewrite Hx. cbn [deref mbind res_bind].
  destruct (rtsp_parser_run junk (rx_parser x) (rx_stream x)) as [[[[status p] st] m]|] eqn:Hrun; [|done].
  destruct (parser_run_progress _ _ _ _ _ _ _ start_progress Hp Hst Hrun) as [Hp' Hprog].
  cbn [mbind res_bind connection_put change].
  match goal with |- context [rtsp_server_message_handler _ _ _ _ _ _ c m status ?s] => set (sv1 := s) end.
  destruct (rtsp_server_message_handler _ _ _ _ _ _ c m status sv1) as [[[[] sv2] o]|] eqn:Hh; [|done].
  cbn [mbind res_bind]. destruct (apt_text_is_eos st) eqn:Heos; [by split|].
  pose proof (keeps_handler _ _ _ _ _ _ _ Hh c) as Hk. unfold rx in Hk. subst sv1. cbn in Hk.
  rewrite lookup_insert_eq in Hk. simpl in Hk. apply fmap_Some in Hk as (x2 & Hx2 & [= Hp2 Hst2]).
  pose proof (progressed_window _ _ (proj1 Hst) Hprog Heos) as Hlt.
  destruct (IH fuel' sv2 x2 Hx2) as [He Hn].
  - by rewrite <- Hp2.
  - rewrite <- Hst2. eapply advanced_text_wf; [done|apply Hprog].
  - rewrite <- Hst2. lia.
  - rewrite <- Hst2. lia.
  - rewrite <- He. split; [done|]. intros sv' o'.
    destruct (loop fuel c sv2) as [[[b sv3] o3]|] eqn:Hl; [|done]. cbn [mbind res_bind].
    intros [= -> <- _]. by apply (Hn sv3 o3).
Qed.

(** C31: The loop over the text that a client has sent ends, whatever the text and
    wherever the parser is in a message: as many turns as there are characters,
    and one, are enough, so that the turns never run out. *)
Theorem receive_loop_ends (fuel : nat) (sv : rtsp_server_t) (c : cid) (x : rtsp_server_connection_t) :
  connections sv !! c = Some x → parser_ok (rx_parser x) → text_wf (rx_stream x) →
  length (window (rx_stream x)) < fuel →
  loop fuel c sv = loop (S (length (window (rx_stream x)))) c sv ∧
  ∀ sv' o, loop fuel c sv ≠ Ok (false, sv', o).
Proof. intros Hx Hp Hst Hf. by apply (receive_loop_fuel _ _ _ _ x); [..|lia]. Qed.

End Receive.

(** Two requests in one buffer. *)
Definition two_requests : cstr :=
  lit "OPTIONS rtsp://host/media RTSP/1.0" ++ CRLF ++ lit "CSeq: 1" ++ CRLF ++ CRLF ++
  lit "OPTIONS rtsp://host/media RTSP/1.0" ++ CRLF ++ lit "CSeq: 2" ++ CRLF ++ CRLF.

Definition receiving_server : rtsp_server_t :=
  rtsp_server_create <| connections := {[ 0 := mk_rtsp_connection true None []
    (apt_text_stream_init two_requests (length two_requests)) apt_message_parser_create ]} |>.

Lemma receive_loop_ends_witness :
  ∃ sv o, receive_loop 0 RTSP_VERSION_1 (λ _, true) (λ _ _, true) (λ _, true) (λ _, []) 200 0 receiving_server =
    Ok (true, sv, o) ∧ length o = 2.
Proof.
  destruct (receive_loop_ends 0 RTSP_VERSION_1 (λ _, true) (λ _ _, true) (λ _, true) (λ _, []) 200
    receiving_server 0 (mk_rtsp_connection true None []
      (apt_text_stream_init two_requests (length two_requests)) apt_message_parser_create)) as [_ Hends].
  - vm_compute. reflexivity.
  - intros Hs. discriminate Hs.
  - split; [split; vm_compute; lia|split; vm_compute; [lia|reflexivity]].
  - vm_compute. lia.
  - destruct (receive_loop _ _ _ _ _ _ 200 0 receiving_server) as [[[[] sv] o]|] eqn:Hl.
    + exists sv, o. split; [reflexivity|]. vm_compute in Hl. injection Hl as _ <-. reflexivity.
    + destruct (Hends sv o eq_refl).
    + vm_compute in Hl. discriminate Hl.
Defined.
