(* ===== verification/CodecDescriptor.v ===== *)
(** * CodecDescriptor: descriptors and lists of codecs, and their negotiation
    ([mpf_codec_descriptor.c], [mpf_codec_descriptor.h]).

    The preferred descriptors of a list are pointers into its array: positions
    here. *)
From S2P Require Import Prelude CString RecordUpdate.

Notation RTP_PT_DYNAMIC := 96%Z (only parsing).
Notation RTP_PT_UNKNOWN := 128%Z (only parsing).
Notation MPF_SAMPLE_RATE_NONE := 0%Z (only parsing).
Notation MPF_SAMPLE_RATE_8000 := 1%Z (only parsing).
Notation MPF_SAMPLE_RATE_16000 := 2%Z (only parsing).
Notation MPF_SAMPLE_RATE_32000 := 4%Z (only parsing).
Notation MPF_SAMPLE_RATE_48000 := 8%Z (only parsing).

(** ** Data *)

Record mpf_codec_descriptor_t := mk_codec_descriptor {
  payload_type : Z;
  codec_name : apt_str_t;
  sampling_rate : Z;
  channel_count : Z;
  codec_format : apt_str_t;
  enabled : bool
}.

#[export] Instance eta_codec_descriptor : Settable mpf_codec_descriptor_t :=
  settable! mk_codec_descriptor < payload_type; codec_name; sampling_rate; channel_count; codec_format; enabled >.

Record mpf_codec_list_t := mk_codec_list {
  descriptor_arr : option (list mpf_codec_descriptor_t);
  primary_descriptor : option nat;
  event_descriptor : option nat
}.

Record mpf_codec_attribs_t := mk_codec_attribs {
  attribs_name : apt_str_t;
  bits_per_sample : Z;
  sample_rates : Z
}.

Record mpf_codec_capabilities_t := mk_codec_capabilities {
  attrib_arr : list mpf_codec_attribs_t;
  allow_named_events : bool
}.

(** ** Descriptors *)

Definition mpf_codec_descriptor_init : mpf_codec_descriptor_t :=
  mk_codec_descriptor 0 apt_string_reset 0 0 apt_string_reset true.

Definition mpf_sample_rate_mask_get (rate : Z) : Z :=
  if decide (rate = 8000%Z) then MPF_SAMPLE_RATE_8000
  else if decide (rate = 16000%Z) then MPF_SAMPLE_RATE_16000
  else if decide (rate = 32000%Z) then MPF_SAMPLE_RATE_32000
  else if decide (rate = 48000%Z) then MPF_SAMPLE_RATE_48000
  else MPF_SAMPLE_RATE_NONE.

Definition mpf_sampling_rate_check (rate mask : Z) : bool :=
  bool_decide (Z.land (mpf_sample_rate_mask_get rate) mask ≠ 0%Z).

Definition lpcm_attribs : mpf_codec_attribs_t :=
  mk_codec_attribs (str_of (lit "LPCM")) 16
    (Z.lor (Z.lor MPF_SAMPLE_RATE_8000 MPF_SAMPLE_RATE_16000) (Z.lor MPF_SAMPLE_RATE_32000 MPF_SAMPLE_RATE_48000)).

Definition mpf_codec_lpcm_descriptor_create (rate channels : Z) : mpf_codec_descriptor_t :=
  mpf_codec_descriptor_init <| payload_type := RTP_PT_UNKNOWN |> <| codec_name := attribs_name lpcm_attribs |>
    <| sampling_rate := rate |> <| channel_count := channels |>.

Definition mpf_codec_descriptors_match (d1 d2 : mpf_codec_descriptor_t) : bool :=
  if decide (payload_type d1 < RTP_PT_DYNAMIC ∧ payload_type d2 < RTP_PT_DYNAMIC)%Z then
    bool_decide (payload_type d1 = payload_type d2)
  else
    apt_string_compare (codec_name d1) (codec_name d2) &&
    bool_decide (sampling_rate d1 = sampling_rate d2 ∧ channel_count d1 = channel_count d2).

Definition mpf_codec_lpcm_descriptor_match (d : mpf_codec_descriptor_t) : bool :=
  apt_string_compare (codec_name d) (attribs_name lpcm_attribs).

(** A static descriptor completes the name and the rates of [d]. *)
Definition mpf_codec_descriptor_match_by_attribs (d : mpf_codec_descriptor_t)
    (static_descriptor : option mpf_codec_descriptor_t) (attribs : mpf_codec_attribs_t)
    : bool * mpf_codec_descriptor_t :=
  if decide (payload_type d < RTP_PT_DYNAMIC)%Z then
    match static_descriptor with
    | Some s =>
        if decide (payload_type s = payload_type d) then
          (true, d <| codec_name := codec_name s |> <| sampling_rate := sampling_rate s |>
                   <| channel_count := channel_count s |>)
        else (false, d)
    | None => (false, d)
    end
  else
    (apt_string_compare (attribs_name attribs) (codec_name d) &&
     mpf_sampling_rate_check (sampling_rate d) (sample_rates attribs), d).

Definition TEL_EVENT_NAME : cstr := lit "telephone-event".

Definition mpf_event_descriptor_check (d : mpf_codec_descriptor_t) : bool :=
  apt_string_compare (codec_name d) (str_of TEL_EVENT_NAME).

(** ** Capabilities *)

Definition mpf_codec_capabilities_init : mpf_codec_capabilities_t := mk_codec_capabilities [] true.

Definition mpf_codec_capabilities_merge (c src : mpf_codec_capabilities_t) : mpf_codec_capabilities_t :=
  mk_codec_capabilities (attrib_arr c ++ attrib_arr src) (allow_named_events c || allow_named_events src).

Definition mpf_codec_capabilities_add (c : mpf_codec_capabilities_t) (rates : Z) (name : cstr)
    : mpf_codec_capabilities_t :=
  mk_codec_capabilities (attrib_arr c ++ [mk_codec_attribs (str_of name) 0 rates]) (allow_named_events c).

Definition mpf_codec_default_capabilities_add (c : mpf_codec_capabilities_t) : mpf_codec_capabilities_t :=
  mpf_codec_capabilities_add c MPF_SAMPLE_RATE_8000 (chars (attribs_name lpcm_attribs)).

Definition mpf_codec_capabilities_validate (c : mpf_codec_capabilities_t) : mpf_codec_capabilities_t :=
  if decide (attrib_arr c = []) then mpf_codec_default_capabilities_add c else c.

Definition mpf_codec_capabilities_attribs_find (c : mpf_codec_capabilities_t) (d : mpf_codec_descriptor_t)
    : option mpf_codec_attribs_t :=
  snd <$> list_find (λ a, mpf_sampling_rate_check (sampling_rate d) (sample_rates a) = true) (attrib_arr c).

Definition mpf_codec_descriptor_create_by_capabilities (c : option mpf_codec_capabilities_t)
    (peer : option mpf_codec_descriptor_t) : mpf_codec_descriptor_t :=
  match c, peer with
  | Some c, Some peer =>
      match mpf_codec_capabilities_attribs_find c peer with
      | Some a =>
          if apt_string_compare (codec_name peer) (attribs_name a) then peer
          else peer <| payload_type := RTP_PT_UNKNOWN |> <| codec_name := attribs_name a |>
      | None => mpf_codec_lpcm_descriptor_create 8000 1
      end
  | _, _ => mpf_codec_lpcm_descriptor_create 8000 1
  end.

(** ** Lists *)

Definition mpf_codec_list_reset : mpf_codec_list_t := mk_codec_list None None None.
Definition mpf_codec_list_init : mpf_codec_list_t := mk_codec_list (Some []) None None.

Definition mpf_codec_list_copy (l src : mpf_codec_list_t) : mpf_codec_list_t :=
  mk_codec_list (descriptor_arr src) (primary_descriptor l) (event_descriptor l).

Definition mpf_codec_list_is_empty (l : mpf_codec_list_t) : bool :=
  bool_decide (default [] (descriptor_arr l) = []).

(** The position of the first descriptor of a list that matches [d]. *)
Definition mpf_codec_list_descriptor_find (arr : list mpf_codec_descriptor_t) (d : mpf_codec_descriptor_t)
    : option nat :=
  fst <$> list_find (λ e, mpf_codec_descriptors_match d e = true) arr.

Definition mpf_codec_list_match (l : mpf_codec_list_t) (c : option mpf_codec_capabilities_t)
    : res (bool * mpf_codec_list_t) :=
  match c with
  | None => Ok (false, l)
  | Some c =>
      arr ← deref (descriptor_arr l);
      let found d := enabled d && bool_decide (is_Some (mpf_codec_capabilities_attribs_find c d)) in
      Ok (existsb found arr,
          mk_codec_list (Some ((λ d, d <| enabled := found d |>) <$> arr))
            (primary_descriptor l) (event_descriptor l))
  end.

(** The preferred descriptors of the two lists, while they are searched. *)
Record preferred := mk_preferred {
  primary1 : option nat; event1 : option nat;
  primary2 : option nat; event2 : option nat
}.

#[export] Instance eta_preferred : Settable preferred :=
  settable! mk_preferred < primary1; event1; primary2; event2 >.

(** A descriptor of the second list that matches and is enabled. *)
Definition enabled_match (arr2 : list mpf_codec_descriptor_t) (d : mpf_codec_descriptor_t) : option nat :=
  j ← mpf_codec_list_descriptor_find arr2 d;
  d2 ← arr2 !! j;
  if enabled d2 then Some j else None.

(** The loop over the first list, from the position [i] on. *)
Fixpoint intersect_loop (arr2 l : list mpf_codec_descriptor_t) (i : nat) (p : preferred)
    : list mpf_codec_descriptor_t * preferred :=
  match l with
  | [] => ([], p)
  | d :: l =>
      let '(on, p) :=
        if negb (enabled d) then (false, p)
        else if mpf_event_descriptor_check d then
          if event1 p then (false, p)
          else match enabled_match arr2 d with
               | Some j => (true, p <| event1 := Some i |> <| event2 := Some j |>)
               | None => (false, p)
               end
        else
          if primary1 p then (false, p)
          else match enabled_match arr2 d with
               | Some j => (true, p <| primary1 := Some i |> <| primary2 := Some j |>)
               | None => (false, p)
               end in
      let '(l, p) := intersect_loop arr2 l (S i) p in
      (d <| enabled := on |> :: l, p)
  end.

Definition mpf_codec_lists_intersect (l1 l2 : mpf_codec_list_t)
    : res (bool * mpf_codec_list_t * mpf_codec_list_t) :=
  arr1 ← deref (descriptor_arr l1);
  arr2 ← deref (descriptor_arr l2);
  let '(arr1, p) := intersect_loop arr2 arr1 0 (mk_preferred None None None None) in
  let arr2 := imap (λ j d, d <| enabled := bool_decide (primary2 p = Some j ∨ event2 p = Some j) |>) arr2 in
  Ok (match primary1 p with
      | Some i => from_option enabled false (arr1 !! i)
      | None => false
      end,
      mk_codec_list (Some arr1) (primary1 p) (event1 p),
      mk_codec_list (Some arr2) (primary2 p) (event2 p)).

(** [while(i < nelts) { ... if(enabled) break; i++; }] *)
Fixpoint disabled_prefix (l : list mpf_codec_descriptor_t) : nat :=
  match l with
  | [] => 0
  | d :: l => if enabled d then 0 else S (disabled_prefix l)
  end.
Definition next_enabled (arr : list mpf_codec_descriptor_t) (i : nat) : nat := i + disabled_prefix (drop i arr).

Fixpoint compare_loop (fuel : nat) (arr1 arr2 : list mpf_codec_descriptor_t) (i j : nat) : option bool :=
  match fuel with
  | O => None
  | S fuel =>
      let i := next_enabled arr1 i in
      let j := next_enabled arr2 j in
      match arr1 !! i, arr2 !! j with
      | Some d1, Some d2 =>
          if mpf_codec_descriptors_match d1 d2 then compare_loop fuel arr1 arr2 (S i) (S j) else Some false
      | _, _ => Some (bool_decide (i = length arr1 ∧ j = length arr2))
      end
  end.

Definition mpf_codec_lists_compare (l1 l2 : mpf_codec_list_t) : res bool :=
  arr1 ← deref (descriptor_arr l1);
  arr2 ← deref (descriptor_arr l2);
  deref (compare_loop (S (length arr1)) arr1 arr2 0 0).

(** ** Comparison *)

Definition enabled_of (l : list mpf_codec_descriptor_t) : list mpf_codec_descriptor_t :=
  filter (λ d, enabled d = true) l.

(** Two lists are the same when their enabled descriptors match one by one. *)
Fixpoint same_codecs (l1 l2 : list mpf_codec_descriptor_t) : bool :=
  match l1, l2 with
  | [], [] => true
  | d1 :: l1, d2 :: l2 => mpf_codec_descriptors_match d1 d2 && same_codecs l1 l2
  | _, _ => false
  end.

Lemma disabled_prefix_le l : disabled_prefix l ≤ length l.
Proof. induction l as [|d l IH]; simpl; [done|]. destruct (enabled d); lia. Qed.

Lemma enabled_of_prefix l : enabled_of l = enabled_of (drop (disabled_prefix l) l).
Proof.
  induction l as [|d l IH]; [done|]. simpl. destruct (enabled d) eqn:Hd; [done|]. simpl.
  unfold enabled_of in *. by rewrite filter_cons_False by congruence.
Qed.

(** What the search finds: the next enabled descriptor, or the end. *)
Lemma next_enabled_spec arr i :
  i ≤ length arr →
  i ≤ next_enabled arr i ≤ length arr ∧
  match arr !! next_enabled arr i with
  | Some d => enabled_of (drop i arr) = d :: enabled_of (drop (S (next_enabled arr i)) arr)
  | None => next_enabled arr i = length arr ∧ enabled_of (drop i arr) = []
  end.
Proof.
  intros Hi. unfold next_enabled. pose proof (disabled_prefix_le (drop i arr)) as Hle.
  rewrite length_drop in Hle. split; [lia|]. rewrite enabled_of_prefix, drop_drop.
  set (k := disabled_prefix (drop i arr)). rewrite <- lookup_drop.
  assert (Hhead : ∀ d, drop i arr !! k = Some d → enabled d = true).
  { subst k. clear. induction (drop i arr) as [|e l IH]; intros d; [done|]. simpl.
    destruct (enabled e) eqn:He; simpl; [by intros [= <-]|apply IH]. }
  destruct (drop i arr !! k) as [d|] eqn:Hd.
  - pose proof (Hhead d eq_refl) as He. rewrite lookup_drop in Hd. rewrite (drop_S _ _ _ Hd). unfold enabled_of.
    by rewrite filter_cons_True by done.
  - apply lookup_ge_None in Hd. rewrite length_drop in Hd. split; [lia|]. by rewrite drop_ge by lia.
Qed.

Lemma compare_loop_spec fuel arr1 arr2 i j :
  length arr1 - i < fuel → i ≤ length arr1 → j ≤ length arr2 →
  compare_loop fuel arr1 arr2 i j = Some (same_codecs (enabled_of (drop i arr1)) (enabled_of (drop j arr2))).
Proof.
  revert i j. induction fuel as [|fuel IH]; intros i j Hf Hi Hj; [lia|]. cbn [compare_loop].
  destruct (next_enabled_spec arr1 i Hi) as [[Hi1 Hi2] H1], (next_enabled_spec arr2 j Hj) as [[Hj1 Hj2] H2].
  set (i' := next_enabled arr1 i) in *. set (j' := next_enabled arr2 j) in *.
  destruct (arr1 !! i') as [d1|] eqn:E1, (arr2 !! j') as [d2|] eqn:E2.
  - rewrite H1, H2. cbn [same_codecs]. destruct (mpf_codec_descriptors_match d1 d2); [|done].
    apply lookup_lt_Some in E1, E2. apply IH; lia.
  - destruct H2 as [Hj3 ->]. rewrite H1. apply lookup_lt_Some in E1. simpl. f_equal. apply bool_decide_eq_false. lia.
  - destruct H1 as [Hi3 ->]. rewrite H2. apply lookup_lt_Some in E2. simpl. f_equal. apply bool_decide_eq_false. lia.
  - destruct H1 as [Hi3 ->], H2 as [Hj3 ->]. f_equal. by apply bool_decide_eq_true.
Qed.

(** C23: Comparing two lists of codecs with two positions that skip the disabled
    descriptors is the comparison of the enabled descriptors one by one, and the
    loop always ends. *)
Theorem codec_lists_compare_spec (l1 l2 : mpf_codec_list_t) (arr1 arr2 : list mpf_codec_descriptor_t) :
  descriptor_arr l1 = Some arr1 → descriptor_arr l2 = Some arr2 →
  mpf_codec_lists_compare l1 l2 = Ok (same_codecs (enabled_of arr1) (enabled_of arr2)).
Proof.
  intros H1 H2. unfold mpf_codec_lists_compare. rewrite H1, H2. cbn [deref mbind res_bind].
  rewrite compare_loop_spec by lia. by rewrite !drop_0.
Qed.

(** ** Negotiation *)

Section Negotiation.
  Context (arr1 arr2 : list mpf_codec_descriptor_t).

(** The descriptor [i] of the first list is enabled, and so is the descriptor [j]
    of the second list that matches it; [ev] tells named events from codecs. *)
Definition candidate (ev : bool) (i j : nat) : Prop :=
  ∃ d, arr1 !! i = Some d ∧ enabled d = true ∧ mpf_event_descriptor_check d = ev ∧ enabled_match arr2 d = Some j.

(** The first candidate before the position [n], if there is one. *)
Definition first_before (n : nat) (ev : bool) (o1 o2 : option nat) : Prop :=
  match o1, o2 with
  | Some i, Some j => i < n ∧ candidate ev i j ∧ ∀ i' j', i' < i → ¬ candidate ev i' j'
  | None, None => ∀ i j, i < n → ¬ candidate ev i j
  | _, _ => False
  end.

Definition searched (n : nat) (p : preferred) : Prop :=
  first_before n false (primary1 p) (primary2 p) ∧ first_before n true (event1 p) (event2 p).

Lemma candidate_inj ev ev' i j j' : candidate ev i j → candidate ev' i j' → ev = ev' ∧ j = j'.
Proof. intros (d & Hd & _ & <- & Hm) (d' & Hd' & _ & <- & Hm'). split; congruence. Qed.

(** One more descriptor, which is no candidate, or the first one. *)
Lemma first_before_skip n ev o1 o2 :
  first_before n ev o1 o2 → (o1 = None → ∀ j, ¬ candidate ev n j) → first_before (S n) ev o1 o2.
Proof.
  unfold first_before. destruct o1 as [i|], o2 as [j|]; try done.
  - intros (Hi & Hc) _. split; [lia|done].
  - intros Hn Hj i j Hi. destruct (decide (i = n)) as [->|Hne]; [by apply Hj|]. apply Hn. lia.
Qed.

Lemma first_before_new n ev j :
  first_before n ev None None → candidate ev n j → first_before (S n) ev (Some n) (Some j).
Proof. intros Hn Hc. split; [lia|]. split; [done|]. intros i' j' Hi. by apply Hn. Qed.

(** The step of the loop for the descriptor [d] at the position [i]. *)
Lemma intersect_step d i p :
  arr1 !! i = Some d → searched i p →
  ∃ on p', (if negb (enabled d) then (false, p)
        else if mpf_event_descriptor_check d then
          if event1 p then (false, p)
          else match enabled_match arr2 d with
               | Some j => (true, p <| event1 := Some i |> <| event2 := Some j |>)
               | None => (false, p)
               end
        else
          if primary1 p then (false, p)
          else match enabled_match arr2 d with
               | Some j => (true, p <| primary1 := Some i |> <| primary2 := Some j |>)
               | None => (false, p)
               end) = (on, p') ∧ searched (S i) p' ∧
    (on = true ↔ primary1 p' = Some i ∨ event1 p' = Some i) ∧
    (∀ k, k < i → (primary1 p' = Some k ↔ primary1 p = Some k) ∧ (event1 p' = Some k ↔ event1 p = Some k)).
Proof.
  intros Hd [Hp He].
  assert (Hlt : ∀ ev o1 o2, first_before i ev o1 o2 → o1 ≠ Some i).
  { intros ev [k|] [j|] Hf; simpl in Hf; try done. intros [= ->]. lia. }
  assert (Hskip : (false = true ↔ primary1 p = Some i ∨ event1 p = Some i) ∧
    ∀ k, k < i → (primary1 p = Some k ↔ primary1 p = Some k) ∧ (event1 p = Some k ↔ event1 p = Some k)).
  { split; [|done]. split; [done|]. intros [H|H]; [by destruct (Hlt _ _ _ Hp H)|by destruct (Hlt _ _ _ He H)]. }
  assert (Hnc : ∀ ev j, candidate ev i j → enabled d = true ∧ mpf_event_descriptor_check d = ev ∧ enabled_match arr2 d = Some j)
    by (intros ev j (d' & Hd' & ? & ? & ?); rewrite Hd in Hd'; by injection Hd' as <-).
  assert (Hstay : ∀ b, (∀ ev j, candidate ev i j → ev = b ∧ (if b then event1 p else primary1 p) ≠ None) →
    searched (S i) p).
  { intros b Hb. split; apply first_before_skip; try done; intros Hn j Hc; destruct (Hb _ _ Hc) as [<- Hsome]; congruence. }
  destruct (enabled d) eqn:Hen; simpl.
  2:{ eexists _, _. split; [done|]. split; [|exact Hskip].
      apply (Hstay true). intros ev j Hc. by destruct (Hnc _ _ Hc). }
  destruct (mpf_event_descriptor_check d) eqn:Hev.
  - destruct (event1 p) as [k|] eqn:Hek.
    { eexists _, _. split; [done|]. split; [|rewrite Hek; exact Hskip].
      apply (Hstay true). intros ev j Hc. by destruct (Hnc _ _ Hc) as (_ & <- & _). }
    destruct (enabled_match arr2 d) as [j|] eqn:Hm; eexists _, _; (split; [done|]).
    + assert (Hc : candidate true i j) by (by exists d). destruct (event2 p) as [k|] eqn:He2; [done|].
      split; [|simpl; rewrite ?Hek; split; [split; [by right|done]|intros k Hk; split; [done|split; intros [= ?]; lia]]].
      split; simpl; [|by apply first_before_new].
      apply first_before_skip; [done|]. intros _ j' Hc'. by destruct (candidate_inj _ _ _ _ _ Hc Hc').
    + split; [|rewrite Hek; exact Hskip].
      apply (Hstay true). intros ev j Hc. by destruct (Hnc _ _ Hc) as (_ & _ & ?).
  - destruct (primary1 p) as [k|] eqn:Hpk.
    { eexists _, _. split; [done|]. split; [|rewrite Hpk; exact Hskip].
      apply (Hstay false). intros ev j Hc. by destruct (Hnc _ _ Hc) as (_ & <- & _). }
    destruct (enabled_match arr2 d) as [j|] eqn:Hm; eexists _, _; (split; [done|]).
    + assert (Hc : candidate false i j) by (by exists d). destruct (primary2 p) as [k|] eqn:Hp2; [done|].
      split; [|simpl; rewrite ?Hpk; split; [split; [by left|done]|intros k Hk; split; [split; intros [= ?]; lia|done]]].
      split; simpl; [by apply first_before_new|].
      apply first_before_skip; [done|]. intros _ j' Hc'. by destruct (candidate_inj _ _ _ _ _ Hc Hc').
    + split; [|rewrite Hpk; exact Hskip].
      apply (Hstay false). intros ev j Hc. by destruct (Hnc _ _ Hc) as (_ & _ & ?).
Qed.

Lemma intersect_loop_spec l i p :
  drop i arr1 = l → searched i p →
  ∃ l' p', intersect_loop arr2 l i p = (l', p') ∧ searched (length arr1) p' ∧
    l' = imap (λ k d, d <| enabled := bool_decide (primary1 p' = Some (i + k) ∨ event1 p' = Some (i + k)) |>) l ∧
    (∀ k, k < i → (primary1 p' = Some k ↔ primary1 p = Some k) ∧ (event1 p' = Some k ↔ event1 p = Some k)).
Proof.
  revert i p. induction l as [|d l IH]; intros i p Hl Hs.
  - eexists _, _. split; [done|]. split; [|done].
    assert (Hle : length arr1 ≤ i) by (apply (f_equal length) in Hl; rewrite length_drop in Hl; simpl in Hl; lia).
    destruct Hs as [Hp He]. split; unfold first_before in *.
    + destruct (primary1 p), (primary2 p); try done.
      * destruct Hp as (_ & Hc & Hm). split; [|done]. destruct Hc as (? & Hc & _). by apply lookup_lt_Some in Hc.
      * intros a b Ha. apply Hp. lia.
    + destruct (event1 p), (event2 p); try done.
      * destruct He as (_ & Hc & Hm). split; [|done]. destruct Hc as (? & Hc & _). by apply lookup_lt_Some in Hc.
      * intros a b Ha. apply He. lia.
  - assert (Hd : arr1 !! i = Some d) by (rewrite <- (Nat.add_0_r i), <- lookup_drop, Hl; done).
    destruct (intersect_step d i p Hd Hs) as (on & p1 & Hstep & Hs1 & Hon & Hk1). cbn [intersect_loop].
    rewrite Hstep. destruct (IH (S i) p1) as (l' & p' & -> & Hs' & -> & Hk').
    { rewrite (drop_S _ _ _ Hd) in Hl. by injection Hl. }
    { done. }
    eexists _, _. split; [done|]. split; [done|]. split.
    + cbn [imap]. f_equal.
      * f_equal. rewrite Nat.add_0_r. destruct (Hk' i ltac:(lia)) as [Hpi Hei]. symmetry.
        destruct on; [apply bool_decide_eq_true|apply bool_decide_eq_false]; rewrite Hpi, Hei; [by apply Hon|].
        intros H. by apply Hon in H.
      * apply imap_ext. intros k d' _. unfold compose. by rewrite Nat.add_succ_r.
    + intros k Hk. destruct (Hk' k ltac:(lia)) as [-> ->]. by apply Hk1.
Qed.

End Negotiation.

(** The descriptors of a list, enabled at the given positions only. *)
Definition enabled_at (arr : list mpf_codec_descriptor_t) (p e : option nat) : list mpf_codec_descriptor_t :=
  imap (λ k d, d <| enabled := bool_decide (p = Some k ∨ e = Some k) |>) arr.

(** C22: The negotiation of codecs agrees on at most one codec and one named event.
    The codec is the first enabled one of the first list whose match in the second
    list is enabled, and the same for the named event; in both lists exactly the
    descriptors agreed on stay enabled, and nothing else of them changes.  It
    succeeds if and only if a codec was agreed on. *)
Theorem codec_negotiation (l1 l2 : mpf_codec_list_t) (arr1 arr2 : list mpf_codec_descriptor_t) :
  descriptor_arr l1 = Some arr1 → descriptor_arr l2 = Some arr2 →
  ∃ ok p1 e1 p2 e2, mpf_codec_lists_intersect l1 l2 =
      Ok (ok, mk_codec_list (Some (enabled_at arr1 p1 e1)) p1 e1, mk_codec_list (Some (enabled_at arr2 p2 e2)) p2 e2) ∧
    first_before arr1 arr2 (length arr1) false p1 p2 ∧ first_before arr1 arr2 (length arr1) true e1 e2 ∧
    (ok = true ↔ ∃ i j, candidate arr1 arr2 false i j).
Proof.
  intros H1 H2. unfold mpf_codec_lists_intersect. rewrite H1, H2. cbn [deref mbind res_bind].
  destruct (intersect_loop_spec arr1 arr2 arr1 0 (mk_preferred None None None None)) as
    (l' & [p1 e1 p2 e2] & -> & [Hp He] & -> & _); [done|split; intros i j Hi; lia|].
  cbn [primary1 primary2 event1 event2] in *. cbn [mbind res_bind].
  eexists _, p1, e1, p2, e2. split; [done|]. split; [done|]. split; [done|].
  destruct p1 as [i|], p2 as [j|]; simpl in Hp; try done.
  - destruct Hp as (Hi & Hc & _). split; [by eauto|]. intros _. rewrite list_lookup_imap.
    destruct (lookup_lt_is_Some_2 arr1 i Hi) as [d ->]. simpl. apply bool_decide_eq_true. by left.
  - split; [done|]. intros (i & j & Hc). destruct (Hp i j); [|done]. destruct Hc as (d & Hd & _).
    by apply lookup_lt_Some in Hd.
Qed.

(** PCMU and PCMA with named events, offered to a list that prefers PCMA. *)
Definition sample_codec (pt : Z) (name : cstr) : mpf_codec_descriptor_t :=
  mk_codec_descriptor pt (str_of name) 8000 1 apt_string_reset true.
Definition offered_codecs : list mpf_codec_descriptor_t :=
  [sample_codec 0 (lit "PCMU"); sample_codec 8 (lit "PCMA"); sample_codec 101 TEL_EVENT_NAME].
Definition local_codecs : list mpf_codec_descriptor_t :=
  [sample_codec 8 (lit "PCMA"); sample_codec 96 (lit "L16"); sample_codec 97 TEL_EVENT_NAME].

Lemma codec_negotiation_witness :
  ∃ l1 l2, mpf_codec_lists_intersect (mk_codec_list (Some offered_codecs) None None)
      (mk_codec_list (Some local_codecs) None None) = Ok (true, l1, l2) ∧
    primary_descriptor l1 = Some 1 ∧ primary_descriptor l2 = Some 0 ∧
    first_before offered_codecs local_codecs 3 false (Some 1) (Some 0).
Proof.
  destruct (codec_negotiation (mk_codec_list (Some offered_codecs) None None)
    (mk_codec_list (Some local_codecs) None None) offered_codecs local_codecs eq_refl eq_refl)
    as (ok & p1 & e1 & p2 & e2 & Hi & Hp & _ & _).
  assert (Hc : ∃ l1 l2, mpf_codec_lists_intersect (mk_codec_list (Some offered_codecs) None None)
      (mk_codec_list (Some local_codecs) None None) = Ok (true, l1, l2) ∧
    primary_descriptor l1 = Some 1 ∧ primary_descriptor l2 = Some 0)
    by (eexists _, _; split; [vm_compute; reflexivity|split; reflexivity]).
  destruct Hc as (l1 & l2 & Hrun & H1 & H2). rewrite Hi in Hrun. injection Hrun as Hok <- <-.
  simpl in H1, H2. subst ok p1 p2. eexists _, _. split; [exact Hi|]. split; [reflexivity|]. split; [reflexivity|].
  exact Hp.
Defined.

Lemma codec_lists_compare_spec_witness :
  mpf_codec_lists_compare (mk_codec_list (Some offered_codecs) None None)
    (mk_codec_list (Some (mpf_codec_descriptor_init <| enabled := false |> :: offered_codecs)) None None) = Ok true.
Proof.
  rewrite (codec_lists_compare_spec (mk_codec_list (Some offered_codecs) None None) (mk_codec_list (Some
    (mpf_codec_descriptor_init <| enabled := false |> :: offered_codecs)) None None) _ _ eq_refl eq_refl).
  vm_compute. reflexivity.
Defined.
