(* ===== verification/SessionDescriptor.v ===== *)
(** * SessionDescriptor: what offers and answers describe
    ([mrcp_session_descriptor.c], [mrcp_control_descriptor.c],
    [mpf_rtp_descriptor.h], [mpf_stream.c]).

    The arrays of media hold pointers, which may be NULL in an answer. *)
From S2P Require Import Prelude CString RecordUpdate CodecDescriptor.

(** ** Streams *)

Notation STREAM_DIRECTION_NONE := 0%Z (only parsing).
Notation STREAM_DIRECTION_SEND := 1%Z (only parsing).
Notation STREAM_DIRECTION_RECEIVE := 2%Z (only parsing).

Record mpf_stream_capabilities_t := mk_stream_capabilities {
  cap_direction : Z;
  cap_codecs : mpf_codec_capabilities_t
}.

#[export] Instance eta_stream_capabilities : Settable mpf_stream_capabilities_t :=
  settable! mk_stream_capabilities < cap_direction; cap_codecs >.

Definition mpf_stream_capabilities_merge (c src : mpf_stream_capabilities_t) : mpf_stream_capabilities_t :=
  mk_stream_capabilities (Z.lor (cap_direction c) (cap_direction src))
    (mpf_codec_capabilities_merge (cap_codecs c) (cap_codecs src)).

Definition mpf_stream_reverse_direction_get (direction : Z) : Z :=
  if decide (direction = STREAM_DIRECTION_SEND) then STREAM_DIRECTION_RECEIVE
  else if decide (direction = STREAM_DIRECTION_RECEIVE) then STREAM_DIRECTION_SEND
  else direction.

(** ** Media *)

Inductive mpf_media_state_e := MPF_MEDIA_DISABLED | MPF_MEDIA_ENABLED.

#[export] Instance media_state_eq : EqDecision mpf_media_state_e.
Proof. solve_decision. Defined.

Record mpf_rtp_media_descriptor_t := mk_rtp_media {
  media_state : mpf_media_state_e;
  media_ip : apt_str_t;
  media_ext_ip : apt_str_t;
  media_port : Z;
  media_direction : Z;
  media_ptime : Z;
  media_codec_list : mpf_codec_list_t;
  media_mid : nat;
  media_id : nat
}.

#[export] Instance eta_rtp_media : Settable mpf_rtp_media_descriptor_t :=
  settable! mk_rtp_media < media_state; media_ip; media_ext_ip; media_port; media_direction; media_ptime;
    media_codec_list; media_mid; media_id >.

Definition mpf_rtp_media_descriptor_init : mpf_rtp_media_descriptor_t :=
  mk_rtp_media MPF_MEDIA_DISABLED apt_string_reset apt_string_reset 0 STREAM_DIRECTION_NONE 0
    mpf_codec_list_reset 0 0.

(** The audio stream of a termination; the video stream is never set. *)
Record mpf_rtp_stream_descriptor_t := mk_rtp_stream {
  capabilities : option mpf_stream_capabilities_t;
  local : option mpf_rtp_media_descriptor_t;
  remote : option mpf_rtp_media_descriptor_t
}.

Definition mpf_rtp_media_descriptors_compare (m1 m2 : option mpf_rtp_media_descriptor_t) : res bool :=
  match m1, m2 with
  | Some m1, Some m2 =>
      if bool_decide (media_state m1 = media_state m2) &&
         apt_strings_compare (media_ip m1) (media_ip m2) &&
         apt_strings_compare (media_ext_ip m1) (media_ext_ip m2) &&
         bool_decide (media_port m1 = media_port m2) &&
         bool_decide (media_direction m1 = media_direction m2) &&
         bool_decide (media_ptime m1 = media_ptime m2) then
        same ← mpf_codec_lists_compare (media_codec_list m1) (media_codec_list m2);
        Ok (same && bool_decide (media_mid m1 = media_mid m2) && bool_decide (media_id m1 = media_id m2))
      else Ok false
  | _, _ => Ok false
  end.

(** ** Control media *)

Notation MRCP_SETUP_TYPE_PASSIVE := 1 (only parsing).

Record mrcp_control_descriptor_t := mk_control_descriptor {
  cd_ip : apt_str_t;
  cd_port : Z;
  cd_proto : nat;
  cd_setup_type : nat;
  cd_connection_type : nat;
  cd_resource_name : apt_str_t;
  cd_session_id : apt_str_t;
  cd_cmid_arr : list nat;
  cd_id : nat
}.

#[export] Instance eta_control_descriptor : Settable mrcp_control_descriptor_t :=
  settable! mk_control_descriptor < cd_ip; cd_port; cd_proto; cd_setup_type; cd_connection_type; cd_resource_name;
    cd_session_id; cd_cmid_arr; cd_id >.

Definition mrcp_control_answer_create (offer : mrcp_control_descriptor_t) : mrcp_control_descriptor_t :=
  offer <| cd_setup_type := MRCP_SETUP_TYPE_PASSIVE |>.

(** The connection type and the session identifier are not compared. *)
Definition mrcp_control_descriptors_compare (d1 d2 : option mrcp_control_descriptor_t) : bool :=
  match d1, d2 with
  | Some d1, Some d2 =>
      apt_strings_compare (cd_ip d1) (cd_ip d2) &&
      bool_decide (cd_port d1 = cd_port d2) &&
      bool_decide (cd_proto d1 = cd_proto d2) &&
      bool_decide (cd_setup_type d1 = cd_setup_type d2) &&
      apt_strings_compare (cd_resource_name d1) (cd_resource_name d2) &&
      bool_decide (cd_cmid_arr d1 = cd_cmid_arr d2) &&
      bool_decide (cd_id d1 = cd_id d2)
  | _, _ => false
  end.

Definition mrcp_cmid_find (cmid_arr : list nat) (cmid : nat) : bool := bool_decide (cmid ∈ cmid_arr).

(** ** Sessions *)

Inductive mrcp_session_status_e :=
  | MRCP_SESSION_STATUS_OK
  | MRCP_SESSION_STATUS_NO_SUCH_RESOURCE
  | MRCP_SESSION_STATUS_UNACCEPTABLE_RESOURCE
  | MRCP_SESSION_STATUS_UNAVAILABLE_RESOURCE
  | MRCP_SESSION_STATUS_ERROR.

Record mrcp_session_descriptor_t := mk_session_descriptor {
  sd_origin : apt_str_t;
  sd_ip : apt_str_t;
  sd_ext_ip : apt_str_t;
  sd_resource_name : apt_str_t;
  sd_resource_state : bool;
  sd_status : mrcp_session_status_e;
  control_media_arr : list (option mrcp_control_descriptor_t);
  audio_media_arr : list (option mpf_rtp_media_descriptor_t);
  video_media_arr : list (option mpf_rtp_media_descriptor_t)
}.

#[export] Instance eta_session_descriptor : Settable mrcp_session_descriptor_t :=
  settable! mk_session_descriptor < sd_origin; sd_ip; sd_ext_ip; sd_resource_name; sd_resource_state; sd_status;
    control_media_arr; audio_media_arr; video_media_arr >.

Definition mrcp_session_descriptor_create : mrcp_session_descriptor_t :=
  mk_session_descriptor apt_string_reset apt_string_reset apt_string_reset apt_string_reset false
    MRCP_SESSION_STATUS_OK [] [] [].

(** The response code is left unset; the server does not read it. *)
Definition mrcp_session_answer_create (offer : mrcp_session_descriptor_t) : mrcp_session_descriptor_t :=
  mk_session_descriptor apt_string_reset apt_string_reset apt_string_reset (sd_resource_name offer)
    (sd_resource_state offer) (sd_status offer) (replicate (length (control_media_arr offer)) None)
    (replicate (length (audio_media_arr offer)) None) (replicate (length (video_media_arr offer)) None).

Definition mrcp_session_control_media_get (d : mrcp_session_descriptor_t) (id : nat)
    : option mrcp_control_descriptor_t := mjoin (control_media_arr d !! id).
Definition mrcp_session_control_media_set (d : mrcp_session_descriptor_t) (id : nat)
    (media : mrcp_control_descriptor_t) : mrcp_session_descriptor_t :=
  d <| control_media_arr := <[id := Some media]> (control_media_arr d) |>.
Definition mrcp_session_audio_media_get (d : mrcp_session_descriptor_t) (id : nat)
    : option mpf_rtp_media_descriptor_t := mjoin (audio_media_arr d !! id).
Definition mrcp_session_audio_media_set (d : mrcp_session_descriptor_t) (id : nat)
    (media : mpf_rtp_media_descriptor_t) : mrcp_session_descriptor_t :=
  d <| audio_media_arr := <[id := Some media]> (audio_media_arr d) |>.

(** The loop over two arrays of the same length. *)
Fixpoint compare_all {A} (f : A → A → res bool) (l1 l2 : list A) : res bool :=
  match l1, l2 with
  | x1 :: l1, x2 :: l2 => same ← f x1 x2; if same : bool then compare_all f l1 l2 else Ok false
  | _, _ => Ok true
  end.
Definition compare_arrays {A} (f : A → A → res bool) (l1 l2 : list A) : res bool :=
  if decide (length l1 = length l2) then compare_all f l1 l2 else Ok false.

Definition mrcp_session_offers_compare (o1 o2 : mrcp_session_descriptor_t) : res bool :=
  if apt_strings_compare (sd_origin o1) (sd_origin o2) &&
     apt_strings_compare (sd_ip o1) (sd_ip o2) &&
     apt_strings_compare (sd_ext_ip o1) (sd_ext_ip o2) &&
     apt_strings_compare (sd_resource_name o1) (sd_resource_name o2) &&
     bool_decide (sd_resource_state o1 = sd_resource_state o2) then
    same ← compare_arrays (λ d1 d2, Ok (mrcp_control_descriptors_compare d1 d2))
             (control_media_arr o1) (control_media_arr o2);
    if negb same then Ok false
    else
      same ← compare_arrays mpf_rtp_media_descriptors_compare (audio_media_arr o1) (audio_media_arr o2);
      if negb same then Ok false
      else compare_arrays mpf_rtp_media_descriptors_compare (video_media_arr o1) (video_media_arr o2)
  else Ok false.
