(* ===== verification/ServerSession.v ===== *)
(** * ServerSession: the sessions of the MRCP server ([mrcp_server_session.c]).

    A session takes signaling messages one at a time: offers, which it answers
    when the control connections, the media engine and the engines of the
    resources have done their part, MRCP messages for its channels, and the
    request to terminate.  It counts the requests that it made of others and
    goes on when the last of them is answered.

    Others are asked by actions, which are recorded; their answers are the
    operations [mrcp_server_on_...] and [mrcp_server_mpf_message_process].
    Channels are never removed from the array of the session, so that a pointer
    to a channel is its position there. *)
From S2P Require Import Prelude CString StringTable TextStream HeaderSection MrcpMessage StartLine StateMachine.
From S2P Require Import RecordUpdate Operation CodecDescriptor SessionDescriptor.

Notation MRCP_SESSION_ID_HEX_STRING_LENGTH := 16 (only parsing).
Notation MAX_MPF_MESSAGE_COUNT := 5 (only parsing).

(** ** Data *)

(** A termination has an audio stream, or none. *)
Record mpf_audio_stream_t := mk_audio_stream {
  stream_capabilities : option mpf_stream_capabilities_t;
  stream_direction : Z
}.

Record mrcp_engine_channel_t := mk_engine_channel {
  termination : option (option mpf_audio_stream_t);
  is_open : bool
}.

(** The termination of a slot of the session, or of the engine channel of a
    channel. *)
Inductive mpf_termination := TRtp (slot : nat) | TEngine (channel : nat).

#[export] Instance termination_eq : EqDecision mpf_termination.
Proof. solve_decision. Defined.

Inductive mpf_message_t :=
  | MPF_ADD_TERMINATION (t : mpf_termination) (d : option mpf_rtp_stream_descriptor_t)
  | MPF_MODIFY_TERMINATION (t : mpf_termination) (d : option mpf_rtp_stream_descriptor_t)
  | MPF_SUBTRACT_TERMINATION (t : mpf_termination)
  | MPF_ADD_ASSOCIATION (t : mpf_termination) (assoc : option mpf_termination)
  | MPF_REMOVE_ASSOCIATION (t : mpf_termination) (assoc : option mpf_termination)
  | MPF_RESET_ASSOCIATIONS
  | MPF_APPLY_TOPOLOGY
  | MPF_DESTROY_TOPOLOGY.

(** [engine_channel] and [state_machine] may be NULL; a channel in the array has a
    resource. *)
Record mrcp_channel_t := mk_channel {
  ch_resource : apt_str_t;
  control_channel : bool;
  engine_channel : option mrcp_engine_channel_t;
  state_machine : bool;
  ch_id : nat;
  ch_cmid_arr : option (list nat);
  waiting_for_channel : bool;
  waiting_for_termination : bool
}.

#[export] Instance eta_channel : Settable mrcp_channel_t :=
  settable! mk_channel < ch_resource; control_channel; engine_channel; state_machine; ch_id; ch_cmid_arr;
    waiting_for_channel; waiting_for_termination >.

(** The termination of the slot [i] is [TRtp i]; [slot_channels] are positions. *)
Record mrcp_termination_slot_t := mk_slot {
  slot_id : nat;
  slot_mid : nat;
  slot_channels : list nat;
  slot_waiting : bool
}.

#[export] Instance eta_slot : Settable mrcp_termination_slot_t :=
  settable! mk_slot < slot_id; slot_mid; slot_channels; slot_waiting >.

Inductive mrcp_server_session_state_e :=
  | SESSION_STATE_NONE
  | SESSION_STATE_GENERATING_ANSWER
  | SESSION_STATE_INITIALIZING
  | SESSION_STATE_DEACTIVATING
  | SESSION_STATE_TERMINATING.

#[export] Instance session_state_eq : EqDecision mrcp_server_session_state_e.
Proof. solve_decision. Defined.

Section Data.
  Context {R : Type}.

Inductive mrcp_signaling_message_t :=
  | SIGNALING_MESSAGE_OFFER (descriptor : mrcp_session_descriptor_t)
  | SIGNALING_MESSAGE_CONTROL (channel : option nat) (message : @mrcp_message_t R)
  | SIGNALING_MESSAGE_TERMINATE.

(** [calls] is the number of calls of others so far, which their results depend
    on. *)
Record mrcp_server_session_t := mk_session {
  base_id : apt_str_t;
  context : bool;
  terminations : list mrcp_termination_slot_t;
  channels : list mrcp_channel_t;
  active_request : option mrcp_signaling_message_t;
  request_queue : list mrcp_signaling_message_t;
  offer : option mrcp_session_descriptor_t;
  answer : option mrcp_session_descriptor_t;
  last_offer : option mrcp_session_descriptor_t;
  last_answer : option mrcp_session_descriptor_t;
  mpf_task_msg : option (list mpf_message_t);
  state : mrcp_server_session_state_e;
  subrequest_count : nat;
  calls : nat
}.

#[export] Instance eta_session : Settable mrcp_server_session_t :=
  settable! mk_session < base_id; context; terminations; channels; active_request; request_queue; offer; answer;
    last_offer; last_answer; mpf_task_msg; state; subrequest_count; calls >.

(** What a session asks of others, and tells them.  A request is recorded when it
    was taken, and will be answered. *)
Inductive session_action :=
  | SessionAdd
  | SessionRemove
  | ControlAdd (channel : nat) (d : mrcp_control_descriptor_t)
  | ControlModify (channel : nat) (d : mrcp_control_descriptor_t)
  | ControlRemove (channel : nat)
  | ControlDestroy (channel : nat)
  | ControlSend (channel : nat) (m : @mrcp_message_t R)
  | EngineOpen (channel : nat)
  | EngineClose (channel : nat)
  | EngineDestroy (channel : nat)
  | EngineRequest (channel : nat) (m : @mrcp_message_t R)
  | MachineUpdate (channel : nat) (m : @mrcp_message_t R)
  | MachineDeactivate (channel : nat)
  | MpfSend (container : list mpf_message_t)
  | Answer (d : mrcp_session_descriptor_t)
  | TerminateResponse
  | TerminateEvent.

End Data.

Arguments mrcp_signaling_message_t : clear implicits.
Arguments mrcp_server_session_t : clear implicits.
Arguments session_action : clear implicits.

Definition mrcp_server_session_create {R} : mrcp_server_session_t R :=
  mk_session apt_string_reset false [] [] None apt_list_create None None None None None SESSION_STATE_NONE 0 0.

Section Session.
  Context {R : Type}.
  (** The profile: the version, the resources and the codecs for RTP. *)
  Context (version : mrcp_version_e) (resource_factory : @mrcp_resource_factory_t R) (rtp_codecs : mpf_codec_list_t).
  (** The engine of a resource: whether there is one and whether it makes a state
      machine; the channels that it makes. *)
  Context (engine_find : apt_str_t → bool) (create_state_machine : apt_str_t → bool).
  Context (create_channel : nat → apt_str_t → option mrcp_engine_channel_t).
  (** Whether a request is taken, and the identifier of the session. *)
  Context (taken : nat → bool) (uuid : list Z).

Notation op := (operation (mrcp_server_session_t R) (session_action R)).

(** A call of another component, which returns [taken n] as the [n]-th call does. *)
Definition call (a : session_action R) : op bool :=
  n ← ask calls;
  change (λ s, s <| calls := S n |>);;
  if taken n then emit a;; mret true else mret false.

Definition channel_at (i : nat) : op mrcp_channel_t :=
  c ← ask (λ s, channels s !! i); try (deref c).
Definition channel_put (i : nat) (c : mrcp_channel_t) : op unit :=
  change (λ s, s <| channels := <[i := c]> (channels s) |>).
Definition slot_put (i : nat) (t : mrcp_termination_slot_t) : op unit :=
  change (λ s, s <| terminations := <[i := t]> (terminations s) |>).

(** [session->answer->...] *)
Definition answer_update (f : mrcp_session_descriptor_t → mrcp_session_descriptor_t) : op unit :=
  d ← ask answer; d ← try (deref d); change (λ s, s <| answer := Some (f d) |>).

Definition mrcp_server_session_state_set (st : mrcp_server_session_state_e) : op unit :=
  change (λ s, s <| subrequest_count := 0 |> <| state := st |>).
Definition mrcp_server_session_subrequest_add : op unit :=
  change (λ s, s <| subrequest_count := S (subrequest_count s) |>).

(** ** Messages to the media engine ([mpf_engine.c]) *)

Definition mpf_engine_message_send : op unit :=
  c ← ask mpf_task_msg;
  match c with
  | Some c => emit (MpfSend c);; change (λ s, s <| mpf_task_msg := None |>)
  | None => mret tt
  end.

(** A container that is full is sent before the message is added. *)
Definition mpf_engine_message_add (m : mpf_message_t) : op unit :=
  c ← ask mpf_task_msg;
  match c with
  | Some c =>
      if decide (MAX_MPF_MESSAGE_COUNT ≤ length c) then
        mpf_engine_message_send;; change (λ s, s <| mpf_task_msg := Some [m] |>)
      else change (λ s, s <| mpf_task_msg := Some (c ++ [m]) |>)
  | None => change (λ s, s <| mpf_task_msg := Some [m] |>)
  end.

(** ** Engine channels ([mrcp_engine_iface.h]) *)

Definition mrcp_engine_channel_virtual_open (i : nat) : op bool :=
  c ← channel_at i;
  e ← try (deref (engine_channel c));
  if is_open e then mret false
  else
    ok ← call (EngineOpen i);
    channel_put i (c <| engine_channel := Some (mk_engine_channel (termination e) ok) |>);;
    mret ok.

Definition mrcp_engine_channel_virtual_close (i : nat) : op bool :=
  c ← channel_at i;
  e ← try (deref (engine_channel c));
  if is_open e then
    channel_put i (c <| engine_channel := Some (mk_engine_channel (termination e) false) |>);;
    call (EngineClose i)
  else mret false.

(** ** Channels *)

Definition mrcp_server_channel_find (name : apt_str_t) : op (option nat) :=
  ask (λ s, fst <$> list_find (λ c, apt_string_compare (ch_resource c) name = true) (channels s)).

(** The engine channel and whether there is a state machine. *)
Definition mrcp_server_engine_channel_create (name : apt_str_t) : op (option mrcp_engine_channel_t * bool) :=
  if engine_find name then
    n ← ask calls;
    change (λ s, s <| calls := S n |>);;
    mret (create_channel n name, create_state_machine name)
  else mret (None, false).

(** [None] for a channel without resource, which is dropped. *)
Definition mrcp_server_channel_create (name : apt_str_t) (id : nat) (cmid : option (list nat))
    : op (option mrcp_channel_t) :=
  match buf name with
  | Some _ =>
      match mrcp_resource_find resource_factory name with
      | Some r =>
          '(e, sm) ← mrcp_server_engine_channel_create name;
          (match e with
           | Some _ => mret tt
           | None => answer_update (λ d, d <| sd_status := MRCP_SESSION_STATUS_UNACCEPTABLE_RESOURCE |>)
           end);;
          mret (Some (mk_channel (res_name r) (bool_decide (version = MRCP_VERSION_2)) e sm id cmid false false))
      | None =>
          answer_update (λ d, d <| sd_status := MRCP_SESSION_STATUS_NO_SUCH_RESOURCE |>);; mret None
      end
  | None => answer_update (λ d, d <| sd_status := MRCP_SESSION_STATUS_NO_SUCH_RESOURCE |>);; mret None
  end.

(** The termination of the engine channel of a channel is added to the context. *)
Definition channel_termination_add (i : nat) (c : mrcp_channel_t) : op unit :=
  match engine_channel c ≫= termination with
  | Some _ =>
      mpf_engine_message_add (MPF_ADD_TERMINATION (TEngine i) None);;
      channel_put i (c <| waiting_for_termination := true |>);;
      mrcp_server_session_subrequest_add
  | None => mret tt
  end.

(** ** Offers *)

Definition mrcp_server_resource_offer_process (d : mrcp_session_descriptor_t) : op bool :=
  if sd_resource_state d then
    i ← mrcp_server_channel_find (sd_resource_name d);
    match i with
    | Some _ => mret true
    | None =>
        count ← ask (λ s, length (channels s));
        c ← mrcp_server_channel_create (sd_resource_name d) count None;
        match c with
        | Some c =>
            match engine_channel c with
            | Some _ =>
                change (λ s, s <| channels := channels s ++ [c] |>);;
                channel_termination_add count c;;
                mret true
            | None => mret false
            end
        | None => mret false
        end
    end
  else mret true.

(** The answer for a channel whose connection does not take part. *)
Definition control_media_refuse (c : mrcp_channel_t) (cd : mrcp_control_descriptor_t) : op unit :=
  id ← ask base_id;
  answer_update (λ d, mrcp_session_control_media_set d (ch_id c)
    (mrcp_control_answer_create cd <| cd_port := 0%Z |> <| cd_session_id := id |>)).

(** The control connection of the channel [i] is asked by [a]. *)
Definition control_request (i : nat) (cd : mrcp_control_descriptor_t) (a : session_action R) : op unit :=
  c ← channel_at i;
  ok ← (if control_channel c then call a else mret false);
  if ok : bool then
    channel_put i (c <| waiting_for_channel := true |>);;
    mrcp_server_session_subrequest_add
  else control_media_refuse c cd.

(** The loop over the channels that exist, from [i] on. *)
Fixpoint control_media_modify (d : mrcp_session_descriptor_t) (n i : nat) : op unit :=
  match n with
  | O => mret tt
  | S n =>
      c ← channel_at i;
      channel_put i (c <| waiting_for_channel := false |>);;
      (match mrcp_session_control_media_get d i with
       | Some cd => control_request i cd (ControlModify i cd)
       | None => mret tt
       end);;
      control_media_modify d n (S i)
  end.

(** The control descriptor at [i] of the offer is changed in place. *)
Definition offer_control_put (i : nat) (cd : mrcp_control_descriptor_t) (d : mrcp_session_descriptor_t)
    : mrcp_session_descriptor_t :=
  d <| control_media_arr := <[i := Some cd]> (control_media_arr d) |>.

(** The loop over the media that are new, from [i] on. *)
Fixpoint control_media_add (media : list (option mrcp_control_descriptor_t)) (i : nat) : op unit :=
  match media with
  | [] => mret tt
  | None :: media => control_media_add media (S i)
  | Some cd :: media =>
      c ← mrcp_server_channel_create (cd_resource_name cd) i (Some (cd_cmid_arr cd));
      (match c with
       | None => mret tt
       | Some c =>
           id ← ask base_id;
           k ← ask (λ s, length (channels s));
           let cd := cd <| cd_session_id := id |> in
           change (λ s, s <| offer := offer_control_put i cd <$> offer s |> <| channels := channels s ++ [c] |>);;
           control_request k cd (ControlAdd k cd);;
           c ← channel_at k;
           channel_termination_add k c
       end);;
      control_media_add media (S i)
  end.

Definition mrcp_server_control_media_offer_process (d : mrcp_session_descriptor_t) : op unit :=
  nelts ← ask (λ s, length (channels s));
  let count := Nat.min nelts (length (control_media_arr d)) in
  control_media_modify d count 0;;
  control_media_add (drop count (control_media_arr d)) count.

(** The channel [c] takes part in the media of the slot: its capabilities are
    merged, and for MRCPv1 the offer is completed. *)
Definition association_build (c : mrcp_channel_t) (caps : option mpf_stream_capabilities_t)
    (media : mpf_rtp_media_descriptor_t) : option mpf_stream_capabilities_t * mpf_rtp_media_descriptor_t :=
  match mjoin (engine_channel c ≫= termination) with
  | None => (caps, media)
  | Some stream =>
      let caps := match stream_capabilities stream, caps with
                  | Some sc, Some caps => Some (mpf_stream_capabilities_merge caps sc)
                  | Some sc, None => Some sc
                  | None, _ => caps
                  end in
      let media :=
        if decide (version = MRCP_VERSION_1) then
          let media :=
            if decide (media_direction media = STREAM_DIRECTION_NONE ∧
                       mpf_codec_list_is_empty (media_codec_list media) = true ∧
                       mpf_codec_list_is_empty rtp_codecs = false)
            then media <| media_codec_list := mpf_codec_list_copy (media_codec_list media) rtp_codecs |>
            else media in
          media <| media_direction := Z.lor (media_direction media) (stream_direction stream) |>
                <| media_state := MPF_MEDIA_ENABLED |>
        else media in
      (caps, media)
  end.

(** The loop over the channels, from [i] on; [one] tells that there is one
    termination. *)
Fixpoint associations_loop (one : bool) (mid : nat) (cs : list mrcp_channel_t) (i : nat)
    (caps : option mpf_stream_capabilities_t) (media : mpf_rtp_media_descriptor_t)
    : list nat * option mpf_stream_capabilities_t * mpf_rtp_media_descriptor_t :=
  match cs with
  | [] => ([], caps, media)
  | c :: cs =>
      if one || from_option (λ cmid, mrcp_cmid_find cmid mid) true (ch_cmid_arr c) then
        let '(caps, media) := association_build c caps media in
        let '(l, caps, media) := associations_loop one mid cs (S i) caps media in
        (i :: l, caps, media)
      else associations_loop one mid cs (S i) caps media
  end.

(** The descriptor of the offer is changed in place. *)
Definition mrcp_server_associations_build (i : nat) : op (option mpf_rtp_stream_descriptor_t) :=
  slot ← ask (λ s, terminations s !! i);
  slot ← try (deref slot);
  d ← ask offer;
  d ← try (deref d);
  match mrcp_session_audio_media_get d (slot_id slot) with
  | None => mret None
  | Some media =>
      one ← ask (λ s, bool_decide (length (terminations s) = 1));
      cs ← ask channels;
      let '(l, caps, media) := associations_loop one (media_mid media) cs 0 None media in
      let caps := (λ c, c <| cap_direction := mpf_stream_reverse_direction_get (cap_direction c) |>) <$> caps in
      slot_put i (slot <| slot_mid := media_mid media |> <| slot_channels := l |>);;
      change (λ s, s <| offer := Some (mrcp_session_audio_media_set d (slot_id slot) media) |>);;
      mret (Some (mk_rtp_stream caps None (Some media)))
  end.

(** The associations of the slot [i] with the channels [l]. *)
Fixpoint associations_set (i : nat) (l : list nat) : op unit :=
  match l with
  | [] => mret tt
  | k :: l =>
      c ← channel_at k;
      (match engine_channel c with
       | Some e =>
           mpf_engine_message_add (MPF_ADD_ASSOCIATION (TRtp i) ((λ _, TEngine k) <$> termination e));;
           mrcp_server_session_subrequest_add
       | None => mret tt
       end);;
      associations_set i l
  end.

Definition mrcp_server_associations_set (i : nat) : op unit :=
  slot ← ask (λ s, terminations s !! i);
  slot ← try (deref slot);
  associations_set i (slot_channels slot).

(** The termination of the slot [i] is added or modified, and associated. *)
Definition slot_process (i : nat) (m : option mpf_rtp_stream_descriptor_t → mpf_message_t) : op unit :=
  rtp ← mrcp_server_associations_build i;
  match rtp with
  | None => mret tt
  | Some _ =>
      mpf_engine_message_add (m rtp);;
      slot ← ask (λ s, terminations s !! i);
      slot ← try (deref slot);
      slot_put i (slot <| slot_waiting := true |>);;
      mrcp_server_session_subrequest_add;;
      mrcp_server_associations_set i
  end.

Fixpoint terminations_modify (n i : nat) : op unit :=
  match n with
  | O => mret tt
  | S n => slot_process i (MPF_MODIFY_TERMINATION (TRtp i));; terminations_modify n (S i)
  end.

Fixpoint terminations_add (n i : nat) : op unit :=
  match n with
  | O => mret tt
  | S n =>
      change (λ s, s <| terminations := terminations s ++ [mk_slot i 0 [] false] |>);;
      slot_process i (MPF_ADD_TERMINATION (TRtp i));;
      terminations_add n (S i)
  end.

Definition mrcp_server_av_media_offer_process (d : mrcp_session_descriptor_t) : op unit :=
  let nelts := length (audio_media_arr d) in
  if decide (nelts = 0) then mret tt
  else
    count ← ask (λ s, Nat.min (length (terminations s)) nelts);
    terminations_modify count 0;;
    terminations_add (nelts - count) count.

(** ** Termination *)

(** The engine and control channels are destroyed. *)
Fixpoint channels_destroy (n i : nat) : op unit :=
  match n with
  | O => mret tt
  | S n =>
      c ← channel_at i;
      (if control_channel c then emit (ControlDestroy i) else mret tt);;
      (match engine_channel c with Some _ => emit (EngineDestroy i) | None => mret tt end);;
      channel_put i (c <| control_channel := false |> <| engine_channel := None |>);;
      channels_destroy n (S i)
  end.

Definition mrcp_server_session_terminate_send : op unit :=
  n ← ask (λ s, length (channels s));
  channels_destroy n 0;;
  emit SessionRemove;;
  emit TerminateResponse.

Fixpoint channels_terminate (n i : nat) : op unit :=
  match n with
  | O => mret tt
  | S n =>
      c ← channel_at i;
      ok ← (if control_channel c then call (ControlRemove i) else mret false);
      (if ok : bool then
         channel_put i (c <| waiting_for_channel := true |>);; mrcp_server_session_subrequest_add
       else mret tt);;
      (match engine_channel c with
       | Some e =>
           (match termination e with
            | Some _ =>
                mpf_engine_message_add (MPF_SUBTRACT_TERMINATION (TEngine i));;
                c ← channel_at i;
                channel_put i (c <| waiting_for_termination := true |>);;
                mrcp_server_session_subrequest_add
            | None => mret tt
            end);;
           closing ← mrcp_engine_channel_virtual_close i;
           if closing : bool then mrcp_server_session_subrequest_add else mret tt
       | None => mret tt
       end);;
      channels_terminate n (S i)
  end.

Fixpoint terminations_subtract (n i : nat) : op unit :=
  match n with
  | O => mret tt
  | S n =>
      slot ← ask (λ s, terminations s !! i);
      slot ← try (deref slot);
      mpf_engine_message_add (MPF_SUBTRACT_TERMINATION (TRtp i));;
      slot_put i (slot <| slot_waiting := true |>);;
      mrcp_server_session_subrequest_add;;
      terminations_subtract n (S i)
  end.

Definition mrcp_server_session_terminate_process : op unit :=
  mrcp_server_session_state_set SESSION_STATE_TERMINATING;;
  up ← ask context;
  (if up : bool then
     mpf_engine_message_add MPF_RESET_ASSOCIATIONS;; mrcp_server_session_subrequest_add
   else mret tt);;
  n ← ask (λ s, length (channels s));
  channels_terminate n 0;;
  n ← ask (λ s, length (terminations s));
  terminations_subtract n 0;;
  (if up : bool then mpf_engine_message_send else mret tt);;
  count ← ask subrequest_count;
  if decide (count = 0) then mrcp_server_session_terminate_send else mret tt.

Fixpoint channels_deactivate (n i : nat) : op unit :=
  match n with
  | O => mret tt
  | S n =>
      c ← channel_at i;
      ok ← (if state_machine c then call (MachineDeactivate i) else mret false);
      (if ok : bool then mrcp_server_session_subrequest_add else mret tt);;
      channels_deactivate n (S i)
  end.

Definition mrcp_server_session_deactivate : op unit :=
  mrcp_server_session_state_set SESSION_STATE_DEACTIVATING;;
  n ← ask (λ s, length (channels s));
  channels_deactivate n 0;;
  count ← ask subrequest_count;
  if decide (count = 0) then mrcp_server_session_terminate_process else mret tt.

(** ** Signaling messages *)

(** A message for a channel goes to its state machine; without one nothing is
    done. *)
Definition mrcp_server_on_message_receive (channel : option nat) (m : @mrcp_message_t R) : op bool :=
  i ← match channel with
      | Some i => mret (Some i)
      | None => mrcp_server_channel_find (resource_name (channel_id m))
      end;
  match i with
  | None => mret false
  | Some i =>
      c ← channel_at i;
      if state_machine c then emit (MachineUpdate i m);; mret true else mret false
  end.

(** The functions that start the next message: [dispatch] is what they start it
    with. *)
Section Dispatch.
  Context (dispatch : mrcp_signaling_message_t R → op unit).

(** The active request is done: the next one is dispatched. *)
Definition next_request : op unit :=
  q ← ask request_queue;
  let '(m, q) := apt_list_pop_front q in
  change (λ s, s <| active_request := m |> <| request_queue := q |>);;
  match m with
  | Some m => dispatch m
  | None => mret tt
  end.

Definition mrcp_server_session_answer_send : op unit :=
  d ← ask answer;
  d ← try (deref d);
  emit (Answer d);;
  change (λ s, s <| last_offer := offer s |> <| last_answer := answer s |> <| offer := None |> <| answer := None |>);;
  next_request.

(** The engine channel of the channel [i] is opened or closed. *)
Fixpoint engine_channels_loop (d : mrcp_session_descriptor_t) (n i : nat) : op unit :=
  match n with
  | O => mret tt
  | S n =>
      c ← channel_at i;
      (match engine_channel c, mrcp_session_control_media_get d i with
       | Some _, Some cd =>
           ok ← (if decide (cd_port cd = 0%Z) then mrcp_engine_channel_virtual_close i
                 else mrcp_engine_channel_virtual_open i);
           if ok : bool then mrcp_server_session_subrequest_add else mret tt
       | _, _ => mret tt
       end);;
      engine_channels_loop d n (S i)
  end.

Definition mrcp_server_engine_channels_update : op unit :=
  d ← ask offer;
  match d with
  | None => mret tt
  | Some d =>
      mrcp_server_session_state_set SESSION_STATE_INITIALIZING;;
      (if decide (version = MRCP_VERSION_1) then
         i ← mrcp_server_channel_find (sd_resource_name d);
         match i with
         | Some i =>
             c ← channel_at i;
             match engine_channel c with
             | Some _ =>
                 ok ← mrcp_engine_channel_virtual_open i;
                 if ok : bool then mrcp_server_session_subrequest_add else mret tt
             | None => mret tt
             end
         | None => mret tt
         end
       else
         n ← ask (λ s, length (channels s));
         engine_channels_loop d n 0);;
      count ← ask subrequest_count;
      if decide (count = 0) then mrcp_server_session_answer_send else mret tt
  end.

Definition mrcp_server_session_offer_process (d : mrcp_session_descriptor_t) : op unit :=
  up ← ask context;
  (if up : bool then mret tt
   else
     id ← ask base_id;
     (if decide (len id = 0) then
        change (λ s, s <| base_id := apt_unique_id_generate uuid MRCP_SESSION_ID_HEX_STRING_LENGTH |>)
      else mret tt);;
     emit SessionAdd;;
     change (λ s, s <| context := true |>));;
  change (λ s, s <| offer := Some d |>);;
  last ← ask last_offer;
  same ← match last with
         | Some last => try (mrcp_session_offers_compare d last)
         | None => mret false
         end;
  if same : bool then
    change (λ s, s <| answer := last_answer s |>);;
    mrcp_server_session_answer_send
  else
    change (λ s, s <| answer := Some (mrcp_session_answer_create d) |>);;
    mrcp_server_session_state_set SESSION_STATE_GENERATING_ANSWER;;
    mpf_engine_message_add MPF_RESET_ASSOCIATIONS;;
    mrcp_server_session_subrequest_add;;
    (if decide (version = MRCP_VERSION_1) then
       ok ← mrcp_server_resource_offer_process d;
       if ok : bool then mrcp_server_av_media_offer_process d
       else answer_update (λ d, d <| sd_resource_state := false |>)
     else
       mrcp_server_control_media_offer_process d;;
       mrcp_server_av_media_offer_process d);;
    mpf_engine_message_add MPF_APPLY_TOPOLOGY;;
    mrcp_server_session_subrequest_add;;
    mpf_engine_message_send;;
    count ← ask subrequest_count;
    if decide (count = 0) then mrcp_server_session_answer_send else mret tt.

End Dispatch.

(** Each message that is dispatched leaves the queue, so that as many turns as
    there are messages in it, and one, are enough. *)
Fixpoint dispatch_loop (fuel : nat) (m : mrcp_signaling_message_t R) : op unit :=
  match fuel with
  | O => try Fault
  | S fuel =>
      match m with
      | SIGNALING_MESSAGE_OFFER d => mrcp_server_session_offer_process (dispatch_loop fuel) d
      | SIGNALING_MESSAGE_CONTROL c m => mrcp_server_on_message_receive c m;; mret tt
      | SIGNALING_MESSAGE_TERMINATE => mrcp_server_session_deactivate
      end
  end.

Definition mrcp_server_signaling_message_dispatch (m : mrcp_signaling_message_t R) : op unit :=
  n ← ask (λ s, length (request_queue s));
  dispatch_loop (S n) m.

Definition mrcp_server_signaling_message_process (m : mrcp_signaling_message_t R) : op unit :=
  active ← ask active_request;
  match active with
  | Some _ => change (λ s, s <| request_queue := apt_list_push_back (request_queue s) m |>)
  | None =>
      change (λ s, s <| active_request := Some m |>);;
      mrcp_server_signaling_message_dispatch m
  end.

(** ** Answers of others *)

(** The last answer takes the session to its next state. *)
Definition mrcp_server_session_subrequest_remove : op unit :=
  count ← ask subrequest_count;
  match count with
  | O => mret tt
  | S count =>
      change (λ s, s <| subrequest_count := count |>);;
      if decide (count = 0) then
        st ← ask state;
        match st with
        | SESSION_STATE_GENERATING_ANSWER =>
            mrcp_server_engine_channels_update mrcp_server_signaling_message_dispatch
        | SESSION_STATE_INITIALIZING =>
            mrcp_server_session_answer_send mrcp_server_signaling_message_dispatch
        | SESSION_STATE_DEACTIVATING => mrcp_server_session_terminate_process
        | SESSION_STATE_TERMINATING => mrcp_server_session_terminate_send
        | SESSION_STATE_NONE => mret tt
        end
      else mret tt
  end.

(** The answer of a control connection is never NULL. *)
Definition mrcp_server_on_channel_modify (i : nat) (cd : mrcp_control_descriptor_t) : op bool :=
  c ← channel_at i;
  if waiting_for_channel c then
    channel_put i (c <| waiting_for_channel := false |>);;
    id ← ask base_id;
    answer_update (λ d, mrcp_session_control_media_set d (ch_id c) (cd <| cd_session_id := id |>));;
    mrcp_server_session_subrequest_remove;;
    mret true
  else mret false.

Definition mrcp_server_on_channel_remove (i : nat) : op bool :=
  c ← channel_at i;
  if waiting_for_channel c then
    channel_put i (c <| waiting_for_channel := false |>);;
    mrcp_server_session_subrequest_remove;;
    mret true
  else mret false.

Definition mrcp_server_on_channel_message (i : nat) (m : @mrcp_message_t R) : op unit :=
  mrcp_server_signaling_message_process (SIGNALING_MESSAGE_CONTROL (Some i) m).

Definition mrcp_server_on_disconnect : op unit :=
  st ← ask state;
  if decide (st = SESSION_STATE_DEACTIVATING ∨ st = SESSION_STATE_TERMINATING) then mret tt
  else emit TerminateEvent.

Definition mrcp_server_on_engine_channel_open (status : bool) : op unit :=
  (if status then mret tt
   else answer_update (λ d, d <| sd_status := MRCP_SESSION_STATUS_UNAVAILABLE_RESOURCE |>));;
  mrcp_server_session_subrequest_remove.

Definition mrcp_server_on_engine_channel_close : op unit := mrcp_server_session_subrequest_remove.

(** The channel whose engine channel has the termination. *)
Definition mrcp_server_channel_termination_find (t : mpf_termination) (s : mrcp_server_session_t R) : option nat :=
  match t with
  | TRtp _ => None
  | TEngine i =>
      c ← channels s !! i;
      e ← engine_channel c;
      _ ← termination e;
      Some i
  end.
Definition mrcp_server_rtp_termination_find (t : mpf_termination) (s : mrcp_server_session_t R) : option nat :=
  match t with
  | TRtp i => _ ← terminations s !! i; Some i
  | TEngine _ => None
  end.

(** The termination of an engine channel. *)
Definition channel_termination_done (t : mpf_termination) : op unit :=
  k ← ask (mrcp_server_channel_termination_find t);
  match k with
  | None => mret tt
  | Some k =>
      c ← channel_at k;
      if waiting_for_termination c then
        channel_put k (c <| waiting_for_termination := false |>);;
        mrcp_server_session_subrequest_remove
      else mret tt
  end.

Definition mrcp_server_on_termination_modify (t : mpf_termination) (d : option mpf_rtp_stream_descriptor_t)
    : op unit :=
  i ← ask (mrcp_server_rtp_termination_find t);
  match i with
  | Some i =>
      slot ← ask (λ s, terminations s !! i);
      slot ← try (deref slot);
      if slot_waiting slot then
        slot_put i (slot <| slot_waiting := false |>);;
        d ← try (deref d);
        (match local d with
         | Some media =>
             answer_update (λ a, mrcp_session_audio_media_set
               (a <| sd_ip := media_ip media |> <| sd_ext_ip := media_ext_ip media |>) (slot_id slot) media)
         | None => mret tt
         end);;
        mrcp_server_session_subrequest_remove
      else mret tt
  | None => channel_termination_done t
  end.

Definition mrcp_server_on_termination_subtract (t : mpf_termination) : op unit :=
  i ← ask (mrcp_server_rtp_termination_find t);
  match i with
  | Some i =>
      slot ← ask (λ s, terminations s !! i);
      slot ← try (deref slot);
      if slot_waiting slot then
        slot_put i (slot <| slot_waiting := false |>);;
        mrcp_server_session_subrequest_remove
      else mret tt
  | None => channel_termination_done t
  end.

(** The responses in a container; a response has the command of its request. *)
Definition mpf_response_process (m : mpf_message_t) : op unit :=
  match m with
  | MPF_ADD_TERMINATION t d | MPF_MODIFY_TERMINATION t d => mrcp_server_on_termination_modify t d
  | MPF_SUBTRACT_TERMINATION t => mrcp_server_on_termination_subtract t
  | MPF_ADD_ASSOCIATION _ _ | MPF_REMOVE_ASSOCIATION _ _ | MPF_RESET_ASSOCIATIONS | MPF_APPLY_TOPOLOGY
  | MPF_DESTROY_TOPOLOGY =>
      mrcp_server_session_subrequest_remove
  end.

Fixpoint mrcp_server_mpf_message_process (c : list mpf_message_t) : op unit :=
  match c with
  | [] => mret tt
  | m :: c => mpf_response_process m;; mrcp_server_mpf_message_process c
  end.

(** What the state machine of the channel [i] dispatches: requests go to the
    engine, the rest to the client; a response completes the active request. *)
Definition state_machine_on_message_dispatch (i : nat) (m : @mrcp_message_t R) : op unit :=
  c ← channel_at i;
  if decide (message_type (start_line m) = MRCP_MESSAGE_TYPE_REQUEST) then
    match engine_channel c with
    | Some _ => emit (EngineRequest i m)
    | None => mret tt
    end
  else
    emit (ControlSend i m);;
    if decide (message_type (start_line m) = MRCP_MESSAGE_TYPE_RESPONSE) then
      next_request mrcp_server_signaling_message_dispatch
    else mret tt.

Definition state_machine_on_deactivate : op unit := mrcp_server_session_subrequest_remove.

End Session.
