(* ===== verification/ServerAccount.v ===== *)
(** * ServerAccount: what a session of the MRCP server waits for.

    The count of a session is the number of answers that it will get, and the
    flags of its channels and terminations tell which.  The lemmas are about the
    single steps: a request that is taken, a message that is added to a container,
    an answer that arrives. *)
From S2P Require Import Prelude CString MrcpMessage StateMachine.
From S2P Require Import RecordUpdate Operation CodecDescriptor SessionDescriptor ServerSession.

(** ** What a session waits for *)

(** [modify] tells the addition or modification of a control channel from its
    removal. *)
Inductive subrequest :=
  | QControl (channel : nat) (modify : bool)
  | QOpen (channel : nat)
  | QClose (channel : nat)
  | QDeactivate (channel : nat)
  | QMachine (channel : nat)
  | QMpf (container : list mpf_message_t).

Definition request_of {R} (a : session_action R) : option subrequest :=
  match a with
  | ControlAdd i _ | ControlModify i _ => Some (QControl i true)
  | ControlRemove i => Some (QControl i false)
  | EngineOpen i => Some (QOpen i)
  | EngineClose i => Some (QClose i)
  | MachineDeactivate i => Some (QDeactivate i)
  | MachineUpdate i _ => Some (QMachine i)
  | MpfSend c => Some (QMpf c)
  | _ => None
  end.
Definition requests {R} (o : list (session_action R)) : list subrequest := omap request_of o.

(** How many answers to a request are counted. *)
Definition weight (q : subrequest) : nat :=
  match q with QMachine _ => 0 | QMpf c => length c | _ => 1 end.
Definition weights (l : list subrequest) : nat := sum_list (weight <$> l).

Definition controls (l : list subrequest) : list nat :=
  omap (λ q, match q with QControl i _ => Some i | _ => None end) l.
Definition containers (l : list subrequest) : list mpf_message_t :=
  mjoin (omap (λ q, match q with QMpf c => Some c | _ => None end) l).

(** The termination a message is about. *)
Definition message_termination (m : mpf_message_t) : option mpf_termination :=
  match m with
  | MPF_ADD_TERMINATION t _ | MPF_MODIFY_TERMINATION t _ | MPF_SUBTRACT_TERMINATION t => Some t
  | _ => None
  end.
Definition terms (ms : list mpf_message_t) : list mpf_termination := omap message_termination ms.

(** What is asked for in a state: by an offer that is processed, to open the
    engines, to stop the state machines, to terminate. *)
Definition message_allowed (st : mrcp_server_session_state_e) (m : mpf_message_t) : Prop :=
  match st, m with
  | SESSION_STATE_GENERATING_ANSWER, (MPF_ADD_TERMINATION (TRtp _) d | MPF_MODIFY_TERMINATION (TRtp _) d) => is_Some d
  | SESSION_STATE_GENERATING_ANSWER, MPF_SUBTRACT_TERMINATION _ => False
  | SESSION_STATE_GENERATING_ANSWER, _ => True
  | SESSION_STATE_TERMINATING, (MPF_SUBTRACT_TERMINATION _ | MPF_RESET_ASSOCIATIONS) => True
  | _, _ => False
  end.
Definition request_allowed (st : mrcp_server_session_state_e) (q : subrequest) : Prop :=
  match st, q with
  | SESSION_STATE_GENERATING_ANSWER, QControl _ true => True
  | SESSION_STATE_INITIALIZING, (QOpen _ | QClose _) => True
  | SESSION_STATE_DEACTIVATING, QDeactivate _ => True
  | SESSION_STATE_TERMINATING, (QControl _ false | QClose _) => True
  | _, QMpf c => c ≠ [] ∧ Forall (message_allowed st) c
  | _, _ => False
  end.

Section Theory.
  Context {R : Type}.
  Implicit Types (s : mrcp_server_session_t R) (o : list (session_action R)) (l : list subrequest).

Definition unsent s : list mpf_message_t := default [] (mpf_task_msg s).
(** The terminations that the engine was or will be asked for. *)
Definition asked s l : list mpf_termination := terms (containers l ++ unsent s).

Definition waits_control s (i : nat) : Prop :=
  ∃ c, channels s !! i = Some c ∧ waiting_for_channel c = true.
Definition waits_termination s (t : mpf_termination) : Prop :=
  match t with
  | TRtp i => ∃ x, terminations s !! i = Some x ∧ slot_waiting x = true
  | TEngine i => ∃ c, channels s !! i = Some c ∧ waiting_for_termination c = true ∧
      is_Some (engine_channel c ≫= termination)
  end.

(** The session in [s] waits for [l]. *)
Record acct s l : Prop := {
  ac_count : subrequest_count s = weights l + length (unsent s);
  ac_controls : NoDup (controls l) ∧ ∀ i, i ∈ controls l → waits_control s i;
  ac_terms : NoDup (asked s l) ∧ ∀ t, t ∈ asked s l → waits_termination s t;
  ac_requests : Forall (request_allowed (state s)) l;
  ac_unsent : Forall (message_allowed (state s)) (unsent s);
  ac_container : mpf_task_msg s ≠ Some []
}.

Lemma requests_app o o' : requests (o ++ o') = requests o ++ requests o'.
Proof. apply omap_app. Qed.
Lemma weights_app l l' : weights (l ++ l') = weights l + weights l'.
Proof. unfold weights. by rewrite fmap_app, sum_list_with_app. Qed.
Lemma controls_app l l' : controls (l ++ l') = controls l ++ controls l'.
Proof. apply omap_app. Qed.
Lemma containers_app l l' : containers (l ++ l') = containers l ++ containers l'.
Proof. unfold containers. by rewrite omap_app, join_app. Qed.
Lemma terms_app ms ms' : terms (ms ++ ms') = terms ms ++ terms ms'.
Proof. apply omap_app. Qed.

(** ** What the operations keep *)

(** The codecs of a media are a list, possibly empty. *)
Definition media_ok (m : mpf_rtp_media_descriptor_t) : Prop := is_Some (descriptor_arr (media_codec_list m)).
Definition offer_ok (d : mrcp_session_descriptor_t) : Prop :=
  Forall (from_option media_ok True) (audio_media_arr d) ∧ Forall (from_option media_ok True) (video_media_arr d).

(** The numbers of media are the same. *)
Definition shape (d d' : mrcp_session_descriptor_t) : Prop :=
  length (control_media_arr d') = length (control_media_arr d) ∧
  length (audio_media_arr d') = length (audio_media_arr d) ∧
  length (video_media_arr d') = length (video_media_arr d).

Definition shape_opt (d d' : option mrcp_session_descriptor_t) : Prop :=
  match d, d' with Some d, Some d' => shape d d' | None, None => True | _, _ => False end.

Record frame s s' : Prop := {
  fr_active : active_request s' = active_request s;
  fr_queue : request_queue s' = request_queue s;
  fr_state : state s' = state s;
  fr_context : context s' = context s;
  fr_last_offer : last_offer s' = last_offer s;
  fr_last_answer : last_answer s' = last_answer s;
  fr_offer : shape_opt (offer s) (offer s');
  fr_offer_ok : from_option offer_ok True (offer s) → from_option offer_ok True (offer s');
  fr_answer : shape_opt (answer s) (answer s');
  fr_channels : length (channels s) ≤ length (channels s');
  fr_slots : length (terminations s) ≤ length (terminations s')
}.

Lemma shape_opt_refl d : shape_opt d d.
Proof. by destruct d. Qed.

Lemma shape_opt_trans d d' d'' : shape_opt d d' → shape_opt d' d'' → shape_opt d d''.
Proof. destruct d, d', d''; simpl; try done. intros (?&?&?) (?&?&?). split_and!; congruence. Qed.

Lemma frame_refl s : frame s s.
Proof. split; try done; apply shape_opt_refl. Qed.

Lemma frame_trans s s' s'' : frame s s' → frame s' s'' → frame s s''.
Proof. intros [] []. split; try congruence; try lia; try (by eapply shape_opt_trans). auto. Qed.

(** ** What changes of the state do to the account *)

(** Nothing that is waited for is forgotten. *)
Definition waits_kept s s' : Prop :=
  (∀ i, waits_control s i → waits_control s' i) ∧ (∀ t, waits_termination s t → waits_termination s' t).

Lemma waits_kept_trans s s' s'' : waits_kept s s' → waits_kept s' s'' → waits_kept s s''.
Proof. intros [] []. split; auto. Qed.

Lemma waits_kept_same s s' :
  channels s' = channels s → terminations s' = terminations s → waits_kept s s'.
Proof.
  intros Hc Ht. split.
  - unfold waits_control. by rewrite Hc.
  - intros []; unfold waits_termination; by rewrite ?Hc, ?Ht.
Qed.

Lemma waits_kept_channel s s' i c c' :
  channels s !! i = Some c → channels s' = <[i := c']> (channels s) → terminations s' = terminations s →
  (waiting_for_channel c = true → waiting_for_channel c' = true) →
  (waiting_for_termination c = true → waiting_for_termination c' = true) →
  (is_Some (engine_channel c ≫= termination) → is_Some (engine_channel c' ≫= termination)) →
  waits_kept s s'.
Proof.
  intros Hi Hc Ht H1 H2 H3.
  assert (Hlt : i < length (channels s)) by (by eapply lookup_lt_Some).
  split.
  - intros j (x & Hx & Hw). unfold waits_control. rewrite Hc. destruct (decide (i = j)) as [->|Hne].
    + simplify_eq. exists c'. rewrite list_lookup_insert_eq; auto.
    + exists x. by rewrite list_lookup_insert_ne.
  - intros [j|j]; unfold waits_termination; rewrite ?Ht, ?Hc; [done|]. intros (x & Hx & Hw & He).
    destruct (decide (i = j)) as [->|Hne].
    + simplify_eq. exists c'. rewrite list_lookup_insert_eq; auto.
    + exists x. by rewrite list_lookup_insert_ne.
Qed.

Lemma waits_kept_slot s s' i x x' :
  terminations s !! i = Some x → terminations s' = <[i := x']> (terminations s) → channels s' = channels s →
  (slot_waiting x = true → slot_waiting x' = true) → waits_kept s s'.
Proof.
  intros Hi Ht Hc Hw. assert (Hlt : i < length (terminations s)) by (by eapply lookup_lt_Some).
  split; [unfold waits_control; by rewrite Hc|].
  intros [j|j]; unfold waits_termination; rewrite ?Ht, ?Hc; [|done]. intros (y & Hy & Hwy).
  destruct (decide (i = j)) as [->|Hne].
  - simplify_eq. exists x'. rewrite list_lookup_insert_eq; auto.
  - exists y. by rewrite list_lookup_insert_ne.
Qed.

Lemma waits_kept_push s s' cs ts :
  channels s' = channels s ++ cs → terminations s' = terminations s ++ ts → waits_kept s s'.
Proof.
  intros Hc Ht. split.
  - intros i (c & Hi & Hw). exists c. rewrite Hc. by rewrite (lookup_app_l_Some _ _ _ _ Hi).
  - intros [i|i]; unfold waits_termination; rewrite ?Ht, ?Hc.
    + intros (x & Hi & Hw). exists x. by rewrite (lookup_app_l_Some _ _ _ _ Hi).
    + intros (c & Hi & Hw). exists c. by rewrite (lookup_app_l_Some _ _ _ _ Hi).
Qed.

Lemma acct_kept s s' l :
  acct s l → subrequest_count s' = subrequest_count s → mpf_task_msg s' = mpf_task_msg s → state s' = state s →
  waits_kept s s' → acct s' l.
Proof.
  intros [Hn [Hc Hc'] [Ht Ht'] Hq Hu Hbox] Hn' Hm Hst [Hk Hk'].
  assert (Hun : unsent s' = unsent s) by (unfold unsent; by rewrite Hm).
  split; unfold asked in *; rewrite ?Hn', ?Hun, ?Hst, ?Hm; auto.
Qed.

(** A channel that is not waited for. *)
Lemma acct_unwait_control s s' l i c :
  acct s l → i ∉ controls l → channels s !! i = Some c →
  channels s' = <[i := c <| waiting_for_channel := false |>]> (channels s) → terminations s' = terminations s →
  subrequest_count s' = subrequest_count s → mpf_task_msg s' = mpf_task_msg s → state s' = state s → acct s' l.
Proof.
  intros Ha Hi Hc Hc' Ht Hn Hm Hst.
  assert (Hlt : i < length (channels s)) by (by eapply lookup_lt_Some).
  assert (Hother : ∀ j, j ≠ i → channels s' !! j = channels s !! j)
    by (intros; rewrite Hc'; by apply list_lookup_insert_ne).
  destruct Ha as [Hn' [Hnd Hk] [Htd Hk'] Hq Hu Hbox].
  assert (Hun : unsent s' = unsent s) by (unfold unsent; by rewrite Hm).
  split; unfold asked in *; rewrite ?Hun, ?Hn, ?Hst, ?Hm; auto.
  - split; [done|]. intros j Hj. destruct (decide (j = i)) as [->|Hne]; [done|].
    unfold waits_control. rewrite (Hother j Hne). by apply Hk.
  - split; [done|]. intros [j|j] Hj%Hk'; unfold waits_termination in *; [by rewrite Ht|].
    destruct (decide (j = i)) as [->|Hne]; [|by rewrite Hother].
    destruct Hj as (x & Hx & Hw & He). simplify_eq. exists (c <| waiting_for_channel := false |>).
    by rewrite Hc', list_lookup_insert_eq.
Qed.

(** A request that is taken. *)
Lemma acct_request s s' l q :
  acct s l → subrequest_count s' = S (subrequest_count s) → mpf_task_msg s' = mpf_task_msg s → state s' = state s →
  waits_kept s s' → request_allowed (state s) q → weight q = 1 → containers [q] = [] →
  (∀ i, i ∈ controls [q] → i ∉ controls l ∧ waits_control s' i) → acct s' (l ++ [q]).
Proof.
  intros [Hn [Hc Hc'] [Ht Ht'] Hq Hu Hbox] Hn' Hm Hst [Hk Hk'] Hal Hw Hcq Hfresh.
  assert (Hun : unsent s' = unsent s) by (unfold unsent; by rewrite Hm).
  split; unfold asked in *; rewrite ?containers_app, ?Hcq, ?app_nil_r, ?Hun, ?Hst, ?Hm; auto.
  - rewrite Hn', Hn, weights_app. unfold weights at 3. simpl. lia.
  - rewrite controls_app. split.
    + apply NoDup_app. split_and!; [done|intros i Hi Hi2; by apply (Hfresh i)|].
      destruct q; simpl; auto using NoDup_nil_2, NoDup_singleton.
    + intros i [Hi|Hi]%elem_of_app; [auto|by apply Hfresh].
  - apply Forall_app. split; [done|by constructor].
Qed.

(** [r] are containers that were sent, and [ms] what is kept of [ms0] and [m]. *)
Record packed (ms0 : list mpf_message_t) (m : mpf_message_t) (r : list subrequest) (ms : list mpf_message_t) : Prop := {
  pk_messages : containers r ++ ms = ms0 ++ [m];
  pk_containers : Forall (λ q, ∃ c, q = QMpf c ∧ c ≠ []) r;
  pk_kept : ms ≠ []
}.

Lemma containers_only r :
  Forall (λ q, ∃ c, q = QMpf c ∧ c ≠ []) r → controls r = [] ∧ weights r = length (containers r).
Proof.
  induction 1 as [|q r (c & -> & Hc) _ [IH1 IH2]]; [done|]. split; [done|].
  change (containers (QMpf c :: r)) with (c ++ containers r).
  change (weights (QMpf c :: r)) with (length c + weights r). rewrite length_app. lia.
Qed.

Lemma containers_allowed st r :
  Forall (λ q, ∃ c, q = QMpf c ∧ c ≠ []) r → Forall (message_allowed st) (containers r) →
  Forall (request_allowed st) r.
Proof.
  induction 1 as [|q r (c & -> & Hc) _ IH]; [by constructor|].
  change (containers (QMpf c :: r)) with (c ++ containers r). intros [? ?]%Forall_app.
  constructor; [|auto]. by destruct st.
Qed.

Lemma asked_message s s' l r ms m :
  packed (unsent s) m r ms → mpf_task_msg s' = Some ms →
  asked s' (l ++ r) = asked s l ++ option_list (message_termination m).
Proof.
  intros [Hp _ _] Hm. unfold asked, unsent at 1. rewrite containers_app, Hm. simpl.
  rewrite <- (assoc_L (++)), Hp, (assoc_L (++)), terms_app. f_equal.
Qed.

(** A message that is added, and may wait for its container to be sent. *)
Lemma acct_message s s' l r ms m :
  acct s l → packed (unsent s) m r ms → message_allowed (state s) m →
  subrequest_count s' = S (subrequest_count s) → mpf_task_msg s' = Some ms → state s' = state s → waits_kept s s' →
  (∀ t, message_termination m = Some t → t ∉ asked s l ∧ waits_termination s' t) → acct s' (l ++ r).
Proof.
  intros [Hn [Hc Hc'] [Ht Ht'] Hq Hu Hbox] [Hp Hr Hms] Hal Hn' Hm Hst [Hk Hk'] Hfresh.
  destruct (containers_only r Hr) as [Hcr Hwr].
  assert (Hun : unsent s' = ms) by (unfold unsent; by rewrite Hm).
  assert (Hall : Forall (message_allowed (state s)) (containers r ++ ms))
    by (rewrite Hp; apply Forall_app; split; [done|by constructor]).
  apply Forall_app in Hall as [Hal1 Hal2].
  assert (Hask := asked_message s s' l r ms m (Build_packed _ _ _ _ Hp Hr Hms) Hm).
  split; rewrite ?Hask, ?Hst, ?Hun, ?controls_app, ?Hcr, ?app_nil_r; auto.
  - rewrite Hn', Hn, weights_app, Hwr. apply (f_equal length) in Hp. rewrite !length_app in Hp. simpl in Hp. lia.
  - split.
    + apply NoDup_app. split_and!; [done|intros t Hin Hin2|].
      * destruct (message_termination m) as [t'|]; [|by apply not_elem_of_nil in Hin2].
        apply list_elem_of_singleton in Hin2 as ->. by destruct (Hfresh t').
      * destruct (message_termination m); [apply NoDup_singleton|by constructor].
    + intros t [Hin|Hin]%elem_of_app; [auto|].
      destruct (message_termination m) as [t'|]; [|by apply not_elem_of_nil in Hin].
      apply list_elem_of_singleton in Hin as ->. by destruct (Hfresh t').
  - apply Forall_app. split; [done|by apply containers_allowed].
  - rewrite Hm. by intros [= ->].
Qed.

(** The answers to offers, and to the request to terminate. *)
Definition replies o : list (option mrcp_session_descriptor_t) :=
  omap (λ a, match a with Answer d => Some (Some d) | TerminateResponse => Some None | _ => None end) o.

Lemma replies_app o o' : replies (o ++ o') = replies o ++ replies o'.
Proof. apply omap_app. Qed.

Lemma wp_message_add m (Q : unit → mrcp_server_session_t R → list (session_action R) → Prop) s :
  (∀ o ms, packed (unsent s) m (requests o) ms → replies o = [] → Q tt (s <| mpf_task_msg := Some ms |>) o) →
  wp (mpf_engine_message_add m) Q s.
Proof.
  intros HQ. apply wp_bind, wp_ask. unfold unsent in HQ.
  destruct (mpf_task_msg s) as [c|] eqn:Hc; [case_decide|].
  - apply wp_bind, wp_bind, wp_ask. rewrite Hc. apply wp_bind, wp_emit, wp_change, wp_change.
    apply HQ; [|done]. split; [unfold containers; simpl; by rewrite app_nil_r| |done].
    constructor; [|constructor].
    exists c. split; [done|]. by destruct c; simpl in *; [lia|].
  - apply wp_change, HQ; [|done]. split; [done..|by destruct c].
  - by apply wp_change, HQ.
Qed.

Lemma wp_channel_at i c (Q : mrcp_channel_t → mrcp_server_session_t R → list (session_action R) → Prop) s :
  channels s !! i = Some c → Q c s [] → wp (channel_at i) Q s.
Proof. intros Hi HQ. apply wp_bind, wp_ask. rewrite Hi. by eapply wp_try. Qed.

Lemma wp_slot_at i x (Q : mrcp_termination_slot_t → mrcp_server_session_t R → list (session_action R) → Prop) s :
  terminations s !! i = Some x → Q x s [] → wp (slot ← ask (λ s, terminations s !! i); try (deref slot)) Q s.
Proof. intros Hi HQ. apply wp_bind, wp_ask. rewrite Hi. by eapply wp_try. Qed.

(** What is waited for is below [a], [b] and [r]. *)
Record below (a b r : nat) s l : Prop := {
  bl_controls : ∀ i, i ∈ controls l → i < a;
  bl_engine : ∀ i, TEngine i ∈ asked s l → i < b;
  bl_rtp : ∀ i, TRtp i ∈ asked s l → i < r
}.

Lemma acct_below s l :
  acct s l → below (length (channels s)) (length (channels s)) (length (terminations s)) s l.
Proof.
  intros [_ [_ Hc] [_ Ht] _ _ _]. split.
  - intros i (c & Hi & _)%Hc. by eapply lookup_lt_Some.
  - intros i (c & Hi & _)%Ht. by eapply lookup_lt_Some.
  - intros i (c & Hi & _)%Ht. by eapply lookup_lt_Some.
Qed.

(** An operation went from [s] to [s'] with the actions [o], and did not answer. *)
Record kept (a b r : nat) s l s' o : Prop := {
  kp_acct : acct s' (l ++ requests o);
  kp_below : below a b r s' (l ++ requests o);
  kp_frame : frame s s';
  kp_replies : replies o = []
}.

Lemma kept_trans a b r a' b' r' s l s1 o1 s2 o2 :
  kept a b r s l s1 o1 → kept a' b' r' s1 (l ++ requests o1) s2 o2 → kept a' b' r' s l s2 (o1 ++ o2).
Proof.
  intros [] []. split; rewrite ?requests_app, ?(assoc_L (++)), ?replies_app; [done..| |by rewrite kp_replies0].
  by eapply frame_trans.
Qed.

Lemma kept_refl a b r s l : acct s l → below a b r s l → kept a b r s l s [].
Proof. intros Ha Hb. split; rewrite ?app_nil_r; auto using frame_refl. Qed.

Lemma below_weaken a b r a' b' r' s l :
  below a b r s l → a ≤ a' → b ≤ b' → r ≤ r' → below a' b' r' s l.
Proof.
  intros [H1 H2 H3] ???. split; intros i Hi; [apply H1 in Hi|apply H2 in Hi|apply H3 in Hi]; lia.
Qed.

Lemma below_same a b r s s' l : below a b r s l → mpf_task_msg s' = mpf_task_msg s → below a b r s' l.
Proof. intros [] Hm. split; unfold asked, unsent in *; by rewrite ?Hm. Qed.

Lemma kept_plain a b r s l s' o :
  acct s l → below a b r s l → subrequest_count s' = subrequest_count s → mpf_task_msg s' = mpf_task_msg s →
  waits_kept s s' → frame s s' → requests o = [] → replies o = [] → kept a b r s l s' o.
Proof.
  intros Ha Hb Hn Hm Hw Hf Ho Hr. split; rewrite ?Ho, ?app_nil_r; auto.
  - eapply acct_kept; eauto using fr_state.
  - by eapply below_same.
Qed.

Lemma kept_request a b r a' s l s' o q :
  acct s l → below a b r s l → subrequest_count s' = S (subrequest_count s) → mpf_task_msg s' = mpf_task_msg s →
  waits_kept s s' → frame s s' → requests o = [q] → replies o = [] → request_allowed (state s) q →
  weight q = 1 → containers [q] = [] → (∀ i, i ∈ controls [q] → a ≤ i < a' ∧ waits_control s' i) → a ≤ a' →
  kept a' b r s l s' o.
Proof.
  intros Ha Hb Hn Hm Hw Hf Ho Hr Hal Hwq Hcq Hfresh Hle. split; rewrite ?Ho; auto.
  - eapply acct_request; eauto using fr_state. intros i Hi. destruct (Hfresh i Hi) as [? ?].
    split; [|done]. intros Hin%Hb. lia.
  - destruct Hb as [H1 H2 H3]. split.
    + rewrite controls_app. intros i [Hi|Hi]%elem_of_app; [apply H1 in Hi; lia|by apply Hfresh].
    + unfold asked, unsent in *. by rewrite containers_app, Hcq, app_nil_r, Hm.
    + unfold asked, unsent in *. by rewrite containers_app, Hcq, app_nil_r, Hm.
Qed.

(** The termination [t] is the next one. *)
Definition next_term (a b a' b' : nat) (t : mpf_termination) : Prop :=
  match t with TEngine i => a ≤ i < a' | TRtp i => b ≤ i < b' end.

Lemma kept_message a b r b' r' s l s' o ms m :
  acct s l → below a b r s l → subrequest_count s' = S (subrequest_count s) → mpf_task_msg s' = Some ms →
  packed (unsent s) m (requests o) ms → replies o = [] → message_allowed (state s) m →
  waits_kept s s' → frame s s' →
  (∀ t, message_termination m = Some t → next_term b r b' r' t ∧ waits_termination s' t) → b ≤ b' → r ≤ r' →
  kept a b' r' s l s' o.
Proof.
  intros Ha Hb Hn Hm Hp Hr Hal Hw Hf Ht Hbb Hrr. split; auto.
  - eapply acct_message; eauto using fr_state. intros t Hmt. destruct (Ht t Hmt) as [Hnt ?].
    split; [|done]. intros Hin. destruct t; simpl in Hnt; apply Hb in Hin; lia.
  - destruct (containers_only _ (pk_containers _ _ _ _ Hp)) as [Hc _].
    destruct Hb as [H1 H2 H3]. split.
    + by rewrite controls_app, Hc, app_nil_r.
    + intros i. rewrite (asked_message _ _ _ _ _ _ Hp Hm). intros [Hi|Hi]%elem_of_app; [apply H2 in Hi; lia|].
      destruct (message_termination m) as [t|]; [|by apply not_elem_of_nil in Hi].
      apply list_elem_of_singleton in Hi as <-. by destruct (Ht _ eq_refl) as [[] _].
    + intros i. rewrite (asked_message _ _ _ _ _ _ Hp Hm). intros [Hi|Hi]%elem_of_app; [apply H3 in Hi; lia|].
      destruct (message_termination m) as [t|]; [|by apply not_elem_of_nil in Hi].
      apply list_elem_of_singleton in Hi as <-. by destruct (Ht _ eq_refl) as [[] _].
Qed.

End Theory.

Arguments kp_acct {R a b r s l s' o}.
Arguments kp_below {R a b r s l s' o}.
Arguments kp_frame {R a b r s l s' o}.
Arguments kp_replies {R a b r s l s' o}.
Arguments kept_trans {R a b r a' b' r' s l s1 o1 s2 o2}.
