(* ===== verification/ServerSessionTheory.v ===== *)
(** * ServerSessionTheory: the operations of a session of the MRCP server do not
    fault, and keep the account of what the session waits for. *)
From S2P Require Import Prelude CString TextStream MrcpMessage StartLine StateMachine.
From S2P Require Import RecordUpdate Operation CodecDescriptor SessionDescriptor ServerSession ServerAccount.

(** A state whose fields that matter are those of another, but for those that were
    assigned. *)
Ltac solve_frame :=
  split; simpl; rewrite ?length_insert, ?length_app; simpl;
  try done; try apply shape_opt_refl; try lia.

Ltac solve_kept := try done; try (by apply waits_kept_same); try solve [solve_frame].

Section Specs.
  Context {R : Type}.
  Context (version : mrcp_version_e) (resource_factory : @mrcp_resource_factory_t R) (rtp_codecs : mpf_codec_list_t).
  Context (engine_find : apt_str_t → bool) (create_state_machine : apt_str_t → bool).
  Context (create_channel : nat → apt_str_t → option mrcp_engine_channel_t).
  Context (taken : nat → bool) (uuid : list Z).
  Implicit Types (s : mrcp_server_session_t R) (o : list (session_action R)) (l : list subrequest).
  Implicit Types (Q : unit → mrcp_server_session_t R → list (session_action R) → Prop).

(** ** Offers *)

Lemma wp_answer_update f Q s d :
  answer s = Some d → Q tt (s <| answer := Some (f d) |>) [] → wp (answer_update f) Q s.
Proof.
  intros Hd HQ. apply wp_bind, wp_ask, wp_bind. rewrite Hd. eapply wp_try; [done|]. by apply wp_change.
Qed.

(** A change of the answer that keeps its shape. *)
Lemma kept_answer a b r s l d d' :
  acct s l → below a b r s l → answer s = Some d → shape d d' → kept a b r s l (s <| answer := Some d' |>) [].
Proof.
  intros Ha Hb Hd Hs. apply kept_plain; solve_kept. solve_frame. by rewrite Hd.
Qed.

Lemma kept_answer_some {a b r s l s' o d} :
  kept a b r s l s' o → answer s = Some d → ∃ d', answer s' = Some d' ∧ shape d d'.
Proof.
  intros Hk Hd. pose proof (fr_answer _ _ (kp_frame Hk)) as Hs. rewrite Hd in Hs.
  destruct (answer s') as [d'|]; [by exists d'|done].
Qed.

(** The channel that is created, if any, does not wait. *)
Lemma channel_create_spec name id cmid a b r s l d :
  acct s l → below a b r s l → answer s = Some d →
  wp (mrcp_server_channel_create version resource_factory engine_find create_state_machine create_channel name id cmid)
    (λ c s' o, kept a b r s l s' o ∧ o = [] ∧ channels s' = channels s ∧ terminations s' = terminations s ∧
      ∀ x, c = Some x → waiting_for_channel x = false ∧ waiting_for_termination x = false) s.
Proof.
  intros Ha Hb Hd. unfold mrcp_server_channel_create.
  assert (Hno : ∀ st, wp (answer_update (λ d, d <| sd_status := st |>);; mret None)
    (λ c s' o, kept a b r s l s' o ∧ o = [] ∧ channels s' = channels s ∧ terminations s' = terminations s ∧
      ∀ x : mrcp_channel_t, c = Some x → waiting_for_channel x = false ∧ waiting_for_termination x = false) s).
  { intros st. apply wp_bind. eapply wp_answer_update; [done|]. apply wp_ret.
    split_and!; try done. by eapply kept_answer. }
  destruct (buf name); [|apply Hno]. destruct (mrcp_resource_find _ _) as [x|]; [|apply Hno]. clear Hno.
  apply wp_bind. unfold mrcp_server_engine_channel_create.
  destruct (engine_find name).
  - apply wp_bind, wp_ask, wp_bind, wp_change, wp_ret.
    assert (Hk : kept a b r s l (s <| calls := S (calls s) |>) [])
      by (apply kept_plain; solve_kept).
    apply wp_bind. destruct (create_channel _ _).
    + apply wp_ret, wp_ret. split_and!; try done. by intros ? [= <-].
    + eapply wp_answer_update; [exact Hd|]. apply wp_ret. split_and!; try done; [|by intros ? [= <-]].
      apply kept_plain; solve_kept. solve_frame. by rewrite Hd.
  - apply wp_ret, wp_bind. eapply wp_answer_update; [exact Hd|]. apply wp_ret.
    split_and!; try done; [|by intros ? [= <-]]. by eapply kept_answer.
Qed.

Lemma wp_call a (Q : bool → mrcp_server_session_t R → list (session_action R) → Prop) s :
  Q true (s <| calls := S (calls s) |>) [a] → Q false (s <| calls := S (calls s) |>) [] → wp (call taken a) Q s.
Proof.
  intros H1 H2. apply wp_bind, wp_ask, wp_bind, wp_change.
  destruct (taken _); [|by apply wp_ret]. by apply wp_bind, wp_emit, wp_ret.
Qed.

Lemma channel_termination_add_spec i c a r s l :
  acct s l → below a i r s l → state s = SESSION_STATE_GENERATING_ANSWER → channels s !! i = Some c →
  wp (channel_termination_add i c) (λ _ s' o, kept a (S i) r s l s' o) s.
Proof.
  intros Ha Hb Hst Hc. unfold channel_termination_add.
  destruct (engine_channel c ≫= termination) as [e|] eqn:He.
  - apply wp_bind, wp_message_add. intros o ms Hp Hr. apply wp_bind, wp_change, wp_change.
    rewrite app_nil_r. eapply kept_message; solve_kept.
    + by rewrite Hst.
    + by eapply waits_kept_channel.
    + intros t [= <-]. split; [simpl; lia|]. exists (c <| waiting_for_termination := true |>). simpl.
      rewrite list_lookup_insert_eq by (by eapply lookup_lt_Some). by rewrite He.
    + lia.
  - apply wp_ret, kept_refl; [done|]. eapply below_weaken; [done|lia..].
Qed.

(** The request of a control connection for the channel [i]. *)
Lemma control_request_spec i cd x b r s l d :
  acct s l → below i b r s l → state s = SESSION_STATE_GENERATING_ANSWER → i < length (channels s) →
  answer s = Some d → request_of x = Some (QControl i true) →
  wp (control_request taken i cd x) (λ _ s' o, kept (S i) b r s l s' o) s.
Proof.
  intros Ha Hb Hst [c Hc]%lookup_lt_is_Some Hd Hx. assert (Hlt := lookup_lt_Some _ _ _ Hc).
  assert (Hrep : replies [x] = []) by (by destruct x).
  apply wp_bind, (wp_channel_at i c); [done|]. apply wp_bind.
  assert (Hno : ∀ n, wp (control_media_refuse c cd) (λ _ s' o, kept (S i) b r s l s' o) (s <| calls := n |>)).
  { intros n. apply wp_bind, wp_ask. eapply wp_answer_update; [done|].
    apply kept_plain; solve_kept; [eapply below_weaken; [done|lia..]|]. solve_frame. rewrite Hd.
    split_and!; simpl; [by rewrite length_insert|done..]. }
  destruct (control_channel c); [|by apply wp_ret; destruct s; apply Hno].
  apply wp_call; [|apply Hno]. apply wp_bind, wp_change, wp_change.
  simpl. eapply (kept_request _ _ _ _ _ _ _ _ (QControl i true)); solve_kept.
  - by eapply waits_kept_channel.
  - simpl. by rewrite Hx.
  - by rewrite Hst.
  - intros j ->%list_elem_of_singleton. split; [lia|]. exists (c <| waiting_for_channel := true |>). simpl.
    by rewrite list_lookup_insert_eq.
  - lia.
Qed.

(** A specification of a part carries over to the sequence that it ends. *)
Lemma kept_after {a b r a' b' r' s l s1 o1 A} {m : operation (mrcp_server_session_t R) (session_action R) A} :
  kept a b r s l s1 o1 → wp m (λ _ s2 o2, kept a' b' r' s1 (l ++ requests o1) s2 o2) s1 →
  wp m (λ _ s2 o2, kept a' b' r' s l s2 (o1 ++ o2)) s1.
Proof. intros Hk Hm. eapply wp_mono; [exact Hm|]. intros x s2 o2 Hk2. by eapply kept_trans. Qed.

Lemma kept_state {a b r s l s' o} : kept a b r s l s' o → state s' = state s.
Proof. intros [_ _ Hf _]. by apply fr_state. Qed.

Lemma control_media_modify_spec d n i b r s l a :
  acct s l → below i b r s l → state s = SESSION_STATE_GENERATING_ANSWER → i + n ≤ length (channels s) →
  answer s = Some a →
  wp (control_media_modify taken d n i) (λ _ s' o, kept (i + n) b r s l s' o) s.
Proof.
  revert i s l a. induction n as [|n IH]; intros i s l a Ha Hb Hst Hle Hd; simpl.
  { rewrite Nat.add_0_r. by apply wp_ret, kept_refl. }
  assert (is_Some (channels s !! i)) as [c Hc] by (apply lookup_lt_is_Some; lia).
  apply wp_bind, (wp_channel_at i c); [done|]. apply wp_bind, wp_change, wp_bind.
  set (s1 := s <| channels := _ |>).
  assert (Hk : kept i b r s l s1 []).
  { split; rewrite ?app_nil_r; [| |solve_frame|done].
    - eapply acct_unwait_control; try done. intros Hin%Hb. lia.
    - by eapply below_same. }
  assert (wp (match mrcp_session_control_media_get d i with
     | Some cd => control_request taken i cd (ControlModify i cd) | None => mret () end)
     (λ _ s' o, kept (S i) b r s l s' o) s1) as Hstep.
  { apply (kept_after Hk).
    destruct Hk as [Ha1 Hb1 _ _]. destruct (mrcp_session_control_media_get d i) as [cd|].
    - eapply control_request_spec; try done. simpl. rewrite length_insert. lia.
    - apply wp_ret, kept_refl; [done|]. eapply below_weaken; [done|lia..]. }
  eapply wp_mono; [exact Hstep|]. intros [] s2 o2 Hk2. simpl.
  destruct (kept_answer_some Hk2 Hd) as (a2 & Ha2 & _).
  replace (i + S n) with (S i + n) by lia. apply (kept_after Hk2).
  pose proof (kept_state Hk2). destruct Hk2 as [Ha3 Hb3 [] _]. eapply IH; try done; [congruence|lia].
Qed.

(** A channel that was created is added. *)
Lemma kept_push a b r s l c :
  acct s l → below a b r s l → kept (length (channels s)) (length (channels s)) r s l
    (s <| channels := channels s ++ [c] |>) [].
Proof.
  intros Ha Hb. apply kept_plain; solve_kept.
  - destruct (acct_below _ _ Ha). destruct Hb. by split.
  - eapply (waits_kept_push _ _ [c] []); [done|]. simpl. by rewrite app_nil_r.
Qed.

(** The same, with the identifier of the session stored in the offer. *)
Lemma kept_push_control a b r s l c i cd :
  acct s l → below a b r s l → kept (length (channels s)) (length (channels s)) r s l
    (s <| offer := offer_control_put i cd <$> offer s |> <| channels := channels s ++ [c] |>) [].
Proof.
  intros Ha Hb. apply kept_plain; solve_kept.
  - destruct (acct_below _ _ Ha). destruct Hb. by split.
  - eapply (waits_kept_push _ _ [c] []); [done|]. simpl. by rewrite app_nil_r.
  - solve_frame; destruct (offer s); try done. split_and!; simpl; [by rewrite length_insert|done..].
Qed.

Lemma control_media_add_spec media i a b r s l d :
  acct s l → below a b r s l → state s = SESSION_STATE_GENERATING_ANSWER → answer s = Some d →
  wp (control_media_add version resource_factory engine_find create_state_machine create_channel taken media i)
    (λ _ s' o, ∃ a' b', kept a' b' r s l s' o) s.
Proof.
  revert i a b s l d. induction media as [|[cd|] media IH]; intros i a b s l d Ha Hb Hst Hd; simpl.
  { apply wp_ret. exists a, b. by apply kept_refl. }
  2: { by eapply IH. }
  apply wp_bind. eapply wp_mono; [by eapply channel_create_spec|]. intros c s1 o1 (Hk1 & -> & _ & _ & Hw).
  destruct (kept_answer_some Hk1 Hd) as (d1 & Hd1 & _).
  pose proof (kept_state Hk1) as Hst1. rewrite Hst in Hst1.
  assert (Hgo : ∀ a' b' s2 o2, kept a' b' r s l s2 o2 →
    wp (control_media_add version resource_factory engine_find create_state_machine create_channel taken media (S i))
      (λ _ s' o, ∃ a' b', kept a' b' r s l s' (o2 ++ o)) s2).
  { intros a' b' s2 o2 Hk2. destruct (kept_answer_some Hk2 Hd) as (d2 & Hd2 & _).
    eapply wp_mono; [eapply IH; [apply (kp_acct Hk2)|apply (kp_below Hk2)| |done]|].
    - by rewrite (kept_state Hk2).
    - intros [] s3 o3 (a3 & b3 & Hk3). exists a3, b3. by eapply kept_trans. }
  apply wp_bind. destruct c as [c|]; [|by apply wp_ret, (Hgo a b)].
  apply wp_bind, wp_ask, wp_bind, wp_ask, wp_bind, wp_change, wp_bind. simpl.
  pose proof (kept_trans Hk1
    (kept_push_control _ _ _ _ _ c i (cd <| cd_session_id := base_id s1 |>) (kp_acct Hk1) (kp_below Hk1))) as Hk2.
  set (k := length (channels s1)) in *. set (s2 := s1 <| offer := _ |> <| channels := _ |>) in *.
  eapply wp_mono; [eapply (control_request_spec k _ _ _ r s2)|]; try done.
  - apply (kp_acct Hk2).
  - apply (kp_below Hk2).
  - simpl. rewrite length_app. simpl. lia.
  - intros [] s3 o3 Hk3.
    assert (is_Some (channels s3 !! k)) as [c3 Hc3].
    { apply lookup_lt_is_Some. pose proof (fr_channels _ _ (kp_frame Hk3)) as Hle.
      simpl in Hle. rewrite length_app in Hle. simpl in Hle. unfold k. lia. }
    apply (kept_trans Hk2) in Hk3.
    apply wp_bind, (wp_channel_at k c3); [done|].
    eapply wp_mono; [eapply (kept_after Hk3), channel_termination_add_spec|]; try done.
    + apply (kp_acct Hk3).
    + apply (kp_below Hk3).
    + by rewrite (kept_state Hk3).
    + intros [] s4 o4 Hk4. simpl in *. by eapply Hgo.
Qed.

Lemma control_media_offer_process_spec m b r s l d :
  acct s l → below 0 b r s l → state s = SESSION_STATE_GENERATING_ANSWER → answer s = Some d →
  wp (mrcp_server_control_media_offer_process version resource_factory engine_find create_state_machine
        create_channel taken m) (λ _ s' o, ∃ a' b', kept a' b' r s l s' o) s.
Proof.
  intros Ha Hb Hst Hd. apply wp_bind, wp_ask. apply wp_bind.
  eapply wp_mono; [eapply control_media_modify_spec; try done; lia|]. intros [] s1 o1 Hk1.
  destruct (kept_answer_some Hk1 Hd) as (d1 & Hd1 & _).
  eapply wp_mono; [eapply control_media_add_spec; [apply (kp_acct Hk1)|apply (kp_below Hk1)| |done]|].
  - by rewrite (kept_state Hk1).
  - intros [] s2 o2 (a' & b' & Hk2). exists a', b'. exact (kept_trans Hk1 Hk2).
Qed.

Lemma resource_offer_process_spec m a b r s l d :
  acct s l → below a b r s l → state s = SESSION_STATE_GENERATING_ANSWER → answer s = Some d →
  wp (mrcp_server_resource_offer_process version resource_factory engine_find create_state_machine
        create_channel m) (λ _ s' o, ∃ a' b', kept a' b' r s l s' o) s.
Proof.
  intros Ha Hb Hst Hd. unfold mrcp_server_resource_offer_process.
  assert (Hdone : ∀ x : bool, wp (mret x) (λ _ s' o, ∃ a' b', kept a' b' r s l s' o) s)
    by (intros x; apply wp_ret; exists a, b; by apply kept_refl).
  destruct (sd_resource_state m); [|apply Hdone]. apply wp_bind, wp_ask.
  destruct (fst <$> _); [apply Hdone|]. clear Hdone. apply wp_bind, wp_ask, wp_bind.
  eapply wp_mono; [by eapply channel_create_spec|]. intros c s1 o1 (Hk1 & -> & Hc1 & _ & _).
  destruct c as [c|]; [|apply wp_ret; by exists a, b].
  destruct (engine_channel c); [|apply wp_ret; by exists a, b]. apply wp_bind, wp_change, wp_bind.
  pose proof (kept_trans Hk1 (kept_push _ _ _ _ _ c (kp_acct Hk1) (kp_below Hk1))) as Hk2.
  rewrite <- Hc1. set (k := length (channels s1)) in *. set (s2 := s1 <| channels := _ |>) in *.
  eapply wp_mono; [eapply (kept_after Hk2), channel_termination_add_spec|].
  - apply (kp_acct Hk2).
  - apply (kp_below Hk2).
  - by rewrite (kept_state Hk2).
  - simpl. rewrite lookup_app_r by (unfold k; lia). unfold k. by rewrite Nat.sub_diag.
  - intros [] s3 o3 Hk3. apply wp_ret. exists k, (S k). simpl in *. by rewrite app_nil_r.
Qed.

(** ** Media *)

Lemma association_build_ok c caps media :
  media_ok media → media_ok (association_build version rtp_codecs c caps media).2.
Proof.
  intros Hm. unfold association_build. destruct (mjoin _) as [stream|]; [|done]. simpl.
  case_decide; [|done]. case_decide as Hcopy; [|done].
  destruct Hcopy as (_ & _ & Hne). unfold media_ok. simpl. unfold mpf_codec_list_is_empty in Hne.
  by destruct (descriptor_arr rtp_codecs) as [[]|].
Qed.

Lemma associations_loop_ok one mid cs i caps media ks caps' media' :
  associations_loop version rtp_codecs one mid cs i caps media = (ks, caps', media') → media_ok media →
  media_ok media' ∧ ∀ k, k ∈ ks → i ≤ k < i + length cs.
Proof.
  revert i caps media ks caps' media'. induction cs as [|c cs IH]; intros i caps media ks caps' media'; simpl.
  { intros [= <- <- <-] Hm. split; [done|]. by intros k ?%not_elem_of_nil. }
  destruct (one || _).
  - pose proof (association_build_ok c caps media) as Hb.
    destruct (association_build _ _ c caps media) as [caps1 media1].
    destruct (associations_loop _ _ one mid cs (S i) caps1 media1) as [[l2 caps2] media2] eqn:Hl.
    intros [= <- <- <-] Hm. destruct (IH _ _ _ _ _ _ Hl (Hb Hm)) as [Hm2 Hk]. split; [done|].
    intros k [->|Hin]%elem_of_cons; [lia|]. apply Hk in Hin. lia.
  - intros Hl Hm. destruct (IH _ _ _ _ _ _ Hl Hm) as [Hm2 Hk]. split; [done|]. intros k Hin%Hk. lia.
Qed.

Lemma audio_media_set_shape d i media : shape d (mrcp_session_audio_media_set d i media).
Proof. split_and!; [done|simpl; by rewrite length_insert|done]. Qed.

Lemma audio_media_set_ok d i media :
  offer_ok d → media_ok media → offer_ok (mrcp_session_audio_media_set d i media).
Proof. intros [Ha Hv] Hm. split; [|done]. simpl. by apply Forall_insert. Qed.

Lemma audio_media_get_ok d i media :
  offer_ok d → mrcp_session_audio_media_get d i = Some media → media_ok media.
Proof.
  intros [Ha _] Hg. unfold mrcp_session_audio_media_get in Hg.
  destruct (audio_media_arr d !! i) as [[m|]|] eqn:Hi; [|done..]. simplify_eq/=.
  by apply (Forall_lookup_1 _ _ _ _ Ha Hi).
Qed.

(** What is built for the slot [i]: the channels it names exist. *)
Lemma associations_build_spec i a b r s l d :
  acct s l → below a b r s l → i < length (terminations s) → offer s = Some d → offer_ok d →
  wp (mrcp_server_associations_build version rtp_codecs i)
    (λ x s' o, kept a b r s l s' o ∧ o = [] ∧ length (terminations s') = length (terminations s) ∧
      (is_Some x → ∃ slot, terminations s' !! i = Some slot ∧ ∀ k, k ∈ slot_channels slot → k < length (channels s'))) s.
Proof.
  intros Ha Hb Hlt Hd Hok. assert (is_Some (terminations s !! i)) as [slot Hs] by (by apply lookup_lt_is_Some).
  apply wp_bind, wp_ask, wp_bind. rewrite Hs. eapply wp_try; [done|].
  apply wp_bind, wp_ask, wp_bind. rewrite Hd. eapply wp_try; [done|].
  destruct (mrcp_session_audio_media_get d (slot_id slot)) as [media|] eqn:Hm.
  2: { apply wp_ret. split_and!; [by apply kept_refl|done..|by intros []]. }
  apply wp_bind, wp_ask, wp_bind, wp_ask.
  destruct (associations_loop _ _ _ _ _ _ _ _) as [[ks caps] media'] eqn:Hl.
  destruct (associations_loop_ok _ _ _ _ _ _ _ _ _ Hl) as [Hm' Hks]; [by eapply audio_media_get_ok|].
  apply wp_bind, wp_change, wp_bind, wp_change, wp_ret. split_and!; [|done|simpl; by rewrite length_insert|].
  - apply kept_plain; solve_kept.
    + by eapply waits_kept_slot.
    + split; simpl; rewrite ?length_insert, ?Hd; try done.
      * apply audio_media_set_shape.
      * intros ?. by apply audio_media_set_ok.
      * apply shape_opt_refl.
  - intros _. simpl. rewrite list_lookup_insert_eq by done. eexists. split; [done|]. simpl. intros k Hk%Hks. lia.
Qed.

Lemma associations_set_spec i ks a b r s l :
  acct s l → below a b r s l → state s = SESSION_STATE_GENERATING_ANSWER →
  (∀ k, k ∈ ks → k < length (channels s)) →
  wp (associations_set i ks) (λ _ s' o, kept a b r s l s' o ∧ terminations s' = terminations s) s.
Proof.
  revert s l. induction ks as [|k ks IH]; intros s l Ha Hb Hst Hks; simpl.
  { apply wp_ret. split; [by apply kept_refl|done]. }
  assert (is_Some (channels s !! k)) as [c Hc] by (apply lookup_lt_is_Some, Hks; by left).
  apply wp_bind, (wp_channel_at k c); [done|]. apply wp_bind.
  assert (Hgo : ∀ s1 o1, kept a b r s l s1 o1 → terminations s1 = terminations s →
    wp (associations_set i ks) (λ _ s2 o2, kept a b r s l s2 (o1 ++ o2) ∧ terminations s2 = terminations s) s1).
  { intros s1 o1 Hk1 <-. eapply wp_mono; [apply IH; [apply (kp_acct Hk1)|apply (kp_below Hk1)| |]|].
    - by rewrite (kept_state Hk1).
    - intros j Hj. pose proof (fr_channels _ _ (kp_frame Hk1)). assert (j < length (channels s)); [|lia].
      apply Hks. by right.
    - intros [] s2 o2 [Hk2 Ht]. split; [exact (kept_trans Hk1 Hk2)|done]. }
  destruct (engine_channel c) as [e|]; [|apply wp_ret, (Hgo _ []); [by apply kept_refl|done]].
  apply wp_bind, wp_message_add. intros o ms Hp Hr. apply wp_change. rewrite app_nil_r. apply (Hgo _ o); [|done].
  eapply kept_message; solve_kept. by rewrite Hst.
Qed.

(** The state in which an offer is processed. *)
Definition offering s : Prop :=
  state s = SESSION_STATE_GENERATING_ANSWER ∧ is_Some (answer s) ∧ ∃ d, offer s = Some d ∧ offer_ok d.

Lemma kept_offering {a b r s l s' o} : kept a b r s l s' o → offering s → offering s'.
Proof.
  intros Hk (Hst & [d Hd] & x & Hx & Hok). destruct (kept_answer_some Hk Hd) as (d' & Hd' & _).
  destruct Hk as [_ _ Hf _]. split_and!; [by rewrite (fr_state _ _ Hf)|by eexists|].
  pose proof (fr_offer _ _ Hf) as Hs. pose proof (fr_offer_ok _ _ Hf) as Hs'. rewrite Hx in Hs, Hs'.
  destruct (offer s') as [x'|]; [|done]. exists x'. split; [done|by apply Hs'].
Qed.

Lemma slot_process_spec i m a b s l :
  acct s l → below a b i s l → i < length (terminations s) → offering s →
  (∀ x, is_Some x → message_allowed SESSION_STATE_GENERATING_ANSWER (m x)) →
  (∀ x, message_termination (m x) = Some (TRtp i)) →
  wp (slot_process version rtp_codecs i m)
    (λ _ s' o, kept a b (S i) s l s' o ∧ length (terminations s') = length (terminations s)) s.
Proof.
  intros Ha Hb Hlt Hof Hal Hmt. destruct (Hof) as (Hst & _ & d & Hd & Hok). apply wp_bind.
  eapply wp_mono; [by eapply associations_build_spec|]. intros x s1 o1 (Hk1 & -> & Hlen & Hx). simpl.
  destruct x as [x|].
  2: { apply wp_ret. split; [|done]. destruct Hk1. split; [done| |done..]. eapply below_weaken; [done|lia..]. }
  destruct Hx as (slot & Hs & Hch); [done|].
  apply wp_bind, wp_message_add. intros o ms Hp Hr. apply wp_bind, wp_ask, wp_bind. simpl. rewrite Hs.
  eapply wp_try; [done|]. apply wp_bind, wp_change, wp_bind, wp_change, wp_bind, wp_ask, wp_bind. simpl.
  rewrite list_lookup_insert_eq by (by eapply lookup_lt_Some). eapply wp_try; [done|]. simpl.
  set (s2 := s1 <| mpf_task_msg := _ |> <| terminations := _ |> <| subrequest_count := _ |>).
  assert (Hk2 : kept a b (S i) s1 l s2 o).
  { destruct Hk1 as [Ha1 Hb1 Hf1 _]. rewrite app_nil_r in Ha1, Hb1. eapply kept_message; solve_kept.
    - rewrite (fr_state _ _ Hf1), Hst. by apply Hal.
    - by eapply waits_kept_slot.
    - intros t. rewrite Hmt. intros [= <-]. split; [simpl; lia|]. exists (slot <| slot_waiting := true |>).
      simpl. rewrite list_lookup_insert_eq by (by eapply lookup_lt_Some). done.
    - lia. }
  assert (Hk3 : kept a b (S i) s l s2 o) by (apply (kept_trans Hk1); by rewrite app_nil_r).
  rewrite ?app_nil_r. eapply wp_mono; [apply associations_set_spec; [apply (kp_acct Hk3)|apply (kp_below Hk3)| |done]|].
  - by rewrite (kept_state Hk3).
  - intros [] s3 o3 [Hk4 Ht]. split; [exact (kept_trans Hk3 Hk4)|]. rewrite Ht. simpl. by rewrite length_insert.
Qed.

Lemma terminations_modify_spec n i a b s l :
  acct s l → below a b i s l → i + n ≤ length (terminations s) → offering s →
  wp (terminations_modify version rtp_codecs n i)
    (λ _ s' o, kept a b (i + n) s l s' o ∧ length (terminations s') = length (terminations s)) s.
Proof.
  revert i s l. induction n as [|n IH]; intros i s l Ha Hb Hle Hof; simpl.
  { rewrite Nat.add_0_r. apply wp_ret. split; [by apply kept_refl|done]. }
  apply wp_bind. eapply wp_mono; [eapply slot_process_spec; try done; lia|]. intros [] s1 o1 [Hk1 Hlen].
  replace (i + S n) with (S i + n) by lia.
  eapply wp_mono; [apply IH; [apply (kp_acct Hk1)|apply (kp_below Hk1)|lia|by eapply kept_offering]|].
  intros [] s2 o2 [Hk2 Hlen2]. split; [exact (kept_trans Hk1 Hk2)|lia].
Qed.

Lemma terminations_add_spec n i a b s l :
  acct s l → below a b i s l → (n = 0 ∨ i = length (terminations s)) → offering s →
  wp (terminations_add version rtp_codecs n i) (λ _ s' o, ∃ r', kept a b r' s l s' o) s.
Proof.
  revert i s l. induction n as [|n IH]; intros i s l Ha Hb Hi Hof; simpl.
  { apply wp_ret. exists i. by apply kept_refl. }
  destruct Hi as [|Hi]; [done|]. apply wp_bind, wp_change, wp_bind. set (s1 := s <| terminations := _ |>).
  assert (Hk1 : kept a b i s l s1 []).
  { apply kept_plain; solve_kept. eapply (waits_kept_push _ _ [] [_]); [|done]. simpl. by rewrite app_nil_r. }
  eapply wp_mono; [eapply slot_process_spec|]; try done.
  - apply (kp_acct Hk1).
  - apply (kp_below Hk1).
  - simpl. rewrite length_app. simpl. lia.
  - intros [] s2 o2 [Hk2 Hlen]. pose proof (kept_trans Hk1 Hk2) as Hk. eapply wp_mono; [eapply IH|].
    + apply (kp_acct Hk).
    + apply (kp_below Hk).
    + right. rewrite Hlen. simpl. rewrite length_app. simpl. lia.
    + by eapply kept_offering.
    + intros [] s3 o3 (r' & Hk3). exists r'. exact (kept_trans Hk Hk3).
Qed.

Lemma av_media_offer_process_spec m a b s l :
  acct s l → below a b 0 s l → offering s →
  wp (mrcp_server_av_media_offer_process version rtp_codecs m) (λ _ s' o, ∃ r', kept a b r' s l s' o) s.
Proof.
  intros Ha Hb Hof. unfold mrcp_server_av_media_offer_process. case_decide as Hn.
  { apply wp_ret. exists 0. by apply kept_refl. }
  apply wp_bind, wp_ask, wp_bind.
  eapply wp_mono; [apply terminations_modify_spec; try done; lia|]. intros [] s1 o1 [Hk1 Hlen].
  eapply wp_mono; [eapply terminations_add_spec; [apply (kp_acct Hk1)|apply (kp_below Hk1)| |by eapply kept_offering]|].
  - rewrite Hlen. lia.
  - intros [] s2 o2 (r' & Hk2). exists r'. exact (kept_trans Hk1 Hk2).
Qed.

(** ** Engine channels *)

Definition counted (m : operation (mrcp_server_session_t R) (session_action R) bool)
    : operation (mrcp_server_session_t R) (session_action R) unit :=
  ok ← m; if ok : bool then mrcp_server_session_subrequest_add else mret tt.

Lemma engine_open_spec i c a b r s l :
  acct s l → below a b r s l → state s = SESSION_STATE_INITIALIZING → channels s !! i = Some c →
  is_Some (engine_channel c) →
  wp (counted (mrcp_engine_channel_virtual_open taken i)) (λ _ s' o, kept a b r s l s' o) s.
Proof.
  intros Ha Hb Hst Hc [e He]. apply wp_bind, wp_bind, (wp_channel_at i c); [done|].
  apply wp_bind. rewrite He. eapply wp_try; [done|].
  destruct (is_open e); [by apply wp_ret, wp_ret, kept_refl|].
  apply wp_bind, wp_call; apply wp_bind, wp_change, wp_ret.
  - apply wp_change. simpl. eapply (kept_request _ _ _ _ _ _ _ _ (QOpen i)); solve_kept.
    + eapply waits_kept_channel; try done. simpl. by rewrite He.
    + by rewrite Hst.
    + by intros j ?%not_elem_of_nil.
  - apply wp_ret. simpl. apply kept_plain; solve_kept. eapply waits_kept_channel; try done. simpl. by rewrite He.
Qed.

Lemma engine_close_spec i c a b r s l :
  acct s l → below a b r s l → state s = SESSION_STATE_INITIALIZING ∨ state s = SESSION_STATE_TERMINATING →
  channels s !! i = Some c → is_Some (engine_channel c) →
  wp (counted (mrcp_engine_channel_virtual_close taken i)) (λ _ s' o, kept a b r s l s' o) s.
Proof.
  intros Ha Hb Hst Hc [e He]. apply wp_bind, wp_bind, (wp_channel_at i c); [done|].
  apply wp_bind. rewrite He. eapply wp_try; [done|].
  destruct (is_open e); [|by apply wp_ret, wp_ret, kept_refl].
  apply wp_bind, wp_change, wp_call.
  - apply wp_change. simpl. eapply (kept_request _ _ _ _ _ _ _ _ (QClose i)); solve_kept.
    + eapply waits_kept_channel; try done. simpl. by rewrite He.
    + by destruct Hst as [-> | ->].
    + by intros j ?%not_elem_of_nil.
  - apply wp_ret. simpl. apply kept_plain; solve_kept. eapply waits_kept_channel; try done. simpl. by rewrite He.
Qed.

Lemma engine_channels_loop_spec d n i a b r s l :
  acct s l → below a b r s l → state s = SESSION_STATE_INITIALIZING → i + n ≤ length (channels s) →
  wp (engine_channels_loop taken d n i) (λ _ s' o, kept a b r s l s' o) s.
Proof.
  revert i s l. induction n as [|n IH]; intros i s l Ha Hb Hst Hle; simpl; [by apply wp_ret, kept_refl|].
  assert (is_Some (channels s !! i)) as [c Hc] by (apply lookup_lt_is_Some; lia).
  apply wp_bind, (wp_channel_at i c); [done|]. apply wp_bind.
  assert (Hgo : ∀ s1 o1, kept a b r s l s1 o1 →
    wp (engine_channels_loop taken d n (S i)) (λ _ s2 o2, kept a b r s l s2 (o1 ++ o2)) s1).
  { intros s1 o1 Hk1. apply (kept_after Hk1), IH; [apply (kp_acct Hk1)|apply (kp_below Hk1)| |].
    - by rewrite (kept_state Hk1).
    - pose proof (fr_channels _ _ (kp_frame Hk1)). lia. }
  destruct (engine_channel c) as [e|] eqn:He; [|by apply wp_ret, (Hgo _ []), kept_refl].
  destruct (mrcp_session_control_media_get d i) as [cd|]; [|by apply wp_ret, (Hgo _ []), kept_refl].
  apply (wp_mono _ (λ _ s' o, kept a b r s l s' o)); [|intros [] s1 o1 Hk1; exact (Hgo _ _ Hk1)].
  case_decide.
  - eapply engine_close_spec; eauto.
  - eapply engine_open_spec; eauto.
Qed.

(** ** Termination *)

Lemma channels_deactivate_spec n i a b r s l :
  acct s l → below a b r s l → state s = SESSION_STATE_DEACTIVATING → i + n ≤ length (channels s) →
  wp (channels_deactivate taken n i) (λ _ s' o, kept a b r s l s' o) s.
Proof.
  revert i s l. induction n as [|n IH]; intros i s l Ha Hb Hst Hle; simpl; [by apply wp_ret, kept_refl|].
  assert (is_Some (channels s !! i)) as [c Hc] by (apply lookup_lt_is_Some; lia).
  apply wp_bind, (wp_channel_at i c); [done|]. apply wp_bind.
  assert (Hgo : ∀ s1 o1, kept a b r s l s1 o1 →
    wp (channels_deactivate taken n (S i)) (λ _ s2 o2, kept a b r s l s2 (o1 ++ o2)) s1).
  { intros s1 o1 Hk1. apply (kept_after Hk1), IH; [apply (kp_acct Hk1)|apply (kp_below Hk1)| |].
    - by rewrite (kept_state Hk1).
    - pose proof (fr_channels _ _ (kp_frame Hk1)). lia. }
  destruct (state_machine c); [|by apply wp_ret, wp_bind, wp_ret, (Hgo _ []), kept_refl].
  apply wp_call; apply wp_bind.
  - apply wp_change. simpl. apply (Hgo _ [MachineDeactivate i]).
    eapply (kept_request _ _ _ _ _ _ _ _ (QDeactivate i)); solve_kept.
    + by rewrite Hst.
    + by intros j ?%not_elem_of_nil.
  - apply wp_ret, (Hgo _ []). apply kept_plain; solve_kept.
Qed.

(** The removal of the control connection of the channel [i]. *)
Lemma control_remove_spec i c b r s l :
  acct s l → below i b r s l → state s = SESSION_STATE_TERMINATING → channels s !! i = Some c →
  wp (ok ← (if control_channel c then call taken (ControlRemove i) else mret false);
      if ok : bool then channel_put i (c <| waiting_for_channel := true |>);; mrcp_server_session_subrequest_add
      else mret tt)
    (λ _ s' o, kept (S i) b r s l s' o ∧
      ∃ c', channels s' !! i = Some c' ∧ engine_channel c' = engine_channel c) s.
Proof.
  intros Ha Hb Hst Hc. assert (Hlt := lookup_lt_Some _ _ _ Hc). apply wp_bind.
  assert (Hno : ∀ n, kept (S i) b r s l (s <| calls := n |>) [])
    by (intros n; apply kept_plain; solve_kept; eapply below_weaken; [done|lia..]).
  destruct (control_channel c).
  2: { apply wp_ret, wp_ret. split; [destruct s; apply Hno|by exists c]. }
  apply wp_call; [|apply wp_ret; split; [apply Hno|by exists c]].
  apply wp_bind, wp_change, wp_change. simpl. rewrite list_lookup_insert_eq by done. split; [|by eexists].
  eapply (kept_request _ _ _ _ _ _ _ _ (QControl i false)); solve_kept.
  - by eapply waits_kept_channel.
  - by rewrite Hst.
  - intros j ->%list_elem_of_singleton. split; [lia|]. eexists. simpl. by rewrite list_lookup_insert_eq.
  - lia.
Qed.

(** The subtraction of the termination of the channel [i]. *)
Lemma engine_subtract_spec i e c a r s l :
  acct s l → below a i r s l → state s = SESSION_STATE_TERMINATING → channels s !! i = Some c →
  engine_channel c = Some e →
  wp (match termination e with
      | Some _ =>
          mpf_engine_message_add (MPF_SUBTRACT_TERMINATION (TEngine i));;
          c ← channel_at i;
          channel_put i (c <| waiting_for_termination := true |>);;
          mrcp_server_session_subrequest_add
      | None => mret tt
      end)
    (λ _ s' o, kept a (S i) r s l s' o ∧ ∃ c', channels s' !! i = Some c' ∧ engine_channel c' = Some e) s.
Proof.
  intros Ha Hb Hst Hc He. assert (Hlt := lookup_lt_Some _ _ _ Hc). destruct (termination e) as [x|] eqn:Hx.
  - apply wp_bind, wp_message_add. intros o ms Hp Hr. apply wp_bind, (wp_channel_at i c); [done|].
    apply wp_bind, wp_change, wp_change. simpl. rewrite app_nil_r, list_lookup_insert_eq by done.
    split; [|by eexists]. eapply kept_message; solve_kept.
    + by rewrite Hst.
    + by eapply waits_kept_channel.
    + intros t [= <-]. split; [simpl; lia|]. eexists. simpl. rewrite list_lookup_insert_eq by done.
      split_and!; [done..|]. simpl. rewrite He. simpl. by rewrite Hx.
    + lia.
  - apply wp_ret. split; [|by exists c]. apply kept_refl; [done|]. eapply below_weaken; [done|lia..].
Qed.

Lemma channels_terminate_spec n i r s l :
  acct s l → below i i r s l → state s = SESSION_STATE_TERMINATING → i + n ≤ length (channels s) →
  wp (channels_terminate taken n i) (λ _ s' o, kept (i + n) (i + n) r s l s' o) s.
Proof.
  revert i s l. induction n as [|n IH]; intros i s l Ha Hb Hst Hle; simpl.
  { rewrite Nat.add_0_r. by apply wp_ret, kept_refl. }
  assert (is_Some (channels s !! i)) as [c Hc] by (apply lookup_lt_is_Some; lia).
  apply wp_bind, (wp_channel_at i c); [done|].
  assert (Hgo : ∀ s1 o1, kept (S i) (S i) r s l s1 o1 →
    wp (channels_terminate taken n (S i)) (λ _ s2 o2, kept (i + S n) (i + S n) r s l s2 (o1 ++ o2)) s1).
  { intros s1 o1 Hk1. replace (i + S n) with (S i + n) by lia.
    apply (kept_after Hk1), IH; [apply (kp_acct Hk1)|apply (kp_below Hk1)| |].
    - by rewrite (kept_state Hk1).
    - pose proof (fr_channels _ _ (kp_frame Hk1)). lia. }
  pose proof (control_remove_spec i c i r s l Ha Hb Hst Hc) as Hrm. apply wp_unbind in Hrm.
  apply wp_bind. eapply wp_mono; [exact Hrm|]. clear Hrm. intros ok s0 o0 Hrm. simpl in Hrm.
  apply wp_bind. eapply wp_mono; [exact Hrm|]. clear Hrm. intros [] s1 o1 (Hk1 & c1 & Hc1 & He1).
  apply wp_bind. pose proof (kept_state Hk1) as Hst1. rewrite Hst in Hst1.
  apply (wp_mono _ (λ _ s2 o2, kept (S i) (S i) r s l s2 ((o0 ++ o1) ++ o2))).
  - apply (kept_after Hk1). destruct Hk1 as [Ha1 Hb1 _ _].
    destruct (engine_channel c) as [e|].
    2: { apply wp_ret, kept_refl; [done|]. eapply below_weaken; [done|lia..]. }
    apply wp_bind. eapply wp_mono; [by eapply engine_subtract_spec|]. intros [] s2 o2 (Hk2 & c2 & Hc2 & He2).
    apply (kept_after Hk2). eapply engine_close_spec; [apply (kp_acct Hk2)|apply (kp_below Hk2)| |done|by rewrite He2].
    right. by rewrite (kept_state Hk2).
  - intros [] s2 o2 Hk2. pose proof (Hgo _ _ Hk2) as Hw. cbv beta in Hw. rewrite <- (assoc_L (++)) in Hw.
    eapply wp_mono; [exact Hw|]. intros [] s3 o3. by rewrite <- !(assoc_L (++)).
Qed.

Lemma terminations_subtract_spec n i a b s l :
  acct s l → below a b i s l → state s = SESSION_STATE_TERMINATING → i + n ≤ length (terminations s) →
  wp (terminations_subtract n i) (λ _ s' o, kept a b (i + n) s l s' o) s.
Proof.
  revert i s l. induction n as [|n IH]; intros i s l Ha Hb Hst Hle; simpl.
  { rewrite Nat.add_0_r. by apply wp_ret, kept_refl. }
  assert (is_Some (terminations s !! i)) as [x Hx] by (apply lookup_lt_is_Some; lia).
  assert (Hlt := lookup_lt_Some _ _ _ Hx).
  apply wp_bind, wp_ask, wp_bind. rewrite Hx. eapply wp_try; [done|].
  apply wp_bind, wp_message_add. intros o ms Hp Hr. apply wp_bind, wp_change, wp_bind, wp_change. simpl.
  set (s1 := _ <| subrequest_count := _ |>).
  assert (Hk1 : kept a b (S i) s l s1 o).
  { eapply kept_message; solve_kept.
    - by rewrite Hst.
    - by eapply waits_kept_slot.
    - intros t [= <-]. split; [simpl; lia|]. eexists. simpl. by rewrite list_lookup_insert_eq.
    - lia. }
  replace (i + S n) with (S i + n) by lia.
  apply (kept_after Hk1), IH; [apply (kp_acct Hk1)|apply (kp_below Hk1)|done|]. simpl. rewrite length_insert. lia.
Qed.

(** The last container is sent. *)
Lemma message_send_spec a b r s l :
  acct s l → below a b r s l →
  wp mpf_engine_message_send (λ _ s' o, kept a b r s l s' o ∧ mpf_task_msg s' = None) s.
Proof.
  intros Ha Hb. apply wp_bind, wp_ask. destruct (mpf_task_msg s) as [c|] eqn:Hc.
  2: { apply wp_ret. split; [by apply kept_refl|done]. }
  apply wp_bind, wp_emit, wp_change. split; [|done]. simpl.
  assert (Hask : asked (s <| mpf_task_msg := None |>) (l ++ [QMpf c]) = asked s l).
  { unfold asked, unsent. rewrite containers_app, Hc. unfold containers at 2. simpl. by rewrite !app_nil_r. }
  destruct Ha as [Hn Hctl Htm Hq Hu Hne], Hb as [H1 H2 H3]. rewrite Hc in Hne. unfold unsent in Hn, Hu. rewrite Hc in Hn, Hu. simpl in Hn, Hu.
  assert (Hctl' : controls (l ++ [QMpf c]) = controls l) by (rewrite controls_app; simpl; by rewrite app_nil_r).
  split; [split|split|solve_frame|done]; simpl; rewrite ?Hask, ?Hctl'; try done.
  - rewrite Hn, weights_app. unfold weights at 3. simpl. lia.
  - apply Forall_app. split; [done|]. constructor; [|done].
    assert (c ≠ []) by (intros ->; done). by destruct (state s).
Qed.

End Specs.
