(* ===== verification/ServerDispatch.v ===== *)
(** * ServerDispatch: the messages to a session of the MRCP server, from one to the
    next.

    Between two events a session is idle, processes an offer, has given a message
    to a state machine, or terminates; the account of what it waits for tells
    whether it will go on. *)
From S2P Require Import Prelude CString TextStream MrcpMessage StartLine StateMachine RecordUpdate Operation.
From S2P Require Import CodecDescriptor SessionDescriptor ServerSession ServerAccount ServerSessionTheory.

(** ** Offers that are compared *)

Lemma shape_sym d d' : shape d d' → shape d' d.
Proof. intros (?&?&?). by split_and!. Qed.

Lemma shape_trans d d' d'' : shape d d' → shape d' d'' → shape d d''.
Proof. intros (?&?&?) (?&?&?). split_and!; congruence. Qed.

Lemma media_compare_total m1 m2 :
  from_option media_ok True m1 → from_option media_ok True m2 → ∃ b, mpf_rtp_media_descriptors_compare m1 m2 = Ok b.
Proof.
  destruct m1 as [m1|], m2 as [m2|]; try (by eexists). intros [a1 H1] [a2 H2].
  unfold mpf_rtp_media_descriptors_compare. destruct (bool_decide _ && _ && _ && _ && _ && _); [|by eexists].
  unfold mpf_codec_lists_compare. rewrite H1, H2. cbn [deref mbind res_bind].
  rewrite compare_loop_spec by lia. by eexists.
Qed.

Lemma compare_arrays_total {A} (f : A → A → res bool) (P : A → Prop) l1 l2 :
  (∀ x y, P x → P y → ∃ b, f x y = Ok b) → Forall P l1 → Forall P l2 →
  ∃ b, compare_arrays f l1 l2 = Ok b ∧ (b = true → length l1 = length l2).
Proof.
  intros Hf. unfold compare_arrays. case_decide as Hlen; [|by exists false].
  intros H1 H2. cut (∃ b, compare_all f l1 l2 = Ok b); [intros (b & ?); by exists b|]. clear Hlen. revert l2 H2.
  induction H1 as [|x l1 Hx _ IH]; intros l2 H2; simpl; [by eexists|]. destruct H2 as [|y l2 Hy H2]; [by eexists|].
  destruct (Hf x y Hx Hy) as ([] & ->); cbn [mbind res_bind]; [by apply IH|by eexists].
Qed.

Lemma offers_compare_total d d' :
  offer_ok d → offer_ok d' → ∃ b, mrcp_session_offers_compare d d' = Ok b ∧ (b = true → shape d d').
Proof.
  intros [Ha Hv] [Ha' Hv']. unfold mrcp_session_offers_compare. destruct (_ && _ && _ && _ && _); [|by exists false].
  destruct (compare_arrays_total (λ d1 d2, Ok (mrcp_control_descriptors_compare d1 d2)) (λ _, True)
    (control_media_arr d) (control_media_arr d')) as (b & -> & Hb); [by eexists|by apply Forall_true..|].
  destruct b; cbn [mbind res_bind negb]; [|by exists false].
  destruct (compare_arrays_total mpf_rtp_media_descriptors_compare (from_option media_ok True)
    (audio_media_arr d) (audio_media_arr d')) as (b & -> & Hb'); [apply media_compare_total|done..|].
  destruct b; cbn [mbind res_bind negb]; [|by exists false].
  destruct (compare_arrays_total mpf_rtp_media_descriptors_compare (from_option media_ok True)
    (video_media_arr d) (video_media_arr d')) as (b & -> & Hb''); [apply media_compare_total|done..|].
  exists b. split; [done|]. intros ?. split_and!; symmetry; auto.
Qed.

(** ** Invariant *)

Section Invariant.
  Context {R : Type}.
  Implicit Types (s : mrcp_server_session_t R) (o : list (session_action R)) (l : list subrequest).

(** The active message and those that wait. *)
Definition messages s : list (mrcp_signaling_message_t R) := option_list (active_request s) ++ request_queue s.

(** A message names a channel that exists. *)
Definition valid s (m : mrcp_signaling_message_t R) : Prop :=
  match m with
  | SIGNALING_MESSAGE_OFFER d => offer_ok d
  | SIGNALING_MESSAGE_CONTROL (Some i) _ => i < length (channels s)
  | _ => True
  end.

Record good s : Prop := {
  gd_context : context s = false → channels s = [] ∧ terminations s = [];
  gd_last : from_option (λ d, offer_ok d ∧ ∃ a, last_answer s = Some a ∧ shape d a) True (last_offer s);
  gd_work : Forall (valid s) (messages s)
}.

(** No message is processed. *)
Record resting s : Prop := {
  rs_acct : acct s [];
  rs_unsent : mpf_task_msg s = None;
  rs_offer : offer s = None;
  rs_answer : answer s = None
}.

(** The offer [d] is processed. *)
Record answering s (d : mrcp_session_descriptor_t) : Prop := {
  an_active : active_request s = Some (SIGNALING_MESSAGE_OFFER d);
  an_unsent : mpf_task_msg s = None;
  an_context : context s = true;
  an_offer : ∃ d' a, offer s = Some d' ∧ answer s = Some a ∧ offer_ok d' ∧ shape d d' ∧ shape d a
}.

(** The message [m] for the channel [c] reaches a state machine. *)
Definition reaches s (c : option nat) (m : @mrcp_message_t R) : bool :=
  let i := match c with
           | Some i => Some i
           | None => fst <$> list_find (λ x, apt_string_compare (ch_resource x) (resource_name (channel_id m)) = true)
                               (channels s)
           end in
  from_option state_machine false (i ≫= (channels s !!.)).

Inductive phase s l : Prop :=
  | PIdle : active_request s = None → request_queue s = [] → resting s → l = [] → phase s l
  | POffer d : answering s d → acct s l → 0 < subrequest_count s →
      state s = SESSION_STATE_GENERATING_ANSWER ∨ state s = SESSION_STATE_INITIALIZING → phase s l
  | PControl c m : active_request s = Some (SIGNALING_MESSAGE_CONTROL c m) → resting s →
      (l = [] ∧ reaches s c m = false) ∨ (∃ i, l = [QMachine i] ∧ i < length (channels s)) → phase s l
  | PTerminate : active_request s = Some SIGNALING_MESSAGE_TERMINATE → mpf_task_msg s = None →
      offer s = None → answer s = None → acct s l →
      (state s = SESSION_STATE_DEACTIVATING ∧ 0 < subrequest_count s) ∨ state s = SESSION_STATE_TERMINATING →
      phase s l.

Definition session_inv s l : Prop := good s ∧ phase s l.

(** A session that has terminated. *)
Definition finished s : bool :=
  match active_request s, state s with
  | Some SIGNALING_MESSAGE_TERMINATE, SESSION_STATE_TERMINATING => bool_decide (subrequest_count s = 0)
  | _, _ => false
  end.

(** The messages that are not done. *)
Definition undone s : list (mrcp_signaling_message_t R) :=
  if finished s then request_queue s else messages s.

(** The answers that are due to messages, in order: to an offer, with a
    descriptor like it, and to the request to terminate. *)
Definition due (q : list (mrcp_signaling_message_t R)) : list (option mrcp_session_descriptor_t) :=
  omap (λ m, match m with
             | SIGNALING_MESSAGE_OFFER d => Some (Some d)
             | SIGNALING_MESSAGE_TERMINATE => Some None
             | SIGNALING_MESSAGE_CONTROL _ _ => None
             end) q.

(** Of the messages [q] those that are done were answered, once each. *)
Definition served (q : list (mrcp_signaling_message_t R)) s o : Prop :=
  ∃ fin, q = fin ++ undone s ∧ Forall2 shape_opt (due fin) (replies o).

Lemma served_none q s o : q = undone s → replies o = [] → served q s o.
Proof. intros Hq Ho. exists []. rewrite Ho. by split; [|constructor]. Qed.

Lemma undone_waiting s : subrequest_count s ≠ 0 → undone s = messages s.
Proof.
  intros Hn. unfold undone, finished. destruct (active_request s) as [[]|], (state s); try done.
  by rewrite bool_decide_eq_false_2.
Qed.

Lemma undone_active s : active_request s ≠ Some SIGNALING_MESSAGE_TERMINATE → undone s = messages s.
Proof. intros Ha. unfold undone, finished. by destruct (active_request s) as [[]|]. Qed.

Lemma acct_zero s l : acct s l → subrequest_count s = 0 → l = [].
Proof.
  intros Ha Hn. rewrite (ac_count _ _ Ha) in Hn. destruct l as [|q l]; [done|].
  pose proof (ac_requests _ _ Ha) as Hq. inversion Hq as [|?? Hq1 _]; subst. exfalso.
  change (weights (q :: l)) with (weight q + weights l) in Hn.
  assert (weight q ≠ 0); [|lia]. destruct (state s), q as [?[]| | | | |[]]; simpl in *; naive_solver.
Qed.

(** In the other states nothing is asked of the media engine. *)
Lemma acct_no_message s l :
  acct s l → state s = SESSION_STATE_INITIALIZING ∨ state s = SESSION_STATE_DEACTIVATING → mpf_task_msg s = None.
Proof.
  intros Ha Hst. pose proof (ac_unsent _ _ Ha) as Hu. pose proof (ac_container _ _ Ha) as Hc. unfold unsent in Hu.
  destruct (mpf_task_msg s) as [[|m c]|]; [done| |done]. inversion Hu as [|?? Hm _]; subst.
  by destruct Hst as [Hst|Hst]; rewrite Hst in Hm.
Qed.

Lemma good_frame s s' : good s → frame s s' → context s = true → good s'.
Proof.
  intros [Hc Hl Hw] Hf Htrue. split.
  - rewrite (fr_context _ _ Hf). congruence.
  - by rewrite (fr_last_offer _ _ Hf), (fr_last_answer _ _ Hf).
  - unfold messages. rewrite (fr_active _ _ Hf), (fr_queue _ _ Hf). eapply Forall_impl; [exact Hw|].
    intros []; simpl; [done| |done]. destruct channel; [|done]. pose proof (fr_channels _ _ Hf). lia.
Qed.

Lemma frame_messages s s' : frame s s' → messages s' = messages s.
Proof. intros Hf. unfold messages. by rewrite (fr_active _ _ Hf), (fr_queue _ _ Hf). Qed.

Lemma answering_frame s s' d : answering s d → frame s s' → mpf_task_msg s' = None → answering s' d.
Proof.
  intros [Ha Hm Hc (d' & a & Ho & Han & Hok & Hs & Hs')] Hf Hm'.
  split; [by rewrite (fr_active _ _ Hf)|done|by rewrite (fr_context _ _ Hf)|].
  pose proof (fr_offer _ _ Hf) as H1. pose proof (fr_offer_ok _ _ Hf) as H2. pose proof (fr_answer _ _ Hf) as H3.
  rewrite Ho in H1, H2. rewrite Han in H3. destruct (offer s') as [x|], (answer s') as [y|]; try done.
  exists x, y. split_and!; try done; [by apply H2|exact (shape_trans _ _ _ Hs H1)|exact (shape_trans _ _ _ Hs' H3)].
Qed.

End Invariant.

(** ** Termination *)

Section Dispatch.
  Context {R : Type}.
  Context (version : mrcp_version_e) (resource_factory : @mrcp_resource_factory_t R) (rtp_codecs : mpf_codec_list_t).
  Context (engine_find : apt_str_t → bool) (create_state_machine : apt_str_t → bool).
  Context (create_channel : nat → apt_str_t → option mrcp_engine_channel_t).
  Context (taken : nat → bool) (uuid : list Z).
  Implicit Types (s : mrcp_server_session_t R) (o : list (session_action R)) (l : list subrequest).

Lemma acct_nil s : subrequest_count s = 0 → mpf_task_msg s = None → acct s [].
Proof.
  intros Hn Hm. split; unfold asked, unsent; rewrite ?Hm; simpl; try done.
  - split; [constructor|]. by intros i ?%not_elem_of_nil.
  - split; [constructor|]. by intros i ?%not_elem_of_nil.
Qed.

Lemma below_nil a b r s : mpf_task_msg s = None → below a b r s [].
Proof. intros Hm. split; unfold asked, unsent; rewrite ?Hm; intros i Hi; by apply not_elem_of_nil in Hi. Qed.

Lemma acct_nil_count s : acct s [] → mpf_task_msg s = None → subrequest_count s = 0.
Proof. intros Ha Hm. rewrite (ac_count _ _ Ha). unfold unsent. by rewrite Hm. Qed.

Lemma resting_same s s' :
  resting s → subrequest_count s' = subrequest_count s → mpf_task_msg s' = mpf_task_msg s → offer s' = offer s →
  answer s' = answer s → resting s'.
Proof.
  intros [Ha Hm Hof Han] Hn Hm' Ho Ha'. split; [|congruence..].
  apply acct_nil; [|congruence]. rewrite Hn. by apply acct_nil_count.
Qed.

(** The session in [s] terminates, and nothing else. *)
Record terminating s : Prop := {
  tm_good : good s;
  tm_active : active_request s = Some SIGNALING_MESSAGE_TERMINATE;
  tm_unsent : mpf_task_msg s = None;
  tm_offer : offer s = None;
  tm_answer : answer s = None
}.

(** What an operation of a session that terminates does. *)
Definition ends s s' o : Prop := session_inv s' (requests o) ∧ served (messages s) s' o.

Lemma channels_destroy_spec n i s :
  i + n ≤ length (channels s) →
  wp (channels_destroy n i) (λ _ s' o, ∃ cs, s' = s <| channels := cs |> ∧ length cs = length (channels s) ∧
    requests o = [] ∧ replies o = []) s.
Proof.
  revert i s. induction n as [|n IH]; intros i s Hle; simpl.
  { apply wp_ret. exists (channels s). by destruct s. }
  assert (is_Some (channels s !! i)) as [c Hc] by (apply lookup_lt_is_Some; lia).
  apply wp_bind, (wp_channel_at i c); [done|]. apply wp_bind.
  apply (wp_mono _ (λ _ s' o, s' = s ∧ requests o = [] ∧ replies o = [])).
  { destruct (control_channel c); [by apply wp_emit|by apply wp_ret]. }
  intros [] s1 o1 (-> & Hr1 & Hp1). apply wp_bind.
  apply (wp_mono _ (λ _ s' o, s' = s ∧ requests o = [] ∧ replies o = [])).
  { destruct (engine_channel c); [by apply wp_emit|by apply wp_ret]. }
  intros [] s2 o2 (-> & Hr2 & Hp2). apply wp_bind, wp_change.
  eapply wp_mono; [apply IH; simpl; rewrite length_insert; lia|]. intros [] s3 o3 (cs & -> & Hlen & Hr3 & Hp3).
  exists cs. simpl in Hlen. rewrite length_insert in Hlen. split_and!; [by destruct s|done|..].
  - simpl. by rewrite !requests_app, Hr1, Hr2, Hr3.
  - simpl. by rewrite !replies_app, Hp1, Hp2, Hp3.
Qed.

Lemma good_channels s cs :
  good s → length cs = length (channels s) → good (s <| channels := cs |>).
Proof.
  intros [Hc Hl Hw] Hlen. split; simpl.
  - intros Hf. destruct (Hc Hf) as [Hc1 Hc2]. rewrite Hc1 in Hlen. split; [by destruct cs|done].
  - done.
  - eapply Forall_impl; [exact Hw|]. intros []; simpl; [done| |done]. destruct channel; simpl; lia.
Qed.

Lemma terminate_send_spec s :
  terminating s → subrequest_count s = 0 → state s = SESSION_STATE_TERMINATING →
  wp mrcp_server_session_terminate_send (λ _ s' o, ends s s' o) s.
Proof.
  intros [Hg Ha Hm Hof Han] Hn Hst. apply wp_bind, wp_ask, wp_bind.
  eapply wp_mono; [apply channels_destroy_spec; lia|]. intros [] s1 o1 (cs & -> & Hlen & Hr & Hp).
  apply wp_bind, wp_emit, wp_emit. split.
  - rewrite !requests_app, Hr. split; [by apply good_channels|].
    eapply PTerminate; try done; [by apply acct_nil|by right].
  - exists [SIGNALING_MESSAGE_TERMINATE]. rewrite !replies_app, Hp. split; [|by repeat constructor].
    unfold undone, finished, messages. simpl. by rewrite Ha, Hst, Hn.
Qed.

(** A session that terminates has asked for [l]. *)
Lemma terminate_settle s l :
  terminating s → acct s l → state s = SESSION_STATE_TERMINATING ∨
    (state s = SESSION_STATE_DEACTIVATING ∧ 0 < subrequest_count s) → session_inv s l.
Proof. intros [] Ha Hst. split; [done|]. eapply PTerminate; try done. tauto. Qed.

Lemma terminating_frame s s' :
  terminating s → frame s s' → context s = true → mpf_task_msg s' = None → terminating s'.
Proof.
  intros [Hg Ha Hm Hof Han] Hf Hc Hm'. split; [by eapply good_frame|by rewrite (fr_active _ _ Hf)|done|..].
  - pose proof (fr_offer _ _ Hf) as H. rewrite Hof in H. by destruct (offer s').
  - pose proof (fr_answer _ _ Hf) as H. rewrite Han in H. by destruct (answer s').
Qed.

Lemma terminating_state s st :
  terminating s → terminating (s <| subrequest_count := 0 |> <| state := st |>).
Proof. by intros [[] ? ? ? ?]. Qed.

(** What follows operations that kept the account: the session waits, or nothing
    was asked for and it goes on with [m]. *)
Lemma terminate_end a b r s s1 o1 (m : operation (mrcp_server_session_t R) (session_action R) unit) :
  terminating s → kept a b r s [] s1 o1 → context s = true → mpf_task_msg s1 = None →
  state s = SESSION_STATE_DEACTIVATING ∨ state s = SESSION_STATE_TERMINATING →
  (terminating s1 → subrequest_count s1 = 0 → state s1 = state s → wp m (λ _ s' o, ends s1 s' o) s1) →
  wp (count ← ask subrequest_count; if decide (count = 0) then m else mret tt) (λ _ s' o, ends s s' (o1 ++ o)) s1.
Proof.
  intros Htm Hk Hc Hm Hst Hgo. apply wp_bind, wp_ask. pose proof (kp_frame Hk) as Hf.
  assert (Htm1 : terminating s1) by (by eapply terminating_frame).
  pose proof (kept_state Hk) as Hst1. case_decide as Hn.
  - eapply wp_mono; [by apply Hgo|]. intros [] s' o (Hi & fin & Hw & Hr).
    rewrite (frame_messages _ _ Hf) in Hw.
    pose proof (acct_zero _ _ (kp_acct Hk) Hn) as Hz. simpl in Hz. split; [by rewrite requests_app, Hz|].
    exists fin. by rewrite replies_app, (kp_replies Hk).
  - apply wp_ret. unfold ends. rewrite !app_nil_r. split.
    2: { apply served_none; [|apply (kp_replies Hk)]. rewrite undone_waiting by lia. by symmetry; apply frame_messages. }
    apply terminate_settle; [done|apply (kp_acct Hk)|]. rewrite Hst1. destruct Hst; [right|by left].
    split; [done|lia].
Qed.

Lemma terminate_process_spec s :
  terminating s → wp (mrcp_server_session_terminate_process taken) (λ _ s' o, ends s s' o) s.
Proof.
  intros Htm. apply wp_bind, wp_change. apply (terminating_state _ SESSION_STATE_TERMINATING) in Htm.
  set (s0 := s <| subrequest_count := _ |> <| state := _ |>) in *.
  change (wp (up ← ask context; (if up : bool then mpf_engine_message_add MPF_RESET_ASSOCIATIONS;;
     mrcp_server_session_subrequest_add else mret tt);; n ← ask (λ s, length (channels s)); channels_terminate taken n 0;;
     n ← ask (λ s, length (terminations s)); terminations_subtract n 0;; (if up : bool then mpf_engine_message_send
     else mret tt);; count ← ask subrequest_count; if decide (count = 0) then mrcp_server_session_terminate_send
     else mret tt) (λ _ s' o, ends s0 s' o) s0).
  apply wp_bind, wp_ask. destruct (context s0) eqn:Hc.
  2: { destruct (gd_context _ (tm_good _ Htm) Hc) as [Hch Hts].
       apply wp_bind, wp_ret, wp_bind, wp_ask. rewrite Hch. apply wp_bind, wp_ret, wp_bind, wp_ask. rewrite Hts.
       apply wp_bind, wp_ret, wp_bind, wp_ret, wp_bind, wp_ask. by apply terminate_send_spec. }
  assert (Ha : acct s0 []) by (apply acct_nil; [done|apply Htm]).
  assert (Hb : below 0 0 0 s0 []) by apply below_nil, Htm.
  apply wp_bind, wp_bind, wp_message_add. intros o ms Hp Hr. apply wp_change. rewrite app_nil_r.
  set (s1 := s0 <| mpf_task_msg := _ |> <| subrequest_count := _ |>).
  assert (Hk1 : kept 0 0 0 s0 [] s1 o) by (eapply kept_message; solve_kept).
  apply wp_bind, wp_ask, wp_bind.
  eapply wp_mono; [eapply (kept_after Hk1), channels_terminate_spec; [apply Hk1..|done|lia]|]. intros [] s2 o2 Hk2.
  apply wp_bind, wp_ask, wp_bind.
  eapply wp_mono; [eapply (kept_after Hk2), terminations_subtract_spec; [apply Hk2..|by rewrite (kept_state Hk2)|lia]|].
  intros [] s3 o3 Hk3. apply wp_bind. eapply wp_mono; [eapply message_send_spec; apply Hk3|].
  intros [] s4 o4 [Hk4 Hm4]. pose proof (kept_trans Hk3 Hk4) as Hk.
  eapply wp_mono; [eapply (terminate_end _ _ _ _ _ _ _ Htm Hk); try done; [by right|]|].
  - intros ? ? Hst4. apply terminate_send_spec; [done..|]. by rewrite Hst4.
  - intros [] s5 o5. simpl. by rewrite <- !(assoc_L (++)).
Qed.

Lemma deactivate_spec s :
  good s → resting s → active_request s = Some SIGNALING_MESSAGE_TERMINATE →
  wp (mrcp_server_session_deactivate taken) (λ _ s' o, ends s s' o) s.
Proof.
  intros Hg [Hac Hm Hof Han] Hact. apply wp_bind, wp_change.
  assert (Htm : terminating s) by done. apply (terminating_state _ SESSION_STATE_DEACTIVATING) in Htm.
  set (s0 := s <| subrequest_count := _ |> <| state := _ |>) in *.
  change (wp (n ← ask (λ s, length (channels s)); channels_deactivate taken n 0;; count ← ask subrequest_count;
     if decide (count = 0) then mrcp_server_session_terminate_process taken else mret tt) (λ _ s' o, ends s0 s' o) s0).
  apply wp_bind, wp_ask, wp_bind.
  destruct (context s0) eqn:Hc.
  2: { destruct (gd_context _ (tm_good _ Htm) Hc) as [Hch _]. rewrite Hch.
       apply wp_ret, wp_bind, wp_ask. by apply terminate_process_spec. }
  eapply wp_mono; [apply (channels_deactivate_spec _ _ _ 0 0 0); [by apply acct_nil|by apply below_nil|done|lia]|].
  intros [] s1 o1 Hk1. eapply (terminate_end _ _ _ _ _ _ _ Htm Hk1); try done.
  - eapply acct_no_message; [apply Hk1|]. right. by rewrite (kept_state Hk1).
  - by left.
  - intros ? _ _. by apply terminate_process_spec.
Qed.

(** ** The next message *)

(** What processing the messages [q] leads to. *)
Definition goes_on (q : list (mrcp_signaling_message_t R)) s' o : Prop := session_inv s' (requests o) ∧ served q s' o.

(** [dispatch] starts a message when fewer than [n] wait. *)
Definition dispatches (dispatch : mrcp_signaling_message_t R → operation (mrcp_server_session_t R) (session_action R) unit)
    (n : nat) : Prop :=
  ∀ m s, good s → resting s → active_request s = Some m → length (request_queue s) < n →
    wp (dispatch m) (λ _ s' o, goes_on (messages s) s' o) s.

Section Next.
  Context (dispatch : mrcp_signaling_message_t R → operation (mrcp_server_session_t R) (session_action R) unit).

Lemma next_request_spec s :
  dispatches dispatch (length (request_queue s)) → good s → resting s →
  wp (next_request dispatch) (λ _ s' o, goes_on (request_queue s) s' o) s.
Proof.
  intros Hd [Hc Hl Hw] Hrs. apply wp_bind, wp_ask.
  apply Forall_app in Hw as [_ Hw]. unfold dispatches in Hd.
  destruct (request_queue s) as [|m q] eqn:Hq; simpl; apply wp_bind, wp_change.
  - apply wp_ret. split.
    + split; [by split|]. apply PIdle; [done..| |done]. by eapply resting_same.
    + by apply served_none.
  - match goal with |- wp _ _ ?s1 => apply (wp_mono _ (λ _ s' o, goes_on (messages s1) s' o)); [|by intros []] end.
    apply Hd; [by split|by eapply resting_same|done|simpl; lia].
Qed.

Lemma answer_send_spec d s :
  dispatches dispatch (length (request_queue s)) → good s → answering s d → acct s [] →
  wp (mrcp_server_session_answer_send dispatch) (λ _ s' o, goes_on (messages s) s' o) s.
Proof.
  intros Hd [Hc Hl Hw] [Hact Hm _ (d' & a & Hof & Han & Hok & Hs & Hs')] Hac. apply wp_bind, wp_ask, wp_bind.
  rewrite Han. eapply wp_try; [done|]. apply wp_bind, wp_emit, wp_bind, wp_change.
  match goal with |- wp _ _ ?s1 => set (s2 := s1) end.
  eapply wp_mono; [apply next_request_spec|].
  - done.
  - split; [done| |done]. simpl. rewrite Hof, Han. simpl. split; [done|]. exists a. split; [done|].
    exact (shape_trans _ _ _ (shape_sym _ _ Hs) Hs').
  - split; try done. apply acct_nil; [exact (acct_nil_count s Hac Hm)|done].
  - intros [] s' o [Hi (fin & Hq & Hr)]. split; [done|].
    exists (SIGNALING_MESSAGE_OFFER d :: fin). unfold messages at 1. rewrite Hact. simpl in *. split; [by rewrite Hq|].
    by constructor.
Qed.

(** What follows operations that kept the account of an offer. *)
Lemma offer_end a b r d s s1 o1 :
  dispatches dispatch (length (request_queue s)) → good s → answering s d →
  state s = SESSION_STATE_GENERATING_ANSWER ∨ state s = SESSION_STATE_INITIALIZING →
  kept a b r s [] s1 o1 → mpf_task_msg s1 = None →
  wp (count ← ask subrequest_count; if decide (count = 0) then mrcp_server_session_answer_send dispatch else mret tt)
    (λ _ s' o, goes_on (messages s) s' (o1 ++ o)) s1.
Proof.
  intros Hd Hg Han Hst Hk Hm. apply wp_bind, wp_ask. pose proof (kp_frame Hk) as Hf.
  assert (Han1 := answering_frame _ _ _ Han Hf Hm). assert (Hg1 := good_frame _ _ Hg Hf (an_context _ _ Han)).
  rewrite <- (frame_messages _ _ Hf). case_decide as Hn.
  - pose proof (acct_zero _ _ (kp_acct Hk) Hn) as Hz. simpl in Hz. pose proof (kp_acct Hk) as Ha.
    simpl in Ha. rewrite Hz in Ha.
    eapply wp_mono; [eapply answer_send_spec; [by rewrite (fr_queue _ _ Hf)|done..]|].
    intros [] s' o [Hi (fin & Hw & Hr)]. split; [by rewrite requests_app, Hz|]. exists fin.
    by rewrite replies_app, (kp_replies Hk).
  - apply wp_ret. rewrite !app_nil_r. split; [|apply served_none; [by rewrite undone_waiting|apply (kp_replies Hk)]].
    split; [done|]. eapply POffer; [done|apply (kp_acct Hk)|lia|]. by rewrite (kept_state Hk).
Qed.

Lemma engine_channels_update_spec d s :
  dispatches dispatch (length (request_queue s)) → good s → answering s d →
  wp (mrcp_server_engine_channels_update version taken dispatch) (λ _ s' o, goes_on (messages s) s' o) s.
Proof.
  intros Hd Hg Han. destruct (an_offer _ _ Han) as (d' & a & Hof & _).
  apply wp_bind, wp_ask. rewrite Hof. apply wp_bind, wp_change.
  set (s0 := s <| subrequest_count := _ |> <| state := _ |>).
  assert (Hm : mpf_task_msg s0 = None) by apply Han.
  assert (Ha : acct s0 []) by (by apply acct_nil). assert (Hb : below 0 0 0 s0 []) by by apply below_nil.
  apply wp_bind. apply (wp_mono _ (λ _ s' o, kept 0 0 0 s0 [] s' o)).
  - case_decide.
    + apply wp_bind, wp_ask. destruct (list_find _ _) as [[i c]|] eqn:Hfind; [|by apply wp_ret, kept_refl]. simpl.
      apply list_find_Some in Hfind as (Hi & _). apply wp_bind, (wp_channel_at i c); [done|].
      destruct (engine_channel c) eqn:He; [|by apply wp_ret, kept_refl]. eapply engine_open_spec; eauto.
    + apply wp_bind, wp_ask. by apply engine_channels_loop_spec.
  - intros [] s1 o1 Hk. eapply (offer_end _ _ _ d s0); try done.
    + by destruct Hg.
    + by destruct Han.
    + by right.
    + eapply acct_no_message; [apply Hk|]. left. by rewrite (kept_state Hk).
Qed.

(** The session is added to the server, with an identifier, at its first offer. *)
Lemma session_add_spec s :
  wp (up ← ask context;
      if up : bool then mret tt
      else
        id ← ask base_id;
        (if decide (len id = 0) then
           change (λ s, s <| base_id := apt_unique_id_generate uuid MRCP_SESSION_ID_HEX_STRING_LENGTH |>)
         else mret tt);;
        emit SessionAdd;;
        change (λ s, s <| context := true |>))
    (λ _ s' o, (∃ id, s' = s <| base_id := id |> <| context := true |>) ∧ requests o = [] ∧ replies o = []) s.
Proof.
  apply wp_bind, wp_ask. destruct (context s) eqn:Hc.
  - apply wp_ret. split_and!; [|done..]. exists (base_id s). destruct s; simpl in *. by rewrite Hc.
  - apply wp_bind, wp_ask, wp_bind. case_decide.
    + apply wp_change, wp_bind, wp_emit, wp_change. split_and!; [by eexists|done..].
    + apply wp_ret, wp_bind, wp_emit, wp_change. split_and!; [|done..]. exists (base_id s). by destruct s.
Qed.

(** What an offer asks for, before [k]. *)
Lemma offer_requests_spec d s (k : operation (mrcp_server_session_t R) (session_action R) unit) Q :
  offering s → acct s [] → mpf_task_msg s = None →
  (∀ a b r s' o, kept a b r s [] s' o → mpf_task_msg s' = None → wp k (λ x s'' o', Q x s'' (o ++ o')) s') →
  wp (mpf_engine_message_add MPF_RESET_ASSOCIATIONS;;
      mrcp_server_session_subrequest_add;;
      (if decide (version = MRCP_VERSION_1) then
         ok ← mrcp_server_resource_offer_process version resource_factory engine_find create_state_machine
                create_channel d;
         if ok : bool then mrcp_server_av_media_offer_process version rtp_codecs d
         else answer_update (λ d, d <| sd_resource_state := false |>)
       else
         mrcp_server_control_media_offer_process version resource_factory engine_find create_state_machine
           create_channel taken d;;
         mrcp_server_av_media_offer_process version rtp_codecs d);;
      mpf_engine_message_add MPF_APPLY_TOPOLOGY;;
      mrcp_server_session_subrequest_add;;
      mpf_engine_message_send;;
      k) Q s.
Proof.
  intros Hof Ha Hm Hgo. destruct (Hof) as (Hst & [an Han] & _).
  apply wp_bind, wp_message_add. intros o ms Hp Hr. apply wp_bind, wp_change.
  match goal with |- wp _ _ ?x => set (s1 := x) end.
  assert (Hk1 : kept 0 0 0 s [] s1 o)
    by (eapply kept_message; solve_kept; [by apply below_nil|by rewrite Hst]).
  apply wp_bind. apply (wp_mono _ (λ _ s' o', ∃ a b r, kept a b r s [] s' (o ++ o'))).
  - destruct (kept_answer_some Hk1 Han) as (an1 & Han1 & _).
    assert (Hst1 := kept_state Hk1). rewrite Hst in Hst1.
    assert (Hav : ∀ a b s2 o2, kept a b 0 s [] s2 (o ++ o2) →
      wp (mrcp_server_av_media_offer_process version rtp_codecs d)
        (λ _ s' o', ∃ a b r, kept a b r s [] s' (o ++ o2 ++ o')) s2).
    { intros a b s2 o2 Hk2. eapply wp_mono; [eapply av_media_offer_process_spec; [apply Hk2..|by eapply kept_offering]|].
      intros [] s3 o3 (r & Hk3). exists a, b, r. rewrite (assoc_L (++)). exact (kept_trans Hk2 Hk3). }
    case_decide; apply wp_bind.
    + eapply wp_mono; [eapply resource_offer_process_spec; [apply Hk1..|done|done]|].
      intros ok s2 o2 (a & b & Hk2). apply (kept_trans Hk1) in Hk2. destruct ok; [by eapply Hav|].
      destruct (kept_answer_some Hk2 Han) as (an2 & Han2 & _). eapply wp_answer_update; [done|].
      exists a, b, 0. rewrite (assoc_L (++)). eapply (kept_trans Hk2), kept_answer; [apply Hk2..|done|done].
    + eapply wp_mono; [eapply control_media_offer_process_spec; [apply Hk1..|done|done]|].
      intros [] s2 o2 (a & b & Hk2). apply (kept_trans Hk1) in Hk2. by eapply Hav.
  - intros [] s2 o2 (a & b & r & Hk2). apply wp_bind, wp_message_add. intros o3 ms3 Hp3 Hr3.
    apply wp_bind, wp_change. match goal with |- wp _ _ ?x => set (s3 := x) end.
    assert (Hk3 : kept a b r s2 (requests (o ++ o2)) s3 o3).
    { eapply kept_message; solve_kept; [apply Hk2..|]. by rewrite (kept_state Hk2), Hst. }
    apply (kept_trans Hk2) in Hk3. apply wp_bind. eapply wp_mono; [eapply message_send_spec; apply Hk3|].
    intros [] s4 o4 [Hk4 Hm4]. apply (kept_trans Hk3) in Hk4. eapply wp_mono; [by eapply Hgo|].
    intros [] s5 o5. simpl. by rewrite <- !(assoc_L (++)).
Qed.

Lemma goes_on_quiet q s' o o' :
  requests o = [] → replies o = [] → goes_on q s' o' → goes_on q s' (o ++ o').
Proof.
  intros Hr Hp [Hi (fin & Hq & Hs)]. split; [by rewrite requests_app, Hr|]. exists fin. by rewrite replies_app, Hp.
Qed.

Lemma offer_process_spec d s :
  dispatches dispatch (length (request_queue s)) → good s → resting s →
  active_request s = Some (SIGNALING_MESSAGE_OFFER d) →
  wp (mrcp_server_session_offer_process version resource_factory rtp_codecs engine_find create_state_machine
        create_channel taken uuid dispatch d) (λ _ s' o, goes_on (messages s) s' o) s.
Proof.
  intros Hd Hg Hrs Hact. pose proof (wp_unbind _ _ _ _ (session_add_spec s)) as Hadd.
  apply wp_bind. eapply wp_mono; [exact Hadd|]. clear Hadd. intros up s0 o0 Hadd. simpl in Hadd.
  apply wp_bind. eapply wp_mono; [exact Hadd|]. clear Hadd. intros [] s1 o1 ((id & ->) & Hr & Hp).
  apply (wp_mono _ (λ _ s' o, goes_on (messages s) s' o)).
  2: { intros [] s' o. rewrite (assoc_L (++)). by apply goes_on_quiet. }
  apply wp_bind, wp_change, wp_bind, wp_ask.
  assert (Hok : offer_ok d).
  { pose proof (gd_work _ Hg) as Hw. unfold messages in Hw. rewrite Hact in Hw. by inversion Hw. }
  pose proof (gd_last _ Hg) as Hlast.
  assert (Hcmp : ∃ b, match last_offer s with
    | Some last => mrcp_session_offers_compare d last | None => Ok false end = Ok b ∧
    (b = true → ∃ a, last_answer s = Some a ∧ shape d a)).
  { destruct (last_offer s) as [last|]; [|by exists false]. destruct Hlast as (Hok' & a & Ha & Hs).
    destruct (offers_compare_total d last Hok Hok') as (b & Hb & Hsh). exists b. split; [done|].
    intros Htrue. exists a. split; [done|]. exact (shape_trans _ _ _ (Hsh Htrue) Hs). }
  destruct Hcmp as (same & Hcmp & Hsame). apply wp_bind. simpl.
  match goal with |- wp _ _ ?x => set (s2 := x) end.
  apply (wp_mono _ (λ b s' o, b = same ∧ s' = s2 ∧ o = [])).
  { destruct (last_offer s) as [last|]; [by eapply wp_try|]. apply wp_ret. by injection Hcmp as ->. }
  intros b s' o (-> & -> & ->). pose proof (gd_last _ Hg) as Hgl. pose proof (gd_work _ Hg) as Hgw.
  destruct same; apply wp_bind, wp_change.
  - destruct (Hsame eq_refl) as (a & Ha & Hs).
    eapply (wp_mono _ (λ _ s' o, goes_on (messages s) s' o)); [|by intros []].
    match goal with |- wp _ _ ?x => eapply (answer_send_spec d x) end; try done.
    + split; [done|apply Hrs|done|]. exists d, a. by split_and!.
    + apply acct_nil; [exact (acct_nil_count s (rs_acct _ Hrs) (rs_unsent _ Hrs))|apply Hrs].
  - apply wp_bind, wp_change. match goal with |- wp _ _ ?x => set (s4 := x) end.
    assert (Hm4 : mpf_task_msg s4 = None) by apply Hrs.
    apply offer_requests_spec; [|by apply acct_nil|done|].
    + split_and!; [done|by eexists|by exists d].
    + intros a b r s5 o5 Hk Hm5. eapply (offer_end a b r d s4); try done.
      * split; [done|apply Hrs|done|]. exists d, (mrcp_session_answer_create d). split_and!; try done.
        split_and!; simpl; by rewrite length_replicate.
      * by left.
Qed.

End Next.

Lemma control_receive_spec c m s :
  good s → resting s → active_request s = Some (SIGNALING_MESSAGE_CONTROL c m) →
  wp (mrcp_server_on_message_receive c m;; mret tt) (λ _ s' o, goes_on (messages s) s' o) s.
Proof.
  intros Hg Hrs Hact. apply wp_bind.
  assert (Hdone : ∀ o, (requests o = [] ∧ reaches s c m = false) ∨
    (∃ i, requests o = [QMachine i] ∧ i < length (channels s)) → replies o = [] → goes_on (messages s) s o).
  { intros o Hr Hp. split; [|apply served_none; [by rewrite undone_active by (by rewrite Hact)|done]].
    split; [done|]. by eapply PControl. }
  apply (wp_mono _ (λ _ s' o, s' = s ∧ goes_on (messages s) s o)).
  2: { intros b s' o [-> Hgo]. apply wp_ret. by rewrite app_nil_r. }
  unfold mrcp_server_on_message_receive. apply wp_bind.
  apply (wp_mono _ (λ i s' o, s' = s ∧ o = [] ∧ from_option (λ i, i < length (channels s)) True i ∧
    reaches s c m = from_option state_machine false (i ≫= (channels s !!.)))).
  { destruct c as [i|]; [apply wp_ret|apply wp_ask]; (split_and!; [done..| |done]); simpl.
    - pose proof (gd_work _ Hg) as Hw. unfold messages in Hw. rewrite Hact in Hw. by inversion Hw.
    - destruct (list_find _ _) as [[i x]|] eqn:Hf; [|done]. simpl.
      apply list_find_Some in Hf as (Hi & _). by eapply lookup_lt_Some. }
  intros [i|] s' o (-> & -> & Hi & Hre); [|apply wp_ret; split; [done|]; apply Hdone; [by left|done]].
  apply lookup_lt_is_Some in Hi as [x Hx]. apply wp_bind, (wp_channel_at i x); [done|]. simpl in Hre. rewrite Hx in Hre.
  destruct (state_machine x) eqn:Hsm; simpl in Hre; rewrite Hsm in Hre.
  - apply wp_bind, wp_emit, wp_ret. split; [done|].
    apply Hdone; [right; exists i; split; [done|by eapply lookup_lt_Some]|done].
  - apply wp_ret. split; [done|]. apply Hdone; [by left|done].
Qed.

(** As many turns as messages wait, and one, are enough. *)
Lemma dispatch_loop_spec fuel :
  dispatches (dispatch_loop version resource_factory rtp_codecs engine_find create_state_machine create_channel
    taken uuid fuel) fuel.
Proof.
  induction fuel as [|fuel IH]; intros m s Hg Hrs Hact Hlt; [lia|]. simpl. destruct m as [d|c m|].
  - apply offer_process_spec; [|done..]. intros m s1 ???? . apply IH; try done. lia.
  - by apply control_receive_spec.
  - by apply deactivate_spec.
Qed.

Lemma signaling_message_dispatch_spec n :
  dispatches (mrcp_server_signaling_message_dispatch version resource_factory rtp_codecs engine_find
    create_state_machine create_channel taken uuid) n.
Proof.
  intros m s Hg Hrs Hact _. apply wp_bind, wp_ask.
  eapply (wp_mono _ (λ _ s' o, goes_on (messages s) s' o)); [|by intros []].
  apply dispatch_loop_spec; try done. lia.
Qed.


End Dispatch.
