(* ===== verification/ServerReplies.v ===== *)
(** * ServerReplies: the answers that a session of the MRCP server waits for.

    Each answer is taken from the account; the last one takes the session to what
    it does next. *)
From S2P Require Import Prelude CString TextStream MrcpMessage StartLine StateMachine RecordUpdate Operation.
From S2P Require Import CodecDescriptor SessionDescriptor ServerSession ServerAccount ServerSessionTheory ServerDispatch.

(** ** Answers in the account *)

Section Paid.
  Context {R : Type}.
  Implicit Types (s : mrcp_server_session_t R) (l : list subrequest).

(** The container whose messages [c] are not answered. *)
Definition rest_of (c : list mpf_message_t) (l : list subrequest) : list subrequest :=
  match c with [] => l | _ => QMpf c :: l end.

(** The same session with one answer less to wait for. *)
Definition paid s s' : Prop :=
  subrequest_count s' = pred (subrequest_count s) ∧ mpf_task_msg s' = mpf_task_msg s ∧ state s' = state s.

Lemma acct_paid s s' q l :
  acct s (q :: l) → weight q = 1 → containers [q] = [] → paid s s' →
  channels s' = channels s → terminations s' = terminations s → acct s' l.
Proof.
  intros [Hn [Hc Hc'] [Ht Ht'] Hq Hu Hbox] Hw Hcq (Hn' & Hm & Hst) Hch Hts.
  assert (Hun : unsent s' = unsent s) by (unfold unsent; by rewrite Hm).
  destruct (waits_kept_same s s' Hch Hts) as [Hk Hk'].
  change (q :: l) with ([q] ++ l) in *. unfold asked in *. rewrite controls_app in Hc, Hc'.
  rewrite containers_app, Hcq in Ht, Ht'. rewrite weights_app in Hn.
  assert (weights [q] = 1) by (unfold weights; simpl; lia).
  apply NoDup_app in Hc as (_ & _ & Hc). apply Forall_app in Hq as [_ Hq].
  split; unfold asked; rewrite ?Hun, ?Hst, ?Hm; auto; [lia|]. split; [done|].
  intros i Hi. apply Hk, Hc', elem_of_app. by right.
Qed.

Lemma acct_paid_control s s' i b c l :
  acct s (QControl i b :: l) → paid s s' → channels s !! i = Some c →
  channels s' = <[i := c <| waiting_for_channel := false |>]> (channels s) → terminations s' = terminations s →
  acct s' l.
Proof.
  intros Ha (Hn & Hm & Hst) Hc Hc' Ht.
  assert (Hfresh : i ∉ controls l) by (destruct Ha as [_ [Hnd _] _ _ _ _]; by apply NoDup_cons in Hnd as [? _]).
  assert (Ha1 : acct (s <| subrequest_count := pred (subrequest_count s) |>) l) by (by eapply acct_paid).
  by eapply acct_unwait_control.
Qed.

Lemma weights_rest c l : weights (rest_of c l) = length c + weights l.
Proof. by destruct c. Qed.
Lemma controls_rest c l : controls (rest_of c l) = controls l.
Proof. by destruct c. Qed.
Lemma containers_rest c l : containers (rest_of c l) = c ++ containers l.
Proof. by destruct c. Qed.

Lemma allowed_container st c : request_allowed st (QMpf c) ↔ c ≠ [] ∧ Forall (message_allowed st) c.
Proof. by destruct st. Qed.

(** An answer of the media engine. *)
Lemma acct_paid_message s s' m c l :
  acct s (QMpf (m :: c) :: l) → paid s s' → (∀ i, waits_control s i → waits_control s' i) →
  (∀ t, waits_termination s t → Some t ≠ message_termination m → waits_termination s' t) → acct s' (rest_of c l).
Proof.
  intros [Hn [Hc Hc'] [Ht Ht'] Hq Hu Hbox] (Hn' & Hm & Hst) Hk Hk'.
  assert (Hun : unsent s' = unsent s) by (unfold unsent; by rewrite Hm).
  change (weights (QMpf (m :: c) :: l)) with (S (length c + weights l)) in Hn.
  assert (Hask : asked s (QMpf (m :: c) :: l) = option_list (message_termination m) ++ asked s' (rest_of c l)).
  { unfold asked. rewrite containers_rest, Hun. change (containers (QMpf (m :: c) :: l)) with ([m] ++ c ++ containers l).
    rewrite <- (assoc_L (++)), (terms_app [m]). f_equal. }
  rewrite Hask in Ht, Ht'. apply NoDup_app in Ht as (_ & Hdis & Ht).
  inversion Hq as [|?? Hq1 Hq2]; subst.
  split; rewrite ?Hst, ?Hun, ?Hm, ?weights_rest, ?controls_rest; auto; [lia| |].
  - split; [done|]. intros t Hin. apply Hk'; [apply Ht', elem_of_app; by right|].
    intros Heq. apply (Hdis t); [|done]. rewrite <- Heq. by left.
  - destruct c; [done|]. constructor; [|done]. apply allowed_container in Hq1 as [_ Hq1].
    apply allowed_container. split; [done|]. by inversion Hq1.
Qed.

End Paid.

(** ** What an answer leads to *)

Section Replies.
  Context {R : Type}.
  Context (version : mrcp_version_e) (resource_factory : @mrcp_resource_factory_t R) (rtp_codecs : mpf_codec_list_t).
  Context (engine_find : apt_str_t → bool) (create_state_machine : apt_str_t → bool).
  Context (create_channel : nat → apt_str_t → option mrcp_engine_channel_t).
  Context (taken : nat → bool) (uuid : list Z).
  Implicit Types (s : mrcp_server_session_t R) (o : list (session_action R)) (l : list subrequest).

Notation subrequest_remove := (mrcp_server_session_subrequest_remove version resource_factory rtp_codecs engine_find
  create_state_machine create_channel taken uuid).

(** An answer has arrived and is not counted yet; [l] is still to come. *)
Record owing s l : Prop := {
  ow_good : good s;
  ow_count : 0 < subrequest_count s;
  ow_acct : acct (s <| subrequest_count := pred (subrequest_count s) |>) l;
  ow_phase :
    (∃ d, answering s d ∧ (state s = SESSION_STATE_GENERATING_ANSWER ∨ state s = SESSION_STATE_INITIALIZING)) ∨
    (terminating s ∧ (state s = SESSION_STATE_DEACTIVATING ∨ state s = SESSION_STATE_TERMINATING))
}.

(** The session after an answer: [q] were its messages. *)
Definition continues (q : list (mrcp_signaling_message_t R)) l s' o : Prop :=
  session_inv s' (l ++ requests o) ∧ served q s' o.

Lemma subrequest_remove_spec s l : owing s l → wp subrequest_remove (λ _ s' o, continues (undone s) l s' o) s.
Proof.
  intros [Hg Hn Ha Hph]. rewrite undone_waiting by lia.
  apply wp_bind, wp_ask. destruct (subrequest_count s) as [|n] eqn:Hs; [lia|]. simpl in Ha.
  apply wp_bind, wp_change. set (s1 := s <| subrequest_count := n |>) in *.
  assert (Hg1 : good s1) by (by destruct Hg).
  case_decide as Hz.
  - assert (l = []) as -> by (by eapply acct_zero). apply wp_bind, wp_ask. change (state s1) with (state s).
    destruct Hph as [(d & Han & [Hst|Hst])|(Htm & [Hst|Hst])]; rewrite Hst.
    + apply (wp_mono _ (λ _ s' o, goes_on (messages s1) s' o)); [|by intros []].
      eapply engine_channels_update_spec; [apply signaling_message_dispatch_spec|done|by destruct Han].
    + apply (wp_mono _ (λ _ s' o, goes_on (messages s1) s' o)); [|by intros []].
      eapply answer_send_spec; [apply signaling_message_dispatch_spec|done|by destruct Han|done].
    + eapply (wp_mono _ (λ _ s' o, ends s1 s' o)); [apply terminate_process_spec; by destruct Htm|by intros []].
    + eapply (wp_mono _ (λ _ s' o, ends s1 s' o)); [apply terminate_send_spec; [by destruct Htm|done..]|by intros []].
  - apply wp_ret. split; [rewrite app_nil_r; split; [done|]|apply served_none; [by rewrite undone_waiting|done]].
    destruct Hph as [(d & Han & Hst)|([] & Hst)].
    + eapply POffer; [by destruct Han|done|simpl; lia|done].
    + eapply PTerminate; try done. destruct Hst; [left|by right]. split; [done|simpl; lia].
Qed.

(** A session that waits for [q]. *)
Lemma inv_waiting s q l :
  session_inv s (q :: l) → weight q ≠ 0 →
  good s ∧ acct s (q :: l) ∧ 0 < subrequest_count s ∧ mpf_task_msg s = None ∧
  ((∃ d, answering s d ∧ (state s = SESSION_STATE_GENERATING_ANSWER ∨ state s = SESSION_STATE_INITIALIZING)) ∨
   (terminating s ∧ (state s = SESSION_STATE_DEACTIVATING ∨ state s = SESSION_STATE_TERMINATING))).
Proof.
  intros [Hg Hp] Hq. split; [done|]. inversion Hp as [Hact Hqu Hrs Hl|d Han Ha Hn Hst|c m Hact Hrs Hl|Hact Hm Hof Hn Ha Hst].
  - done.
  - split_and!; [done..|apply Han|]. left. by exists d.
  - destruct Hl as [[Hl _]|(i & Hl & _)]; [done|]. by injection Hl as -> ->.
  - split_and!; [done| |done|].
    + rewrite (ac_count _ _ Ha). change (weights (q :: l)) with (weight q + weights l). lia.
    + right. split; [done|]. tauto.
Qed.

(** A change of the state that the account and the messages do not see. *)
Lemma owing_update s s' l0 l q :
  session_inv s (q :: l0) → weight q ≠ 0 →
  acct (s' <| subrequest_count := pred (subrequest_count s') |>) l →
  context s' = context s → active_request s' = active_request s → request_queue s' = request_queue s →
  offer s' = offer s → answer s' = answer s → last_offer s' = last_offer s → last_answer s' = last_answer s →
  mpf_task_msg s' = mpf_task_msg s → state s' = state s → subrequest_count s' = subrequest_count s →
  length (channels s') = length (channels s) → length (terminations s') = length (terminations s) → owing s' l.
Proof.
  intros Hi Hq Ha Hcx Hact Hqu Hof Han Hlo Hla Hm Hst Hn Hch Hts.
  destruct (inv_waiting _ _ _ Hi Hq) as ([Hg1 Hg2 Hg3] & _ & Hn0 & _ & Hph).
  assert (Hg' : good s').
  { split; rewrite ?Hcx, ?Hlo, ?Hla; [|done|].
    - intros Hf. destruct (Hg1 Hf) as [E1 E2]. rewrite E1 in Hch. rewrite E2 in Hts.
      split; by apply nil_length_inv.
    - unfold messages. rewrite Hact, Hqu. eapply Forall_impl; [exact Hg3|].
      intros [|[] |]; simpl; try done. lia. }
  split; [done|lia|done|]. rewrite Hst. destruct Hph as [(d & [] & Hph)|([] & Hph)]; [left|right].
  - exists d. split; [|done]. split; rewrite ?Hact, ?Hm, ?Hcx, ?Hof, ?Han; done.
  - split; [|done]. split; rewrite ?Hact, ?Hm, ?Hof, ?Han; done.
Qed.

Lemma owing_answer s l a a' :
  owing s l → answer s = Some a → shape a a' → owing (s <| answer := Some a' |>) l.
Proof.
  intros [Hg Hn Ha Hph] Han Hs. split; [by destruct Hg|done| |].
  - eapply acct_kept; [exact Ha|done..|by apply waits_kept_same].
  - destruct Hph as [(d & [Hact Hm Hc (d' & x & Ho & Hx & Hok & H1 & H2)] & Hst)|([] & _)]; [left|congruence].
    exists d. split; [|done]. split; [done..|]. exists d', a'. rewrite Han in Hx. injection Hx as ->.
    split_and!; try done. exact (shape_trans _ _ _ H2 Hs).
Qed.

(** A session that is answering an offer has an answer to complete. *)
Lemma inv_answer s q l :
  session_inv s (q :: l) → weight q ≠ 0 →
  state s = SESSION_STATE_GENERATING_ANSWER ∨ state s = SESSION_STATE_INITIALIZING → ∃ a, answer s = Some a.
Proof.
  intros Hi Hq Hst. destruct (inv_waiting _ _ _ Hi Hq) as (_ & _ & _ & _ & [(d & [? ? ? (d' & a & ? & ? & _)] & _)|(_ & Hst')]).
  - by exists a.
  - destruct Hst, Hst'; congruence.
Qed.

Lemma inv_allowed s q l : session_inv s (q :: l) → weight q ≠ 0 → request_allowed (state s) q.
Proof. intros Hi Hq. destruct (inv_waiting _ _ _ Hi Hq) as (_ & [] & _). by inversion ac_requests. Qed.

(** The answer about the channel [i] that the session waits for. *)
Lemma owing_control s i b l :
  session_inv s (QControl i b :: l) →
  ∃ c, channels s !! i = Some c ∧ waiting_for_channel c = true ∧
    owing (s <| channels := <[i := c <| waiting_for_channel := false |>]> (channels s) |>) l.
Proof.
  intros Hi. destruct (inv_waiting _ _ _ Hi) as (_ & Ha & _ & _ & _); [done|].
  destruct (proj2 (ac_controls _ _ Ha) i) as (c & Hc & Hw); [by left|]. exists c. split_and!; [done..|].
  eapply owing_update; try done; [|simpl; by rewrite length_insert]. by eapply acct_paid_control.
Qed.

Lemma on_channel_modify_spec s i cd l :
  session_inv s (QControl i true :: l) →
  wp (mrcp_server_on_channel_modify version resource_factory rtp_codecs engine_find create_state_machine
        create_channel taken uuid i cd) (λ _ s' o, continues (undone s) l s' o) s.
Proof.
  intros Hi. destruct (owing_control _ _ _ _ Hi) as (c & Hc & Hw & How).
  destruct (inv_answer _ _ _ Hi) as (a & Ha); [done| |].
  { assert (Hal : request_allowed (state s) _) by (by eapply inv_allowed). destruct (state s); simpl in Hal; tauto. }
  apply wp_bind, (wp_channel_at i c); [done|]. rewrite Hw.
  apply wp_bind, wp_change, wp_bind, wp_ask, wp_bind. eapply wp_answer_update; [exact Ha|]. apply wp_bind.
  match goal with |- wp _ _ ?x => assert (How' : owing x l) end.
  { eapply owing_answer; [done|exact Ha|]. split_and!; simpl; [by rewrite length_insert|done..]. }
  eapply wp_mono; [by apply subrequest_remove_spec|]. intros [] s' o Hgo. apply wp_ret. by rewrite app_nil_r.
Qed.

Lemma on_channel_remove_spec s i b l :
  session_inv s (QControl i b :: l) →
  wp (mrcp_server_on_channel_remove version resource_factory rtp_codecs engine_find create_state_machine
        create_channel taken uuid i) (λ _ s' o, continues (undone s) l s' o) s.
Proof.
  intros Hi. destruct (owing_control _ _ _ _ Hi) as (c & Hc & Hw & How).
  apply wp_bind, (wp_channel_at i c); [done|]. rewrite Hw. apply wp_bind, wp_change, wp_bind.
  eapply wp_mono; [by apply subrequest_remove_spec|]. intros [] s' o Hgo. apply wp_ret. by rewrite app_nil_r.
Qed.

Lemma owing_plain s q l : session_inv s (q :: l) → weight q = 1 → containers [q] = [] → owing s l.
Proof.
  intros Hi Hq Hc. destruct (inv_waiting _ _ _ Hi) as (_ & Ha & _ & _ & _); [lia|].
  eapply owing_update; try done; [lia|]. by eapply acct_paid.
Qed.

(** The answer of an engine that was opened. *)
Lemma on_engine_channel_open_spec s i status l :
  session_inv s (QOpen i :: l) →
  wp (mrcp_server_on_engine_channel_open version resource_factory rtp_codecs engine_find create_state_machine
        create_channel taken uuid status) (λ _ s' o, continues (undone s) l s' o) s.
Proof.
  intros Hi. pose proof (owing_plain _ _ _ Hi eq_refl eq_refl) as How. apply wp_bind. destruct status.
  - by apply wp_ret, subrequest_remove_spec.
  - destruct (inv_answer _ _ _ Hi) as (a & Ha); [done| |].
    { assert (Hal : request_allowed (state s) _) by (by eapply inv_allowed). destruct (state s); simpl in Hal; tauto. }
    eapply wp_answer_update; [done|]. eapply (wp_mono _ (λ _ s' o, continues (undone s) l s' o)); [|by intros []].
    match goal with |- wp _ _ ?x => apply (subrequest_remove_spec x) end. by eapply owing_answer.
Qed.

(** The answer of an engine that was closed, or of a state machine that stopped. *)
Lemma on_plain_spec s q l :
  session_inv s (q :: l) → weight q = 1 → containers [q] = [] →
  wp subrequest_remove (λ _ s' o, continues (undone s) l s' o) s.
Proof. intros Hi Hq Hc. apply subrequest_remove_spec. by eapply owing_plain. Qed.

(** ** Answers of the media engine *)

(** A response has the command and the termination of its request, and a
    descriptor where the request has one. *)
Definition response (m m' : mpf_message_t) : Prop :=
  match m, m' with
  | MPF_ADD_TERMINATION t d, MPF_ADD_TERMINATION t' d' | MPF_MODIFY_TERMINATION t d, MPF_MODIFY_TERMINATION t' d' =>
      t' = t ∧ (is_Some d → is_Some d')
  | MPF_SUBTRACT_TERMINATION t, MPF_SUBTRACT_TERMINATION t' => t' = t
  | MPF_ADD_ASSOCIATION _ _, MPF_ADD_ASSOCIATION _ _ => True
  | MPF_RESET_ASSOCIATIONS, MPF_RESET_ASSOCIATIONS => True
  | MPF_APPLY_TOPOLOGY, MPF_APPLY_TOPOLOGY => True
  | MPF_REMOVE_ASSOCIATION _ _, MPF_REMOVE_ASSOCIATION _ _ => True
  | MPF_DESTROY_TOPOLOGY, MPF_DESTROY_TOPOLOGY => True
  | _, _ => False
  end.

(** What the answer about the termination [t] finds. *)
Lemma asked_waits s m c l t :
  session_inv s (QMpf (m :: c) :: l) → message_termination m = Some t →
  acct s (QMpf (m :: c) :: l) ∧ waits_termination s t.
Proof.
  intros Hi Ht. destruct (inv_waiting _ _ _ Hi) as (_ & Ha & _ & _ & _); [done|]. split; [done|].
  apply (proj2 (ac_terms _ _ Ha)). unfold asked. change (containers (QMpf (m :: c) :: l)) with ([m] ++ c ++ containers l).
  rewrite <- (assoc_L (++)), (terms_app [m]). apply elem_of_app. left. unfold terms. simpl. rewrite Ht. by left.
Qed.

Lemma owing_slot s m c l i x :
  session_inv s (QMpf (m :: c) :: l) → message_termination m = Some (TRtp i) → terminations s !! i = Some x →
  owing (s <| terminations := <[i := x <| slot_waiting := false |>]> (terminations s) |>) (rest_of c l).
Proof.
  intros Hi Ht Hx. destruct (asked_waits _ _ _ _ _ Hi Ht) as [Ha _].
  eapply owing_update; try done; [|simpl; by rewrite length_insert].
  eapply acct_paid_message; [done|done|done|]. intros [j|j] Hj Hne; [|done].
  destruct Hj as (y & Hy & Hw). exists y. simpl. rewrite list_lookup_insert_ne; [done|]. congruence.
Qed.

Lemma owing_channel s m c l i x :
  session_inv s (QMpf (m :: c) :: l) → message_termination m = Some (TEngine i) → channels s !! i = Some x →
  owing (s <| channels := <[i := x <| waiting_for_termination := false |>]> (channels s) |>) (rest_of c l).
Proof.
  intros Hi Ht Hx. destruct (asked_waits _ _ _ _ _ Hi Ht) as [Ha _]. assert (Hlt := lookup_lt_Some _ _ _ Hx).
  eapply owing_update; try done; [|simpl; by rewrite length_insert]. eapply acct_paid_message; [done|done|..].
  - intros j (y & Hy & Hw). destruct (decide (i = j)) as [->|Hne].
    + simplify_eq. eexists. simpl. by rewrite list_lookup_insert_eq.
    + exists y. simpl. by rewrite list_lookup_insert_ne.
  - intros [j|j] Hj Hne; [done|]. destruct Hj as (y & Hy & Hw). exists y. simpl.
    rewrite list_lookup_insert_ne; [done|]. congruence.
Qed.

Lemma channel_termination_done_spec s m c l i :
  session_inv s (QMpf (m :: c) :: l) → message_termination m = Some (TEngine i) →
  wp (channel_termination_done version resource_factory rtp_codecs engine_find create_state_machine
        create_channel taken uuid (TEngine i)) (λ _ s' o, continues (undone s) (rest_of c l) s' o) s.
Proof.
  intros Hi Ht. destruct (asked_waits _ _ _ _ _ Hi Ht) as [_ (x & Hx & Hw & Hterm)].
  apply wp_bind, wp_ask. unfold mrcp_server_channel_termination_find. rewrite Hx. simpl.
  destruct (engine_channel x) as [e|]; [|by destruct Hterm]. simpl in *. destruct Hterm as [y ->]. simpl.
  apply wp_bind, (wp_channel_at i x); [done|]. rewrite Hw. apply wp_bind, wp_change.
  eapply (wp_mono _ (λ _ s' o, continues (undone s) (rest_of c l) s' o)); [|by intros []].
  match goal with |- wp _ _ ?z => apply (subrequest_remove_spec z) end. by eapply owing_channel.
Qed.

Lemma mpf_response_process_spec s m m' c l :
  session_inv s (QMpf (m :: c) :: l) → response m m' →
  wp (mpf_response_process version resource_factory rtp_codecs engine_find create_state_machine
        create_channel taken uuid m') (λ _ s' o, continues (undone s) (rest_of c l) s' o) s.
Proof.
  intros Hi Hr. assert (Hal : request_allowed (state s) (QMpf (m :: c))) by (by eapply inv_allowed).
  apply allowed_container in Hal as [_ Hal]. inversion Hal as [|?? Hm _]; subst. clear Hal.
  assert (Hplain : message_termination m = None → wp subrequest_remove (λ _ s' o, continues (undone s) (rest_of c l) s' o) s).
  { intros Ht. apply subrequest_remove_spec. destruct (inv_waiting _ _ _ Hi) as (_ & Ha & _ & _ & _); [done|].
    eapply owing_update; try done. by eapply acct_paid_message. }
  assert (Hmod : ∀ t d, message_termination m = Some t → state s = SESSION_STATE_GENERATING_ANSWER →
    (∀ i, t = TRtp i → is_Some d) →
    wp (mrcp_server_on_termination_modify version resource_factory rtp_codecs engine_find create_state_machine
          create_channel taken uuid t d) (λ _ s' o, continues (undone s) (rest_of c l) s' o) s).
  { intros [i|i] d Ht Hst Hd; [|apply wp_bind, wp_ask; by eapply channel_termination_done_spec].
    destruct (asked_waits _ _ _ _ _ Hi Ht) as [_ (x & Hx & Hw)].
    destruct (inv_answer _ _ _ Hi) as (a & Ha); [done|by left|]. destruct (Hd i eq_refl) as [sd ->].
    apply wp_bind, wp_ask. simpl. rewrite Hx. simpl. apply wp_bind, wp_ask, wp_bind. rewrite Hx. eapply wp_try; [done|].
    rewrite Hw. apply wp_bind, wp_change, wp_bind. eapply wp_try; [done|]. apply wp_bind.
    pose proof (owing_slot _ _ _ _ _ _ Hi Ht Hx) as How. destruct (local sd) as [media|].
    - eapply wp_answer_update; [exact Ha|].
      eapply (wp_mono _ (λ _ s' o, continues (undone s) (rest_of c l) s' o)); [|by intros []].
      match goal with |- wp _ _ ?z => apply (subrequest_remove_spec z) end. eapply owing_answer; [exact How|done|].
      split_and!; simpl; [done|by rewrite length_insert|done].
    - apply wp_ret. eapply (wp_mono _ (λ _ s' o, continues (undone s) (rest_of c l) s' o)); [|by intros []].
      by match goal with |- wp _ _ ?z => apply (subrequest_remove_spec z) end. }
  destruct m as [t d|t d|t|t x|t x| | |], m' as [t' d'|t' d'|t'|t' x'|t' x'| | |]; try done; try (by apply Hplain); simpl in Hr.
  - destruct Hr as [-> Hd]. apply Hmod; [done|by destruct (state s)|]. intros i ->. apply Hd. by destruct (state s).
  - destruct Hr as [-> Hd]. apply Hmod; [done|by destruct (state s)|]. intros i ->. apply Hd. by destruct (state s).
  - subst t'. apply wp_bind, wp_ask. destruct t as [i|i]; [|by eapply channel_termination_done_spec].
    destruct (asked_waits _ _ _ _ (TRtp i) Hi eq_refl) as [_ (x & Hx & Hw)].
    simpl. rewrite Hx. simpl. apply wp_bind, wp_ask, wp_bind. rewrite Hx. eapply wp_try; [done|].
    rewrite Hw. apply wp_bind, wp_change.
    eapply (wp_mono _ (λ _ s' o, continues (undone s) (rest_of c l) s' o)); [|by intros []].
    match goal with |- wp _ _ ?z => apply (subrequest_remove_spec z) end. by eapply owing_slot.
Qed.

Lemma served_trans q s1 o1 s2 o2 : served q s1 o1 → served (undone s1) s2 o2 → served q s2 (o1 ++ o2).
Proof.
  intros (fin & -> & H1) (fin' & -> & H2). exists (fin ++ fin'). split; [by rewrite (assoc_L (++))|].
  unfold due in *. rewrite omap_app, replies_app. by apply Forall2_app.
Qed.

Lemma continues_trans q l s1 o1 s2 o2 :
  served q s1 o1 → continues (undone s1) (l ++ requests o1) s2 o2 → continues q l s2 (o1 ++ o2).
Proof.
  intros Hs [Hi Hs']. split; [by rewrite requests_app, (assoc_L (++))|by eapply served_trans].
Qed.

Lemma rest_app c l l' : rest_of c (l ++ l') = rest_of c l ++ l'.
Proof. by destruct c. Qed.

(** The responses in a container. *)
Lemma mpf_message_process_spec c c' s l :
  Forall2 response c c' → session_inv s (rest_of c l) →
  wp (mrcp_server_mpf_message_process version resource_factory rtp_codecs engine_find create_state_machine
        create_channel taken uuid c') (λ _ s' o, continues (undone s) l s' o) s.
Proof.
  intros Hc. revert s l. induction Hc as [|m m' c c' Hm Hc IH]; intros s l Hi; simpl.
  - apply wp_ret. split; [by rewrite app_nil_r|by apply served_none].
  - apply wp_bind. eapply wp_mono; [by eapply mpf_response_process_spec|]. intros [] s1 o1 [Hi1 Hs1].
    rewrite <- rest_app in Hi1. eapply wp_mono; [by apply IH|]. intros [] s2 o2 Hgo. by eapply continues_trans.
Qed.

(** ** Messages that arrive, and those of the state machines *)

Lemma good_active s m :
  good s → active_request s = None → request_queue s = [] → valid s m → good (s <| active_request := Some m |>).
Proof. intros [] Ha Hq Hm. split; [done..|]. unfold messages. simpl. rewrite Hq. by constructor. Qed.

Lemma signaling_message_process_spec s m l :
  session_inv s l → valid s m →
  wp (mrcp_server_signaling_message_process version resource_factory rtp_codecs engine_find create_state_machine
        create_channel taken uuid m) (λ _ s' o, continues (undone s ++ [m]) l s' o) s.
Proof.
  intros [Hg Hp] Hm. apply wp_bind, wp_ask. destruct (active_request s) as [m0|] eqn:Hact.
  - apply wp_change. split.
    + rewrite app_nil_r. split.
      * destruct Hg. split; [done..|]. unfold messages, apt_list_push_back in *. simpl. rewrite (assoc_L (++)).
        apply Forall_app. split; [done|by constructor].
      * destruct Hp as [?|d [] ? ? ?|c x ? Hrs ?|? ? ? ? ? ?]; [congruence|..].
        -- eapply POffer; [by split|by eapply acct_kept; [done..|apply waits_kept_same]|done..].
        -- eapply PControl; try done. by eapply resting_same.
        -- eapply PTerminate; try done. by eapply acct_kept; [done..|apply waits_kept_same].
    + apply served_none; [|done]. unfold undone, finished, messages, apt_list_push_back. simpl. rewrite Hact.
      destruct m0, (state s); simpl; try done. by case_bool_decide.
  - destruct Hp as [Ha Hq Hrs ->|d [] ? ? ?|c x ? Hrs ?|? ? ? ? ? ?]; [|congruence..].
    apply wp_bind, wp_change. set (s1 := s <| active_request := _ |>).
    apply (wp_mono _ (λ _ s' o, goes_on (messages s1) s' o)).
    + eapply signaling_message_dispatch_spec; [by apply good_active|by eapply resting_same|done|apply Nat.lt_succ_diag_r].
    + intros [] s' o [Hi Hs]. split; [done|]. rewrite undone_active by (by rewrite Hact). unfold messages in *.
      rewrite Hact, Hq. simpl in Hs. by rewrite Hq in Hs.
Qed.

(** A session that has given a message to a state machine. *)
Lemma inv_machine s j l :
  session_inv s (QMachine j :: l) →
  l = [] ∧ j < length (channels s) ∧ ∃ c m, active_request s = Some (SIGNALING_MESSAGE_CONTROL c m) ∧ resting s.
Proof.
  intros [Hg Hp].
  assert (Hno : ¬ acct s (QMachine j :: l)).
  { intros [_ _ _ Hq _ _]. inversion Hq as [|?? Hq1 _]; subst. by destruct (state s). }
  destruct Hp as [? ? ? ?|d ? ? ? ?|c m Hact Hrs Hl|? ? ? ? ? ?]; [done|done| |done].
  destruct Hl as [[]|(i & Hl & Hi)]; [done|]. injection Hl as -> ->. split_and!; [done..|]. by exists c, m.
Qed.

(** The response of a state machine completes the message it was given. *)
Lemma machine_response_spec s i m l :
  session_inv s (QMachine i :: l) →
  message_type (start_line m) = MRCP_MESSAGE_TYPE_RESPONSE →
  wp (state_machine_on_message_dispatch version resource_factory rtp_codecs engine_find create_state_machine
        create_channel taken uuid i m) (λ _ s' o, continues (undone s) l s' o) s.
Proof.
  intros Hi Hm. destruct (inv_machine _ _ _ Hi) as (-> & [c Hc]%lookup_lt_is_Some & c' & m' & Hact & Hrs).
  apply wp_bind, (wp_channel_at i c); [done|]. rewrite Hm. apply wp_bind, wp_emit.
  eapply wp_mono; [apply next_request_spec; [apply signaling_message_dispatch_spec|apply Hi|done]|].
  intros [] s' o [Hi' (fin & Hq & Hr)]. split; [done|]. exists (SIGNALING_MESSAGE_CONTROL c' m' :: fin).
  split; [|done]. rewrite undone_active by (by rewrite Hact). unfold messages. rewrite Hact. simpl. by rewrite Hq.
Qed.

(** Other messages of a state machine change nothing. *)
Lemma machine_message_spec s i m l :
  session_inv s l → i < length (channels s) → message_type (start_line m) ≠ MRCP_MESSAGE_TYPE_RESPONSE →
  wp (state_machine_on_message_dispatch version resource_factory rtp_codecs engine_find create_state_machine
        create_channel taken uuid i m) (λ _ s' o, continues (undone s) l s' o) s.
Proof.
  intros Hi [c Hc]%lookup_lt_is_Some Hm. apply wp_bind, (wp_channel_at i c); [done|].
  assert (Hdone : ∀ o, requests o = [] → replies o = [] → continues (undone s) l s o).
  { intros o Hr Hp. split; [by rewrite Hr, app_nil_r|by apply served_none]. }
  case_decide; [destruct (engine_channel c); [by apply wp_emit, Hdone|by apply wp_ret, Hdone]|].
  apply wp_bind, wp_emit. rewrite decide_False by done. by apply wp_ret, Hdone.
Qed.

End Replies.
