(* ===== verification/ServerSystem.v ===== *)
(** * ServerSystem: a session of the MRCP server with those it asks.

    A run is a sequence of events: signaling messages arrive, and the control
    connections, the engines, the media engine and the state machines answer what
    they were asked, in any order.  Whatever the order, the session does not
    fault and counts what it waits for; it answers its messages once each, in
    order; and when nothing is outstanding it is not in the middle of a message,
    but for one that reached no state machine. *)
From S2P Require Import Prelude CString TextStream MrcpMessage StartLine StateMachine RecordUpdate Operation.
From S2P Require Import CodecDescriptor SessionDescriptor ServerSession ServerAccount ServerSessionTheory ServerDispatch.
From S2P Require Import MrcpMessageTheory ServerReplies.

Lemma acct_perm {R} (s : mrcp_server_session_t R) l l' : l ≡ₚ l' → acct s l → acct s l'.
Proof.
  intros Hl [Hn [Hc Hc'] [Ht Ht'] Hq Hu Hbox].
  assert (Hcl : controls l ≡ₚ controls l') by (unfold controls; by rewrite Hl).
  assert (Hask : asked s l ≡ₚ asked s l').
  { unfold asked, terms, containers. rewrite Hl. done. }
  assert (Hw : weights l = weights l') by (unfold weights; by rewrite Hl).
  split; [by rewrite <- Hw| | |by rewrite <- Hl|done|done].
  - split; [by rewrite <- Hcl|]. intros i Hi. apply Hc'. by rewrite Hcl.
  - split; [by rewrite <- Hask|]. intros t Hin. apply Ht'. by rewrite Hask.
Qed.

Lemma inv_perm {R} (s : mrcp_server_session_t R) l l' : l ≡ₚ l' → session_inv s l → session_inv s l'.
Proof.
  intros Hl [Hg Hp]. split; [done|]. destruct Hp as [? ? ? ->|d ? ? ? ?|c m ? ? Hq|? ? ? ? ? ?].
  - apply Permutation_nil in Hl as ->. by apply PIdle.
  - eapply POffer; try done. by eapply acct_perm.
  - eapply PControl; try done. destruct Hq as [[-> Hre]|(i & -> & Hi)].
    + left. by apply Permutation_nil in Hl.
    + right. exists i. split; [by apply Permutation_length_1_inv in Hl|done].
  - eapply PTerminate; try done. by eapply acct_perm.
Qed.

Lemma inv_no_empty {R} (s : mrcp_server_session_t R) l : ¬ session_inv s (QMpf [] :: l).
Proof.
  intros [_ Hp]. assert (Hno : ¬ acct s (QMpf [] :: l)).
  { intros [_ _ _ Hq _ _]. inversion Hq as [|?? Hq1 _]; subst. by apply allowed_container in Hq1 as [? _]. }
  destruct Hp as [? ? ? ?|d ? ? ? ?|c m ? ? [[]|(i & ? & _)]|? ? ? ? ? ?]; done.
Qed.

(** More messages arrive after the first were served. *)
Lemma served_more {R} (q q' : list (mrcp_signaling_message_t R)) s1 o1 s2 o2 :
  served q s1 o1 → served (undone s1 ++ q') s2 o2 → served (q ++ q') s2 (o1 ++ o2).
Proof.
  intros (fin & -> & H1) (fin' & Hq & H2). exists (fin ++ fin'). rewrite <- !(assoc_L (++)), Hq. split; [done|].
  unfold due in *. rewrite omap_app, replies_app. by apply Forall2_app.
Qed.

(** ** The session in its surroundings *)

Section System.
  Context {R : Type}.
  Context (version : mrcp_version_e) (resource_factory : @mrcp_resource_factory_t R) (rtp_codecs : mpf_codec_list_t).
  Context (engine_find : apt_str_t → bool) (create_state_machine : apt_str_t → bool).
  Context (create_channel : nat → apt_str_t → option mrcp_engine_channel_t).
  Context (taken : nat → bool) (uuid : list Z).

Notation op := (operation (mrcp_server_session_t R) (session_action R)).

(** The session, and what it asked for and was not answered yet. *)
Definition session_system : Type := mrcp_server_session_t R * list subrequest.

Inductive session_reply :=
  | RControl (cd : mrcp_control_descriptor_t)
  | REngine (status : bool)
  | RMpf (container : list mpf_message_t)
  | RStopped
  | RMachine (m : @mrcp_message_t R).

(** The answer to the [k]-th request; a message of the state machine of a channel
    that completes nothing. *)
Inductive session_event :=
  | ESignal (m : mrcp_signaling_message_t R)
  | EReply (k : nat) (r : session_reply)
  | EMachine (channel : nat) (m : @mrcp_message_t R)
  | EDisconnect.

Definition reply_op (q : subrequest) (r : session_reply) : op unit :=
  match q, r with
  | QControl i true, RControl cd =>
      mrcp_server_on_channel_modify version resource_factory rtp_codecs engine_find create_state_machine
        create_channel taken uuid i cd;; mret tt
  | QControl i false, RControl _ =>
      mrcp_server_on_channel_remove version resource_factory rtp_codecs engine_find create_state_machine
        create_channel taken uuid i;; mret tt
  | QOpen _, REngine status =>
      mrcp_server_on_engine_channel_open version resource_factory rtp_codecs engine_find create_state_machine
        create_channel taken uuid status
  | QClose _, REngine _ =>
      mrcp_server_on_engine_channel_close version resource_factory rtp_codecs engine_find create_state_machine
        create_channel taken uuid
  | QMpf _, RMpf c =>
      mrcp_server_mpf_message_process version resource_factory rtp_codecs engine_find create_state_machine
        create_channel taken uuid c
  | QDeactivate _, RStopped =>
      state_machine_on_deactivate version resource_factory rtp_codecs engine_find create_state_machine
        create_channel taken uuid
  | QMachine i, RMachine m =>
      state_machine_on_message_dispatch version resource_factory rtp_codecs engine_find create_state_machine
        create_channel taken uuid i m
  | _, _ => mret tt
  end.

(** An operation of the session; [l] are the requests that remain. *)
Definition run_op (m : op unit) (s : mrcp_server_session_t R) (l : list subrequest)
    : res (session_system * list (session_action R)) :=
  '(_, s, o) ← m s; Ok ((s, l ++ requests o), o).

Definition session_step (e : session_event) (sy : session_system) : res (session_system * list (session_action R)) :=
  let '(s, l) := sy in
  match e with
  | ESignal m =>
      run_op (mrcp_server_signaling_message_process version resource_factory rtp_codecs engine_find
                create_state_machine create_channel taken uuid m) s l
  | EReply k r =>
      match l !! k with
      | Some q => run_op (reply_op q r) s (delete k l)
      | None => Ok (sy, [])
      end
  | EMachine i m =>
      run_op (state_machine_on_message_dispatch version resource_factory rtp_codecs engine_find
                create_state_machine create_channel taken uuid i m) s l
  | EDisconnect => run_op mrcp_server_on_disconnect s l
  end.

(** What the surroundings keep to: an answer is one to its request, the state
    machine of a channel responds to the message it was given, and messages name
    channels that exist. *)
Definition answers_to (q : subrequest) (r : session_reply) : Prop :=
  match q, r with
  | QControl _ _, RControl _ | QOpen _, REngine _ | QClose _, REngine _ | QDeactivate _, RStopped => True
  | QMpf c, RMpf c' => Forall2 response c c'
  | QMachine _, RMachine m => message_type (start_line m) = MRCP_MESSAGE_TYPE_RESPONSE
  | _, _ => False
  end.
Definition allowed (e : session_event) (sy : session_system) : Prop :=
  match e with
  | ESignal m => valid sy.1 m
  | EReply k r => ∃ q, sy.2 !! k = Some q ∧ answers_to q r
  | EMachine i m => i < length (channels sy.1) ∧ message_type (start_line m) ≠ MRCP_MESSAGE_TYPE_RESPONSE
  | EDisconnect => True
  end.

Definition arrived (es : list session_event) : list (mrcp_signaling_message_t R) :=
  omap (λ e, match e with ESignal m => Some m | _ => None end) es.

Fixpoint session_run (es : list session_event) (sy : session_system)
    : res (session_system * list (session_action R)) :=
  match es with
  | [] => Ok (sy, [])
  | e :: es =>
      '(sy1, o1) ← session_step e sy;
      '(sy2, o2) ← session_run es sy1;
      Ok (sy2, o1 ++ o2)
  end.

Fixpoint allowed_run (es : list session_event) (sy : session_system) : Prop :=
  match es with
  | [] => True
  | e :: es => allowed e sy ∧ ∀ sy1 o, session_step e sy = Ok (sy1, o) → allowed_run es sy1
  end.

Definition session_start : session_system := (mrcp_server_session_create, []).

(** ** Runs *)

Lemma inv_start : session_inv session_start.1 session_start.2.
Proof.
  split; [by split|]. apply PIdle; [done..| |done]. split; [|done..]. by apply acct_nil.
Qed.

Lemma reply_op_spec q r s l :
  session_inv s (q :: l) → answers_to q r → wp (reply_op q r) (λ _ s' o, continues (undone s) l s' o) s.
Proof.
  intros Hi Hr.
  assert (Hdrop : ∀ m : op bool, wp m (λ _ s' o, continues (undone s) l s' o) s →
    wp (m;; mret tt) (λ _ s' o, continues (undone s) l s' o) s).
  { intros m Hm. apply wp_bind. eapply wp_mono; [exact Hm|]. intros b s' o Hgo. apply wp_ret. by rewrite app_nil_r. }
  destruct q as [i []|i|i|i|i|c], r as [cd|st|c'| |m]; try done; simpl.
  - by apply Hdrop, on_channel_modify_spec.
  - by eapply Hdrop, on_channel_remove_spec.
  - by eapply on_engine_channel_open_spec.
  - by eapply on_plain_spec.
  - by eapply on_plain_spec.
  - by eapply machine_response_spec.
  - eapply mpf_message_process_spec; [done|]. destruct c as [|m c]; [by apply inv_no_empty in Hi|done].
Qed.

Lemma run_op_spec (m : op unit) s l q :
  wp m (λ _ s' o, continues q l s' o) s →
  ∃ sy o, run_op m s l = Ok (sy, o) ∧ session_inv sy.1 sy.2 ∧ served q sy.1 o.
Proof.
  intros (x & s' & o & Hm & Hi & Hs). unfold run_op. rewrite Hm. eexists _, o. by split_and!.
Qed.

Lemma server_step_spec e sy :
  session_inv sy.1 sy.2 → allowed e sy →
  ∃ sy' o, session_step e sy = Ok (sy', o) ∧ session_inv sy'.1 sy'.2 ∧ served (undone sy.1 ++ arrived [e]) sy'.1 o.
Proof.
  destruct sy as [s l]. intros Hi He. destruct e as [m|k r|i m|]; cbn [session_step arrived omap list_omap fst snd] in *;
    rewrite ?app_nil_r.
  - by apply run_op_spec, signaling_message_process_spec.
  - destruct He as (q & Hk & Hr). simpl in Hk. rewrite Hk. apply run_op_spec, reply_op_spec; [|done].
    eapply inv_perm; [|done]. by apply delete_Permutation.
  - destruct He. by apply run_op_spec, machine_message_spec.
  - apply run_op_spec. apply wp_bind, wp_ask.
    assert (Hdone : ∀ o, requests o = [] → replies o = [] → continues (undone s) l s o).
    { intros o Hr Hp. split; [by rewrite Hr, app_nil_r|by apply served_none]. }
    case_decide; [by apply wp_ret, Hdone|by apply wp_emit, Hdone].
Qed.

Lemma arrived_cons e es : arrived (e :: es) = arrived [e] ++ arrived es.
Proof. by destruct e. Qed.

Lemma run_spec es sy :
  session_inv sy.1 sy.2 → allowed_run es sy →
  ∃ sy' o, session_run es sy = Ok (sy', o) ∧ session_inv sy'.1 sy'.2 ∧ served (undone sy.1 ++ arrived es) sy'.1 o.
Proof.
  revert sy. induction es as [|e es IH]; intros sy Hi Hes; cbn [session_run].
  { exists sy, []. split_and!; [done..|]. apply served_none; [by rewrite app_nil_r|done]. }
  destruct Hes as [He Hes]. destruct (server_step_spec e sy Hi He) as (sy1 & o1 & Hst & Hi1 & Hs1). rewrite Hst.
  destruct (IH sy1 Hi1 (Hes _ _ Hst)) as (sy2 & o2 & Hrun & Hi2 & Hs2). cbn [mbind res_bind]. rewrite Hrun.
  cbn [mbind res_bind]. exists sy2, (o1 ++ o2). split_and!; [done..|].
  rewrite arrived_cons, (assoc_L (++)). eapply served_more; [exact Hs1|exact Hs2].
Qed.



(** C2: The messages of a session are done in the order of their arrival, and each
    is answered exactly once when it is done: an offer by a descriptor with as many
    media, the request to terminate by its response. *)
Theorem server_answers_in_order (es : list session_event) sy o :
  allowed_run es session_start → session_run es session_start = Ok (sy, o) →
  ∃ fin, arrived es = fin ++ undone sy.1 ∧ Forall2 shape_opt (due fin) (replies o).
Proof.
  intros Hes Hr. destruct (run_spec es session_start inv_start Hes) as (sy' & o' & Hrun & _ & Hs).
  rewrite Hr in Hrun. by injection Hrun as <- <-.
Qed.

(** C3: A session for which nothing is outstanding has done all its messages, or
    has terminated, or is at a message that reaches no state machine. *)
Theorem server_session_progress (es : list session_event) s o :
  allowed_run es session_start → session_run es session_start = Ok ((s, []), o) →
  undone s = [] ∨ finished s = true ∨
  ∃ c m, active_request s = Some (SIGNALING_MESSAGE_CONTROL c m) ∧ reaches s c m = false.
Proof.
  intros Hes Hr. destruct (run_spec es session_start inv_start Hes) as (sy' & o' & Hrun & [_ Hp] & _).
  rewrite Hr in Hrun. injection Hrun as <- <-. simpl in Hp.
  assert (Hz : ∀ Ha : acct s [], mpf_task_msg s = None → subrequest_count s = 0) by (intros; by apply acct_nil_count).
  destruct Hp as [Hact Hq _ _|d Han Ha Hn _|c m Hact _ Hl|Hact Hm _ _ Ha Hst].
  - left. rewrite undone_active by (by rewrite Hact). unfold messages. by rewrite Hact, Hq.
  - pose proof (Hz Ha (an_unsent _ _ Han)). lia.
  - right. right. exists c, m. split; [done|]. by destruct Hl as [[]|(i & ? & _)].
  - right. left. pose proof (Hz Ha Hm) as Hn. destruct Hst as [[_ ?]|Hst]; [lia|].
    unfold finished. by rewrite Hact, Hst, Hn.
Qed.

End System.

(** ** A session with one synthesizer *)

Definition synth_offer : mrcp_session_descriptor_t :=
  mrcp_session_descriptor_create
    <| control_media_arr := [Some (mk_control_descriptor (str_of (lit "10.0.0.1")) 9 1 0 0
                              (str_of (lit "speechsynth")) apt_string_reset [1] 0)] |>
    <| audio_media_arr := [Some (mpf_rtp_media_descriptor_init
                              <| media_codec_list := mk_codec_list (Some []) None None |> <| media_mid := 1 |>)] |>.

Definition sample_control : mrcp_control_descriptor_t :=
  mk_control_descriptor (str_of (lit "10.0.0.2")) 1544 1 1 0 (str_of (lit "speechsynth")) apt_string_reset [1] 0.
Definition sample_media : mpf_rtp_stream_descriptor_t := mk_rtp_stream None (Some mpf_rtp_media_descriptor_init) None.

Definition sample_run {A}
    (run : mrcp_version_e → mrcp_resource_factory_t → mpf_codec_list_t → (apt_str_t → bool) → (apt_str_t → bool) →
           (nat → apt_str_t → option mrcp_engine_channel_t) → (nat → bool) → list Z → A) : A :=
  run MRCP_VERSION_2 small_factory mpf_codec_list_reset (λ _, true) (λ _, true)
    (λ _ _, Some (mk_engine_channel (Some None) false)) (λ _, true) (replicate 8 1%Z).

(** The media engine, the control connection and the engine of the synthesizer
    answer the offer; the request to terminate comes before the last of them. *)
Definition sample_events : list (@session_event unit) :=
  [ESignal (SIGNALING_MESSAGE_OFFER synth_offer);
   EReply 1 (RMpf [MPF_RESET_ASSOCIATIONS; MPF_ADD_TERMINATION (TEngine 0) None;
     MPF_ADD_TERMINATION (TRtp 0) (Some sample_media); MPF_ADD_ASSOCIATION (TRtp 0) (Some (TEngine 0));
     MPF_APPLY_TOPOLOGY]);
   EReply 0 (RControl sample_control);
   ESignal SIGNALING_MESSAGE_TERMINATE;
   EReply 0 (REngine true);
   EReply 0 RStopped;
   EReply 2 (RMpf [MPF_RESET_ASSOCIATIONS; MPF_SUBTRACT_TERMINATION (TEngine 0); MPF_SUBTRACT_TERMINATION (TRtp 0)]);
   EDisconnect;
   EReply 1 (REngine true);
   EReply 0 (RControl sample_control)].

Lemma allowed_next {R} vs rf rc ef cm cc tk u e es (sy sy1 : @session_system R) o :
  allowed e sy → session_step vs rf rc ef cm cc tk u e sy = Ok (sy1, o) →
  allowed_run vs rf rc ef cm cc tk u es sy1 → allowed_run vs rf rc ef cm cc tk u (e :: es) sy.
Proof. intros He Hst Hes. split; [done|]. intros sy' o' Hst'. rewrite Hst in Hst'. by injection Hst' as <- <-. Qed.

Ltac sample_next := eapply allowed_next; [|vm_compute; reflexivity|].
Ltac sample_reply := eexists; split; [vm_compute; reflexivity|].

Lemma sample_allowed : sample_run allowed_run sample_events session_start.
Proof.
  unfold sample_run, sample_events.
  sample_next. { split; [constructor; [by eexists|constructor]|constructor]. }
  sample_next. { sample_reply. repeat constructor; try done. }
  sample_next. { by sample_reply. }
  sample_next. { done. }
  sample_next. { by sample_reply. }
  sample_next. { by sample_reply. }
  sample_next. { sample_reply. by repeat constructor. }
  sample_next. { done. }
  sample_next. { by sample_reply. }
  sample_next. { by sample_reply. }
  done.
Qed.


(** Where the sample ends. *)
Definition sample_end : @session_system unit * list (session_action unit) :=
  match sample_run session_run sample_events session_start with
  | Ok x => x
  | Fault => (session_start, [])
  end.

Lemma server_answers_in_order_witness :
  ∃ a, shape synth_offer a ∧ replies sample_end.2 = [Some a; None].
Proof.
  destruct (server_answers_in_order MRCP_VERSION_2 small_factory mpf_codec_list_reset (λ _, true) (λ _, true)
    (λ _ _, Some (mk_engine_channel (Some None) false)) (λ _, true) (replicate 8 1%Z) sample_events
    sample_end.1 sample_end.2 sample_allowed) as (fin & Ha & Hr).
  - vm_compute. reflexivity.
  - assert (Hw : undone sample_end.1.1 = []) by (vm_compute; reflexivity).
    rewrite Hw, app_nil_r in Ha. rewrite <- Ha in Hr.
    change (due (arrived sample_events)) with [Some synth_offer; None] in Hr.
    revert Hr. generalize (replies sample_end.2). intros rs Hr. inversion Hr as [|x y l1 l2 Hxy Hr2 E1 E2]. subst x l1.
    inversion Hr2 as [|x' y' l1' l2' Hxy' Hr3 E1' E2']. subst x' l1'. inversion Hr3. subst l2'.
    destruct y as [a|]; [|destruct Hxy]. destruct y' as [?|]; [destruct Hxy'|]. exists a. exact (conj Hxy eq_refl).
Defined.

Lemma server_session_progress_witness : finished sample_end.1.1 = true.
Proof.
  destruct (server_session_progress MRCP_VERSION_2 small_factory mpf_codec_list_reset (λ _, true) (λ _, true)
    (λ _ _, Some (mk_engine_channel (Some None) false)) (λ _, true) (replicate 8 1%Z) sample_events
    sample_end.1.1 sample_end.2 sample_allowed) as [_|[Hf|(c & m & Hact & _)]].
  - vm_compute. reflexivity.
  - vm_compute. reflexivity.
  - exact Hf.
  - vm_compute in Hact. discriminate Hact.
Defined.
