(* ===== verification/ServerSessionCases.v ===== *)
(** * ServerSessionCases: particular messages to a session of the MRCP server.

    An offer that repeats the last one is answered at once; a message that reaches
    no state machine stops the session for good; an offer with a resource that is
    not known shifts the channels. *)
From S2P Require Import Prelude CString TextStream MrcpMessage StartLine StateMachine RecordUpdate Operation.
From S2P Require Import CodecDescriptor SessionDescriptor ServerSession ServerAccount ServerSessionTheory ServerDispatch.
From S2P Require Import MrcpMessageTheory ServerReplies ServerSystem.

Section Cases.
  Context {R : Type}.
  Context (version : mrcp_version_e) (resource_factory : @mrcp_resource_factory_t R) (rtp_codecs : mpf_codec_list_t).
  Context (engine_find : apt_str_t → bool) (create_state_machine : apt_str_t → bool).
  Context (create_channel : nat → apt_str_t → option mrcp_engine_channel_t).
  Context (taken : nat → bool) (uuid : list Z).
  Implicit Types (s : mrcp_server_session_t R) (o : list (session_action R)) (l : list subrequest).

Notation message_process := (mrcp_server_signaling_message_process version resource_factory rtp_codecs engine_find
  create_state_machine create_channel taken uuid).
Notation run := (session_run version resource_factory rtp_codecs engine_find create_state_machine create_channel
  taken uuid).

(** A message that arrives while one is active waits. *)
Lemma message_waits s m m' :
  active_request s = Some m →
  message_process m' s = Ok (tt, s <| request_queue := request_queue s ++ [m'] |>, []).
Proof.
  intros Hact. unfold mrcp_server_signaling_message_process.
  by rewrite (bind_pure _ _ (Some m) s s) by (unfold ask; by rewrite Hact).
Qed.

(** A message that asks for nothing, and those that follow it. *)
Lemma run_quiet s s1 l m ms :
  message_process m s = Ok (tt, s1, []) →
  run (ESignal <$> m :: ms) (s, l) = '(sy, o) ← run (ESignal <$> ms) (s1, l); Ok (sy, o).
Proof.
  intros Hm. cbn [fmap list_fmap session_run session_step]. unfold run_op. rewrite Hm. cbn [mbind res_bind].
  change (requests []) with (@nil subrequest). by rewrite app_nil_r.
Qed.

Lemma messages_wait ms s l m :
  active_request s = Some m →
  run (ESignal <$> ms) (s, l) = Ok ((s <| request_queue := request_queue s ++ ms |>, l), []).
Proof.
  revert s. induction ms as [|m' ms IH]; intros s Hact.
  { rewrite app_nil_r. by destruct s. }
  rewrite (run_quiet _ _ _ _ _ (message_waits s m m' Hact)), IH by done. cbn [mbind res_bind]. simpl.
  by rewrite <- (assoc_L (++)).
Qed.

(** C37: A message for a channel that has no state machine, or for a resource without
    channel, stays active for ever: nothing is asked of anyone, and all that
    arrives later waits, offers and requests to terminate included. *)
Theorem unreached_message_blocks s l c m ms :
  active_request s = None → from_option (λ i, i < length (channels s)) True c → reaches s c m = false →
  run (ESignal <$> SIGNALING_MESSAGE_CONTROL c m :: ms) (s, l) =
    Ok ((s <| active_request := Some (SIGNALING_MESSAGE_CONTROL c m) |> <| request_queue := request_queue s ++ ms |>, l), []).
Proof.
  intros Hact Hc Hre. set (s1 := s <| active_request := Some (SIGNALING_MESSAGE_CONTROL c m) |>).
  assert (Hrcv : mrcp_server_on_message_receive c m s1 = Ok (false, s1, [])).
  { assert (Hat : ∀ i x (f : mrcp_channel_t → operation (mrcp_server_session_t R) (session_action R) bool),
      channels s !! i = Some x → (channel_at i ≫= f) s1 = f x s1).
    { intros i x f Hx. rewrite (bind_pure _ _ x s1 s1); [done|]. unfold channel_at.
      rewrite (bind_pure _ _ (Some x) s1 s1); [done|]. unfold ask. simpl. by rewrite Hx. }
    unfold mrcp_server_on_message_receive, reaches in *. destruct c as [i|].
    - simpl in Hc. apply lookup_lt_is_Some in Hc as [x Hx]. simpl in Hre. rewrite Hx in Hre. simpl in Hre.
      rewrite (bind_pure _ _ (Some i) s1 s1) by done. cbv beta iota. by rewrite (Hat i x), Hre.
    - rewrite (bind_pure _ _ _ s1 s1) by done. cbv beta iota. change (channels s1) with (channels s).
      destruct (list_find _ _) as [[i x]|] eqn:Hf; [|done]. apply list_find_Some in Hf as (Hx & _).
      simpl in Hre. rewrite Hx in Hre. simpl in Hre. cbn [fmap option_fmap option_map fst]. by rewrite (Hat i x), Hre. }
  assert (Hfirst : message_process (SIGNALING_MESSAGE_CONTROL c m) s = Ok (tt, s1, [])).
  { unfold mrcp_server_signaling_message_process. rewrite (bind_pure _ _ None s s) by (unfold ask; by rewrite Hact).
    rewrite (bind_pure _ _ tt s s1) by done. unfold mrcp_server_signaling_message_dispatch.
    rewrite (bind_pure _ _ (length (request_queue s1)) s1 s1) by done. cbn [dispatch_loop].
    by rewrite (bind_pure _ _ false s1 s1) by exact Hrcv. }
  rewrite (run_quiet _ _ _ _ _ Hfirst). by rewrite (messages_wait ms s1 l (SIGNALING_MESSAGE_CONTROL c m)) by done.
Qed.

(** An offer like the last one is answered at once by the last answer, and
    nothing is asked of anyone. *)
Theorem repeated_offer_answered s d last a :
  active_request s = None → request_queue s = [] → context s = true →
  last_offer s = Some last → mrcp_session_offers_compare d last = Ok true → last_answer s = Some a →
  ∃ s', message_process (SIGNALING_MESSAGE_OFFER d) s = Ok (tt, s', [Answer a]) ∧
    active_request s' = None ∧ last_offer s' = Some d ∧ last_answer s' = Some a ∧
    subrequest_count s' = subrequest_count s ∧ channels s' = channels s.
Proof.
  intros Hact Hq Hcx Hlast Hcmp Ha. cut (wp (message_process (SIGNALING_MESSAGE_OFFER d)) (λ _ s' o, o = [Answer a] ∧
    active_request s' = None ∧ last_offer s' = Some d ∧ last_answer s' = Some a ∧
    subrequest_count s' = subrequest_count s ∧ channels s' = channels s) s).
  { intros ([] & s' & o & Hrun & -> & Hrest). by exists s'. }
  apply wp_bind, wp_ask. rewrite Hact. apply wp_bind, wp_change, wp_bind, wp_ask. cbn [dispatch_loop].
  apply wp_bind, wp_ask. simpl. rewrite Hcx. apply wp_bind, wp_ret, wp_bind, wp_change, wp_bind, wp_ask, wp_bind.
  simpl. rewrite Hlast. eapply wp_try; [exact Hcmp|]. apply wp_bind, wp_change, wp_bind, wp_ask, wp_bind. simpl.
  rewrite Ha. eapply wp_try; [done|]. apply wp_bind, wp_emit, wp_bind, wp_change, wp_bind, wp_ask. simpl. rewrite Hq.
  apply wp_bind, wp_change, wp_ret. by split_and!.
Qed.

(** ** A resource that is not known *)

Notation offer_process := (mrcp_server_control_media_offer_process version resource_factory engine_find
  create_state_machine create_channel taken).
Notation media_add := (control_media_add version resource_factory engine_find create_state_machine create_channel taken).

Lemma add_unknown cd media i Q s a :
  mrcp_resource_find resource_factory (cd_resource_name cd) = None → answer s = Some a →
  (∀ a', wp (media_add media (S i)) Q (s <| answer := Some a' |>)) → wp (media_add (Some cd :: media) i) Q s.
Proof.
  intros Hno Ha HQ. apply wp_bind. unfold mrcp_server_channel_create. rewrite Hno.
  destruct (buf _); (apply wp_bind; eapply wp_answer_update; [exact Ha|]; apply wp_ret, wp_bind, wp_ret, HQ).
Qed.

(** The channel of a resource that is known, with the position [i] of its media. *)
Lemma add_known cd r i Q s a :
  is_Some (buf (cd_resource_name cd)) → mrcp_resource_find resource_factory (cd_resource_name cd) = Some r →
  answer s = Some a →
  (∀ s' o c, channels s' = channels s ++ [c] → ch_resource c = res_name r → ch_id c = i →
    control_channel c = bool_decide (version = MRCP_VERSION_2) → is_Some (answer s') → Q tt s' o) →
  wp (media_add [Some cd] i) Q s.
Proof.
  intros [b Hb] Hr Ha HQ. apply wp_bind. unfold mrcp_server_channel_create. rewrite Hb, Hr.
  apply (wp_mono _ (λ x s' o, ∃ e sm, x = Some (mk_channel (res_name r) (bool_decide (version = MRCP_VERSION_2)) e sm i
    (Some (cd_cmid_arr cd)) false false) ∧ is_Some (answer s') ∧ channels s' = channels s)).
  { apply wp_bind. apply (wp_mono _ (λ _ s' o, answer s' = Some a ∧ channels s' = channels s)).
    { unfold mrcp_server_engine_channel_create. destruct (engine_find _); [|by apply wp_ret].
      by apply wp_bind, wp_ask, wp_bind, wp_change, wp_ret. }
    intros [e sm] s1 o1 [Ha1 Hc1]. apply wp_bind. destruct e.
    - apply wp_ret, wp_ret. eexists _, _. split_and!; [done|by rewrite Ha1|done].
    - eapply wp_answer_update; [done|]. apply wp_ret. by eexists _, _. }
  intros x s1 o1 (e & sm & -> & [a1 Ha1] & Hc1). apply wp_bind, wp_bind, wp_ask, wp_bind, wp_ask, wp_bind, wp_change.
  apply wp_bind. set (k := length (channels s1)). set (x := mk_channel _ _ _ _ _ _ _ _).
  set (s2 := s1 <| offer := _ |> <| channels := _ |>).
  assert (Hk : channels s2 !! k = Some x) by (simpl; rewrite lookup_app_r by (unfold k; lia); unfold k; by rewrite Nat.sub_diag).
  assert (Hput : ∀ c s', channels s' = channels s1 ++ [c] → ∀ c', <[k := c']> (channels s') = channels s1 ++ [c']).
  { intros c s' -> c'. rewrite insert_app_r_alt by (unfold k; lia). unfold k. by rewrite Nat.sub_diag. }
  apply (wp_mono _ (λ _ s' o, is_Some (answer s') ∧ ∃ b, channels s' = channels s1 ++ [x <| waiting_for_channel := b |>])).
  { apply wp_bind, (wp_channel_at k x); [done|]. apply wp_bind.
    apply (wp_mono _ (λ _ s' o, answer s' = Some a1 ∧ channels s' = channels s1 ++ [x])).
    { destruct (control_channel x); [by apply wp_call|by apply wp_ret]. }
    intros ok s3 o3 [Ha3 Hc3]. destruct ok.
    - apply wp_bind, wp_change, wp_change. split; [simpl; by rewrite Ha3|]. exists true. simpl. by rewrite (Hput x).
    - apply wp_bind, wp_ask. eapply wp_answer_update; [done|]. split; [done|]. by exists false. }
  intros [] s3 o3 (Ha3 & w & Hc3). apply wp_bind.
  apply (wp_channel_at k (x <| waiting_for_channel := w |>)).
  { rewrite Hc3, lookup_app_r by (unfold k; lia). unfold k. by rewrite Nat.sub_diag. }
  apply (wp_mono _ (λ _ s' o, is_Some (answer s') ∧ ∃ b, channels s' = channels s1 ++
    [x <| waiting_for_channel := w |> <| waiting_for_termination := b |>])).
  { unfold channel_termination_add. destruct (engine_channel _ ≫= termination).
    - apply wp_bind, wp_message_add. intros o5 ms _ _. apply wp_bind, wp_change, wp_change. split; [done|].
      exists true. simpl. by rewrite (Hput _ _ Hc3).
    - apply wp_ret. split; [done|]. by exists false. }
  intros [] s4 o4 (Ha4 & w' & Hc4). apply wp_ret.
  eapply HQ; [rewrite Hc4, Hc1; reflexivity|done..].
Qed.

(** The control media of an offer to a session without channels. *)
Lemma offer_unknown s d cd1 cd2 r a :
  version = MRCP_VERSION_2 → channels s = [] → answer s = Some a → control_media_arr d = [Some cd1; Some cd2] →
  mrcp_resource_find resource_factory (cd_resource_name cd1) = None →
  is_Some (buf (cd_resource_name cd2)) → mrcp_resource_find resource_factory (cd_resource_name cd2) = Some r →
  wp (offer_process d) (λ _ s' _, ∃ c, channels s' = [c] ∧ ch_id c = 1 ∧ ch_resource c = res_name r ∧
    control_channel c = true) s.
Proof.
  intros Hv Hch Ha Hd Hno Hb Hr. unfold mrcp_server_control_media_offer_process.
  apply wp_bind, wp_ask. rewrite Hch, Hd. cbn [length Nat.min control_media_modify drop].
  apply wp_bind, wp_ret. eapply add_unknown; [done..|]. intros a'.
  eapply add_known; [done..|]. intros s1 o1 c Hc1 Hres Hid Hctl _. simpl in Hc1. rewrite Hch in Hc1.
  exists c. split_and!; try done. by rewrite Hctl, bool_decide_eq_true_2.
Qed.

(** The control media of an offer to a session with the channel [c]. *)
Lemma offer_again s d cd1 cd2 r a c :
  (∀ n, taken n = true) → channels s = [c] → ch_id c = 1 → control_channel c = true → answer s = Some a →
  control_media_arr d = [Some cd1; Some cd2] →
  is_Some (buf (cd_resource_name cd2)) → mrcp_resource_find resource_factory (cd_resource_name cd2) = Some r →
  wp (offer_process d) (λ _ s' o, ControlModify 0 cd1 ∈ o ∧ ∃ c1 c2, channels s' = [c1; c2] ∧
    ch_id c1 = 1 ∧ ch_id c2 = 1 ∧ ch_resource c1 = ch_resource c ∧ ch_resource c2 = res_name r) s.
Proof.
  intros Htk Hc Hid Hctl Ha Hd Hb Hr. unfold mrcp_server_control_media_offer_process.
  apply wp_bind, wp_ask. rewrite Hc, Hd. cbn [length Nat.min control_media_modify drop]. apply wp_bind, wp_bind.
  apply (wp_channel_at 0 c); [by rewrite Hc|]. apply wp_bind, wp_change, wp_bind. simpl.
  unfold mrcp_session_control_media_get. rewrite Hd, Hc. simpl.
  apply wp_bind, (wp_channel_at 0 (c <| waiting_for_channel := false |>)); [done|].
  apply wp_bind. simpl. rewrite Hctl. unfold call.
  apply wp_bind, wp_ask, wp_bind, wp_change. rewrite Htk. apply wp_bind, wp_emit, wp_ret, wp_bind, wp_change, wp_change, wp_ret.
  eapply add_known; [done..|]. intros s2 o2 c2 Hc2 Hres2 Hid2 _ _. split; [simpl; set_solver|].
  eexists _, c2. split_and!; [exact Hc2|done..].
Qed.

(** *** The whole offer *)

Notation keeps m := (steady (@channels R) m).

Lemma message_add_keeps m : keeps (mpf_engine_message_add m).
Proof. repeat first [steady_step|case_match]. Qed.
Lemma message_send_keeps : keeps mpf_engine_message_send.
Proof. repeat first [steady_step|case_match]. Qed.

Lemma associations_set_keeps i ks : keeps (associations_set i ks).
Proof.
  induction ks as [|k ks IH]; repeat first [steady_step|apply message_add_keeps|case_match].
Qed.

Lemma slot_process_keeps i m : keeps (slot_process version rtp_codecs i m).
Proof.
  unfold slot_process, mrcp_server_associations_build, mrcp_server_associations_set.
  repeat first [steady_step|apply message_add_keeps|apply associations_set_keeps|case_match].
Qed.

(** The audio does not change the channels. *)
Lemma av_media_keeps d : keeps (mrcp_server_av_media_offer_process version rtp_codecs d).
Proof.
  assert (∀ n i, keeps (terminations_modify version rtp_codecs n i)) as H1.
  { induction n as [|n IH]; intros i; cbn [terminations_modify]; repeat first [apply IH|apply slot_process_keeps|steady_step]. }
  assert (∀ n i, keeps (terminations_add version rtp_codecs n i)) as H2.
  { induction n as [|n IH]; intros i; cbn [terminations_add]; repeat first [apply IH|apply slot_process_keeps|steady_step]. }
  unfold mrcp_server_av_media_offer_process. case_match; repeat first [apply H1|apply H2|steady_step].
Qed.

(** An offer that is not like the last one: what its control media do to the
    channels and ask for. *)
Lemma offer_channels s d s' o (Q : list mrcp_channel_t → list (session_action R) → Prop) :
  version = MRCP_VERSION_2 → active_request s = None →
  from_option (λ last, mrcp_session_offers_compare d last = Ok false) True (last_offer s) →
  (∀ s1 a, channels s1 = channels s → answer s1 = Some a → wp (offer_process d) (λ _ s2 o2, Q (channels s2) o2) s1) →
  message_process (SIGNALING_MESSAGE_OFFER d) s = Ok (tt, s', o) →
  ∃ o2, o2 ⊆ o ∧ Q (channels s') o2.
Proof.
  intros Hv Hact Hlast Hwp E. unfold mrcp_server_signaling_message_process in E.
  apply bind_result in E as (x & s1 & o1 & o2 & E1 & E & ->). injection E1 as <- <- <-. rewrite Hact in E.
  apply bind_result in E as ([] & s1 & o1 & o3 & E1 & E & ->). injection E1 as <- <-.
  apply bind_result in E as (n & s1 & o1 & o2 & E1 & E & ->). injection E1 as <- <- <-. cbn [dispatch_loop] in E.
  apply bind_result in E as (x & s1 & o1 & o3 & E1 & E & ->). injection E1 as <- <- <-.
  apply bind_result in E as ([] & s1 & o1 & o2 & E1 & E & ->).
  assert (channels s1 = channels s ∧ last_offer s1 = last_offer s) as [Ec El].
  { match type of E1 with ?m _ = _ => assert (keeps m ∧ steady last_offer m) as [Hc Hl] end.
    { split; repeat first [steady_step|case_match]. }
    split; [exact (Hc _ _ _ _ E1)|exact (Hl _ _ _ _ E1)]. }
  apply bind_result in E as ([] & s2 & o3 & o4 & E2 & E & ->). injection E2 as <- <-.
  apply bind_result in E as (last & s2 & o3 & o5 & E2 & E & ->). injection E2 as <- <- <-. cbn [last_offer] in E.
  apply bind_result in E as (same & s2 & o3 & o4 & E2 & E & ->).
  assert (same = false ∧ channels s2 = channels s1 ∧ o3 = []) as (-> & Ec2 & ->).
  { change (last_offer (s1 <| offer := Some d |>)) with (last_offer s1) in E2. rewrite El in E2.
    destruct (last_offer s) as [last|]; simpl in Hlast; [unfold try in E2; rewrite Hlast in E2|];
      by injection E2 as <- <- <-. }
  apply bind_result in E as ([] & s3 & o3 & o5 & E3 & E & ->). injection E3 as <- <-.
  apply bind_result in E as ([] & s3 & o3 & o4 & E3 & E & ->). injection E3 as <- <-.
  apply bind_result in E as ([] & s3 & o3 & o5 & E3 & E & ->).
  apply bind_result in E as ([] & s4 & o4 & o6 & E4 & E & ->). injection E4 as <- <-.
  apply bind_result in E as ([] & s4 & o4 & o5 & E4 & E & ->). rewrite decide_False in E4 by (by rewrite Hv).
  apply bind_result in E4 as ([] & s5 & o7 & o8 & E5 & E6 & ->).
  assert (channels s3 = channels s) as Ec3 by (rewrite <- Ec, <- Ec2; exact (message_add_keeps _ _ _ _ _ E3)).
  assert (is_Some (answer s3)) as [a Ha].
  { assert (steady answer (mpf_engine_message_add (R:=R) MPF_RESET_ASSOCIATIONS)) as Hs
      by (repeat first [steady_step|case_match]).
    rewrite (Hs _ _ _ _ E3). by eexists. }
  match type of E5 with _ ?st = _ => destruct (Hwp st a Ec3 Ha) as (u & s6 & o9 & E7 & HQ) end.
  rewrite E7 in E5. injection E5 as _ -> ->. apply av_media_keeps in E6.
  apply bind_result in E as ([] & s7 & o10 & o11 & E8 & E & ->). apply message_add_keeps in E8.
  apply bind_result in E as ([] & s8 & o12 & o13 & E9 & E & ->). injection E9 as <- <-.
  apply bind_result in E as ([] & s9 & o14 & o15 & E10 & E & ->).
  pose proof (message_send_keeps _ _ _ _ E10) as Ec10.
  assert (steady subrequest_count (mpf_engine_message_send (R:=R))) as Hs by (repeat first [steady_step|case_match]).
  apply Hs in E10. apply bind_result in E as (n & s10 & o16 & o17 & E11 & E & ->). injection E11 as <- <- <-.
  rewrite decide_False in E by (rewrite E10; done). injection E as <- <-.
  exists o7. split; [set_solver|]. simpl in Ec10. by rewrite Ec10, E8, E6.
Qed.

(** C38: A resource that is not known shifts the channels of a session of MRCPv2
    whose control connections take the requests.  Take any session that can come
    about and is idle, and an offer unlike the last one with two control media, of
    which the second names a resource that is known.  If the session has no
    channel and the first media names a resource that is not known, the channel of
    the second media gets the first place.  If the session has one channel, made so
    for the second media, its control connection is modified with what the offer
    says in the first media, and a second channel is made for the second media. *)
Theorem unknown_resource_shifts_channels es s l o d cd1 cd2 r :
  version = MRCP_VERSION_2 → (∀ n, taken n = true) →
  allowed_run version resource_factory rtp_codecs engine_find create_state_machine create_channel taken uuid es
    session_start → run es session_start = Ok ((s, l), o) → active_request s = None → offer_ok d →
  from_option (λ last, mrcp_session_offers_compare d last = Ok false) True (last_offer s) →
  control_media_arr d = [Some cd1; Some cd2] → is_Some (buf (cd_resource_name cd2)) →
  mrcp_resource_find resource_factory (cd_resource_name cd2) = Some r →
  ∃ s' l' o', session_step version resource_factory rtp_codecs engine_find create_state_machine create_channel taken
      uuid (ESignal (SIGNALING_MESSAGE_OFFER d)) (s, l) = Ok ((s', l'), o') ∧
    (channels s = [] → mrcp_resource_find resource_factory (cd_resource_name cd1) = None →
       ∃ c, channels s' = [c] ∧ ch_id c = 1 ∧ ch_resource c = res_name r ∧ control_channel c = true) ∧
    (∀ c, channels s = [c] → ch_id c = 1 → control_channel c = true →
       ControlModify 0 cd1 ∈ o' ∧ ∃ c1 c2, channels s' = [c1; c2] ∧ ch_id c1 = 1 ∧ ch_id c2 = 1 ∧
         ch_resource c1 = ch_resource c ∧ ch_resource c2 = res_name r).
Proof.
  intros Hv Htk Hes Hrun Hact Hok Hlast Hd Hb Hr.
  destruct (run_spec version resource_factory rtp_codecs engine_find create_state_machine create_channel taken uuid
    es session_start inv_start Hes) as (sy & o1 & Hrun' & Hi & _). rewrite Hrun in Hrun'. injection Hrun' as <- <-.
  destruct (server_step_spec version resource_factory rtp_codecs engine_find create_state_machine create_channel taken
    uuid (ESignal (SIGNALING_MESSAGE_OFFER d)) (s, l) Hi Hok) as ([s' l'] & o' & Hst & _ & _).
  exists s', l', o'. split; [done|]. cbn [session_step] in Hst. unfold run_op in Hst.
  destruct (message_process (SIGNALING_MESSAGE_OFFER d) s) as [[[[] s1] o2]|] eqn:E; [|done].
  cbn [mbind res_bind] in Hst. injection Hst as <- _ <-. split.
  - intros Hch Hno. apply (offer_channels s d s1 o2 (λ cs _, ∃ c, cs = [c] ∧ ch_id c = 1 ∧ ch_resource c = res_name r ∧
      control_channel c = true)) in E as (_ & _ & ?); try done.
    intros s2 a Hc2 Ha. rewrite Hch in Hc2. by eapply offer_unknown.
  - intros c Hch Hid Hctl. apply (offer_channels s d s1 o2 (λ cs o, ControlModify 0 cd1 ∈ o ∧ ∃ c1 c2, cs = [c1; c2] ∧
      ch_id c1 = 1 ∧ ch_id c2 = 1 ∧ ch_resource c1 = ch_resource c ∧ ch_resource c2 = res_name r))
      in E as Hx; [destruct Hx as (o3 & Hsub & Hin & Hx); split; [by apply Hsub|done]|try done..].
    intros s2 a Hc2 Ha. rewrite Hch in Hc2. by eapply offer_again.
Qed.

End Cases.

(** ** Examples *)

(** A session without channels is sent a message and the request to terminate. *)
Lemma unreached_message_blocks_witness :
  sample_run session_run
    (ESignal <$> [SIGNALING_MESSAGE_CONTROL None (small_request MRCP_VERSION_1); SIGNALING_MESSAGE_TERMINATE])
    session_start =
  Ok ((mrcp_server_session_create
         <| active_request := Some (SIGNALING_MESSAGE_CONTROL None (small_request MRCP_VERSION_1)) |>
         <| request_queue := [SIGNALING_MESSAGE_TERMINATE] |>, []), []).
Proof.
  exact (unreached_message_blocks MRCP_VERSION_2 small_factory mpf_codec_list_reset (λ _, true) (λ _, true)
    (λ _ _, Some (mk_engine_channel (Some None) false)) (λ _, true) (replicate 8 1%Z) mrcp_server_session_create []
    None (small_request MRCP_VERSION_1) [SIGNALING_MESSAGE_TERMINATE] eq_refl I eq_refl).
Defined.

Definition answered_session : mrcp_server_session_t unit :=
  mrcp_server_session_create <| context := true |> <| last_offer := Some synth_offer |>
    <| last_answer := Some (mrcp_session_answer_create synth_offer) |>.

Lemma repeated_offer_answered_witness :
  ∃ s', sample_run mrcp_server_signaling_message_process (SIGNALING_MESSAGE_OFFER synth_offer) answered_session =
    Ok (tt, s', [Answer (mrcp_session_answer_create synth_offer)]) ∧ active_request s' = None.
Proof.
  destruct (repeated_offer_answered MRCP_VERSION_2 small_factory mpf_codec_list_reset (λ _, true) (λ _, true)
    (λ _ _, Some (mk_engine_channel (Some None) false)) (λ _, true) (replicate 8 1%Z) answered_session synth_offer
    synth_offer (mrcp_session_answer_create synth_offer) eq_refl eq_refl eq_refl eq_refl) as (s' & Hr & Ha & _).
  - vm_compute. reflexivity.
  - reflexivity.
  - exists s'. exact (conj Hr Ha).
Defined.

Definition unknown_control : mrcp_control_descriptor_t :=
  sample_control <| cd_resource_name := str_of (lit "unknown") |>.

(** An offer of a resource that is not known and a synthesizer, the replies to what
    the session asks for, and a second offer with another port. *)
Definition shifted_offer (port : Z) : mrcp_session_descriptor_t :=
  synth_offer <| control_media_arr := [Some (unknown_control <| cd_port := port |>); Some sample_control] |>.

Definition shifted_events : list (@session_event unit) :=
  [ESignal (SIGNALING_MESSAGE_OFFER (shifted_offer 9));
   EReply 1 (RMpf [MPF_RESET_ASSOCIATIONS; MPF_ADD_TERMINATION (TEngine 0) None;
     MPF_ADD_TERMINATION (TRtp 0) (Some sample_media); MPF_ADD_ASSOCIATION (TRtp 0) (Some (TEngine 0));
     MPF_APPLY_TOPOLOGY]);
   EReply 0 (RControl sample_control);
   EReply 0 (REngine true)].

Lemma shifted_allowed : sample_run allowed_run shifted_events session_start.
Proof.
  unfold sample_run, shifted_events.
  sample_next. { split; [repeat (constructor; [by eexists|]); constructor|constructor]. }
  sample_next. { sample_reply. repeat constructor; try done. }
  sample_next. { by sample_reply. }
  sample_next. { by sample_reply. }
  done.
Qed.

Definition shifted_end : @session_system unit * list (session_action unit) :=
  match sample_run session_run shifted_events session_start with
  | Ok r => r
  | Fault => (session_start, [])
  end.

Lemma unknown_resource_shifts_channels_witness :
  (∃ s' l' o', sample_run session_step (ESignal (SIGNALING_MESSAGE_OFFER (shifted_offer 9))) session_start =
     Ok ((s', l'), o') ∧
     ∃ c, channels s' = [c] ∧ ch_id c = 1 ∧ ch_resource c = str_of (lit "speechsynth") ∧ control_channel c = true) ∧
  (∃ s' l' o', sample_run session_step (ESignal (SIGNALING_MESSAGE_OFFER (shifted_offer 10)))
     (shifted_end.1.1, shifted_end.1.2) = Ok ((s', l'), o') ∧
     ControlModify 0 (unknown_control <| cd_port := 10%Z |>) ∈ o' ∧ ∃ c1 c2, channels s' = [c1; c2] ∧ ch_id c1 = 1 ∧
       ch_id c2 = 1 ∧ ch_resource c1 = str_of (lit "speechsynth") ∧ ch_resource c2 = str_of (lit "speechsynth")).
Proof.
  split.
  - destruct (unknown_resource_shifts_channels MRCP_VERSION_2 small_factory mpf_codec_list_reset (λ _, true) (λ _, true)
      (λ _ _, Some (mk_engine_channel (Some None) false)) (λ _, true) (replicate 8 1%Z) []
      mrcp_server_session_create [] [] (shifted_offer 9) (unknown_control <| cd_port := 9%Z |>) sample_control
      small_resource eq_refl (λ _, eq_refl) I eq_refl eq_refl) as (s' & l' & o' & Hst & H1 & _).
    + split; [repeat (constructor; [by eexists|]); constructor|constructor].
    + exact I.
    + reflexivity.
    + by eexists.
    + reflexivity.
    + exists s', l', o'. split; [exact Hst|]. apply H1; reflexivity.
  - destruct (unknown_resource_shifts_channels MRCP_VERSION_2 small_factory mpf_codec_list_reset (λ _, true) (λ _, true)
      (λ _ _, Some (mk_engine_channel (Some None) false)) (λ _, true) (replicate 8 1%Z) shifted_events
      shifted_end.1.1 shifted_end.1.2 shifted_end.2 (shifted_offer 10) (unknown_control <| cd_port := 10%Z |>)
      sample_control small_resource eq_refl (λ _, eq_refl) shifted_allowed) as (s' & l' & o' & Hst & _ & H2).
    + vm_compute. reflexivity.
    + vm_compute. reflexivity.
    + split; [repeat (constructor; [by eexists|]); constructor|constructor].
    + vm_compute. reflexivity.
    + reflexivity.
    + by eexists.
    + reflexivity.
    + exists s', l', o'. split; [unfold sample_run; exact Hst|].
      assert (∃ c, channels shifted_end.1.1 = [c] ∧ ch_id c = 1 ∧ control_channel c = true ∧
        ch_resource c = str_of (lit "speechsynth")) as (c & Hc & Hid & Hctl & Hres) by (vm_compute; eauto).
      destruct (H2 c Hc Hid Hctl) as (Hin & c1 & c2 & H). rewrite Hres in H. eauto.
Defined.
