(* ===== verification/MpfContext.v ===== *)
(** * MpfContext: the contexts of the media engine ([mpf_context.c],
    [mpf_engine.c]).

    A context has a place for each of its terminations, and a matrix that tells
    which of them hear each other; the topology is made of bridges, multipliers
    and mixers.  The arrays of a context are functions of a position: the code uses
    positions below the capacity.  The counters are bytes. *)
From S2P Require Import Prelude RecordUpdate CodecDescriptor SessionDescriptor ServerSession.

Notation SLOT_NONE := (2 ^ 64 - 1)%N (only parsing).

(** ** Data *)

Record header_item_t := mk_header_item {
  hd_termination : option mpf_termination;
  tx_count : Z;
  rx_count : Z
}.

#[export] Instance eta_header_item : Settable header_item_t :=
  settable! mk_header_item < hd_termination; tx_count; rx_count >.

(** The objects of the topology, by the places of their terminations. *)
Inductive mpf_object_t :=
  | Bridge (source sink : nat)
  | Multiplier (source : nat) (sink_arr : list nat)
  | Mixer (source_arr : list nat) (sink : nat).

(** A termination, with its streams [St], and the table of its functions, which may
    be NULL.  The functions change the streams, and write to the descriptor. *)
Record mpf_termination_t (St : Type) := mk_termination { slot : N; streams : St }.
Arguments mk_termination {_} _ _.
Arguments slot {_} _.
Arguments streams {_} _.

#[export] Instance eta_mpf_termination St : Settable (mpf_termination_t St) :=
  settable! mk_termination < slot; streams >.

Notation descriptor := (option mpf_rtp_stream_descriptor_t).

Record mpf_termination_vtable_t (St : Type) := mk_vtable {
  vt_add : option (St → descriptor → St * (mpf_rtp_stream_descriptor_t → mpf_rtp_stream_descriptor_t));
  vt_modify : option (St → descriptor → St * (mpf_rtp_stream_descriptor_t → mpf_rtp_stream_descriptor_t));
  vt_subtract : option (St → St)
}.
Arguments mk_vtable {_} _ _ _.
Arguments vt_add {_} _.
Arguments vt_modify {_} _.
Arguments vt_subtract {_} _.

(** [in_factory]: the context is in the ring of its factory.  The terminations are
    shared with the session. *)
Record mpf_context_t (St : Type) := mk_context {
  capacity : nat;
  ctx_count : nat;
  header : nat → header_item_t;
  matrix : nat → nat → bool;
  mpf_objects : list mpf_object_t;
  in_factory : bool;
  terminations_of : mpf_termination → mpf_termination_t St
}.
Arguments mk_context {_} _ _ _ _ _ _ _.
Arguments capacity {_} _.
Arguments ctx_count {_} _.
Arguments header {_} _ _.
Arguments matrix {_} _ _ _.
Arguments mpf_objects {_} _.
Arguments in_factory {_} _.
Arguments terminations_of {_} _ _.

#[export] Instance eta_context St : Settable (mpf_context_t St) :=
  settable! mk_context < capacity; ctx_count; header; matrix; mpf_objects; in_factory; terminations_of >.

Definition update {A B} `{EqDecision A} (f : A → B) (a : A) (b : B) : A → B :=
  λ x, if decide (x = a) then b else f x.

Definition u8 (z : Z) : Z := wrap_u 8 z.

Section Context.
  (** The direction of the audio stream, if there is one; the functions of a
      termination; whether an object can be made of the streams: this depends on
      their codecs. *)
  Context {St : Type} (audio_direction : St → option Z) (vtable : mpf_termination → mpf_termination_vtable_t St).
  Context (creates : mpf_context_t St → mpf_object_t → bool).
Notation mpf_context_t := (mpf_context_t St).
Implicit Types (c : mpf_context_t) (t : mpf_termination).

Definition mpf_context_create (max_termination_count : nat) (ts : mpf_termination → mpf_termination_t St) : mpf_context_t :=
  mk_context max_termination_count 0 (λ _, mk_header_item None 0 0) (λ _ _, false) [] false ts.

Definition term_put (c : mpf_context_t) (t : mpf_termination) (x : mpf_termination_t St) : mpf_context_t :=
  c <| terminations_of := update (terminations_of c) t x |>.

Definition header_put (c : mpf_context_t) (i : nat) (h : header_item_t) : mpf_context_t :=
  c <| header := update (header c) i h |>.

(** [header_item->tx_count += n], and the same for [rx_count]. *)
Definition tx_add (c : mpf_context_t) (i : nat) (n : Z) : mpf_context_t :=
  header_put c i (header c i <| tx_count := u8 (tx_count (header c i) + n) |>).
Definition rx_add (c : mpf_context_t) (i : nat) (n : Z) : mpf_context_t :=
  header_put c i (header c i <| rx_count := u8 (rx_count (header c i) + n) |>).

Definition matrix_put (c : mpf_context_t) (i j : nat) (on : bool) : mpf_context_t :=
  c <| matrix := update (matrix c) i (update (matrix c i) j on) |>.

(** The item [i], [j] of the matrix is switched off or on, and counted. *)
Definition item_off (c : mpf_context_t) (i j : nat) : mpf_context_t :=
  if matrix c i j then rx_add (tx_add (matrix_put c i j false) i (-1)) j (-1) else c.
Definition item_on (c : mpf_context_t) (i j : nat) : mpf_context_t :=
  rx_add (tx_add (matrix_put c i j true) i 1) j 1.

(** ** Terminations *)

(** The first free place, from [i] on. *)
Fixpoint free_place (c : mpf_context_t) (n i : nat) : option nat :=
  match n with
  | O => None
  | S n => match hd_termination (header c i) with None => Some i | Some _ => free_place c n (S i) end
  end.

Definition mpf_context_termination_add (c : mpf_context_t) (t : mpf_termination) : bool * mpf_context_t :=
  match free_place c (capacity c) 0 with
  | Some i =>
      let c := if decide (ctx_count c = 0) then c <| in_factory := true |> else c in
      let c := header_put c i (mk_header_item (Some t) 0 0) in
      let c := term_put c t (terminations_of c t <| slot := N.of_nat i |>) in
      (true, c <| ctx_count := S (ctx_count c) |>)
  | None => (false, c)
  end.

(** The loop over the terminations, [j] from 0 on, [k] of them seen so far. *)
Fixpoint subtract_loop (i n j k : nat) (c : mpf_context_t) : mpf_context_t :=
  match n with
  | O => c
  | S n =>
      if decide (k < ctx_count c) then
        match hd_termination (header c j) with
        | None => subtract_loop i n (S j) k c
        | Some _ => subtract_loop i n (S j) (S k) (item_off (item_off c i j) j i)
        end
      else c
  end.

(** The place of a termination: [None] when the termination is not at its slot. *)
Definition place_of (c : mpf_context_t) (t : mpf_termination) : option nat :=
  let s := slot (terminations_of c t) in
  if decide (N.of_nat (capacity c) ≤ s)%N then None
  else
    let i := N.to_nat s in
    if decide (hd_termination (header c i) = Some t) then Some i else None.

Definition mpf_context_termination_subtract (c : mpf_context_t) (t : mpf_termination) : bool * mpf_context_t :=
  match place_of c t with
  | Some i =>
      let c := subtract_loop i (capacity c) 0 0 c in
      let c := header_put c i (header c i <| hd_termination := None |>) in
      let c := term_put c t (terminations_of c t <| slot := SLOT_NONE |>) in
      let c := c <| ctx_count := pred (ctx_count c) |> in
      (true, if decide (ctx_count c = 0) then c <| in_factory := false |> else c)
  | None => (false, c)
  end.

(** ** Associations *)

Definition stream_direction_compatibility_check (c : mpf_context_t) (t1 t2 : mpf_termination) : bool :=
  match audio_direction (streams (terminations_of c t1)), audio_direction (streams (terminations_of c t2)) with
  | Some source, Some sink =>
      bool_decide (Z.land source STREAM_DIRECTION_RECEIVE = STREAM_DIRECTION_RECEIVE) &&
      bool_decide (Z.land sink STREAM_DIRECTION_SEND = STREAM_DIRECTION_SEND)
  | _, _ => false
  end.

Definition mpf_context_association_add (c : mpf_context_t) (t1 t2 : mpf_termination) : bool * mpf_context_t :=
  match place_of c t1, place_of c t2 with
  | Some i, Some j =>
      let c := if negb (matrix c i j) && stream_direction_compatibility_check c t1 t2 then item_on c i j else c in
      let c := if negb (matrix c j i) && stream_direction_compatibility_check c t2 t1 then item_on c j i else c in
      (true, c)
  | _, _ => (false, c)
  end.

Definition mpf_context_association_remove (c : mpf_context_t) (t1 t2 : mpf_termination) : bool * mpf_context_t :=
  match place_of c t1, place_of c t2 with
  | Some i, Some j => (true, item_off (item_off c i j) j i)
  | _, _ => (false, c)
  end.

(** The objects are destroyed; closing of their streams is not modelled. *)
Definition mpf_context_topology_destroy (c : mpf_context_t) : mpf_context_t := c <| mpf_objects := [] |>.

(** The inner loop of the reset, over the places from [j] on. *)
Fixpoint reset_row (i n j : nat) (c : mpf_context_t) : mpf_context_t :=
  match n with
  | O => c
  | S n =>
      reset_row i n (S j)
        (match hd_termination (header c j) with
         | None => c
         | Some _ => item_off (item_off c i j) j i
         end)
  end.

Fixpoint reset_loop (n i k : nat) (c : mpf_context_t) : mpf_context_t :=
  match n with
  | O => c
  | S n =>
      if decide (k < ctx_count c) then
        match hd_termination (header c i) with
        | None => reset_loop n (S i) k c
        | Some _ =>
            let h := header c i in
            reset_loop n (S i) (S k)
              (if decide (tx_count h = 0 ∧ rx_count h = 0)%Z then c else reset_row i (capacity c - i) i c)
        end
      else c
  end.

Definition mpf_context_associations_reset (c : mpf_context_t) : mpf_context_t :=
  let c := mpf_context_topology_destroy c in reset_loop (capacity c) 0 0 c.

(** ** Topology *)

(** The bridge from [i], [j] from 0 on; none where the sink has a mixer. *)
Fixpoint bridge_find (c : mpf_context_t) (i n j : nat) : option mpf_object_t :=
  match n with
  | O => None
  | S n =>
      match hd_termination (header c j), matrix c i j with
      | Some _, true => if decide (1 < rx_count (header c j))%Z then None else Some (Bridge i j)
      | _, _ => bridge_find c i n (S j)
      end
  end.
Definition mpf_context_bridge_create (c : mpf_context_t) (i : nat) : option mpf_object_t :=
  bridge_find c i (capacity c) 0.

(** The places [j] that [on] selects, at most [k] of them. *)
Fixpoint collect (c : mpf_context_t) (on : nat → bool) (n j k : nat) : list nat :=
  match n, k with
  | S n, S k' =>
      match hd_termination (header c j), on j with
      | Some _, true => j :: collect c on n (S j) k'
      | _, _ => collect c on n (S j) k
      end
  | _, _ => []
  end.

(** The array has room for as many streams as the counter says; those that were not
    stored are not initialised. *)
Definition full_array (l : list nat) (count : Z) : res (list nat) :=
  if decide (Z.of_nat (length l) = count) then Ok l else Fault.

Definition mpf_context_multiplier_create (c : mpf_context_t) (i : nat) : res mpf_object_t :=
  let count := tx_count (header c i) in
  l ← full_array (collect c (matrix c i) (capacity c) 0 (Z.to_nat count)) count;
  Ok (Multiplier i l).
Definition mpf_context_mixer_create (c : mpf_context_t) (j : nat) : res mpf_object_t :=
  let count := rx_count (header c j) in
  l ← full_array (collect c (λ i, matrix c i j) (capacity c) 0 (Z.to_nat count)) count;
  Ok (Mixer l j).

Definition mpf_context_object_add (c : mpf_context_t) (object : option mpf_object_t) : mpf_context_t :=
  match object with
  | Some x => if creates c x then c <| mpf_objects := mpf_objects c ++ [x] |> else c
  | None => c
  end.

(** The objects for the termination at [i]. *)
Definition topology_item (c : mpf_context_t) (i : nat) : res mpf_context_t :=
  let h := header c i in
  c ← (if decide (0 < tx_count h)%Z then
         if decide (tx_count h = 1)%Z then Ok (mpf_context_object_add c (mpf_context_bridge_create c i))
         else x ← mpf_context_multiplier_create c i; Ok (mpf_context_object_add c (Some x))
       else Ok c);
  if decide (1 < rx_count h)%Z then
    x ← mpf_context_mixer_create c i; Ok (mpf_context_object_add c (Some x))
  else Ok c.

Fixpoint topology_loop (n i k : nat) (c : mpf_context_t) : res mpf_context_t :=
  match n with
  | O => Ok c
  | S n =>
      if decide (k < ctx_count c) then
        match hd_termination (header c i) with
        | None => topology_loop n (S i) k c
        | Some _ => c ← topology_item c i; topology_loop n (S i) (S k) c
        end
      else Ok c
  end.

Definition mpf_context_topology_apply (c : mpf_context_t) : res mpf_context_t :=
  let c := mpf_context_topology_destroy c in topology_loop (capacity c) 0 0 c.

(** ** Terminations of a context *)

Definition mpf_termination_add c t (d : descriptor) : mpf_context_t * descriptor :=
  let x := terminations_of c t in
  match vt_add (vtable t) with
  | Some add => let '(st, written) := add (streams x) d in (term_put c t (x <| streams := st |>), written <$> d)
  | None => (c, d)
  end.
Definition mpf_termination_modify c t (d : descriptor) : mpf_context_t * descriptor :=
  let x := terminations_of c t in
  match vt_modify (vtable t) with
  | Some modify => let '(st, written) := modify (streams x) d in (term_put c t (x <| streams := st |>), written <$> d)
  | None => (c, d)
  end.
Definition mpf_termination_subtract c t : mpf_context_t :=
  let x := terminations_of c t in
  match vt_subtract (vtable t) with
  | Some subtract => term_put c t (x <| streams := subtract (streams x) |>)
  | None => c
  end.

Fixpoint context_destroy_loop (n i : nat) c : mpf_context_t :=
  match n with
  | O => c
  | S n =>
      context_destroy_loop n (S i)
        (match hd_termination (header c i) with
         | Some t => mpf_termination_subtract (mpf_context_termination_subtract c t).2 t
         | None => c
         end)
  end.
Definition mpf_context_destroy c : mpf_context_t := context_destroy_loop (capacity c) 0 c.

(** ** Requests to the engine *)

(** One request: the context, the response and whether it is a success.  The
    response has the descriptor of the request, which the termination changed. *)
Definition mpf_request_process c (m : mpf_message_t) : res (mpf_context_t * (mpf_message_t * bool)) :=
  match m with
  | MPF_ADD_TERMINATION t d =>
      let '(c, d) := mpf_termination_add c t d in
      let '(ok, c) := mpf_context_termination_add c t in
      Ok (if ok then c else mpf_termination_subtract c t, (MPF_ADD_TERMINATION t d, ok))
  | MPF_MODIFY_TERMINATION t d =>
      let '(c, d) := mpf_termination_modify c t d in
      Ok (c, (MPF_MODIFY_TERMINATION t d, true))
  | MPF_SUBTRACT_TERMINATION t =>
      let '(ok, c) := mpf_context_termination_subtract c t in
      Ok (if ok then mpf_termination_subtract c t else c, (m, ok))
  | MPF_ADD_ASSOCIATION t a =>
      t2 ← deref a; Ok ((mpf_context_association_add c t t2).2, (m, true))
  | MPF_REMOVE_ASSOCIATION t a =>
      t2 ← deref a; Ok ((mpf_context_association_remove c t t2).2, (m, true))
  | MPF_RESET_ASSOCIATIONS => Ok (mpf_context_associations_reset c, (m, true))
  | MPF_APPLY_TOPOLOGY => c ← mpf_context_topology_apply c; Ok (c, (m, true))
  | MPF_DESTROY_TOPOLOGY => Ok (mpf_context_topology_destroy c, (m, true))
  end.

(** The requests of a container; the response has as many messages. *)
Fixpoint mpf_engine_msg_process c (request : list mpf_message_t)
    : res (mpf_context_t * list (mpf_message_t * bool)) :=
  match request with
  | [] => Ok (c, [])
  | m :: request =>
      '(c, r) ← mpf_request_process c m;
      '(c, response) ← mpf_engine_msg_process c request;
      Ok (c, r :: response)
  end.

End Context.
