(* ===== verification/MpfObjects.v ===== *)
(** * MpfObjects: one tick of bridges, multipliers and mixers ([mpf_bridge.c],
    [mpf_multiplier.c], [mpf_mixer.c], [mpf_context_process] of [mpf_context.c]).

    The streams are an interface: a source fills a frame, a sink takes one.  In a
    tick an object reads its sources and writes its sinks, once each; a mixer adds up
    the samples of its sources at the width of a sample. *)
From S2P Require Import Prelude RecordUpdate MpfContext.

Notation MEDIA_FRAME_TYPE_NONE := 0%Z (only parsing).
Notation MEDIA_FRAME_TYPE_AUDIO := 1%Z (only parsing).
Notation MPF_MARKER_NONE := 0%Z (only parsing).

(** A frame of linear samples of 16 bits; the size is in bytes.  The event of a
    frame is not looked at here. *)
Record mpf_frame_t := mk_frame {
  fr_type : Z;
  fr_marker : Z;
  fr_buffer : list Z;
  fr_size : nat
}.

#[export] Instance eta_frame : Settable mpf_frame_t :=
  settable! mk_frame < fr_type; fr_marker; fr_buffer; fr_size >.

(** The value of a 16-bit signed sample. *)
Definition s16 (z : Z) : Z := wrap_s 16 z.

Definition is_audio (f : mpf_frame_t) : bool := bool_decide (Z.land (fr_type f) MEDIA_FRAME_TYPE_AUDIO = MEDIA_FRAME_TYPE_AUDIO).

(** The samples from [i] on; a sample outside a buffer is not there. *)
Fixpoint mix_loop (n i : nat) (mix buf : list Z) : res (list Z) :=
  match n with
  | O => Ok mix
  | S n =>
      a ← deref (mix !! i);
      b ← deref (buf !! i);
      mix_loop n (S i) (<[i := s16 (a + b)]> mix) buf
  end.

Definition mpf_frames_mix (mix_frame frame : mpf_frame_t) : res mpf_frame_t :=
  let samples := fr_size frame / 2 in
  if decide (fr_size mix_frame ≠ fr_size frame) then Ok mix_frame
  else if is_audio frame then
    buffer ← mix_loop samples 0 (fr_buffer mix_frame) (fr_buffer frame);
    Ok (mix_frame <| fr_buffer := buffer |> <| fr_type := Z.lor (fr_type mix_frame) MEDIA_FRAME_TYPE_AUDIO |>)
  else Ok mix_frame.

(** [memset] of the frame: its samples are zero. *)
Definition silence (f : mpf_frame_t) : res mpf_frame_t :=
  let samples := fr_size f / 2 in
  if decide (samples ≤ length (fr_buffer f))
  then Ok (f <| fr_buffer := replicate samples 0%Z ++ drop samples (fr_buffer f) |>)
  else Fault.
Definition frame_reset (f : mpf_frame_t) : mpf_frame_t := f <| fr_type := MEDIA_FRAME_TYPE_NONE |> <| fr_marker := MPF_MARKER_NONE |>.

(** The frame is audio or silence. *)
Definition audible (f : mpf_frame_t) : res mpf_frame_t := if is_audio f then Ok f else silence f.

(** The streams, in the state [W], by the places of their terminations. *)
Class AudioStreams (W : Type) := {
  read_frame : nat → mpf_frame_t → W → mpf_frame_t * W;
  write_frame : nat → mpf_frame_t → W → W
}.

#[export] Hint Mode AudioStreams ! : typeclass_instances.

(** A stream fills the buffer it is given. *)
Class FillingStreams (W : Type) `{AudioStreams W} : Prop := {
  read_size i f (w : W) : fr_size (read_frame i f w).1 = fr_size f;
  read_length i f (w : W) : length (fr_buffer (read_frame i f w).1) = length (fr_buffer f)
}.

Section Objects.
  Context {W : Type} `{AudioStreams W}.
  Implicit Types (f m : mpf_frame_t) (w : W).

Definition mpf_bridge_process (source sink : nat) (frame : mpf_frame_t) (w : W) : res (mpf_frame_t * W) :=
  let '(frame, w) := read_frame source (frame_reset frame) w in
  frame ← audible frame;
  Ok (frame, write_frame sink frame w).

Definition mpf_multiplier_process (source : nat) (sink_arr : list nat) (frame : mpf_frame_t) (w : W) : res (mpf_frame_t * W) :=
  let '(frame, w) := read_frame source (frame_reset frame) w in
  frame ← audible frame;
  Ok (frame, foldl (λ w sink, write_frame sink frame w) w sink_arr).

(** The sources of a mixer, read one after the other into the same frame. *)
Fixpoint mix_sources (source_arr : list nat) (frame mix_frame : mpf_frame_t) (w : W)
    : res (mpf_frame_t * mpf_frame_t * W) :=
  match source_arr with
  | [] => Ok (frame, mix_frame, w)
  | source :: source_arr =>
      let '(frame, w) := read_frame source (frame_reset frame) w in
      mix_frame ← mpf_frames_mix mix_frame frame;
      mix_sources source_arr frame mix_frame w
  end.

Definition mpf_mixer_process (source_arr : list nat) (sink : nat) (frame mix_frame : mpf_frame_t) (w : W)
    : res (mpf_frame_t * mpf_frame_t * W) :=
  mix_frame ← silence (frame_reset mix_frame);
  '(frame, mix_frame, w) ← mix_sources source_arr frame mix_frame w;
  Ok (frame, mix_frame, write_frame sink mix_frame w).

(** An object with its frames; a bridge and a multiplier have one. *)
Definition object_t : Type := mpf_object_t * (mpf_frame_t * mpf_frame_t).

Definition mpf_object_process (x : object_t) (w : W) : res (object_t * W) :=
  let '(o, (frame, mix_frame)) := x in
  match o with
  | Bridge source sink =>
      '(frame, w) ← mpf_bridge_process source sink frame w; Ok ((o, (frame, mix_frame)), w)
  | Multiplier source sink_arr =>
      '(frame, w) ← mpf_multiplier_process source sink_arr frame w; Ok ((o, (frame, mix_frame)), w)
  | Mixer source_arr sink =>
      '(frame, mix_frame, w) ← mpf_mixer_process source_arr sink frame mix_frame w;
      Ok ((o, (frame, mix_frame)), w)
  end.

Fixpoint mpf_context_process (objects : list object_t) (w : W) : res (list object_t * W) :=
  match objects with
  | [] => Ok ([], w)
  | x :: objects =>
      '(x, w) ← mpf_object_process x w;
      '(objects, w) ← mpf_context_process objects w;
      Ok (x :: objects, w)
  end.

(** ** What a mixer gives *)

(** The frames that the sources give, one after the other. *)
Fixpoint frames_read (source_arr : list nat) (frame : mpf_frame_t) (w : W) : list mpf_frame_t * W :=
  match source_arr with
  | [] => ([], w)
  | source :: source_arr =>
      let '(f, w) := read_frame source (frame_reset frame) w in
      let '(fs, w) := frames_read source_arr f w in
      (f :: fs, w)
  end.

(** The frames that are mixed: audio, of the size of the mixer. *)
Definition mixable (size : nat) (f : mpf_frame_t) : bool := is_audio f && bool_decide (fr_size f = size).
(** The sum of the [k]-th samples of the frames. *)
Definition sample_sum (size : nat) (fs : list mpf_frame_t) (k : nat) : Z :=
  foldr (λ f z, ((if mixable size f then default 0 (fr_buffer f !! k) else 0) + z)%Z) 0%Z fs.
Definition samples_ok (size : nat) (f : mpf_frame_t) : Prop := fr_size f = size → size / 2 ≤ length (fr_buffer f).

Lemma s16_add a b : s16 (s16 a + b) = s16 (a + b).
Proof.
  unfold s16, wrap_s. change (16 - 1)%Z with 15%Z. f_equal. replace ((a + 2 ^ 15) mod 2 ^ 16 - 2 ^ 15 + b + 2 ^ 15)%Z with ((a + 2 ^ 15) mod 2 ^ 16 + b)%Z by lia.
  rewrite Zplus_mod_idemp_l. f_equal. lia.
Qed.
Lemma s16_id z : (- 2 ^ 15 ≤ z < 2 ^ 15)%Z → s16 z = z.
Proof. intros Hz. unfold s16, wrap_s. change (16 - 1)%Z with 15%Z. rewrite Z.mod_small; lia. Qed.

Lemma mix_loop_spec n i mix buf :
  i + n ≤ length mix → i + n ≤ length buf →
  ∃ l, mix_loop n i mix buf = Ok l ∧ length l = length mix ∧
    ∀ k, l !! k = if decide (i ≤ k < i + n) then s16 ∘ (λ a, (a + default 0 (buf !! k))%Z) <$> mix !! k else mix !! k.
Proof.
  revert i mix. induction n as [|n IH]; intros i mix Hm Hb; simpl.
  { exists mix. split_and!; try done. intros k. by rewrite decide_False by lia. }
  destruct (lookup_lt_is_Some_2 mix i) as [a Ha]; [lia|]. destruct (lookup_lt_is_Some_2 buf i) as [b Hb']; [lia|].
  rewrite Ha, Hb'. simpl. destruct (IH (S i) (<[i := s16 (a + b)]> mix)) as (l & -> & Hl & Hk); [rewrite ?length_insert; lia..|].
  exists l. split; [done|]. split; [by rewrite Hl, length_insert|]. intros k. rewrite Hk.
  destruct (decide (k = i)) as [->|Hne].
  - rewrite decide_False, decide_True by lia. rewrite list_lookup_insert_eq by lia. rewrite Ha, Hb'. done.
  - rewrite list_lookup_insert_ne by done. repeat case_decide; done || lia.
Qed.

(** The mixed frame has [z k] as its [k]-th sample. *)
Definition holds (f : mpf_frame_t) (z : nat → Z) : Prop :=
  ∀ k, k < fr_size f / 2 → fr_buffer f !! k = Some (s16 (z k)).

Lemma frames_mix_spec m f z :
  holds m z → samples_ok (fr_size m) m → samples_ok (fr_size m) f →
  ∃ m', mpf_frames_mix m f = Ok m' ∧ fr_size m' = fr_size m ∧ length (fr_buffer m') = length (fr_buffer m) ∧
    is_audio m' = is_audio m || mixable (fr_size m) f ∧
    holds m' (λ k, (z k + (if mixable (fr_size m) f then default 0 (fr_buffer f !! k) else 0))%Z).
Proof.
  intros Hz Hm Hf. unfold mpf_frames_mix, mixable. case_decide as Hs; [|destruct (is_audio f) eqn:Ea].
  - exists m. rewrite bool_decide_false, andb_false_r, orb_false_r by done. split_and!; try done.
    intros k Hk. rewrite Z.add_0_r. by apply Hz.
  - assert (Es : fr_size f = fr_size m) by (destruct (decide (fr_size f = fr_size m)); congruence).
    rewrite Es, bool_decide_true by done. specialize (Hm eq_refl). specialize (Hf Es).
    destruct (mix_loop_spec (fr_size m / 2) 0 (fr_buffer m) (fr_buffer f)) as (l & -> & Hl & Hk); [lia..|]. simpl.
    eexists. split; [done|]. split_and!; try done.
    + simpl. unfold is_audio. rewrite orb_true_r. apply bool_decide_eq_true. simpl. apply Z.bits_inj'. intros n Hn.
      rewrite Z.land_spec, Z.lor_spec. destruct (Z.testbit 1 n); [by rewrite orb_true_r|by rewrite andb_false_r].
    + intros k Hlt. simpl in *. rewrite Hk, decide_True by lia. rewrite (Hz k Hlt). simpl. by rewrite s16_add.
  - exists m. simpl. rewrite orb_false_r. split_and!; try done. intros k Hk. rewrite Z.add_0_r. by apply Hz.
Qed.

Lemma mix_sources_spec srcs f m w z :
  holds m z → samples_ok (fr_size m) m → Forall (samples_ok (fr_size m)) (frames_read srcs f w).1 →
  ∃ f' m', mix_sources srcs f m w = Ok (f', m', (frames_read srcs f w).2) ∧ fr_size m' = fr_size m ∧
    is_audio m' = is_audio m || existsb (mixable (fr_size m)) (frames_read srcs f w).1 ∧
    holds m' (λ k, (z k + sample_sum (fr_size m) (frames_read srcs f w).1 k)%Z).
Proof.
  revert f m w z. induction srcs as [|a srcs IH]; intros f m w z Hz Hm Hf; simpl in *.
  { exists f, m. rewrite orb_false_r. split_and!; try done. intros k Hk. rewrite Z.add_0_r. by apply Hz. }
  destruct (read_frame a (frame_reset f) w) as [f1 w1]. specialize (IH f1).
  destruct (frames_read srcs f1 w1) as [fs w2] eqn:E. simpl in *. inversion Hf as [|?? Hf1 Hfs]; subst.
  destruct (frames_mix_spec m f1 z Hz Hm Hf1) as (m1 & -> & Hs1 & Hl1 & Ha1 & Hz1). simpl. rewrite <- Hs1 in *.
  destruct (IH m1 w1 _ Hz1) as (f' & m' & Hms & Hs' & Ha' & Hz'); [intros _; rewrite Hl1; by apply Hm|by rewrite E|].
  rewrite E in *. simpl in *. exists f', m'. split_and!; try done.
  - by rewrite Ha', Ha1, orb_assoc.
  - intros k Hk. rewrite (Hz' k Hk). do 2 f_equal. lia.
Qed.

(** C36: A mixer writes the sum of its sources.  Each source is read once, in order,
    and one frame is written: a sample of it is the sum of the samples of the audio
    frames of the mixer's size, at 16 bits, so exact when the sum is in their range;
    the frame is audio if one of these is. *)
Theorem mixer_sums_sources srcs sink f m w :
  let fs := (frames_read srcs f w).1 in
  samples_ok (fr_size m) m → Forall (samples_ok (fr_size m)) fs →
  ∃ f' m', mpf_mixer_process srcs sink f m w = Ok (f', m', write_frame sink m' (frames_read srcs f w).2) ∧
    is_audio m' = existsb (mixable (fr_size m)) fs ∧
    ∀ k, k < fr_size m / 2 →
      fr_buffer m' !! k = Some (s16 (sample_sum (fr_size m) fs k)) ∧
      ((- 2 ^ 15 ≤ sample_sum (fr_size m) fs k < 2 ^ 15)%Z → fr_buffer m' !! k = Some (sample_sum (fr_size m) fs k)).
Proof.
  intros fs Hm Hfs. unfold mpf_mixer_process, silence. change (fr_size (frame_reset m)) with (fr_size m).
  change (fr_buffer (frame_reset m)) with (fr_buffer m). specialize (Hm eq_refl). rewrite decide_True by done.
  set (b := replicate (fr_size m / 2) 0%Z ++ drop (fr_size m / 2) (fr_buffer m)).
  set (m0 := frame_reset m <| fr_buffer := b |>).
  assert (H0 : holds m0 (λ _, 0%Z)).
  { intros k Hk. change (k < fr_size m / 2) in Hk. change (b !! k = Some (s16 0)). unfold b.
    rewrite lookup_app_l by (by rewrite length_replicate). by rewrite lookup_replicate_2. }
  destruct (mix_sources_spec srcs f m0 w _ H0) as (f' & m' & Hms & Hs & Ha & Hz).
  { intros _. change (fr_size m / 2 ≤ length b). unfold b.
    rewrite length_app, length_replicate. lia. }
  { exact Hfs. }
  exists f', m'. cbn [mbind res_bind]. rewrite Hms. simpl. split_and!; [done|by rewrite Ha|].
  intros k Hk. specialize (Hz k). rewrite Hs in Hz. specialize (Hz Hk). simpl in Hz. split; [done|].
  intros Hr. rewrite Hz. f_equal. by apply s16_id.
Qed.

(** ** What a tick reads and writes *)

Definition sources (o : mpf_object_t) : list nat :=
  match o with Bridge i _ | Multiplier i _ => [i] | Mixer l _ => l end.
Definition sinks (o : mpf_object_t) : list nat :=
  match o with Bridge _ j | Mixer _ j => [j] | Multiplier _ l => l end.

(** The frames of an object have room for their samples. *)
Definition fits f : Prop := fr_size f / 2 ≤ length (fr_buffer f).
Definition object_fits (x : object_t) : Prop := fits x.2.1 ∧ fits x.2.2 ∧ fr_size x.2.1 = fr_size x.2.2.

End Objects.

(** Streams that note what is done with them. *)
Inductive stream_io := Read (i : nat) | Write (j : nat).

#[export] Instance logged W `{AudioStreams W} : AudioStreams (W * list stream_io) := {
  read_frame i f w := let '(f, v) := read_frame i f w.1 in (f, (v, w.2 ++ [Read i]));
  write_frame j f w := (write_frame j f w.1, w.2 ++ [Write j])
}.

(** What a tick of an object does to the streams, in order. *)
Definition object_io (o : mpf_object_t) : list stream_io := (Read <$> sources o) ++ (Write <$> sinks o).

Section Tick.
  Context {W : Type} `{FillingStreams W}.
  Implicit Types (f m : mpf_frame_t) (w : W) (l : list stream_io).

Lemma read_logged i f w l :
  ∃ f' w', read_frame i (frame_reset f) (w, l) = (f', (w', l ++ [Read i])) ∧ fr_size f' = fr_size f ∧ length (fr_buffer f') = length (fr_buffer f).
Proof.
  pose proof (read_size i (frame_reset f) w) as Hs. pose proof (read_length i (frame_reset f) w) as Hl. simpl.
  destruct (read_frame i (frame_reset f) w) as [f' w']. by exists f', w'.
Qed.

Lemma silence_fits f : fits f → ∃ f', silence f = Ok f' ∧ fr_size f' = fr_size f ∧ length (fr_buffer f') = length (fr_buffer f).
Proof.
  intros Hf. unfold silence. rewrite decide_True by done. eexists. split; [done|]. split; [done|].
  set (n := fr_size f / 2). change (length (replicate n 0%Z ++ drop n (fr_buffer f)) = length (fr_buffer f)).
  unfold fits in Hf. rewrite length_app, length_replicate, length_drop. lia.
Qed.

Lemma audible_fits f : fits f → ∃ f', audible f = Ok f' ∧ fr_size f' = fr_size f ∧ length (fr_buffer f') = length (fr_buffer f).
Proof. unfold audible. destruct (is_audio f); [by exists f|apply silence_fits]. Qed.

Lemma frames_mix_fits m f :
  fits m → fits f → ∃ m', mpf_frames_mix m f = Ok m' ∧ fr_size m' = fr_size m ∧ length (fr_buffer m') = length (fr_buffer m).
Proof.
  unfold fits. intros Hm Hf. unfold mpf_frames_mix. case_decide as E; [by exists m|]. destruct (is_audio f); [|by exists m].
  assert (Es : fr_size f = fr_size m) by lia. rewrite Es in *.
  destruct (mix_loop_spec (fr_size m / 2) 0 (fr_buffer m) (fr_buffer f)) as (b & -> & Hb & _); [lia..|]. by eexists.
Qed.

Lemma mix_sources_io srcs f m w l :
  fits f → fits m →
  ∃ f' m' w', mix_sources srcs f m (w, l) = Ok (f', m', (w', l ++ (Read <$> srcs))) ∧
    fr_size f' = fr_size f ∧ length (fr_buffer f') = length (fr_buffer f) ∧
    fr_size m' = fr_size m ∧ length (fr_buffer m') = length (fr_buffer m).
Proof.
  revert f m w l. induction srcs as [|i srcs IH]; intros f m w l Hf Hm; cbn [mix_sources].
  { exists f, m, w. simpl. by rewrite app_nil_r. }
  destruct (read_logged i f w l) as (f1 & w1 & -> & Hs1 & Hl1).
  assert (Hf1 : fits f1). { unfold fits. by rewrite Hs1, Hl1. }
  destruct (frames_mix_fits m f1 Hm Hf1) as (m1 & -> & Hsm & Hlm). cbn [mbind res_bind].
  destruct (IH f1 m1 w1 (l ++ [Read i]) Hf1) as (f' & m' & w' & -> & ? & ? & ? & ?); [by unfold fits; rewrite Hsm, Hlm|].
  exists f', m', w'. rewrite <- (assoc_L (++)). split_and!; try congruence; done.
Qed.

Lemma writes_io f js w l :
  ∃ w', foldl (λ (v : W * list stream_io) j, write_frame j f v) (w, l) js = (w', l ++ (Write <$> js)).
Proof.
  revert w l. induction js as [|j js IH]; intros w l; cbn [foldl]; [exists w; by rewrite app_nil_r|].
  destruct (IH (write_frame j f w) (l ++ [Write j])) as [w' Hw]. exists w'. etrans; [exact Hw|].
  by rewrite <- (assoc_L (++)).
Qed.

Lemma object_process_io (x : object_t) w l :
  object_fits x →
  ∃ x' w', mpf_object_process x (w, l) = Ok (x', (w', l ++ object_io x.1)) ∧ x'.1 = x.1 ∧ object_fits x'.
Proof.
  destruct x as [o [f m]]. intros (Hf & Hm & Hs). unfold object_fits, fits in *. simpl in Hf, Hm, Hs.
  assert (Hread : ∀ i, ∃ f1 f2 w1, read_frame i (frame_reset f) (w, l) = (f1, (w1, l ++ [Read i])) ∧ audible f1 = Ok f2 ∧
    fr_size f2 = fr_size f ∧ length (fr_buffer f2) = length (fr_buffer f)).
  { intros i. destruct (read_logged i f w l) as (f1 & w1 & -> & Hs1 & Hl1).
    destruct (audible_fits f1) as (f2 & Hf2 & Hs2 & Hl2); [unfold fits; by rewrite Hs1, Hl1|].
    exists f1, f2, w1. split_and!; try done; congruence. }
  destruct o as [i j|i js|srcs j]; cbn [mpf_object_process].
  - destruct (Hread i) as (f1 & f2 & w1 & Hr & Ha & Hs2 & Hl2). unfold mpf_bridge_process. rewrite Hr, Ha.
    cbn [mbind res_bind]. eexists (_, (f2, m)), (write_frame j f2 w1). split; [|split; [done|]].
    + unfold object_io. simpl. by rewrite <- (assoc_L (++)).
    + simpl. by rewrite Hs2, Hl2.
  - destruct (Hread i) as (f1 & f2 & w1 & Hr & Ha & Hs2 & Hl2). unfold mpf_multiplier_process. rewrite Hr, Ha.
    cbn [mbind res_bind]. destruct (writes_io f2 js w1 (l ++ [Read i])) as [w2 ->].
    eexists (_, (f2, m)), w2. split; [|split; [done|]].
    + unfold object_io. by rewrite <- (assoc_L (++)).
    + simpl. by rewrite Hs2, Hl2.
  - unfold mpf_mixer_process. destruct (silence_fits (frame_reset m)) as (m0 & -> & Hs0 & Hl0); [done|]. cbn [mbind res_bind].
    destruct (mix_sources_io srcs f m0 w l) as (f' & m' & w' & -> & Hsf & Hlf & Hsm & Hlm); [done|unfold fits; by rewrite Hs0, Hl0|].
    eexists (_, (f', m')), (write_frame j m' w'). split; [|split; [done|]].
    + unfold object_io. by rewrite (assoc_L (++)).
    + simpl. by rewrite Hsf, Hlf, Hsm, Hlm, Hs0, Hl0.
Qed.

(** A tick reads the sources and writes the sinks of each object, once each. *)
Lemma context_process_io (xs : list object_t) w l :
  Forall object_fits xs →
  ∃ xs' w', mpf_context_process xs (w, l) = Ok (xs', (w', l ++ concat (object_io <$> xs.*1))) ∧
    xs'.*1 = xs.*1 ∧ Forall object_fits xs'.
Proof.
  intros Hxs. revert w l. induction Hxs as [|x xs Hx _ IH]; intros w l; cbn [mpf_context_process].
  { exists [], w. simpl. by rewrite app_nil_r. }
  destruct (object_process_io x w l Hx) as (x' & w1 & -> & Ho & Hf). cbn [mbind res_bind].
  destruct (IH w1 (l ++ object_io x.1)) as (xs' & w2 & -> & Ho' & Hf'). cbn [mbind res_bind].
  exists (x' :: xs'), w2. split; [simpl; by rewrite <- (assoc_L (++))|]. split; [simpl; by f_equal|by constructor].
Qed.

End Tick.

(** ** Loud sources *)

(** Every source gives one sample all the time; the sinks keep what is written. *)
Definition written : Type := list (nat * mpf_frame_t).
Definition loud_streams (sample : Z) : AudioStreams written := {|
  read_frame i f w := (f <| fr_type := MEDIA_FRAME_TYPE_AUDIO |> <| fr_buffer := (λ _, sample) <$> fr_buffer f |>, w);
  write_frame j f w := w ++ [(j, f)]
|}.
Lemma loud_filling sample : @FillingStreams written (loud_streams sample).
Proof. split; intros i f w; simpl; [done|]. by rewrite length_fmap. Qed.

Definition sample_frame : mpf_frame_t := mk_frame 0 0 [0; 0]%Z 4.

(** Two sources of 20000: the mixed samples have wrapped around. *)
Lemma mixer_sums_sources_witness :
  let _ := loud_streams 20000 in
  ∃ f' m', mpf_mixer_process [0; 1] 2 sample_frame sample_frame ([] : written) = Ok (f', m', [(2, m')]) ∧
    fr_buffer m' !! 0 = Some (- 25536)%Z.
Proof.
  intros st. destruct (@mixer_sums_sources written st [0; 1] 2 sample_frame sample_frame []) as (f' & m' & Hp & _ & Hk).
  - intros _. vm_compute. lia.
  - repeat constructor; vm_compute; lia.
  - exists f', m'. split; [exact Hp|]. destruct (Hk 0) as [H0 _]; [vm_compute; lia|]. rewrite H0. vm_compute. reflexivity.
Defined.
