(* ===== verification/MpfContextTheory.v ===== *)
(** * MpfContextTheory: the invariant of a media context, and its topology.

    The counters of a place are the numbers of its associations, and associations
    are among places that are taken; every operation keeps this.  Bridges,
    multipliers and mixers carry audio from places to places: each association is
    carried by one object, but for one from a termination that is heard by several
    to one that hears several, which is carried twice. *)
From S2P Require Import Prelude RecordUpdate CodecDescriptor SessionDescriptor ServerSession MpfContext MpfObjects.

(** ** Counting *)

Fixpoint count (p : nat → bool) (n : nat) : nat :=
  match n with O => 0 | S n => count p n + Nat.b2n (p n) end.

Lemma count_ext p q n : (∀ k, k < n → p k = q k) → count p n = count q n.
Proof. induction n as [|n IH]; intros H; simpl; [done|]. rewrite IH, H by (intros; try apply H; lia). done. Qed.

Lemma count_le p n : count p n ≤ n.
Proof. induction n as [|n IH]; simpl; [done|]. destruct (p n); simpl; lia. Qed.

Lemma count_mono p n m : n ≤ m → count p n ≤ count p m.
Proof. induction 1 as [|m _ IH]; simpl; lia. Qed.

Lemma count_update p a b n : a < n → count (update p a b) n + Nat.b2n (p a) = count p n + Nat.b2n b.
Proof.
  induction n as [|n IH]; intros Ha; simpl; [lia|]. unfold update at 2. case_decide as E.
  - subst a. rewrite (count_ext (update p n b) p); [lia|]. intros k Hk. unfold update. case_decide; [lia|done].
  - specialize (IH ltac:(lia)). lia.
Qed.

Lemma count_pos p n a : a < n → p a = true → 0 < count p n.
Proof.
  intros Ha Hp. pose proof (count_mono p (S a) n ltac:(lia)) as Hm. simpl in Hm. rewrite Hp in Hm. simpl in Hm. lia.
Qed.

Lemma count_zero p n a : count p n = 0 → a < n → p a = false.
Proof. intros H Ha. destruct (p a) eqn:E; [|done]. pose proof (count_pos _ _ _ Ha E). lia. Qed.

Lemma count_none p n : (∀ k, k < n → p k = false) → count p n = 0.
Proof. induction n as [|n IH]; intros H; simpl; [done|]. rewrite IH, H by (intros; try apply H; lia). done. Qed.

(** Nothing is left from [i] on when all were counted before. *)
Lemma count_rest p i n a : count p i = count p n → i ≤ a → a < n → p a = false.
Proof.
  intros H Hi Ha. destruct (p a) eqn:E; [|done].
  pose proof (count_mono p i a Hi). pose proof (count_mono p (S a) n ltac:(lia)) as Hm.
  simpl in Hm. rewrite E in Hm. simpl in Hm. lia.
Qed.

(** ** The invariant *)

Definition present {St} (c : mpf_context_t St) (i : nat) : bool := bool_decide (is_Some (hd_termination (header c i))).

Record context_ok {St} (c : mpf_context_t St) : Prop := {
  ok_capacity : capacity c ≤ 255;
  ok_tx : ∀ i, tx_count (header c i) = Z.of_nat (count (matrix c i) (capacity c));
  ok_rx : ∀ j, rx_count (header c j) = Z.of_nat (count (λ i, matrix c i j) (capacity c));
  ok_on : ∀ i j, matrix c i j = true → present c i = true ∧ present c j = true;
  ok_present : ∀ i, present c i = true → i < capacity c;
  ok_count : ctx_count c = count (present c) (capacity c);
  ok_factory : in_factory c = bool_decide (ctx_count c ≠ 0)
}.

(** A termination is at one place, its slot. *)
Definition placed {St} (c : mpf_context_t St) : Prop :=
  ∀ i t, hd_termination (header c i) = Some t → slot (terminations_of c t) = N.of_nat i.

(** The two contexts differ in associations and their counters only. *)
Record same {St} (c c' : mpf_context_t St) : Prop := {
  sm_capacity : capacity c' = capacity c;
  sm_count : ctx_count c' = ctx_count c;
  sm_place : ∀ i, hd_termination (header c' i) = hd_termination (header c i);
  sm_objects : mpf_objects c' = mpf_objects c;
  sm_factory : in_factory c' = in_factory c;
  sm_terms : terminations_of c' = terminations_of c
}.

Section Theory.
  Context {St : Type}.
  Implicit Types (c : mpf_context_t St) (t u : mpf_termination) (i j k n : nat).

Lemma same_refl c : same c c.
Proof. by split. Qed.
Lemma same_trans c1 c2 c3 : same c1 c2 → same c2 c3 → same c1 c3.
Proof. intros [] []. split; try congruence. Qed.
Lemma same_present c c' i : same c c' → present c' i = present c i.
Proof. intros H. unfold present. by rewrite (sm_place _ _ H). Qed.

Lemma u8_small z : (0 ≤ z < 256)%Z → u8 z = z.
Proof. apply Z.mod_small. Qed.

Lemma on_lt c i j : context_ok c → matrix c i j = true → i < capacity c ∧ j < capacity c.
Proof. intros Hc Hm. destruct (ok_on _ Hc _ _ Hm) as [Hi Hj]. split; by apply (ok_present _ Hc). Qed.

Lemma present_some c i : present c i = true ↔ is_Some (hd_termination (header c i)).
Proof. unfold present. apply bool_decide_eq_true. Qed.

(** ** One association *)

(** The matrix with the association of [i] and [j] set to [b]. *)
Definition set_matrix (f : nat → nat → bool) i j (b : bool) : nat → nat → bool := update f i (update (f i) j b).

Lemma set_matrix_at f i j b a x : set_matrix f i j b a x = if decide (a = i ∧ x = j) then b else f a x.
Proof.
  unfold set_matrix, update. destruct (decide (a = i)) as [->|Ha].
  - destruct (decide (x = j)) as [->|Hx]; [by rewrite decide_True|rewrite decide_False; tauto].
  - rewrite decide_False; tauto.
Qed.

Lemma set_matrix_row f i j b a n :
  j < n → (count (set_matrix f i j b a) n + (if decide (a = i) then Nat.b2n (f i j) else 0) =
           count (f a) n + (if decide (a = i) then Nat.b2n b else 0))%nat.
Proof. intros Hj. unfold set_matrix, update at 1. case_decide; [subst; by apply count_update|lia]. Qed.

Lemma set_matrix_col f i j b a n :
  i < n → (count (λ x, set_matrix f i j b x a) n + (if decide (a = j) then Nat.b2n (f i j) else 0) =
           count (λ x, f x a) n + (if decide (a = j) then Nat.b2n b else 0))%nat.
Proof.
  intros Hi. case_decide as E.
  - subst a. rewrite <- (count_update (λ x, f x j) i b n Hi). f_equal. apply count_ext. intros k _.
    rewrite set_matrix_at. unfold update. repeat case_decide; tauto || (subst; tauto).
  - f_equal. apply count_ext. intros k _. rewrite set_matrix_at. case_decide; tauto.
Qed.

(** The association is switched to [b], and [z] is added to its counters. *)
Definition switch c i j (b : bool) (z : Z) : mpf_context_t St := rx_add (tx_add (matrix_put c i j b) i z) j z.

Lemma switch_same c i j b z : same c (switch c i j b z).
Proof. split; try done. intros a. simpl. unfold update. repeat case_decide; subst; simpl; by repeat case_decide. Qed.

Lemma switch_tx c i j b z a : tx_count (header (switch c i j b z) a) =
  if decide (a = i) then u8 (tx_count (header c a) + z) else tx_count (header c a).
Proof. simpl. unfold update. repeat case_decide; subst; simpl; repeat case_decide; congruence. Qed.
Lemma switch_rx c i j b z a : rx_count (header (switch c i j b z) a) =
  if decide (a = j) then u8 (rx_count (header c a) + z) else rx_count (header c a).
Proof. simpl. unfold update. repeat case_decide; subst; simpl; repeat case_decide; congruence. Qed.

Lemma switch_ok c i j b :
  context_ok c → matrix c i j = negb b → present c i = true → present c j = true →
  context_ok (switch c i j b (if b then 1 else -1)%Z).
Proof.
  intros Hc Hm Hi Hj. set (z := (if b then 1 else -1)%Z). pose proof (switch_same c i j b z) as Hs.
  assert (Hn : ∀ p, count p (capacity c) ≤ 255).
  { intros p. etrans; [apply count_le|apply (ok_capacity _ Hc)]. }
  assert (Hpi := ok_present _ Hc _ Hi). assert (Hpj := ok_present _ Hc _ Hj).
  split.
  - apply (ok_capacity _ Hc).
  - intros a. rewrite switch_tx, (ok_tx _ Hc). change (matrix (switch c i j b z)) with (set_matrix (matrix c) i j b).
    change (capacity (switch c i j b z)) with (capacity c).
    pose proof (set_matrix_row (matrix c) i j b a _ Hpj) as Hr. rewrite Hm in Hr.
    pose proof (Hn (set_matrix (matrix c) i j b a)). case_decide; [|lia].
    subst z. rewrite u8_small; destruct b; simpl in *; lia.
  - intros a. rewrite switch_rx, (ok_rx _ Hc). change (matrix (switch c i j b z)) with (set_matrix (matrix c) i j b).
    change (capacity (switch c i j b z)) with (capacity c).
    pose proof (set_matrix_col (matrix c) i j b a _ Hpi) as Hr. rewrite Hm in Hr.
    pose proof (Hn (λ x, set_matrix (matrix c) i j b x a)). case_decide; [|lia].
    subst z. rewrite u8_small; destruct b; simpl in *; lia.
  - intros x y. rewrite !(same_present _ _ _ Hs). simpl. unfold update. repeat case_decide; subst; try done; apply (ok_on _ Hc).
  - intros a. rewrite (same_present _ _ _ Hs). apply (ok_present _ Hc).
  - change (ctx_count (switch c i j b z)) with (ctx_count c). rewrite (ok_count _ Hc). apply count_ext. intros k _.
    symmetry. by apply same_present.
  - apply (ok_factory _ Hc).
Qed.

(** What [item_off] and [item_on] do. *)
Lemma item_off_spec c i j :
  context_ok c → context_ok (item_off c i j) ∧ same c (item_off c i j) ∧
  ∀ a b, matrix (item_off c i j) a b = matrix c a b && negb (bool_decide (a = i ∧ b = j)).
Proof.
  intros Hc. unfold item_off. destruct (matrix c i j) eqn:Hm.
  - destruct (ok_on _ Hc _ _ Hm) as [Hi Hj]. split_and!.
    + by apply (switch_ok c i j false).
    + apply (switch_same c i j false).
    + intros a b. etrans; [apply set_matrix_at|]. case_decide; case_bool_decide; try tauto;
        by rewrite ?andb_true_r, ?andb_false_r.
  - split_and!; [done|apply same_refl|]. intros a b. case_bool_decide as E; [destruct E; subst; by rewrite Hm|].
    by rewrite andb_true_r.
Qed.

Lemma item_on_spec c i j :
  context_ok c → matrix c i j = false → present c i = true → present c j = true →
  context_ok (item_on c i j) ∧ same c (item_on c i j) ∧
  ∀ a b, matrix (item_on c i j) a b = matrix c a b || bool_decide (a = i ∧ b = j).
Proof.
  intros Hc Hm Hi Hj. split_and!; [by apply (switch_ok c i j true)|apply (switch_same c i j true)|].
  intros a b. etrans; [apply set_matrix_at|]. case_decide; case_bool_decide; try tauto; by rewrite ?orb_true_r, ?orb_false_r.
Qed.

(** The associations of [i] with [j], both ways. *)
Lemma pair_off_spec c i j :
  context_ok c → let c' := item_off (item_off c i j) j i in
  context_ok c' ∧ same c c' ∧
  ∀ a b, matrix c' a b = matrix c a b && negb (bool_decide ((a = i ∧ b = j) ∨ (a = j ∧ b = i))).
Proof.
  intros Hc c'. destruct (item_off_spec c i j Hc) as (H1 & S1 & M1).
  destruct (item_off_spec _ j i H1) as (H2 & S2 & M2). split_and!; [done|by eapply same_trans|].
  intros a b. unfold c'. rewrite M2, M1, <- andb_assoc. f_equal. repeat case_bool_decide; tauto.
Qed.

(** ** The loops over the places *)

(** The associations of [c] that are not in [P] are those of [c']. *)
Definition without (P : nat → nat → Prop) c c' : Prop :=
  context_ok c' ∧ same c c' ∧ ∀ a b, matrix c' a b = true ↔ matrix c a b = true ∧ ¬ P a b.

Lemma without_refl (P : nat → nat → Prop) c :
  context_ok c → (∀ a b, matrix c a b = true → ¬ P a b) → without P c c.
Proof. intros Hc HP. split_and!; [done|apply same_refl|]. intros a b. specialize (HP a b). tauto. Qed.

Lemma without_trans (P P1 P2 : nat → nat → Prop) c c1 c2 :
  without P1 c c1 → without P2 c1 c2 → (∀ a b, matrix c a b = true → P a b ↔ P1 a b ∨ P2 a b) → without P c c2.
Proof.
  intros (H1 & S1 & M1) (H2 & S2 & M2) HP. split_and!; [done|by eapply same_trans|].
  intros a b. rewrite M2, M1. specialize (HP a b). tauto.
Qed.

Lemma without_ext (P Q : nat → nat → Prop) c c' :
  without P c c' → (∀ a b, matrix c a b = true → P a b ↔ Q a b) → without Q c c'.
Proof. intros (H1 & S1 & M1) HP. split_and!; [done..|]. intros a b. rewrite M1. specialize (HP a b). tauto. Qed.

Lemma pair_off_without c i j :
  context_ok c → without (λ a b, (a = i ∧ b = j) ∨ (a = j ∧ b = i)) c (item_off (item_off c i j) j i).
Proof.
  intros Hc. destruct (pair_off_spec c i j Hc) as (H1 & S1 & M1). split_and!; [done..|].
  intros a b. rewrite M1, andb_true_iff, negb_true_iff, bool_decide_eq_false. done.
Qed.

Lemma without_count (P : nat → nat → Prop) c c' j : without P c c' → count (present c') j = count (present c) j.
Proof. intros (_ & Hs & _). apply count_ext. intros k _. by apply same_present. Qed.

(** Places from [j] on are free when [k] of [k] terminations were seen. *)
Lemma seen_all c j a :
  context_ok c → ¬ count (present c) j < ctx_count c → j ≤ a → present c a = false.
Proof.
  intros Hc Hk Ha. destruct (present c a) eqn:E; [|done]. pose proof (ok_present _ Hc _ E).
  rewrite <- E. apply (count_rest _ j (capacity c)); try done.
  rewrite (ok_count _ Hc) in Hk. pose proof (count_mono (present c) j (capacity c)). lia.
Qed.

Lemma absent_off c a b : context_ok c → present c a = false ∨ present c b = false → matrix c a b ≠ true.
Proof. intros Hc Ha Hm. destruct (ok_on _ Hc _ _ Hm). destruct Ha; congruence. Qed.

Lemma count_S_present c j :
  count (present c) (S j) = match hd_termination (header c j) with Some _ => S (count (present c) j) | None => count (present c) j end.
Proof. simpl. unfold present at 2. destruct (hd_termination (header c j)); simpl; lia. Qed.

Lemma absent_present c j : hd_termination (header c j) = None → present c j = false.
Proof. intros E. unfold present. rewrite E. done. Qed.

Lemma absent_ne c j a b : context_ok c → hd_termination (header c j) = None → matrix c a b = true → a ≠ j ∧ b ≠ j.
Proof.
  intros Hc E Hm. apply absent_present in E. split; intros ->; refine (absent_off c _ _ Hc _ Hm); auto.
Qed.

Lemma seen_ne c j a b :
  context_ok c → ¬ count (present c) j < ctx_count c → matrix c a b = true → a < j ∧ b < j.
Proof.
  intros Hc Hk Hm. destruct (ok_on _ Hc _ _ Hm) as [Ha Hb].
  split; apply Nat.nle_gt; intros Hj; eapply seen_all in Hj; try done; congruence.
Qed.

Lemma subtract_loop_spec i n j c :
  context_ok c → j + n = capacity c →
  without (λ a b, (a = i ∧ j ≤ b) ∨ (b = i ∧ j ≤ a)) c (subtract_loop i n j (count (present c) j) c).
Proof.
  revert j c. induction n as [|n IH]; intros j c Hc Hn; simpl.
  { apply without_refl; [done|]. intros a b Hm. pose proof (on_lt _ _ _ Hc Hm). lia. }
  case_decide as Hk.
  - pose proof (count_S_present c j) as HS. destruct (hd_termination (header c j)) eqn:E.
    + pose proof (pair_off_without c i j Hc) as Hw. rewrite <- HS, <- (without_count _ _ _ _ Hw).
      eapply without_trans; [exact Hw|apply IH|]; [apply Hw|rewrite (sm_capacity _ _ (proj1 (proj2 Hw))); lia|].
      simpl. intros a b Hm. lia.
    + rewrite <- HS. eapply without_ext; [apply IH; [done|lia]|]. simpl. intros a b Hm.
      pose proof (absent_ne _ _ _ _ Hc E Hm). lia.
  - apply without_refl; [done|]. intros a b Hm. pose proof (seen_ne _ _ _ _ Hc Hk Hm). lia.
Qed.

Lemma reset_row_spec i n j c :
  context_ok c → j + n = capacity c →
  without (λ a b, (a = i ∧ j ≤ b) ∨ (b = i ∧ j ≤ a)) c (reset_row i n j c).
Proof.
  revert j c. induction n as [|n IH]; intros j c Hc Hn; simpl.
  { apply without_refl; [done|]. intros a b Hm. pose proof (on_lt _ _ _ Hc Hm). lia. }
  destruct (hd_termination (header c j)) eqn:E.
  - pose proof (pair_off_without c i j Hc) as Hw.
    eapply without_trans; [exact Hw|apply IH|]; [apply Hw|rewrite (sm_capacity _ _ (proj1 (proj2 Hw))); lia|].
    simpl. intros a b Hm. lia.
  - eapply without_ext; [apply IH; [done|lia]|]. simpl. intros a b Hm.
    pose proof (absent_ne _ _ _ _ Hc E Hm). lia.
Qed.

(** A place without associations. *)
Lemma counters_zero c i a b :
  context_ok c → (tx_count (header c i) = 0 ∧ rx_count (header c i) = 0)%Z → matrix c a b = true → a ≠ i ∧ b ≠ i.
Proof.
  intros Hc [Htx Hrx] Hm. rewrite (ok_tx _ Hc) in Htx. rewrite (ok_rx _ Hc) in Hrx.
  destruct (on_lt _ _ _ Hc Hm) as [Ha Hb]. split; intros ->.
  - rewrite (count_zero (matrix c i) (capacity c) b) in Hm; [done|lia|done].
  - rewrite (count_zero (λ x, matrix c x i) (capacity c) a) in Hm; [done|lia|done].
Qed.

Lemma reset_loop_spec n i c :
  context_ok c → i + n = capacity c →
  without (λ a b, i ≤ a ∧ i ≤ b) c (reset_loop n i (count (present c) i) c).
Proof.
  revert i c. induction n as [|n IH]; intros i c Hc Hn; simpl.
  { apply without_refl; [done|]. intros a b Hm. pose proof (on_lt _ _ _ Hc Hm). lia. }
  case_decide as Hk.
  - pose proof (count_S_present c i) as HS. destruct (hd_termination (header c i)) eqn:E.
    + case_decide as Hz.
      * rewrite <- HS. eapply without_ext; [apply IH; [done|lia]|]. simpl. intros a b Hm.
        pose proof (counters_zero _ _ _ _ Hc Hz Hm). lia.
      * pose proof (reset_row_spec i (capacity c - i) i c Hc ltac:(lia)) as Hw.
        rewrite <- HS, <- (without_count _ _ _ _ Hw).
        eapply without_trans; [exact Hw|apply IH|]; [apply Hw|rewrite (sm_capacity _ _ (proj1 (proj2 Hw))); lia|].
        simpl. intros a b Hm. lia.
    + rewrite <- HS. eapply without_ext; [apply IH; [done|lia]|]. simpl. intros a b Hm.
      pose proof (absent_ne _ _ _ _ Hc E Hm). lia.
  - apply without_refl; [done|]. intros a b Hm. pose proof (seen_ne _ _ _ _ Hc Hk Hm). lia.
Qed.

(** ** Places *)

(** The place [i], which has no associations, is taken or left. *)
Lemma place_ok c c' i o :
  context_ok c → i < capacity c → (∀ a b, matrix c a b = true → a ≠ i ∧ b ≠ i) →
  capacity c' = capacity c → matrix c' = matrix c →
  (∀ a, header c' a = if decide (a = i) then mk_header_item o 0 0 else header c a) →
  ctx_count c' + Nat.b2n (present c i) = ctx_count c + Nat.b2n (bool_decide (is_Some o)) →
  in_factory c' = bool_decide (ctx_count c' ≠ 0) → context_ok c'.
Proof.
  intros Hc Hi Hfree Hcap Hmat Hh Hcount Hf.
  assert (Hp : ∀ a, present c' a = update (present c) i (bool_decide (is_Some o)) a).
  { intros a. unfold present, update. rewrite Hh. by destruct (decide (a = i)). }
  split; rewrite ?Hcap, ?Hmat; try done.
  - apply (ok_capacity _ Hc).
  - intros a. rewrite Hh. destruct (decide (a = i)) as [->|]; [|apply (ok_tx _ Hc)]. simpl. rewrite count_none; [done|].
    intros k _. destruct (matrix c i k) eqn:Em; [|done]. by destruct (Hfree _ _ Em).
  - intros a. rewrite Hh. destruct (decide (a = i)) as [->|]; [|apply (ok_rx _ Hc)]. simpl. rewrite count_none; [done|].
    intros k _. destruct (matrix c k i) eqn:Em; [|done]. by destruct (Hfree _ _ Em).
  - intros a b Hm. destruct (Hfree _ _ Hm). rewrite !Hp. unfold update. rewrite !decide_False by done. by apply (ok_on _ Hc).
  - intros a. rewrite Hp. unfold update. destruct (decide (a = i)) as [->|]; [done|apply (ok_present _ Hc)].
  - rewrite (count_ext _ _ _ (λ k _, Hp k)).
    pose proof (count_update (present c) i (bool_decide (is_Some o)) _ Hi) as Hu. rewrite (ok_count _ Hc) in Hcount. lia.
Qed.

Lemma free_place_some c n i a :
  free_place c n i = Some a → i ≤ a < i + n ∧ hd_termination (header c a) = None.
Proof.
  revert i. induction n as [|n IH]; intros i; simpl; [done|].
  destruct (hd_termination (header c i)) eqn:E; intros H; [|simplify_eq; split; [lia|done]].
  apply IH in H as [? ?]. split; [lia|done].
Qed.
Lemma free_place_none c n i a : free_place c n i = None → i ≤ a < i + n → present c a = true.
Proof.
  revert i. induction n as [|n IH]; intros i; simpl; [lia|].
  destruct (hd_termination (header c i)) eqn:E; [|done]. intros H Ha. destruct (decide (a = i)) as [->|Hne].
  - apply present_some. by rewrite E.
  - apply (IH (S i)); [done|lia].
Qed.

Lemma place_of_some c t i :
  place_of c t = Some i → i < capacity c ∧ hd_termination (header c i) = Some t ∧ slot (terminations_of c t) = N.of_nat i.
Proof. unfold place_of. case_decide; [done|]. case_decide; [|done]. intros; simplify_eq. split_and!; [lia|done|lia]. Qed.

Lemma place_of_placed c t i :
  context_ok c → placed c → hd_termination (header c i) = Some t → place_of c t = Some i.
Proof.
  intros Hc Hp Hh. unfold place_of. rewrite (Hp _ _ Hh). assert (i < capacity c).
  { apply (ok_present _ Hc). apply present_some. by rewrite Hh. }
  rewrite decide_False by lia. rewrite Nnat.Nat2N.id. by rewrite decide_True.
Qed.

(** The context after a termination was put at its place. *)
Lemma termination_add_spec c t :
  context_ok c →
  match mpf_context_termination_add c t with
  | (true, c') => context_ok c' ∧ capacity c' = capacity c ∧ matrix c' = matrix c ∧ ctx_count c < capacity c ∧
      ∃ i, hd_termination (header c i) = None ∧
        (∀ a, hd_termination (header c' a) = if decide (a = i) then Some t else hd_termination (header c a)) ∧
        (∀ u, terminations_of c' u = if decide (u = t) then terminations_of c t <| slot := N.of_nat i |> else terminations_of c u)
  | (false, c') => c' = c ∧ ctx_count c = capacity c
  end.
Proof.
  intros Hc. unfold mpf_context_termination_add. destruct (free_place c (capacity c) 0) as [i|] eqn:E.
  - apply free_place_some in E as [Hi E]. pose proof (absent_present _ _ E) as Hpi.
    set (c1 := if decide (ctx_count c = 0) then c <| in_factory := true |> else c).
    assert (H1 : capacity c1 = capacity c ∧ matrix c1 = matrix c ∧ ctx_count c1 = ctx_count c ∧ header c1 = header c ∧
      terminations_of c1 = terminations_of c ∧ in_factory c1 = true).
    { unfold c1. case_decide as Hz; [done|]. split_and!; try done. rewrite (ok_factory _ Hc). by apply bool_decide_eq_true. }
    clearbody c1. destruct H1 as (Hcap & Hmat & Hcnt & Hhd & Hts & Hfac).
    split_and!; [|done|done| |exists i; split_and!; [done| |]].
    + eapply (place_ok c _ i (Some t)); try done; [lia|..].
      * intros a b Hm. by eapply absent_ne.
      * intros a. simpl. rewrite Hhd. done.
      * simpl. rewrite Hcnt, Hpi. simpl. lia.
    + rewrite (ok_count _ Hc). pose proof (count_update (present c) i true (capacity c) ltac:(lia)) as Hu.
      rewrite Hpi in Hu. pose proof (count_le (update (present c) i true) (capacity c)). simpl in Hu. lia.
    + intros a. simpl. unfold update. rewrite Hhd. by case_decide.
    + intros u. simpl. unfold update. rewrite Hts. by case_decide.
  - split; [done|]. rewrite (ok_count _ Hc).
    assert (H : ∀ n, n ≤ capacity c → count (present c) n = n).
    { induction n as [|n IH]; intros Hn; simpl; [done|]. rewrite IH, (free_place_none _ _ _ _ E) by lia. simpl. lia. }
    by apply H.
Qed.

(** The context after a termination left its place. *)
Lemma termination_subtract_spec c t i :
  context_ok c → place_of c t = Some i →
  ∃ c', mpf_context_termination_subtract c t = (true, c') ∧ context_ok c' ∧ capacity c' = capacity c ∧
    (∀ a b, matrix c' a b = true ↔ matrix c a b = true ∧ a ≠ i ∧ b ≠ i) ∧
    (∀ a, hd_termination (header c' a) = if decide (a = i) then None else hd_termination (header c a)) ∧
    (∀ u, terminations_of c' u = if decide (u = t) then terminations_of c t <| slot := SLOT_NONE |> else terminations_of c u).
Proof.
  intros Hc Hp. unfold mpf_context_termination_subtract. rewrite Hp. apply place_of_some in Hp as (Hi & Hh & _).
  destruct (subtract_loop_spec i (capacity c) 0 c Hc eq_refl) as (H1 & S1 & M1). simpl in *.
  set (c1 := subtract_loop i (capacity c) 0 0 c) in *. clearbody c1.
  assert (Hpi : present c1 i = true). { rewrite (same_present _ _ _ S1). apply present_some. by rewrite Hh. }
  assert (Hne : ∀ a b, matrix c1 a b = true → a ≠ i ∧ b ≠ i).
  { intros a b Hm. apply M1 in Hm as [_ Hm]. lia. }
  assert (Hz : tx_count (header c1 i) = 0%Z ∧ rx_count (header c1 i) = 0%Z).
  { rewrite (ok_tx _ H1), (ok_rx _ H1), !count_none; [done|..]; intros k _;
      [destruct (matrix c1 k i) eqn:Em|destruct (matrix c1 i k) eqn:Em]; try done; by destruct (Hne _ _ Em). }
  assert (Hpos : ctx_count c1 ≠ 0).
  { rewrite (ok_count _ H1). 
    pose proof (count_pos (present c1) (capacity c1) i ltac:(by rewrite (sm_capacity _ _ S1)) Hpi). lia. }
  eexists. split; [done|].
  set (h := header c1 i <| hd_termination := None |>).
  set (c3 := term_put (header_put c1 i h) t _ <| ctx_count := _ |>).
  assert (H3 : ∀ c', (c' = c3 ∧ ctx_count c3 ≠ 0) ∨ (c' = c3 <| in_factory := false |> ∧ ctx_count c3 = 0) →
    context_ok c' ∧ capacity c' = capacity c3 ∧ matrix c' = matrix c3 ∧ header c' = header c3 ∧ terminations_of c' = terminations_of c3).
  { intros c' Hc'. assert (Hx : capacity c' = capacity c3 ∧ matrix c' = matrix c3 ∧ header c' = header c3 ∧
      terminations_of c' = terminations_of c3 ∧ ctx_count c' = ctx_count c3 ∧ in_factory c' = bool_decide (ctx_count c3 ≠ 0)).
    { destruct Hc' as [[-> Hn]|[-> Hn]]; split_and!; try done; simpl.
      - etrans; [apply (ok_factory _ H1)|]. trans true; [|symmetry]; by apply bool_decide_eq_true.
      - symmetry. apply bool_decide_eq_false. tauto. }
    destruct Hx as (X1 & X2 & X3 & X4 & X5 & X6). split_and!; try done.
    eapply (place_ok c1 _ i None); try done.
    - by rewrite (sm_capacity _ _ S1).
    - intros a. rewrite X3. simpl. unfold update, h. destruct (decide (a = i)); [|done]. clear -Hz. destruct (header c1 i). simpl in *. destruct Hz as [-> ->]. done.
    - rewrite X5, Hpi. simpl. lia.
    - by rewrite X6, X5. }
  match goal with |- context_ok ?x ∧ _ => destruct (H3 x) as (Y1 & -> & -> & -> & ->) end.
  { case_decide; [right|left]; done. }
  split_and!; [done|apply (sm_capacity _ _ S1)| | |].
  - intros a b. simpl. rewrite M1. split; intros [? ?]; (split; [done|lia]).
  - intros a. simpl. unfold update. destruct (decide (a = i)); [done|]. apply (sm_place _ _ S1).
  - intros u. simpl. unfold update. rewrite (sm_terms _ _ S1). by destruct (decide (u = t)).
Qed.

End Theory.

(** ** Topology *)

(** How often an object that reads its sources and writes its sinks carries audio
    from [i] to [j]. *)
Definition carries (i j : nat) (x : mpf_object_t) : nat :=
  count_occ Nat.eq_dec (sources x) i * count_occ Nat.eq_dec (sinks x) j.
Definition carriers (l : list mpf_object_t) (i j : nat) : nat := sum_list_with (carries i j) l.

Definition carries_by (i j : nat) (x : mpf_object_t) : nat :=
  match x with
  | Bridge a b => Nat.b2n (bool_decide (a = i ∧ b = j))
  | Multiplier a l => if decide (a = i) then count_occ Nat.eq_dec l j else 0
  | Mixer l b => if decide (b = j) then count_occ Nat.eq_dec l i else 0
  end.

Lemma carriers_one x i j : carriers [x] i j = carries_by i j x.
Proof.
  unfold carriers, carries. cbn [sum_list_with]. rewrite Nat.add_0_r. destruct x as [a b|a l|l b]; simpl.
  - destruct (Nat.eq_dec a i), (Nat.eq_dec b j); case_bool_decide; simpl; tauto || lia.
  - destruct (Nat.eq_dec a i); case_decide; tauto || lia.
  - destruct (Nat.eq_dec b j); case_decide; tauto || lia.
Qed.

Lemma carriers_app l l' i j : carriers (l ++ l') i j = carriers l i j + carriers l' i j.
Proof. apply sum_list_with_app. Qed.

Section Topology.
  Context {St : Type} (creates : mpf_context_t St → mpf_object_t → bool).
  Implicit Types (c : mpf_context_t St) (i j k n : nat).

(** The positions that [p] selects, in order. *)
Fixpoint selected (p : nat → bool) n i : list nat :=
  match n with O => [] | S n => if p i then i :: selected p n (S i) else selected p n (S i) end.

Lemma selected_length p n i : length (selected p n i) + count p i = count p (i + n).
Proof.
  revert i. induction n as [|n IH]; intros i; [by rewrite Nat.add_0_r|].
  replace (i + S n) with (S i + n) by lia. rewrite <- (IH (S i)). simpl. destruct (p i); simpl; lia.
Qed.

Lemma selected_occ p n i a :
  count_occ Nat.eq_dec (selected p n i) a = Nat.b2n (bool_decide (i ≤ a < i + n) && p a).
Proof.
  revert i. induction n as [|n IH]; intros i; simpl.
  { rewrite bool_decide_false by lia. done. }
  assert (Hne : i ≠ a → count_occ Nat.eq_dec (selected p n (S i)) a = Nat.b2n (bool_decide (i ≤ a < i + S n) && p a)).
  { intros Hne. rewrite IH. do 2 f_equal. apply bool_decide_ext. lia. }
  destruct (decide (i = a)) as [->|Hia].
  - rewrite (bool_decide_true (a ≤ _ < _)) by lia. destruct (p a) eqn:E; simpl.
    + destruct (Nat.eq_dec a a); [|done]. rewrite IH, bool_decide_false by lia. done.
    + rewrite IH, bool_decide_false by lia. done.
  - destruct (p i); simpl; [destruct (Nat.eq_dec i a); [done|]|]; by apply Hne.
Qed.

(** All selected places are collected when [k] is their number. *)
Lemma collect_selected c on n j k :
  (∀ a, on a = true → present c a = true) → length (selected on n j) ≤ k → collect c on n j k = selected on n j.
Proof.
  intros Hon. revert j k. induction n as [|n IH]; intros j k Hk; simpl in *; [done|]. destruct (on j) eqn:E.
  - destruct k as [|k]; simpl in Hk; [lia|]. destruct (proj1 (present_some _ _) (Hon _ E)) as [t Ht].
    rewrite Ht. f_equal. apply IH. lia.
  - destruct k as [|k].
    + destruct (selected on n (S j)); [done|simpl in Hk; lia].
    + destruct (hd_termination (header c j)); by apply IH.
Qed.

Lemma multiplier_create c i :
  context_ok c → mpf_context_multiplier_create c i = Ok (Multiplier i (selected (matrix c i) (capacity c) 0)).
Proof.
  intros Hc. unfold mpf_context_multiplier_create. pose proof (selected_length (matrix c i) (capacity c) 0) as Hl. simpl in Hl.
  rewrite (ok_tx _ Hc), collect_selected; [|intros a Ha; by apply (ok_on _ Hc) in Ha as [_ ?]|lia].
  unfold full_array. rewrite decide_True by lia. done.
Qed.
Lemma mixer_create c j :
  context_ok c → mpf_context_mixer_create c j = Ok (Mixer (selected (λ i, matrix c i j) (capacity c) 0) j).
Proof.
  intros Hc. unfold mpf_context_mixer_create. pose proof (selected_length (λ i, matrix c i j) (capacity c) 0) as Hl. simpl in Hl.
  rewrite (ok_rx _ Hc), collect_selected; [|intros a Ha; by apply (ok_on _ Hc) in Ha as [? _]|lia].
  unfold full_array. rewrite decide_True by lia. done.
Qed.

(** One position is selected by [p]. *)
Lemma count_one p n a b : count p n = 1 → a < n → b < n → p a = true → p b = true → a = b.
Proof.
  intros H Ha Hb Hpa Hpb. destruct (Nat.lt_total a b) as [Hlt|[->|Hlt]]; [|done|].
  - pose proof (count_mono p (S a) b Hlt). pose proof (count_mono p (S b) n Hb). simpl in *. rewrite Hpa, Hpb in *. simpl in *. lia.
  - pose proof (count_mono p (S b) a Hlt). pose proof (count_mono p (S a) n Ha). simpl in *. rewrite Hpa, Hpb in *. simpl in *. lia.
Qed.

Lemma bridge_find_spec c i n s j :
  context_ok c → matrix c i j = true → s ≤ j < s + n → (∀ b, matrix c i b = true → b = j) →
  bridge_find c i n s = if decide (1 < rx_count (header c j))%Z then None else Some (Bridge i j).
Proof.
  intros Hc Hm Hj Hu. revert s Hj. induction n as [|n IH]; intros s Hj; simpl; [lia|].
  destruct (decide (s = j)) as [->|Hne].
  - destruct (ok_on _ Hc _ _ Hm) as [_ Hp]. apply present_some in Hp as [t Ht]. by rewrite Ht, Hm.
  - destruct (matrix c i s) eqn:E; [by apply Hu in E|]. destruct (hd_termination (header c s)); apply IH; lia.
Qed.

(** The associations of [i] and [j] that the objects made for the place [a] carry. *)
Definition direct c i j : nat :=
  Nat.b2n (matrix c i j && bool_decide (1 < tx_count (header c i) ∨ rx_count (header c j) ≤ 1)%Z).
Definition mixed c i j : nat := Nat.b2n (matrix c i j && bool_decide (1 < rx_count (header c j))%Z).
Definition made c a i j : nat := (if decide (a = i) then direct c i j else 0) + (if decide (a = j) then mixed c i j else 0).

(** The context with more objects. *)
Definition more c (l : list mpf_object_t) : mpf_context_t St := c <| mpf_objects := mpf_objects c ++ l |>.

Lemma more_nil c : more c [] = c.
Proof. destruct c. unfold more. simpl. by rewrite app_nil_r. Qed.
Lemma more_more c l l' : more (more c l) l' = more c (l ++ l').
Proof. unfold more. simpl. by rewrite <- (assoc_L (++)). Qed.
Lemma more_ok c l : context_ok c → context_ok (more c l).
Proof. by intros []. Qed.

(** The objects [want] are made in turn; those that cannot be made are left out. *)
Definition adds c (want : list mpf_object_t) : mpf_context_t St :=
  foldl (λ c x, mpf_context_object_add creates c (Some x)) c want.

Lemma adds_more c want : ∃ l, adds c want = more c l ∧ l `sublist_of` want ∧ ((∀ c x, creates c x = true) → l = want).
Proof.
  revert c. induction want as [|x want IH]; intros c; [by exists []; rewrite more_nil|].
  change (adds c (x :: want)) with (adds (if creates c x then more c [x] else c) want). destruct (creates c x) eqn:E.
  - destruct (IH (more c [x])) as (l & Hl & Hsub & Hall). exists (x :: l). rewrite Hl, more_more.
    split_and!; [done|by constructor|]. intros Hcr. f_equal. by apply Hall.
  - destruct (IH c) as (l & Hl & Hsub & _). exists l. split_and!; [done|by constructor|].
    intros Hcr. by rewrite Hcr in E.
Qed.

Lemma adds_app c l l' : adds c (l ++ l') = adds (adds c l) l'.
Proof. apply foldl_app. Qed.

(** The associations do not change. *)
Lemma adds_same c want :
  capacity (adds c want) = capacity c ∧ header (adds c want) = header c ∧ matrix (adds c want) = matrix c ∧
  ctx_count (adds c want) = ctx_count c.
Proof. by destruct (adds_more c want) as (l & -> & _). Qed.
Lemma adds_ok c want : context_ok c → context_ok (adds c want).
Proof. destruct (adds_more c want) as (l & -> & _). apply more_ok. Qed.

(** The bridge or multiplier from the place [a]. *)
Lemma source_item_spec c a :
  context_ok c →
  ∃ l, (if decide (0 < tx_count (header c a))%Z then
          if decide (tx_count (header c a) = 1)%Z
          then Ok (mpf_context_object_add creates c (mpf_context_bridge_create c a))
          else x ← mpf_context_multiplier_create c a; Ok (mpf_context_object_add creates c (Some x))
        else Ok c) = Ok (adds c l) ∧ ∀ i j, carriers l i j = if decide (a = i) then direct c i j else 0.
Proof.
  intros Hc. pose proof (ok_tx _ Hc a) as Htx. case_decide as Hpos; [case_decide as H1|].
  - assert (Hone : count (matrix c a) (capacity c) = 1) by lia.
    assert (∃ j0, matrix c a j0 = true) as [j0 Hj0].
    { destruct (decide (Exists (λ j, matrix c a j = true) (seq 0 (capacity c)))) as [He|He].
      - apply Exists_exists in He as (j & _ & Hj). by exists j.
      - rewrite count_none in Hone; [done|]. intros k Hk. apply not_true_is_false. intros Hm. apply He.
        apply Exists_exists. exists k. split; [|done]. apply elem_of_seq. lia. }
    assert (Hu : ∀ b, matrix c a b = true → b = j0).
    { intros b Hb. eapply (count_one (matrix c a)); try done; by eapply on_lt. }
    assert (j0 < capacity c) by by eapply on_lt.
    unfold mpf_context_bridge_create. rewrite (bridge_find_spec c a _ 0 j0) by (done || lia).
    assert (Hd : ∀ i j, (if decide (a = i) then direct c i j else 0) =
      if decide (1 < rx_count (header c j0))%Z then 0 else carries_by i j (Bridge a j0)).
    { intros i j. destruct (decide (a = i)) as [<-|Hi]; simpl; [|rewrite bool_decide_false by tauto; by case_decide].
      unfold direct. destruct (matrix c a j) eqn:E; simpl.
      - apply Hu in E as ->. rewrite (bool_decide_true (a = a ∧ j0 = j0)) by done. case_decide;
          [rewrite bool_decide_false by lia|rewrite bool_decide_true by lia]; done.
      - rewrite (bool_decide_false (a = a ∧ j0 = j)); [by case_decide|]. intros [_ ->]. congruence. }
    setoid_rewrite Hd. case_decide.
    + by exists [].
    + exists [Bridge a j0]. split; [done|]. intros i j. by rewrite carriers_one.
  - rewrite multiplier_create by done. exists [Multiplier a (selected (matrix c a) (capacity c) 0)]. split; [done|].
    intros i j. rewrite carriers_one. simpl. case_decide as Hi; [subst i|done].
    rewrite selected_occ. unfold direct. rewrite (bool_decide_true (_ ∨ _)) by lia. rewrite andb_true_r. f_equal.
    destruct (matrix c a j) eqn:E; [|by rewrite andb_false_r]. rewrite bool_decide_true; [done|].
    pose proof (on_lt _ _ _ Hc E). lia.
  - exists []. split; [done|]. intros i j. case_decide as Hi; [subst i|done]. unfold direct.
    destruct (matrix c a j) eqn:E; [|done]. pose proof (count_pos (matrix c a) (capacity c) j) as Hp.
    destruct (on_lt _ _ _ Hc E). specialize (Hp ltac:(done) E). lia.
Qed.

(** The mixer to the place [a]; [c'] has the places and the matrix of [c]. *)
Lemma mixer_item_spec c a :
  context_ok c →
  ∃ l, (if decide (1 < rx_count (header c a))%Z then
          x ← mpf_context_mixer_create c a; Ok (mpf_context_object_add creates c (Some x))
        else Ok c) = Ok (adds c l) ∧ ∀ i j, carriers l i j = if decide (a = j) then mixed c i j else 0.
Proof.
  intros Hc. case_decide as Hrx.
  - rewrite mixer_create by done. exists [Mixer (selected (λ i, matrix c i a) (capacity c) 0) a]. split; [done|].
    intros i j. rewrite carriers_one. simpl. case_decide as Hj; [subst j|done].
    rewrite selected_occ. unfold mixed. rewrite (bool_decide_true (_ < _)%Z) by done. rewrite andb_true_r. f_equal.
    destruct (matrix c i a) eqn:E; [|by rewrite andb_false_r]. rewrite bool_decide_true; [done|].
    pose proof (on_lt _ _ _ Hc E). lia.
  - exists []. split; [done|]. intros i j. case_decide as Hj; [subst j|done]. unfold mixed.
    by rewrite bool_decide_false, andb_false_r by lia.
Qed.

Lemma topology_item_spec c a :
  context_ok c →
  ∃ l, topology_item creates c a = Ok (adds c l) ∧ ∀ i j, carriers l i j = made c a i j.
Proof.
  intros Hc. destruct (source_item_spec c a Hc) as (l1 & H1 & C1).
  destruct (mixer_item_spec (adds c l1) a (adds_ok _ _ Hc)) as (l2 & H2 & C2). destruct (adds_same c l1) as (_ & Eh & Em & _).
  exists (l1 ++ l2). split.
  - unfold topology_item. rewrite H1, adds_app, <- H2. cbn [mbind res_bind]. by rewrite Eh.
  - intros i j. rewrite carriers_app, C1, C2. unfold made, mixed. by rewrite Eh, Em.
Qed.

Lemma topology_loop_spec n s c :
  context_ok c → s + n = capacity c →
  ∃ l, topology_loop creates n s (count (present c) s) c = Ok (adds c l) ∧ ∀ i j,
      carriers l i j = (if decide (s ≤ i) then direct c i j else 0) + (if decide (s ≤ j) then mixed c i j else 0).
Proof.
  revert s c. induction n as [|n IH]; intros s c Hc Hn; simpl.
  { exists []. split; [done|]. intros i j. unfold carriers. simpl.
    unfold direct, mixed. destruct (matrix c i j) eqn:E; [|by repeat case_decide].
    destruct (on_lt _ _ _ Hc E). rewrite !decide_False by lia. done. }
  pose proof (count_S_present c s) as HS. case_decide as Hk; [destruct (hd_termination (header c s)) eqn:E|].
  - destruct (topology_item_spec c s Hc) as (l1 & -> & C1). destruct (adds_same c l1) as (Ec & Eh & Em & _).
    destruct (IH (S s) (adds c l1) (adds_ok _ _ Hc)) as (l2 & H2 & C2); [rewrite Ec; lia|].
    exists (l1 ++ l2). split.
    + rewrite adds_app, <- H2, <- HS. unfold present. by rewrite Eh.
    + intros i j. rewrite carriers_app, C1, C2. unfold made, direct, mixed. rewrite Eh, Em. repeat case_decide; lia.
  - rewrite <- HS. destruct (IH (S s) c Hc) as (l2 & H2 & C2); [lia|]. exists l2. split; [done|].
    intros i j. rewrite C2. unfold direct, mixed. destruct (matrix c i j) eqn:Em; [|by repeat case_decide].
    destruct (absent_ne _ _ _ _ Hc E Em). repeat case_decide; lia.
  - exists []. split; [done|]. intros i j. unfold carriers, direct, mixed. simpl.
    destruct (matrix c i j) eqn:Em; [|by repeat case_decide]. destruct (seen_ne _ _ _ _ Hc Hk Em). repeat case_decide; lia.
Qed.

(** The topology can be applied, and changes nothing but the objects. *)
Lemma topology_apply_spec c :
  context_ok c →
  ∃ l, mpf_context_topology_apply creates c = Ok (c <| mpf_objects := l |>) ∧
    ∃ want, c <| mpf_objects := l |> = adds (mpf_context_topology_destroy c) want ∧ l `sublist_of` want ∧
      ((∀ c x, creates c x = true) → l = want) ∧ ∀ i j, carriers want i j = direct c i j + mixed c i j.
Proof.
  intros Hc. destruct (topology_loop_spec (capacity c) 0 (mpf_context_topology_destroy c)) as (want & H & C);
    [by destruct Hc|done|]. destruct (adds_more (mpf_context_topology_destroy c) want) as (l & Hl & Hsub & Hall).
  exists l. split; [by rewrite Hl in H|]. exists want. split_and!; try done.
Qed.

End Topology.
