(* ===== verification/MpfEngineTheory.v ===== *)
(** * MpfEngineTheory: the media engine as the sessions see it.

    Of a context its clients know a graph: the terminations in it and which of them
    hear which.  The engine, with its places, matrix and counters, implements the
    graph.  Every container of requests is answered, in a way a session accepts; the
    objects of the context carry the associations of the graph.  A context that is
    destroyed is empty. *)
From stdpp Require Import gmap.
From S2P Require Import Prelude RecordUpdate CodecDescriptor SessionDescriptor ServerSession MpfContext MpfObjects MpfContextTheory.
From S2P Require Import ServerAccount ServerReplies ServerSystem.

#[local] Set Default Proof Using "Type".

#[export] Instance termination_countable : Countable mpf_termination.
Proof.
  refine (inj_countable' (λ t, match t with TRtp i => inl i | TEngine i => inr i end)
                         (λ x, match x with inl i => TRtp i | inr i => TEngine i end) _).
  by intros [].
Defined.

(** ** The graph *)

Record media_graph (St : Type) := mk_graph {
  room : nat;
  nodes : gset mpf_termination;
  arcs : gset (mpf_termination * mpf_termination);
  g_streams : mpf_termination → St
}.
Arguments mk_graph {_} _ _ _ _.
Arguments room {_} _.
Arguments nodes {_} _.
Arguments arcs {_} _.
Arguments g_streams {_} _ _.

#[export] Instance eta_graph St : Settable (media_graph St) :=
  settable! mk_graph < room; nodes; arcs; g_streams >.

Section Spec.
  Context {St : Type} (audio_direction : St → option Z) (vtable : mpf_termination → mpf_termination_vtable_t St).
  Implicit Types (c : mpf_context_t St) (g : media_graph St) (t u : mpf_termination).

Definition sends (o : option Z) : bool := from_option (λ d, Z.testbit d 0) false o.
Definition receives (o : option Z) : bool := from_option (λ d, Z.testbit d 1) false o.

(** [u] can hear [t]: audio that is received by [t] is sent by [u]. *)
Definition can_hear g t u : bool :=
  receives (audio_direction (g_streams g t)) && sends (audio_direction (g_streams g u)).

Definition streams_put g t (st : St) : media_graph St := g <| g_streams := update (g_streams g) t st |>.

Definition added g t (d : option mpf_rtp_stream_descriptor_t) : media_graph St :=
  from_option (λ f, streams_put g t (f (g_streams g t) d).1) g (vt_add (vtable t)).
Definition modified g t (d : option mpf_rtp_stream_descriptor_t) : media_graph St :=
  from_option (λ f, streams_put g t (f (g_streams g t) d).1) g (vt_modify (vtable t)).
Definition subtracted g t : media_graph St :=
  from_option (λ f, streams_put g t (f (g_streams g t))) g (vt_subtract (vtable t)).

(** A request: the graph and whether it succeeds.  A termination that is in the
    context is not added again. *)
Definition graph_step g (m : mpf_message_t) : option (media_graph St * bool) :=
  match m with
  | MPF_ADD_TERMINATION t d =>
      let g := added g t d in
      if decide (t ∈ nodes g) then None
      else if decide (size (nodes g) < room g) then Some (g <| nodes := nodes g ∪ {[t]} |>, true)
      else Some (subtracted g t, false)
  | MPF_MODIFY_TERMINATION t d => Some (modified g t d, true)
  | MPF_SUBTRACT_TERMINATION t =>
      if decide (t ∈ nodes g) then
        Some (subtracted (g <| nodes := nodes g ∖ {[t]} |> <| arcs := filter (λ p, p.1 ≠ t ∧ p.2 ≠ t) (arcs g) |>) t, true)
      else Some (g, false)
  | MPF_ADD_ASSOCIATION t (Some u) =>
      if decide (t ∈ nodes g ∧ u ∈ nodes g) then
        Some (g <| arcs := arcs g ∪ (if can_hear g t u then {[(t, u)]} else ∅) ∪ (if can_hear g u t then {[(u, t)]} else ∅) |>,
              true)
      else Some (g, true)
  | MPF_REMOVE_ASSOCIATION t (Some u) => Some (g <| arcs := arcs g ∖ {[(t, u); (u, t)]} |>, true)
  | MPF_ADD_ASSOCIATION _ None | MPF_REMOVE_ASSOCIATION _ None => None
  | MPF_RESET_ASSOCIATIONS => Some (g <| arcs := ∅ |>, true)
  | MPF_APPLY_TOPOLOGY | MPF_DESTROY_TOPOLOGY => Some (g, true)
  end.

Fixpoint graph_run g (ms : list mpf_message_t) : option (media_graph St * list bool) :=
  match ms with
  | [] => Some (g, [])
  | m :: ms => '(g, ok) ← graph_step g m; '(g, oks) ← graph_run g ms; Some (g, ok :: oks)
  end.

(** ** The relation of context and graph *)

Definition at_place c t i : Prop := hd_termination (header c i) = Some t.
Definition hears c t u : Prop := ∃ i j, at_place c t i ∧ at_place c u j ∧ matrix c i j = true.

Record simulates c g : Prop := {
  si_ok : context_ok c;
  si_placed : placed c;
  si_room : room g = capacity c;
  si_nodes : ∀ t, t ∈ nodes g ↔ ∃ i, at_place c t i;
  si_arcs : ∀ t u, (t, u) ∈ arcs g ↔ hears c t u;
  si_streams : ∀ t, g_streams g t = streams (terminations_of c t)
}.

Lemma at_place_inj c t i j : placed c → at_place c t i → at_place c t j → i = j.
Proof. intros Hp Hi Hj. apply Hp in Hi, Hj. rewrite Hi in Hj. lia. Qed.

Lemma place_of_node c g t : simulates c g → t ∈ nodes g ↔ ∃ i, place_of c t = Some i.
Proof.
  intros Hs. rewrite (si_nodes _ _ Hs). split; intros [i Hi]; exists i.
  - apply place_of_placed; [apply Hs|apply Hs|done].
  - by apply place_of_some in Hi as (_ & ? & _).
Qed.
Lemma place_of_no_node c g t : simulates c g → t ∉ nodes g → place_of c t = None.
Proof. intros Hs Ht. destruct (place_of c t) eqn:E; [|done]. destruct Ht. eapply place_of_node; eauto. Qed.

(** The terminations in the order of their places. *)
Definition node_list c : list mpf_termination := omap (λ i, hd_termination (header c i)) (seq 0 (capacity c)).

Lemma node_list_length c : length (node_list c) = count (present c) (capacity c).
Proof.
  unfold node_list. induction (capacity c) as [|n IH]; [done|]. rewrite seq_S, omap_app, length_app, IH. simpl.
  f_equal. unfold present. by destruct (hd_termination (header c n)).
Qed.

Lemma node_list_NoDup c : placed c → NoDup (node_list c).
Proof.
  intros Hp. unfold node_list. generalize (NoDup_seq 0 (capacity c)). generalize (seq 0 (capacity c)).
  induction l as [|i l IH]; intros Hd; [constructor|]. inversion Hd as [|?? Hi Hl]; subst. simpl.
  destruct (hd_termination (header c i)) as [t|] eqn:E; [|by apply IH]. constructor; [|by apply IH].
  intros Ht. apply list_elem_of_omap in Ht as (j & Hj & Ej). rewrite (at_place_inj c t i j Hp E Ej) in Hi. done.
Qed.

Lemma size_nodes c g : simulates c g → size (nodes g) = ctx_count c.
Proof.
  intros Hs. rewrite (ok_count _ (si_ok _ _ Hs)), <- node_list_length.
  rewrite <- (size_list_to_set (C := gset mpf_termination) (node_list c)) by apply node_list_NoDup, Hs.
  apply set_size_proper. intros t. rewrite (si_nodes _ _ Hs), elem_of_list_to_set. unfold node_list.
  rewrite list_elem_of_omap. split.
  - intros [i Hi]. exists i. split; [|done]. apply elem_of_seq. split; [lia|]. simpl.
    apply (ok_present _ (si_ok _ _ Hs)). apply present_some. by rewrite Hi.
  - intros (i & _ & Hi). by exists i.
Qed.

(** ** The operations *)

Lemma context_ok_streams c f : context_ok c → context_ok (c <| terminations_of := f |>).
Proof. by intros []. Qed.

Lemma simulates_streams c g t st :
  simulates c g → simulates (term_put c t (terminations_of c t <| streams := st |>)) (streams_put g t st).
Proof.
  intros [H1 H2 H3 H4 H5 H6]. split; try done.
  - by apply context_ok_streams.
  - intros i u Hi. simpl. unfold update. case_decide; [subst; simpl|]; by apply H2.
  - intros u. simpl. unfold update. case_decide; [done|apply H6].
Qed.

Lemma simulates_add c g t d :
  simulates c g → ∃ c' d', mpf_termination_add vtable c t d = (c', d') ∧ simulates c' (added g t d).
Proof.
  intros Hs. unfold mpf_termination_add, added. destruct (vt_add (vtable t)) as [f|]; simpl; [|eauto].
  rewrite (si_streams _ _ Hs). destruct (f (streams (terminations_of c t)) d) as [st w]. eauto using simulates_streams.
Qed.
Lemma simulates_modify c g t d :
  simulates c g → ∃ c' d', mpf_termination_modify vtable c t d = (c', d') ∧ simulates c' (modified g t d).
Proof.
  intros Hs. unfold mpf_termination_modify, modified. destruct (vt_modify (vtable t)) as [f|]; simpl; [|eauto].
  rewrite (si_streams _ _ Hs). destruct (f (streams (terminations_of c t)) d) as [st w]. eauto using simulates_streams.
Qed.
Lemma simulates_subtract c g t : simulates c g → simulates (mpf_termination_subtract vtable c t) (subtracted g t).
Proof.
  intros Hs. unfold mpf_termination_subtract, subtracted. destruct (vt_subtract (vtable t)) as [f|]; simpl; [|done].
  rewrite (si_streams _ _ Hs). by apply simulates_streams.
Qed.

Lemma simulates_context_add c g t :
  simulates c g → t ∉ nodes g → size (nodes g) < room g →
  ∃ c', mpf_context_termination_add c t = (true, c') ∧ simulates c' (g <| nodes := nodes g ∪ {[t]} |>).
Proof. clear vtable.
  intros Hs Ht Hr. rewrite (size_nodes _ _ Hs), (si_room _ _ Hs) in Hr.
  pose proof (termination_add_spec c t (si_ok _ _ Hs)) as Ha.
  destruct (mpf_context_termination_add c t) as [[] c']; [|destruct Ha; lia].
  destruct Ha as (Hok & Hcap & Hmat & _ & i & Hfree & Hhd & Hts). exists c'. split; [done|].
  assert (Hat : ∀ u a, at_place c' u a ↔ at_place c u a ∨ u = t ∧ a = i).
  { intros u a. unfold at_place. rewrite Hhd. case_decide; [subst a; rewrite Hfree|]; naive_solver. }
  assert (Hnt : ∀ a, ¬ at_place c t a). { intros a Hat'. apply Ht. apply (si_nodes _ _ Hs). by exists a. }
  split; [done| |by rewrite Hcap; apply (si_room _ _ Hs)| | |].
  - intros a u Hu. apply Hat in Hu as [Hu|[-> ->]]; rewrite Hts.
    + rewrite decide_False; [by apply (si_placed _ _ Hs)|]. intros ->. by eapply Hnt.
    + by rewrite decide_True.
  - intros u. simpl. rewrite elem_of_union, elem_of_singleton, (si_nodes _ _ Hs). setoid_rewrite Hat. naive_solver.
  - intros u v. simpl. rewrite (si_arcs _ _ Hs). unfold hears. setoid_rewrite Hat. rewrite Hmat.
    split; [naive_solver|]. intros (a & b & Hu & Hv & Hm). exists a, b.
    pose proof (absent_ne _ _ _ _ (si_ok _ _ Hs) Hfree Hm). naive_solver.
  - intros u. simpl. rewrite Hts, (si_streams _ _ Hs). case_decide; by subst.
Qed.

Lemma simulates_context_full c g t :
  simulates c g → ¬ size (nodes g) < room g → mpf_context_termination_add c t = (false, c).
Proof.
  intros Hs Hr. rewrite (size_nodes _ _ Hs), (si_room _ _ Hs) in Hr.
  pose proof (termination_add_spec c t (si_ok _ _ Hs)) as Ha.
  destruct (mpf_context_termination_add c t) as [[] c']; [destruct Ha as (_ & _ & _ & ? & _); lia|]. by destruct Ha as [-> _].
Qed.

Lemma simulates_context_subtract c g t :
  simulates c g → t ∈ nodes g →
  ∃ c', mpf_context_termination_subtract c t = (true, c') ∧
    simulates c' (g <| nodes := nodes g ∖ {[t]} |> <| arcs := filter (λ p, p.1 ≠ t ∧ p.2 ≠ t) (arcs g) |>).
Proof. clear vtable.
  intros Hs Ht. apply (place_of_node _ _ _ Hs) in Ht as [i Hi].
  destruct (termination_subtract_spec c t i (si_ok _ _ Hs) Hi) as (c' & -> & Hok & Hcap & Hmat & Hhd & Hts).
  apply place_of_some in Hi as (_ & Hi & _). exists c'. split; [done|].
  assert (Hat : ∀ u a, at_place c' u a ↔ at_place c u a ∧ u ≠ t).
  { intros u a. unfold at_place. rewrite Hhd. split.
    - case_decide; [done|]. intros Hu. split; [done|]. intros ->. by pose proof (at_place_inj c t a i (si_placed _ _ Hs) Hu Hi).
    - intros [Hu Hne]. rewrite decide_False; [done|]. intros ->. congruence. }
  split; [done| |by rewrite Hcap; apply (si_room _ _ Hs)| | |].
  - intros a u Hu. apply Hat in Hu as [Hu Hne]. rewrite Hts, decide_False by done. by apply (si_placed _ _ Hs).
  - intros u. simpl. rewrite elem_of_difference, elem_of_singleton, (si_nodes _ _ Hs). setoid_rewrite Hat. naive_solver.
  - intros u v. simpl. rewrite elem_of_filter, (si_arcs _ _ Hs). unfold hears. setoid_rewrite Hat. setoid_rewrite Hmat.
    split; [|naive_solver]. intros ([Hu Hv] & a & b & Ha & Hb & Hm). exists a, b. simpl in Hu, Hv. unfold at_place in *. split_and!; try done; intros ->; congruence.
  - intros u. simpl. rewrite Hts, (si_streams _ _ Hs). case_decide; by subst.
Qed.

(** Associations change, and the arcs with them. *)
Lemma simulates_arcs c g c' A :
  simulates c g → context_ok c' → same c c' → (∀ t u, (t, u) ∈ A ↔ hears c' t u) → simulates c' (g <| arcs := A |>).
Proof.
  intros [H1 H2 H3 H4 H5 H6] Hok Hsm HA. split; try done; simpl.
  - intros i t Hi. rewrite (sm_terms _ _ Hsm). apply H2. by rewrite <- (sm_place _ _ Hsm).
  - by rewrite (sm_capacity _ _ Hsm).
  - intros t. unfold at_place. setoid_rewrite (sm_place _ _ Hsm). apply H4.
  - intros t. by rewrite (sm_terms _ _ Hsm).
Qed.

Lemma direction_bit d k : (0 ≤ k)%Z → bool_decide (Z.land d (2 ^ k) = 2 ^ k)%Z = Z.testbit d k.
Proof.
  intros Hk. case_bool_decide as E.
  - apply (f_equal (λ z, Z.testbit z k)) in E. rewrite Z.land_spec, Z.pow2_bits_true, andb_true_r in E by done. done.
  - symmetry. apply not_true_is_false. intros Ht. apply E. apply Z.bits_inj'. intros n Hn. rewrite Z.land_spec.
    destruct (decide (n = k)) as [->|Hne]; [by rewrite Ht|]. by rewrite Z.pow2_bits_false, andb_false_r.
Qed.

Lemma compatibility_can_hear c g t u :
  simulates c g → stream_direction_compatibility_check audio_direction c t u = can_hear g t u.
Proof.
  intros Hs. unfold stream_direction_compatibility_check, can_hear, receives, sends. rewrite !(si_streams _ _ Hs).
  destruct (audio_direction _) as [d1|]; simpl; [|done].
  destruct (audio_direction _) as [d2|]; simpl; [|by rewrite andb_false_r].
  f_equal; [exact (direction_bit d1 1 ltac:(done))|exact (direction_bit d2 0 ltac:(done))].
Qed.

(** The association of [i] and [j] is made, if it can be. *)
Definition associate c (b : bool) i j : mpf_context_t St := if negb (matrix c i j) && b then item_on c i j else c.

Lemma associate_spec c b i j :
  context_ok c → present c i = true → present c j = true →
  context_ok (associate c b i j) ∧ same c (associate c b i j) ∧
  ∀ x y, matrix (associate c b i j) x y = true ↔ matrix c x y = true ∨ b = true ∧ x = i ∧ y = j.
Proof.
  intros Hc Hi Hj. unfold associate. destruct (matrix c i j) eqn:E; simpl; [|destruct b].
  - split_and!; [done|apply same_refl|]. intros x y. split; [by left|]. by intros [?|(_ & -> & ->)].
  - destruct (item_on_spec c i j Hc E Hi Hj) as (H1 & H2 & H3). split_and!; [done..|]. intros x y.
    rewrite H3, orb_true_iff, bool_decide_eq_true. tauto.
  - split_and!; [done|apply same_refl|]. intros x y. split; [by left|]. by intros [?|(? & _)].
Qed.

Lemma association_add_eq c g t u i j :
  simulates c g → at_place c t i → at_place c u j →
  mpf_context_association_add audio_direction c t u =
    (true, associate (associate c (can_hear g t u) i j) (can_hear g u t) j i).
Proof.
  intros Hs Hi Hj. unfold mpf_context_association_add.
  rewrite (place_of_placed c t i), (place_of_placed c u j) by (done || apply Hs).
  rewrite (compatibility_can_hear c g) by done. fold (associate c (can_hear g t u) i j).
  assert (Hc1 : stream_direction_compatibility_check audio_direction (associate c (can_hear g t u) i j) u t = can_hear g u t).
  { rewrite <- (compatibility_can_hear c g u t) by done. unfold stream_direction_compatibility_check.
    assert (Hpi : present c i = true) by (apply present_some; by rewrite Hi).
    assert (Hpj : present c j = true) by (apply present_some; by rewrite Hj).
    destruct (associate_spec c (can_hear g t u) i j (si_ok _ _ Hs) Hpi Hpj) as (_ & Hsm & _).
    by rewrite (sm_terms _ _ Hsm). }
  by rewrite Hc1.
Qed.

Lemma simulates_association_add c g t u :
  simulates c g → t ∈ nodes g → u ∈ nodes g →
  simulates (mpf_context_association_add audio_direction c t u).2
    (g <| arcs := arcs g ∪ (if can_hear g t u then {[(t, u)]} else ∅) ∪ (if can_hear g u t then {[(u, t)]} else ∅) |>).
Proof. clear vtable.
  intros Hs Ht Hu. apply (si_nodes _ _ Hs) in Ht as [i Hi], Hu as [j Hj].
  rewrite (association_add_eq c g t u i j Hs Hi Hj). simpl.
  assert (Hpi : present c i = true) by (apply present_some; by rewrite Hi).
  assert (Hpj : present c j = true) by (apply present_some; by rewrite Hj).
  destruct (associate_spec c (can_hear g t u) i j (si_ok _ _ Hs) Hpi Hpj) as (H1 & S1 & M1).
  rewrite <- (same_present _ _ i S1) in Hpi. rewrite <- (same_present _ _ j S1) in Hpj.
  destruct (associate_spec _ (can_hear g u t) j i H1 Hpj Hpi) as (H2 & S2 & M2).
  eapply simulates_arcs; [done|done|by eapply same_trans|].
  intros x y. rewrite !elem_of_union, (si_arcs _ _ Hs). unfold hears, at_place. setoid_rewrite (sm_place _ _ S2).
  setoid_rewrite (sm_place _ _ S1). setoid_rewrite M2. setoid_rewrite M1.
  assert (Harc : ∀ (b : bool) v w, (x, y) ∈ (if b then {[(v, w)]} else ∅ : gset _) ↔ b = true ∧ x = v ∧ y = w).
  { intros [] v w; set_solver. }
  rewrite !Harc. split.
  - intros [[(a & b & ? & ? & ?)|(? & -> & ->)]|(? & -> & ->)]; [exists a, b|exists i, j|exists j, i]; tauto.
  - intros (a & b & Ha & Hb & [[?|(? & -> & ->)]|(? & -> & ->)]); [left; left; exists a, b; tauto| |];
      unfold at_place in *; simplify_eq; tauto.
Qed.

Lemma simulates_association_remove c g t u :
  simulates c g →
  simulates (mpf_context_association_remove c t u).2 (g <| arcs := arcs g ∖ {[(t, u); (u, t)]} |>).
Proof. clear vtable.
  intros Hs. unfold mpf_context_association_remove.
  assert (Hno : (∀ i j, ¬ (at_place c t i ∧ at_place c u j)) → simulates c (g <| arcs := arcs g ∖ {[(t, u); (u, t)]} |>)).
  { intros Hn. eapply simulates_arcs; [done|apply Hs|apply same_refl|]. intros x y.
    rewrite elem_of_difference, (si_arcs _ _ Hs). split; [tauto|]. intros Hh. split; [done|].
    destruct Hh as (a & b & Ha & Hb & _). rewrite elem_of_union, !elem_of_singleton.
    intros [E|E]; simplify_eq; [by eapply (Hn a b)|by eapply (Hn b a)]. }
  destruct (place_of c t) as [i|] eqn:Ei.
  2: { apply Hno. intros i j [Hi _]. rewrite (place_of_placed c t i) in Ei by (done || apply Hs). done. }
  destruct (place_of c u) as [j|] eqn:Ej.
  2: { apply Hno. intros i' j [_ Hj]. rewrite (place_of_placed c u j) in Ej by (done || apply Hs). done. }
  apply place_of_some in Ei as (_ & Hi & _), Ej as (_ & Hj & _).
  destruct (pair_off_without c i j (si_ok _ _ Hs)) as (H1 & S1 & M1). simpl.
  eapply simulates_arcs; [done|done|done|]. intros x y.
  rewrite elem_of_difference, (si_arcs _ _ Hs), elem_of_union, !elem_of_singleton.
  unfold hears, at_place. setoid_rewrite (sm_place _ _ S1). setoid_rewrite M1. split.
  - intros [(a & b & Ha & Hb & Hm) Hn]. exists a, b. split_and!; try done. intros [[-> ->]|[-> ->]]; apply Hn; simplify_eq; tauto.
  - intros (a & b & Ha & Hb & Hm & Hn). split; [by exists a, b|].
    assert (Hp := si_placed _ _ Hs). intros [E|E]; simplify_eq; apply Hn.
    + left. split; by eapply at_place_inj.
    + right. split; by eapply at_place_inj.
Qed.

Lemma simulates_reset c g : simulates c g → simulates (mpf_context_associations_reset c) (g <| arcs := ∅ |>).
Proof.
  intros Hs. assert (Hs0 : simulates (mpf_context_topology_destroy c) g).
  { destruct Hs as [H1 H2 H3 H4 H5 H6]. split; try done. by destruct H1. }
  unfold mpf_context_associations_reset. generalize dependent (mpf_context_topology_destroy c). clear c Hs. intros c Hs.
  destruct (reset_loop_spec (capacity c) 0 c (si_ok _ _ Hs) eq_refl) as (H1 & S1 & M1). simpl in *.
  eapply simulates_arcs; [done|done|done|]. intros x y. split; [set_solver|].
  intros (a & b & _ & _ & Hm). apply M1 in Hm as [_ Hm]. lia.
Qed.

Lemma simulates_objects c g l : simulates c g → simulates (c <| mpf_objects := l |>) g.
Proof. intros [H1 H2 H3 H4 H5 H6]. split; try done. by destruct H1. Qed.

(** ** Requests *)

Context (creates : mpf_context_t St → mpf_object_t → bool).

Lemma request_refines c g m g' ok :
  simulates c g → graph_step g m = Some (g', ok) →
  ∃ c' m', mpf_request_process audio_direction vtable creates c m = Ok (c', (m', ok)) ∧ simulates c' g'.
Proof.
  intros Hs Hstep. destruct m as [t d|t d|t|t [u|]|t [u|]| | |]; simpl in *; try done.
  - destruct (simulates_add c g t d Hs) as (c1 & d1 & -> & Hs1). case_decide as Ht; [done|]. case_decide as Hr; simplify_eq.
    + destruct (simulates_context_add _ _ _ Hs1 Ht Hr) as (c2 & -> & Hs2). eauto.
    + rewrite (simulates_context_full _ _ t Hs1 Hr). eauto using simulates_subtract.
  - destruct (simulates_modify c g t d Hs) as (c1 & d1 & -> & Hs1). simplify_eq. eauto.
  - case_decide as Ht; simplify_eq.
    + destruct (simulates_context_subtract _ _ _ Hs Ht) as (c1 & -> & Hs1). eauto using simulates_subtract.
    + unfold mpf_context_termination_subtract. rewrite (place_of_no_node _ _ _ Hs Ht). eauto.
  - case_decide as Ht; simplify_eq.
    + destruct Ht. eauto using simulates_association_add.
    + eexists _, _. split; [done|]. unfold mpf_context_association_add.
      destruct (place_of c t) eqn:Et; [|done]. destruct (place_of c u) eqn:Eu; [|done]. destruct Ht.
      split; eapply place_of_node; eauto.
  - simplify_eq. eauto using simulates_association_remove.
  - simplify_eq. eauto using simulates_reset.
  - simplify_eq. destruct (topology_apply_spec creates c (si_ok _ _ Hs)) as (l & -> & _). simpl. eauto using simulates_objects.
  - simplify_eq. eexists _, _. split; [done|]. by apply simulates_objects.
Qed.

End Spec.

Section Engine.
  Context {St : Type} (audio_direction : St → option Z) (vtable : mpf_termination → mpf_termination_vtable_t St).
  Context (creates : mpf_context_t St → mpf_object_t → bool).
  Implicit Types (c : mpf_context_t St) (g : media_graph St) (t u : mpf_termination) (ms : list mpf_message_t).

(** ** Answers *)

(** An association names both terminations. *)
Definition association_given (m : mpf_message_t) : Prop :=
  match m with MPF_ADD_ASSOCIATION _ a | MPF_REMOVE_ASSOCIATION _ a => is_Some a | _ => True end.

Lemma context_ok_create n ts : n ≤ 255 → context_ok (mpf_context_create n ts : mpf_context_t St).
Proof.
  intros Hn. split; simpl; try done.
  - intros i. rewrite count_none; done.
  - intros i. rewrite count_none; done.
  - symmetry. by apply count_none.
Qed.

Lemma context_ok_subtract c t : context_ok c → context_ok (mpf_termination_subtract vtable c t).
Proof. intros Hc. unfold mpf_termination_subtract. destruct (vt_subtract _); [by apply context_ok_streams|done]. Qed.

Lemma context_ok_association_add c t u : context_ok c → context_ok (mpf_context_association_add audio_direction c t u).2.
Proof.
  intros Hc. unfold mpf_context_association_add. destruct (place_of c t) as [i|] eqn:Ei; [|done].
  destruct (place_of c u) as [j|] eqn:Ej; [|done]. apply place_of_some in Ei as (_ & Hi & _), Ej as (_ & Hj & _).
  assert (Hpi : present c i = true) by (apply present_some; by rewrite Hi).
  assert (Hpj : present c j = true) by (apply present_some; by rewrite Hj). simpl.
  destruct (associate_spec c (stream_direction_compatibility_check audio_direction c t u) i j Hc Hpi Hpj) as (H1 & S1 & _).
  apply associate_spec; [done|by rewrite (same_present _ _ _ S1)..].
Qed.

Lemma context_ok_association_remove c t u : context_ok c → context_ok (mpf_context_association_remove c t u).2.
Proof.
  intros Hc. unfold mpf_context_association_remove. destruct (place_of c t); [|done]. destruct (place_of c u); [|done].
  by apply pair_off_spec.
Qed.

Lemma context_ok_reset c : context_ok c → context_ok (mpf_context_associations_reset c).
Proof.
  intros Hc. assert (Hc0 : context_ok (mpf_context_topology_destroy c)) by (by destruct Hc).
  destruct (reset_loop_spec _ 0 _ Hc0 eq_refl) as [H _]. done.
Qed.

Lemma request_answered c m :
  context_ok c → association_given m →
  ∃ c' m' ok, mpf_request_process audio_direction vtable creates c m = Ok (c', (m', ok)) ∧ context_ok c' ∧ response m m'.
Proof.
  intros Hc Hm. destruct m as [t d|t d|t|t a|t a| | |]; simpl in *.
  - unfold mpf_termination_add.
    assert (∃ c1 w, (match vt_add (vtable t) with
       | Some add => let '(st, written) := add (streams (terminations_of c t)) d in
                     (term_put c t (terminations_of c t <| streams := st |>), written <$> d)
       | None => (c, d) end) = (c1, w <$> d) ∧ context_ok c1) as (c1 & w & -> & Hc1).
    { destruct (vt_add (vtable t)) as [f|]; [|exists c, id; by rewrite option_fmap_id].
      destruct (f _ d) as [st w]. eexists _, w. split; [done|]. by apply context_ok_streams. }
    pose proof (termination_add_spec c1 t Hc1) as Ha. destruct (mpf_context_termination_add c1 t) as [ok c2].
    eexists _, _, ok. split; [done|]. split; [|split; [done|by rewrite fmap_is_Some]].
    destruct ok; [by destruct Ha|]. destruct Ha as [-> _]. by apply context_ok_subtract.
  - unfold mpf_termination_modify. destruct (vt_modify (vtable t)) as [f|]; [destruct (f _ d) as [st w]|];
      eexists _, _, true; (split; [done|]); (split; [|split; [done|by rewrite ?fmap_is_Some]]); [by apply context_ok_streams|done].
  - destruct (place_of c t) as [i|] eqn:Ei.
    + destruct (termination_subtract_spec c t i Hc Ei) as (c' & -> & Hc' & _).
      eexists _, _, true. split; [done|]. split; [by apply context_ok_subtract|done].
    + unfold mpf_context_termination_subtract. rewrite Ei. by eexists _, _, false.
  - destruct Hm as [u ->]. simpl. eexists _, _, true. split; [done|]. split; [by apply context_ok_association_add|done].
  - destruct Hm as [u ->]. simpl. eexists _, _, true. split; [done|]. split; [by apply context_ok_association_remove|done].
  - eexists _, _, true. split; [done|]. split; [by apply context_ok_reset|done].
  - destruct (topology_apply_spec creates c Hc) as (l & -> & _). simpl. eexists _, _, true. split; [done|].
    split; [by destruct Hc|done].
  - eexists _, _, true. split; [done|]. split; [by destruct Hc|done].
Qed.

Lemma container_answered c ms :
  context_ok c → Forall association_given ms →
  ∃ c' rs, mpf_engine_msg_process audio_direction vtable creates c ms = Ok (c', rs) ∧ context_ok c' ∧ Forall2 response ms rs.*1.
Proof.
  intros Hc Hms. revert c Hc. induction Hms as [|m ms Hm _ IH]; intros c Hc; simpl; [by eexists _, []|].
  destruct (request_answered c m Hc Hm) as (c1 & m' & ok & -> & Hc1 & Hr). simpl.
  destruct (IH c1 Hc1) as (c2 & rs & -> & Hc2 & Hrs). simpl. eexists _, _. split; [done|]. split; [done|]. by constructor.
Qed.

(** C9: The media engine answers what a session asked it.  Whatever the requests of a
    container are, as long as an association names two terminations, the engine
    processes it without a fault and keeps the invariant of the context: the
    counters are the numbers of associations, these are among terminations in the
    context, and the context is processed if and only if it has a termination.  Its
    response is one that the session expects: it is allowed in a run of the session
    in which the container is outstanding. *)
Theorem engine_answers_session {R} c ms k (sy : @session_system R) :
  context_ok c → Forall association_given ms → sy.2 !! k = Some (QMpf ms) →
  ∃ c' rs, mpf_engine_msg_process audio_direction vtable creates c ms = Ok (c', rs) ∧ context_ok c' ∧
    allowed (EReply k (RMpf rs.*1)) sy.
Proof.
  intros Hc Hms Hk. destruct (container_answered c ms Hc Hms) as (c' & rs & Hp & Hc' & Hr).
  exists c', rs. split; [done|]. split; [done|]. by exists (QMpf ms).
Qed.

(** C10: The places, matrix and counters of a context implement a graph.  Terminations
    are added while there is room, subtracted with their associations, associated in
    the directions that their streams allow; every request of a container has in the
    engine the status and the effect it has on the graph. *)
Theorem engine_refines_graph c g ms g' oks :
  simulates c g → graph_run audio_direction vtable g ms = Some (g', oks) →
  ∃ c' rs, mpf_engine_msg_process audio_direction vtable creates c ms = Ok (c', rs) ∧ rs.*2 = oks ∧ simulates c' g'.
Proof.
  intros Hs Hr. revert c g oks Hs Hr. induction ms as [|m ms IH]; intros c g oks Hs Hr; simpl in *.
  { simplify_eq. by eexists _, []. }
  destruct (graph_step audio_direction vtable g m) as [[g1 ok]|] eqn:E1; [|done]. simpl in Hr.
  destruct (graph_run audio_direction vtable g1 ms) as [[g2 oks']|] eqn:E2; [|done]. simpl in Hr. simplify_eq.
  destruct (request_refines audio_direction vtable creates c g m g1 ok Hs E1) as (c1 & m' & -> & Hs1). simpl.
  destruct (IH c1 g1 oks' Hs1 E2) as (c2 & rs & -> & <- & Hs2). simpl. by eexists _, _.
Qed.

(** ** Topology *)

(** C11: Applying the topology of a context does not fault.  It tries to make a
    list of bridges, multipliers and mixers that carries the associations of the
    context and nothing else: an association is carried by one of them, but one
    from a termination that several hear, to one that hears several, is carried
    by the multiplier of the one and the mixer of the other, so that the source
    is read twice and the sink written twice.  The objects of the context are
    those of the list that could be made of the streams, in order; one that could
    not, because of the codecs, is left out, and what only it carries is silent.
    A tick of the objects reads the sources and writes the sinks of each, once
    each. *)
Theorem topology_carries_associations {W} `{FillingStreams W} c (w : W) :
  context_ok c →
  ∃ want l, mpf_context_topology_apply creates c = Ok (c <| mpf_objects := l |>) ∧
    (∀ i j, carriers want i j =
       if matrix c i j
       then if decide (1 < tx_count (header c i) ∧ 1 < rx_count (header c j))%Z then 2 else 1
       else 0) ∧
    c <| mpf_objects := l |> =
      foldl (λ c x, mpf_context_object_add creates c (Some x)) (mpf_context_topology_destroy c) want ∧
    l `sublist_of` want ∧ ((∀ c x, creates c x = true) → l = want) ∧
    (∀ xs : list object_t, xs.*1 = l → Forall object_fits xs →
       ∃ xs' w', mpf_context_process xs (w, []) = Ok (xs', (w', concat (object_io <$> l))) ∧
         xs'.*1 = l ∧ Forall object_fits xs').
Proof.
  intros Hc. destruct (topology_apply_spec creates c Hc) as (l & Hl & want & Hw & Hsub & Hall & C).
  exists want, l. split_and!; try done.
  - intros i j. rewrite C. unfold direct, mixed. destruct (matrix c i j); [|done]. simpl.
    case_decide as E; repeat case_bool_decide; simpl; lia.
  - intros xs <- Hxs. apply (context_process_io xs w [] Hxs).
Qed.

(** ** Destruction *)

Lemma destroy_loop_spec n i c :
  context_ok c → placed c → i + n = capacity c → (∀ a, a < i → hd_termination (header c a) = None) →
  let c' := context_destroy_loop vtable n i c in context_ok c' ∧ ∀ a, hd_termination (header c' a) = None.
Proof.
  revert i c. induction n as [|n IH]; intros i c Hc Hp Hn Hfree; simpl.
  { split; [done|]. intros a. destruct (hd_termination (header c a)) eqn:E; [|done].
    assert (a < capacity c); [|rewrite Hfree in E by lia; done]. apply (ok_present _ Hc), present_some. by rewrite E. }
  destruct (hd_termination (header c i)) as [t|] eqn:E.
  - pose proof (place_of_placed c t i Hc Hp E) as Hpl.
    destruct (termination_subtract_spec c t i Hc Hpl) as (c' & -> & Hc' & Hcap & _ & Hhd & Hts). simpl.
    assert (Hh : header (mpf_termination_subtract vtable c' t) = header c' ∧
                 capacity (mpf_termination_subtract vtable c' t) = capacity c' ∧
                 ∀ u, slot (terminations_of (mpf_termination_subtract vtable c' t) u) = slot (terminations_of c' u)).
    { unfold mpf_termination_subtract. destruct (vt_subtract (vtable t)); [|done]. split_and!; try done.
      intros u. simpl. unfold update. case_decide; by subst. }
    destruct Hh as (Hh & Hcap' & Hsl). apply IH.
    + by apply context_ok_subtract.
    + intros a u. rewrite Hh, Hsl, Hhd, Hts. destruct (decide (a = i)); [done|]. intros Hu.
      destruct (decide (u = t)) as [->|]; [|by apply Hp]. pose proof (Hp _ _ Hu). pose proof (Hp _ _ E). lia.
    + rewrite Hcap'. lia.
    + intros a Ha. rewrite Hh, Hhd. destruct (decide (a = i)); [done|]. apply Hfree. lia.
  - apply IH; try done; [lia|]. intros a Ha. destruct (decide (a = i)) as [->|]; [done|]. apply Hfree. lia.
Qed.

(** A destroyed context has no terminations and associations, and is processed no more. *)
Lemma context_destroyed c :
  context_ok c → placed c → let c' := mpf_context_destroy vtable c in
  ctx_count c' = 0 ∧ in_factory c' = false ∧ ∀ i j, matrix c' i j = false.
Proof.
  intros Hc Hp c'. destruct (destroy_loop_spec (capacity c) 0 c Hc Hp eq_refl) as [Hc' Hno]; [lia|]. fold (mpf_context_destroy vtable c) in *.
  fold c' in Hc', Hno. assert (Hz : ctx_count c' = 0).
  { rewrite (ok_count _ Hc'). apply count_none. intros k _. by apply absent_present. }
  split; [done|]. split; [by rewrite (ok_factory _ Hc'), Hz|].
  intros i j. destruct (matrix c' i j) eqn:E; [|done]. by destruct (absent_ne _ i _ _ Hc' (Hno i) E).
Qed.

End Engine.

(** ** Two RTP terminations that two recognizers hear *)

(** The RTP terminations receive, the terminations of the engines send. *)
Definition sample_terminations (t : mpf_termination) : mpf_termination_t (option Z) :=
  mk_termination 0 (match t with TRtp _ => Some STREAM_DIRECTION_RECEIVE | TEngine _ => Some STREAM_DIRECTION_SEND end).
Definition sample_vtable (t : mpf_termination) : mpf_termination_vtable_t (option Z) := mk_vtable None None None.
Definition sample_context : mpf_context_t (option Z) := mpf_context_create 5 sample_terminations.
Definition sample_graph : media_graph (option Z) := mk_graph 5 ∅ ∅ (λ t, streams (sample_terminations t)).

Definition sample_requests : list mpf_message_t :=
  [MPF_RESET_ASSOCIATIONS; MPF_ADD_TERMINATION (TRtp 0) None; MPF_ADD_TERMINATION (TRtp 1) None;
   MPF_ADD_TERMINATION (TEngine 0) None; MPF_ADD_TERMINATION (TEngine 1) None;
   MPF_ADD_ASSOCIATION (TRtp 0) (Some (TEngine 0)); MPF_ADD_ASSOCIATION (TRtp 0) (Some (TEngine 1));
   MPF_ADD_ASSOCIATION (TRtp 1) (Some (TEngine 0)); MPF_ADD_ASSOCIATION (TRtp 1) (Some (TEngine 1))].

Lemma sample_given : Forall association_given sample_requests.
Proof. repeat constructor; by eexists. Qed.
Lemma sample_ok : context_ok sample_context.
Proof. apply context_ok_create. lia. Qed.
Lemma sample_simulates : simulates sample_context sample_graph.
Proof.
  split; try done; [apply sample_ok|..]; simpl.
  - intros t. split; [set_solver|]. by intros [i Hi].
  - intros t u. split; [set_solver|]. by intros (i & j & Hi & _).
Qed.

Lemma engine_answers_session_witness :
  ∃ c' rs, mpf_engine_msg_process id sample_vtable (λ _ _, true) sample_context sample_requests = Ok (c', rs) ∧
    context_ok c' ∧
    allowed (EReply 0 (RMpf rs.*1)) ((mrcp_server_session_create, [QMpf sample_requests]) : @session_system unit).
Proof. apply (engine_answers_session id sample_vtable (λ _ _, true)); [apply sample_ok|apply sample_given|reflexivity]. Defined.

(** A termination is subtracted, and one that is not there. *)
Definition sample_changes : list mpf_message_t :=
  sample_requests ++ [MPF_SUBTRACT_TERMINATION (TRtp 1); MPF_SUBTRACT_TERMINATION (TRtp 1);
                      MPF_REMOVE_ASSOCIATION (TEngine 1) (Some (TRtp 0)); MPF_APPLY_TOPOLOGY].
Definition sample_result : media_graph (option Z) :=
  default sample_graph (fst <$> graph_run id sample_vtable sample_graph sample_changes).

Lemma engine_refines_graph_witness :
  (arcs sample_result = {[(TRtp 0, TEngine 0)]} ∧ nodes sample_result = {[TRtp 0; TEngine 0; TEngine 1]}) ∧
  ∃ c' rs, mpf_engine_msg_process id sample_vtable (λ _ _, true) sample_context sample_changes = Ok (c', rs) ∧
    rs.*2 = [true; true; true; true; true; true; true; true; true; true; false; true; true] ∧ simulates c' sample_result.
Proof.
  split; [split; vm_compute; reflexivity|].
  apply (engine_refines_graph id sample_vtable (λ _ _, true) sample_context sample_graph); [apply sample_simulates|].
  vm_compute. reflexivity.
Defined.

(** The context before its topology is applied. *)
Definition sample_mesh : mpf_context_t (option Z) :=
  match mpf_engine_msg_process id sample_vtable (λ _ _, true) sample_context sample_requests with
  | Ok (c, _) => c
  | Fault => sample_context
  end.

Lemma sample_mesh_ok : context_ok sample_mesh.
Proof.
  destruct (container_answered id sample_vtable (λ _ _, true) _ _ sample_ok sample_given) as (c & rs & H & Hc & _).
  unfold sample_mesh. by rewrite H.
Qed.

(** The termination at the first place is to be carried to the third twice, but
    no mixer can be made. *)
Definition no_mixer (_ : mpf_context_t (option Z)) (x : mpf_object_t) : bool :=
  match x with Mixer _ _ => false | _ => true end.

Lemma topology_carries_associations_witness :
  ∃ want l, mpf_context_topology_apply no_mixer sample_mesh = Ok (sample_mesh <| mpf_objects := l |>) ∧
    carriers want 0 2 = 2 ∧ carriers want 2 0 = 0 ∧ l `sublist_of` want.
Proof.
  destruct (@topology_carries_associations _ no_mixer written (loud_streams 20000) (loud_filling 20000) sample_mesh [])
    as (want & l & Hl & Hc & _ & Hs & _); [apply sample_mesh_ok|].
  exists want, l. split; [exact Hl|]. split; [rewrite Hc; vm_compute; reflexivity|].
  split; [rewrite Hc; vm_compute; reflexivity|exact Hs].
Defined.
