(* ===== verification/RecogMachine.v ===== *)
(** * RecogMachine: the recognizer state machine
    ([mrcp_recog_state_machine.c]).

    The messages are values: the machine does not change a request after it
    has stored it in [active_request], [recog] or the queue. *)
From S2P Require Import Prelude CString StringTable TextStream StartLine HeaderSection.
From S2P Require Import TextMessage GenericHeader MrcpMessage StateMachine.

Inductive mrcp_recog_state_e :=
  | RECOGNIZER_STATE_IDLE
  | RECOGNIZER_STATE_RECOGNIZING
  | RECOGNIZER_STATE_RECOGNIZED.

#[export] Instance mrcp_recog_state_e_eq_dec : EqDecision mrcp_recog_state_e.
Proof. solve_decision. Defined.

(** Methods and events, by number. *)
Notation RECOGNIZER_RECOGNIZE := 3 (only parsing).
Notation RECOGNIZER_STOP := 7 (only parsing).
Notation RECOGNIZER_METHOD_COUNT := 13 (only parsing).
Notation RECOGNIZER_EVENT_COUNT := 3 (only parsing).

Notation RECOGNIZER_HEADER_COMPLETION_CAUSE := 7 (only parsing).
Notation RECOGNIZER_COMPLETION_CAUSE_SUCCESS := 0 (only parsing).

Record mrcp_recog_state_machine_t (R : Type) := mk_recog {
  active : bool;
  state : mrcp_recog_state_e;
  is_pending : bool;
  active_request : option (@mrcp_message_t R);
  recog : option (@mrcp_message_t R);
  queue : list (@mrcp_message_t R);
  properties : @mrcp_message_header_t R
}.
Arguments mk_recog {R}.
Arguments active {R}.
Arguments state {R}.
Arguments is_pending {R}.
Arguments active_request {R}.
Arguments recog {R}.
Arguments queue {R}.
Arguments properties {R}.

Section Recog.
  Context `{AprFormat} {R : Type} `{CompletionCause R} (fresh : apt_pair_t) (uninit : nat).
  Notation machine := (mrcp_recog_state_machine_t R).
  Notation M := (sm R machine).

Definition set_recog_active (b : bool) (s : machine) : machine :=
  mk_recog b (state s) (is_pending s) (active_request s) (recog s) (queue s) (properties s).
Definition set_state (x : mrcp_recog_state_e) (s : machine) : machine :=
  mk_recog (active s) x (is_pending s) (active_request s) (recog s) (queue s) (properties s).
Definition set_is_pending (b : bool) (s : machine) : machine :=
  mk_recog (active s) (state s) b (active_request s) (recog s) (queue s) (properties s).
Definition set_active_request (m : option mrcp_message_t) (s : machine) : machine :=
  mk_recog (active s) (state s) (is_pending s) m (recog s) (queue s) (properties s).
Definition set_recog (m : option mrcp_message_t) (s : machine) : machine :=
  mk_recog (active s) (state s) (is_pending s) (active_request s) m (queue s) (properties s).
Definition set_queue (q : list mrcp_message_t) (s : machine) : machine :=
  mk_recog (active s) (state s) (is_pending s) (active_request s) (recog s) q (properties s).
Definition set_properties (h : mrcp_message_header_t) (s : machine) : machine :=
  mk_recog (active s) (state s) (is_pending s) (active_request s) (recog s) (queue s) h.

Definition recog_request_dispatch (message : mrcp_message_t) : M bool :=
  modify (set_active_request (Some message));; on_dispatch message.

Definition recog_response_dispatch (message : mrcp_message_t) : M bool :=
  modify (set_active_request None);;
  is_active ← read active;
  if is_active : bool then on_dispatch message else on_deactivate.

Definition recog_event_dispatch (message : mrcp_message_t) : M bool :=
  is_active ← read active;
  if is_active : bool then on_dispatch message else mret false.

Definition recog_state_change (x : mrcp_recog_state_e) : M unit :=
  modify (set_state x);;
  if decide (x = RECOGNIZER_STATE_IDLE) then modify (set_recog None) else mret tt.

Definition recog_request_set_params (message : mrcp_message_t) : M bool :=
  props ← read properties;
  props ← lift (mrcp_header_fields_set props (header message));
  modify (set_properties props);;
  recog_request_dispatch message.

Definition recog_response_set_params : mrcp_message_t → M bool := recog_response_dispatch.

Definition recog_request_get_params : mrcp_message_t → M bool := recog_request_dispatch.

Definition recog_response_get_params (message : mrcp_message_t) : M bool :=
  props ← read properties;
  request ← read active_request;
  request ← lift (deref request);
  h ← lift (mrcp_header_fields_get (header message) props (header request));
  recog_response_dispatch (with_header message h).

Definition recog_request_define_grammar (message : mrcp_message_t) : M bool :=
  x ← read state;
  match x with
  | RECOGNIZER_STATE_RECOGNIZING =>
      recog_response_dispatch (not_valid_response fresh uninit message)
  | RECOGNIZER_STATE_RECOGNIZED =>
      recog_state_change RECOGNIZER_STATE_IDLE;; recog_request_dispatch message
  | RECOGNIZER_STATE_IDLE => recog_request_dispatch message
  end.

Definition recog_completion_cause (message : mrcp_message_t) : res mrcp_message_t :=
  completion_cause_default RECOGNIZER_HEADER_COMPLETION_CAUSE RECOGNIZER_COMPLETION_CAUSE_SUCCESS
    message.

Definition recog_response_define_grammar (message : mrcp_message_t) : M bool :=
  message ← lift (recog_completion_cause message);
  recog_response_dispatch message.

Definition recog_request_recognize (message : mrcp_message_t) : M bool :=
  props ← read properties;
  let message := with_header message (mrcp_header_fields_inherit (header message) props) in
  x ← read state;
  if decide (x = RECOGNIZER_STATE_RECOGNIZING) then
    let message := set_message_state message MRCP_REQUEST_STATE_PENDING in
    q ← read queue;
    modify (set_queue (apt_list_push_back q message));;
    recog_response_dispatch
      (set_message_state (mrcp_response_create fresh uninit (Some message))
         MRCP_REQUEST_STATE_PENDING)
  else recog_request_dispatch message.

Definition recog_response_recognize (message : mrcp_message_t) : M bool :=
  (if decide (request_state (start_line message) = MRCP_REQUEST_STATE_INPROGRESS) then
     request ← read active_request;
     modify (set_recog request);;
     recog_state_change RECOGNIZER_STATE_RECOGNIZING
   else mret tt);;
  pending ← read is_pending;
  if pending : bool then modify (set_is_pending false);; mret true
  else recog_response_dispatch message.

Definition recog_request_interpret (message : mrcp_message_t) : M bool :=
  props ← read properties;
  recog_request_dispatch
    (with_header message (mrcp_header_fields_inherit (header message) props)).

Definition recog_response_interpret : mrcp_message_t → M bool := recog_response_dispatch.

Definition recog_request_get_result (message : mrcp_message_t) : M bool :=
  x ← read state;
  if decide (x = RECOGNIZER_STATE_RECOGNIZED) then recog_request_dispatch message
  else recog_response_dispatch (not_valid_response fresh uninit message).

Definition recog_response_get_result : mrcp_message_t → M bool := recog_response_dispatch.

Definition recog_request_recognition_start_timers (message : mrcp_message_t) : M bool :=
  x ← read state;
  if decide (x = RECOGNIZER_STATE_RECOGNIZING) then recog_request_dispatch message
  else recog_response_dispatch (not_valid_response fresh uninit message).

Definition recog_response_recognition_start_timers : mrcp_message_t → M bool :=
  recog_response_dispatch.

(** The response with the identifiers of the removed requests. *)
Definition recog_pending_requests_remove (request response : mrcp_message_t) : M mrcp_message_t :=
  q ← read queue;
  '(q, response) ← lift (pending_requests_remove q request response);
  modify (set_queue q);;
  mret response.

(** The immediate response to STOP. *)
Definition recog_stop_response (message : mrcp_message_t) : M bool :=
  response ← recog_pending_requests_remove message (mrcp_response_create fresh uninit (Some message));
  recog_response_dispatch response.

Definition recog_request_stop (message : mrcp_message_t) : M bool :=
  x ← read state;
  match x with
  | RECOGNIZER_STATE_RECOGNIZING =>
      current ← read recog;
      found ← match selective_ids message with
              | None => mret true
              | ids => current ← lift (deref current);
                       mret (stop_selects ids (request_id (start_line current)))
              end;
      if found : bool then recog_request_dispatch message else recog_stop_response message
  | RECOGNIZER_STATE_RECOGNIZED =>
      recog_state_change RECOGNIZER_STATE_IDLE;; recog_stop_response message
  | RECOGNIZER_STATE_IDLE => recog_stop_response message
  end.

(** Hand the first pending request, if any, to the engine. *)
Definition recog_pending_start (pending : option mrcp_message_t) : M bool :=
  match pending with
  | Some request => modify (set_is_pending true);; recog_request_dispatch request;; mret true
  | None => mret true
  end.

Definition recog_response_stop (message : mrcp_message_t) : M bool :=
  let message := mrcp_generic_header_prepare message in
  current ← read recog;
  current ← lift (deref current);
  message ← lift (message_id_append message (request_id (start_line current)));
  '(_, message) ← lift (mrcp_generic_header_property_add message
                          (generic_header_num GENERIC_HEADER_ACTIVE_REQUEST_ID_LIST));
  request ← read active_request;
  request ← lift (deref request);
  message ← recog_pending_requests_remove request message;
  recog_state_change RECOGNIZER_STATE_IDLE;;
  q ← read queue;
  let '(pending, q) := apt_list_pop_front q in
  modify (set_queue q);;
  recog_response_dispatch message;;
  recog_pending_start pending.

Definition recog_event_start_of_input (message : mrcp_message_t) : M bool :=
  current ← read recog;
  match current with
  | None => mret false
  | Some current =>
      if decide (request_id (start_line current) ≠ request_id (start_line message))
      then mret false
      else recog_event_dispatch (set_message_state message MRCP_REQUEST_STATE_INPROGRESS)
  end.

Definition recog_event_recognition_complete (message : mrcp_message_t) : M bool :=
  current ← read recog;
  match current with
  | None => mret false
  | Some current =>
      if decide (request_id (start_line current) ≠ request_id (start_line message))
      then mret false
      else
        request ← read active_request;
        if decide (method_id ∘ start_line <$> request = Some RECOGNIZER_STOP) then mret false
        else
          message ← lift (recog_completion_cause message);
          recog_state_change RECOGNIZER_STATE_RECOGNIZED;;
          recog_event_dispatch message;;
          q ← read queue;
          let '(pending, q) := apt_list_pop_front q in
          modify (set_queue q);;
          recog_pending_start pending
  end.

Definition recog_event_interpretation_complete (message : mrcp_message_t) : M bool :=
  message ← lift (recog_completion_cause message);
  recog_event_dispatch message.

(** The method arrays; the entries past the listed ones are NULL. *)
Definition recog_request_method_array : list (mrcp_message_t → M bool) :=
  [recog_request_set_params; recog_request_get_params; recog_request_define_grammar;
   recog_request_recognize; recog_request_interpret; recog_request_get_result;
   recog_request_recognition_start_timers; recog_request_stop].

Definition recog_response_method_array : list (mrcp_message_t → M bool) :=
  [recog_response_set_params; recog_response_get_params; recog_response_define_grammar;
   recog_response_recognize; recog_response_interpret; recog_response_get_result;
   recog_response_recognition_start_timers; recog_response_stop].

Definition recog_event_method_array : list (mrcp_message_t → M bool) :=
  [recog_event_start_of_input; recog_event_recognition_complete;
   recog_event_interpretation_complete].

Definition recog_request_state_update (message : mrcp_message_t) : M bool :=
  if decide (RECOGNIZER_METHOD_COUNT ≤ method_id (start_line message)) then mret false
  else
    match recog_request_method_array !! method_id (start_line message) with
    | Some method => method message
    | None => recog_request_dispatch message
    end.

Definition recog_response_state_update (message : mrcp_message_t) : M bool :=
  request ← read active_request;
  match request with
  | None => mret false
  | Some request =>
      if decide (request_id (start_line request) ≠ request_id (start_line message))
      then mret false
      else if decide (RECOGNIZER_METHOD_COUNT ≤ method_id (start_line message)) then mret false
      else
        match recog_response_method_array !! method_id (start_line message) with
        | Some method => method message
        | None => recog_response_dispatch message
        end
  end.

Definition recog_event_state_update (message : mrcp_message_t) : M bool :=
  if decide (RECOGNIZER_EVENT_COUNT ≤ method_id (start_line message)) then mret false
  else
    match recog_event_method_array !! method_id (start_line message) with
    | Some method => method message
    | None => recog_event_dispatch message
    end.

Definition recog_state_update (message : mrcp_message_t) : M bool :=
  match message_type (start_line message) with
  | MRCP_MESSAGE_TYPE_REQUEST => recog_request_state_update message
  | MRCP_MESSAGE_TYPE_RESPONSE => recog_response_state_update message
  | MRCP_MESSAGE_TYPE_EVENT => recog_event_state_update message
  | MRCP_MESSAGE_TYPE_UNKNOWN => mret false
  end.

Definition recog_state_deactivate : M bool :=
  x ← read state;
  if decide (x ≠ RECOGNIZER_STATE_RECOGNIZING) then mret false
  else
    source ← read recog;
    match source with
    | None => mret false
    | Some source => recog_request_dispatch (deactivate_request fresh uninit RECOGNIZER_STOP source)
    end.

Definition recog_machine : StateMachine R machine := {|
  set_active := set_recog_active;
  update := recog_state_update;
  deactivate := recog_state_deactivate
|}.

Definition mrcp_recog_state_machine_create (rvt : mrcp_header_vtable_t R) (v : mrcp_version_e)
    : machine :=
  mk_recog true RECOGNIZER_STATE_IDLE false None None apt_list_create
    (mrcp_message_header_create (mrcp_generic_header_vtable_get fresh v) rvt).

End Recog.
