(* ===== verification/RecogMachineTheory.v ===== *)
(** * RecogMachineTheory: the recognizer state machine is memory-safe with a
    conforming engine, and how it queues, starts and stops requests. *)
From S2P Require Import Prelude CString StringTable TextStream StartLine HeaderSection.
From S2P Require Import TextMessage GenericHeader MrcpMessage StateMachine StateMachineTheory RecogMachine.

Section Recog.
  Context `{AprFormat} {R : Type} `{CompletionCause R} (fresh : apt_pair_t) (uninit : nat).
  Notation machine := (mrcp_recog_state_machine_t R).

(** The invariant: stored messages are well formed, the queue holds RECOGNIZE
    requests, and there is an in-progress request while the machine recognizes
    and while it waits for the response to STOP. *)
Record recog_core (s : machine) : Prop := {
  rc_properties : header_ok (properties s);
  rc_queue : Forall (λ m, message_ok m ∧ method_id (start_line m) = RECOGNIZER_RECOGNIZE) (queue s);
  rc_recog : from_option message_ok True (recog s);
  rc_recognizing : state s = RECOGNIZER_STATE_RECOGNIZING → is_Some (recog s)
}.

Record recog_inv (s : machine) : Prop := {
  ri_core : recog_core s;
  ri_active : from_option (λ m, message_ok m ∧
    (method_id (start_line m) = RECOGNIZER_STOP → is_Some (recog s))) True (active_request s)
}.

(** Messages are well formed, and an engine answers a request with a response
    to its method, as [mrcp_response_create] makes it. *)
Definition recog_accepts (s : machine) (i : input R) : Prop :=
  match i with
  | Deactivate => True
  | Update m => message_ok m ∧
      (message_type (start_line m) = MRCP_MESSAGE_TYPE_RESPONSE →
       ∀ a, active_request s = Some a →
       request_id (start_line a) = request_id (start_line m) →
       method_id (start_line m) = method_id (start_line a))
  end.

Notation keeps c s := (ends c s (λ _ s' _, recog_inv s')).

(** What a client sees of a request [m]: it is handed to the engine, or
    answered at once with a response; a machine that is being deactivated
    reports that instead. *)
Definition outcome (m : @mrcp_message_t R) (is_active b : bool) (s' : machine)
    (o : list (action R)) : Prop :=
  b = true ∧ active s' = is_active ∧
  ((∃ x, o = [Dispatch x] ∧ about m x MRCP_MESSAGE_TYPE_REQUEST ∧ active_request s' = Some x) ∨
   (∃ x, o = [if is_active then Dispatch x else Deactivated] ∧
      about m x MRCP_MESSAGE_TYPE_RESPONSE ∧ active_request s' = None)).

Notation answers m b c s := (ends c s (λ r s' o, recog_inv s' ∧ outcome m b r s' o)).

(** *** Dispatching *)

Lemma recog_request_dispatch_ends (m : mrcp_message_t) (s : machine)
    (Q : bool → machine → list (action R) → Prop) :
  recog_core s → message_ok m →
  (method_id (start_line m) = RECOGNIZER_STOP → is_Some (recog s)) →
  (recog_inv (set_active_request (Some m) s) →
     Q true (set_active_request (Some m) s) [Dispatch m]) →
  ends (recog_request_dispatch m) s Q.
Proof.
  intros [] Hm Hstop HQ. unfold recog_request_dispatch. sm_run. apply HQ. by split.
Qed.

Lemma recog_response_dispatch_ends (m : mrcp_message_t) (s : machine)
    (Q : bool → machine → list (action R) → Prop) :
  recog_core s →
  (recog_inv (set_active_request None s) →
     Q true (set_active_request None s) [if active s then Dispatch m else Deactivated]) →
  ends (recog_response_dispatch m) s Q.
Proof.
  intros [] HQ. unfold recog_response_dispatch. sm_run. simpl.
  destruct (active s); sm_run; apply HQ; by split.
Qed.

Lemma response_dispatch_keeps (m : mrcp_message_t) (s : machine) :
  recog_core s → keeps (recog_response_dispatch m) s.
Proof. intros Hc. by apply recog_response_dispatch_ends. Qed.

Lemma recog_event_dispatch_ends (m : mrcp_message_t) (s : machine)
    (Q : bool → machine → list (action R) → Prop) :
  Q (active s) s (if active s then [Dispatch m] else []) → ends (recog_event_dispatch m) s Q.
Proof. intros HQ. unfold recog_event_dispatch. sm_run. destruct (active s); by sm_run. Qed.

Lemma event_dispatch_keeps (m : mrcp_message_t) (s : machine) :
  recog_inv s → keeps (recog_event_dispatch m) s.
Proof. intros Hs. by apply recog_event_dispatch_ends. Qed.

Lemma recog_idle_core (s : machine) (Q : unit → machine → list (action R) → Prop) :
  recog_core s →
  (∀ s', recog_core s' → s' = set_recog None (set_state RECOGNIZER_STATE_IDLE s) → Q tt s' []) →
  ends (recog_state_change RECOGNIZER_STATE_IDLE) s Q.
Proof.
  intros [] HQ. unfold recog_state_change. sm_run. by apply HQ.
Qed.

Lemma recog_change_ends (x : mrcp_recog_state_e) (s : machine) (Q : unit → machine → list (action R) → Prop) :
  x ≠ RECOGNIZER_STATE_IDLE → Q tt (set_state x s) [] → ends (recog_state_change x) s Q.
Proof.
  intros Hx HQ. unfold recog_state_change. sm_run. rewrite decide_False by done. by sm_run.
Qed.

(** *** Requests *)

#[local] Opaque recog_request_dispatch recog_response_dispatch recog_event_dispatch
  recog_state_change.

Lemma recog_forward_answers (m x : mrcp_message_t) (s : machine) :
  recog_core s → message_ok x → about m x MRCP_MESSAGE_TYPE_REQUEST →
  (method_id (start_line m) = RECOGNIZER_STOP → is_Some (recog s)) →
  answers m (active s) (recog_request_dispatch x) s.
Proof.
  intros Hc Hx Hab Hstop. apply recog_request_dispatch_ends; [done..| |].
  - destruct Hab as (_ & -> & _). done.
  - intros Hi. split; [done|]. split_and!; [done..|]. left. by exists x.
Qed.

Lemma recog_response_answers (m x : mrcp_message_t) (s : machine) :
  recog_core s → about m x MRCP_MESSAGE_TYPE_RESPONSE →
  answers m (active s) (recog_response_dispatch x) s.
Proof.
  intros Hc Hab. apply recog_response_dispatch_ends; [done|].
  intros Hi. split; [done|]. split_and!; [done..|]. right. by exists x.
Qed.

Lemma recog_not_valid_answers (m : mrcp_message_t) (s : machine) :
  recog_core s → message_ok m →
  answers m (active s) (recog_response_dispatch (not_valid_response fresh uninit m)) s.
Proof.
  intros Hc Hm. apply recog_response_answers; [done|]. by eapply (response_about fresh uninit).
Qed.

Lemma recog_inherit_ok (m : mrcp_message_t) (s : machine) :
  recog_core s → message_ok m →
  message_ok (with_header m (mrcp_header_fields_inherit (header m) (properties s))).
Proof.
  intros [] Hm. apply with_header_ok; [done|]. apply fields_inherit_ok; [apply Hm|done].
Qed.

Lemma recog_stop_response_answers (m : mrcp_message_t) (s : machine) :
  recog_core s → message_ok m →
  answers m (active s) (recog_stop_response fresh uninit m) s.
Proof.
  intros Hc Hm. unfold recog_stop_response, recog_pending_requests_remove. sm_run.
  destruct (response_create_ok fresh uninit m Hm) as (Hr & H1 & H2 & H3).
  destruct (pending_requests_remove_ok (queue s) m _ Hr) as (r & E & Hr' & Hl).
  eapply ends_lift; [exact E|]. simpl. sm_run.
  match goal with |- ends _ ?x _ => apply (recog_response_answers m r x) end.
  - destruct Hc. split; try done. simpl. by apply filter_Forall.
  - unfold about. by rewrite Hl.
Qed.

Lemma recognize_request_answers (m : mrcp_message_t) (s : machine) :
  recog_core s → message_ok m → method_id (start_line m) = RECOGNIZER_RECOGNIZE →
  message_type (start_line m) = MRCP_MESSAGE_TYPE_REQUEST →
  answers m (active s) (recog_request_recognize fresh uninit m) s.
Proof.
  intros Hc Hm Hmid Ht. pose proof (recog_inherit_ok m s Hc Hm) as Hi.
  unfold recog_request_recognize. sm_run. case_decide as Hst.
  - sm_run. match goal with |- ends (recog_response_dispatch ?x) ?s _ =>
      apply (recog_response_answers m x s) end.
    + destruct Hc. split; try done. simpl. apply Forall_app. split; [done|].
      apply Forall_singleton. split; [by apply with_line_ok|done].
    + match goal with |- context [mrcp_response_create fresh uninit (Some ?x)] =>
        destruct (response_create_ok fresh uninit x) as (_ & H1 & H2 & H3);
          [by apply with_line_ok|] end. done.
  - apply recog_forward_answers; [done..|]. by rewrite Hmid.
Qed.

Lemma stop_request_answers (m : mrcp_message_t) (s : machine) :
  recog_core s → message_ok m → message_type (start_line m) = MRCP_MESSAGE_TYPE_REQUEST →
  answers m (active s) (recog_request_stop fresh uninit m) s.
Proof.
  intros Hc Hm Ht. unfold recog_request_stop. sm_run. destruct (state s) eqn:Hst.
  - by apply recog_stop_response_answers.
  - pose proof Hc as [_ _ _ Hr]. destruct (Hr Hst) as [current Hcur]. sm_run.
    assert (∀ b, answers m (active s) (if b : bool then recog_request_dispatch m
                        else recog_stop_response fresh uninit m) s) as Hb.
    { intros []; [|by apply recog_stop_response_answers]. apply recog_forward_answers; [done..|].
      intros _. by eexists. }
    destruct (selective_ids m); sm_run; [|exact (Hb true)].
    rewrite Hcur. eapply ends_lift; [done|]. sm_run. apply Hb.
  - sm_run. apply recog_idle_core; [done|]. intros s' Hs' Hs. replace (active s) with (active s') by (by subst).
    by apply recog_stop_response_answers.
Qed.

Lemma recog_request_answers (m : mrcp_message_t) (s : machine) :
  recog_inv s → message_ok m → message_type (start_line m) = MRCP_MESSAGE_TYPE_REQUEST →
  method_id (start_line m) < RECOGNIZER_METHOD_COUNT →
  answers m (active s) (recog_request_state_update fresh uninit m) s.
Proof.
  intros [Hc Ha] Hm Ht Hlt. unfold recog_request_state_update. rewrite decide_False by lia.
  assert (about m m MRCP_MESSAGE_TYPE_REQUEST) as Hab by done.
  destruct (method_id (start_line m)) as [|[|[|[|[|[|[|[|n]]]]]]]] eqn:Hmid; simpl.
  - unfold recog_request_set_params. sm_run.
    destruct (fields_set_ok (properties s) (header m)) as (h & E & Hh); [apply Hc|apply Hm|].
    eapply ends_lift; [exact E|]. sm_run.
    match goal with |- ends _ ?x _ => apply (recog_forward_answers m m x) end; [|done..|by rewrite Hmid].
    destruct Hc. by split.
  - apply recog_forward_answers; [done..|by rewrite Hmid].
  - unfold recog_request_define_grammar. sm_run. destruct (state s).
    + apply recog_forward_answers; [done..|by rewrite Hmid].
    + by apply recog_not_valid_answers.
    + sm_run. apply recog_idle_core; [done|]. intros s' Hs' Hs.
      replace (active s) with (active s') by (by subst).
      apply recog_forward_answers; [done..|by rewrite Hmid].
  - by apply recognize_request_answers.
  - unfold recog_request_interpret. sm_run.
    apply recog_forward_answers; [done|by apply recog_inherit_ok|done|]. by rewrite Hmid.
  - unfold recog_request_get_result. sm_run. case_decide; [|by apply recog_not_valid_answers].
    apply recog_forward_answers; [done..|by rewrite Hmid].
  - unfold recog_request_recognition_start_timers. sm_run.
    case_decide; [|by apply recog_not_valid_answers].
    apply recog_forward_answers; [done..|by rewrite Hmid].
  - by apply stop_request_answers.
  - apply recog_forward_answers; [done..|]. by rewrite Hmid.
Qed.

(** *** Responses *)

Definition pending_ok (p : option (@mrcp_message_t R)) : Prop :=
  from_option (λ m, message_ok m ∧ method_id (start_line m) = RECOGNIZER_RECOGNIZE) True p.

Lemma recog_pop_core (s : machine) :
  recog_core s → recog_core (set_queue (tail (queue s)) s) ∧ pending_ok (head (queue s)).
Proof.
  intros [? Hq ? ?]. destruct (queue s) as [|m ms] eqn:E; simpl; [by split; [split|]|].
  apply Forall_cons in Hq as [??]. by split; [split|].
Qed.

Lemma recog_pending_start_ends (s : machine) (p : option mrcp_message_t)
    (Q : bool → machine → list (action R) → Prop) :
  recog_inv s → pending_ok p →
  (∀ s', recog_inv s' → state s' = state s → queue s' = queue s → Q true s' (pending_actions p)) →
  ends (recog_pending_start p) s Q.
Proof.
  intros Hs Hp HQ. destruct p as [m|]; simpl; [|sm_run; by apply HQ]. destruct Hp as [Hm Hmid].
  sm_run. apply recog_request_dispatch_ends; [by destruct Hs as [[] _]|done|by rewrite Hmid|].
  intros Hi. sm_run. by apply HQ.
Qed.

Lemma recog_stop_response_ends (m a : mrcp_message_t) (s : machine) :
  recog_inv s → message_ok m → active_request s = Some a →
  method_id (start_line a) = RECOGNIZER_STOP →
  ends (recog_response_stop m) s (λ b s' o, recog_inv s' ∧ b = true ∧
    state s' = RECOGNIZER_STATE_IDLE ∧ queue s' = tail (unselected a (queue s)) ∧
    ∃ r, start_line r = start_line m ∧
      o = (if active s then Dispatch r else Deactivated) ::
          pending_actions (head (unselected a (queue s)))).
Proof.
  intros [Hc Ha] Hm Hact Hstop. rewrite Hact in Ha. destruct Ha as [Hma Hcur].
  destruct (Hcur Hstop) as [current Hrec]. unfold recog_response_stop.
  rewrite generic_prepare_id by done. sm_run. rewrite Hrec. eapply ends_lift; [done|].
  sm_run. destruct (id_append_ok m (request_id (start_line current)) Hm) as (m1 & E1 & H1 & L1).
  eapply ends_lift; [exact E1|]. sm_run.
  destruct (generic_property_add_ok m1 (generic_header_num GENERIC_HEADER_ACTIVE_REQUEST_ID_LIST) H1)
    as (b & m2 & E2 & H2 & L2); [done|].
  eapply ends_lift; [exact E2|]. simpl. sm_run. rewrite Hact. eapply ends_lift; [done|].
  unfold recog_pending_requests_remove. sm_run.
  destruct (pending_requests_remove_ok (queue s) a m2 H2) as (m3 & E3 & H3 & L3).
  eapply ends_lift; [exact E3|]. simpl. sm_run. apply recog_idle_core.
  { destruct Hc. split; try done. simpl. by apply filter_Forall. }
  intros s1 Hs1 Heq. sm_run. rewrite pop_front_eq.
  destruct (recog_pop_core s1 Hs1) as [Hs2 Hpm]. sm_run. apply recog_response_dispatch_ends; [done|].
  intros Hi. apply recog_pending_start_ends; [done..|]. intros s' Hs' Hst Hq.
  subst s1. simpl in *. split_and!; try done. exists m3. by rewrite L3, L2, L1.
Qed.

Lemma recognize_response_keeps (m a : mrcp_message_t) (s : machine) :
  recog_inv s → active_request s = Some a → method_id (start_line a) = RECOGNIZER_RECOGNIZE →
  keeps (recog_response_recognize m) s.
Proof.
  intros Hs Hact Hmid. pose proof Hs as [Hc Ha]. unfold recog_response_recognize. apply ends_bind.
  assert (∀ s', recog_inv s' → keeps (is_pending' ← read is_pending;
    if is_pending' : bool then modify (set_is_pending false);; mret true
    else recog_response_dispatch m) s') as Hrest.
  { intros s' Hs'. sm_run. destruct (is_pending s'); [|apply response_dispatch_keeps, Hs'].
    sm_run. by destruct Hs' as [[] ?]. }
  case_decide; [|by apply ends_ret, Hrest].
  sm_run. rewrite Hact in Ha. destruct Ha as [Hma _].
  apply recog_change_ends; [done|]. apply Hrest. destruct Hc.
  split; [split; try done|]; simpl; by rewrite ?Hact.
Qed.

Lemma recog_response_keeps (m : mrcp_message_t) (s : machine) :
  recog_inv s → message_ok m →
  (∀ a, active_request s = Some a → request_id (start_line a) = request_id (start_line m) →
     method_id (start_line m) = method_id (start_line a)) →
  keeps (recog_response_state_update m) s.
Proof.
  intros Hs Hm Hconf. pose proof Hs as [Hc Ha]. unfold recog_response_state_update. sm_run.
  destruct (active_request s) as [a|] eqn:Hact; [|by sm_run].
  case_decide as Hid; [by sm_run|].
  specialize (Hconf a eq_refl Hid). case_decide; [by sm_run|].
  destruct (method_id (start_line m)) as [|[|[|[|[|[|[|[|n]]]]]]]] eqn:Hmid; simpl;
    try by apply response_dispatch_keeps.
  - unfold recog_response_get_params. sm_run. rewrite Hact. eapply ends_lift; [done|]. sm_run.
    destruct (fields_get_ok (header m) (properties s) (header a)) as (h & E & Hh);
      [apply Hm|apply Hc|apply Ha|].
    eapply ends_lift; [exact E|]. by apply response_dispatch_keeps.
  - unfold recog_response_define_grammar. sm_run.
    destruct (completion_cause_ok RECOGNIZER_HEADER_COMPLETION_CAUSE
      RECOGNIZER_COMPLETION_CAUSE_SUCCESS m Hm) as (m' & E & _); [done|].
    eapply ends_lift; [exact E|]. by apply response_dispatch_keeps.
  - by eapply recognize_response_keeps.
  - eapply ends_weaken; [by apply (recog_stop_response_ends m a)|]. by intros b s' o [? _].
Qed.

(** *** Events *)

Lemma recog_complete_ends (m c : mrcp_message_t) (s : machine) :
  recog_inv s → message_ok m → recog s = Some c →
  request_id (start_line c) = request_id (start_line m) →
  method_id ∘ start_line <$> active_request s ≠ Some RECOGNIZER_STOP →
  ends (recog_event_recognition_complete m) s (λ b s' o, recog_inv s' ∧ b = true ∧
    state s' = RECOGNIZER_STATE_RECOGNIZED ∧ queue s' = tail (queue s) ∧
    ∃ e, start_line e = start_line m ∧
      o = (if active s then [Dispatch e] else []) ++ pending_actions (head (queue s))).
Proof.
  intros Hs Hm Hrec Hid Hstop.
  destruct (completion_cause_ok RECOGNIZER_HEADER_COMPLETION_CAUSE
    RECOGNIZER_COMPLETION_CAUSE_SUCCESS m Hm) as (m' & E & _ & L); [done|].
  unfold recog_event_recognition_complete. sm_run. rewrite Hrec.
  rewrite decide_False by (intros Hn; by apply Hn). sm_run. rewrite decide_False by done. sm_run.
  eapply ends_lift; [exact E|]. sm_run. apply recog_change_ends; [done|].
  set (s1 := set_state RECOGNIZER_STATE_RECOGNIZED s).
  assert (recog_inv s1) as Hs1 by (destruct Hs as [[] ?]; by split).
  destruct (recog_pop_core s1 (ri_core _ Hs1)) as [Hs2 Hpm].
  apply ends_bind, recog_event_dispatch_ends. sm_run. rewrite pop_front_eq. sm_run. apply recog_pending_start_ends; [|done|].
  { split; [done|]. apply Hs1. }
  intros s' Hs' Hst Hq. split_and!; try done. by exists m'.
Qed.

Lemma recog_event_keeps (m : mrcp_message_t) (s : machine) :
  recog_inv s → message_ok m → keeps (recog_event_state_update m) s.
Proof.
  intros Hs Hm. unfold recog_event_state_update. case_decide; [by sm_run|].
  destruct (completion_cause_ok RECOGNIZER_HEADER_COMPLETION_CAUSE
    RECOGNIZER_COMPLETION_CAUSE_SUCCESS m Hm) as (m' & E & _); [done|].
  destruct (method_id (start_line m)) as [|[|[|n]]]; simpl.
  - unfold recog_event_start_of_input. sm_run. destruct (recog s); [|by sm_run].
    case_decide; [by sm_run|by apply event_dispatch_keeps].
  - destruct (recog s) as [c|] eqn:Hrec;
      [|unfold recog_event_recognition_complete; sm_run; rewrite Hrec; by sm_run].
    destruct (decide (request_id (start_line c) = request_id (start_line m))) as [Hid|Hid];
      [destruct (decide (method_id ∘ start_line <$> active_request s = Some RECOGNIZER_STOP)) as [Hst|Hst]|].
    + unfold recog_event_recognition_complete. sm_run. rewrite Hrec.
      rewrite decide_False by (intros Hn; by apply Hn). sm_run. rewrite decide_True by done. by sm_run.
    + eapply ends_weaken; [by apply (recog_complete_ends m c)|]. by intros b s' o [? _].
    + unfold recog_event_recognition_complete. sm_run. rewrite Hrec.
      rewrite decide_True by done. by sm_run.
  - unfold recog_event_interpretation_complete. sm_run. eapply ends_lift; [exact E|].
    by apply event_dispatch_keeps.
  - by apply event_dispatch_keeps.
Qed.

(** *** Deactivation *)

Lemma recog_deactivate_keeps (s : machine) :
  recog_inv s → keeps (recog_state_deactivate fresh uninit) (set_recog_active false s).
Proof.
  intros Hs. assert (recog_inv (set_recog_active false s)) as Hs'
    by (destruct Hs as [[] ?]; split; [by split|done]). clear Hs.
  unfold recog_state_deactivate. sm_run. case_decide as Hst; [by sm_run|]. sm_run.
  destruct (recog (set_recog_active false s)) as [source|] eqn:Hr; [|by sm_run].
  apply recog_request_dispatch_ends; [by apply Hs'| |by intros _; rewrite Hr|done].
  apply deactivate_request_ok. destruct Hs' as [[_ _ Hm _] _]. by rewrite Hr in Hm.
Qed.

#[local] Instance recog_machine_here : StateMachine R machine := recog_machine fresh uninit.

Lemma recog_handle_safe (s : machine) (i : input R) :
  recog_inv s → recog_accepts s i → keeps (handle i) s.
Proof.
  intros Hs Hi. destruct i as [m|]; simpl in *.
  - destruct Hi as [Hm Hresp]. unfold mrcp_state_machine_update. simpl. unfold recog_state_update.
    destruct (message_type (start_line m)) eqn:Ht.
    + by sm_run.
    + destruct (decide (method_id (start_line m) < RECOGNIZER_METHOD_COUNT)) as [Hlt|Hge].
      * eapply ends_weaken; [by apply recog_request_answers|]. by intros b s' o [? _].
      * unfold recog_request_state_update. rewrite decide_True by lia. by sm_run.
    + apply recog_response_keeps; auto.
    + by apply recog_event_keeps.
  - unfold mrcp_state_machine_deactivate. apply ends_bind, ends_modify. by apply recog_deactivate_keeps.
Qed.

#[local] Instance recog_safe : SafeMachine R machine := {
  machine_inv := recog_inv;
  accepts := recog_accepts;
  handle_safe := recog_handle_safe
}.

Lemma recog_create_inv (rvt : mrcp_header_vtable_t R) (v : mrcp_version_e) :
  (Z.of_nat (field_count rvt) < 2 ^ 32)%Z →
  recog_inv (mrcp_recog_state_machine_create fresh rvt v).
Proof.
  intros Hr. split; [|done]. split; try done. simpl. by apply data_alloc_ok.
Qed.

(** C15: the recognizer state machine never dereferences a NULL pointer.  From
    its creation on, any sequence of well-formed client requests, responses
    and events of an engine that answers a request with its own method, and
    deactivations is handled to the end without a fault, and the invariant
    holds: there is an in-progress request whenever the machine is recognizing
    or waits for the response to STOP, and the queue holds RECOGNIZE requests
    only. *)
Theorem recog_never_faults (rvt : mrcp_header_vtable_t R) (v : mrcp_version_e)
  (ins : list (input R)) (Hr : (Z.of_nat (field_count rvt) < 2 ^ 32)%Z)
  (Hins : accepted (mrcp_recog_state_machine_create fresh rvt v) ins) :
  ∃ bs s o, run ins (mrcp_recog_state_machine_create fresh rvt v) = Ok (bs, s, o) ∧
    recog_inv s ∧ length bs = length ins.
Proof. exact (run_safe _ ins (recog_create_inv rvt v Hr) Hins). Qed.

(** C32: every client request gets one answer.  The recognizer hands a request
    to the engine, which then is the active request, or answers it at once
    with a response of the same request identifier and method; it does exactly
    one of the two, whatever its state. *)
Theorem recog_request_answered (m : mrcp_message_t) (s : machine)
  (Hs : recog_inv s) (Hact : active s = true) (Hm : message_ok m)
  (Ht : message_type (start_line m) = MRCP_MESSAGE_TYPE_REQUEST)
  (Hmid : method_id (start_line m) < RECOGNIZER_METHOD_COUNT) :
  ∃ s' x, recog_state_update fresh uninit m s = Ok (true, s', [Dispatch x]) ∧ recog_inv s' ∧
    request_id (start_line x) = request_id (start_line m) ∧
    method_id (start_line x) = method_id (start_line m) ∧
    ((message_type (start_line x) = MRCP_MESSAGE_TYPE_REQUEST ∧ active_request s' = Some x) ∨
     (message_type (start_line x) = MRCP_MESSAGE_TYPE_RESPONSE ∧ active_request s' = None)).
Proof.
  destruct (recog_request_answers m s Hs Hm Ht Hmid) as (b & s' & o & E & Hi & -> & _ & Hout).
  rewrite Hact in Hout. unfold recog_state_update. rewrite Ht, E.
  destruct Hout as [(x & -> & (? & ? & ?) & ?)|(x & -> & (? & ? & ?) & ?)];
    exists s', x; split_and!; auto.
Qed.

(** STOP ends the recognition, drops the pending requests it selects and
    starts the next one.  When the response to STOP arrives the machine is
    idle, the response goes to the client, exactly the pending requests named
    by the Active-Request-Id-List of the STOP request (all of them when it has
    none) are gone, and the first of the others is handed to the engine. *)
Theorem recog_stop_pending (m a : mrcp_message_t) (s : machine)
  (Hs : recog_inv s) (Hm : message_ok m) (Hactive : active s = true)
  (Hact : active_request s = Some a) (Hstop : method_id (start_line a) = RECOGNIZER_STOP)
  (Ht : message_type (start_line m) = MRCP_MESSAGE_TYPE_RESPONSE)
  (Hmid : method_id (start_line m) = RECOGNIZER_STOP)
  (Hid : request_id (start_line a) = request_id (start_line m)) :
  let kept := filter (λ p, stop_selects (selective_ids a) (request_id (start_line p)) = false)
                (queue s) in
  ∃ s' r, recog_state_update fresh uninit m s =
      Ok (true, s', Dispatch r :: pending_actions (head kept)) ∧
    start_line r = start_line m ∧ state s' = RECOGNIZER_STATE_IDLE ∧ queue s' = tail kept ∧
    recog_inv s'.
Proof.
  intros kept. pose proof (recog_stop_response_ends m a s Hs Hm Hact Hstop) as Hend.
  rewrite Hactive in Hend.
  assert (recog_state_update fresh uninit m s = recog_response_stop m s) as ->.
  { unfold recog_state_update. rewrite Ht. unfold recog_response_state_update.
    unfold mbind at 1, sm_bind at 1, read at 1. cbn [mbind res_bind]. rewrite Hact.
    rewrite decide_False by (intros Hn; by apply Hn). rewrite Hmid. simpl.
    by destruct (recog_response_stop m s) as [[[b s'] o]|]. }
  destruct Hend as (b & s' & o & -> & Hi & -> & Hst & Hq & r & Hr & ->).
  exists s', r. by split_and!.
Qed.

(** Pending requests are started in the order they came.  A
    RECOGNITION-COMPLETE event of the request in progress is passed to the
    client, and the first request of the queue, if any, is handed to the
    engine and leaves the queue. *)
Theorem recog_complete_starts_next (m c : mrcp_message_t) (s : machine)
  (Hs : recog_inv s) (Hm : message_ok m) (Hactive : active s = true) (Hrec : recog s = Some c)
  (Ht : message_type (start_line m) = MRCP_MESSAGE_TYPE_EVENT)
  (Hmid : method_id (start_line m) = 1)
  (Hid : request_id (start_line c) = request_id (start_line m))
  (Hstop : method_id ∘ start_line <$> active_request s ≠ Some RECOGNIZER_STOP) :
  ∃ s' e, recog_state_update fresh uninit m s =
      Ok (true, s', Dispatch e :: pending_actions (head (queue s))) ∧
    start_line e = start_line m ∧ state s' = RECOGNIZER_STATE_RECOGNIZED ∧
    queue s' = tail (queue s) ∧ recog_inv s'.
Proof.
  destruct (recog_complete_ends m c s Hs Hm Hrec Hid Hstop)
    as (b & s' & o & E & Hi & -> & Hst & Hq & e & He & ->). rewrite Hactive in E.
  exists s', e. unfold recog_state_update. rewrite Ht. unfold recog_event_state_update.
  rewrite Hmid. simpl. rewrite E. by split_and!.
Qed.

(** A RECOGNIZE request that overtakes a pending one is never answered.
    While the machine waits for the engine to start a request from the queue,
    it is not recognizing, so a new RECOGNIZE goes to the engine at once; the
    engine's response to it is then taken for the response to the pending
    request and is not passed to the client. *)
Theorem recog_overtaking_unanswered (m r : mrcp_message_t) (s : machine)
  (Hs : recog_inv s) (Hpending : is_pending s = true)
  (Hstate : state s ≠ RECOGNIZER_STATE_RECOGNIZING)
  (Hm : message_ok m) (Ht : message_type (start_line m) = MRCP_MESSAGE_TYPE_REQUEST)
  (Hmid : method_id (start_line m) = RECOGNIZER_RECOGNIZE)
  (Hr : message_type (start_line r) = MRCP_MESSAGE_TYPE_RESPONSE)
  (Hrmid : method_id (start_line r) = RECOGNIZER_RECOGNIZE)
  (Hid : request_id (start_line r) = request_id (start_line m)) :
  ∃ s' x, run [Update m; Update r] s = Ok ([true; true], s', [Dispatch x]) ∧
    message_type (start_line x) = MRCP_MESSAGE_TYPE_REQUEST ∧
    request_id (start_line x) = request_id (start_line m).
Proof.
  pose proof Hs as [Hc _].
  enough (ends (run [Update m; Update r]) s (λ bs _ o, bs = [true; true] ∧ ∃ x,
    o = [Dispatch x] ∧ message_type (start_line x) = MRCP_MESSAGE_TYPE_REQUEST ∧
    request_id (start_line x) = request_id (start_line m)))
    as (bs & s' & o & E & -> & x & -> & Hx) by (by exists s', x).
  cbn [run handle]. apply ends_bind. unfold mrcp_state_machine_update. simpl update.
  unfold recog_state_update at 1. rewrite Ht. unfold recog_request_state_update.
  rewrite Hmid. simpl. unfold recog_request_recognize. sm_run. rewrite decide_False by done.
  apply recog_request_dispatch_ends; [done|by apply recog_inherit_ok|by simpl; rewrite Hmid|]. intros _.
  apply ends_bind. unfold mrcp_state_machine_update. simpl update.
  unfold recog_state_update. rewrite Hr. unfold recog_response_state_update. sm_run. simpl.
  rewrite decide_False by (rewrite Hid; intros Hn; by apply Hn). rewrite Hrmid. simpl.
  unfold recog_response_recognize. apply ends_bind.
  assert (∀ s', is_pending s' = true → ends (p ← read is_pending;
    if p : bool then modify (set_is_pending false);; mret true else recog_response_dispatch r) s'
    (λ b _ o, b = true ∧ o = [])) as Hrest.
  { intros s' Hp. sm_run. rewrite Hp. by sm_run. }
  assert (ends (if decide (request_state (start_line r) = MRCP_REQUEST_STATE_INPROGRESS) then
     request ← read active_request;
     modify (set_recog request);; recog_state_change RECOGNIZER_STATE_RECOGNIZING
   else mret tt) (set_active_request (Some (with_header m
     (mrcp_header_fields_inherit (header m) (properties s)))) s)
   (λ _ s' o, is_pending s' = true ∧ o = [])) as (u & s1 & o1 & E1 & Hp1 & ->).
  { case_decide; sm_run; [by apply recog_change_ends|done]. }
  exists u, s1, []. split; [done|]. destruct (Hrest s1 Hp1) as (b & s2 & o2 & E2 & -> & ->).
  exists true, s2, []. split; [done|]. sm_run. split; [done|]. by eexists.
Qed.

End Recog.

(** ** Concrete runs *)

Definition recognizing : mrcp_recog_state_machine_t nat :=
  mk_recog true RECOGNIZER_STATE_RECOGNIZING false None (Some (request_of RECOGNIZER_RECOGNIZE 1))
    [request_of RECOGNIZER_RECOGNIZE 2; request_of RECOGNIZER_RECOGNIZE 3]
    (mrcp_message_header_create (mrcp_generic_header_vtable_get no_pair MRCP_VERSION_2) cause_vtable).

Lemma recognizing_inv : recog_inv recognizing.
Proof.
  split; [split|exact I].
  - by apply (data_alloc_ok no_pair mrcp_message_header_init cause_vtable MRCP_VERSION_2).
  - repeat (apply List.Forall_cons; [split; [apply request_of_ok|done]|]). apply List.Forall_nil.
  - apply request_of_ok.
  - intros _. by eexists.
Qed.

Lemma recog_request_answered_witness :
  ∃ s' x, recog_state_update no_pair 0 (request_of RECOGNIZER_RECOGNIZE 4) recognizing =
      Ok (true, s', [Dispatch x]) ∧ recog_inv s' ∧ request_id (start_line x) = 4%Z.
Proof.
  destruct (recog_request_answered no_pair 0 (request_of RECOGNIZER_RECOGNIZE 4) recognizing)
    as (s' & x & E & Hi & Hid & _).
  - apply recognizing_inv.
  - reflexivity.
  - apply request_of_ok.
  - reflexivity.
  - vm_compute. lia.
  - exists s', x. split; [exact E|]. split; [exact Hi|exact Hid].
Defined.

(** The machine while it waits for the response to the STOP request 9. *)
Definition stopping : mrcp_recog_state_machine_t nat :=
  set_active_request (Some (request_of RECOGNIZER_STOP 9)) recognizing.

Lemma stopping_inv : recog_inv stopping.
Proof.
  destruct recognizing_inv as [[Hp Hq Hr Hs] _]. split; [by split|].
  split; [apply request_of_ok|intros _; by eexists].
Qed.

Lemma recog_stop_pending_witness :
  ∃ s' r, recog_state_update no_pair 0
      (response_of RECOGNIZER_STOP 9 MRCP_REQUEST_STATE_COMPLETE) stopping =
      Ok (true, s', [Dispatch r]) ∧ state s' = RECOGNIZER_STATE_IDLE ∧ queue s' = [].
Proof.
  destruct (recog_stop_pending no_pair 0 (response_of RECOGNIZER_STOP 9 MRCP_REQUEST_STATE_COMPLETE)
    (request_of RECOGNIZER_STOP 9) stopping) as (s' & r & E & _ & Hst & Hq & _).
  - apply stopping_inv.
  - apply response_of_ok.
  - reflexivity.
  - reflexivity.
  - reflexivity.
  - reflexivity.
  - reflexivity.
  - reflexivity.
  - exists s', r. split; [exact E|]. split; [exact Hst|exact Hq].
Defined.

Lemma recog_complete_starts_next_witness :
  ∃ s' e, recog_state_update no_pair 0 (event_of 1 1 MRCP_REQUEST_STATE_COMPLETE) recognizing =
      Ok (true, s', [Dispatch e; Dispatch (request_of RECOGNIZER_RECOGNIZE 2)]) ∧
    queue s' = [request_of RECOGNIZER_RECOGNIZE 3].
Proof.
  destruct (recog_complete_starts_next no_pair 0 (event_of 1 1 MRCP_REQUEST_STATE_COMPLETE)
    (request_of RECOGNIZER_RECOGNIZE 1) recognizing) as (s' & e & E & _ & _ & Hq & _).
  - apply recognizing_inv.
  - apply event_of_ok.
  - reflexivity.
  - reflexivity.
  - reflexivity.
  - reflexivity.
  - reflexivity.
  - discriminate.
  - exists s', e. split; [exact E|exact Hq].
Defined.

(** The machine after the request 1 is complete: request 2 is handed to the
    engine, request 3 waits. *)
Definition starting_pending : mrcp_recog_state_machine_t nat :=
  mk_recog true RECOGNIZER_STATE_RECOGNIZED true (Some (request_of RECOGNIZER_RECOGNIZE 2))
    (Some (request_of RECOGNIZER_RECOGNIZE 1)) [request_of RECOGNIZER_RECOGNIZE 3]
    (properties recognizing).

Lemma starting_pending_inv : recog_inv starting_pending.
Proof.
  destruct recognizing_inv as [[Hp Hq Hr Hs] _]. split; [split|].
  - exact Hp.
  - apply List.Forall_cons; [split; [apply request_of_ok|done]|]. apply List.Forall_nil.
  - apply request_of_ok.
  - discriminate.
  - split; [apply request_of_ok|discriminate].
Qed.

Lemma recog_overtaking_unanswered_witness :
  ∃ s' x, @run nat _ (recog_machine no_pair 0)
      [Update (request_of RECOGNIZER_RECOGNIZE 4);
       Update (response_of RECOGNIZER_RECOGNIZE 4 MRCP_REQUEST_STATE_INPROGRESS)]
      starting_pending = Ok ([true; true], s', [Dispatch x]) ∧
    message_type (start_line x) = MRCP_MESSAGE_TYPE_REQUEST ∧ request_id (start_line x) = 4%Z.
Proof.
  destruct (recog_overtaking_unanswered no_pair 0 (request_of RECOGNIZER_RECOGNIZE 4)
    (response_of RECOGNIZER_RECOGNIZE 4 MRCP_REQUEST_STATE_INPROGRESS) starting_pending)
    as (s' & x & E & Ht & Hid).
  - apply starting_pending_inv.
  - reflexivity.
  - discriminate.
  - apply request_of_ok.
  - reflexivity.
  - reflexivity.
  - reflexivity.
  - reflexivity.
  - reflexivity.
  - exists s', x. split; [exact E|]. split; [exact Ht|exact Hid].
Defined.

Lemma recog_never_faults_witness :
  ∃ bs s o, @run nat _ (recog_machine no_pair 0)
    [Update (request_of RECOGNIZER_RECOGNIZE 1);
     Update (response_of RECOGNIZER_RECOGNIZE 1 MRCP_REQUEST_STATE_INPROGRESS);
     Update (request_of RECOGNIZER_STOP 2); Deactivate]
    (mrcp_recog_state_machine_create no_pair cause_vtable MRCP_VERSION_2) = Ok (bs, s, o) ∧
  recog_inv s ∧ length bs = 4.
Proof.
  apply (recog_never_faults no_pair 0 cause_vtable MRCP_VERSION_2); [done|].
  split; [split; [apply request_of_ok|discriminate]|]. intros b1 s1 o1 E1.
  split; [split; [apply response_of_ok|]|].
  - intros _ a Ha _.
    assert (match @handle nat _ (recog_machine_here no_pair 0) (Update (request_of RECOGNIZER_RECOGNIZE 1))
      (mrcp_recog_state_machine_create no_pair cause_vtable MRCP_VERSION_2) with
      | Ok (_, s, _) => method_id ∘ start_line <$> active_request s
      | Fault => None
      end = Some RECOGNIZER_RECOGNIZE) as Hmid by (vm_compute; reflexivity).
    rewrite E1, Ha in Hmid. injection Hmid as Hmid. symmetry. exact Hmid.
  - intros b2 s2 o2 E2. split; [split; [apply request_of_ok|discriminate]|].
    intros b3 s3 o3 E3. split; [exact I|]. intros b4 s4 o4 E4. exact I.
Defined.

(** What the client reads of the Active-Request-Id-List of a response: the
    header fields as text, the identifiers the machine has put in the header,
    and the queue that is left. *)
Definition stop_report (r : res (bool * mrcp_recog_state_machine_t nat * list (action nat)))
    : option (list (cstr * cstr) * option (list Z) * list Z) :=
  match r with
  | Ok (_, s, [Dispatch m]) =>
      Some ((λ f, (chars (field_name f), chars (field_value f))) <$> section_fields (header m),
            active_request_id_list <$> mrcp_generic_header_get m,
            request_id ∘ start_line <$> queue s)
  | _ => None
  end.

(** The response to STOP does not list the pending requests it removed.
    With request 1 in progress and 2 and 3 pending, the response to STOP says
    "Active-Request-Id-List: 1": the text of the header field is generated
    before the removed requests are added to the list, and is not generated
    again. *)
Theorem recog_stop_list_incomplete :
  stop_report (recog_state_update no_pair 0
    (response_of RECOGNIZER_STOP 9 MRCP_REQUEST_STATE_COMPLETE) stopping) =
  Some ([(lit "Active-Request-Id-List", lit "1")], Some [1; 2; 3]%Z, []).
Proof. vm_compute. reflexivity. Qed.
