(* ===== verification/RecogTrace.v ===== *)
(** * RecogTrace: what an update of the recognizer state machine does to the
    requests it keeps and which messages it hands out.

    A request of the client is handed to the engine, answered at once, or put
    into the queue; a response is passed on, taken for the response to a pending
    request, or dropped; a response to STOP and a completion start the first
    request of the queue.  The facts are about updates that return; that they
    return is shown in [RecogMachineTheory]. *)
From S2P Require Import Prelude CString StringTable TextStream StartLine HeaderSection.
From S2P Require Import TextMessage GenericHeader MrcpMessage StateMachine StateMachineTheory RecogMachine.

(** ** Updates that return *)

(** If the computation returns, it ends with [Q]. *)
Definition always {R S A} (c : sm R S A) (s : S) (Q : A → S → list (action R) → Prop) : Prop :=
  ∀ a s' o, c s = Ok (a, s', o) → Q a s' o.

Section Always.
  Context {R S : Type}.

Lemma always_bind {A B} (c : sm R S A) (k : A → sm R S B) (s : S) (Q : B → S → list (action R) → Prop) :
  always c s (λ a s' o, always (k a) s' (λ b s'' o', Q b s'' (o ++ o'))) → always (c ≫= k) s Q.
Proof.
  intros Hc b s' o E. unfold mbind, sm_bind in E. destruct (c s) as [[[a s1] o1]|] eqn:E1; [|done].
  cbn [mbind res_bind] in E. destruct (k a s1) as [[[b' s2] o2]|] eqn:E2; [|done]. injection E as <- <- <-.
  exact (Hc a s1 o1 E1 b' s2 o2 E2).
Qed.

Lemma always_weaken {A} (c : sm R S A) (s : S) (Q Q' : A → S → list (action R) → Prop) :
  always c s Q → (∀ a s' o, Q a s' o → Q' a s' o) → always c s Q'.
Proof. intros Hc Hw a s' o E. by apply Hw, Hc. Qed.

Lemma always_ret {A} (a : A) (s : S) (Q : A → S → list (action R) → Prop) : Q a s [] → always (mret a) s Q.
Proof. intros HQ a' s' o [= <- <- <-]. done. Qed.

Lemma always_read {A} (f : S → A) (s : S) (Q : A → S → list (action R) → Prop) :
  Q (f s) s [] → always (read f) s Q.
Proof. intros HQ a' s' o [= <- <- <-]. done. Qed.

Lemma always_modify (f : S → S) (s : S) (Q : unit → S → list (action R) → Prop) :
  Q tt (f s) [] → always (modify f) s Q.
Proof. intros HQ a' s' o [= <- <- <-]. done. Qed.

Lemma always_lift {A} (x : res A) (s : S) (Q : A → S → list (action R) → Prop) :
  (∀ a, x = Ok a → Q a s []) → always (lift x) s Q.
Proof.
  intros HQ a s' o E. unfold lift in E. destruct x as [a'|]; [|done]. injection E as <- <- <-. by apply HQ.
Qed.

Lemma always_dispatch (m : @mrcp_message_t R) (s : S) (Q : bool → S → list (action R) → Prop) :
  Q true s [Dispatch m] → always (on_dispatch m) s Q.
Proof. intros HQ a' s' o [= <- <- <-]. done. Qed.

Lemma always_deactivate (s : S) (Q : bool → S → list (action R) → Prop) :
  Q true s [Deactivated] → always on_deactivate s Q.
Proof. intros HQ a' s' o [= <- <- <-]. done. Qed.

End Always.

Ltac al_run :=
  repeat first
    [ apply always_bind | apply always_ret | apply always_read | apply always_modify
    | apply always_dispatch | apply always_deactivate ].

(** ** Operations that leave the start-line alone *)

Section Lines.
  Context `{AprFormat} {R : Type} `{CompletionCause R}.
  Implicit Types m : @mrcp_message_t R.

Lemma generic_property_line m id b m' :
  mrcp_generic_header_property_add m id = Ok (b, m') → start_line m' = start_line m.
Proof.
  unfold mrcp_generic_header_property_add. intros (f & _ & E)%res_bind_ok.
  pose proof (property_add_line m f (Z.of_nat id)) as L. injection E as E. by rewrite E in L.
Qed.

Lemma resource_property_line m id b m' :
  mrcp_resource_header_property_add m id = Ok (b, m') → start_line m' = start_line m.
Proof.
  unfold mrcp_resource_header_property_add. intros (f & _ & E)%res_bind_ok.
  pose proof (property_add_line m f (Z.of_nat (id + GENERIC_HEADER_COUNT))) as L. injection E as E. by rewrite E in L.
Qed.

Lemma completion_cause_line id cause m m' :
  completion_cause_default id cause m = Ok m' → start_line m' = start_line m.
Proof.
  unfold completion_cause_default. destruct (mrcp_resource_header_property_check m id); [by intros [= <-]|].
  intros (d & _ & ([b x] & E & E2)%res_bind_ok)%res_bind_ok. injection E2 as <-.
  by apply resource_property_line in E.
Qed.

Lemma id_append_line m id m' : message_id_append m id = Ok m' → start_line m' = start_line m.
Proof. unfold message_id_append. intros (g & _ & E)%res_bind_ok. by injection E as <-. Qed.

Lemma remove_loop_line ids q m q' m' :
  pending_remove_loop ids q m = Ok (q', m') → start_line m' = start_line m ∧ q' `sublist_of` q.
Proof.
  revert m q' m'. induction q as [|x q IH]; intros m q' m' E; simpl in E; [by injection E as <- <-|].
  destruct (stop_selects ids _).
  - apply res_bind_ok in E as (m1 & E1 & E). apply id_append_line in E1. apply IH in E as [-> ?].
    split; [done|by constructor].
  - apply res_bind_ok in E as ([q1 m1] & E1 & E). injection E as <- <-. apply IH in E1 as [-> ?].
    split; [done|by constructor].
Qed.

Lemma pending_remove_line q request m q' m' :
  pending_requests_remove q request m = Ok (q', m') → start_line m' = start_line m ∧ q' `sublist_of` q.
Proof.
  unfold pending_requests_remove. intros ([q1 m1] & E1 & E)%res_bind_ok. apply remove_loop_line in E1 as [L1 S1].
  apply res_bind_ok in E as (g & _ & E). case_decide; [by injection E as <- <-|].
  apply res_bind_ok in E as ([b m2] & E2 & E). injection E as <- <-. apply generic_property_line in E2.
  by rewrite E2.
Qed.

(** Association with a resource changes the method name at most. *)
Lemma set_by_id_line fresh m r :
  let x := (mrcp_message_resource_set_by_id fresh m r).2 in
  message_type (start_line x) = message_type (start_line m) ∧
  request_id (start_line x) = request_id (start_line m) ∧ method_id (start_line x) = method_id (start_line m).
Proof.
  destruct r as [r|]; [|done]. simpl. destruct (message_type (start_line m)) eqn:E; try done;
    by destruct (apt_string_table_str_get _ _ _).
Qed.

Lemma response_create_line fresh uninit m :
  about m (mrcp_response_create fresh uninit (Some m)) MRCP_MESSAGE_TYPE_RESPONSE.
Proof.
  unfold mrcp_response_create, about. match goal with |- context [mrcp_message_resource_set_by_id fresh ?x ?r] =>
    destruct (set_by_id_line fresh x r) as (-> & -> & ->) end. done.
Qed.

End Lines.

(** ** The requests of the machine *)

Section Trace.
  Context `{AprFormat} {R : Type} `{CompletionCause R} (fresh : apt_pair_t) (uninit : nat).
  Notation machine := (mrcp_recog_state_machine_t R).
  Notation message := (@mrcp_message_t R).

(** The active request, the flag [is_pending] and the queue. *)
Definition requests_same (s s' : machine) : Prop :=
  active_request s' = active_request s ∧ is_pending s' = is_pending s ∧ queue s' = queue s.

(** A request [m] of the client was refused without an answer, handed to the
    engine, or answered at once. *)
Definition request_trace (m : message) (s s' : machine) (o : list (action R)) : Prop :=
  (o = [] ∧ requests_same s s' ∧ RECOGNIZER_METHOD_COUNT ≤ method_id (start_line m)) ∨
  (∃ x, o = [Dispatch x] ∧ about m x MRCP_MESSAGE_TYPE_REQUEST ∧ active_request s' = Some x ∧
     is_pending s' = is_pending s ∧ queue s' = queue s) ∨
  (∃ r, o = [Dispatch r] ∧ about m r MRCP_MESSAGE_TYPE_RESPONSE ∧ active_request s' = None ∧
     is_pending s' = is_pending s ∧
     (queue s' `sublist_of` queue s ∨ ∃ x, about m x MRCP_MESSAGE_TYPE_REQUEST ∧ queue s' = queue s ++ [x] ∧
        method_id (start_line m) = RECOGNIZER_RECOGNIZE ∧ state s = RECOGNIZER_STATE_RECOGNIZING)).

(** The request [p], if any, left the queue and is the active one now. *)
Definition pending_trace (p : option message) (s s' : machine) : Prop :=
  option_list p ++ queue s' `sublist_of` queue s ∧
  match p with
  | None => is_pending s' = is_pending s
  | Some x => active_request s' = Some x ∧ is_pending s' = true
  end.

(** A response [m] of the engine was dropped, taken for the response to the
    pending request, or passed on. *)
Definition response_trace (m : message) (s s' : machine) (o : list (action R)) : Prop :=
  (o = [] ∧ requests_same s s' ∧
     ((∀ a, active_request s = Some a → request_id (start_line a) ≠ request_id (start_line m)) ∨
      RECOGNIZER_METHOD_COUNT ≤ method_id (start_line m))) ∨
  (∃ a, active_request s = Some a ∧ request_id (start_line a) = request_id (start_line m) ∧
     (o = [] ∧ active_request s' = Some a ∧ is_pending s = true ∧ is_pending s' = false ∧
        queue s' = queue s ∨
      ∃ r p, start_line r = start_line m ∧ o = Dispatch r :: pending_actions p ∧ pending_trace p s s' ∧
        (p = None → active_request s' = None) ∧
        (method_id (start_line m) = RECOGNIZER_RECOGNIZE → is_pending s = false))).

(** An event [m] of the engine was dropped or passed on. *)
Definition event_trace (m : message) (s s' : machine) (o : list (action R)) : Prop :=
  (o = [] ∧ requests_same s s') ∨
  ∃ e p, about m e MRCP_MESSAGE_TYPE_EVENT ∧ o = Dispatch e :: pending_actions p ∧ pending_trace p s s' ∧
    (p = None → active_request s' = active_request s).

Notation traces P m c s := (always c s (λ _ s' o, active s' = true ∧ P m s s' o)).

(** *** Dispatching *)

Lemma request_dispatch_trace m x s s0 :
  active s = true → requests_same s0 s → about m x MRCP_MESSAGE_TYPE_REQUEST →
  always (recog_request_dispatch x) s (λ _ s' o, active s' = true ∧ request_trace m s0 s' o).
Proof.
  intros Hs (Ea & Ep & Eq) Hab. unfold recog_request_dispatch. al_run. split; [done|]. right; left.
  by exists x.
Qed.

Lemma response_dispatch_always x s (Q : bool → machine → list (action R) → Prop) :
  active s = true → Q true (set_active_request None s) [Dispatch x] → always (recog_response_dispatch x) s Q.
Proof. intros Hs HQ. unfold recog_response_dispatch. al_run. simpl. rewrite Hs. by al_run. Qed.

Lemma event_dispatch_always x s (Q : bool → machine → list (action R) → Prop) :
  active s = true → Q true s [Dispatch x] → always (recog_event_dispatch x) s Q.
Proof. intros Hs HQ. unfold recog_event_dispatch. al_run. rewrite Hs. by al_run. Qed.

Lemma state_change_always x s (Q : unit → machine → list (action R) → Prop) :
  (∀ s', active s' = active s → requests_same s s' → Q tt s' []) → always (recog_state_change x) s Q.
Proof. intros HQ. unfold recog_state_change. al_run. case_decide; al_run; by apply HQ. Qed.

Lemma pending_start_always p s (Q : bool → machine → list (action R) → Prop) :
  (∀ s', active s' = active s → queue s' = queue s →
     match p with None => s' = s | Some x => active_request s' = Some x ∧ is_pending s' = true end →
     Q true s' (pending_actions p)) →
  always (recog_pending_start p) s Q.
Proof. intros HQ. destruct p; simpl; [unfold recog_request_dispatch|]; al_run; by apply HQ. Qed.

Lemma answered_trace m r s s0 :
  active s = true → about m r MRCP_MESSAGE_TYPE_RESPONSE → is_pending s = is_pending s0 →
  (queue s `sublist_of` queue s0 ∨ ∃ x, about m x MRCP_MESSAGE_TYPE_REQUEST ∧ queue s = queue s0 ++ [x] ∧
     method_id (start_line m) = RECOGNIZER_RECOGNIZE ∧ state s0 = RECOGNIZER_STATE_RECOGNIZING) →
  always (recog_response_dispatch r) s (λ _ s' o, active s' = true ∧ request_trace m s0 s' o).
Proof.
  intros Hs Hab Hp Hq. apply response_dispatch_always; [done|]. split; [done|]. right; right. by exists r.
Qed.

Lemma refused_trace m s : active s = true →
  traces request_trace m (recog_response_dispatch (not_valid_response fresh uninit m)) s.
Proof.
  intros Hs. apply answered_trace; [done| |done|by left]. exact (response_create_line fresh uninit m).
Qed.

#[local] Opaque recog_request_dispatch recog_response_dispatch recog_event_dispatch recog_state_change
  recog_pending_start.

(** *** Requests *)

Lemma stop_response_trace m s s0 :
  active s = true → requests_same s0 s →
  always (recog_stop_response fresh uninit m) s (λ _ s' o, active s' = true ∧ request_trace m s0 s' o).
Proof.
  intros Hs (Ea & Ep & Eq). unfold recog_stop_response, recog_pending_requests_remove. al_run.
  apply always_lift. intros [q r] [L Hsub]%pending_remove_line. al_run.
  apply answered_trace; [done| |done|].
  - unfold about. rewrite L. exact (response_create_line fresh uninit m).
  - left. by rewrite <- Eq.
Qed.

Lemma recognize_trace m s : active s = true → message_type (start_line m) = MRCP_MESSAGE_TYPE_REQUEST →
  method_id (start_line m) = RECOGNIZER_RECOGNIZE →
  traces request_trace m (recog_request_recognize fresh uninit m) s.
Proof.
  intros Hs Ht Hmid. unfold recog_request_recognize. al_run. case_decide; al_run.
  - match goal with |- context [mrcp_response_create fresh uninit (Some ?x)] => set (y := x) end.
    apply answered_trace; [done| |done|right; by exists y]. exact (response_create_line fresh uninit y).
  - by apply request_dispatch_trace.
Qed.

Lemma stop_trace m s : active s = true → message_type (start_line m) = MRCP_MESSAGE_TYPE_REQUEST →
  traces request_trace m (recog_request_stop fresh uninit m) s.
Proof.
  intros Hs Ht. unfold recog_request_stop. al_run. destruct (state s).
  - by apply stop_response_trace.
  - assert (∀ b, traces request_trace m (if b : bool then recog_request_dispatch m
      else recog_stop_response fresh uninit m) s) as Hb.
    { intros []; [by apply request_dispatch_trace|by apply stop_response_trace]. }
    al_run. destruct (selective_ids m); al_run; [|exact (Hb true)]. apply always_lift. intros c _. al_run. apply Hb.
  - al_run. apply state_change_always. intros s' Ea Hsame. apply stop_response_trace; [by rewrite Ea|done].
Qed.

Lemma request_traces m s : active s = true → message_type (start_line m) = MRCP_MESSAGE_TYPE_REQUEST →
  traces request_trace m (recog_request_state_update fresh uninit m) s.
Proof.
  intros Hs Ht. unfold recog_request_state_update. case_decide; [al_run; split; [done|by left]|].
  destruct (method_id (start_line m)) as [|[|[|[|[|[|[|[|n]]]]]]]] eqn:Hmid; simpl;
    try by apply request_dispatch_trace.
  - unfold recog_request_set_params. al_run. apply always_lift. intros h _. al_run.
    by apply request_dispatch_trace.
  - unfold recog_request_define_grammar. al_run. destruct (state s).
    + by apply request_dispatch_trace.
    + by apply refused_trace.
    + al_run. apply state_change_always. intros s' Ea Hsame.
      apply request_dispatch_trace; [by rewrite Ea|done..].
  - by apply recognize_trace.
  - unfold recog_request_interpret. al_run. by apply request_dispatch_trace.
  - unfold recog_request_get_result. al_run. case_decide; [by apply request_dispatch_trace|by apply refused_trace].
  - unfold recog_request_recognition_start_timers. al_run.
    case_decide; [by apply request_dispatch_trace|by apply refused_trace].
  - by apply stop_trace.
Qed.

(** *** Responses and events *)

(** A response goes to the client and no pending request is started. *)
Lemma passed_trace m a x s :
  active s = true → active_request s = Some a → request_id (start_line a) = request_id (start_line m) →
  start_line x = start_line m → (method_id (start_line m) = RECOGNIZER_RECOGNIZE → is_pending s = false) →
  traces response_trace m (recog_response_dispatch x) s.
Proof.
  intros Hs Ha Hid Hx Hp. apply response_dispatch_always; [done|]. split; [done|]. right. exists a.
  split; [done|]. split; [done|]. right. by exists x, None.
Qed.

Lemma response_stop_trace m a s :
  active s = true → active_request s = Some a → request_id (start_line a) = request_id (start_line m) →
  method_id (start_line m) = RECOGNIZER_STOP → traces response_trace m (recog_response_stop m) s.
Proof.
  intros Hs Ha Hid Hmid. unfold recog_response_stop. al_run. apply always_lift. intros c _. al_run.
  apply always_lift. intros m1 L1%id_append_line. al_run. apply always_lift. intros [b m2] L2%generic_property_line.
  al_run. apply always_lift. intros a' _. unfold recog_pending_requests_remove. al_run. apply always_lift.
  intros [q m3] [L3 Hsub]%pending_remove_line. al_run. apply state_change_always. intros s1 Es (_ & Ep & Eq). al_run.
  rewrite Eq. simpl. rewrite pop_front_eq. al_run. simpl in Es.
  apply response_dispatch_always; [simpl; by rewrite Es|]. apply pending_start_always. intros s2 E2 Q2 P2.
  split; [rewrite E2; simpl; by rewrite Es|]. right. exists a. split; [done|]. split; [done|]. right.
  exists m3, (head q). split; [by rewrite L3, L2, L1|]. split; [done|]. split; [split|split].
  - rewrite Q2. simpl. by destruct q.
  - destruct q; simpl in *; [by subst|done].
  - destruct q; simpl in *; [by subst|done].
  - by rewrite Hmid.
Qed.

Lemma response_update_traces m s : active s = true → traces response_trace m (recog_response_state_update m) s.
Proof.
  intros Hs. unfold recog_response_state_update. al_run.
  destruct (active_request s) as [a|] eqn:Hact; 
    [|al_run; split; [done|left]; split_and!; try done; left; naive_solver].
  case_decide as Hid; [al_run; split; [done|left]; split_and!; try done; left; naive_solver|].
  case_decide; [al_run; split; [done|left]; split_and!; try done; by right|].
  destruct (method_id (start_line m)) as [|[|[|[|[|[|[|[|n]]]]]]]] eqn:Hmid; simpl;
    try by (eapply passed_trace; try done; by rewrite Hmid).
  - unfold recog_response_get_params. al_run. apply always_lift. intros r _. al_run. apply always_lift.
    intros h _. eapply passed_trace; try done. by rewrite Hmid.
  - unfold recog_response_define_grammar. al_run. apply always_lift. intros x L%completion_cause_line.
    eapply passed_trace; try done. by rewrite Hmid.
  - unfold recog_response_recognize. apply always_bind.
    assert (∀ s', active s' = true → requests_same s s' → always (p ← read is_pending;
      if p : bool then modify (set_is_pending false);; mret true else recog_response_dispatch m) s'
      (λ _ s'' o, active s'' = true ∧ response_trace m s s'' o)) as Hrest.
    { intros s' Hs' (Ea & Ep & Eq). al_run. destruct (is_pending s') eqn:Hp; al_run.
      - split; [done|]. right. exists a. split; [done|]. split; [done|]. left. simpl. by rewrite Ea, Hact.
      - apply response_dispatch_always; [done|]. split; [done|]. right. exists a. split; [done|].
        split; [done|]. right. exists m, None. repeat split; simpl; try done; [by rewrite Eq|congruence..]. }
    case_decide; [|by apply always_ret, Hrest]. apply always_bind, always_read, always_bind, always_modify.
    apply state_change_always. intros s' Ea (E1 & E2 & E3). apply Hrest; [by rewrite Ea|].
    split_and!; [by rewrite E1|by rewrite E2|by rewrite E3].
  - by apply (response_stop_trace m a).
Qed.

(** An event goes to the client and no pending request is started. *)
Lemma event_passed_trace m x s :
  active s = true → about m x MRCP_MESSAGE_TYPE_EVENT → traces event_trace m (recog_event_dispatch x) s.
Proof.
  intros Hs Hx. apply event_dispatch_always; [done|]. split; [done|]. right. exists x, None.
  repeat split; try done; apply Hx.
Qed.

Lemma complete_trace m s : active s = true → message_type (start_line m) = MRCP_MESSAGE_TYPE_EVENT →
  traces event_trace m (recog_event_recognition_complete m) s.
Proof.
  intros Hs Ht. unfold recog_event_recognition_complete. al_run.
  destruct (recog s); [|al_run; split; [done|by left]].
  case_decide; [al_run; split; [done|by left]|]. al_run.
  case_decide; [al_run; split; [done|by left]|]. al_run. apply always_lift.
  intros x L%completion_cause_line. al_run. apply state_change_always. intros s1 Es (Ea & Ep & Eq).
  apply always_bind, event_dispatch_always; [by rewrite Es|]. al_run. rewrite Eq, pop_front_eq. al_run.
  apply pending_start_always. intros s2 E2 Q2 P2. split; [rewrite E2; simpl; by rewrite Es|]. right.
  exists x, (head (queue s)). split; [unfold about; by rewrite L|]. split; [done|]. split; [split|].
  - rewrite Q2. simpl. by destruct (queue s).
  - destruct (queue s); simpl in *; [by subst|done].
  - destruct (queue s); simpl in *; [by subst|done].
Qed.

Lemma event_update_traces m s : active s = true → message_type (start_line m) = MRCP_MESSAGE_TYPE_EVENT →
  traces event_trace m (recog_event_state_update m) s.
Proof.
  intros Hs Ht. unfold recog_event_state_update. case_decide; [al_run; split; [done|by left]|].
  destruct (method_id (start_line m)) as [|[|[|n]]]; simpl.
  - unfold recog_event_start_of_input. al_run. destruct (recog s); [|al_run; split; [done|by left]].
    case_decide; [al_run; split; [done|by left]|by apply event_passed_trace].
  - by apply complete_trace.
  - unfold recog_event_interpretation_complete. al_run. apply always_lift. intros x L%completion_cause_line.
    apply event_passed_trace; [done|]. unfold about. by rewrite L.
  - by apply event_passed_trace.
Qed.

(** What an update does, by the type of the message. *)
Definition update_trace (m : message) (s s' : machine) (o : list (action R)) : Prop :=
  match message_type (start_line m) with
  | MRCP_MESSAGE_TYPE_REQUEST => request_trace m s s' o
  | MRCP_MESSAGE_TYPE_RESPONSE => response_trace m s s' o
  | MRCP_MESSAGE_TYPE_EVENT => event_trace m s s' o
  | MRCP_MESSAGE_TYPE_UNKNOWN => o = [] ∧ requests_same s s'
  end.

Lemma update_traces m s : active s = true → traces update_trace m (recog_state_update fresh uninit m) s.
Proof.
  intros Hs. unfold recog_state_update, update_trace. destruct (message_type (start_line m)) eqn:Ht.
  - by al_run.
  - by apply request_traces.
  - by apply response_update_traces.
  - by apply event_update_traces.
Qed.

End Trace.
