(* ===== verification/SynthMachine.v ===== *)
(** * SynthMachine: the synthesizer state machine
    ([mrcp_synth_state_machine.c]).

    The messages are values: the machine does not change a request after it
    has stored it in [active_request], [speaker] or the queue. *)
From S2P Require Import Prelude CString StringTable TextStream StartLine HeaderSection.
From S2P Require Import TextMessage GenericHeader MrcpMessage StateMachine.

Inductive mrcp_synth_state_e :=
  | SYNTHESIZER_STATE_IDLE
  | SYNTHESIZER_STATE_SPEAKING
  | SYNTHESIZER_STATE_PAUSED.

#[export] Instance mrcp_synth_state_e_eq_dec : EqDecision mrcp_synth_state_e.
Proof. solve_decision. Defined.

(** Methods and events, by number. *)
Notation SYNTHESIZER_SPEAK := 2 (only parsing).
Notation SYNTHESIZER_STOP := 3 (only parsing).
Notation SYNTHESIZER_PAUSE := 4 (only parsing).
Notation SYNTHESIZER_RESUME := 5 (only parsing).
Notation SYNTHESIZER_BARGE_IN_OCCURRED := 6 (only parsing).
Notation SYNTHESIZER_CONTROL := 7 (only parsing).
Notation SYNTHESIZER_METHOD_COUNT := 9 (only parsing).
Notation SYNTHESIZER_SPEECH_MARKER := 0 (only parsing).
Notation SYNTHESIZER_SPEAK_COMPLETE := 1 (only parsing).
Notation SYNTHESIZER_EVENT_COUNT := 2 (only parsing).

Notation SYNTHESIZER_HEADER_KILL_ON_BARGE_IN := 1 (only parsing).
Notation SYNTHESIZER_HEADER_COMPLETION_CAUSE := 3 (only parsing).
Notation SYNTHESIZER_COMPLETION_CAUSE_NORMAL := 0 (only parsing).

(** The synthesizer header says whether barge-in ends the speech. *)
Class SynthHeader (R : Type) := kill_on_barge_in : R → bool.

Record mrcp_synth_state_machine_t (R : Type) := mk_synth {
  active : bool;
  state : mrcp_synth_state_e;
  is_pending : bool;
  active_request : option (@mrcp_message_t R);
  speaker : option (@mrcp_message_t R);
  queue : list (@mrcp_message_t R);
  properties : @mrcp_message_header_t R
}.
Arguments mk_synth {R}.
Arguments active {R}.
Arguments state {R}.
Arguments is_pending {R}.
Arguments active_request {R}.
Arguments speaker {R}.
Arguments queue {R}.
Arguments properties {R}.

Section Synth.
  Context `{AprFormat} {R : Type} `{CompletionCause R, SynthHeader R} (fresh : apt_pair_t) (uninit : nat).
  Notation machine := (mrcp_synth_state_machine_t R).
  Notation M := (sm R machine).

Definition set_synth_active (b : bool) (s : machine) : machine :=
  mk_synth b (state s) (is_pending s) (active_request s) (speaker s) (queue s) (properties s).
Definition set_state (x : mrcp_synth_state_e) (s : machine) : machine :=
  mk_synth (active s) x (is_pending s) (active_request s) (speaker s) (queue s) (properties s).
Definition set_is_pending (b : bool) (s : machine) : machine :=
  mk_synth (active s) (state s) b (active_request s) (speaker s) (queue s) (properties s).
Definition set_active_request (m : option mrcp_message_t) (s : machine) : machine :=
  mk_synth (active s) (state s) (is_pending s) m (speaker s) (queue s) (properties s).
Definition set_speaker (m : option mrcp_message_t) (s : machine) : machine :=
  mk_synth (active s) (state s) (is_pending s) (active_request s) m (queue s) (properties s).
Definition set_queue (q : list mrcp_message_t) (s : machine) : machine :=
  mk_synth (active s) (state s) (is_pending s) (active_request s) (speaker s) q (properties s).
Definition set_properties (h : mrcp_message_header_t) (s : machine) : machine :=
  mk_synth (active s) (state s) (is_pending s) (active_request s) (speaker s) (queue s) h.

Definition synth_request_dispatch (message : mrcp_message_t) : M bool :=
  modify (set_active_request (Some message));; on_dispatch message.

Definition synth_response_dispatch (message : mrcp_message_t) : M bool :=
  modify (set_active_request None);;
  is_active ← read active;
  if is_active : bool then on_dispatch message else on_deactivate.

Definition synth_event_dispatch (message : mrcp_message_t) : M bool :=
  is_active ← read active;
  if is_active : bool then on_dispatch message else mret false.

Definition synth_state_change (x : mrcp_synth_state_e) : M unit :=
  modify (set_state x);;
  if decide (x = SYNTHESIZER_STATE_IDLE) then modify (set_speaker None) else mret tt.

Definition synth_request_set_params (message : mrcp_message_t) : M bool :=
  props ← read properties;
  props ← lift (mrcp_header_fields_set props (header message));
  modify (set_properties props);;
  synth_request_dispatch message.

Definition synth_response_set_params : mrcp_message_t → M bool := synth_response_dispatch.

Definition synth_request_get_params : mrcp_message_t → M bool := synth_request_dispatch.

Definition synth_response_get_params (message : mrcp_message_t) : M bool :=
  props ← read properties;
  request ← read active_request;
  request ← lift (deref request);
  h ← lift (mrcp_header_fields_get (header message) props (header request));
  synth_response_dispatch (with_header message h).

Definition synth_request_speak (message : mrcp_message_t) : M bool :=
  props ← read properties;
  let message := with_header message (mrcp_header_fields_inherit (header message) props) in
  current ← read speaker;
  match current with
  | Some _ =>
      let message := set_message_state message MRCP_REQUEST_STATE_PENDING in
      q ← read queue;
      modify (set_queue (apt_list_push_back q message));;
      synth_response_dispatch
        (set_message_state (mrcp_response_create fresh uninit (Some message))
           MRCP_REQUEST_STATE_PENDING)
  | None => synth_request_dispatch message
  end.

Definition synth_response_speak (message : mrcp_message_t) : M bool :=
  (if decide (request_state (start_line message) = MRCP_REQUEST_STATE_INPROGRESS) then
     request ← read active_request;
     modify (set_speaker request);;
     synth_state_change SYNTHESIZER_STATE_SPEAKING
   else mret tt);;
  pending ← read is_pending;
  if pending : bool then
    request ← read active_request;
    request ← lift (deref request);
    let event := mrcp_event_create fresh uninit (Some request) SYNTHESIZER_SPEECH_MARKER in
    modify (set_is_pending false);;
    synth_event_dispatch (set_message_state event MRCP_REQUEST_STATE_INPROGRESS)
  else synth_response_dispatch message.

(** The response with the identifiers of the removed requests. *)
Definition synth_pending_requests_remove (request response : mrcp_message_t) : M mrcp_message_t :=
  q ← read queue;
  '(q, response) ← lift (pending_requests_remove q request response);
  modify (set_queue q);;
  mret response.

(** The immediate response to STOP. *)
Definition synth_stop_response (message : mrcp_message_t) : M bool :=
  response ← synth_pending_requests_remove message (mrcp_response_create fresh uninit (Some message));
  synth_response_dispatch response.

Definition synth_request_stop (message : mrcp_message_t) : M bool :=
  current ← read speaker;
  match current with
  | Some current =>
      if stop_selects (selective_ids message) (request_id (start_line current))
      then synth_request_dispatch message
      else synth_stop_response message
  | None => synth_stop_response message
  end.

(** Hand the first pending request, if any, to the engine. *)
Definition synth_pending_start (pending : option mrcp_message_t) : M bool :=
  match pending with
  | Some request => modify (set_is_pending true);; synth_request_dispatch request;; mret true
  | None => mret true
  end.

(** The response with the identifier of the speaking request. *)
Definition synth_active_id (message : @mrcp_message_t R) : M mrcp_message_t :=
  let message := mrcp_generic_header_prepare message in
  current ← read speaker;
  current ← lift (deref current);
  message ← lift (message_id_append message (request_id (start_line current)));
  '(_, message) ← lift (mrcp_generic_header_property_add message
                          (generic_header_num GENERIC_HEADER_ACTIVE_REQUEST_ID_LIST));
  mret message.

Definition synth_response_stop (message : mrcp_message_t) : M bool :=
  message ← synth_active_id message;
  request ← read active_request;
  request ← lift (deref request);
  message ← synth_pending_requests_remove request message;
  synth_state_change SYNTHESIZER_STATE_IDLE;;
  q ← read queue;
  let '(pending, q) := apt_list_pop_front q in
  modify (set_queue q);;
  synth_response_dispatch message;;
  synth_pending_start pending.

Definition synth_request_pause (message : mrcp_message_t) : M bool :=
  current ← read speaker;
  x ← read state;
  match current with
  | Some _ =>
      if decide (x = SYNTHESIZER_STATE_SPEAKING) then synth_request_dispatch message
      else synth_response_dispatch (mrcp_response_create fresh uninit (Some message))
  | None => synth_response_dispatch (not_valid_response fresh uninit message)
  end;;
  mret true.

Definition synth_response_pause (message : mrcp_message_t) : M bool :=
  message ← (if decide (status_code (start_line message) = MRCP_STATUS_CODE_SUCCESS) then
               message ← synth_active_id message;
               synth_state_change SYNTHESIZER_STATE_PAUSED;;
               mret message
             else mret message);
  synth_response_dispatch message;;
  mret true.

Definition synth_request_resume (message : mrcp_message_t) : M bool :=
  current ← read speaker;
  x ← read state;
  match current with
  | Some _ =>
      if decide (x = SYNTHESIZER_STATE_PAUSED) then synth_request_dispatch message
      else synth_response_dispatch (mrcp_response_create fresh uninit (Some message))
  | None => synth_response_dispatch (not_valid_response fresh uninit message)
  end;;
  mret true.

Definition synth_response_resume (message : mrcp_message_t) : M bool :=
  message ← (if decide (status_code (start_line message) = MRCP_STATUS_CODE_SUCCESS) then
               message ← synth_active_id message;
               synth_state_change SYNTHESIZER_STATE_SPEAKING;;
               mret message
             else mret message);
  synth_response_dispatch message;;
  mret true.

(** Whether barge-in ends the speech: yes, unless the request says otherwise. *)
Definition barge_in_kills (message : @mrcp_message_t R) : bool :=
  match mrcp_resource_header_get message with
  | Some h =>
      if mrcp_resource_header_property_check message SYNTHESIZER_HEADER_KILL_ON_BARGE_IN
      then kill_on_barge_in h else true
  | None => true
  end.

Definition synth_request_barge_in_occurred (message : mrcp_message_t) : M bool :=
  current ← read speaker;
  if decide (is_Some current) then
    if barge_in_kills message then synth_request_dispatch message
    else synth_response_dispatch (mrcp_response_create fresh uninit (Some message))
  else synth_response_dispatch (mrcp_response_create fresh uninit (Some message)).

Definition synth_response_barge_in_occurred (message : mrcp_message_t) : M bool :=
  message ← synth_active_id message;
  request ← read active_request;
  request ← lift (deref request);
  message ← synth_pending_requests_remove request message;
  synth_state_change SYNTHESIZER_STATE_IDLE;;
  synth_response_dispatch message.

Definition synth_request_control (message : mrcp_message_t) : M bool :=
  x ← read state;
  if decide (x = SYNTHESIZER_STATE_SPEAKING) then synth_request_dispatch message
  else synth_response_dispatch (mrcp_response_create fresh uninit (Some message)).

Definition synth_response_control (message : mrcp_message_t) : M bool :=
  message ← synth_active_id message;
  synth_response_dispatch message.

Definition synth_request_define_lexicon (message : mrcp_message_t) : M bool :=
  x ← read state;
  if decide (x = SYNTHESIZER_STATE_IDLE) then synth_request_dispatch message
  else synth_response_dispatch (not_valid_response fresh uninit message).

Definition synth_response_define_lexicon : mrcp_message_t → M bool := synth_response_dispatch.

Definition synth_event_speech_marker (message : mrcp_message_t) : M bool :=
  current ← read speaker;
  match current with
  | None => mret false
  | Some current =>
      if decide (request_id (start_line current) ≠ request_id (start_line message))
      then mret false
      else synth_event_dispatch (set_message_state message MRCP_REQUEST_STATE_INPROGRESS)
  end.

(** The active request, if any, ends the speech itself. *)
Definition synth_ending (request : option (@mrcp_message_t R)) : bool :=
  match request with
  | Some a => bool_decide (method_id (start_line a) = SYNTHESIZER_STOP) ||
              bool_decide (method_id (start_line a) = SYNTHESIZER_BARGE_IN_OCCURRED)
  | None => false
  end.

Definition synth_event_speak_complete (message : mrcp_message_t) : M bool :=
  current ← read speaker;
  match current with
  | None => mret false
  | Some current =>
      if decide (request_id (start_line current) ≠ request_id (start_line message))
      then mret false
      else
        request ← read active_request;
        if synth_ending request then mret false
        else
          message ← lift (completion_cause_default SYNTHESIZER_HEADER_COMPLETION_CAUSE
                            SYNTHESIZER_COMPLETION_CAUSE_NORMAL message);
          synth_state_change SYNTHESIZER_STATE_IDLE;;
          synth_event_dispatch message;;
          q ← read queue;
          let '(pending, q) := apt_list_pop_front q in
          modify (set_queue q);;
          synth_pending_start pending
  end.

(** The method arrays. *)
Definition synth_request_method_array : list (mrcp_message_t → M bool) :=
  [synth_request_set_params; synth_request_get_params; synth_request_speak; synth_request_stop;
   synth_request_pause; synth_request_resume; synth_request_barge_in_occurred;
   synth_request_control; synth_request_define_lexicon].

Definition synth_response_method_array : list (mrcp_message_t → M bool) :=
  [synth_response_set_params; synth_response_get_params; synth_response_speak;
   synth_response_stop; synth_response_pause; synth_response_resume;
   synth_response_barge_in_occurred; synth_response_control; synth_response_define_lexicon].

Definition synth_event_method_array : list (mrcp_message_t → M bool) :=
  [synth_event_speech_marker; synth_event_speak_complete].

Definition synth_request_state_update (message : mrcp_message_t) : M bool :=
  if decide (SYNTHESIZER_METHOD_COUNT ≤ method_id (start_line message)) then mret false
  else
    match synth_request_method_array !! method_id (start_line message) with
    | Some method => method message
    | None => synth_request_dispatch message
    end.

Definition synth_response_state_update (message : mrcp_message_t) : M bool :=
  request ← read active_request;
  match request with
  | None => mret false
  | Some request =>
      if decide (request_id (start_line request) ≠ request_id (start_line message))
      then mret false
      else if decide (SYNTHESIZER_METHOD_COUNT ≤ method_id (start_line message)) then mret false
      else
        match synth_response_method_array !! method_id (start_line message) with
        | Some method => method message
        | None => synth_response_dispatch message
        end
  end.

Definition synth_event_state_update (message : mrcp_message_t) : M bool :=
  if decide (SYNTHESIZER_EVENT_COUNT ≤ method_id (start_line message)) then mret false
  else
    match synth_event_method_array !! method_id (start_line message) with
    | Some method => method message
    | None => synth_event_dispatch message
    end.

Definition synth_state_update (message : mrcp_message_t) : M bool :=
  match message_type (start_line message) with
  | MRCP_MESSAGE_TYPE_REQUEST => synth_request_state_update message
  | MRCP_MESSAGE_TYPE_RESPONSE => synth_response_state_update message
  | MRCP_MESSAGE_TYPE_EVENT => synth_event_state_update message
  | MRCP_MESSAGE_TYPE_UNKNOWN => mret false
  end.

Definition synth_state_deactivate : M bool :=
  source ← read speaker;
  match source with
  | None => mret false
  | Some source => synth_request_dispatch (deactivate_request fresh uninit SYNTHESIZER_STOP source)
  end.

Definition synth_machine : StateMachine R machine := {|
  set_active := set_synth_active;
  update := synth_state_update;
  deactivate := synth_state_deactivate
|}.

Definition mrcp_synth_state_machine_create (rvt : mrcp_header_vtable_t R) (v : mrcp_version_e)
    : machine :=
  mk_synth true SYNTHESIZER_STATE_IDLE false None None apt_list_create
    (mrcp_message_header_create (mrcp_generic_header_vtable_get fresh v) rvt).

End Synth.
