(* ===== verification/SynthMachineTheory.v ===== *)
(** * SynthMachineTheory: when the synthesizer state machine is memory-safe,
    when it is not, and how it answers requests. *)
From S2P Require Import Prelude CString StringTable TextStream StartLine HeaderSection.
From S2P Require Import TextMessage GenericHeader MrcpMessage StateMachine StateMachineTheory SynthMachine.

Section Synth.
  Context `{AprFormat} {R : Type} `{CompletionCause R, SynthHeader R}
    (fresh : apt_pair_t) (uninit : nat).
  Notation machine := (mrcp_synth_state_machine_t R).

(** The methods whose responses name the speaking request. *)
Definition needs_speaker (mid : nat) : Prop :=
  mid ∈ [SYNTHESIZER_STOP; SYNTHESIZER_PAUSE; SYNTHESIZER_RESUME; SYNTHESIZER_BARGE_IN_OCCURRED;
         SYNTHESIZER_CONTROL].

(** The invariant: stored messages are well formed, the queue holds SPEAK
    requests, and there is a speaking request unless the machine is idle and
    while it waits for a response that names it. *)
Record synth_core (s : machine) : Prop := {
  sc_properties : header_ok (properties s);
  sc_queue : Forall (λ m, message_ok m ∧ method_id (start_line m) = SYNTHESIZER_SPEAK) (queue s);
  sc_speaker : from_option message_ok True (speaker s);
  sc_speaking : state s ≠ SYNTHESIZER_STATE_IDLE → is_Some (speaker s)
}.

Record synth_inv (s : machine) : Prop := {
  si_core : synth_core s;
  si_active : from_option (λ m, message_ok m ∧
    (needs_speaker (method_id (start_line m)) → is_Some (speaker s))) True (active_request s)
}.

(** Messages are well formed; an engine answers a request with a response to
    its method, and does not report the end of the speech between a PAUSE,
    RESUME or CONTROL request and its response. *)
Definition synth_accepts (s : machine) (i : input R) : Prop :=
  match i with
  | Deactivate => True
  | Update m => message_ok m ∧
      (message_type (start_line m) = MRCP_MESSAGE_TYPE_RESPONSE →
       ∀ a, active_request s = Some a →
       request_id (start_line a) = request_id (start_line m) →
       method_id (start_line m) = method_id (start_line a)) ∧
      (message_type (start_line m) = MRCP_MESSAGE_TYPE_EVENT →
       method_id (start_line m) = SYNTHESIZER_SPEAK_COMPLETE →
       ∀ a, active_request s = Some a → needs_speaker (method_id (start_line a)) →
       synth_ending (Some a) = true)
  end.

Notation keeps c s := (ends c s (λ _ s' _, synth_inv s')).

Definition outcome (m : @mrcp_message_t R) (is_active b : bool) (s' : machine)
    (o : list (action R)) : Prop :=
  b = true ∧ active s' = is_active ∧
  ((∃ x, o = [Dispatch x] ∧ about m x MRCP_MESSAGE_TYPE_REQUEST ∧ active_request s' = Some x) ∨
   (∃ x, o = [if is_active then Dispatch x else Deactivated] ∧
      about m x MRCP_MESSAGE_TYPE_RESPONSE ∧ active_request s' = None)).

Notation answers m b c s := (ends c s (λ r s' o, synth_inv s' ∧ outcome m b r s' o)).

(** *** Dispatching *)

Lemma synth_request_dispatch_ends (m : mrcp_message_t) (s : machine)
    (Q : bool → machine → list (action R) → Prop) :
  synth_core s → message_ok m →
  (needs_speaker (method_id (start_line m)) → is_Some (speaker s)) →
  (synth_inv (set_active_request (Some m) s) →
     Q true (set_active_request (Some m) s) [Dispatch m]) →
  ends (synth_request_dispatch m) s Q.
Proof.
  intros [] Hm Hstop HQ. unfold synth_request_dispatch. sm_run. apply HQ. by split.
Qed.

Lemma synth_response_dispatch_ends (m : mrcp_message_t) (s : machine)
    (Q : bool → machine → list (action R) → Prop) :
  synth_core s →
  (synth_inv (set_active_request None s) →
     Q true (set_active_request None s) [if active s then Dispatch m else Deactivated]) →
  ends (synth_response_dispatch m) s Q.
Proof.
  intros [] HQ. unfold synth_response_dispatch. sm_run. simpl.
  destruct (active s); sm_run; apply HQ; by split.
Qed.

Lemma synth_event_dispatch_ends (m : mrcp_message_t) (s : machine)
    (Q : bool → machine → list (action R) → Prop) :
  Q (active s) s (if active s then [Dispatch m] else []) → ends (synth_event_dispatch m) s Q.
Proof. intros HQ. unfold synth_event_dispatch. sm_run. destruct (active s); by sm_run. Qed.

Lemma synth_idle_core (s : machine) (Q : unit → machine → list (action R) → Prop) :
  synth_core s →
  (∀ s', synth_core s' → s' = set_speaker None (set_state SYNTHESIZER_STATE_IDLE s) → Q tt s' []) →
  ends (synth_state_change SYNTHESIZER_STATE_IDLE) s Q.
Proof. intros [] HQ. unfold synth_state_change. sm_run. by apply HQ. Qed.

Lemma synth_change_ends (x : mrcp_synth_state_e) (s : machine) (Q : unit → machine → list (action R) → Prop) :
  x ≠ SYNTHESIZER_STATE_IDLE → Q tt (set_state x s) [] → ends (synth_state_change x) s Q.
Proof.
  intros Hx HQ. unfold synth_state_change. sm_run. rewrite decide_False by done. by sm_run.
Qed.

#[local] Opaque synth_request_dispatch synth_response_dispatch synth_event_dispatch
  synth_state_change.

(** *** Requests *)

Lemma synth_forward_answers (m x : mrcp_message_t) (s : machine) :
  synth_core s → message_ok x → about m x MRCP_MESSAGE_TYPE_REQUEST →
  (needs_speaker (method_id (start_line m)) → is_Some (speaker s)) →
  answers m (active s) (synth_request_dispatch x) s.
Proof.
  intros Hc Hx Hab Hsp. apply synth_request_dispatch_ends; [done..| |].
  - destruct Hab as (_ & -> & _). done.
  - intros Hi. split; [done|]. split_and!; [done..|]. left. by exists x.
Qed.

Lemma synth_response_answers (m x : mrcp_message_t) (s : machine) :
  synth_core s → about m x MRCP_MESSAGE_TYPE_RESPONSE →
  answers m (active s) (synth_response_dispatch x) s.
Proof.
  intros Hc Hab. apply synth_response_dispatch_ends; [done|].
  intros Hi. split; [done|]. split_and!; [done..|]. right. by exists x.
Qed.

Lemma plain_answers (m : mrcp_message_t) (s : machine) :
  synth_core s → message_ok m →
  answers m (active s) (synth_response_dispatch (mrcp_response_create fresh uninit (Some m))) s.
Proof.
  intros Hc Hm. apply synth_response_answers; [done|].
  by destruct (response_create_ok fresh uninit m Hm) as (_ & ?).
Qed.

Lemma synth_not_valid_answers (m : mrcp_message_t) (s : machine) :
  synth_core s → message_ok m →
  answers m (active s) (synth_response_dispatch (not_valid_response fresh uninit m)) s.
Proof.
  intros Hc Hm. apply synth_response_answers; [done|]. by eapply (response_about fresh uninit).
Qed.

(** The handlers that ignore the result of the dispatcher. *)
Lemma answers_then (m : mrcp_message_t) (b : bool) (c : sm R machine bool) (s : machine) :
  answers m b c s → answers m b (c ≫= λ _, mret true) s.
Proof.
  intros Hc. apply ends_bind. eapply ends_weaken; [exact Hc|].
  intros r s' o (Hi & -> & Hrest). sm_run. by rewrite app_nil_r.
Qed.

Lemma synth_inherit_ok (m : mrcp_message_t) (s : machine) :
  synth_core s → message_ok m →
  message_ok (with_header m (mrcp_header_fields_inherit (header m) (properties s))).
Proof.
  intros [] Hm. apply with_header_ok; [done|]. apply fields_inherit_ok; [apply Hm|done].
Qed.

Lemma synth_stop_response_answers (m : mrcp_message_t) (s : machine) :
  synth_core s → message_ok m →
  answers m (active s) (synth_stop_response fresh uninit m) s.
Proof.
  intros Hc Hm. unfold synth_stop_response, synth_pending_requests_remove. sm_run.
  destruct (response_create_ok fresh uninit m Hm) as (Hr & Ha).
  destruct (pending_requests_remove_ok (queue s) m _ Hr) as (r & E & Hr' & Hl).
  eapply ends_lift; [exact E|]. simpl. sm_run.
  match goal with |- ends _ ?x _ => apply (synth_response_answers m r x) end.
  - destruct Hc. split; try done. simpl. by apply filter_Forall.
  - unfold about. by rewrite Hl.
Qed.

Lemma speak_request_answers (m : mrcp_message_t) (s : machine) :
  synth_core s → message_ok m → method_id (start_line m) = SYNTHESIZER_SPEAK →
  message_type (start_line m) = MRCP_MESSAGE_TYPE_REQUEST →
  answers m (active s) (synth_request_speak fresh uninit m) s.
Proof.
  intros Hc Hm Hmid Ht. pose proof (synth_inherit_ok m s Hc Hm) as Hi.
  assert (~ needs_speaker (method_id (start_line m))) as Hn
    by (rewrite Hmid; unfold needs_speaker; by apply (bool_decide_unpack _)).
  unfold synth_request_speak. sm_run. destruct (speaker s) as [c|] eqn:Hsp.
  - sm_run. match goal with |- ends (synth_response_dispatch ?x) ?s _ =>
      apply (synth_response_answers m x s) end.
    + destruct Hc. split; try done; simpl; [|by rewrite Hsp in *..]. apply Forall_app.
      split; [done|]. apply Forall_singleton. split; [by apply with_line_ok|done].
    + match goal with |- context [mrcp_response_create fresh uninit (Some ?x)] =>
        destruct (response_create_ok fresh uninit x) as (_ & Ha); [by apply with_line_ok|] end.
      done.
  - by apply synth_forward_answers.
Qed.

Lemma synth_request_answers (m : mrcp_message_t) (s : machine) :
  synth_inv s → message_ok m → message_type (start_line m) = MRCP_MESSAGE_TYPE_REQUEST →
  method_id (start_line m) < SYNTHESIZER_METHOD_COUNT →
  answers m (active s) (synth_request_state_update fresh uninit m) s.
Proof.
  intros [Hc Ha] Hm Ht Hlt. unfold synth_request_state_update. rewrite decide_False by lia.
  assert (about m m MRCP_MESSAGE_TYPE_REQUEST) as Hab by done.
  assert (∀ s', synth_core s' → is_Some (speaker s') →
    answers m (active s') (synth_request_dispatch m) s') as Hfwd
    by (intros s' Hs' Hsp; by apply synth_forward_answers).
  assert (~ needs_speaker (method_id (start_line m)) → ∀ s', synth_core s' →
    answers m (active s') (synth_request_dispatch m) s') as Hplain
    by (intros Hn s' Hs'; by apply synth_forward_answers).
  assert (state s = SYNTHESIZER_STATE_SPEAKING → is_Some (speaker s)) as Hspk
    by (intros E; apply Hc; by rewrite E).
  unfold needs_speaker in Hplain.
  destruct (method_id (start_line m)) as [|[|[|[|[|[|[|[|[|n]]]]]]]]] eqn:Hmid; simpl;
    [| | | | | | | | |lia].
  - unfold synth_request_set_params. sm_run.
    destruct (fields_set_ok (properties s) (header m)) as (h & E & Hh); [apply Hc|apply Hm|].
    eapply ends_lift; [exact E|]. sm_run.
    match goal with |- ends _ ?x _ => apply (Hplain ltac:(by apply (bool_decide_unpack _)) x) end.
    destruct Hc. by split.
  - apply Hplain; [by apply (bool_decide_unpack _)|done].
  - by apply speak_request_answers.
  - unfold synth_request_stop. sm_run. destruct (speaker s) as [c|] eqn:Hsp;
      [|by apply synth_stop_response_answers].
    destruct (stop_selects _ _); [|by apply synth_stop_response_answers]. apply Hfwd; [done|by rewrite Hsp].
  - unfold synth_request_pause. apply ends_bind, ends_read, ends_bind, ends_read, answers_then.
    destruct (speaker s) as [c|] eqn:Hsp; [|by apply synth_not_valid_answers].
    case_decide; [|by apply plain_answers]. apply Hfwd; [done|by rewrite Hsp].
  - unfold synth_request_resume. apply ends_bind, ends_read, ends_bind, ends_read, answers_then.
    destruct (speaker s) as [c|] eqn:Hsp; [|by apply synth_not_valid_answers].
    case_decide; [|by apply plain_answers]. apply Hfwd; [done|by rewrite Hsp].
  - unfold synth_request_barge_in_occurred. sm_run. case_decide; [|by apply plain_answers].
    destruct (barge_in_kills m); [by apply Hfwd|by apply plain_answers].
  - unfold synth_request_control. sm_run. case_decide; [|by apply plain_answers]. auto.
  - unfold synth_request_define_lexicon. sm_run. case_decide; [|by apply synth_not_valid_answers].
    apply Hplain; [by apply (bool_decide_unpack _)|done].
Qed.

(** *** Responses *)

Definition pending_ok (p : option (@mrcp_message_t R)) : Prop :=
  from_option (λ m, message_ok m ∧ method_id (start_line m) = SYNTHESIZER_SPEAK) True p.

Lemma synth_pop_core (s : machine) :
  synth_core s → synth_core (set_queue (tail (queue s)) s) ∧ pending_ok (head (queue s)).
Proof.
  intros [? Hq ? ?]. destruct (queue s) as [|m ms] eqn:E; simpl; [by split; [split|]|].
  apply Forall_cons in Hq as [??]. by split; [split|].
Qed.

Lemma synth_pending_start_ends (s : machine) (p : option mrcp_message_t)
    (Q : bool → machine → list (action R) → Prop) :
  synth_inv s → pending_ok p →
  (∀ s', synth_inv s' → state s' = state s → queue s' = queue s → Q true s' (pending_actions p)) →
  ends (synth_pending_start p) s Q.
Proof.
  intros Hs Hp HQ. destruct p as [m|]; simpl; [|sm_run; by apply HQ]. destruct Hp as [Hm Hmid].
  sm_run. apply synth_request_dispatch_ends; [by destruct Hs as [[] _]|done| |].
  - rewrite Hmid. intros Hn. exfalso. revert Hn. unfold needs_speaker. by apply (bool_decide_unpack _).
  - intros Hi. sm_run. by apply HQ.
Qed.

Lemma active_id_ends (m c : mrcp_message_t) (s : machine)
    (Q : mrcp_message_t → machine → list (action R) → Prop) :
  message_ok m → speaker s = Some c →
  (∀ m', message_ok m' → start_line m' = start_line m → Q m' s []) →
  ends (synth_active_id m) s Q.
Proof.
  intros Hm Hsp HQ. unfold synth_active_id. rewrite generic_prepare_id by done. sm_run.
  rewrite Hsp. eapply ends_lift; [done|]. sm_run.
  destruct (id_append_ok m (request_id (start_line c)) Hm) as (m1 & E1 & H1' & L1).
  eapply ends_lift; [exact E1|]. sm_run.
  destruct (generic_property_add_ok m1 (generic_header_num GENERIC_HEADER_ACTIVE_REQUEST_ID_LIST) H1')
    as (b & m2 & E2 & H2 & L2); [done|].
  eapply ends_lift; [exact E2|]. sm_run. apply HQ; [done|]. by rewrite L2.
Qed.

Lemma remove_ends (request response : mrcp_message_t) (s : machine)
    (Q : mrcp_message_t → machine → list (action R) → Prop) :
  synth_core s → message_ok response →
  (∀ r, message_ok r → start_line r = start_line response →
     synth_core (set_queue (unselected request (queue s)) s) →
     Q r (set_queue (unselected request (queue s)) s) []) →
  ends (synth_pending_requests_remove request response) s Q.
Proof.
  intros Hc Hr HQ. unfold synth_pending_requests_remove. sm_run.
  destruct (pending_requests_remove_ok (queue s) request response Hr) as (r & E & Hr' & Hl).
  eapply ends_lift; [exact E|]. simpl. sm_run. apply HQ; [done..|].
  destruct Hc. split; try done. simpl. by apply filter_Forall.
Qed.

Lemma synth_stop_response_ends (m a : mrcp_message_t) (s : machine) :
  synth_inv s → message_ok m → active_request s = Some a → is_Some (speaker s) →
  ends (synth_response_stop m) s (λ b s' o, synth_inv s' ∧ b = true ∧
    state s' = SYNTHESIZER_STATE_IDLE ∧ queue s' = tail (unselected a (queue s)) ∧
    ∃ r, start_line r = start_line m ∧
      o = (if active s then Dispatch r else Deactivated) ::
          pending_actions (head (unselected a (queue s)))).
Proof.
  intros [Hc Ha] Hm Hact [c Hsp]. unfold synth_response_stop. apply ends_bind.
  eapply active_id_ends; [done..|]. intros m1 Hm1 L1. sm_run. rewrite Hact.
  eapply ends_lift; [done|]. apply ends_bind, remove_ends; [done..|]. intros m2 Hm2 L2 Hc2.
  apply ends_bind, synth_idle_core; [done|]. intros s1 Hs1 Heq. sm_run. rewrite pop_front_eq.
  destruct (synth_pop_core s1 Hs1) as [Hs2 Hpm]. sm_run. apply synth_response_dispatch_ends; [done|].
  intros Hi. apply synth_pending_start_ends; [done..|]. intros s' Hs' Hst Hq.
  subst s1. simpl in *. split_and!; try done. exists m2. by rewrite L2.
Qed.

(** PAUSE and RESUME: the machine changes to [x] when the engine succeeded. *)
Lemma toggle_keeps (m : mrcp_message_t) (x : mrcp_synth_state_e) (s : machine) :
  synth_inv s → message_ok m → is_Some (speaker s) → x ≠ SYNTHESIZER_STATE_IDLE →
  keeps (message ← (if decide (status_code (start_line m) = MRCP_STATUS_CODE_SUCCESS) then
               message ← synth_active_id m; synth_state_change x;; mret message
             else mret m);
         synth_response_dispatch message;; mret true) s.
Proof.
  intros [Hc Ha] Hm [c Hsp] Hx. apply ends_bind.
  assert (∀ m s, synth_core s → keeps (synth_response_dispatch m;; mret true) s) as Hd.
  { intros m' s' Hs'. apply ends_bind, synth_response_dispatch_ends; [done|]. intros Hi. by sm_run. }
  case_decide; [|by apply ends_ret, Hd].
  apply ends_bind. eapply active_id_ends; [done..|]. intros m1 Hm1 L1.
  apply ends_bind, synth_change_ends; [done|]. apply ends_ret, Hd. by destruct Hc.
Qed.

Lemma speak_response_keeps (m a : mrcp_message_t) (s : machine) :
  synth_inv s → active_request s = Some a → method_id (start_line a) = SYNTHESIZER_SPEAK →
  keeps (synth_response_speak fresh uninit m) s.
Proof.
  intros [Hc Ha] Hact Hmid. unfold synth_response_speak. apply ends_bind.
  assert (∀ s', synth_inv s' → active_request s' = Some a →
    keeps (pending ← read is_pending;
      if pending : bool then
        request ← read active_request; request ← lift (deref request);
        let event := mrcp_event_create fresh uninit (Some request) SYNTHESIZER_SPEECH_MARKER in
        modify (set_is_pending false);;
        synth_event_dispatch (set_message_state event MRCP_REQUEST_STATE_INPROGRESS)
      else synth_response_dispatch m) s') as Hrest.
  { intros s' Hs' Hact'. sm_run. destruct (is_pending s').
    - sm_run. rewrite Hact'. eapply ends_lift; [done|]. sm_run. apply synth_event_dispatch_ends.
      by destruct Hs' as [[] ?].
    - apply synth_response_dispatch_ends; [apply Hs'|done]. }
  case_decide; [|apply ends_ret, Hrest; [by split|done]].
  sm_run. apply synth_change_ends; [done|]. apply Hrest; [|done]. rewrite Hact in *.
  destruct Hc, Ha as [Hma _]. split; [by split|]. simpl. by rewrite Hact.
Qed.

Lemma synth_response_keeps (m : mrcp_message_t) (s : machine) :
  synth_inv s → message_ok m →
  (∀ a, active_request s = Some a → request_id (start_line a) = request_id (start_line m) →
     method_id (start_line m) = method_id (start_line a)) →
  keeps (synth_response_state_update fresh uninit m) s.
Proof.
  intros Hs Hm Hconf. pose proof Hs as [Hc Ha]. unfold synth_response_state_update. sm_run.
  destruct (active_request s) as [a|] eqn:Hact; [|by sm_run].
  case_decide as Hid; [by sm_run|]. specialize (Hconf a eq_refl Hid). case_decide; [by sm_run|].
  destruct Ha as [Hma Hsp]. rewrite <- Hconf in Hsp. unfold needs_speaker in Hsp.
  assert (∀ m s, synth_core s → keeps (synth_response_dispatch m) s) as Hd
    by (intros; by apply synth_response_dispatch_ends).
  destruct (method_id (start_line m)) as [|[|[|[|[|[|[|[|[|n]]]]]]]]] eqn:Hmid; simpl;
    try (specialize (Hsp ltac:(by apply (bool_decide_unpack _)))); try by apply Hd.
  - unfold synth_response_get_params. sm_run. rewrite Hact. eapply ends_lift; [done|]. sm_run.
    destruct (fields_get_ok (header m) (properties s) (header a)) as (h & E & Hh);
      [apply Hm|apply Hc|apply Hma|].
    eapply ends_lift; [exact E|]. by apply Hd.
  - by eapply speak_response_keeps.
  - eapply ends_weaken; [by apply (synth_stop_response_ends m a)|]. by intros b s' o [? _].
  - by apply toggle_keeps.
  - by apply toggle_keeps.
  - unfold synth_response_barge_in_occurred. destruct Hsp as [c Hsp]. apply ends_bind.
    eapply active_id_ends; [done..|]. intros m1 Hm1 L1. sm_run. rewrite Hact.
    eapply ends_lift; [done|]. apply ends_bind, remove_ends; [done..|]. intros m2 Hm2 L2 Hc2.
    apply ends_bind, synth_idle_core; [done|]. intros s1 Hs1 Heq. by apply Hd.
  - unfold synth_response_control. destruct Hsp as [c Hsp]. apply ends_bind.
    eapply active_id_ends; [done..|]. intros m1 Hm1 L1. by apply Hd.
Qed.

(** *** Events *)

Lemma synth_complete_ends (m c : mrcp_message_t) (s : machine) :
  synth_inv s → message_ok m → speaker s = Some c →
  request_id (start_line c) = request_id (start_line m) →
  from_option (λ a, ~ needs_speaker (method_id (start_line a))) True (active_request s) →
  ends (synth_event_speak_complete m) s (λ b s' o, synth_inv s' ∧ b = true ∧
    state s' = SYNTHESIZER_STATE_IDLE ∧ queue s' = tail (queue s) ∧
    ∃ e, start_line e = start_line m ∧
      o = (if active s then [Dispatch e] else []) ++ pending_actions (head (queue s))).
Proof.
  intros Hs Hm Hsp Hid Hact.
  destruct (completion_cause_ok SYNTHESIZER_HEADER_COMPLETION_CAUSE
    SYNTHESIZER_COMPLETION_CAUSE_NORMAL m Hm) as (m' & E & _ & L); [done|].
  unfold synth_event_speak_complete. sm_run. rewrite Hsp.
  rewrite decide_False by (intros Hn; by apply Hn). sm_run.
  assert (synth_ending (active_request s) = false) as ->.
  { destruct (active_request s) as [a|]; [|done]. simpl in *. unfold needs_speaker in Hact.
    apply orb_false_iff. split; apply bool_decide_eq_false; set_solver. }
  sm_run. eapply ends_lift; [exact E|]. sm_run. apply synth_idle_core; [apply Hs|]. intros s1 Hs1 Heq.
  destruct (synth_pop_core s1 Hs1) as [Hs2 Hpm].
  apply ends_bind, synth_event_dispatch_ends. sm_run. rewrite pop_front_eq. sm_run.
  apply synth_pending_start_ends; [|done|].
  - split; [done|]. subst s1. destruct Hs as [_ Ha]. simpl in *.
    destruct (active_request s); [|done]. by destruct Ha.
  - subst s1. intros s' Hs' Hst Hq. split_and!; try done. by exists m'.
Qed.

Lemma synth_event_keeps (m : mrcp_message_t) (s : machine) :
  synth_inv s → message_ok m →
  (method_id (start_line m) = SYNTHESIZER_SPEAK_COMPLETE →
   ∀ a, active_request s = Some a → needs_speaker (method_id (start_line a)) →
   synth_ending (Some a) = true) →
  keeps (synth_event_state_update m) s.
Proof.
  intros Hs Hm Hend. unfold synth_event_state_update. case_decide; [by sm_run|].
  destruct (method_id (start_line m)) as [|[|n]] eqn:Hmid; simpl;
    [|specialize (Hend eq_refl)|lia].
  - unfold synth_event_speech_marker. sm_run. destruct (speaker s); [|by sm_run].
    case_decide; [by sm_run|by apply synth_event_dispatch_ends].
  - destruct (speaker s) as [c|] eqn:Hsp;
      [|unfold synth_event_speak_complete; sm_run; rewrite Hsp; by sm_run].
    destruct (decide (request_id (start_line c) = request_id (start_line m))) as [Hid|Hid].
    2:{ unfold synth_event_speak_complete. sm_run. rewrite Hsp.
        rewrite decide_True by done. by sm_run. }
    destruct (synth_ending (active_request s)) eqn:Hending.
    { unfold synth_event_speak_complete. sm_run. rewrite Hsp.
      rewrite decide_False by (intros Hn; by apply Hn). sm_run. rewrite Hending. by sm_run. }
    eapply ends_weaken; [apply (synth_complete_ends m c); try done|by intros b s' o [? _]].
    destruct (active_request s) as [a|]; [|done]. simpl. intros Hn.
    by rewrite (Hend a eq_refl Hn) in Hending.
Qed.

(** *** Deactivation *)

Lemma synth_deactivate_keeps (s : machine) :
  synth_inv s → keeps (synth_state_deactivate fresh uninit) (set_synth_active false s).
Proof.
  intros Hs. assert (synth_inv (set_synth_active false s)) as Hs'
    by (destruct Hs as [[] ?]; split; [by split|done]). clear Hs.
  unfold synth_state_deactivate. sm_run.
  destruct (speaker (set_synth_active false s)) as [source|] eqn:Hr; [|by sm_run].
  apply synth_request_dispatch_ends; [by apply Hs'| |by intros _; rewrite Hr|done].
  apply deactivate_request_ok. destruct Hs' as [[_ _ Hm _] _]. by rewrite Hr in Hm.
Qed.

#[local] Instance synth_machine_here : StateMachine R machine := synth_machine fresh uninit.

Lemma synth_handle_safe (s : machine) (i : input R) :
  synth_inv s → synth_accepts s i → keeps (handle i) s.
Proof.
  intros Hs Hi. destruct i as [m|]; simpl in *.
  - destruct Hi as (Hm & Hresp & Hev). unfold mrcp_state_machine_update. simpl.
    unfold synth_state_update. destruct (message_type (start_line m)) eqn:Ht.
    + by sm_run.
    + destruct (decide (method_id (start_line m) < SYNTHESIZER_METHOD_COUNT)) as [Hlt|Hge].
      * eapply ends_weaken; [by apply synth_request_answers|]. by intros b s' o [? _].
      * unfold synth_request_state_update. rewrite decide_True by lia. by sm_run.
    + apply synth_response_keeps; auto.
    + apply synth_event_keeps; [done..|]. exact (Hev eq_refl).
  - unfold mrcp_state_machine_deactivate. apply ends_bind, ends_modify. by apply synth_deactivate_keeps.
Qed.

#[local] Instance synth_safe : SafeMachine R machine := {
  machine_inv := synth_inv;
  accepts := synth_accepts;
  handle_safe := synth_handle_safe
}.

Lemma synth_create_inv (rvt : mrcp_header_vtable_t R) (v : mrcp_version_e) :
  (Z.of_nat (field_count rvt) < 2 ^ 32)%Z →
  synth_inv (mrcp_synth_state_machine_create fresh rvt v).
Proof.
  intros Hr. split; [|done]. split; try done. simpl. by apply data_alloc_ok.
Qed.

(** C16: the synthesizer state machine never dereferences a NULL pointer, when
    the engine does not report the end of the speech while it owes the
    response to PAUSE, RESUME or CONTROL.  From its creation on, any such
    sequence of client requests, engine responses and events and deactivations
    is handled to the end without a fault, and there is a speaking request
    whenever the machine is not idle. *)
Theorem synth_never_faults (rvt : mrcp_header_vtable_t R) (v : mrcp_version_e)
  (ins : list (input R)) (Hr : (Z.of_nat (field_count rvt) < 2 ^ 32)%Z)
  (Hins : accepted (mrcp_synth_state_machine_create fresh rvt v) ins) :
  ∃ bs s o, run ins (mrcp_synth_state_machine_create fresh rvt v) = Ok (bs, s, o) ∧
    synth_inv s ∧ length bs = length ins.
Proof. exact (run_safe _ ins (synth_create_inv rvt v Hr) Hins). Qed.

(** Every client request to the synthesizer gets one answer: it is handed
    to the engine, or answered at once with a response of the same request
    identifier and method, and never both or neither. *)
Theorem synth_request_answered (m : mrcp_message_t) (s : machine)
  (Hs : synth_inv s) (Hact : active s = true) (Hm : message_ok m)
  (Ht : message_type (start_line m) = MRCP_MESSAGE_TYPE_REQUEST)
  (Hmid : method_id (start_line m) < SYNTHESIZER_METHOD_COUNT) :
  ∃ s' x, synth_state_update fresh uninit m s = Ok (true, s', [Dispatch x]) ∧ synth_inv s' ∧
    request_id (start_line x) = request_id (start_line m) ∧
    method_id (start_line x) = method_id (start_line m) ∧
    ((message_type (start_line x) = MRCP_MESSAGE_TYPE_REQUEST ∧ active_request s' = Some x) ∨
     (message_type (start_line x) = MRCP_MESSAGE_TYPE_RESPONSE ∧ active_request s' = None)).
Proof.
  destruct (synth_request_answers m s Hs Hm Ht Hmid) as (b & s' & o & E & Hi & -> & _ & Hout).
  rewrite Hact in Hout. unfold synth_state_update. rewrite Ht, E.
  destruct Hout as [(x & -> & (? & ? & ?) & ?)|(x & -> & (? & ? & ?) & ?)];
    exists s', x; split_and!; auto.
Qed.

(** The end of the speech while the response to another request is due. *)
Lemma complete_while_waiting (m e c : mrcp_message_t) (s : machine) :
  synth_core s → message_ok e → speaker s = Some c → active_request s = Some m →
  request_id (start_line c) = request_id (start_line e) →
  synth_ending (Some m) = false → queue s = [] →
  ends (synth_event_speak_complete e) s (λ _ s' _, speaker s' = None ∧ active_request s' = Some m).
Proof.
  intros Hc He Hsp Hact Hid Hend Hq.
  destruct (completion_cause_ok SYNTHESIZER_HEADER_COMPLETION_CAUSE
    SYNTHESIZER_COMPLETION_CAUSE_NORMAL e He) as (e' & E & _ & _); [done|].
  unfold synth_event_speak_complete. sm_run. rewrite Hsp.
  rewrite decide_False by (intros Hn; by apply Hn). sm_run. rewrite Hact, Hend.
  sm_run. eapply ends_lift; [exact E|]. sm_run. apply synth_idle_core; [done|]. intros s1 Hs1 ->.
  apply ends_bind, synth_event_dispatch_ends. sm_run. simpl. rewrite Hq. simpl. by sm_run.
Qed.

(** A SPEAK-COMPLETE event between a PAUSE request and its response makes
    the synthesizer state machine dereference NULL.  The request was speaking
    when PAUSE was handed to the engine; the event of its end resets the
    speaking request; the successful response to PAUSE then reads its
    identifier. *)
Theorem synth_pause_complete_faults (m e r c : mrcp_message_t) (s : machine)
  (Hs : synth_inv s) (Hstate : state s = SYNTHESIZER_STATE_SPEAKING)
  (Hsp : speaker s = Some c) (Hq : queue s = [])
  (Hm : message_ok m) (Htm : message_type (start_line m) = MRCP_MESSAGE_TYPE_REQUEST)
  (Hmm : method_id (start_line m) = SYNTHESIZER_PAUSE)
  (He : message_ok e) (Hte : message_type (start_line e) = MRCP_MESSAGE_TYPE_EVENT)
  (Hme : method_id (start_line e) = SYNTHESIZER_SPEAK_COMPLETE)
  (Hide : request_id (start_line c) = request_id (start_line e))
  (Htr : message_type (start_line r) = MRCP_MESSAGE_TYPE_RESPONSE)
  (Hmr : method_id (start_line r) = SYNTHESIZER_PAUSE)
  (Hidr : request_id (start_line m) = request_id (start_line r))
  (Hst : status_code (start_line r) = MRCP_STATUS_CODE_SUCCESS) :
  run [Update m; Update e; Update r] s = Fault.
Proof.
  pose proof Hs as [Hc _].
  assert (ends (handle (Update m)) s (λ _ s' _, s' = set_active_request (Some m) s))
    as (b1 & s1 & o1 & E1 & ->).
  { unfold handle, mrcp_state_machine_update. simpl. unfold synth_state_update. rewrite Htm.
    unfold synth_request_state_update. rewrite Hmm. simpl. unfold synth_request_pause. sm_run.
    rewrite Hsp, Hstate. rewrite decide_True by done. apply synth_request_dispatch_ends; [done..| |].
    - intros _. by rewrite Hsp.
    - intros _. by sm_run. }
  assert (ends (handle (Update e)) (set_active_request (Some m) s)
    (λ _ s' _, speaker s' = None ∧ active_request s' = Some m)) as (b2 & s2 & o2 & E2 & Hs2 & Ha2).
  { unfold handle, mrcp_state_machine_update. simpl. unfold synth_state_update. rewrite Hte.
    unfold synth_event_state_update. rewrite Hme. simpl.
    apply (complete_while_waiting m e c); try done; [by destruct Hc|simpl; by rewrite Hmm]. }
  assert (handle (Update r) s2 = Fault) as E3.
  { unfold handle, mrcp_state_machine_update. simpl. unfold synth_state_update. rewrite Htr.
    unfold synth_response_state_update. unfold mbind at 1, sm_bind at 1, read at 1.
    cbn [mbind res_bind]. rewrite Ha2. rewrite decide_False by (intros Hn; by apply Hn).
    rewrite Hmr. simpl. unfold synth_response_pause. rewrite decide_True by done.
    unfold synth_active_id, mbind, sm_bind, read, lift. cbn [mbind res_bind]. by rewrite Hs2. }
  cbn [run]. unfold mbind, sm_bind. rewrite E1. cbn [mbind res_bind]. rewrite E2.
  cbn [mbind res_bind]. by rewrite E3.
Qed.

End Synth.

(** ** Concrete runs *)

#[export] Instance always_kill : SynthHeader nat := λ _, true.

(** A machine that speaks the request 1. *)
Definition speaking : mrcp_synth_state_machine_t nat :=
  mk_synth true SYNTHESIZER_STATE_SPEAKING false None (Some (request_of SYNTHESIZER_SPEAK 1)) []
    (mrcp_message_header_create (mrcp_generic_header_vtable_get no_pair MRCP_VERSION_2) cause_vtable).

Lemma speaking_inv : synth_inv speaking.
Proof.
  split; [split|exact I].
  - by apply (data_alloc_ok no_pair mrcp_message_header_init cause_vtable MRCP_VERSION_2).
  - apply List.Forall_nil.
  - apply request_of_ok.
  - intros _. by eexists.
Qed.

Lemma synth_request_answered_witness :
  ∃ s' x, synth_state_update no_pair 0 (request_of SYNTHESIZER_SPEAK 2) speaking =
      Ok (true, s', [Dispatch x]) ∧ request_id (start_line x) = 2%Z.
Proof.
  destruct (synth_request_answered no_pair 0 (request_of SYNTHESIZER_SPEAK 2) speaking)
    as (s' & x & E & _ & Hid & _).
  - apply speaking_inv.
  - reflexivity.
  - apply request_of_ok.
  - reflexivity.
  - vm_compute. lia.
  - exists s', x. split; [exact E|exact Hid].
Defined.

Definition paused_response : @mrcp_message_t nat :=
  set_status (response_of SYNTHESIZER_PAUSE 2 MRCP_REQUEST_STATE_COMPLETE) MRCP_STATUS_CODE_SUCCESS.

Lemma synth_pause_complete_faults_witness :
  @run nat _ (synth_machine no_pair 0)
    [Update (request_of SYNTHESIZER_PAUSE 2);
     Update (event_of SYNTHESIZER_SPEAK_COMPLETE 1 MRCP_REQUEST_STATE_COMPLETE);
     Update paused_response] speaking = Fault.
Proof.
  apply (synth_pause_complete_faults no_pair 0 (request_of SYNTHESIZER_PAUSE 2)
    (event_of SYNTHESIZER_SPEAK_COMPLETE 1 MRCP_REQUEST_STATE_COMPLETE) paused_response
    (request_of SYNTHESIZER_SPEAK 1) speaking).
  - apply speaking_inv.
  - reflexivity.
  - reflexivity.
  - reflexivity.
  - apply request_of_ok.
  - reflexivity.
  - reflexivity.
  - apply event_of_ok.
  - reflexivity.
  - reflexivity.
  - reflexivity.
  - reflexivity.
  - reflexivity.
  - reflexivity.
  - reflexivity.
Defined.

Lemma synth_never_faults_witness :
  ∃ bs s o, @run nat _ (synth_machine no_pair 0)
    [Update (request_of SYNTHESIZER_SPEAK 1);
     Update (response_of SYNTHESIZER_SPEAK 1 MRCP_REQUEST_STATE_INPROGRESS);
     Update (request_of SYNTHESIZER_PAUSE 2); Deactivate]
    (mrcp_synth_state_machine_create no_pair cause_vtable MRCP_VERSION_2) = Ok (bs, s, o) ∧
  synth_inv s ∧ length bs = 4.
Proof.
  apply (synth_never_faults no_pair 0 cause_vtable MRCP_VERSION_2); [done|].
  split; [split; [apply request_of_ok|split; discriminate]|]. intros b1 s1 o1 E1.
  split; [split; [apply response_of_ok|split; [|discriminate]]|].
  - intros _ a Ha _.
    assert (match @handle nat _ (synth_machine_here no_pair 0) (Update (request_of SYNTHESIZER_SPEAK 1))
      (mrcp_synth_state_machine_create no_pair cause_vtable MRCP_VERSION_2) with
      | Ok (_, s, _) => method_id ∘ start_line <$> active_request s
      | Fault => None
      end = Some SYNTHESIZER_SPEAK) as Hmid by (vm_compute; reflexivity).
    rewrite E1, Ha in Hmid. injection Hmid as Hmid. symmetry. exact Hmid.
  - intros b2 s2 o2 E2. split; [split; [apply request_of_ok|split; discriminate]|].
    intros b3 s3 o3 E3. split; [exact I|]. intros b4 s4 o4 E4. exact I.
Defined.
