(* ===== verification/RecorderMachine.v ===== *)
(** * RecorderMachine: the recorder state machine
    ([mrcp_recorder_state_machine.c]).

    The messages are values: the machine does not change a request after it
    has stored it in [active_request] or [record]. *)
From S2P Require Import Prelude CString StringTable TextStream StartLine HeaderSection.
From S2P Require Import TextMessage GenericHeader MrcpMessage StateMachine StateMachineTheory.

Inductive mrcp_recorder_state_e :=
  | RECORDER_STATE_IDLE
  | RECORDER_STATE_RECORDING.

#[export] Instance mrcp_recorder_state_e_eq_dec : EqDecision mrcp_recorder_state_e.
Proof. solve_decision. Defined.

(** Methods and events, by number. *)
Notation RECORDER_RECORD := 2 (only parsing).
Notation RECORDER_STOP := 3 (only parsing).
Notation RECORDER_METHOD_COUNT := 5 (only parsing).
Notation RECORDER_START_OF_INPUT := 0 (only parsing).
Notation RECORDER_RECORD_COMPLETE := 1 (only parsing).
Notation RECORDER_EVENT_COUNT := 2 (only parsing).

Notation RECORDER_HEADER_COMPLETION_CAUSE := 2 (only parsing).
Notation RECORDER_COMPLETION_CAUSE_SUCCESS_SILENCE := 0 (only parsing).

Record mrcp_recorder_state_machine_t (R : Type) := mk_recorder {
  active : bool;
  state : mrcp_recorder_state_e;
  active_request : option (@mrcp_message_t R);
  record : option (@mrcp_message_t R);
  properties : @mrcp_message_header_t R
}.
Arguments mk_recorder {R}.
Arguments active {R}.
Arguments state {R}.
Arguments active_request {R}.
Arguments record {R}.
Arguments properties {R}.

Section Recorder.
  Context `{AprFormat} {R : Type} `{CompletionCause R} (fresh : apt_pair_t) (uninit : nat).
  Notation machine := (mrcp_recorder_state_machine_t R).
  Notation M := (sm R machine).

Definition set_recorder_active (b : bool) (s : machine) : machine :=
  mk_recorder b (state s) (active_request s) (record s) (properties s).
Definition set_state (x : mrcp_recorder_state_e) (s : machine) : machine :=
  mk_recorder (active s) x (active_request s) (record s) (properties s).
Definition set_active_request (m : option mrcp_message_t) (s : machine) : machine :=
  mk_recorder (active s) (state s) m (record s) (properties s).
Definition set_record (m : option mrcp_message_t) (s : machine) : machine :=
  mk_recorder (active s) (state s) (active_request s) m (properties s).
Definition set_properties (h : mrcp_message_header_t) (s : machine) : machine :=
  mk_recorder (active s) (state s) (active_request s) (record s) h.

Definition recorder_request_dispatch (message : mrcp_message_t) : M bool :=
  modify (set_active_request (Some message));; on_dispatch message.

Definition recorder_response_dispatch (message : mrcp_message_t) : M bool :=
  modify (set_active_request None);;
  is_active ← read active;
  if is_active : bool then on_dispatch message else on_deactivate.

Definition recorder_event_dispatch (message : mrcp_message_t) : M bool :=
  is_active ← read active;
  if is_active : bool then on_dispatch message else mret false.

Definition recorder_state_change (x : mrcp_recorder_state_e) : M unit :=
  modify (set_state x);;
  if decide (x = RECORDER_STATE_IDLE) then modify (set_record None) else mret tt.

Definition recorder_request_set_params (message : mrcp_message_t) : M bool :=
  props ← read properties;
  props ← lift (mrcp_header_fields_set props (header message));
  modify (set_properties props);;
  recorder_request_dispatch message.

Definition recorder_response_set_params : mrcp_message_t → M bool := recorder_response_dispatch.

Definition recorder_request_get_params : mrcp_message_t → M bool := recorder_request_dispatch.

Definition recorder_response_get_params (message : mrcp_message_t) : M bool :=
  props ← read properties;
  request ← read active_request;
  request ← lift (deref request);
  h ← lift (mrcp_header_fields_get (header message) props (header request));
  recorder_response_dispatch (with_header message h).

Definition recorder_request_record (message : mrcp_message_t) : M bool :=
  props ← read properties;
  let message := with_header message (mrcp_header_fields_inherit (header message) props) in
  x ← read state;
  if decide (x = RECORDER_STATE_RECORDING) then
    recorder_response_dispatch (not_valid_response fresh uninit message)
  else recorder_request_dispatch message.

Definition recorder_response_record (message : mrcp_message_t) : M bool :=
  (if decide (request_state (start_line message) = MRCP_REQUEST_STATE_INPROGRESS) then
     request ← read active_request;
     modify (set_record request);;
     recorder_state_change RECORDER_STATE_RECORDING
   else mret tt);;
  recorder_response_dispatch message.

Definition recorder_request_stop (message : mrcp_message_t) : M bool :=
  x ← read state;
  if decide (x = RECORDER_STATE_RECORDING) then recorder_request_dispatch message
  else recorder_response_dispatch (mrcp_response_create fresh uninit (Some message)).

Definition recorder_response_stop (message : mrcp_message_t) : M bool :=
  let message := mrcp_generic_header_prepare message in
  current ← read record;
  current ← lift (deref current);
  message ← lift (message_id_append message (request_id (start_line current)));
  '(_, message) ← lift (mrcp_generic_header_property_add message
                          (generic_header_num GENERIC_HEADER_ACTIVE_REQUEST_ID_LIST));
  recorder_state_change RECORDER_STATE_IDLE;;
  recorder_response_dispatch message.

Definition recorder_request_start_timers (message : mrcp_message_t) : M bool :=
  x ← read state;
  if decide (x = RECORDER_STATE_RECORDING) then recorder_request_dispatch message
  else recorder_response_dispatch (not_valid_response fresh uninit message).

Definition recorder_response_start_timers : mrcp_message_t → M bool := recorder_response_dispatch.

Definition recorder_event_start_of_input (message : mrcp_message_t) : M bool :=
  current ← read record;
  match current with
  | None => mret false
  | Some current =>
      if decide (request_id (start_line current) ≠ request_id (start_line message))
      then mret false
      else recorder_event_dispatch (set_message_state message MRCP_REQUEST_STATE_INPROGRESS)
  end.

Definition recorder_event_record_complete (message : mrcp_message_t) : M bool :=
  current ← read record;
  match current with
  | None => mret false
  | Some current =>
      if decide (request_id (start_line current) ≠ request_id (start_line message))
      then mret false
      else
        request ← read active_request;
        if decide (method_id ∘ start_line <$> request = Some RECORDER_STOP) then mret false
        else
          message ← lift (completion_cause_default RECORDER_HEADER_COMPLETION_CAUSE
                            RECORDER_COMPLETION_CAUSE_SUCCESS_SILENCE message);
          recorder_state_change RECORDER_STATE_IDLE;;
          recorder_event_dispatch message
  end.

(** The method arrays. *)
Definition recorder_request_method_array : list (mrcp_message_t → M bool) :=
  [recorder_request_set_params; recorder_request_get_params; recorder_request_record;
   recorder_request_stop; recorder_request_start_timers].

Definition recorder_response_method_array : list (mrcp_message_t → M bool) :=
  [recorder_response_set_params; recorder_response_get_params; recorder_response_record;
   recorder_response_stop; recorder_response_start_timers].

Definition recorder_event_method_array : list (mrcp_message_t → M bool) :=
  [recorder_event_start_of_input; recorder_event_record_complete].

Definition recorder_request_state_update (message : mrcp_message_t) : M bool :=
  if decide (RECORDER_METHOD_COUNT ≤ method_id (start_line message)) then mret false
  else
    match recorder_request_method_array !! method_id (start_line message) with
    | Some method => method message
    | None => recorder_request_dispatch message
    end.

Definition recorder_response_state_update (message : mrcp_message_t) : M bool :=
  request ← read active_request;
  match request with
  | None => mret false
  | Some request =>
      if decide (request_id (start_line request) ≠ request_id (start_line message))
      then mret false
      else if decide (RECORDER_METHOD_COUNT ≤ method_id (start_line message)) then mret false
      else
        match recorder_response_method_array !! method_id (start_line message) with
        | Some method => method message
        | None => recorder_response_dispatch message
        end
  end.

Definition recorder_event_state_update (message : mrcp_message_t) : M bool :=
  if decide (RECORDER_EVENT_COUNT ≤ method_id (start_line message)) then mret false
  else
    match recorder_event_method_array !! method_id (start_line message) with
    | Some method => method message
    | None => recorder_event_dispatch message
    end.

Definition recorder_state_update (message : mrcp_message_t) : M bool :=
  match message_type (start_line message) with
  | MRCP_MESSAGE_TYPE_REQUEST => recorder_request_state_update message
  | MRCP_MESSAGE_TYPE_RESPONSE => recorder_response_state_update message
  | MRCP_MESSAGE_TYPE_EVENT => recorder_event_state_update message
  | MRCP_MESSAGE_TYPE_UNKNOWN => mret false
  end.

Definition recorder_state_deactivate : M bool :=
  x ← read state;
  if decide (x ≠ RECORDER_STATE_RECORDING) then mret false
  else
    source ← read record;
    match source with
    | None => mret false
    | Some source => recorder_request_dispatch (deactivate_request fresh uninit RECORDER_STOP source)
    end.

Definition recorder_machine : StateMachine R machine := {|
  set_active := set_recorder_active;
  update := recorder_state_update;
  deactivate := recorder_state_deactivate
|}.

Definition mrcp_recorder_state_machine_create (rvt : mrcp_header_vtable_t R) (v : mrcp_version_e)
    : machine :=
  mk_recorder true RECORDER_STATE_IDLE None None
    (mrcp_message_header_create (mrcp_generic_header_vtable_get fresh v) rvt).

End Recorder.
