(* ===== verification/RecorderRefinement.v ===== *)
(** * RecorderRefinement: the recorder state machine refines an abstract machine
    that holds the identifier of the recording in progress and the request it
    waits for, and sees of a message its type, method, identifier and state
    only. *)
From S2P Require Import Prelude CString StringTable TextStream StartLine HeaderSection.
From S2P Require Import TextMessage GenericHeader MrcpMessage StateMachine StateMachineTheory RecorderMachine.

(** ** The abstract machine *)

Record recorder_view := mk_view {
  v_active : bool;
  v_recording : option Z;
  v_waiting : option (nat * Z)
}.

(** What a message says. *)
Record label := mk_label {
  l_type : mrcp_message_type_e;
  l_method : nat;
  l_id : Z;
  l_state : mrcp_request_state_e
}.

Notation said := (option (mrcp_message_type_e * nat * Z)).

Section Spec.
  Context (v : recorder_view) (l : label).

(** Hand the request to the engine. *)
Definition v_forward : recorder_view * list said :=
  (mk_view (v_active v) (v_recording v) (Some (l_method l, l_id l)),
   [Some (MRCP_MESSAGE_TYPE_REQUEST, l_method l, l_id l)]).

(** Answer with a response; the recording in progress becomes [r]. *)
Definition v_respond (r : option Z) : recorder_view * list said :=
  (mk_view (v_active v) r None,
   [if v_active v then Some (MRCP_MESSAGE_TYPE_RESPONSE, l_method l, l_id l) else None]).

(** Pass an event to the client. *)
Definition v_event (r : option Z) : recorder_view * list said :=
  (mk_view (v_active v) r (v_waiting v),
   if v_active v then [Some (MRCP_MESSAGE_TYPE_EVENT, l_method l, l_id l)] else []).

Definition recorder_spec_request : recorder_view * list said :=
  let busy := bool_decide (is_Some (v_recording v)) in
  match l_method l with
  | 0 | 1 => v_forward
  | 2 => if busy then v_respond (v_recording v) else v_forward
  | 3 | 4 => if busy then v_forward else v_respond (v_recording v)
  | _ => (v, [])
  end.

Definition recorder_spec_response : recorder_view * list said :=
  match v_waiting v with
  | None => (v, [])
  | Some (_, id) =>
      if decide (id ≠ l_id l) then (v, [])
      else
        match l_method l with
        | 2 => v_respond (if decide (l_state l = MRCP_REQUEST_STATE_INPROGRESS)
                          then Some id else v_recording v)
        | 3 => v_respond None
        | 0 | 1 | 4 => v_respond (v_recording v)
        | _ => (v, [])
        end
  end.

Definition recorder_spec_event : recorder_view * list said :=
  if decide (v_recording v = Some (l_id l)) then
    match l_method l with
    | 0 => v_event (v_recording v)
    | 1 => if decide (fst <$> v_waiting v = Some RECORDER_STOP) then (v, []) else v_event None
    | _ => (v, [])
    end
  else (v, []).

Definition recorder_spec : recorder_view * list said :=
  match l_type l with
  | MRCP_MESSAGE_TYPE_REQUEST => recorder_spec_request
  | MRCP_MESSAGE_TYPE_RESPONSE => recorder_spec_response
  | MRCP_MESSAGE_TYPE_EVENT => recorder_spec_event
  | MRCP_MESSAGE_TYPE_UNKNOWN => (v, [])
  end.

End Spec.

(** Deactivation stops the recording in progress. *)
Definition recorder_spec_deactivate (v : recorder_view) : recorder_view * list said :=
  let v := mk_view false (v_recording v) (v_waiting v) in
  match v_recording v with
  | None => (v, [])
  | Some id => v_forward v (mk_label MRCP_MESSAGE_TYPE_REQUEST RECORDER_STOP (u32 (id + 1))
                              MRCP_REQUEST_STATE_UNKNOWN)
  end.

Definition recorder_spec_step (v : recorder_view) (i : option label) : recorder_view * list said :=
  match i with
  | Some l => recorder_spec v l
  | None => recorder_spec_deactivate v
  end.

Fixpoint recorder_spec_run (v : recorder_view) (ls : list (option label))
    : recorder_view * list said :=
  match ls with
  | [] => (v, [])
  | l :: ls =>
      let '(v, o) := recorder_spec_step v l in
      let '(v, o') := recorder_spec_run v ls in
      (v, o ++ o')
  end.

(** ** Refinement *)

Section Refine.
  Context `{AprFormat} {R : Type} `{CompletionCause R} (fresh : apt_pair_t) (uninit : nat).
  Notation machine := (mrcp_recorder_state_machine_t R).

Definition message_label (m : @mrcp_message_t R) : label :=
  let sl := start_line m in mk_label (message_type sl) (method_id sl) (request_id sl) (request_state sl).

Definition input_label (i : input R) : option label :=
  match i with Update m => Some (message_label m) | Deactivate => None end.

Definition view (s : machine) : recorder_view :=
  mk_view (active s) (request_id ∘ start_line <$> record s)
    ((λ a, (method_id (start_line a), request_id (start_line a))) <$> active_request s).

Record recorder_inv (s : machine) : Prop := {
  rd_properties : header_ok (properties s);
  rd_record : from_option message_ok True (record s);
  rd_state : state s = RECORDER_STATE_RECORDING ↔ is_Some (record s);
  rd_active : from_option (λ a, message_ok a ∧
    (method_id (start_line a) = RECORDER_STOP → is_Some (record s))) True (active_request s)
}.

Definition recorder_accepts (s : machine) (i : input R) : Prop :=
  match i with
  | Deactivate => True
  | Update m => message_ok m ∧
      (message_type (start_line m) = MRCP_MESSAGE_TYPE_RESPONSE →
       ∀ a, active_request s = Some a →
       request_id (start_line a) = request_id (start_line m) →
       method_id (start_line m) = method_id (start_line a))
  end.

(** A computation that ends as the abstract step [a] says. *)
Definition simulates (a : recorder_view * list said) (b : bool) (s' : machine)
    (o : list (action R)) : Prop :=
  recorder_inv s' ∧ a = (view s', action_text <$> o).

Lemma forward_simulates (m x : mrcp_message_t) (s : machine) :
  recorder_inv s → message_ok x → about m x MRCP_MESSAGE_TYPE_REQUEST →
  (method_id (start_line m) = RECORDER_STOP → is_Some (record s)) →
  ends (recorder_request_dispatch x) s (simulates (v_forward (view s) (message_label m))).
Proof.
  intros [] Hx (Hid & Hmid & Ht) Hstop. unfold recorder_request_dispatch. sm_run.
  split; [split; try done; simpl; by rewrite Hmid|].
  unfold v_forward, view. simpl. by rewrite Hid, Hmid, Ht.
Qed.

Lemma respond_simulates (m x : mrcp_message_t) (s : machine) (v : recorder_view) :
  header_ok (properties s) → from_option message_ok True (record s) →
  (state s = RECORDER_STATE_RECORDING ↔ is_Some (record s)) →
  v_active v = active s → about m x MRCP_MESSAGE_TYPE_RESPONSE →
  ends (recorder_response_dispatch x) s
    (simulates (v_respond v (message_label m) (request_id ∘ start_line <$> record s))).
Proof.
  intros Hp Hr Hst Hv (Hid & Hmid & Ht). unfold recorder_response_dispatch. sm_run. simpl.
  unfold v_respond. rewrite Hv.
  destruct (active s) eqn:Ha; sm_run; (split; [by split|]); unfold view; simpl;
    by rewrite ?Hid, ?Hmid, ?Ht, ?Ha.
Qed.

#[local] Opaque recorder_request_dispatch recorder_response_dispatch.

Lemma view_busy (s : machine) :
  recorder_inv s →
  bool_decide (is_Some (v_recording (view s))) = bool_decide (state s = RECORDER_STATE_RECORDING).
Proof.
  intros []. apply bool_decide_ext. rewrite rd_state0. simpl. by rewrite fmap_is_Some.
Qed.

Lemma request_simulates (m : mrcp_message_t) (s : machine) :
  recorder_inv s → message_ok m → message_type (start_line m) = MRCP_MESSAGE_TYPE_REQUEST →
  ends (recorder_request_state_update fresh uninit m) s
    (simulates (recorder_spec_request (view s) (message_label m))).
Proof.
  intros Hs Hm Ht. unfold recorder_request_state_update, recorder_spec_request.
  rewrite view_busy by done. simpl l_method.
  assert (about m m MRCP_MESSAGE_TYPE_REQUEST) as Hab by done.
  destruct (response_create_ok fresh uninit m Hm) as (_ & Hresp).
  assert (about m (not_valid_response fresh uninit m) MRCP_MESSAGE_TYPE_RESPONSE) as Hnv
    by (by eapply (response_about fresh uninit)).
  case_decide as Hge.
  { destruct (method_id (start_line m)) as [|[|[|[|[|n]]]]];
      try lia. by sm_run. }
  pose proof Hs as [Hp Hr Hst Ha].
  destruct (method_id (start_line m)) as [|[|[|[|[|n]]]]] eqn:Hmid; simpl;
    [| | | | |lia].
  - unfold recorder_request_set_params. sm_run.
    destruct (fields_set_ok (properties s) (header m)) as (h & E & Hh); [done|apply Hm|].
    eapply ends_lift; [exact E|]. sm_run.
    match goal with |- ends _ ?x _ => apply (forward_simulates m m x) end; [|done..|by rewrite Hmid].
    by split.
  - apply forward_simulates; [done..|by rewrite Hmid].
  - unfold recorder_request_record. sm_run.
    assert (message_ok (with_header m (mrcp_header_fields_inherit (header m) (properties s)))) as Hi
      by (apply with_header_ok; [done|]; apply fields_inherit_ok; [apply Hm|done]).
    case_decide as Hrec; [rewrite bool_decide_eq_true_2 by done|rewrite bool_decide_eq_false_2 by done].
    + by apply respond_simulates.
    + apply forward_simulates; [done..|by rewrite Hmid].
  - unfold recorder_request_stop. sm_run.
    case_decide as Hrec; [rewrite bool_decide_eq_true_2 by done|rewrite bool_decide_eq_false_2 by done].
    + apply forward_simulates; [done..|]. intros _. by apply Hst.
    + by apply respond_simulates.
  - unfold recorder_request_start_timers. sm_run.
    case_decide as Hrec; [rewrite bool_decide_eq_true_2 by done|rewrite bool_decide_eq_false_2 by done].
    + apply forward_simulates; [done..|by rewrite Hmid].
    + by apply respond_simulates.
Qed.

Lemma response_simulates (m : mrcp_message_t) (s : machine) :
  recorder_inv s → message_ok m → message_type (start_line m) = MRCP_MESSAGE_TYPE_RESPONSE →
  (∀ a, active_request s = Some a → request_id (start_line a) = request_id (start_line m) →
     method_id (start_line m) = method_id (start_line a)) →
  ends (recorder_response_state_update m) s
    (simulates (recorder_spec_response (view s) (message_label m))).
Proof.
  intros Hs Hm Ht Hconf. pose proof Hs as [Hp Hr Hst Ha].
  unfold recorder_response_state_update, recorder_spec_response. sm_run. simpl.
  destruct (active_request s) as [a|] eqn:Hact; simpl; [|sm_run; by split].
  destruct (decide (request_id (start_line a) ≠ request_id (start_line m))) as [|Hid];
    [sm_run; by split|].
  apply dec_stable in Hid. specialize (Hconf a eq_refl Hid). destruct Ha as [Hma Hstop].
  case_decide as Hge.
  { destruct (method_id (start_line m)) as [|[|[|[|[|n]]]]];
      try lia. sm_run. by split. }
  assert (about m m MRCP_MESSAGE_TYPE_RESPONSE) as Hab by done.
  destruct (method_id (start_line m)) as [|[|[|[|[|n]]]]] eqn:Hmid; simpl;
    [by apply respond_simulates| | | |by apply respond_simulates|
     lia].
  - unfold recorder_response_get_params. sm_run. rewrite Hact. eapply ends_lift; [done|]. sm_run.
    destruct (fields_get_ok (header m) (properties s) (header a)) as (h & E & Hh);
      [apply Hm|done|apply Hma|].
    eapply ends_lift; [exact E|]. by apply respond_simulates.
  - unfold recorder_response_record. apply ends_bind. case_decide as Hin.
    + sm_run. simpl. rewrite Hact.
      match goal with |- ends _ ?x _ => pose proof (respond_simulates m m x (view s)) as Hsim end.
      apply Hsim; try done.
    + sm_run. by apply respond_simulates.
  - unfold recorder_response_stop. rewrite generic_prepare_id by done. sm_run.
    destruct (Hstop (eq_sym Hconf)) as [c Hc]. rewrite Hc. eapply ends_lift; [done|]. sm_run.
    destruct (id_append_ok m (request_id (start_line c)) Hm) as (m1 & E1 & Hm1 & L1).
    eapply ends_lift; [exact E1|]. sm_run.
    destruct (generic_property_add_ok m1 (generic_header_num GENERIC_HEADER_ACTIVE_REQUEST_ID_LIST) Hm1)
      as (b & m2 & E2 & Hm2 & L2); [done|].
    eapply ends_lift; [exact E2|]. sm_run.
    match goal with |- ends _ ?x _ => apply (respond_simulates m m2 x (view s)) end; try done.
    + split; [done|by intros []].
    + unfold about. by rewrite L2, L1.
Qed.

Lemma event_dispatch_simulates (m x : mrcp_message_t) (s : machine) (v : recorder_view) :
  recorder_inv s → v_active v = active s → v_waiting v = v_waiting (view s) →
  about m x MRCP_MESSAGE_TYPE_EVENT →
  ends (recorder_event_dispatch x) s
    (simulates (v_event v (message_label m) (v_recording (view s)))).
Proof.
  intros Hs Hv Hw (Hid & Hmid & Ht). unfold recorder_event_dispatch. sm_run.
  unfold v_event. rewrite Hv, Hw. destruct (active s) eqn:Ha; sm_run; (split; [done|]);
    unfold view; simpl; by rewrite ?Hid, ?Hmid, ?Ht, ?Ha.
Qed.

#[local] Opaque recorder_event_dispatch.

Lemma event_simulates (m : mrcp_message_t) (s : machine) :
  recorder_inv s → message_ok m → message_type (start_line m) = MRCP_MESSAGE_TYPE_EVENT →
  ends (recorder_event_state_update m) s
    (simulates (recorder_spec_event (view s) (message_label m))).
Proof.
  intros Hs Hm Ht. unfold recorder_event_state_update, recorder_spec_event.
  assert (simulates (view s, []) true s []) as Hskip by (by split).
  change (l_method (message_label m)) with (method_id (start_line m)).
  change (l_id (message_label m)) with (request_id (start_line m)).
  case_decide as Hge.
  { destruct (method_id (start_line m)) as [|[|n]]; try lia.
    sm_run. by case_decide. }
  assert (v_recording (view s) = Some (request_id (start_line m)) ↔
    ∃ c, record s = Some c ∧ request_id (start_line c) = request_id (start_line m)) as Hrec.
  { simpl. rewrite fmap_Some. naive_solver. }
  destruct (method_id (start_line m)) as [|[|n]]; simpl;
    [| |lia].
  - unfold recorder_event_start_of_input. sm_run. destruct (record s) as [c|] eqn:Hc.
    2:{ rewrite decide_False by done. by sm_run. }
    simpl. destruct (decide (request_id (start_line c) = request_id (start_line m))) as [Hid|Hid].
    + rewrite decide_False by (intros Hn; by apply Hn). rewrite decide_True by (by rewrite Hid).
      replace (Some (request_id (start_line c))) with (v_recording (view s))
        by (simpl; by rewrite Hc).
      by apply event_dispatch_simulates.
    + rewrite decide_True by done. rewrite decide_False by congruence. by sm_run.
  - unfold recorder_event_record_complete. sm_run. destruct (record s) as [c|] eqn:Hc.
    2:{ rewrite decide_False by done. by sm_run. }
    simpl. destruct (decide (request_id (start_line c) = request_id (start_line m))) as [Hid|Hid].
    2:{ rewrite decide_True by done. rewrite decide_False by congruence. by sm_run. }
    rewrite decide_False by (intros Hn; by apply Hn). rewrite decide_True by (by rewrite Hid). sm_run.
    replace (fst <$> ((λ a, (method_id (start_line a), request_id (start_line a))) <$> active_request s))
      with (method_id ∘ start_line <$> active_request s) by (by destruct (active_request s)).
    case_decide as Hstop; [by sm_run|]. sm_run.
    destruct (completion_cause_ok RECORDER_HEADER_COMPLETION_CAUSE
      RECORDER_COMPLETION_CAUSE_SUCCESS_SILENCE m Hm) as (m' & E & _ & L); [done|].
    eapply ends_lift; [exact E|]. sm_run.
    match goal with |- ends _ ?x _ => apply (event_dispatch_simulates m m' x (view s)) end; try done.
    + destruct Hs as [? ? ? Ha]. split; simpl; [done|done|split; [done|by intros []]|].
      destruct (active_request s) as [a|]; [|done]. destruct Ha as [? _]. split; [done|].
      intros Hmid. exfalso. apply Hstop. simpl. by rewrite Hmid.
    + unfold about. by rewrite L.
Qed.

Lemma deactivate_request_line (method : nat) (c : @mrcp_message_t R) :
  message_ok c →
  let x := deactivate_request fresh uninit method c in
  message_type (start_line x) = MRCP_MESSAGE_TYPE_REQUEST ∧ method_id (start_line x) = method ∧
  request_id (start_line x) = u32 (request_id (start_line c) + 1).
Proof.
  intros Hc x. destruct (mk_res _ Hc) as (r & Hr & _).
  unfold x, deactivate_request, mrcp_request_create. rewrite Hr. simpl.
  by destruct (apt_string_table_str_get _ _ _).
Qed.

Lemma deactivate_simulates (s : machine) :
  recorder_inv s →
  ends (recorder_state_deactivate fresh uninit) (set_recorder_active false s)
    (simulates (recorder_spec_deactivate (view s))).
Proof.
  intros Hs. assert (recorder_inv (set_recorder_active false s)) as Hs' by (by destruct Hs).
  unfold recorder_state_deactivate, recorder_spec_deactivate. sm_run. simpl.
  destruct (record s) as [c|] eqn:Hc.
  - rewrite decide_False by (intros Hn; apply Hn, Hs; by rewrite Hc). sm_run. simpl. rewrite Hc.
    assert (message_ok c) as Hcm by (destruct Hs as [_ Hr _ _]; by rewrite Hc in Hr).
    pose proof (deactivate_request_ok fresh uninit RECORDER_STOP c Hcm) as Hok.
    destruct (deactivate_request_line RECORDER_STOP c Hcm) as (Ht & Hmid & Hid).
    revert Hok Ht Hmid Hid. generalize (deactivate_request fresh uninit RECORDER_STOP c).
    intros x Hok Ht Hmid Hid.
    pose proof (forward_simulates x x (set_recorder_active false s) Hs' Hok) as Hf.
    unfold v_forward in *. simpl in Hf. rewrite Hid, Hmid, Hc in Hf.
    apply Hf; [by rewrite <- Ht|]. intros _. by eexists.
  - rewrite decide_True by (intros Hn; apply Hs in Hn; rewrite Hc in Hn; by destruct Hn).
    sm_run. split; [done|]. unfold view. simpl. by rewrite Hc.
Qed.

#[local] Instance recorder_machine_here : StateMachine R machine := recorder_machine fresh uninit.

Lemma step_simulates (s : machine) (i : input R) :
  recorder_inv s → recorder_accepts s i →
  ends (handle i) s (simulates (recorder_spec_step (view s) (input_label i))).
Proof.
  intros Hs Hi. destruct i as [m|]; simpl in *.
  - destruct Hi as [Hm Hresp]. unfold mrcp_state_machine_update. simpl.
    unfold recorder_state_update, recorder_spec. simpl l_type.
    destruct (message_type (start_line m)) eqn:Ht.
    + sm_run. by split.
    + by apply request_simulates.
    + apply response_simulates; auto.
    + by apply event_simulates.
  - unfold mrcp_state_machine_deactivate. apply ends_bind, ends_modify. by apply deactivate_simulates.
Qed.

#[local] Instance recorder_safe : SafeMachine R machine := {
  machine_inv := recorder_inv;
  accepts := recorder_accepts;
  handle_safe s i Hs Hi :=
    ends_weaken _ _ _ (λ _ s' _, recorder_inv s') (step_simulates s i Hs Hi) (λ b s' o Hq, proj1 Hq)
}.

Lemma recorder_create_inv (rvt : mrcp_header_vtable_t R) (v : mrcp_version_e) :
  (Z.of_nat (field_count rvt) < 2 ^ 32)%Z →
  recorder_inv (mrcp_recorder_state_machine_create fresh rvt v).
Proof.
  intros Hr. split; simpl; [by apply data_alloc_ok|done|split; [done|by intros []]|done].
Qed.

(** C14: the recorder state machine refines the abstract recorder.  For any
    sequence of well-formed messages of the client and of an engine that
    answers a request with its own method, and of deactivations, the machine
    handles all of them without a fault; what it hands on, in order, and the
    recording in progress and the request waited for at the end are those the
    abstract machine computes from the type, method, identifier and state of
    the messages alone. *)
Theorem recorder_refines (s : machine) (ins : list (input R))
  (Hs : recorder_inv s) (Hins : accepted s ins) :
  ∃ bs s' o, run ins s = Ok (bs, s', o) ∧ recorder_inv s' ∧
    recorder_spec_run (view s) (input_label <$> ins) = (view s', action_text <$> o).
Proof.
  revert s Hs Hins. induction ins as [|i ins IH]; intros s Hs Hins.
  { exists [], s, []. by split_and!. }
  destruct Hins as [Hi Hrest]. destruct (step_simulates s i Hs Hi) as (b & s1 & o1 & E1 & Hs1 & Hv1).
  destruct (IH s1 Hs1 (Hrest _ _ _ E1)) as (bs & s2 & o2 & E2 & Hs2 & Hv2).
  exists (b :: bs), s2, (o1 ++ o2 ++ []). split_and!; [|done|].
  - cbn [run]. unfold mbind, sm_bind. rewrite E1. cbn [mbind res_bind]. by rewrite E2.
  - cbn [fmap list_fmap recorder_spec_run]. rewrite Hv1.
    change (list_fmap _ _ input_label ins) with (input_label <$> ins). rewrite Hv2.
    by rewrite app_nil_r, fmap_app.
Qed.

End Refine.

Lemma recorder_refines_witness :
  ∃ bs s o, @run nat _ (recorder_machine no_pair 0)
    [Update (request_of RECORDER_RECORD 1);
     Update (response_of RECORDER_RECORD 1 MRCP_REQUEST_STATE_INPROGRESS);
     Update (event_of RECORDER_START_OF_INPUT 1 MRCP_REQUEST_STATE_INPROGRESS); Deactivate]
    (mrcp_recorder_state_machine_create no_pair cause_vtable MRCP_VERSION_2) = Ok (bs, s, o) ∧
  recorder_inv s ∧ view s = mk_view false (Some 1%Z) (Some (RECORDER_STOP, 2%Z)) ∧
  action_text <$> o =
    [Some (MRCP_MESSAGE_TYPE_REQUEST, RECORDER_RECORD, 1%Z);
     Some (MRCP_MESSAGE_TYPE_RESPONSE, RECORDER_RECORD, 1%Z);
     Some (MRCP_MESSAGE_TYPE_EVENT, RECORDER_START_OF_INPUT, 1%Z);
     Some (MRCP_MESSAGE_TYPE_REQUEST, RECORDER_STOP, 2%Z)].
Proof.
  edestruct (recorder_refines no_pair 0
    (mrcp_recorder_state_machine_create no_pair cause_vtable MRCP_VERSION_2))
    as (bs & s & o & E & Hs & Hspec); [by apply recorder_create_inv| |].
  2:{ exists bs, s, o. split; [exact E|]. split; [exact Hs|].
      split; symmetry; [exact (f_equal fst Hspec)|exact (f_equal snd Hspec)]. }
  split; [split; [apply request_of_ok|discriminate]|]. intros b1 s1 o1 E1.
  split; [split; [apply response_of_ok|]|].
  - intros _ a Ha _.
    assert (match @handle nat _ (recorder_machine_here no_pair 0) (Update (request_of RECORDER_RECORD 1))
      (mrcp_recorder_state_machine_create no_pair cause_vtable MRCP_VERSION_2) with
      | Ok (_, s, _) => method_id ∘ start_line <$> active_request s
      | Fault => None
      end = Some RECORDER_RECORD) as Hmid by (vm_compute; reflexivity).
    rewrite E1, Ha in Hmid. injection Hmid as Hmid. symmetry. exact Hmid.
  - intros b2 s2 o2 E2. split; [split; [apply event_of_ok|discriminate]|].
    intros b3 s3 o3 E3. split; [exact I|]. intros b4 s4 o4 E4. exact I.
Defined.
