(* ===== verification/VerifierMachine.v ===== *)
(** * VerifierMachine: the verifier state machine
    ([mrcp_verifier_state_machine.c]).

    The messages are values: the machine does not change a request after it
    has stored it in [active_request] or [verify]. *)
From S2P Require Import Prelude CString StringTable TextStream StartLine HeaderSection.
From S2P Require Import TextMessage GenericHeader MrcpMessage StateMachine.

Inductive mrcp_verifier_state_e :=
  | VERIFIER_STATE_IDLE
  | VERIFIER_STATE_OPENED
  | VERIFIER_STATE_VERIFYING.

#[export] Instance mrcp_verifier_state_e_eq_dec : EqDecision mrcp_verifier_state_e.
Proof. solve_decision. Defined.

(** Methods and events, by number. *)
Notation VERIFIER_END_SESSION := 3 (only parsing).
Notation VERIFIER_VERIFY := 6 (only parsing).
Notation VERIFIER_VERIFY_FROM_BUFFER := 7 (only parsing).
Notation VERIFIER_STOP := 9 (only parsing).
Notation VERIFIER_METHOD_COUNT := 13 (only parsing).
Notation VERIFIER_VERIFICATION_COMPLETE := 1 (only parsing).
Notation VERIFIER_EVENT_COUNT := 2 (only parsing).

Notation VERIFIER_HEADER_COMPLETION_CAUSE := 15 (only parsing).
Notation VERIFIER_COMPLETION_CAUSE_SUCCESS := 0 (only parsing).

Record mrcp_verifier_state_machine_t (R : Type) := mk_verifier {
  active : bool;
  state : mrcp_verifier_state_e;
  active_request : option (@mrcp_message_t R);
  verify : option (@mrcp_message_t R);
  properties : @mrcp_message_header_t R
}.
Arguments mk_verifier {R}.
Arguments active {R}.
Arguments state {R}.
Arguments active_request {R}.
Arguments verify {R}.
Arguments properties {R}.

Section Verifier.
  Context `{AprFormat} {R : Type} `{CompletionCause R} (fresh : apt_pair_t) (uninit : nat).
  Notation machine := (mrcp_verifier_state_machine_t R).
  Notation M := (sm R machine).

Definition set_verifier_active (b : bool) (s : machine) : machine :=
  mk_verifier b (state s) (active_request s) (verify s) (properties s).
Definition set_state (x : mrcp_verifier_state_e) (s : machine) : machine :=
  mk_verifier (active s) x (active_request s) (verify s) (properties s).
Definition set_active_request (m : option mrcp_message_t) (s : machine) : machine :=
  mk_verifier (active s) (state s) m (verify s) (properties s).
Definition set_verify (m : option mrcp_message_t) (s : machine) : machine :=
  mk_verifier (active s) (state s) (active_request s) m (properties s).
Definition set_properties (h : mrcp_message_header_t) (s : machine) : machine :=
  mk_verifier (active s) (state s) (active_request s) (verify s) h.

Definition verifier_request_dispatch (message : mrcp_message_t) : M bool :=
  modify (set_active_request (Some message));; on_dispatch message.

Definition verifier_response_dispatch (message : mrcp_message_t) : M bool :=
  modify (set_active_request None);;
  is_active ← read active;
  if is_active : bool then on_dispatch message else on_deactivate.

Definition verifier_event_dispatch (message : mrcp_message_t) : M bool :=
  is_active ← read active;
  if is_active : bool then on_dispatch message else mret false.

Definition verifier_state_change (x : mrcp_verifier_state_e) : M unit :=
  modify (set_state x);;
  if decide (x = VERIFIER_STATE_IDLE) then modify (set_verify None) else mret tt.

Definition verifier_request_set_params (message : mrcp_message_t) : M bool :=
  props ← read properties;
  props ← lift (mrcp_header_fields_set props (header message));
  modify (set_properties props);;
  verifier_request_dispatch message.

Definition verifier_response_set_params : mrcp_message_t → M bool := verifier_response_dispatch.

Definition verifier_request_get_params : mrcp_message_t → M bool := verifier_request_dispatch.

Definition verifier_response_get_params (message : mrcp_message_t) : M bool :=
  props ← read properties;
  request ← read active_request;
  request ← lift (deref request);
  h ← lift (mrcp_header_fields_get (header message) props (header request));
  verifier_response_dispatch (with_header message h).

(** Forward the request unless the machine is in one of the states [refused]. *)
Definition verifier_unless (refused : mrcp_verifier_state_e → bool) (message : mrcp_message_t) : M bool :=
  x ← read state;
  if refused x then verifier_response_dispatch (not_valid_response fresh uninit message)
  else verifier_request_dispatch message.

Definition in_idle (x : mrcp_verifier_state_e) : bool := bool_decide (x = VERIFIER_STATE_IDLE).
Definition in_verifying (x : mrcp_verifier_state_e) : bool := bool_decide (x = VERIFIER_STATE_VERIFYING).

Definition verifier_request_start_session : mrcp_message_t → M bool := verifier_unless in_verifying.

Definition verifier_response_start_session (message : mrcp_message_t) : M bool :=
  verifier_state_change VERIFIER_STATE_OPENED;; verifier_response_dispatch message.

Definition verifier_request_end_session : mrcp_message_t → M bool := verifier_unless in_idle.

Definition verifier_response_end_session (message : mrcp_message_t) : M bool :=
  verifier_state_change VERIFIER_STATE_IDLE;; verifier_response_dispatch message.

Definition verifier_request_query_voiceprint : mrcp_message_t → M bool := verifier_unless in_idle.
Definition verifier_response_query_voiceprint : mrcp_message_t → M bool := verifier_response_dispatch.
Definition verifier_request_delete_voiceprint : mrcp_message_t → M bool := verifier_unless in_idle.
Definition verifier_response_delete_voiceprint : mrcp_message_t → M bool := verifier_response_dispatch.

Definition verifier_request_verify (message : mrcp_message_t) : M bool :=
  x ← read state;
  if in_idle x || in_verifying x then verifier_response_dispatch (not_valid_response fresh uninit message)
  else modify (set_verify (Some message));; verifier_request_dispatch message.

Definition verifier_response_verify (message : mrcp_message_t) : M bool :=
  verifier_state_change VERIFIER_STATE_VERIFYING;; verifier_response_dispatch message.

Definition verifier_request_verify_from_buffer (message : mrcp_message_t) : M bool :=
  x ← read state;
  if in_idle x || in_verifying x then verifier_response_dispatch (not_valid_response fresh uninit message)
  else modify (set_verify (Some message));; verifier_request_dispatch message.

Definition verifier_response_verify_from_buffer (message : mrcp_message_t) : M bool :=
  verifier_state_change VERIFIER_STATE_VERIFYING;; verifier_response_dispatch message.

Definition verifier_request_verify_rollback : mrcp_message_t → M bool := verifier_request_dispatch.
Definition verifier_response_verify_rollback : mrcp_message_t → M bool := verifier_response_dispatch.

Definition verifier_request_stop (message : mrcp_message_t) : M bool :=
  x ← read state;
  match x with
  | VERIFIER_STATE_IDLE => verifier_response_dispatch (not_valid_response fresh uninit message)
  | VERIFIER_STATE_OPENED => verifier_response_dispatch (mrcp_response_create fresh uninit (Some message))
  | VERIFIER_STATE_VERIFYING => verifier_request_dispatch message
  end.

Definition verifier_response_stop (message : mrcp_message_t) : M bool :=
  let message := mrcp_generic_header_prepare message in
  current ← read verify;
  current ← lift (deref current);
  message ← lift (message_id_append message (request_id (start_line current)));
  '(_, message) ← lift (mrcp_generic_header_property_add message
                          (generic_header_num GENERIC_HEADER_ACTIVE_REQUEST_ID_LIST));
  verifier_state_change VERIFIER_STATE_OPENED;;
  verifier_response_dispatch message.

Definition verifier_request_clear_buffer : mrcp_message_t → M bool := verifier_request_dispatch.
Definition verifier_response_clear_buffer : mrcp_message_t → M bool := verifier_response_dispatch.
Definition verifier_request_start_input_timers : mrcp_message_t → M bool :=
  verifier_unless (λ x, in_idle x || in_verifying x).
Definition verifier_response_start_input_timers : mrcp_message_t → M bool := verifier_response_dispatch.
Definition verifier_request_get_intermidiate_result : mrcp_message_t → M bool :=
  verifier_unless (λ x, negb (in_verifying x)).
Definition verifier_response_get_intermidiate_result : mrcp_message_t → M bool := verifier_response_dispatch.

Definition verifier_event_start_of_input (message : mrcp_message_t) : M bool :=
  current ← read verify;
  match current with
  | None => mret false
  | Some current =>
      if decide (request_id (start_line current) ≠ request_id (start_line message))
      then mret false
      else verifier_event_dispatch (set_message_state message MRCP_REQUEST_STATE_INPROGRESS)
  end.

Definition verifier_event_verification_complete (message : mrcp_message_t) : M bool :=
  current ← read verify;
  match current with
  | None => mret false
  | Some current =>
      if decide (request_id (start_line current) ≠ request_id (start_line message))
      then mret false
      else
        request ← read active_request;
        if decide (method_id ∘ start_line <$> request = Some VERIFIER_STOP) then mret false
        else
          message ← lift (completion_cause_default VERIFIER_HEADER_COMPLETION_CAUSE
                            VERIFIER_COMPLETION_CAUSE_SUCCESS message);
          verifier_state_change VERIFIER_STATE_OPENED;;
          verifier_event_dispatch message
  end.

(** The method arrays. *)
Definition verifier_request_method_array : list (mrcp_message_t → M bool) :=
  [verifier_request_set_params; verifier_request_get_params; verifier_request_start_session;
   verifier_request_end_session; verifier_request_query_voiceprint;
   verifier_request_delete_voiceprint; verifier_request_verify;
   verifier_request_verify_from_buffer; verifier_request_verify_rollback; verifier_request_stop;
   verifier_request_clear_buffer; verifier_request_start_input_timers;
   verifier_request_get_intermidiate_result].

Definition verifier_response_method_array : list (mrcp_message_t → M bool) :=
  [verifier_response_set_params; verifier_response_get_params; verifier_response_start_session;
   verifier_response_end_session; verifier_response_query_voiceprint;
   verifier_response_delete_voiceprint; verifier_response_verify;
   verifier_response_verify_from_buffer; verifier_response_verify_rollback; verifier_response_stop;
   verifier_response_clear_buffer; verifier_response_start_input_timers;
   verifier_response_get_intermidiate_result].

Definition verifier_event_method_array : list (mrcp_message_t → M bool) :=
  [verifier_event_start_of_input; verifier_event_verification_complete].

Definition verifier_request_state_update (message : mrcp_message_t) : M bool :=
  if decide (VERIFIER_METHOD_COUNT ≤ method_id (start_line message)) then mret false
  else
    match verifier_request_method_array !! method_id (start_line message) with
    | Some method => method message
    | None => verifier_request_dispatch message
    end.

Definition verifier_response_state_update (message : mrcp_message_t) : M bool :=
  request ← read active_request;
  match request with
  | None => mret false
  | Some request =>
      if decide (request_id (start_line request) ≠ request_id (start_line message))
      then mret false
      else if decide (VERIFIER_METHOD_COUNT ≤ method_id (start_line message)) then mret false
      else
        match verifier_response_method_array !! method_id (start_line message) with
        | Some method => method message
        | None => verifier_response_dispatch message
        end
  end.

Definition verifier_event_state_update (message : mrcp_message_t) : M bool :=
  if decide (VERIFIER_EVENT_COUNT ≤ method_id (start_line message)) then mret false
  else
    match verifier_event_method_array !! method_id (start_line message) with
    | Some method => method message
    | None => verifier_event_dispatch message
    end.

Definition verifier_state_update (message : mrcp_message_t) : M bool :=
  match message_type (start_line message) with
  | MRCP_MESSAGE_TYPE_REQUEST => verifier_request_state_update message
  | MRCP_MESSAGE_TYPE_RESPONSE => verifier_response_state_update message
  | MRCP_MESSAGE_TYPE_EVENT => verifier_event_state_update message
  | MRCP_MESSAGE_TYPE_UNKNOWN => mret false
  end.

Definition verifier_state_deactivate : M bool :=
  x ← read state;
  if decide (x ≠ VERIFIER_STATE_VERIFYING) then mret false
  else
    source ← read verify;
    match source with
    | None => mret false
    | Some source => verifier_request_dispatch (deactivate_request fresh uninit VERIFIER_STOP source)
    end.

Definition verifier_machine : StateMachine R machine := {|
  set_active := set_verifier_active;
  update := verifier_state_update;
  deactivate := verifier_state_deactivate
|}.

Definition mrcp_verifier_state_machine_create (rvt : mrcp_header_vtable_t R) (v : mrcp_version_e)
    : machine :=
  mk_verifier true VERIFIER_STATE_IDLE None None
    (mrcp_message_header_create (mrcp_generic_header_vtable_get fresh v) rvt).

End Verifier.
