(* ===== verification/VerifierMachineTheory.v ===== *)
(** * VerifierMachineTheory: the verifier state machine is memory-safe with a
    conforming engine and answers every request; a refused verification leaves
    it busy and a completed one is reported again. *)
From S2P Require Import Prelude CString StringTable TextStream StartLine HeaderSection.
From S2P Require Import TextMessage GenericHeader MrcpMessage StateMachine StateMachineTheory VerifierMachine.

Section Verifier.
  Context `{AprFormat} {R : Type} `{CompletionCause R} (fresh : apt_pair_t) (uninit : nat).
  Notation machine := (mrcp_verifier_state_machine_t R).

(** The invariant: stored messages are well formed, and there is a VERIFY
    request while the machine verifies. *)
Record verifier_core (s : machine) : Prop := {
  vc_properties : header_ok (properties s);
  vc_verify : from_option message_ok True (verify s);
  vc_verifying : state s = VERIFIER_STATE_VERIFYING → is_Some (verify s)
}.

(** The requests whose response needs the VERIFY request. *)
Definition needs_verify (method : nat) : Prop :=
  method = VERIFIER_VERIFY ∨ method = VERIFIER_VERIFY_FROM_BUFFER ∨ method = VERIFIER_STOP.

Record verifier_inv (s : machine) : Prop := {
  vi_core : verifier_core s;
  vi_active : from_option (λ m, message_ok m ∧
    (needs_verify (method_id (start_line m)) → is_Some (verify s))) True (active_request s)
}.

(** Messages are well formed, and an engine answers a request with a response
    to its method. *)
Definition verifier_accepts (s : machine) (i : input R) : Prop :=
  match i with
  | Deactivate => True
  | Update m => message_ok m ∧
      (message_type (start_line m) = MRCP_MESSAGE_TYPE_RESPONSE →
       ∀ a, active_request s = Some a →
       request_id (start_line a) = request_id (start_line m) →
       method_id (start_line m) = method_id (start_line a))
  end.

Notation keeps c s := (ends c s (λ _ s' _, verifier_inv s')).

(** A request [m] is handed to the engine, or answered at once; a machine that
    is being deactivated reports that instead. *)
Definition verifier_outcome (m : @mrcp_message_t R) (is_active b : bool) (s' : machine)
    (o : list (action R)) : Prop :=
  b = true ∧
  ((∃ x, o = [Dispatch x] ∧ about m x MRCP_MESSAGE_TYPE_REQUEST ∧ active_request s' = Some x) ∨
   (∃ x, o = [if is_active then Dispatch x else Deactivated] ∧
      about m x MRCP_MESSAGE_TYPE_RESPONSE ∧ active_request s' = None)).

Notation answers m b c s := (ends c s (λ r s' o, verifier_inv s' ∧ verifier_outcome m b r s' o)).

(** *** Dispatching *)

Lemma verifier_request_ends (m : mrcp_message_t) (s : machine) (Q : bool → machine → list (action R) → Prop) :
  verifier_core s → message_ok m → (needs_verify (method_id (start_line m)) → is_Some (verify s)) →
  (verifier_inv (set_active_request (Some m) s) → Q true (set_active_request (Some m) s) [Dispatch m]) →
  ends (verifier_request_dispatch m) s Q.
Proof. intros [] Hm Hn HQ. unfold verifier_request_dispatch. sm_run. apply HQ. by split. Qed.

Lemma verifier_forward_answers (m : mrcp_message_t) (s : machine) :
  verifier_core s → message_ok m → message_type (start_line m) = MRCP_MESSAGE_TYPE_REQUEST →
  (needs_verify (method_id (start_line m)) → is_Some (verify s)) →
  answers m (active s) (verifier_request_dispatch m) s.
Proof.
  intros Hc Hm Ht Hn. apply verifier_request_ends; [done..|]. intros Hi. split; [done|].
  split; [done|]. left. by exists m.
Qed.

Lemma verifier_response_ends (m : mrcp_message_t) (s : machine) (Q : bool → machine → list (action R) → Prop) :
  verifier_core s →
  (verifier_inv (set_active_request None s) →
     Q true (set_active_request None s) [if active s then Dispatch m else Deactivated]) →
  ends (verifier_response_dispatch m) s Q.
Proof.
  intros [] HQ. unfold verifier_response_dispatch. sm_run. simpl.
  destruct (active s); sm_run; apply HQ; by split.
Qed.

Lemma verifier_response_keeps (m : mrcp_message_t) (s : machine) :
  verifier_core s → keeps (verifier_response_dispatch m) s.
Proof. intros Hc. by apply verifier_response_ends. Qed.

Lemma verifier_respond_answers (m x : mrcp_message_t) (s : machine) :
  verifier_core s → about m x MRCP_MESSAGE_TYPE_RESPONSE →
  answers m (active s) (verifier_response_dispatch x) s.
Proof.
  intros Hc Hab. apply verifier_response_ends; [done|]. intros Hi. split; [done|]. split; [done|].
  right. by exists x.
Qed.

Lemma verifier_refuse_answers (m : mrcp_message_t) (s : machine) :
  verifier_core s → message_ok m →
  answers m (active s) (verifier_response_dispatch (not_valid_response fresh uninit m)) s.
Proof.
  intros Hc Hm. apply verifier_respond_answers; [done|]. by eapply (response_about fresh uninit).
Qed.

Lemma verifier_event_ends (m : mrcp_message_t) (s : machine) (Q : bool → machine → list (action R) → Prop) :
  Q (active s) s (if active s then [Dispatch m] else []) → ends (verifier_event_dispatch m) s Q.
Proof. intros HQ. unfold verifier_event_dispatch. sm_run. destruct (active s); by sm_run. Qed.

Lemma verifier_change_ends (x : mrcp_verifier_state_e) (s : machine) (Q : unit → machine → list (action R) → Prop) :
  verifier_core s → (x = VERIFIER_STATE_VERIFYING → is_Some (verify s)) →
  (verifier_core (if decide (x = VERIFIER_STATE_IDLE) then set_verify None (set_state x s) else set_state x s) →
   Q tt (if decide (x = VERIFIER_STATE_IDLE) then set_verify None (set_state x s) else set_state x s) []) →
  ends (verifier_state_change x) s Q.
Proof.
  intros [] Hx HQ. unfold verifier_state_change. sm_run. case_decide; sm_run; apply HQ; by split; subst.
Qed.

#[local] Opaque verifier_request_dispatch verifier_response_dispatch verifier_event_dispatch
  verifier_state_change.

(** *** Requests *)

Lemma verifier_unless_answers (refused : mrcp_verifier_state_e → bool) (m : mrcp_message_t) (s : machine) :
  verifier_core s → message_ok m → message_type (start_line m) = MRCP_MESSAGE_TYPE_REQUEST →
  (needs_verify (method_id (start_line m)) → is_Some (verify s)) →
  answers m (active s) (verifier_unless fresh uninit refused m) s.
Proof.
  intros Hc Hm Ht Hn. unfold verifier_unless. sm_run.
  destruct (refused (state s)); [by apply verifier_refuse_answers|by apply verifier_forward_answers].
Qed.

(** VERIFY and VERIFY-FROM-BUFFER. *)
Lemma verifier_verify_answers (m : mrcp_message_t) (s : machine) :
  verifier_core s → message_ok m → message_type (start_line m) = MRCP_MESSAGE_TYPE_REQUEST →
  answers m (active s) (verifier_request_verify fresh uninit m) s.
Proof.
  intros Hc Hm Ht. unfold verifier_request_verify. sm_run.
  destruct (in_idle (state s) || in_verifying (state s)); [by apply verifier_refuse_answers|]. sm_run.
  match goal with |- ends _ ?x _ => apply (verifier_forward_answers m x) end; [|done..|by eexists].
  destruct Hc. split; [done..|]. by eexists.
Qed.

Lemma verifier_request_answers (m : mrcp_message_t) (s : machine) :
  verifier_inv s → message_ok m → message_type (start_line m) = MRCP_MESSAGE_TYPE_REQUEST →
  method_id (start_line m) < VERIFIER_METHOD_COUNT →
  answers m (active s) (verifier_request_state_update fresh uninit m) s.
Proof.
  intros [Hc Ha] Hm Ht Hlt. unfold verifier_request_state_update. rewrite decide_False by lia.
  assert (∀ n, ¬ needs_verify n → needs_verify n → is_Some (verify s)) as Hn by naive_solver.
  destruct (method_id (start_line m)) as [|[|[|[|[|[|[|[|[|[|[|[|[|n]]]]]]]]]]]]] eqn:Hmid; simpl;
    try (apply verifier_unless_answers; [done..|rewrite Hmid; apply Hn; by intros [|[]]]);
    try (apply verifier_forward_answers; [done..|rewrite Hmid; apply Hn; by intros [|[]]]).
  - unfold verifier_request_set_params. sm_run.
    destruct (fields_set_ok (properties s) (header m)) as (h & E & Hh); [apply Hc|apply Hm|].
    eapply ends_lift; [exact E|]. sm_run.
    match goal with |- ends _ ?x _ => apply (verifier_forward_answers m x) end;
      [destruct Hc; by split|done..|rewrite Hmid; apply Hn; by intros [|[]]].
  - by apply verifier_verify_answers.
  - by apply verifier_verify_answers.
  - unfold verifier_request_stop. sm_run. destruct (state s) eqn:Hst.
    + by apply verifier_refuse_answers.
    + apply verifier_respond_answers; [done|]. by destruct (response_create_ok fresh uninit m Hm) as (_ & ?).
    + apply verifier_forward_answers; [done..|]. intros _. by apply Hc.
Qed.

(** *** Responses and events *)

Lemma verifier_stop_ends (m a : mrcp_message_t) (s : machine) :
  verifier_inv s → message_ok m → active_request s = Some a → method_id (start_line a) = VERIFIER_STOP →
  keeps (verifier_response_stop m) s.
Proof.
  intros [Hc Ha] Hm Hact Hstop. rewrite Hact in Ha. destruct Ha as [Hma Hcur].
  destruct (Hcur ltac:(unfold needs_verify; auto)) as [current Hver]. unfold verifier_response_stop.
  rewrite generic_prepare_id by done. sm_run. rewrite Hver. eapply ends_lift; [done|]. sm_run.
  destruct (id_append_ok m (request_id (start_line current)) Hm) as (m1 & E1 & H1 & L1).
  eapply ends_lift; [exact E1|]. sm_run.
  destruct (generic_property_add_ok m1 (generic_header_num GENERIC_HEADER_ACTIVE_REQUEST_ID_LIST) H1)
    as (b & m2 & E2 & H2 & L2); [done|].
  eapply ends_lift; [exact E2|]. simpl. sm_run. apply verifier_change_ends; [done..|]. intros Hc'.
  by apply verifier_response_keeps.
Qed.

(** A handler that changes the state and passes the response on. *)
Lemma verifier_change_keeps (x : mrcp_verifier_state_e) (m : mrcp_message_t) (s : machine) :
  verifier_core s → (x = VERIFIER_STATE_VERIFYING → is_Some (verify s)) →
  keeps (verifier_state_change x;; verifier_response_dispatch m) s.
Proof.
  intros Hc Hx. sm_run. apply verifier_change_ends; [done..|]. intros Hc'. by apply verifier_response_keeps.
Qed.

Lemma verifier_response_update_keeps (m : mrcp_message_t) (s : machine) :
  verifier_inv s → message_ok m →
  (∀ a, active_request s = Some a → request_id (start_line a) = request_id (start_line m) →
     method_id (start_line m) = method_id (start_line a)) →
  keeps (verifier_response_state_update m) s.
Proof.
  intros Hs Hm Hconf. pose proof Hs as [Hc Ha]. unfold verifier_response_state_update. sm_run.
  destruct (active_request s) as [a|] eqn:Hact; [|by sm_run].
  case_decide as Hid; [by sm_run|]. specialize (Hconf a eq_refl Hid). case_decide; [by sm_run|].
  destruct Ha as [Hma Hver].
  destruct (method_id (start_line m)) as [|[|[|[|[|[|[|[|[|[|[|[|[|n]]]]]]]]]]]]] eqn:Hmid; simpl;
    try by apply verifier_response_keeps.
  - unfold verifier_response_get_params. sm_run. rewrite Hact. eapply ends_lift; [done|]. sm_run.
    destruct (fields_get_ok (header m) (properties s) (header a)) as (h & E & Hh);
      [apply Hm|apply Hc|apply Hma|].
    eapply ends_lift; [exact E|]. by apply verifier_response_keeps.
  - by apply verifier_change_keeps.
  - by apply verifier_change_keeps.
  - apply verifier_change_keeps; [done|]. intros _. apply Hver. by left.
  - apply verifier_change_keeps; [done|]. intros _. apply Hver. right. by left.
  - by apply (verifier_stop_ends m a).
Qed.

Lemma verifier_complete_ends (m c : mrcp_message_t) (s : machine) :
  verifier_inv s → message_ok m → verify s = Some c →
  request_id (start_line c) = request_id (start_line m) →
  method_id ∘ start_line <$> active_request s ≠ Some VERIFIER_STOP →
  ends (verifier_event_verification_complete m) s (λ b s' o, verifier_inv s' ∧ b = active s ∧
    s' = set_state VERIFIER_STATE_OPENED s ∧
    ∃ e, start_line e = start_line m ∧ o = if active s then [Dispatch e] else []).
Proof.
  intros Hs Hm Hver Hid Hstop.
  destruct (completion_cause_ok VERIFIER_HEADER_COMPLETION_CAUSE
    VERIFIER_COMPLETION_CAUSE_SUCCESS m Hm) as (m' & E & _ & L); [done|].
  unfold verifier_event_verification_complete. sm_run. rewrite Hver.
  rewrite decide_False by (intros Hn; by apply Hn). sm_run. rewrite decide_False by done. sm_run.
  eapply ends_lift; [exact E|]. sm_run. pose proof Hs as [Hc Ha].
  apply verifier_change_ends; [done..|]. simpl. intros Hc'. apply verifier_event_ends.
  split; [by split|]. split; [done|]. split; [done|]. by exists m'.
Qed.

Lemma verifier_event_update_keeps (m : mrcp_message_t) (s : machine) :
  verifier_inv s → message_ok m → keeps (verifier_event_state_update m) s.
Proof.
  intros Hs Hm. unfold verifier_event_state_update. case_decide; [by sm_run|].
  destruct (method_id (start_line m)) as [|[|n]]; simpl; [| |by apply verifier_event_ends].
  - unfold verifier_event_start_of_input. sm_run. destruct (verify s); [|by sm_run].
    case_decide; [by sm_run|by apply verifier_event_ends].
  - destruct (verify s) as [c|] eqn:Hver;
      [|unfold verifier_event_verification_complete; sm_run; rewrite Hver; by sm_run].
    destruct (decide (request_id (start_line c) = request_id (start_line m))) as [Hid|Hid];
      [destruct (decide (method_id ∘ start_line <$> active_request s = Some VERIFIER_STOP)) as [Hst|Hst]|].
    + unfold verifier_event_verification_complete. sm_run. rewrite Hver.
      rewrite decide_False by (intros Hn; by apply Hn). sm_run. rewrite decide_True by done. by sm_run.
    + eapply ends_weaken; [by apply (verifier_complete_ends m c)|]. by intros b s' o [? _].
    + unfold verifier_event_verification_complete. sm_run. rewrite Hver.
      rewrite decide_True by done. by sm_run.
Qed.

Lemma verifier_deactivate_keeps (s : machine) :
  verifier_inv s → keeps (verifier_state_deactivate fresh uninit) (set_verifier_active false s).
Proof.
  intros Hs. assert (verifier_inv (set_verifier_active false s)) as Hs'
    by (destruct Hs as [[] ?]; split; [by split|done]). clear Hs.
  unfold verifier_state_deactivate. sm_run. case_decide as Hst; [by sm_run|]. sm_run.
  destruct (verify (set_verifier_active false s)) as [source|] eqn:Hr; [|by sm_run].
  apply verifier_request_ends; [apply Hs'| |by intros _; rewrite Hr|done].
  apply deactivate_request_ok. destruct Hs' as [[_ Hm _] _]. by rewrite Hr in Hm.
Qed.

#[local] Instance verifier_machine_here : StateMachine R machine := verifier_machine fresh uninit.

Lemma verifier_handle_safe (s : machine) (i : input R) :
  verifier_inv s → verifier_accepts s i → keeps (handle i) s.
Proof.
  intros Hs Hi. destruct i as [m|]; simpl in *.
  - destruct Hi as [Hm Hresp]. unfold mrcp_state_machine_update. simpl. unfold verifier_state_update.
    destruct (message_type (start_line m)) eqn:Ht.
    + by sm_run.
    + destruct (decide (method_id (start_line m) < VERIFIER_METHOD_COUNT)) as [Hlt|Hge].
      * eapply ends_weaken; [by apply verifier_request_answers|]. by intros b s' o [? _].
      * unfold verifier_request_state_update. rewrite decide_True by lia. by sm_run.
    + apply verifier_response_update_keeps; auto.
    + by apply verifier_event_update_keeps.
  - unfold mrcp_state_machine_deactivate. apply ends_bind, ends_modify. by apply verifier_deactivate_keeps.
Qed.

#[local] Instance verifier_safe : SafeMachine R machine := {
  machine_inv := verifier_inv;
  accepts := verifier_accepts;
  handle_safe := verifier_handle_safe
}.

Lemma verifier_create_inv (rvt : mrcp_header_vtable_t R) (v : mrcp_version_e) :
  (Z.of_nat (field_count rvt) < 2 ^ 32)%Z → verifier_inv (mrcp_verifier_state_machine_create fresh rvt v).
Proof. intros Hr. split; [|done]. split; try done. simpl. by apply data_alloc_ok. Qed.

(** C17: The verifier state machine never dereferences a NULL pointer.  From its
    creation on, any sequence of well-formed client requests, responses and
    events of an engine that answers a request with its own method, and
    deactivations is handled to the end without a fault, and there is a VERIFY
    request whenever the machine verifies or waits for the response to VERIFY
    or STOP. *)
Theorem verifier_never_faults (rvt : mrcp_header_vtable_t R) (v : mrcp_version_e)
  (ins : list (input R)) (Hr : (Z.of_nat (field_count rvt) < 2 ^ 32)%Z)
  (Hins : accepted (mrcp_verifier_state_machine_create fresh rvt v) ins) :
  ∃ bs s o, run ins (mrcp_verifier_state_machine_create fresh rvt v) = Ok (bs, s, o) ∧
    verifier_inv s ∧ length bs = length ins.
Proof. exact (run_safe _ ins (verifier_create_inv rvt v Hr) Hins). Qed.

(** Every client request to the verifier gets one answer: it is handed to
    the engine and becomes the active request, or it is answered at once with a
    response of the same identifier and method. *)
Theorem verifier_request_answered (m : mrcp_message_t) (s : machine)
  (Hs : verifier_inv s) (Hact : active s = true) (Hm : message_ok m)
  (Ht : message_type (start_line m) = MRCP_MESSAGE_TYPE_REQUEST)
  (Hmid : method_id (start_line m) < VERIFIER_METHOD_COUNT) :
  ∃ s' x, verifier_state_update fresh uninit m s = Ok (true, s', [Dispatch x]) ∧ verifier_inv s' ∧
    (about m x MRCP_MESSAGE_TYPE_REQUEST ∧ active_request s' = Some x ∨
     about m x MRCP_MESSAGE_TYPE_RESPONSE ∧ active_request s' = None).
Proof.
  unfold verifier_state_update. rewrite Ht.
  destruct (verifier_request_answers m s Hs Hm Ht Hmid) as (b & s' & o & E & Hi & -> & Ho).
  rewrite Hact in Ho. destruct Ho as [(x & -> & ? & ?)|(x & -> & ? & ?)]; exists s', x; auto.
Qed.

(** A completed verification is reported again.  VERIFICATION-COMPLETE
    leaves the VERIFY request in the machine, so that the machine passes a
    second VERIFICATION-COMPLETE of the same request to the client. *)
Theorem verification_complete_repeated (m c : mrcp_message_t) (s : machine)
  (Hs : verifier_inv s) (Hact : active s = true) (Hm : message_ok m)
  (Ht : message_type (start_line m) = MRCP_MESSAGE_TYPE_EVENT)
  (Hmid : method_id (start_line m) = VERIFIER_VERIFICATION_COMPLETE) (Hv : verify s = Some c)
  (Hid : request_id (start_line c) = request_id (start_line m)) (Hnone : active_request s = None) :
  ∃ s' x y, run [Update m; Update m] s = Ok ([true; true], s', [Dispatch x; Dispatch y]) ∧
    start_line x = start_line m ∧ start_line y = start_line m.
Proof.
  assert (∀ s, verifier_inv s → active s = true → verify s = Some c → active_request s = None →
    ∃ s' x, handle (Update m) s = Ok (true, s', [Dispatch x]) ∧ start_line x = start_line m ∧
      verifier_inv s' ∧ active s' = true ∧ verify s' = Some c ∧ active_request s' = None) as Hstep.
  { clear s Hs Hact Hv Hnone. intros s Hs Hact Hv Hnone. simpl. unfold mrcp_state_machine_update. simpl.
    unfold verifier_state_update. rewrite Ht. unfold verifier_event_state_update. rewrite Hmid. simpl.
    destruct (verifier_complete_ends m c s Hs Hm Hv Hid) as (b & s' & o & E & Hi & -> & -> & e & Le & ->).
    { by rewrite Hnone. }
    rewrite Hact in E. by eexists _, e. }
  destruct (Hstep s Hs Hact Hv Hnone) as (s1 & x & E1 & Lx & H1 & Ha1 & Hv1 & Hn1).
  destruct (Hstep s1 H1 Ha1 Hv1 Hn1) as (s2 & y & E2 & Ly & _).
  exists s2, x, y. split; [|done]. cbn [run]. unfold mbind, sm_bind. rewrite E1. cbn [mbind res_bind].
  rewrite E2. done.
Qed.

(** A refused verification leaves the verifier busy.  Whatever the response
    of the engine to VERIFY says, also a failure, the machine is verifying
    afterwards, and refuses the next VERIFY request. *)
Theorem refused_verify_blocks (r m a : mrcp_message_t) (s : machine)
  (Hs : verifier_inv s) (Hact : active s = true) (Ha : active_request s = Some a)
  (Hr : message_ok r) (Hrt : message_type (start_line r) = MRCP_MESSAGE_TYPE_RESPONSE)
  (Hrm : method_id (start_line r) = VERIFIER_VERIFY) (Ham : method_id (start_line a) = VERIFIER_VERIFY)
  (Hid : request_id (start_line a) = request_id (start_line r)) (Hm : message_ok m)
  (Hmt : message_type (start_line m) = MRCP_MESSAGE_TYPE_REQUEST)
  (Hmm : method_id (start_line m) = VERIFIER_VERIFY) :
  ∃ s' x, run [Update r; Update m] s = Ok ([true; true], s', [Dispatch r; Dispatch x]) ∧
    about m x MRCP_MESSAGE_TYPE_RESPONSE ∧ status_code (start_line x) = MRCP_STATUS_CODE_METHOD_NOT_VALID.
Proof.
  pose proof Hs as [Hc Hac]. rewrite Ha in Hac. destruct Hac as [_ Hver]. rewrite Ham in Hver.
  enough (ends (run [Update r; Update m]) s (λ bs _ o, bs = [true; true] ∧ ∃ x, o = [Dispatch r; Dispatch x] ∧
    about m x MRCP_MESSAGE_TYPE_RESPONSE ∧ status_code (start_line x) = MRCP_STATUS_CODE_METHOD_NOT_VALID))
    as (bs & s' & o & E & -> & x & -> & Hx) by (by exists s', x).
  cbn [run handle]. apply ends_bind. unfold mrcp_state_machine_update. simpl update.
  unfold verifier_state_update at 1. rewrite Hrt. unfold verifier_response_state_update. sm_run. rewrite Ha.
  rewrite decide_False by (intros Hn; by apply Hn). rewrite Hrm. simpl. unfold verifier_response_verify.
  apply ends_bind, verifier_change_ends; [done|intros _; apply Hver; by left|]. simpl. intros Hc1.
  apply verifier_response_ends; [done|]. simpl. rewrite Hact. intros [Hc2 _].
  apply ends_bind. unfold mrcp_state_machine_update. simpl update. unfold verifier_state_update. rewrite Hmt.
  unfold verifier_request_state_update. rewrite Hmm. simpl. unfold verifier_request_verify. sm_run. simpl.
  apply verifier_response_ends; [done|]. simpl. rewrite Hact. intros _. sm_run. split; [done|].
  eexists. split; [done|]. split; [by eapply (response_about fresh uninit)|done].
Qed.

End Verifier.

(** ** Concrete runs *)

(** A machine in the state [x], with the VERIFY request 1. *)
Definition verifying (x : mrcp_verifier_state_e) (waiting : option (@mrcp_message_t nat))
    : mrcp_verifier_state_machine_t nat :=
  mk_verifier true x waiting (Some (request_of VERIFIER_VERIFY 1))
    (mrcp_message_header_create (mrcp_generic_header_vtable_get no_pair MRCP_VERSION_2) cause_vtable).

Lemma verifying_inv (x : mrcp_verifier_state_e) (waiting : option mrcp_message_t) :
  from_option message_ok True waiting → verifier_inv (verifying x waiting).
Proof.
  intros Hw. split; [split|].
  - by apply (data_alloc_ok no_pair mrcp_message_header_init cause_vtable MRCP_VERSION_2).
  - apply request_of_ok.
  - intros _. by eexists.
  - simpl. destruct waiting as [w|]; [|done]. split; [done|]. intros _. by eexists.
Qed.

Lemma verifier_request_answered_witness :
  ∃ s' x, verifier_state_update no_pair 0 (request_of VERIFIER_STOP 2) (verifying VERIFIER_STATE_VERIFYING None) =
      Ok (true, s', [Dispatch x]) ∧ verifier_inv s'.
Proof.
  destruct (verifier_request_answered no_pair 0 (request_of VERIFIER_STOP 2)
    (verifying VERIFIER_STATE_VERIFYING None)) as (s' & x & E & Hi & _).
  - apply verifying_inv. exact I.
  - reflexivity.
  - apply request_of_ok.
  - reflexivity.
  - vm_compute. lia.
  - exists s', x. split; [exact E|exact Hi].
Defined.

Lemma verification_complete_repeated_witness :
  ∃ s' x y, @run nat _ (verifier_machine no_pair 0)
      [Update (event_of VERIFIER_VERIFICATION_COMPLETE 1 MRCP_REQUEST_STATE_COMPLETE);
       Update (event_of VERIFIER_VERIFICATION_COMPLETE 1 MRCP_REQUEST_STATE_COMPLETE)]
      (verifying VERIFIER_STATE_VERIFYING None) = Ok ([true; true], s', [Dispatch x; Dispatch y]).
Proof.
  destruct (verification_complete_repeated no_pair 0
    (event_of VERIFIER_VERIFICATION_COMPLETE 1 MRCP_REQUEST_STATE_COMPLETE) (request_of VERIFIER_VERIFY 1)
    (verifying VERIFIER_STATE_VERIFYING None)) as (s' & x & y & E & _).
  - apply verifying_inv. exact I.
  - reflexivity.
  - apply event_of_ok.
  - reflexivity.
  - reflexivity.
  - reflexivity.
  - reflexivity.
  - reflexivity.
  - exists s', x, y. exact E.
Defined.

Lemma refused_verify_blocks_witness :
  ∃ s' x, @run nat _ (verifier_machine no_pair 0)
      [Update (response_of VERIFIER_VERIFY 1 MRCP_REQUEST_STATE_COMPLETE); Update (request_of VERIFIER_VERIFY 2)]
      (verifying VERIFIER_STATE_OPENED (Some (request_of VERIFIER_VERIFY 1))) =
      Ok ([true; true], s', [Dispatch (response_of VERIFIER_VERIFY 1 MRCP_REQUEST_STATE_COMPLETE); Dispatch x]) ∧
    status_code (start_line x) = MRCP_STATUS_CODE_METHOD_NOT_VALID.
Proof.
  destruct (refused_verify_blocks no_pair 0 (response_of VERIFIER_VERIFY 1 MRCP_REQUEST_STATE_COMPLETE)
    (request_of VERIFIER_VERIFY 2) (request_of VERIFIER_VERIFY 1)
    (verifying VERIFIER_STATE_OPENED (Some (request_of VERIFIER_VERIFY 1)))) as (s' & x & E & _ & Hx).
  - apply verifying_inv. apply request_of_ok.
  - reflexivity.
  - reflexivity.
  - apply response_of_ok.
  - reflexivity.
  - reflexivity.
  - reflexivity.
  - reflexivity.
  - apply request_of_ok.
  - reflexivity.
  - reflexivity.
  - exists s', x. split; [exact E|exact Hx].
Defined.

Lemma verifier_never_faults_witness :
  ∃ bs s o, @run nat _ (verifier_machine no_pair 0) [Update (request_of 2 1); Deactivate]
      (mrcp_verifier_state_machine_create no_pair cause_vtable MRCP_VERSION_2) = Ok (bs, s, o) ∧
    verifier_inv s.
Proof.
  destruct (verifier_never_faults no_pair 0 cause_vtable MRCP_VERSION_2 [Update (request_of 2 1); Deactivate])
    as (bs & s & o & E & Hi & _).
  - reflexivity.
  - split; [|intros b s1 o1 _; split; [exact I|intros b2 s2 o2 _; exact I]].
    split; [apply request_of_ok|]. intros Hn. discriminate Hn.
  - exists bs, s, o. split; [exact E|exact Hi].
Defined.
