(* ===== verification/AliResource.v ===== *)
(** * AliResource: the recognition resources of the Ali recognizer plugin
    ([Ali_RecogResource.cpp], [Ali_RecogRecognizer.cpp],
    [Ali_RecogTranscriber.cpp]).

    A resource holds a request of the Alibaba speech SDK and a queue of the
    results the SDK reports through callbacks.  The SDK is not part of the
    sources: what it answers to a call is an argument of the operation that
    makes the call, and what it is told is recorded.  [long] is 64 bits wide. *)
From S2P Require Import Prelude CString.

Inductive recog_mod :=
  | RECOGNIZER
  | TRANSCRIBER.

#[export] Instance recog_mod_eq_dec : EqDecision recog_mod.
Proof. solve_decision. Defined.

(** The calls that configure a request of the SDK. *)
Inductive setting :=
  | setToken (s : cstr)
  | setAppKey (s : cstr)
  | setFormat (s : cstr)
  | setSampleRate (n : Z)
  | setIntermediateResult (b : bool)
  | setEnableVoiceDetection (b : bool)
  | setMaxEndSilence (n : Z)
  | setMaxStartSilence (n : Z)
  | setPunctuationPrediction (b : bool)
  | setInverseTextNormalization (b : bool)
  | setCustomizationId (s : cstr)
  | setVocabularyId (s : cstr)
  | setOutputFormat (s : cstr)
  | setContextParam (s : cstr)
  | setMaxSentenceSilence (n : Z).

(** The calls that end a request. *)
Inductive nls_call :=
  | nls_cancel
  | nls_stop
  | nls_release.

(** The parameters of the plugin configuration. *)
Record ali_config := mk_config {
  m_appkey : cstr;
  m_AccessKey : cstr;
  m_Secret : cstr;
  m_Format : cstr;
  m_SampleRate : cstr;
  m_intermediateResult : cstr;
  m_inverseText : cstr;
  m_voiceDetection : cstr;
  m_maxEndSilence : cstr;
  m_maxStartSilence : cstr;
  m_PunctuationPrediction : cstr;
  m_CustomizationId : cstr;
  m_VocabularyId : cstr;
  m_OutputFormat : cstr;
  m_ContextParam : cstr
}.

(** [recog_kind] is the class of the object: [CAliRecognizer] or
    [CAliTranscriber].  A request is what it was configured with. *)
Record CAliResource := mk_resource {
  recog_kind : recog_mod;
  config : ali_config;
  m_token : cstr;
  m_expireTime : Z;
  m_resultQueue : list cstr;
  m_lock : bool;
  m_Callback : bool;
  m_Request : option (list setting);
  m_Flag : bool
}.

Definition set_config (r : CAliResource) (c : ali_config) : CAliResource :=
  mk_resource (recog_kind r) c (m_token r) (m_expireTime r) (m_resultQueue r) (m_lock r)
    (m_Callback r) (m_Request r) (m_Flag r).
Definition set_token (r : CAliResource) (t : cstr) (e : Z) : CAliResource :=
  mk_resource (recog_kind r) (config r) t e (m_resultQueue r) (m_lock r) (m_Callback r)
    (m_Request r) (m_Flag r).
Definition set_results (r : CAliResource) (q : list cstr) : CAliResource :=
  mk_resource (recog_kind r) (config r) (m_token r) (m_expireTime r) q (m_lock r) (m_Callback r)
    (m_Request r) (m_Flag r).
Definition set_lock (r : CAliResource) (b : bool) : CAliResource :=
  mk_resource (recog_kind r) (config r) (m_token r) (m_expireTime r) (m_resultQueue r) b
    (m_Callback r) (m_Request r) (m_Flag r).
Definition set_callback (r : CAliResource) (b : bool) : CAliResource :=
  mk_resource (recog_kind r) (config r) (m_token r) (m_expireTime r) (m_resultQueue r) (m_lock r) b
    (m_Request r) (m_Flag r).
Definition set_request (r : CAliResource) (q : option (list setting)) : CAliResource :=
  mk_resource (recog_kind r) (config r) (m_token r) (m_expireTime r) (m_resultQueue r) (m_lock r)
    (m_Callback r) q (m_Flag r).
Definition set_flag (r : CAliResource) (b : bool) : CAliResource :=
  mk_resource (recog_kind r) (config r) (m_token r) (m_expireTime r) (m_resultQueue r) (m_lock r)
    (m_Callback r) (m_Request r) b.

(** ** Callbacks of the SDK

    The static callbacks cast the object and call the virtual method; a class
    that does not override the method has the empty one of [CAliResource]. *)

(** [lock(); if(result.length() != 0) m_resultQueue.push(result); ulock()]. *)
Definition result_push (r : CAliResource) (result : cstr) : CAliResource :=
  if decide (result = []) then r else set_results r (m_resultQueue r ++ [result]).

Definition OnRecognitionCompleted (r : CAliResource) (result : cstr) : CAliResource :=
  match recog_kind r with RECOGNIZER => result_push r result | TRANSCRIBER => r end.
Definition OnRecognitionResultChanged (r : CAliResource) (result : cstr) : CAliResource :=
  match recog_kind r with RECOGNIZER => result_push r result | TRANSCRIBER => r end.
Definition OnTranscriptionResultChanged (r : CAliResource) (result : cstr) : CAliResource :=
  match recog_kind r with RECOGNIZER => r | TRANSCRIBER => result_push r result end.
Definition OnTranscriptionCompleted (r : CAliResource) (result : cstr) : CAliResource :=
  match recog_kind r with RECOGNIZER => r | TRANSCRIBER => result_push r result end.
Definition OnSentenceEnd (r : CAliResource) (result : cstr) : CAliResource :=
  match recog_kind r with RECOGNIZER => r | TRANSCRIBER => result_push r result end.
Definition OnTaskFailed (r : CAliResource) : CAliResource := set_flag r true.

(** ** The token *)

Definition DoAliToKenGet (r : CAliResource) (answer : option (cstr * Z)) : bool * CAliResource :=
  match answer with
  | None => (false, r)
  | Some (token, expire) => (true, set_token r token expire)
  end.

Definition DoCleanAliPram (r : CAliResource) : CAliResource := set_token r [] 0.

(** [m_expireTime - curTime] is computed in [unsigned long]. *)
Definition DoCheakRecogToKen (r : CAliResource) (curTime : Z) (answer : option (cstr * Z))
    : bool * CAliResource :=
  if decide ((usz (m_expireTime r - curTime) < 10)%Z ∨ m_token r = [])
  then DoAliToKenGet r answer
  else (true, r).

(** ** Requests *)

Definition is_true_text (s : cstr) : bool := bool_decide (s = lit "true").
Definition sample_rate (c : ali_config) : Z :=
  if decide (m_SampleRate c = lit "8000") then 8000 else 16000.
(** [if(!s.empty()) m_Request->set(s.c_str())]. *)
Definition unless_empty (f : cstr → setting) (s : cstr) : list setting :=
  if decide (s = []) then [] else [f s].

(** [atoi(s) * 1000], in [int]; the overflow C leaves undefined wraps here. *)
Definition silence_ms (s : cstr) : Z := i32 (i32 (atol s) * 1000).

Definition recognizer_settings (r : CAliResource) : list setting :=
  let c := config r in
  [setToken (m_token r); setAppKey (m_appkey c); setFormat (m_Format c);
   setSampleRate (sample_rate c);
   setIntermediateResult (is_true_text (m_intermediateResult c));
   setEnableVoiceDetection (is_true_text (m_voiceDetection c))] ++
  (if is_true_text (m_voiceDetection c) then
     [setMaxEndSilence (silence_ms (m_maxEndSilence c));
      setMaxStartSilence (silence_ms (m_maxStartSilence c))]
   else []) ++
  [setPunctuationPrediction (is_true_text (m_PunctuationPrediction c));
   setInverseTextNormalization (is_true_text (m_inverseText c))] ++
  unless_empty setCustomizationId (m_CustomizationId c) ++
  unless_empty setVocabularyId (m_VocabularyId c) ++
  unless_empty setOutputFormat (m_OutputFormat c) ++
  unless_empty setContextParam (m_ContextParam c).

Definition transcriber_settings (r : CAliResource) : list setting :=
  let c := config r in
  [setToken (m_token r); setAppKey (m_appkey c); setFormat (m_Format c);
   setSampleRate (sample_rate c);
   setIntermediateResult (is_true_text (m_intermediateResult c));
   setPunctuationPrediction (is_true_text (m_PunctuationPrediction c));
   setInverseTextNormalization true; setMaxSentenceSilence 800].

(** What the SDK answers while a request is created: whether there is a request
    object, the time, the token, and the result of [start]. *)
Record sdk_answers := mk_answers {
  a_create : bool;
  a_time : Z;
  a_token : option (cstr * Z);
  a_start : Z
}.

(** [mutex] is the result of [apr_thread_mutex_create]. *)
Definition DoRecogRequestInit (r : CAliResource) (c : ali_config) (mutex : bool)
    : bool * CAliResource :=
  let r := set_config r c in
  if mutex then (true, set_results (set_callback (set_lock r true) true) [])
  else (false, set_lock r false).

Definition DoCreateRecogRequest (r : CAliResource) (a : sdk_answers) : bool * CAliResource :=
  let r := set_results r [] in
  let r := if m_Callback r && bool_decide (m_Request r = None)
           then set_request r (if a_create a then Some [] else None) else r in
  match m_Request r with
  | None => (false, r)
  | Some old =>
      let '(ok, r) := DoCheakRecogToKen r (a_time a) (a_token a) in
      if ok then
        let r := set_request r (Some (old ++
                   match recog_kind r with
                   | RECOGNIZER => recognizer_settings r
                   | TRANSCRIBER => transcriber_settings r
                   end)) in
        (bool_decide (0 ≤ a_start a)%Z, r)
      else (false, r)
  end.

Definition DoDestroyRecogRequest (r : CAliResource) : list nls_call * CAliResource :=
  match m_Request r with
  | None => ([], r)
  | Some _ =>
      ([if m_Flag r then nls_cancel else nls_stop; nls_release],
       set_flag (set_request (DoCleanAliPram r) None) false)
  end.

Definition DoRecogResultGet (r : CAliResource) : cstr * CAliResource :=
  match m_resultQueue r with
  | [] => ([], r)
  | x :: q => (x, set_results r q)
  end.

(** [sent] is the result of [sendAudio]. *)
Definition DoWriteFrame {F} (r : CAliResource) (frame : option F) (sent : Z) : Z :=
  match m_Request r, frame with
  | Some _, Some _ => sent
  | _, _ => 0
  end.

(** ** Theorems *)

(** The token is renewed in the last ten seconds of its life, and not after
    it.  With a token, the check asks for a new one exactly when the token
    expires now or within the next nine seconds: an expired token makes the
    unsigned difference wrap to a huge number and passes as valid. *)
Theorem token_renewal (r : CAliResource) (curTime : Z) (answer : option (cstr * Z))
  (He : (0 ≤ m_expireTime r < 2 ^ 63)%Z) (Hc : (0 ≤ curTime < 2 ^ 63)%Z) (Ht : m_token r ≠ []) :
  ((m_expireTime r < curTime ∨ curTime + 10 ≤ m_expireTime r)%Z →
     DoCheakRecogToKen r curTime answer = (true, r)) ∧
  ((curTime ≤ m_expireTime r < curTime + 10)%Z →
     DoCheakRecogToKen r curTime answer = DoAliToKenGet r answer).
Proof.
  unfold DoCheakRecogToKen, wrap_u. split; intros H.
  - rewrite decide_False; [done|]. intros [Hlt|]; [|done].
    assert ((m_expireTime r - curTime) mod 2 ^ 64 =
      if decide (m_expireTime r < curTime) then m_expireTime r - curTime + 2 ^ 64
      else m_expireTime r - curTime)%Z as E.
    { case_decide; [|apply Z.mod_small; lia].
      symmetry. apply (Z.mod_unique_pos _ _ (-1)); lia. }
    rewrite E in Hlt. case_decide; lia.
  - rewrite decide_True; [done|]. left. rewrite Z.mod_small; lia.
Qed.

Definition blank_config : ali_config :=
  mk_config [] [] [] [] [] [] [] [] [] [] [] [] [] [] [].
Definition idle_resource (token : cstr) (expire : Z) : CAliResource :=
  mk_resource RECOGNIZER blank_config token expire [] true true None false.

Lemma token_renewal_witness :
  DoCheakRecogToKen (idle_resource (lit "abc") 1000) 5000 (Some (lit "new", 9000%Z)) =
    (true, idle_resource (lit "abc") 1000).
Proof.
  apply (proj1 (token_renewal (idle_resource (lit "abc") 1000) 5000 (Some (lit "new", 9000%Z))
    ltac:(simpl; lia) ltac:(lia) ltac:(discriminate))).
  simpl. lia.
Defined.

(** The callbacks that report a result, and the reader. *)
Inductive result_op :=
  | Report (result : cstr)
  | Get.

Fixpoint run_results (r : CAliResource) (ops : list result_op) : list cstr * CAliResource :=
  match ops with
  | [] => ([], r)
  | Report x :: ops => run_results (result_push r x) ops
  | Get :: ops =>
      let '(x, r) := DoRecogResultGet r in
      let '(xs, r) := run_results r ops in
      (if decide (x = []) then xs else x :: xs, r)
  end.

Definition reported (ops : list result_op) : list cstr :=
  filter (λ x, x ≠ []) (omap (λ o, match o with Report x => Some x | Get => None end) ops).

Lemma results_order (ops : list result_op) (r : CAliResource) :
  Forall (λ x, x ≠ []) (m_resultQueue r) →
  let '(got, r') := run_results r ops in
  got ++ m_resultQueue r' = m_resultQueue r ++ reported ops.
Proof.
  revert r. induction ops as [|[x|] ops IH]; intros r Hq; simpl.
  - by rewrite app_nil_r.
  - unfold reported. simpl. rewrite filter_cons. unfold result_push. case_decide as Hx.
    + rewrite decide_False by (intros Hn; by apply Hn). by apply IH.
    + rewrite decide_True by done. specialize (IH (set_results r (m_resultQueue r ++ [x]))).
      destruct (run_results _ ops) as [got r']. rewrite IH; simpl; [by rewrite <- app_assoc|].
      apply Forall_app. by split; [|constructor].
  - unfold DoRecogResultGet. destruct (m_resultQueue r) as [|x q] eqn:E.
    + specialize (IH r). rewrite E in IH. specialize (IH Hq). destruct (run_results r ops).
      by rewrite decide_True by done.
    + apply Forall_cons in Hq as [Hx Hq]. specialize (IH (set_results r q) Hq). simpl in IH.
      destruct (run_results _ ops). rewrite decide_False by done. simpl. by rewrite IH.
Qed.

Lemma check_results (r : CAliResource) (now : Z) (answer : option (cstr * Z)) :
  m_resultQueue (DoCheakRecogToKen r now answer).2 = m_resultQueue r.
Proof. unfold DoCheakRecogToKen, DoAliToKenGet. case_decide; [destruct answer as [[]|]|]; done. Qed.

Lemma create_results (r : CAliResource) (a : sdk_answers) :
  m_resultQueue (DoCreateRecogRequest r a).2 = [].
Proof.
  unfold DoCreateRecogRequest. simpl. destruct (m_Callback r && _); simpl.
  - destruct (a_create a); simpl; [|done].
    match goal with |- context [DoCheakRecogToKen ?x _ _] =>
      pose proof (check_results x (a_time a) (a_token a)) as H end.
    by destruct (DoCheakRecogToKen _ _ _) as [[] r1].
  - destruct (m_Request r) as [old|]; [|done].
    match goal with |- context [DoCheakRecogToKen ?x _ _] =>
      pose proof (check_results x (a_time a) (a_token a)) as H end.
    by destruct (DoCheakRecogToKen _ _ _) as [[] r1].
Qed.

(** The results of a recognition are delivered in the order the service
    reports them, and no result of an earlier recognition is delivered.  After
    a request is created, whatever the service and the reader do, what was
    read followed by what is still queued is what was reported since, empty
    results aside. *)
Theorem results_in_order (r : CAliResource) (a : sdk_answers) (ops : list result_op) :
  let '(got, r') := run_results (DoCreateRecogRequest r a).2 ops in
  got ++ m_resultQueue r' = reported ops.
Proof.
  pose proof (results_order ops (DoCreateRecogRequest r a).2) as H.
  rewrite create_results in H. by apply H.
Qed.
