(* ===== verification/AliChannel.v ===== *)
(** * AliChannel: the channels of the Ali recognizer plugin
    ([Ali_RecogChannel.cpp]).

    A channel is shared by the thread of the MRCP task, which starts it, the
    media thread, which writes audio frames and stops it, and a thread of the
    pool, which runs [RecogMain].  The critical sections of the channel are
    atomic; [RecogMain] is a program counter with one step for each access to
    the shared objects.  Objects are reached through addresses; an operation
    on an object that is not there is a fault.  Files are handles, and closing
    a handle that is not open is a fault.  The queue of a channel holds the
    pointers to frames it is given, of type [F], not their audio. *)
From S2P Require Import Prelude CString AliResource.

Notation addr := nat.

Definition MAX_QUEUE_SIZE : nat := 10 * 100.
Definition PATHDIA : char := "/"%char.

Section Channel.
  Context {F : Type}.

Record CAliChannel := mk_ali_channel {
  m_id : nat;
  m_FrameQueue : option (list F);
  m_file : option addr;
  m_mutex : bool;
  m_Recoger : option addr;
  m_record : bool;
  m_recordPath : cstr;
  m_starting : bool;
  m_Channel : option addr
}.

Definition set_queue (c : CAliChannel) (q : option (list F)) : CAliChannel :=
  mk_ali_channel (m_id c) q (m_file c) (m_mutex c) (m_Recoger c) (m_record c) (m_recordPath c)
    (m_starting c) (m_Channel c).
Definition set_file (c : CAliChannel) (f : option addr) (record : bool) : CAliChannel :=
  mk_ali_channel (m_id c) (m_FrameQueue c) f (m_mutex c) (m_Recoger c) record (m_recordPath c)
    (m_starting c) (m_Channel c).
Definition set_path (c : CAliChannel) (p : cstr) : CAliChannel :=
  mk_ali_channel (m_id c) (m_FrameQueue c) (m_file c) (m_mutex c) (m_Recoger c) (m_record c) p
    (m_starting c) (m_Channel c).
Definition set_users (c : CAliChannel) (ch re : option addr) (starting : bool) : CAliChannel :=
  mk_ali_channel (m_id c) (m_FrameQueue c) (m_file c) (m_mutex c) re (m_record c) (m_recordPath c)
    starting ch.

(** [new CAliChannel]. *)
Definition CAliChannel_new : CAliChannel :=
  mk_ali_channel 0 None None false None false [] false None.

(** [mutex] and [queue]: the results of the creations of the mutex and the
    queue. *)
Definition Init (c : CAliChannel) (id : nat) (recordPath : cstr) (record mutex queue : bool)
    : bool * CAliChannel :=
  let c := mk_ali_channel id (m_FrameQueue c) (m_file c) (m_mutex c) (m_Recoger c) record recordPath
             (m_starting c) (m_Channel c) in
  if mutex then
    let c := mk_ali_channel (m_id c) (m_FrameQueue c) (m_file c) true (m_Recoger c) (m_record c)
               (m_recordPath c) (m_starting c) (m_Channel c) in
    if queue then (true, set_queue c (Some [])) else (false, c)
  else (false, c).

Definition lock (c : CAliChannel) : res unit := if m_mutex c then Ok tt else Fault.

(** ** Recording *)

Definition close_file (files : gset addr) (f : option addr) : res (gset addr) :=
  match f with
  | None => Ok files
  | Some h => if decide (h ∈ files) then Ok (files ∖ {[h]}) else Fault
  end.

(** [opened] is the result of [apr_file_open]. *)
Definition RecordStart (c : CAliChannel) (files : gset addr) (opened : option addr)
    : CAliChannel * gset addr :=
  if m_record c then
    match opened with
    | Some h => (set_file c (Some h) (m_record c), {[h]} ∪ files)
    | None => (set_file c None false, files)
    end
  else (c, files).

Definition RecordStop (c : CAliChannel) (files : gset addr) : res (gset addr) :=
  close_file files (m_file c).

Definition Uinit (c : CAliChannel) (files : gset addr) : res (gset addr) :=
  close_file files (m_file c).

(** ** Start, stop and write *)

(** The name of the file, and the path of the channel after it was put
    together: the path itself is extended when it ends in a separator. *)
Definition record_file_name (path name : cstr) : res (cstr * cstr) :=
  match last path with
  | None => Fault
  | Some c => if decide (c = PATHDIA) then Ok (path ++ name, path ++ name)
              else Ok (path ++ [PATHDIA] ++ name, path)
  end.

(** [name] is the text of [szFileName], [descriptor] tells whether the sink
    stream of the channel has a codec. *)
Definition Start (c : CAliChannel) (files : gset addr) (Ch resource : option addr)
    (descriptor : bool) (name : cstr) (opened : option addr)
    : res (bool * CAliChannel * gset addr) :=
  match Ch, resource with
  | Some ch, Some re =>
      lock c ≫= λ _,
      _ ← deref (m_FrameQueue c);
      let c := set_queue (set_users c (Some ch) (Some re) true) (Some []) in
      if m_record c then
        if descriptor then
          '(file, path) ← record_file_name (m_recordPath c) name;
          let '(c, files) := RecordStart (set_path c path) files opened in
          Ok (true, c, files)
        else Fault
      else Ok (true, c, files)
  | _, _ => Ok (false, c, files)
  end.

Definition Stop (c : CAliChannel) : res CAliChannel :=
  lock c ≫= λ _,
  _ ← deref (m_FrameQueue c);
  Ok (set_users c (m_Channel c) (m_Recoger c) false).

(** [None]: the queue is full and the caller waits.  The test of [m_starting] and
    the push are one step of the model: a [Stop] between them is not modelled. *)
Definition WriteFrame (c : CAliChannel) (frame : F) : option CAliChannel :=
  match m_FrameQueue c with
  | Some q =>
      if m_starting c then
        if decide (length q < MAX_QUEUE_SIZE) then Some (set_queue c (Some (q ++ [frame]))) else None
      else Some c
  | None => Some c
  end.

(** ** RecogMain *)

(** Where a thread is in [RecogMain].  [pc_wait] is a thread blocked in
    [apr_queue_pop], [pc_woken] one that [apr_queue_interrupt_all] woke. *)
Inductive pc :=
  | pc_create
  | pc_while
  | pc_token
  | pc_pop
  | pc_wait
  | pc_woken
  | pc_send (frame : F)
  | pc_record (frame : F)
  | pc_end.

(** What the SDK answers during a step. *)
Record env := mk_env {
  e_sdk : sdk_answers;
  e_sent : Z
}.

(** The object [m_Recoger] points to. *)
Definition recoger (c : CAliChannel) (rs : gmap addr CAliResource) : res (addr * CAliResource) :=
  re ← deref (m_Recoger c);
  r ← deref (rs !! re);
  Ok (re, r).

(** [apr_queue_pop]; [empty] is where the thread is when there is no frame. *)
Definition take_frame (c : CAliChannel) (empty : pc) : res (pc * CAliChannel) :=
  q ← deref (m_FrameQueue c);
  match q with
  | [] => Ok (empty, c)
  | frame :: q => Ok (pc_send frame, set_queue c (Some q))
  end.

(** [apr_file_write] on the file of the recording; a failed write is only
    logged. *)
Definition RecordMain (c : CAliChannel) (files : gset addr) : res unit :=
  if m_record c then
    match m_file c with
    | Some h => if decide (h ∈ files) then Ok tt else Fault
    | None => Ok tt
    end
  else Ok tt.

(** A step of a thread; [None] is the return from [RecogMain]. *)
Definition work (p : pc) (c : CAliChannel) (rs : gmap addr CAliResource) (files : gset addr) (e : env)
    : res (option pc * CAliChannel * gmap addr CAliResource * gset addr) :=
  match p with
  | pc_create =>
      '(re, r) ← recoger c rs;
      let '(ok, r) := DoCreateRecogRequest r (e_sdk e) in
      Ok (Some (if ok then pc_while else pc_end), c, <[re:=r]> rs, files)
  | pc_while => Ok (Some (if m_starting c then pc_token else pc_end), c, rs, files)
  | pc_token =>
      '(re, r) ← recoger c rs;
      let '(ok, r) := DoCheakRecogToKen r (a_time (e_sdk e)) (a_token (e_sdk e)) in
      Ok (Some (if ok then pc_pop else pc_end), c, <[re:=r]> rs, files)
  | pc_pop | pc_wait =>
      '(p, c) ← take_frame c pc_wait;
      Ok (Some p, c, rs, files)
  | pc_woken =>
      '(p, c) ← take_frame c pc_end;
      Ok (Some p, c, rs, files)
  | pc_send frame =>
      '(re, r) ← recoger c rs;
      Ok (Some (if decide (DoWriteFrame r (Some frame) (e_sent e) = (-1)%Z) then pc_end
                else pc_record frame), c, rs, files)
  | pc_record _ =>
      RecordMain c files ≫= λ _,
      Ok (Some pc_while, c, rs, files)
  | pc_end =>
      lock c ≫= λ _,
      '(re, r) ← recoger c rs;
      let '(_, r) := DoDestroyRecogRequest r in
      files ← RecordStop c files;
      Ok (None, set_users c None None false, <[re:=r]> rs, files)
  end.

(** [apr_queue_interrupt_all] wakes the threads that wait. *)
Definition wake (p : pc) : pc := match p with pc_wait => pc_woken | p => p end.

End Channel.
Arguments CAliChannel : clear implicits.
Arguments pc : clear implicits.

(** ** A channel with its threads *)

Section System.
  Context {F A : Type} `{EqDecision F}.

(** [audio] is what the frames hold.  [written] are the frames the queue took
    since the channel was started, with the audio they held then, [sent] those
    handed to the service, with the audio the service was given. *)
Record system := mk_system {
  chan : CAliChannel F;
  resources : gmap addr CAliResource;
  files : gset addr;
  workers : list (pc F);
  audio : F → A;
  written : list (F * A);
  sent : list (F * A)
}.

(** [read_frame] of the source stores the next audio in the frame of the media
    bridge, which has one frame for its whole life. *)
Definition fill (audio : F → A) (frame : F) (a : A) : F → A :=
  λ f, if decide (f = frame) then a else audio f.

(** What happens to a channel.  [AStart] and [APush] are the two parts of
    starting it: [Start] and the push of [RecogMain] to the thread pool; [AFill]
    and [AWrite] are the two parts of the processing of a media bridge: the
    frame is read from the source and written to the sink. *)
Inductive event :=
  | AStart (Ch resource : option addr) (descriptor : bool) (name : cstr) (opened : option addr)
  | APush
  | AStop
  | AFill (frame : F) (a : A)
  | AWrite (frame : F)
  | AWork (i : nat) (e : env).

(** [sendAudio] reads the frame. *)
Definition on_send (p : pc F) (audio : F → A) (sent : list (F * A)) : list (F * A) :=
  match p with pc_send frame => sent ++ [(frame, audio frame)] | _ => sent end.

Definition act (s : system) (l : event) : res system :=
  match l with
  | AStart Ch re descriptor name opened =>
      '(ok, c, fs) ← Start (chan s) (files s) Ch re descriptor name opened;
      if (ok : bool) then Ok (mk_system c (resources s) fs (workers s) (audio s) [] [])
      else Ok (mk_system c (resources s) fs (workers s) (audio s) (written s) (sent s))
  | APush => Ok (mk_system (chan s) (resources s) (files s) (workers s ++ [pc_create]) (audio s)
                   (written s) (sent s))
  | AStop =>
      c ← Stop (chan s);
      Ok (mk_system c (resources s) (files s) (wake <$> workers s) (audio s) (written s) (sent s))
  | AFill frame a => Ok (mk_system (chan s) (resources s) (files s) (workers s) (fill (audio s) frame a)
                          (written s) (sent s))
  | AWrite frame =>
      match WriteFrame (chan s) frame with
      | Some c => Ok (mk_system c (resources s) (files s) (workers s) (audio s)
                        (if m_starting (chan s) then written s ++ [(frame, audio s frame)] else written s)
                        (sent s))
      | None => Ok s
      end
  | AWork i e =>
      match workers s !! i with
      | None => Ok s
      | Some p =>
          '(p', c, rs, fs) ← work p (chan s) (resources s) (files s) e;
          Ok (mk_system c rs fs
                match p' with Some p' => <[i:=p']> (workers s) | None => delete i (workers s) end
                (audio s) (written s) (on_send p (audio s) (sent s)))
      end
  end.

Fixpoint run_events (s : system) (ls : list event) : res system :=
  match ls with
  | [] => Ok s
  | l :: ls => s ← act s l; run_events s ls
  end.

End System.
Arguments system : clear implicits.
Arguments event : clear implicits.
