(* ===== verification/AliChannelTheory.v ===== *)
(** * AliChannelTheory: a channel that is started only after its last thread has
    ended never faults and hands the frames on in order, but the audio in them
    may have been overwritten; its file is closed twice when it is destroyed
    after a recording. *)
From S2P Require Import Prelude CString AliResource AliChannel.

Section Safety.
  Context {F A : Type} `{EqDecision F}.
  Implicit Types (s : system F A) (c : CAliChannel F).

(** The frame a thread has taken from the queue and not handed on. *)
Definition in_hand (p : pc F) : list F := match p with pc_send frame => [frame] | _ => [] end.

Definition queued c : list F := default [] (m_FrameQueue c).

Record channel_ok c (rs : gmap addr CAliResource) (fs : gset addr) : Prop := {
  ck_mutex : m_mutex c = true;
  ck_queue : is_Some (m_FrameQueue c);
  ck_path : m_record c = true → m_recordPath c ≠ [];
  ck_no_record : m_record c = false → m_file c = None;
  ck_recoger : ∀ re, m_Recoger c = Some re → is_Some (rs !! re);
  ck_file : is_Some (m_Recoger c) → ∀ h, m_file c = Some h → h ∈ fs
}.

Record channel_inv s : Prop := {
  ci_chan : channel_ok (chan s) (resources s) (files s);
  ci_workers : length (workers s) ≤ 1;
  ci_live : workers s ≠ [] → is_Some (m_Recoger (chan s));
  ci_order : is_Some (m_Recoger (chan s)) →
    (sent s).*1 ++ (workers s ≫= in_hand) ++ queued (chan s) = (written s).*1
}.

(** The discipline: the channel is started, and its thread pushed, only when no
    thread runs on it.  A file that is opened gets a new handle; the caller of
    [Start] has checked the codec. *)
Definition allowed s (l : event F A) : Prop :=
  match l with
  | AStart _ re descriptor _ opened =>
      workers s = [] ∧ descriptor = true ∧ (∀ x, re = Some x → is_Some (resources s !! x)) ∧
      (∀ h, opened = Some h → h ∉ files s)
  | APush => workers s = [] ∧ is_Some (m_Recoger (chan s))
  | _ => True
  end.

Fixpoint allowed_run s (ls : list (event F A)) : Prop :=
  match ls with
  | [] => True
  | l :: ls => allowed s l ∧ ∀ s', act s l = Ok s' → allowed_run s' ls
  end.

Lemma insert_resource (rs : gmap addr CAliResource) (re x : addr) (r : CAliResource) :
  is_Some (rs !! x) → is_Some (<[re:=r]> rs !! x).
Proof. intros ?. destruct (decide (re = x)) as [->|]; [rewrite lookup_insert_eq|rewrite lookup_insert_ne]; eauto. Qed.

Lemma recoger_ok c rs fs :
  channel_ok c rs fs → is_Some (m_Recoger c) → ∃ re r, recoger c rs = Ok (re, r).
Proof.
  intros Hc [re Hre]. destruct (ck_recoger _ _ _ Hc re Hre) as [r Hr].
  exists re, r. unfold recoger. rewrite Hre. simpl. by rewrite Hr.
Qed.

Lemma channel_ok_resources c rs fs re r :
  channel_ok c rs fs → channel_ok c (<[re:=r]> rs) fs.
Proof. intros []. split; eauto using insert_resource. Qed.

Lemma start_ok c rs fs Ch re name opened :
  channel_ok c rs fs → (∀ x, re = Some x → is_Some (rs !! x)) → (∀ h, opened = Some h → h ∉ fs) →
  ∃ ok c' fs', Start c fs Ch re true name opened = Ok (ok, c', fs') ∧ channel_ok c' rs fs' ∧
    (ok = true → queued c' = []) ∧ (ok = false → c' = c).
Proof.
  intros Hc Hre Hopen. unfold Start. destruct Ch as [ch|]; [|by exists false, c, fs].
  destruct re as [re|]; [|by exists false, c, fs].
  destruct Hc as [Hm [q Hq] Hp Hn Hr Hf]. unfold lock. rewrite Hm. cbn [mbind res_bind]. rewrite Hq.
  cbn [deref mbind res_bind]. simpl m_record. destruct (m_record c) eqn:Erec.
  2:{ eexists true, _, fs. split; [done|]. split; [|done].
      split; simpl; [done|by eexists|congruence|by intros _; apply Hn|intros x [= <-]; by apply Hre|].
      intros _ h. by rewrite Hn. }
  simpl m_recordPath. unfold record_file_name.
  destruct (last (m_recordPath c)) as [d|] eqn:El.
  2:{ by apply last_None in El; destruct (Hp eq_refl). }
  assert (∀ path, path ≠ [] → ∃ ok c' fs',
    (let '(c0, files0) := RecordStart (set_path (set_queue (set_users c (Some ch) (Some re) true)
       (Some [])) path) fs opened in Ok (true, c0, files0)) = Ok (ok, c', fs') ∧
    channel_ok c' rs fs' ∧ (ok = true → queued c' = []) ∧ (ok = false → c' = c)) as Hgo.
  { intros path Hpath. unfold RecordStart. simpl m_record. rewrite Erec.
    destruct opened as [h|]; eexists true, _, _; (split; [done|]); (split; [|done]);
      (split; simpl; [done|by eexists|intros _; exact Hpath|congruence|intros x [= <-]; by apply Hre|]);
      intros _ h'; [intros [= <-]; set_solver|done]. }
  case_decide; cbn [mbind res_bind]; apply Hgo; intros E;
    [apply app_eq_nil in E as [E _]|]; by rewrite E in El.
Qed.

Lemma take_frame_ok c rs fs empty :
  channel_ok c rs fs →
  ∃ p c', take_frame c empty = Ok (p, c') ∧ channel_ok c' rs fs ∧ m_Recoger c' = m_Recoger c ∧
    m_starting c' = m_starting c ∧
    ((p = empty ∧ c' = c ∧ queued c = []) ∨ (∃ f, p = pc_send f ∧ queued c = f :: queued c')).
Proof.
  intros Hc. unfold take_frame, queued. destruct (ck_queue _ _ _ Hc) as [q Hq]. rewrite Hq. simpl.
  destruct q as [|f q].
  - exists empty, c. split_and!; [done..|]. by left.
  - eexists (pc_send f), _. split_and!; [done| |done..|].
    + destruct Hc. by split; simpl; eauto.
    + right. by exists f.
Qed.

(** A step of the one thread of a channel. *)
Lemma work_ok p c rs fs e :
  channel_ok c rs fs → is_Some (m_Recoger c) →
  ∃ p' c' rs' fs', work p c rs fs e = Ok (p', c', rs', fs') ∧ channel_ok c' rs' fs' ∧
    match p' with
    | None => m_Recoger c' = None
    | Some p' => m_Recoger c' = m_Recoger c ∧ in_hand p' ++ queued c' =
        match p with pc_send _ => queued c | _ => in_hand p ++ queued c end
    end.
Proof.
  intros Hc Hre. destruct (recoger_ok c rs fs Hc Hre) as (re & r & Er).
  assert (∀ empty, in_hand empty = [] → ∃ p' c' rs' fs',
    (p ← take_frame c empty; let '(p, c) := p in Ok (Some p, c, rs, fs)) = Ok (p', c', rs', fs') ∧
    channel_ok c' rs' fs' ∧
    match p' with
    | None => m_Recoger c' = None
    | Some p' => m_Recoger c' = m_Recoger c ∧ in_hand p' ++ queued c' = queued c
    end) as Htake.
  { intros empty He. destruct (take_frame_ok c rs fs empty Hc) as (p' & c' & -> & Hc' & Hr & _ & Hq).
    eexists (Some p'), c', rs, fs. split_and!; [done..|].
    destruct Hq as [(-> & -> & Hq)|(f & -> & Hq)]; [by rewrite He|by rewrite Hq]. }
  destruct p as [| | | | | |f|f|]; cbn [work].
  - rewrite Er. cbn [mbind res_bind]. destruct (DoCreateRecogRequest r (e_sdk e)) as [ok r'].
    eexists _, _, _, _. split; [done|]. split; [by apply channel_ok_resources|]. by destruct ok.
  - eexists _, _, _, _. split; [done|]. split; [done|]. by destruct (m_starting c).
  - rewrite Er. cbn [mbind res_bind]. destruct (DoCheakRecogToKen r _ _) as [ok r'].
    eexists _, _, _, _. split; [done|]. split; [by apply channel_ok_resources|]. by destruct ok.
  - by apply Htake.
  - by apply Htake.
  - by apply Htake.
  - rewrite Er. cbn [mbind res_bind]. eexists _, _, _, _. split; [done|]. split; [done|]. by case_decide.
  - unfold RecordMain.
    assert ((if m_record c then match m_file c with Some h => if decide (h ∈ fs) then Ok tt else Fault
      | None => Ok tt end else Ok tt) = Ok tt) as ->.
    { destruct (m_record c); [|done]. destruct (m_file c) as [h|] eqn:Hh; [|done].
      by rewrite decide_True by (exact (ck_file _ _ _ Hc Hre h Hh)). }
    eexists _, _, _, _. split; [done|]. by split.
  - unfold lock. rewrite (ck_mutex _ _ _ Hc). cbn [mbind res_bind]. rewrite Er. cbn [mbind res_bind].
    destruct (DoDestroyRecogRequest r) as [calls r']. unfold RecordStop, close_file.
    assert (channel_ok (set_users c None None false) (<[re:=r']> rs) fs) as Hc'.
    { destruct (channel_ok_resources _ _ _ re r' Hc). split; simpl; done. }
    destruct (m_file c) as [h|] eqn:Hh; cbn [mbind res_bind].
    2:{ eexists None, _, _, _. by split_and!. }
    rewrite decide_True by (exact (ck_file _ _ _ Hc Hre h Hh)). cbn [mbind res_bind].
    eexists None, _, _, _. split; [done|]. split; [|done].
    destruct Hc'. split; simpl; done.
Qed.

Lemma wake_in_hand (ws : list (pc F)) : (wake <$> ws) ≫= in_hand = ws ≫= in_hand.
Proof.
  induction ws as [|p ws IH]; [done|]. rewrite fmap_cons, !bind_cons, IH. by destruct p.
Qed.

Lemma act_ok s l :
  channel_inv s → allowed s l → ∃ s', act s l = Ok s' ∧ channel_inv s'.
Proof.
  intros [Hc Hw Hl Ho] Hal. destruct l as [Ch re d name opened| | |f a|f|i e]; simpl in Hal; unfold act.
  - destruct Hal as (Hnil & -> & Hre & Hopen).
    destruct (start_ok _ _ _ Ch re name opened Hc Hre Hopen) as (ok & c' & fs' & -> & Hc' & Hq & Heq).
    cbn [mbind res_bind]. destruct ok; eexists; (split; [done|]); split; simpl; try done.
    + by rewrite Hnil, Hq.
    + by rewrite Heq.
  - destruct Hal as [Hnil Hre]. eexists; split; [done|]. rewrite Hnil in *. split; simpl; done.
  - unfold Stop, lock. rewrite (ck_mutex _ _ _ Hc). cbn [mbind res_bind].
    destruct (ck_queue _ _ _ Hc) as [q Hq]. rewrite Hq. cbn [deref mbind res_bind].
    eexists; split; [done|]. split; simpl.
    + by destruct Hc; split.
    + by rewrite length_fmap.
    + intros Hne. apply Hl. by intros E; rewrite E in Hne.
    + intros Hre. rewrite <- (Ho Hre). f_equal. f_equal. apply wake_in_hand.
  - eexists; split; [done|]. by split.
  - unfold WriteFrame. destruct (ck_queue _ _ _ Hc) as [q Hq]. rewrite Hq.
    destruct (m_starting (chan s)) eqn:Hst; [case_decide|]; (eexists; split; [done|]).
    + split; simpl; try done.
      * destruct Hc. by split; simpl; eauto.
      * intros Hre. rewrite fmap_app, <- (Ho Hre). unfold queued. rewrite Hq. simpl.
        by rewrite <- !app_assoc.
    + by split.
    + split; simpl; done.
  - destruct (workers s !! i) as [p|] eqn:Hp; [|by exists s].
    destruct (workers s) as [|p0 ws] eqn:Ews; [done|]. simpl in Hw. destruct ws; [|simpl in Hw; lia].
    destruct i; [|done]. injection Hp as ->.
    assert (is_Some (m_Recoger (chan s))) as Hre by (by apply Hl).
    destruct (work_ok p _ _ _ e Hc Hre) as (p' & c' & rs' & fs' & -> & Hc' & Hp').
    cbn [mbind res_bind]. eexists; split; [done|]. specialize (Ho Hre).
    destruct p' as [p'|]; split; simpl; try done; try lia.
    + intros _. by rewrite (proj1 Hp').
    + intros _. destruct Hp' as [_ Hh]. rewrite <- Ho, app_nil_r, Hh. simpl.
      by destruct p; simpl; rewrite ?fmap_app, <- ?app_assoc.
    + rewrite Hp'. by intros [].
Qed.

Lemma run_events_ok s ls :
  channel_inv s → allowed_run s ls → ∃ s', run_events s ls = Ok s' ∧ channel_inv s'.
Proof.
  revert s. induction ls as [|l ls IH]; intros s Hs Hls; [by exists s|].
  destruct Hls as [Hl Hls]. destruct (act_ok s l Hs Hl) as (s' & E & Hs').
  simpl. rewrite E. apply IH; auto.
Qed.

(** A channel after [Init]. *)
Definition opened_channel (id : nat) (path : cstr) (record : bool) (rs : gmap addr CAliResource)
    (fs : gset addr) (au : F → A) : system F A :=
  mk_system (Init CAliChannel_new id path record true true).2 rs fs [] au [] [].

Lemma init_inv (id : nat) (path : cstr) (record : bool) (rs : gmap addr CAliResource) (fs : gset addr)
    (au : F → A) :
  path ≠ [] → channel_inv (opened_channel id path record rs fs au).
Proof. intros Hp. split; simpl; [|lia|done|by intros []]. split; simpl; eauto; done. Qed.

(** C19: a channel that is started only when no thread runs on it never faults,
    and every frame is handed on in order.  Whatever the media thread, the task
    and the thread of the pool do in between, no operation dereferences NULL or
    touches a closed file, at most one thread runs, and the frames handed to
    the service, the one in hand and those queued are together the frames
    written since the start, in order. *)
Theorem channel_safe (id : nat) (path : cstr) (record : bool) (rs : gmap addr CAliResource)
  (fs : gset addr) (au : F → A) (ls : list (event F A)) (Hpath : path ≠ [])
  (Hls : allowed_run (opened_channel id path record rs fs au) ls) :
  ∃ s, run_events (opened_channel id path record rs fs au) ls = Ok s ∧ length (workers s) ≤ 1 ∧
    (is_Some (m_Recoger (chan s)) →
     (sent s).*1 ++ (workers s ≫= in_hand) ++ queued (chan s) = (written s).*1).
Proof.
  destruct (run_events_ok _ ls (init_inv id path record rs fs au Hpath) Hls) as (s & E & [_ Hw _ Ho]).
  by exists s.
Qed.

(** ** The audio of the frames *)

(** The frames taken by the channel and not handed to the service. *)
Definition held s : list F := (workers s ≫= in_hand) ++ queued (chan s).

Definition with_audio s (f : F) : F * A := (f, audio s f).

Definition audio_inv s : Prop :=
  is_Some (m_Recoger (chan s)) → sent s ++ (with_audio s <$> held s) = written s.

(** The media thread does not reuse a frame before the service has got it. *)
Definition careful s (l : event F A) : Prop :=
  match l with AFill f _ => f ∉ held s | _ => True end.

Fixpoint careful_run s (ls : list (event F A)) : Prop :=
  match ls with
  | [] => True
  | l :: ls => careful s l ∧ ∀ s', act s l = Ok s' → careful_run s' ls
  end.

Lemma act_audio s l s' :
  channel_inv s → allowed s l → careful s l → audio_inv s → act s l = Ok s' → audio_inv s'.
Proof.
  intros [Hc Hw Hl _] Hal Hcare Ha E. unfold audio_inv, with_audio, held in *.
  destruct l as [Ch re d name opened| | |f a|f|i e]; simpl in Hal, Hcare; unfold act in E.
  - destruct Hal as (Hnil & -> & Hre & Hopen).
    destruct (start_ok _ _ _ Ch re name opened Hc Hre Hopen) as (ok & c' & fs' & Es & Hc' & Hq & Heq).
    rewrite Es in E. cbn [mbind res_bind] in E.
    destruct ok; injection E as <-; simpl; [by rewrite Hnil, Hq|by rewrite Heq].
  - injection E as <-. destruct Hal as [Hnil _]. rewrite Hnil in *. done.
  - unfold Stop in E. destruct (lock (chan s)); [|done]. cbn [mbind res_bind] in E.
    destruct (m_FrameQueue (chan s)) as [q|] eqn:Hq; [|done]. injection E as <-. simpl.
    rewrite wake_in_hand. unfold queued in *. simpl. by rewrite Hq in *.
  - injection E as <-. simpl. intros Hre. rewrite <- (Ha Hre). f_equal. apply list_fmap_ext.
    intros i g Hg%list_elem_of_lookup_2. unfold fill. by rewrite decide_False by (by intros ->).
  - unfold WriteFrame in E. destruct (ck_queue _ _ _ Hc) as [q Hq]. rewrite Hq in E.
    destruct (m_starting (chan s)) eqn:Hst; [case_decide|]; injection E as <-; simpl; try done.
    intros Hre. rewrite <- (Ha Hre). unfold queued. rewrite Hq. simpl.
    by rewrite !fmap_app, <- !app_assoc.
  - destruct (workers s !! i) as [p|] eqn:Hp; [|by injection E as <-].
    destruct (workers s) as [|p0 ws] eqn:Ews; [done|]. simpl in Hw. destruct ws; [|simpl in Hw; lia].
    destruct i; [|done]. injection Hp as ->.
    assert (is_Some (m_Recoger (chan s))) as Hre by (by apply Hl).
    destruct (work_ok p _ _ _ e Hc Hre) as (p' & c' & rs' & fs' & Ew & Hc' & Hp').
    rewrite Ew in E. cbn [mbind res_bind] in E. injection E as <-. specialize (Ha Hre). simpl in *.
    destruct p' as [p'|]; simpl; [|rewrite Hp'; by intros []].
    intros _. destruct Hp' as [_ Hh]. rewrite app_nil_r in Ha |- *. rewrite <- Ha, Hh.
    by destruct p; simpl; rewrite <- ?app_assoc.
Qed.

Lemma run_audio s ls :
  channel_inv s → allowed_run s ls → careful_run s ls → audio_inv s →
  ∃ s', run_events s ls = Ok s' ∧ audio_inv s'.
Proof.
  revert s. induction ls as [|l ls IH]; intros s Hs Hls Hcs Ha; [by exists s|].
  destruct Hls as [Hl Hls], Hcs as [Hcare Hcs]. destruct (act_ok s l Hs Hl) as (s' & E & Hs').
  simpl. rewrite E. apply IH; auto. by apply (act_audio s l).
Qed.

(** C34: the service gets the audio that was written, when no frame is reused
    too early.  If the media thread stores new audio in a frame only after the
    channel has handed that frame to the service, the audio the service got
    followed by the audio still held is the audio that was written since the
    start, in order. *)
Theorem audio_in_order (id : nat) (path : cstr) (record : bool) (rs : gmap addr CAliResource)
  (fs : gset addr) (au : F → A) (ls : list (event F A)) (Hpath : path ≠ [])
  (Hls : allowed_run (opened_channel id path record rs fs au) ls)
  (Hcare : careful_run (opened_channel id path record rs fs au) ls) :
  ∃ s, run_events (opened_channel id path record rs fs au) ls = Ok s ∧
    (is_Some (m_Recoger (chan s)) → (sent s).*2 ++ (audio s <$> held s) = (written s).*2).
Proof.
  destruct (run_audio _ ls (init_inv id path record rs fs au Hpath) Hls Hcare) as (s & E & Ha).
  { by intros []. }
  exists s. split; [done|]. intros Hre. rewrite <- (Ha Hre), fmap_app, <- list_fmap_compose. done.
Qed.

(** ** The end of the thread after a stop *)

(** The events that do not start the channel again. *)
Definition no_start (l : event F A) : bool :=
  match l with AStart _ _ _ _ _ | APush => false | _ => true end.

(** The steps of the first thread. *)
Definition thread_step (l : event F A) : nat := match l with AWork 0 _ => 1 | _ => 0 end.
Definition thread_steps : list (event F A) → nat := sum_list_with thread_step.

(** The steps a thread has at most left once the channel is stopped; [None]: it
    may block on the queue. *)
Definition steps_left (p : pc F) : option nat :=
  match p with
  | pc_woken => Some 5
  | pc_send _ => Some 4
  | pc_create | pc_record _ => Some 3
  | pc_while => Some 2
  | pc_end => Some 1
  | pc_token | pc_pop | pc_wait => None
  end.

Lemma work_starting p c rs fs e p' c' rs' fs' :
  work p c rs fs e = Ok (p', c', rs', fs') → m_starting c = false → m_starting c' = false.
Proof.
  intros E Hs. destruct p; cbn [work] in E;
    repeat match type of E with
    | (?x ≫= _) = Ok _ => destruct x eqn:?; [cbn [mbind res_bind] in E|done]
    | (let '(_, _) := ?x in _) = Ok _ => destruct x
    end; simplify_eq; try done;
    unfold take_frame in *; destruct (m_FrameQueue c) as [[|f q]|]; by simplify_eq/=.
Qed.

Lemma work_steps p c rs fs e n :
  channel_ok c rs fs → is_Some (m_Recoger c) → m_starting c = false → steps_left p = Some (S n) →
  ∃ p' c' rs' fs', work p c rs fs e = Ok (p', c', rs', fs') ∧
    match p' with None => True | Some p' => ∃ n', steps_left p' = Some n' ∧ n' ≤ n end.
Proof.
  intros Hc Hre Hs Hn. destruct (work_ok p c rs fs e Hc Hre) as (p' & c' & rs' & fs' & E & _ & _).
  exists p', c', rs', fs'. split; [done|].
  destruct p; simpl in Hn; simplify_eq; cbn [work] in E;
    repeat match type of E with
    | (?x ≫= _) = Ok _ => destruct x eqn:?; [cbn [mbind res_bind] in E|done]
    | (let '(_, _) := ?x in _) = Ok _ => destruct x
    end; simplify_eq; try done; try (rewrite Hs; eexists; split; [done|lia]).
  - match goal with |- context [if ?b then _ else _] => destruct b end; eexists; (split; [done|lia]).
  - unfold take_frame in *. destruct (m_FrameQueue c) as [[|f q]|]; simplify_eq/=; eexists; (split; [done|lia]).
  - case_decide; eexists; (split; [done|lia]).
  - eexists. split; [done|lia].
Qed.

(** A stopped channel, whose thread has at most [n] steps left. *)
Record stopped s (n : nat) : Prop := {
  st_inv : channel_inv s;
  st_flag : m_starting (chan s) = false;
  st_thread : workers s = [] ∨ ∃ p n', workers s = [p] ∧ steps_left p = Some n' ∧ n' ≤ n
}.

Lemma wake_steps p n : steps_left p = Some n → steps_left (wake p) = Some n.
Proof. by destruct p. Qed.

Lemma act_stopped s l n :
  stopped s n → no_start l = true →
  ∃ s', act s l = Ok s' ∧ stopped s' (n - thread_step l).
Proof.
  intros [Hi Hf Ht] Hl. destruct (act_ok s l Hi) as (s' & E & Hi'); [by destruct l|].
  exists s'. split; [done|]. split; [done|..]; pose proof Hi as [Hc Hw Hlive _];
    destruct l as [Ch re d name opened| | |f a|f|i e]; try done; unfold act in E.
  - unfold Stop in E. destruct (lock (chan s)); [|done]. cbn [mbind res_bind] in E.
    destruct (deref (m_FrameQueue (chan s))); [|done]. by injection E as <-.
  - by injection E as <-.
  - unfold WriteFrame in E. destruct (m_FrameQueue (chan s)) as [q|]; rewrite Hf in E; by injection E as <-.
  - destruct (workers s !! i) as [p|]; [|by injection E as <-].
    destruct (work p _ _ _ e) as [[[[p' c'] rs'] fs']|] eqn:Ew; [|done]. injection E as <-. simpl.
    by apply (work_starting _ _ _ _ _ _ _ _ _ Ew).
  - unfold Stop in E. destruct (lock (chan s)); [|done]. cbn [mbind res_bind] in E.
    destruct (deref (m_FrameQueue (chan s))); [|done]. injection E as <-. simpl.
    destruct Ht as [->|(p & n' & -> & Hn & Hle)]; [by left|right]. exists (wake p), n'.
    rewrite Nat.sub_0_r. split; [done|]. split; [by apply wake_steps|done].
  - injection E as <-. by rewrite Nat.sub_0_r.
  - unfold WriteFrame in E. rewrite Nat.sub_0_r.
    destruct (m_FrameQueue (chan s)) as [q|]; rewrite Hf in E; by injection E as <-.
  - destruct Ht as [Ht|(p & n' & Ht & Hn & Hle)]; rewrite Ht in E.
    { simpl in E. injection E as <-. by left. }
    destruct i as [|i]; simpl in E.
    2: { injection E as <-. rewrite Nat.sub_0_r. right. by exists p, n'. }
    assert (is_Some (m_Recoger (chan s))) as Hre by (apply Hlive; by rewrite Ht).
    destruct n' as [|n']; [by destruct p|].
    destruct (work_steps p _ _ _ e n' Hc Hre Hf Hn) as (p' & c' & rs' & fs' & Ew & Hp').
    rewrite Ew in E. cbn [mbind res_bind] in E. injection E as <-. simpl.
    destruct p' as [p'|]; [|by left]. destruct Hp' as (m & Hm & Hlem). right. exists p', m.
    split; [done|]. split; [done|lia].
Qed.

Lemma run_stopped s ls n :
  stopped s n → forallb no_start ls = true →
  ∃ s', run_events s ls = Ok s' ∧ stopped s' (n - thread_steps ls).
Proof.
  revert s n. induction ls as [|l ls IH]; intros s n Hs Hls.
  { exists s. by rewrite Nat.sub_0_r. }
  apply andb_true_iff in Hls as [Hl Hls]. destruct (act_stopped s l n Hs Hl) as (s1 & E & H1).
  simpl. rewrite E. cbn [mbind res_bind]. destruct (IH s1 _ H1 Hls) as (s2 & E2 & H2).
  exists s2. split; [done|]. by rewrite Nat.sub_add_distr.
Qed.

(** A stopped channel comes to rest.  If the thread of the channel is not
    between the test of the loop and the wait for a frame when [Stop] is
    called, then, whatever else happens but a new start, five more steps of the
    thread end it and it has left the channel. *)
Theorem stop_ends_thread s p (ls : list (event F A)) (Hs : channel_inv s) (Hp : workers s = [p])
  (Hpc : p ≠ pc_token ∧ p ≠ pc_pop) (Hls : forallb no_start ls = true) (Hsteps : 5 ≤ thread_steps ls) :
  ∃ s', run_events s (AStop :: ls) = Ok s' ∧ workers s' = [].
Proof.
  destruct (act_ok s AStop Hs I) as (s1 & E & H1). cbn [run_events]. rewrite E. cbn [mbind res_bind].
  assert (stopped s1 5) as Hst.
  { unfold act, Stop in E. destruct (lock (chan s)); [|done]. cbn [mbind res_bind] in E.
    destruct (deref (m_FrameQueue (chan s))); [|done]. injection E as <-. split; [done..|].
    right. simpl. rewrite Hp. exists (wake p), (default 5 (steps_left (wake p))). split; [done|].
    destruct Hpc. destruct p; simpl; split; try done; lia. }
  destruct (run_stopped s1 ls 5 Hst Hls) as (s2 & E2 & [_ _ Ht]). exists s2. split; [done|].
  destruct Ht as [?|(q & n & _ & Hn & Hle)]; [done|]. destruct q; simpl in Hn; simplify_eq; lia.
Qed.

(** A stopped channel whose thread waits for a frame that nobody will write. *)
Record hanging s : Prop := {
  hg_flag : m_starting (chan s) = false;
  hg_queue : m_FrameQueue (chan s) = Some [];
  hg_thread : workers s = [pc_pop] ∨ workers s = [pc_wait]
}.

(** The events of the media thread and of the pool. *)
Definition runs_on (l : event F A) : bool :=
  match l with AFill _ _ | AWrite _ | AWork _ _ => true | _ => false end.

Lemma act_hanging s l : hanging s → runs_on l = true → ∃ s', act s l = Ok s' ∧ hanging s'.
Proof.
  intros [Hf Hq Ht] Hl. destruct l as [| | |f a|f|i e]; try done; unfold act.
  - eexists. split; [done|]. by split.
  - unfold WriteFrame. rewrite Hq, Hf. eexists. split; [done|]. by split.
  - destruct i as [|i]; [|exists s; split; [by destruct Ht as [->| ->]|by split]].
    destruct Ht as [->| ->]; simpl; unfold take_frame; rewrite Hq; cbn [deref mbind res_bind];
      (eexists; split; [done|]); split; simpl; auto.
Qed.

Lemma run_hanging s ls : hanging s → forallb runs_on ls = true → ∃ s', run_events s ls = Ok s' ∧ hanging s'.
Proof.
  revert s. induction ls as [|l ls IH]; intros s Hs Hls; [by exists s|].
  apply andb_true_iff in Hls as [Hl Hls]. destruct (act_hanging s l Hs Hl) as (s1 & E & H1).
  cbn [run_events]. rewrite E. by apply IH.
Qed.

(** A stop just before the wait is lost.  When [Stop] is called after the
    thread has seen that the channel runs and before it waits for a frame, and
    no frame is queued, its wake-up finds nobody: the thread waits for ever,
    whatever the media thread writes and however often the thread runs. *)
Theorem stop_before_pop_hangs s (ls : list (event F A)) (Hs : channel_inv s) (Hp : workers s = [pc_pop])
  (Hq : queued (chan s) = []) (Hls : forallb runs_on ls = true) :
  ∃ s', run_events s (AStop :: ls) = Ok s' ∧ workers s' ≠ [].
Proof.
  pose proof Hs as [Hc _ _ _]. destruct (ck_queue _ _ _ Hc) as [q Eq].
  cbn [run_events]. unfold act, Stop, lock. rewrite (ck_mutex _ _ _ Hc), Eq. cbn [deref mbind res_bind].
  match goal with |- context [run_events ?x ls] => destruct (run_hanging x ls) as (s' & E & [_ _ Ht]) end.
  - split; simpl; [done| |rewrite Hp; by left]. rewrite Eq. unfold queued in Hq. rewrite Eq in Hq.
    simpl in Hq. by rewrite Hq.
  - done.
  - exists s'. split; [done|]. by destruct Ht as [->| ->].
Qed.

(** The file of a recording is closed twice.  [RecogMain] closes the file
    when it ends and leaves the handle in [m_file]; destroying the channel
    closes it again. *)
Theorem recording_closed_twice c rs fs e c' rs' fs' (h : addr)
  (Hf : m_file c = Some h) (Hend : work pc_end c rs fs e = Ok (None, c', rs', fs')) :
  Uinit c' fs' = Fault.
Proof.
  cbn [work] in Hend. unfold lock in Hend. destruct (m_mutex c); [|done].
  cbn [mbind res_bind] in Hend. destruct (recoger c rs) as [[re r]|]; [|done].
  cbn [mbind res_bind] in Hend. destruct (DoDestroyRecogRequest r) as [calls r'].
  unfold RecordStop, close_file in Hend. rewrite Hf in Hend. destruct (decide (h ∈ fs)); [|done].
  injection Hend as <- _ <-. unfold Uinit, close_file. simpl. rewrite Hf.
  rewrite decide_False; [done|set_solver].
Qed.

End Safety.

(** ** A recording of one frame *)

Definition granted : env :=
  mk_env (mk_answers true 100 (Some (lit "token", 5000%Z)) 0) 0.
Definition recording : system nat Z :=
  opened_channel 0 (lit "/var") true {[7 := idle_resource [] 0]} ∅ (λ _, 0%Z).
Definition one_frame : list (event nat Z) :=
  [AStart (Some 1) (Some 7) true (lit "f.pcm") (Some 3); APush; AWrite 10; AWork 0 granted;
   AWork 0 granted; AWork 0 granted; AWork 0 granted; AStop; AWork 0 granted; AWork 0 granted;
   AWork 0 granted; AWork 0 granted].

Lemma channel_safe_witness :
  ∃ s, run_events recording one_frame = Ok s ∧ length (workers s) ≤ 1 ∧
    (is_Some (m_Recoger (chan s)) →
     (sent s).*1 ++ (workers s ≫= in_hand) ++ queued (chan s) = (written s).*1).
Proof.
  apply (channel_safe 0 (lit "/var") true {[7 := idle_resource [] 0]} ∅ (λ _, 0%Z) one_frame); [discriminate|].
  cbn [allowed_run one_frame allowed].
  split.
  { split; [reflexivity|]. split; [reflexivity|]. split; [|intros h _; set_solver].
    intros x [= <-]. eexists. reflexivity. }
  intros s1 [= <-]. split; [split; [reflexivity|eexists; reflexivity]|].
  intros s2 _. split; [exact I|]. intros s3 _. split; [exact I|]. intros s4 _. split; [exact I|].
  intros s5 _. split; [exact I|]. intros s6 _. split; [exact I|]. intros s7 _. split; [exact I|].
  intros s8 _. split; [exact I|]. intros s9 _. split; [exact I|]. intros s10 _. split; [exact I|].
  intros s11 _. split; [exact I|]. intros s12 _. exact I.
Defined.

Definition ending : CAliChannel nat :=
  mk_ali_channel 0 (Some []) (Some 3) true (Some 7) true (lit "/var") false (Some 1).

Lemma recording_closed_twice_witness :
  Uinit (set_users ending None None false) ∅ = Fault.
Proof.
  apply (recording_closed_twice ending {[7 := idle_resource [] 0]} {[3]} granted _
    {[7 := idle_resource [] 0]} _ 3); vm_compute; reflexivity.
Defined.

(** A media bridge writes the audio 11 and then 22 with its only frame, number
    0, before the thread of the channel gets to run. *)
Definition two_ticks : list (event nat Z) :=
  [AStart (Some 1) (Some 7) true (lit "f.pcm") (Some 3); APush; AFill 0 11%Z; AWrite 0; AFill 0 22%Z;
   AWrite 0; AWork 0 granted; AWork 0 granted; AWork 0 granted; AWork 0 granted; AWork 0 granted;
   AWork 0 granted; AWork 0 granted; AWork 0 granted; AWork 0 granted; AWork 0 granted].

(** Audio that waits in the queue is overwritten.  The queue holds pointers
    and a media bridge has one frame: when the bridge processes two frames
    before the thread of the channel has sent the first, the service gets the
    second one twice and the first one never. *)
Theorem audio_overwritten :
  match run_events recording two_ticks with
  | Ok s => (written s).*2 = [11%Z; 22%Z] ∧ (sent s).*2 = [22%Z; 22%Z]
  | Fault => False
  end.
Proof. vm_compute. split; reflexivity. Qed.

Definition one_tick : list (event nat Z) :=
  [AStart (Some 1) (Some 7) true (lit "f.pcm") (Some 3); APush; AFill 0 11%Z; AWrite 0].

Lemma audio_in_order_witness :
  ∃ s, run_events recording one_tick = Ok s ∧
    (is_Some (m_Recoger (chan s)) → (sent s).*2 ++ (audio s <$> held s) = (written s).*2).
Proof.
  apply (audio_in_order 0 (lit "/var") true {[7 := idle_resource [] 0]} ∅ (λ _, 0%Z) one_tick);
    [discriminate| |]; cbn [allowed_run careful_run one_tick allowed careful].
  - split.
    { split; [reflexivity|]. split; [reflexivity|]. split; [|intros h _; set_solver].
      intros x [= <-]. eexists. reflexivity. }
    intros s1 [= <-]. split; [split; [reflexivity|eexists; reflexivity]|].
    intros s2 _. split; [exact I|]. intros s3 _. split; [exact I|]. intros s4 _. exact I.
  - split; [exact I|]. intros s1 [= <-]. split; [exact I|]. intros s2 [= <-].
    split; [intros []%elem_of_nil|]. intros s3 _. split; [exact I|]. intros s4 _. exact I.
Defined.

(** A channel that has been started, whose thread is at [p]. *)
Definition at_pc (p : pc nat) : system nat Z :=
  mk_system (mk_ali_channel 0 (Some []) None true (Some 7) false [] true (Some 1))
    {[7 := idle_resource [] 0]} ∅ [p] (λ _, 0%Z) [] [].

Lemma at_pc_inv (p : pc nat) : in_hand p = [] → channel_inv (at_pc p).
Proof.
  intros Hp. split; simpl; [|done..|by rewrite Hp].
  split; simpl; try done. intros re [= <-]. by eexists.
Qed.

Lemma stop_ends_thread_witness :
  ∃ s', run_events (at_pc pc_wait) (AStop :: replicate 5 (AWork 0 granted)) = Ok s' ∧ workers s' = [].
Proof.
  apply (stop_ends_thread (at_pc pc_wait) pc_wait).
  - apply at_pc_inv. reflexivity.
  - reflexivity.
  - split; discriminate.
  - reflexivity.
  - simpl. lia.
Defined.

Lemma stop_before_pop_hangs_witness :
  ∃ s', run_events (at_pc pc_pop) [AStop; AWork 0 granted; AWrite 0; AWork 0 granted] = Ok s' ∧ workers s' ≠ [].
Proof.
  apply (stop_before_pop_hangs (at_pc pc_pop) [AWork 0 granted; AWrite 0; AWork 0 granted]).
  - apply at_pc_inv. reflexivity.
  - reflexivity.
  - reflexivity.
  - reflexivity.
Defined.
