(* ===== verification/AliEngine.v ===== *)
(** * AliEngine: the pools of channels and of resources and the engine of the
    Ali recognizer plugin ([Ali_RecogChannelFactory.cpp],
    [Ali_RecogResourceFactory.cpp], [Ali_RecogEngine.cpp]).

    Channels and resources are objects of a store and the pools hold their
    addresses.  The factories never hold NULL: they return at once when they
    are handed NULL. *)
From stdpp Require Import sorting.
From S2P Require Import Prelude CString AliResource AliChannel.

(** The entries of a [std::map] are in the order of the keys. *)
Definition key_le {A} (p q : nat * A) : Prop := p.1 ≤ q.1.
#[export] Instance key_le_dec {A} : RelDecision (@key_le A).
Proof. intros p q. unfold key_le. apply _. Defined.

Definition map_entries {A} (m : gmap nat A) : list (nat * A) := merge_sort key_le (map_to_list m).
Definition map_begin {A} (m : gmap nat A) : option (nat * A) := head (map_entries m).

Section Factory.
  Context {F : Type}.
  Notation store := (gmap addr (CAliChannel F)).

(** ** The channel factory *)

Record CAliChannelFactory := mk_factory {
  m_ChidlePool : gmap nat addr;
  m_ChbusyPool : gmap nat addr
}.

Definition GetChannelId (chans : store) (AliCh : addr) : res nat :=
  c ← deref (chans !! AliCh);
  Ok (m_id c).

Definition AddChannel (chans : store) (f : CAliChannelFactory) (AliCh : addr)
    : res CAliChannelFactory :=
  id ← GetChannelId chans AliCh;
  match m_ChidlePool f !! id with
  | None => Ok (mk_factory (<[id:=AliCh]> (m_ChidlePool f)) (m_ChbusyPool f))
  | Some _ => Ok f
  end.

Definition GetIdleChannel (chans : store) (f : CAliChannelFactory)
    : res (option addr * CAliChannelFactory) :=
  match map_begin (m_ChidlePool f) with
  | None => Ok (None, f)
  | Some (_, AliCh) =>
      id ← GetChannelId chans AliCh;
      Ok (Some AliCh, mk_factory (delete id (m_ChidlePool f)) (m_ChbusyPool f))
  end.

Definition NewChannel (chans : store) (f : CAliChannelFactory)
    : res (option addr * CAliChannelFactory) :=
  '(AliCh, f) ← GetIdleChannel chans f;
  match AliCh with
  | None => Ok (None, f)
  | Some AliCh =>
      id ← GetChannelId chans AliCh;
      match m_ChbusyPool f !! id with
      | None => Ok (Some AliCh, mk_factory (m_ChidlePool f) (<[id:=AliCh]> (m_ChbusyPool f)))
      | Some _ => Ok (Some AliCh, f)
      end
  end.

Definition DeleteChannel (chans : store) (f : CAliChannelFactory) (AliCh : option addr)
    : res CAliChannelFactory :=
  match AliCh with
  | None => Ok f
  | Some AliCh =>
      id ← GetChannelId chans AliCh;
      let idle := match m_ChidlePool f !! id with
                  | None => <[id:=AliCh]> (m_ChidlePool f)
                  | Some _ => m_ChidlePool f
                  end in
      Ok (mk_factory idle (delete id (m_ChbusyPool f)))
  end.

(** The loop of [Init] from [id] on; [results] are those of the creations of
    the mutex and the queue of each channel.  A channel whose initialisation
    fails is deleted at once. *)
Fixpoint factory_init_loop (chans : store) (f : CAliChannelFactory) (recordPath : cstr)
    (record : bool) (id : nat) (results : list (bool * bool)) : res (store * CAliChannelFactory) :=
  match results with
  | [] => Ok (chans, f)
  | (mutex, queue) :: results =>
      let AliCh := fresh (dom chans) in
      let '(ok, c) := Init CAliChannel_new id recordPath record mutex queue in
      if (ok : bool) then
        let chans := <[AliCh:=c]> chans in
        f ← AddChannel chans f AliCh;
        factory_init_loop chans f recordPath record (S id) results
      else factory_init_loop chans f recordPath record (S id) results
  end.

Definition CAliChannelFactory_Init (chans : store) (recordPath : cstr) (record : bool)
    (results : list (bool * bool)) : res (store * CAliChannelFactory) :=
  factory_init_loop chans (mk_factory ∅ ∅) recordPath record 0 results.

(** Stop, uninitialise and delete the channels of a pool. *)
Fixpoint destroy_loop (chans : store) (files : gset addr) (ids : list (nat * addr))
    : res (store * gset addr) :=
  match ids with
  | [] => Ok (chans, files)
  | (_, AliCh) :: ids =>
      c ← deref (chans !! AliCh);
      c ← Stop c;
      files ← Uinit c files;
      destroy_loop (delete AliCh chans) files ids
  end.

Definition CAliChannelFactory_Uinit (chans : store) (files : gset addr) (f : CAliChannelFactory)
    : res (store * gset addr) :=
  '(chans, files) ← (if decide (size (m_ChidlePool f) ≠ 0)
                     then destroy_loop chans files (map_entries (m_ChbusyPool f))
                     else Ok (chans, files));
  if decide (size (m_ChbusyPool f) ≠ 0)
  then destroy_loop chans files (map_entries (m_ChidlePool f))
  else Ok (chans, files).

(** ** The resource factory: a stack of resources *)

Definition NewResource (pool : list addr) : option addr * list addr :=
  match last pool with
  | None => (None, pool)
  | Some re => (Some re, take (length pool - 1) pool)
  end.

Definition DeleteResource (pool : list addr) (re : option addr) : list addr :=
  match re with
  | None => pool
  | Some re => pool ++ [re]
  end.

(** [Init]: [results] are those of the creations of the mutexes.  A resource is
    added to the pool whether its initialisation succeeds or not; [garbage]
    are the members the constructor does not initialise. *)
Fixpoint resource_init_loop (rs : gmap addr CAliResource) (pool : list addr) (c : ali_config)
    (kind : recog_mod) (garbage : CAliResource) (results : list bool)
    : gmap addr CAliResource * list addr :=
  match results with
  | [] => (rs, pool)
  | mutex :: results =>
      let re := fresh (dom rs) in
      let r := mk_resource kind blank_config [] (m_expireTime garbage) [] (m_lock garbage)
                 (m_Callback garbage) (m_Request garbage) (m_Flag garbage) in
      let '(_, r) := DoRecogRequestInit r c mutex in
      resource_init_loop (<[re:=r]> rs) (pool ++ [re]) c kind garbage results
  end.

(** ** The engine *)

(** [workers] are the threads of the pool with their channels; a session is
    the pair of pointers [AliCh], [AliRe] of an engine channel. *)
Record engine := mk_engine {
  chans : store;
  factory : CAliChannelFactory;
  recognizers : gmap addr CAliResource;
  re_pool : list addr;
  open_files : gset addr;
  threads : list (addr * pc F);
  sessions : gmap addr (option addr * option addr)
}.

Definition set_factory (e : engine) (f : CAliChannelFactory) (pool : list addr) : engine :=
  mk_engine (chans e) f (recognizers e) pool (open_files e) (threads e) (sessions e).
Definition set_channel (e : engine) (l : addr) (c : CAliChannel F) (fs : gset addr)
    (ws : list (addr * pc F)) : engine :=
  mk_engine (<[l:=c]> (chans e)) (factory e) (recognizers e) (re_pool e) fs ws (sessions e).
Definition set_session (e : engine) (pCh : addr) (s : option addr * option addr) : engine :=
  mk_engine (chans e) (factory e) (recognizers e) (re_pool e) (open_files e) (threads e)
    (<[pCh:=s]> (sessions e)).

(** An engine channel is created from the memory of a pool; its pointers [AliCh]
    and [AliRe] keep what was there. *)
Definition engine_channel_create (e : engine) (pCh : addr) (garbage : option addr * option addr)
    : engine := set_session e pCh garbage.

(** [AliCh->Stop()], which wakes the threads that wait on the queue. *)
Definition channel_stop (e : engine) (l : addr) : res engine :=
  c ← deref (chans e !! l);
  c ← Stop c;
  Ok (set_channel e l c (open_files e)
        ((λ '(l', p), (l', if decide (l' = l) then wake p else p)) <$> threads e)).

(** Stop a channel and give it and its resource back. *)
Definition release (e : engine) (l : addr) (re : option addr) : res engine :=
  e ← channel_stop e l;
  f ← DeleteChannel (chans e) (factory e) (Some l);
  Ok (set_factory e f (DeleteResource (re_pool e) re)).

(** What the start of a channel depends on: the codec, the name of the file,
    the opened file, and whether the thread pool takes the task. *)
Record start_env := mk_start_env {
  se_descriptor : bool;
  se_name : cstr;
  se_opened : option addr;
  se_pushed : bool
}.

(** The exit of [EngineReocgStart] when a step failed. *)
Definition start_failed (e : engine) (pCh : addr) (AliCh AliRes : option addr)
    : res (bool * engine) :=
  e ← match AliCh with
      | None => Ok e
      | Some l => release e l AliRes
      end;
  Ok (false, set_session e pCh (None, None)).

Definition EngineReocgStart (e : engine) (pCh : addr) (se : start_env) : res (bool * engine) :=
  '(AliCh, f) ← NewChannel (chans e) (factory e);
  let e := set_factory e f (re_pool e) in
  match AliCh with
  | None => start_failed e pCh None None
  | Some l =>
      let '(AliRes, pool) := NewResource (re_pool e) in
      let e := set_factory e (factory e) pool in
      match AliRes with
      | None => start_failed e pCh (Some l) None
      | Some re =>
          c ← deref (chans e !! l);
          '(ok, c, fs) ← Start c (open_files e) (Some pCh) (Some re) (se_descriptor se) (se_name se)
                           (se_opened se);
          let e := set_channel e l c fs (threads e) in
          if (ok : bool) && se_pushed se then
            let e := set_channel e l c fs (threads e ++ [(l, pc_create)]) in
            Ok (true, set_session e pCh (Some l, Some re))
          else start_failed e pCh (Some l) (Some re)
      end
  end.

Definition EngineReocgStop (e : engine) (pCh : addr) : res (bool * engine) :=
  s ← deref (sessions e !! pCh);
  match s with
  | (Some l, Some re) =>
      e ← release e l (Some re);
      Ok (true, set_session e pCh (None, None))
  | _ => Ok (true, e)
  end.

(** -1 without a channel; [None]: the caller waits for room in the queue. *)
Definition EngineWriteFrame (e : engine) (pCh : addr) (frame : F) : res (option (Z * engine)) :=
  s ← deref (sessions e !! pCh);
  match s.1 with
  | None => Ok (Some (-1, e)%Z)
  | Some l =>
      c ← deref (chans e !! l);
      match WriteFrame c frame with
      | None => Ok None
      | Some c => Ok (Some (0%Z, set_channel e l c (open_files e) (threads e)))
      end
  end.

Definition EngineRecogCompleted (e : engine) (pCh : addr) : res (cstr * engine) :=
  s ← deref (sessions e !! pCh);
  match s with
  | (Some _, Some re) =>
      r ← deref (recognizers e !! re);
      let '(result, r) := DoRecogResultGet r in
      Ok (result, mk_engine (chans e) (factory e) (<[re:=r]> (recognizers e)) (re_pool e)
                    (open_files e) (threads e) (sessions e))
  | _ => Ok ([], e)
  end.

(** [EngineInit], with the thread pool created; [EngineUinit], after the thread
    pool was destroyed. *)
Definition EngineInit (recordPath : cstr) (record : bool) (channel_results : list (bool * bool))
    (c : ali_config) (kind : recog_mod) (garbage : CAliResource) (resource_results : list bool)
    : res engine :=
  '(cs, f) ← CAliChannelFactory_Init ∅ recordPath record channel_results;
  let '(rs, pool) := resource_init_loop ∅ [] c kind garbage resource_results in
  Ok (mk_engine cs f rs pool ∅ [] ∅).

Definition EngineUinit (e : engine) : res engine :=
  let rs := foldr delete (recognizers e) (re_pool e) in
  '(cs, fs) ← CAliChannelFactory_Uinit (chans e) (open_files e) (factory e);
  Ok (mk_engine cs (mk_factory ∅ ∅) rs [] fs (threads e) (sessions e)).

(** A step of the thread [i] of the pool. *)
Definition engine_work (e : engine) (i : nat) (x : env) : res engine :=
  match threads e !! i with
  | None => Ok e
  | Some (l, p) =>
      c ← deref (chans e !! l);
      '(p', c, rs, fs) ← work p c (recognizers e) (open_files e) x;
      Ok (mk_engine (<[l:=c]> (chans e)) (factory e) rs (re_pool e) fs
            match p' with Some p' => <[i:=(l, p')]> (threads e) | None => delete i (threads e) end
            (sessions e))
  end.

End Factory.
Arguments engine : clear implicits.
