(* ===== verification/AliEngineTheory.v ===== *)
(** * AliEngineTheory: the pool of channels is an allocator, sessions never share
    a channel, and how channels are lost and threads meet. *)
From stdpp Require Import sorting.
From S2P Require Import Prelude CString AliResource AliChannel AliEngine.

(** ** The least entry of a map *)

#[export] Instance key_le_trans {A} : Transitive (@key_le A).
Proof. intros p q r. unfold key_le. lia. Qed.
#[export] Instance key_le_total {A} : Total (@key_le A).
Proof. intros p q. unfold key_le. lia. Qed.

Lemma map_begin_None {A} (m : gmap nat A) : map_begin m = None → m = ∅.
Proof.
  unfold map_begin, map_entries. intros H. apply map_to_list_empty_iff.
  apply Permutation_nil_r. rewrite <- (merge_sort_Permutation key_le).
  by destruct (merge_sort key_le (map_to_list m)).
Qed.

Lemma map_begin_Some {A} (m : gmap nat A) (k : nat) (x : A) :
  map_begin m = Some (k, x) → m !! k = Some x ∧ ∀ k', is_Some (m !! k') → k ≤ k'.
Proof.
  unfold map_begin, map_entries. intros H.
  pose proof (merge_sort_Permutation key_le (map_to_list m)) as Hp.
  pose proof (StronglySorted_merge_sort key_le (map_to_list m)) as Hs.
  destruct (merge_sort key_le (map_to_list m)) as [|p l]; [done|]. injection H as ->.
  apply StronglySorted_inv in Hs as [_ Hall]. split.
  - apply elem_of_map_to_list. rewrite <- Hp. by left.
  - intros k' [x' Hx']. apply elem_of_map_to_list in Hx'. rewrite <- Hp in Hx'.
    apply elem_of_cons in Hx' as [[= -> ->]|Hin]; [lia|].
    rewrite Forall_forall in Hall. by apply (Hall _ Hin).
Qed.

Section Pools.
  Context {F : Type}.
  Implicit Types (cs : gmap addr (CAliChannel F)) (f : CAliChannelFactory).

(** Every channel is in exactly one of the two pools, under its number. *)
Record factory_inv cs f : Prop := {
  fi_disjoint : m_ChidlePool f ##ₘ m_ChbusyPool f;
  fi_entry : ∀ k l, m_ChidlePool f !! k = Some l ∨ m_ChbusyPool f !! k = Some l →
    ∃ c, cs !! l = Some c ∧ m_id c = k;
  fi_all : ∀ l c, cs !! l = Some c →
    m_ChidlePool f !! m_id c = Some l ∨ m_ChbusyPool f !! m_id c = Some l
}.

Lemma new_channel_spec cs f :
  factory_inv cs f →
  (m_ChidlePool f = ∅ ∧ NewChannel cs f = Ok (None, f)) ∨
  ∃ k l, m_ChidlePool f !! k = Some l ∧ (∀ k', is_Some (m_ChidlePool f !! k') → k ≤ k') ∧
    NewChannel cs f = Ok (Some l, mk_factory (delete k (m_ChidlePool f)) (<[k:=l]> (m_ChbusyPool f))) ∧
    factory_inv cs (mk_factory (delete k (m_ChidlePool f)) (<[k:=l]> (m_ChbusyPool f))).
Proof.
  intros [Hd He Ha]. unfold NewChannel, GetIdleChannel.
  destruct (map_begin (m_ChidlePool f)) as [[k l]|] eqn:E.
  2:{ left. split; [by apply map_begin_None|done]. }
  right. apply map_begin_Some in E as [Hk Hmin]. exists k, l. split_and!; [done..| |].
  - destruct (He k l (or_introl Hk)) as (c & Hc & Hid). unfold GetChannelId. rewrite Hc. simpl.
    rewrite Hc. simpl. rewrite Hid. by rewrite (map_disjoint_Some_l _ _ _ _ Hd Hk).
  - split; simpl.
    + apply map_disjoint_insert_r. split; [by rewrite lookup_delete_eq|by apply map_disjoint_delete_l].
    + intros k' l' [H|H]; [apply lookup_delete_Some in H as [_ H]; by apply He; left|].
      apply lookup_insert_Some in H as [[<- <-]|[_ H]]; apply He; [by left|by right].
    + intros l' c Hc. destruct (decide (m_id c = k)) as [Hid|Hne].
      * right. destruct (He k l (or_introl Hk)) as (c' & Hc' & Hid').
        destruct (Ha l' c Hc) as [H|H]; rewrite Hid in H; [|by rewrite (map_disjoint_Some_l _ _ _ _ Hd Hk) in H].
        rewrite Hid, lookup_insert_eq. congruence.
      * rewrite lookup_delete_ne, lookup_insert_ne by done. by apply Ha.
Qed.

Lemma delete_channel_spec cs f l c :
  factory_inv cs f → cs !! l = Some c →
  ∃ f', DeleteChannel cs f (Some l) = Ok f' ∧ factory_inv cs f' ∧
    m_ChidlePool f' = <[m_id c:=l]> (m_ChidlePool f) ∧ m_ChbusyPool f' = delete (m_id c) (m_ChbusyPool f).
Proof.
  intros [Hd He Ha] Hc. unfold DeleteChannel, GetChannelId. rewrite Hc. simpl.
  set (idle := match m_ChidlePool f !! m_id c with
    | Some _ => m_ChidlePool f | None => <[m_id c:=l]> (m_ChidlePool f) end).
  assert (idle = <[m_id c:=l]> (m_ChidlePool f)) as Hidle.
  { unfold idle. destruct (m_ChidlePool f !! m_id c) as [l'|] eqn:E; [|done].
    destruct (Ha l c Hc) as [H|H]; [|by rewrite (map_disjoint_Some_l _ _ _ _ Hd E) in H].
    rewrite insert_id; congruence. }
  eexists. split; [done|]. rewrite Hidle. split; [|done]. split; simpl.
  - apply map_disjoint_insert_l. split; [by rewrite lookup_delete_eq|by apply map_disjoint_delete_r].
  - intros k' l' [H|H].
    + apply lookup_insert_Some in H as [[<- <-]|[_ H]]; [by exists c|by apply He; left].
    + apply lookup_delete_Some in H as [_ H]. by apply He; right.
  - intros l' c' Hc'. destruct (decide (m_id c' = m_id c)) as [Hid|Hne].
    + left. rewrite Hid, lookup_insert_eq. destruct (Ha l c Hc) as [H|H], (Ha l' c' Hc') as [H'|H'];
        rewrite Hid in H'; try congruence.
      * by rewrite (map_disjoint_Some_l _ _ _ _ Hd H) in H'.
      * by rewrite (map_disjoint_Some_l _ _ _ _ Hd H') in H.
    + rewrite lookup_insert_ne, lookup_delete_ne by done. by apply Ha.
Qed.

(** ** Handles

    The factory is used by several threads; its operations are atomic.  A run
    hands out channels and takes back the [i]-th of those that are out. *)
Inductive pool_op :=
  | OpNew
  | OpDelete (i : nat).

Fixpoint pool_run cs f (held : list addr) (ops : list pool_op) : res (CAliChannelFactory * list addr) :=
  match ops with
  | [] => Ok (f, held)
  | OpNew :: ops =>
      '(l, f) ← NewChannel cs f;
      pool_run cs f (option_list l ++ held) ops
  | OpDelete i :: ops =>
      match held !! i with
      | Some l => f ← DeleteChannel cs f (Some l); pool_run cs f (delete i held) ops
      | None => pool_run cs f held ops
      end
  end.

(** The handles that are out are the busy channels. *)
Definition held_inv cs f (held : list addr) : Prop :=
  NoDup held ∧ ∀ l, l ∈ held ↔ ∃ c, cs !! l = Some c ∧ m_ChbusyPool f !! m_id c = Some l.

Lemma pool_run_ok cs f held ops :
  factory_inv cs f → held_inv cs f held →
  ∃ f' held', pool_run cs f held ops = Ok (f', held') ∧ factory_inv cs f' ∧ held_inv cs f' held'.
Proof.
  revert f held. induction ops as [|[|i] ops IH]; intros f held Hf [Hnd Hheld]; [by exists f, held|..].
  - cbn [pool_run]. destruct (new_channel_spec cs f Hf) as [[_ ->]|(k & l & Hk & _ & -> & Hf')];
      cbn [mbind res_bind]; apply IH; try done.
    destruct Hf as [Hd He Ha]. destruct (He k l (or_introl Hk)) as (c & Hc & Hid). split; simpl.
    + constructor; [|done]. intros Hin. apply Hheld in Hin as (c' & Hc' & Hb).
      simplify_eq. by rewrite (map_disjoint_Some_l _ _ _ _ Hd Hk) in Hb.
    + intros l'. rewrite elem_of_cons, Hheld. split.
      * intros [->|(c' & Hc' & Hb)]; [exists c; by rewrite Hid, lookup_insert_eq|].
        exists c'. rewrite lookup_insert_ne; [done|]. intros E. rewrite <- E in Hb.
        by rewrite (map_disjoint_Some_l _ _ _ _ Hd Hk) in Hb.
      * intros (c' & Hc' & [[E1 E2]|[_ Hb]]%lookup_insert_Some); [by left|right; by exists c'].
  - cbn [pool_run]. destruct (held !! i) as [l|] eqn:Hi; [|by apply IH].
    destruct (proj1 (Hheld l) (list_elem_of_lookup_2 _ _ _ Hi)) as (c & Hc & Hb).
    destruct (delete_channel_spec cs f l c Hf Hc) as (f' & -> & Hf' & _ & Hbusy).
    cbn [mbind res_bind]. apply IH; [done|].
    assert (held ≡ₚ l :: delete i held) as Hp by (by apply delete_Permutation).
    rewrite Hp in Hnd. apply NoDup_cons in Hnd as [Hl Hnd]. split; [done|]. intros l'. rewrite Hbusy.
    setoid_rewrite lookup_delete_Some. split.
    + intros Hin. destruct (proj1 (Hheld l')) as (c' & Hc' & Hb'); [rewrite Hp; by right|].
      exists c'. split_and!; [done| |done]. intros E. apply Hl. congruence.
    + intros (c' & Hc' & Hne & Hb'). assert (l' ∈ held) as Hin by (apply Hheld; eauto).
      rewrite Hp in Hin. apply elem_of_cons in Hin as [->|]; [by simplify_eq|done].
Qed.

(** The channel factory is an allocator.  However the threads of the plugin
    take and give back channels, the factory never faults, every channel is
    either idle or busy, the busy ones are exactly those that are out, and none
    is out twice. *)
Theorem pool_exclusive cs (idle : gmap nat addr) (ops : list pool_op)
  (Hf : factory_inv cs (mk_factory idle ∅)) :
  ∃ f held, pool_run cs (mk_factory idle ∅) [] ops = Ok (f, held) ∧ NoDup held ∧
    m_ChidlePool f ##ₘ m_ChbusyPool f ∧
    (∀ l c, cs !! l = Some c → m_ChidlePool f !! m_id c = Some l ∨ m_ChbusyPool f !! m_id c = Some l) ∧
    (∀ l, l ∈ held ↔ ∃ c, cs !! l = Some c ∧ m_ChbusyPool f !! m_id c = Some l).
Proof.
  destruct (pool_run_ok cs (mk_factory idle ∅) [] ops Hf) as (f & held & E & [Hd _ Ha] & Hnd & Hheld).
  - split; [constructor|]. intros l. simpl. split; [by intros ?%elem_of_nil|].
    by intros (c & _ & H%lookup_empty_Some).
  - by exists f, held.
Qed.

(** Shutting down frees no channel when none is in use.  The loop over the
    idle channels runs only when there are busy ones, and the loop over the
    busy channels only when there are idle ones. *)
Theorem uinit_frees_nothing cs files (idle : gmap nat addr) :
  CAliChannelFactory_Uinit cs files (mk_factory idle ∅) = Ok (cs, files) ∧
  CAliChannelFactory_Uinit cs files (mk_factory ∅ idle) = Ok (cs, files).
Proof.
  unfold CAliChannelFactory_Uinit. simpl. rewrite map_size_empty.
  assert (map_entries (A:=addr) ∅ = []) as E by reflexivity. rewrite E.
  split; repeat case_decide; done.
Qed.

End Pools.

(** ** Sessions *)

Section Sessions.
  Context {F : Type}.
  Implicit Types (e : engine F) (c : CAliChannel F).

Definition channel_ready c : Prop :=
  m_mutex c = true ∧ is_Some (m_FrameQueue c) ∧ (m_record c = true → m_recordPath c ≠ []).

Definition busy e (l : addr) : Prop :=
  ∃ c, chans e !! l = Some c ∧ m_ChbusyPool (factory e) !! m_id c = Some l.

(** What a session may hold: a busy channel and a resource that is not in the
    pool, which no other session holds.  [inv_except (Some p)] says nothing of
    the session [p]. *)
Record inv_except (x : option addr) e : Prop := {
  ie_factory : factory_inv (chans e) (factory e);
  ie_ready : ∀ l c, chans e !! l = Some c → channel_ready c;
  ie_pool : NoDup (re_pool e);
  ie_known : ∀ re, re ∈ re_pool e → is_Some (recognizers e !! re);
  ie_shape : ∀ p s, Some p ≠ x → sessions e !! p = Some s →
    s = (None, None) ∨ ∃ l re, s = (Some l, Some re) ∧ busy e l ∧ re ∉ re_pool e ∧ is_Some (recognizers e !! re);
  ie_channel : ∀ p q l r r', Some p ≠ x → Some q ≠ x →
    sessions e !! p = Some (Some l, r) → sessions e !! q = Some (Some l, r') → p = q;
  ie_resource : ∀ p q re d d', Some p ≠ x → Some q ≠ x →
    sessions e !! p = Some (d, Some re) → sessions e !! q = Some (d', Some re) → p = q
}.

Definition session_inv := inv_except None.

Definition free_channel (x : option addr) e (l : addr) : Prop :=
  ∀ q r, Some q ≠ x → sessions e !! q ≠ Some (Some l, r).
Definition free_resource (x : option addr) e (re : addr) : Prop :=
  re ∉ re_pool e ∧ is_Some (recognizers e !! re) ∧ ∀ q d, Some q ≠ x → sessions e !! q ≠ Some (d, Some re).

Lemma inv_weaken p e : session_inv e → inv_except (Some p) e.
Proof.
  intros [Hf Hr Hp Hkn Hs Hc Hre]. split; [done..| | |].
  - intros q s _ Hq. by apply (Hs q).
  - intros q1 q2 l r r' _ _ H1 H2. by apply (Hc q1 q2 l r r').
  - intros q1 q2 re d d' _ _ H1 H2. by apply (Hre q1 q2 re d d').
Qed.

(** Two sessions that hold the same thing, one of which may be [p]. *)
Lemma insert_excl (m : gmap addr (option addr * option addr)) (p : addr) (s : option addr * option addr)
  (P : option addr * option addr → Prop) :
  (∀ q t, q ≠ p → m !! q = Some t → P t → ¬ P s) →
  (∀ q1 q2 t1 t2, q1 ≠ p → q2 ≠ p → m !! q1 = Some t1 → m !! q2 = Some t2 → P t1 → P t2 → q1 = q2) →
  ∀ q1 q2 t1 t2, <[p:=s]> m !! q1 = Some t1 → <[p:=s]> m !! q2 = Some t2 → P t1 → P t2 → q1 = q2.
Proof.
  intros Hs Ho q1 q2 t1 t2 H1 H2 P1 P2.
  apply lookup_insert_Some in H1 as [[E1 F1]|[Hn1 H1]], H2 as [[E2 F2]|[Hn2 H2]]; subst; [done|..].
  - by destruct (Hs q2 t2).
  - by destruct (Hs q1 t1).
  - by apply (Ho q1 q2 t1 t2).
Qed.

Lemma inv_close p e s :
  inv_except (Some p) e →
  match s with
  | (Some l, Some re) => busy e l ∧ free_channel (Some p) e l ∧ free_resource (Some p) e re
  | (None, None) => True
  | _ => False
  end → session_inv (set_session e p s).
Proof.
  intros [Hf Hr Hp Hkn Hs Hc Hre] Hnew. split; try done; simpl.
  - intros q s' _ [[<- <-]|[Hne Hq]]%lookup_insert_Some; [|by apply (Hs q); [congruence|]].
    destruct s as [[l|] [re|]]; try done; [|by left].
    right. destruct Hnew as (Hb & _ & (Hin & Hk & _)). by exists l, re.
  - intros q1 q2 l r r' _ _ H1 H2.
    apply (insert_excl (sessions e) p s (λ t, t.1 = Some l)) with (t1 := (Some l, r)) (t2 := (Some l, r'));
      try done.
    + intros q [d re'] Hne Hq Hd Hl. simpl in *. subst. destruct s as [[l'|] [re|]]; try done.
      simpl in Hl. injection Hl as ->. destruct Hnew as (_ & Hfree & _). by apply (Hfree q re'); [congruence|].
    + intros p1 p2 [d1 ?] [d2 ?] Hn1 Hn2 ? ? ? ?. simpl in *. subst. eapply Hc; eauto; congruence.
  - intros q1 q2 re d d' _ _ H1 H2.
    apply (insert_excl (sessions e) p s (λ t, t.2 = Some re)) with (t1 := (d, Some re)) (t2 := (d', Some re));
      try done.
    + intros q [dq re'] Hne Hq Hd Hl. simpl in *. subst. destruct s as [[l'|] [re'|]]; try done.
      simpl in Hl. injection Hl as ->. destruct Hnew as (_ & _ & (_ & _ & Hfree)).
      by apply (Hfree q dq); [congruence|].
    + intros p1 p2 [d1 ?] [d2 ?] Hn1 Hn2 ? ? ? ?. simpl in *. subst. eapply Hre; eauto; congruence.
Qed.

(** A channel changes, its number does not. *)
Lemma factory_inv_insert cs f l c c' :
  factory_inv cs f → cs !! l = Some c → m_id c' = m_id c → factory_inv (<[l:=c']> cs) f.
Proof.
  intros [Hd He Ha] Hc Hid. split; [done|..].
  - intros k l' H. destruct (He k l' H) as (c0 & Hc0 & Hk). destruct (decide (l' = l)) as [->|Hne].
    + exists c'. rewrite lookup_insert_eq. split; [done|]. congruence.
    + exists c0. by rewrite lookup_insert_ne.
  - intros l' c0 [[<- <-]|[_ H]]%lookup_insert_Some; [rewrite Hid|]; by apply Ha.
Qed.

Lemma busy_set_channel e l c c' fs ws l' :
  chans e !! l = Some c → m_id c' = m_id c → busy (set_channel e l c' fs ws) l' ↔ busy e l'.
Proof.
  intros Hc Hid. unfold busy. simpl. destruct (decide (l' = l)) as [->|Hne].
  - rewrite lookup_insert_eq, Hc. split; intros (c0 & [= <-] & Hb); eexists; (split; [done|]); congruence.
  - by rewrite lookup_insert_ne.
Qed.

Lemma inv_set_channel x e l c c' fs ws :
  inv_except x e → chans e !! l = Some c → m_id c' = m_id c → channel_ready c' →
  inv_except x (set_channel e l c' fs ws).
Proof.
  intros [Hf Hr Hp Hkn Hs Hc Hre] Hl Hid Hready. split; try done; simpl.
  - by apply (factory_inv_insert _ _ _ c).
  - intros l' c0 [[_ <-]|[_ H]]%lookup_insert_Some; [done|by apply (Hr l')].
  - intros p s Hne H. destruct (Hs p s Hne H) as [?|(l' & re & -> & Hb & ? & ?)]; [by left|right].
    exists l', re. by rewrite busy_set_channel.
Qed.

(** The pools and the sessions are the same, and the channels are busy as
    before. *)
Definition same_pools e e' : Prop :=
  factory e' = factory e ∧ re_pool e' = re_pool e ∧ sessions e' = sessions e ∧
  recognizers e' = recognizers e ∧
  ∀ l, busy e' l ↔ busy e l.

Lemma channel_stop_spec x e l c :
  inv_except x e → chans e !! l = Some c →
  ∃ e' c', channel_stop e l = Ok e' ∧ inv_except x e' ∧ same_pools e e' ∧
    chans e' !! l = Some c' ∧ m_id c' = m_id c.
Proof.
  intros He Hc. unfold channel_stop. rewrite Hc. cbn [deref mbind res_bind].
  destruct (ie_ready _ _ He l c Hc) as (Hm & [q Hq] & Hpath).
  unfold Stop, lock. rewrite Hm, Hq. cbn [deref mbind res_bind].
  eexists _, _. split; [done|]. split.
  { apply (inv_set_channel x e l c); done. }
  split; [|split; [simpl; by rewrite lookup_insert_eq|done]].
  split_and!; try done. intros l'. by apply (busy_set_channel _ _ c).
Qed.

Lemma release_spec p e l re :
  inv_except (Some p) e → busy e l → free_channel (Some p) e l →
  (∀ r, re = Some r → free_resource (Some p) e r) →
  ∃ e', release e l re = Ok e' ∧ inv_except (Some p) e' ∧ sessions e' = sessions e ∧
    ∀ l', l' ≠ l → busy e l' → busy e' l'.
Proof.
  intros He (c & Hc & Hb) Hfree Hre. unfold release.
  destruct (channel_stop_spec _ e l c He Hc) as (e1 & c1 & -> & He1 & (Ef & Ep & Es & Er & Eb) & Hc1 & Hid).
  cbn [mbind res_bind]. destruct (delete_channel_spec _ _ _ _ (ie_factory _ _ He1) Hc1)
    as (f & -> & Hf & _ & Hbusy). cbn [mbind res_bind].
  assert (∀ l', l' ≠ l → busy e1 l' → ∃ c', chans e1 !! l' = Some c' ∧ m_ChbusyPool f !! m_id c' = Some l')
    as Hkeep.
  { intros l' Hne (c' & Hc' & Hb'). exists c'. split; [done|]. rewrite Hbusy, lookup_delete_ne; [done|].
    intros E. rewrite <- E, Ef, Hid, Hb in Hb'. congruence. }
  eexists. split; [done|]. split; [|split; [done|]].
  2:{ intros l' Hne Hl'. apply (Hkeep l' Hne). by apply Eb. }
  destruct He1 as [_ Hr Hp Hkn Hs Hc' Hr']. rewrite Ep in Hkn. split; try done; simpl.
  - destruct re as [re|]; simpl; [|done]. apply NoDup_app. split; [done|]. split; [|apply NoDup_singleton].
    intros r Hin ->%list_elem_of_singleton. rewrite Ep in Hin. by apply (proj1 (Hre re eq_refl)).
  - intros r. rewrite Ep. destruct re as [re|]; simpl; [|by apply Hkn].
    rewrite elem_of_app, list_elem_of_singleton. intros [Hin| ->]; [by apply Hkn|].
    rewrite Er. by apply (Hre re eq_refl).
  - intros q s Hne Hq. destruct (Hs q s Hne Hq) as [?|(l' & re' & -> & Hbl & Hin & Hk')]; [by left|right].
    rewrite Es in Hq. exists l', re'. split; [done|]. split_and!; [| |done].
    + apply Hkeep; [|done]. intros ->. by apply (Hfree q (Some re')).
    + destruct re as [re|]; simpl; [|done]. rewrite elem_of_app, list_elem_of_singleton.
      intros [?| ->]; [done|].
      destruct (Hre re eq_refl) as (_ & _ & Hn). by apply (Hn q (Some l')).
Qed.

(** The start of a ready channel with a codec. *)
Lemma start_ready c fs ch re name opened :
  channel_ready c →
  ∃ c' fs', Start c fs (Some ch) (Some re) true name opened = Ok (true, c', fs') ∧
    channel_ready c' ∧ m_id c' = m_id c.
Proof.
  intros (Hm & [q Hq] & Hpath). unfold Start, lock. rewrite Hm, Hq. cbn [deref mbind res_bind].
  simpl m_record. destruct (m_record c) eqn:Erec.
  2:{ eexists _, _. split; [done|]. split; [|done]. unfold channel_ready. simpl. rewrite Erec. by eauto. }
  simpl m_recordPath. unfold record_file_name.
  destruct (last (m_recordPath c)) as [d|] eqn:El.
  2:{ by apply last_None in El; destruct (Hpath eq_refl). }
  assert (∀ path, path ≠ [] → ∃ c' fs', (let '(c0, files0) := RecordStart (set_path (set_queue
    (set_users c (Some ch) (Some re) true) (Some [])) path) fs opened in Ok (true, c0, files0)) =
    Ok (true, c', fs') ∧ channel_ready c' ∧ m_id c' = m_id c) as Hgo.
  { intros path Hp. unfold RecordStart. simpl m_record. rewrite Erec.
    destruct opened; (eexists _, _; split; [done|]; split; [|done]; unfold channel_ready; simpl;
      rewrite Hm; by eauto). }
  case_decide; cbn [mbind res_bind]; apply Hgo; intros E;
    [apply app_eq_nil in E as [E _]|]; by rewrite E in El.
Qed.

Lemma new_resource_spec (pool : list addr) :
  (pool = [] ∧ NewResource pool = (None, pool)) ∨
  ∃ pool' re, pool = pool' ++ [re] ∧ NewResource pool = (Some re, pool').
Proof.
  unfold NewResource. destruct pool as [|re pool' _] using rev_ind; [by left|right].
  exists pool', re. rewrite last_snoc, length_app. simpl. split; [done|].
  by rewrite Nat.add_sub, take_app_length.
Qed.

(** What a start leaves: busy channels stay busy, the other sessions are not
    touched, and the session holds nothing or a channel that was not busy. *)
Definition started e (p : addr) e' : Prop :=
  session_inv e' ∧ (∀ l, busy e l → busy e' l) ∧ (∀ q, q ≠ p → sessions e' !! q = sessions e !! q) ∧
  (sessions e' !! p = Some (None, None) ∨
   ∃ l re, sessions e' !! p = Some (Some l, Some re) ∧ ¬ busy e l).

Lemma start_failed_spec e0 p e1 l re :
  inv_except (Some p) e1 → busy e1 l → ¬ busy e0 l → free_channel (Some p) e1 l →
  (∀ r, re = Some r → free_resource (Some p) e1 r) →
  sessions e1 = sessions e0 → (∀ l', busy e0 l' → busy e1 l') →
  ∃ e', start_failed e1 p (Some l) re = Ok (false, e') ∧ started e0 p e'.
Proof.
  intros He Hb Hnb Hfree Hre Hs Hk. unfold start_failed.
  destruct (release_spec p e1 l re He Hb Hfree Hre) as (e2 & -> & He2 & Es & Hkeep).
  cbn [mbind res_bind]. eexists. split; [done|]. split_and!.
  - by apply inv_close.
  - intros l' Hl'. apply Hkeep; [by intros ->|by apply Hk].
  - intros q Hq. simpl. rewrite lookup_insert_ne by done. congruence.
  - left. simpl. by rewrite lookup_insert_eq.
Qed.

Lemma allocated_spec p e f k l :
  session_inv e → m_ChidlePool (factory e) !! k = Some l →
  f = mk_factory (delete k (m_ChidlePool (factory e))) (<[k:=l]> (m_ChbusyPool (factory e))) →
  factory_inv (chans e) f →
  let e1 := set_factory e f (re_pool e) in
  inv_except (Some p) e1 ∧ busy e1 l ∧ ¬ busy e l ∧ free_channel (Some p) e1 l ∧
  ∀ l', busy e l' → busy e1 l'.
Proof.
  intros He Hk -> Hf e1. destruct (inv_weaken p e He) as [[Hd Hent Ha] Hr Hp Hkn Hs Hc Hre].
  destruct (Hent k l (or_introl Hk)) as (c & Hl & Hid).
  assert (¬ busy e l) as Hnb.
  { intros (c' & Hc' & Hb). simplify_eq. by rewrite (map_disjoint_Some_l _ _ _ _ Hd Hk) in Hb. }
  assert (∀ l', busy e l' → busy e1 l') as Hkeep.
  { intros l' (c' & Hc' & Hb). exists c'. split; [done|]. simpl. rewrite lookup_insert_ne; [done|].
    intros E. rewrite <- E in Hb. by rewrite (map_disjoint_Some_l _ _ _ _ Hd Hk) in Hb. }
  split_and!; try done.
  - split; try done. intros q s Hne Hq. destruct (Hs q s Hne Hq) as [?|(l' & re & -> & Hb & ? & ?)]; [by left|right].
    exists l', re. auto.
  - exists c. split; [done|]. simpl. by rewrite Hid, lookup_insert_eq.
  - intros q r Hne Hq. destruct (Hs q _ Hne Hq) as [?|(l' & re & [= <- ->] & Hb & _)]; [done|]. done.
Qed.

Lemma taken_resource_spec p e pool re :
  inv_except (Some p) e → re_pool e = pool ++ [re] →
  let e1 := set_factory e (factory e) pool in
  inv_except (Some p) e1 ∧ free_resource (Some p) e1 re.
Proof.
  intros [Hf Hr Hp Hkn Hs Hc Hre] E e1. rewrite E in Hp, Hkn. apply NoDup_app in Hp as (Hp & Hnin & _).
  assert (re ∉ pool) as Hrp by (intros Hin; by apply (Hnin re Hin), list_elem_of_singleton).
  split.
  - split; try done; [intros r Hr'; apply Hkn, elem_of_app; by left|].
    intros q s Hne Hq. destruct (Hs q s Hne Hq) as [?|(l & re' & -> & Hb & Hin & ?)]; [by left|right].
    exists l, re'. split_and!; try done. intros Hin'. apply Hin. rewrite E. apply elem_of_app. by left.
  - split; [done|]. split; [apply Hkn, elem_of_app; right; by apply list_elem_of_singleton|].
    intros q d Hne Hq. destruct (Hs q _ Hne Hq) as [?|(l & re' & [= -> <-] & _ & Hin & _)]; [done|].
    apply Hin. rewrite E. apply elem_of_app. right. by apply list_elem_of_singleton.
Qed.

Lemma engine_start_spec p e se :
  session_inv e → se_descriptor se = true →
  ∃ b e', EngineReocgStart e p se = Ok (b, e') ∧ started e p e'.
Proof.
  intros He Hd. unfold EngineReocgStart.
  destruct (new_channel_spec _ _ (ie_factory _ _ He)) as [[_ ->]|(k & l & Hk & _ & -> & Hf)];
    cbn [mbind res_bind].
  { eexists false, _. split; [done|]. split_and!.
    - by apply inv_close; [destruct (inv_weaken p e He); split|].
    - done.
    - intros q Hq. simpl. by rewrite lookup_insert_ne.
    - left. simpl. by rewrite lookup_insert_eq. }
  destruct (allocated_spec p e _ k l He Hk eq_refl Hf) as (He1 & Hb1 & Hnb & Hfree & Hkeep).
  set (e1 := set_factory e _ _) in *.
  destruct (new_resource_spec (re_pool e1)) as [[_ ->]|(pool & re & Ep & ->)].
  { destruct (start_failed_spec e p e1 l None) as (e' & E & ?); try done. exists false, e'. by split. }
  destruct (taken_resource_spec p e1 pool re He1 Ep) as [He2 Hfr].
  set (e2 := set_factory e1 _ _) in *. destruct Hb1 as (c & Hc & Hb).
  change (chans e2) with (chans e1). rewrite Hc. cbn [deref mbind res_bind]. rewrite Hd.
  destruct (start_ready c (open_files e2) p re (se_name se) (se_opened se) (ie_ready _ _ He2 l c Hc))
    as (c' & fs & -> & Hready & Hid). cbn [mbind res_bind].
  assert (∀ ws, inv_except (Some p) (set_channel e2 l c' fs ws) ∧
    (∀ l', busy (set_channel e2 l c' fs ws) l' ↔ busy e1 l')) as Hset.
  { intros ws. split; [by apply (inv_set_channel _ _ _ c)|].
    intros l'. exact (busy_set_channel e2 l c c' fs ws l' Hc Hid). }
  destruct (Hset (threads e2)) as [He3 Hbusy]. destruct (se_pushed se); simpl andb; cbn iota.
  - eexists true, _. split; [done|].
    set (e4 := set_channel _ l c' fs (_ ++ _)).
    assert (inv_except (Some p) e4) as He4.
    { apply (inv_set_channel _ _ _ c'); try done. simpl. by rewrite lookup_insert_eq. }
    assert (∀ l', busy e4 l' ↔ busy e1 l') as Hb4.
    { intros l'. rewrite <- Hbusy. apply (busy_set_channel _ _ c'); [simpl; by rewrite lookup_insert_eq|done]. }
    split_and!.
    + apply inv_close; [done|]. split_and!; [|done|done]. apply Hb4. by exists c.
    + intros l' Hl'. apply Hb4, Hkeep, Hl'.
    + intros q Hq. simpl. by rewrite lookup_insert_ne.
    + right. exists l, re. simpl. by rewrite lookup_insert_eq.
  - destruct (start_failed_spec e p (set_channel e2 l c' fs (threads e2)) l (Some re)) as (e' & E & ?); try done.
    + apply Hbusy. by exists c.
    + by intros r [= <-].
    + intros l' Hl'. apply Hbusy, Hkeep, Hl'.
    + exists false, e'. by split.
Qed.

Lemma engine_stop_spec p e s :
  session_inv e → sessions e !! p = Some s →
  ∃ b e', EngineReocgStop e p = Ok (b, e') ∧ session_inv e' ∧
    (∀ l, busy e l → s.1 ≠ Some l → busy e' l) ∧
    (∀ q, q ≠ p → sessions e' !! q = sessions e !! q) ∧ sessions e' !! p = Some (None, None).
Proof.
  intros He Hp. pose proof (inv_weaken p e He) as Hw. unfold EngineReocgStop. rewrite Hp.
  cbn [deref mbind res_bind].
  destruct (ie_shape _ _ He p s) as [->|(l & re & -> & Hb & Hre & Hk0)]; [done..| |].
  { exists true, e. by split_and!. }
  destruct (release_spec p e l (Some re) Hw Hb) as (e1 & -> & He1 & Es & Hk).
  - intros q r Hne Hq. apply Hne. f_equal. by apply (ie_channel _ _ He q p l r (Some re)).
  - intros r [= <-]. split; [done|]. split; [done|]. intros q d Hne Hq. apply Hne. f_equal.
    by apply (ie_resource _ _ He q p re d (Some l)).
  - cbn [mbind res_bind]. eexists true, _. split; [done|]. split_and!.
    + by apply inv_close.
    + intros l' Hl' Hne. apply Hk; [|done]. intros ->. by apply Hne.
    + intros q Hq. simpl. rewrite lookup_insert_ne by done. by rewrite Es.
    + simpl. by rewrite lookup_insert_eq.
Qed.

(** *** Runs *)

Inductive session_op :=
  | Create (p : addr) (garbage : option addr * option addr)
  | Recognize (p : addr) (se : start_env)
  | Close (p : addr).

Definition session_step e (op : session_op) : res (engine F) :=
  match op with
  | Create p garbage => Ok (engine_channel_create e p garbage)
  | Recognize p se => '(_, e) ← EngineReocgStart e p se; Ok e
  | Close p => '(_, e) ← EngineReocgStop e p; Ok e
  end.

Fixpoint session_run e (ops : list session_op) : res (engine F) :=
  match ops with
  | [] => Ok e
  | op :: ops => e ← session_step e op; session_run e ops
  end.

(** Sessions are created once, before they are used, with pointers that happen
    to be NULL; their sink stream has a codec. *)
Definition proper e (op : session_op) : Prop :=
  match op with
  | Create p garbage => sessions e !! p = None ∧ garbage = (None, None)
  | Recognize p se => is_Some (sessions e !! p) ∧ se_descriptor se = true
  | Close p => is_Some (sessions e !! p)
  end.

Fixpoint proper_run e (ops : list session_op) : Prop :=
  match ops with
  | [] => True
  | op :: ops => proper e op ∧ ∀ e', session_step e op = Ok e' → proper_run e' ops
  end.

(** A channel that is busy and that no session holds. *)
Definition lost e (l : addr) : Prop := busy e l ∧ free_channel None e l.

Lemma step_spec e op :
  session_inv e → proper e op →
  ∃ e', session_step e op = Ok e' ∧ session_inv e' ∧ ∀ l, lost e l → lost e' l.
Proof.
  intros He Hop. destruct op as [p g|p se|p]; simpl in *.
  - destruct Hop as [Hnew ->]. eexists. split; [done|]. split; [by apply inv_close; [apply inv_weaken|]|].
    intros l [Hb Hfree]. split; [done|].
    intros q r _ Hq. simpl in Hq. apply lookup_insert_Some in Hq as [[_ [=]]|[_ Hq]].
    by apply (Hfree q r).
  - destruct Hop as [_ Hd]. destruct (engine_start_spec p e se He Hd) as (b & e' & -> & He' & Hk & Ho & Hp).
    eexists. split; [done|]. split; [done|]. intros l [Hb Hfree]. split; [by apply Hk|].
    intros q r _ Hq. destruct (decide (q = p)) as [->|Hne]; [|rewrite Ho in Hq by done; by apply (Hfree q r)].
    destruct Hp as [Hp|(l' & re & Hp & Hnb)]; rewrite Hp in Hq; [done|]. by injection Hq as -> _.
  - destruct Hop as [s Hp]. destruct (engine_stop_spec p e s He Hp) as (b & e' & -> & He' & Hk & Ho & Hn).
    eexists. split; [done|]. split; [done|]. intros l [Hb Hfree]. split.
    + apply Hk; [done|]. destruct s as [[l'|] re]; [|done]. simpl. intros [= ->]. by apply (Hfree p re).
    + intros q r _ Hq. destruct (decide (q = p)) as [->|Hne]; [by rewrite Hn in Hq|].
      rewrite Ho in Hq by done. by apply (Hfree q r).
Qed.

Lemma session_run_spec e ops :
  session_inv e → proper_run e ops →
  ∃ e', session_run e ops = Ok e' ∧ session_inv e' ∧ ∀ l, lost e l → lost e' l.
Proof.
  revert e. induction ops as [|op ops IH]; intros e He Hops; [by exists e|].
  destruct Hops as [Hop Hops]. destruct (step_spec e op He Hop) as (e1 & E1 & He1 & Hl1).
  destruct (IH e1 He1 (Hops e1 E1)) as (e2 & E2 & He2 & Hl2).
  exists e2. simpl. rewrite E1. split; [exact E2|]. auto.
Qed.

(** *** The initial engine *)

Lemma factory_init_inv cs f path record id results :
  path ≠ [] → factory_inv cs f → m_ChbusyPool f = ∅ →
  (∀ l c, cs !! l = Some c → channel_ready c) → (∀ k, is_Some (m_ChidlePool f !! k) → k < id) →
  ∃ cs' f', factory_init_loop (F:=F) cs f path record id results = Ok (cs', f') ∧
    factory_inv cs' f' ∧ m_ChbusyPool f' = ∅ ∧ ∀ l c, cs' !! l = Some c → channel_ready c.
Proof.
  intros Hpath. revert cs f id. induction results as [|[mutex queue] results IH];
    intros cs f id Hf Hb Hr Hid; [by exists cs, f|]. cbn [factory_init_loop].
  destruct (Init CAliChannel_new id path record mutex queue) as [ok c] eqn:E. destruct ok.
  2:{ apply IH; try done. intros k Hk. specialize (Hid k Hk). lia. }
  assert (channel_ready c ∧ m_id c = id) as [Hc Hcid].
  { unfold Init in E. destruct mutex, queue; try done. injection E as <-. unfold channel_ready. simpl. by eauto. }
  set (l := fresh (dom cs)). assert (cs !! l = None) as Hl by (apply not_elem_of_dom, is_fresh).
  assert (m_ChidlePool f !! id = None) as Hnew.
  { destruct (m_ChidlePool f !! id) eqn:Ei; [|done]. specialize (Hid id ltac:(eauto)). lia. }
  unfold AddChannel, GetChannelId. rewrite lookup_insert_eq. cbn [deref mbind res_bind]. rewrite Hcid, Hnew.
  cbn [mbind res_bind]. apply IH; simpl; try done.
  - destruct Hf as [Hd He Ha]. split; simpl.
    + rewrite Hb. apply map_disjoint_empty_r.
    + rewrite Hb. intros k l' [[[<- <-]|[Hne H]]%lookup_insert_Some|H%lookup_empty_Some]; [|..|done].
      * exists c. by rewrite lookup_insert_eq.
      * destruct (He k l' (or_introl H)) as (c' & Hc' & ?). exists c'. rewrite lookup_insert_ne; [done|congruence].
    + intros l' c' [[<- <-]|[Hne H]]%lookup_insert_Some; [left; by rewrite Hcid, lookup_insert_eq|].
      destruct (Ha l' c' H) as [H'|H']; [left|by right]. rewrite lookup_insert_ne; [done|congruence].
  - intros l' c' [[_ <-]|[_ H]]%lookup_insert_Some; [done|by apply (Hr l')].
  - intros k [x [[<- _]|[_ H]]%lookup_insert_Some]; [lia|]. specialize (Hid k ltac:(eauto)). lia.
Qed.

Lemma resource_init_pool rs pool cfg kind garbage results :
  NoDup pool → (∀ re, re ∈ pool → re ∈ dom rs) →
  NoDup (resource_init_loop rs pool cfg kind garbage results).2 ∧
  ∀ re, re ∈ (resource_init_loop rs pool cfg kind garbage results).2 →
    re ∈ dom (resource_init_loop rs pool cfg kind garbage results).1.
Proof.
  revert rs pool. induction results as [|mutex results IH]; intros rs pool Hnd Hdom; [done|].
  cbn [resource_init_loop]. destruct (DoRecogRequestInit _ cfg mutex) as [ok r]. apply IH.
  - apply NoDup_app. split; [done|]. split; [|apply NoDup_singleton].
    intros re Hin ->%list_elem_of_singleton. by apply (is_fresh (dom rs)), Hdom.
  - intros re. rewrite elem_of_app, list_elem_of_singleton, dom_insert. intros [?| ->]; set_solver.
Qed.

Lemma engine_init_inv path record results cfg kind garbage results' :
  path ≠ [] →
  ∃ e, EngineInit (F:=F) path record results cfg kind garbage results' = Ok e ∧ session_inv e.
Proof.
  intros Hpath. unfold EngineInit, CAliChannelFactory_Init.
  destruct (factory_init_inv ∅ (mk_factory ∅ ∅) path record 0 results) as (cs & f & -> & Hf & _ & Hr); try done.
  - split; simpl; [apply map_disjoint_empty_l|..]; [intros k l [[]%lookup_empty_Some|[]%lookup_empty_Some]|done].
  - simpl. by intros k [x ?%lookup_empty_Some].
  - cbn [mbind res_bind].
    pose proof (resource_init_pool ∅ [] cfg kind garbage results' (NoDup_nil_2) ltac:(set_solver)) as Hp.
    destruct (resource_init_loop ∅ [] cfg kind garbage results') as [rs pool]. destruct Hp as [Hp Hkn].
    eexists. split; [done|]. split; try done; simpl; [|intros *; rewrite ?lookup_empty; done..].
    intros re Hre. by apply elem_of_dom, Hkn.
Qed.

(** C18: sessions never share a channel or a resource.  From the initialisation
    of the engine on, however engine channels are created with their two pointers
    cleared, start recognitions on a sink that has a codec, again and again, with
    or without success, and are closed, no operation faults, the channel of a
    session is busy, no other session has it or the resource, and the pool of
    resources holds every resource at most once and none that a session has.
    The creation in the code does not clear the pointers; what follows from
    that is [close_before_recognize_faults]. *)
Theorem sessions_exclusive path record results cfg kind garbage results' (ops : list session_op) (e0 : engine F)
  (Hpath : path ≠ []) (Hinit : EngineInit path record results cfg kind garbage results' = Ok e0)
  (Hops : proper_run e0 ops) :
  ∃ e, session_run e0 ops = Ok e ∧
    (∀ p l r, sessions e !! p = Some (Some l, r) → busy e l) ∧
    (∀ p q l r r', sessions e !! p = Some (Some l, r) → sessions e !! q = Some (Some l, r') → p = q) ∧
    (∀ p q re d d', sessions e !! p = Some (d, Some re) → sessions e !! q = Some (d', Some re) → p = q) ∧
    NoDup (re_pool e) ∧ (∀ p d re, sessions e !! p = Some (d, Some re) → re ∉ re_pool e).
Proof.
  destruct (engine_init_inv path record results cfg kind garbage results' Hpath) as (e & E & He).
  rewrite Hinit in E. injection E as <-.
  destruct (session_run_spec e0 ops He Hops) as (e & E & [_ _ Hp _ Hs Hc Hr] & _). exists e. split_and!; try done.
  - intros p l r Hl. by destruct (Hs p _ ltac:(done) Hl) as [?|(l' & re & [= <- _] & Hb & _)].
  - intros p q l r r'. by apply Hc.
  - intros p q re d d'. by apply Hr.
  - intros p d re Hl. by destruct (Hs p _ ltac:(done) Hl) as [?|(l' & re' & [= _ <-] & _ & Hn & _)].
Qed.

(** A second RECOGNIZE on a session loses a channel for good.  Starting a
    recognition overwrites the pointer to the channel the session has, whether
    the start succeeds or not; that channel is then busy, no session has it,
    and nothing the sessions do later gives it back. *)
Theorem second_recognize_loses_channel e (p l re : addr) (se : start_env) (ops : list session_op)
  (He : session_inv e) (Hp : sessions e !! p = Some (Some l, Some re))
  (Hops : proper_run e (Recognize p se :: ops)) :
  ∃ e', session_run e (Recognize p se :: ops) = Ok e' ∧ busy e' l ∧
    ∀ q r, sessions e' !! q ≠ Some (Some l, r).
Proof.
  destruct Hops as [[_ Hd] Hops]. assert (busy e l) as Hb.
  { by destruct (ie_shape _ _ He p _ ltac:(done) Hp) as [?|(l' & re' & [= <- _] & ? & _)]. }
  destruct (engine_start_spec p e se He Hd) as (b & e1 & E1 & He1 & Hk & Ho & Hp1).
  assert (session_step e (Recognize p se) = Ok e1) as Estep by (simpl; by rewrite E1).
  assert (lost e1 l) as Hl1.
  { split; [by apply Hk|]. intros q r _ Hq. destruct (decide (q = p)) as [->|Hne].
    - destruct Hp1 as [Hp1|(l' & re' & Hp1 & Hnb)]; rewrite Hp1 in Hq; [done|]. by injection Hq as -> _.
    - rewrite Ho in Hq by done. apply Hne. by apply (ie_channel _ _ He q p l r (Some re)). }
  destruct (session_run_spec e1 ops He1 (Hops e1 Estep)) as (e2 & E2 & _ & Hl2).
  exists e2. cbn [session_run]. rewrite Estep. split; [exact E2|]. destruct (Hl2 l Hl1) as [? Hfree].
  split; [done|]. intros q r. by apply Hfree.
Qed.

(** Closing a session that never recognized follows an uninitialised
    pointer.  When the memory of the engine channel holds anything but NULL or
    the address of a channel, the close of its stream faults. *)
Theorem close_before_recognize_faults e (p l re : addr) (Hl : chans e !! l = None) :
  EngineReocgStop (engine_channel_create e p (Some l, Some re)) p = Fault.
Proof.
  unfold EngineReocgStop. simpl. rewrite lookup_insert_eq. simpl. unfold release, channel_stop. simpl.
  by rewrite Hl.
Qed.

End Sessions.

(** ** Two threads on one channel *)

(** The steps of the sessions and of the threads of the pool. *)
Inductive engine_op :=
  | Session (op : session_op)
  | Thread (i : nat) (x : env).

Fixpoint engine_run {F} (e : engine F) (ops : list engine_op) : res (engine F) :=
  match ops with
  | [] => Ok e
  | Session op :: ops => e ← session_step e op; engine_run e ops
  | Thread i x :: ops => e ← engine_work e i x; engine_run e ops
  end.

Definition fresh_channel : CAliChannel nat := (Init CAliChannel_new 0 (lit "/var") false true true).2.
(** An engine with one channel, one resource and the sessions 1 and 2. *)
Definition one_channel : engine nat :=
  mk_engine {[5 := fresh_channel]} (mk_factory {[0 := 5]} ∅) {[7 := idle_resource [] 0]} [7] ∅ []
    {[1 := (None, None); 2 := (None, None)]}.
Definition se_ok : start_env := mk_start_env true (lit "f") None true.
Definition granted : env := mk_env (mk_answers true 100 (Some (lit "token", 5000%Z)) 0) 0.

(** Session 1 recognizes until its thread waits for audio, and closes; session
    2 starts before the thread has ended. *)
Definition overlap : list engine_op :=
  [Session (Recognize 1 se_ok); Thread 0 granted; Thread 0 granted; Thread 0 granted; Thread 0 granted;
   Session (Close 1); Session (Recognize 2 se_ok); Thread 0 granted; Thread 0 granted].

(** Giving a channel back before its thread has ended makes the next
    session crash.  [EngineReocgStop] returns the channel to the pool while
    [RecogMain] still runs on it.  The next session gets the same channel; the
    old thread ends by resetting the pointer to the resource, and the new
    thread dereferences it. *)
Theorem early_return_faults :
  is_ok (engine_run one_channel overlap) = true ∧
  engine_run one_channel (overlap ++ [Thread 0 granted]) = Fault.
Proof. split; vm_compute; reflexivity. Qed.

(** ** Witnesses *)

Lemma one_channel_factory : factory_inv (chans one_channel) (mk_factory {[0 := 5]} ∅).
Proof.
  split; simpl.
  - apply map_disjoint_empty_r.
  - intros k l [[<- <-]%lookup_singleton_Some|[]%lookup_empty_Some]. by exists fresh_channel.
  - intros l c [<- <-]%lookup_singleton_Some. by left.
Qed.

Lemma pool_exclusive_witness :
  ∃ f held, pool_run (chans one_channel) (mk_factory {[0 := 5]} ∅) [] [OpNew; OpNew; OpDelete 0; OpNew] =
      Ok (f, held) ∧ NoDup held.
Proof.
  destruct (pool_exclusive (chans one_channel) {[0 := 5]} [OpNew; OpNew; OpDelete 0; OpNew]
    one_channel_factory) as (f & held & E & Hnd & _).
  exists f, held. split; [exact E|exact Hnd].
Defined.

Definition small_init : res (engine nat) :=
  EngineInit (lit "/var") false [(true, true)] blank_config RECOGNIZER (idle_resource [] 0) [true].
Definition small_engine : engine nat := match small_init with Ok e => e | Fault => one_channel end.

Lemma sessions_exclusive_witness :
  ∃ e, session_run small_engine [Create 1 (None, None); Recognize 1 se_ok] = Ok e ∧
    (∀ p q l r r', sessions e !! p = Some (Some l, r) → sessions e !! q = Some (Some l, r') → p = q) ∧
    NoDup (re_pool e) ∧ (∀ p d re, sessions e !! p = Some (d, Some re) → re ∉ re_pool e).
Proof.
  destruct (sessions_exclusive (lit "/var") false [(true, true)] blank_config RECOGNIZER
    (idle_resource [] 0) [true] [Create 1 (None, None); Recognize 1 se_ok] small_engine)
    as (e & E & _ & H & _ & Hn & Hp).
  - discriminate.
  - vm_compute. reflexivity.
  - split; [split; [vm_compute; reflexivity|reflexivity]|]. intros e1 [= <-].
    split; [|intros e2 _; exact I]. split; [|reflexivity].
    exists (None, None). simpl. apply lookup_insert_eq.
  - exists e. split; [exact E|]. split; [exact H|]. split; [exact Hn|exact Hp].
Defined.

(** Session 1 has channel 5; channel 6 is idle. *)
Definition in_recognition : engine nat :=
  mk_engine {[5 := fresh_channel; 6 := (Init CAliChannel_new 1 (lit "/var") false true true).2]}
    (mk_factory {[1 := 6]} {[0 := 5]}) {[7 := idle_resource [] 0; 8 := idle_resource [] 0]} [8] ∅
    [(5, pc_wait)] {[1 := (Some 5, Some 7)]}.

Lemma in_recognition_inv : session_inv in_recognition.
Proof.
  split; simpl.
  - split; simpl.
    + by apply map_disjoint_singleton_l_2.
    + intros k l [[<- <-]%lookup_singleton_Some|[<- <-]%lookup_singleton_Some]; eexists; by split.
    + intros l c [[<- <-]|[_ [<- <-]%lookup_singleton_Some]]%lookup_insert_Some; [by right|by left].
  - intros l c [[<- <-]|[_ [<- <-]%lookup_singleton_Some]]%lookup_insert_Some; by split_and!; eauto.
  - apply NoDup_singleton.
  - intros re ->%list_elem_of_singleton. by eexists.
  - intros p s _ [<- <-]%lookup_singleton_Some. right. exists 5, 7. split; [done|].
    split_and!; [by exists fresh_channel|set_solver|by eexists].
  - by intros p q l r r' _ _ [<- _]%lookup_singleton_Some [<- _]%lookup_singleton_Some.
  - by intros p q l r r' _ _ [<- _]%lookup_singleton_Some [<- _]%lookup_singleton_Some.
Qed.

Lemma second_recognize_loses_channel_witness :
  ∃ e, session_run in_recognition [Recognize 1 se_ok; Close 1] = Ok e ∧ busy e 5.
Proof.
  destruct (second_recognize_loses_channel in_recognition 1 5 7 se_ok [Close 1]) as (e & E & Hb & _).
  - exact in_recognition_inv.
  - reflexivity.
  - split; [split; [eexists; reflexivity|reflexivity]|]. intros e1 E1.
    split; [|intros e2 _; exact I].
    assert (match session_step in_recognition (Recognize 1 se_ok) with
      | Ok e => sessions e !! 1 | Fault => None end = Some (Some 6, Some 8)) as H
      by (vm_compute; reflexivity).
    rewrite E1 in H. eexists. exact H.
  - exists e. split; [exact E|exact Hb].
Defined.

Lemma close_before_recognize_faults_witness :
  EngineReocgStop (engine_channel_create one_channel 3 (Some 99, Some 98)) 3 = Fault.
Proof. apply (close_before_recognize_faults one_channel 3 99 98). vm_compute. reflexivity. Defined.
