(* ===== verification/Detector.v ===== *)
(** * Detector: the voice activity detector of the media framework
    ([mpf_activity_detector.c], the frames of [mpf_frame.h]). *)
From S2P Require Import Prelude.

(** ** Frames *)

Inductive mpf_frame_marker_e :=
  | MPF_MARKER_NONE
  | MPF_MARKER_START_OF_EVENT
  | MPF_MARKER_END_OF_EVENT
  | MPF_MARKER_NEW_SEGMENT.

Notation MEDIA_FRAME_TYPE_NONE := 0%Z (only parsing).
Notation MEDIA_FRAME_TYPE_AUDIO := 1%Z (only parsing).
Notation MEDIA_FRAME_TYPE_EVENT := 4%Z (only parsing).

(** [codec_frame] is the list of the 16-bit samples of the audio. *)
Record mpf_frame_t := mk_frame {
  frame_type : Z;
  marker : mpf_frame_marker_e;
  codec_frame : list Z
}.

(** ** The detector *)

Inductive mpf_detector_event_e :=
  | MPF_DETECTOR_EVENT_NONE
  | MPF_DETECTOR_EVENT_ACTIVITY
  | MPF_DETECTOR_EVENT_INACTIVITY
  | MPF_DETECTOR_EVENT_NOINPUT.

#[export] Instance mpf_detector_event_eq_dec : EqDecision mpf_detector_event_e.
Proof. solve_decision. Defined.

Inductive mpf_detector_state_e :=
  | DETECTOR_STATE_INACTIVITY
  | DETECTOR_STATE_ACTIVITY_TRANSITION
  | DETECTOR_STATE_ACTIVITY
  | DETECTOR_STATE_INACTIVITY_TRANSITION.

Notation CODEC_FRAME_TIME_BASE := 10%Z (only parsing).

Record mpf_activity_detector_t := mk_detector {
  level_threshold : Z;
  speech_timeout : Z;
  silence_timeout : Z;
  noinput_timeout : Z;
  det_state : mpf_detector_state_e;
  duration : Z
}.

Definition mpf_activity_detector_create : mpf_activity_detector_t :=
  mk_detector 2 300 300 5000 DETECTOR_STATE_INACTIVITY 0.

Definition mpf_activity_detector_state_change (d : mpf_activity_detector_t) (s : mpf_detector_state_e)
    : mpf_activity_detector_t :=
  mk_detector (level_threshold d) (speech_timeout d) (silence_timeout d) (noinput_timeout d) s 0.

Definition mpf_activity_detector_reset (d : mpf_activity_detector_t) : mpf_activity_detector_t :=
  mpf_activity_detector_state_change d DETECTOR_STATE_INACTIVITY.

Definition mpf_activity_detector_level_set (d : mpf_activity_detector_t) (l : Z) :=
  mk_detector l (speech_timeout d) (silence_timeout d) (noinput_timeout d) (det_state d) (duration d).
Definition mpf_activity_detector_noinput_timeout_set (d : mpf_activity_detector_t) (t : Z) :=
  mk_detector (level_threshold d) (speech_timeout d) (silence_timeout d) t (det_state d) (duration d).
Definition mpf_activity_detector_speech_timeout_set (d : mpf_activity_detector_t) (t : Z) :=
  mk_detector (level_threshold d) t (silence_timeout d) (noinput_timeout d) (det_state d) (duration d).
Definition mpf_activity_detector_silence_timeout_set (d : mpf_activity_detector_t) (t : Z) :=
  mk_detector (level_threshold d) (speech_timeout d) t (noinput_timeout d) (det_state d) (duration d).

(** The sum of the magnitudes over the number of samples; an empty frame is a
    division by zero. *)
Definition mpf_activity_detector_level_calculate (f : mpf_frame_t) : res Z :=
  let sum := foldl (λ sum x, usz (sum + Z.abs x)) 0%Z (codec_frame f) in
  let count := Z.of_nat (length (codec_frame f)) in
  if decide (count = 0%Z) then Fault else Ok (sum / count)%Z.

(** [duration += CODEC_FRAME_TIME_BASE]. *)
Definition duration_add (d : mpf_activity_detector_t) : mpf_activity_detector_t :=
  mk_detector (level_threshold d) (speech_timeout d) (silence_timeout d) (noinput_timeout d)
    (det_state d) (usz (duration d + CODEC_FRAME_TIME_BASE)).

Definition frame_level (f : mpf_frame_t) : res Z :=
  if decide (Z.land (frame_type f) MEDIA_FRAME_TYPE_AUDIO = MEDIA_FRAME_TYPE_AUDIO)
  then mpf_activity_detector_level_calculate f else Ok 0%Z.

(** An audio frame without samples, whose level is a division by zero. *)
Definition no_samples (f : mpf_frame_t) : Prop :=
  Z.land (frame_type f) MEDIA_FRAME_TYPE_AUDIO = MEDIA_FRAME_TYPE_AUDIO ∧ codec_frame f = [].

#[export] Instance no_samples_dec (f : mpf_frame_t) : Decision (no_samples f).
Proof. unfold no_samples. apply _. Defined.

Lemma frame_level_spec (f : mpf_frame_t) :
  match frame_level f with Ok _ => ¬ no_samples f | Fault => no_samples f end.
Proof.
  unfold frame_level, no_samples, mpf_activity_detector_level_calculate.
  case_decide as Ht; [|by intros [? _]]. case_decide as Hc.
  - split; [done|]. by destruct (codec_frame f).
  - intros [_ E]. by rewrite E in Hc.
Qed.

Definition mpf_activity_detector_process (d : mpf_activity_detector_t) (f : mpf_frame_t)
    : res (mpf_detector_event_e * mpf_activity_detector_t) :=
  level ← frame_level f;
  let loud := bool_decide (level_threshold d ≤ level)%Z in
  let change := mpf_activity_detector_state_change d in
  let longer := duration_add d in
  Ok match det_state d with
     | DETECTOR_STATE_INACTIVITY =>
         if loud then (MPF_DETECTOR_EVENT_NONE, change DETECTOR_STATE_ACTIVITY_TRANSITION)
         else if decide (noinput_timeout d ≤ duration longer)%Z
              then (MPF_DETECTOR_EVENT_NOINPUT, longer) else (MPF_DETECTOR_EVENT_NONE, longer)
     | DETECTOR_STATE_ACTIVITY_TRANSITION =>
         if loud then
           if decide (speech_timeout d ≤ duration longer)%Z
           then (MPF_DETECTOR_EVENT_ACTIVITY, change DETECTOR_STATE_ACTIVITY)
           else (MPF_DETECTOR_EVENT_NONE, longer)
         else (MPF_DETECTOR_EVENT_NONE, change DETECTOR_STATE_INACTIVITY)
     | DETECTOR_STATE_ACTIVITY =>
         if loud then (MPF_DETECTOR_EVENT_NONE, longer)
         else (MPF_DETECTOR_EVENT_NONE, change DETECTOR_STATE_INACTIVITY_TRANSITION)
     | DETECTOR_STATE_INACTIVITY_TRANSITION =>
         if loud then (MPF_DETECTOR_EVENT_NONE, change DETECTOR_STATE_ACTIVITY)
         else if decide (silence_timeout d ≤ duration longer)%Z
              then (MPF_DETECTOR_EVENT_INACTIVITY, change DETECTOR_STATE_INACTIVITY)
              else (MPF_DETECTOR_EVENT_NONE, longer)
     end.

(** ** What an event says of the audio *)

Definition detect (d : mpf_activity_detector_t) (fs : list mpf_frame_t) : res mpf_activity_detector_t :=
  foldl (λ r f, d ← r; '(_, d) ← mpf_activity_detector_process d f; Ok d) (Ok d) fs.

(** The last [n] frames have property [P]. *)
Definition trailing (P : mpf_frame_t → Prop) (n : nat) (fs : list mpf_frame_t) : Prop :=
  n ≤ length fs ∧ Forall P (drop (length fs - n) fs).

Definition loud (threshold : Z) (f : mpf_frame_t) : Prop :=
  ∃ l, frame_level f = Ok l ∧ (threshold ≤ l)%Z.
Definition quiet (threshold : Z) (f : mpf_frame_t) : Prop :=
  ∃ l, frame_level f = Ok l ∧ (l < threshold)%Z.

Lemma trailing_snoc (P : mpf_frame_t → Prop) (n : nat) (fs : list mpf_frame_t) (f : mpf_frame_t) :
  trailing P n fs → P f → trailing P (S n) (fs ++ [f]).
Proof.
  intros [Hn Hall] Hf. split; rewrite length_app; simpl; [lia|].
  rewrite drop_app_le by lia. apply Forall_app. split; [|by constructor].
  by replace (length fs + 1 - S n) with (length fs - n) by lia.
Qed.

Lemma trailing_0 (P : mpf_frame_t → Prop) (fs : list mpf_frame_t) : trailing P 0 fs.
Proof. split; [lia|]. by rewrite Nat.sub_0_r, drop_all. Qed.

(** The detector has been in its state for as long as [duration] says. *)
Record detected (d0 : mpf_activity_detector_t) (fs : list mpf_frame_t) (d : mpf_activity_detector_t)
    : Prop := {
  dt_threshold : level_threshold d = level_threshold d0;
  dt_speech : speech_timeout d = speech_timeout d0;
  dt_silence : silence_timeout d = silence_timeout d0;
  dt_noinput : noinput_timeout d = noinput_timeout d0;
  dt_since : ∃ n, duration d = (10 * Z.of_nat n)%Z ∧ n ≤ length fs ∧
    match det_state d with
    | DETECTOR_STATE_INACTIVITY => trailing (quiet (level_threshold d0)) n fs
    | DETECTOR_STATE_ACTIVITY_TRANSITION => trailing (loud (level_threshold d0)) (S n) fs
    | DETECTOR_STATE_ACTIVITY => True
    | DETECTOR_STATE_INACTIVITY_TRANSITION => trailing (quiet (level_threshold d0)) (S n) fs
    end
}.

(** An event and the frames up to and including the one that raised it. *)
Definition justified (d0 : mpf_activity_detector_t) (fs : list mpf_frame_t) (ev : mpf_detector_event_e)
    : Prop :=
  let th := level_threshold d0 in
  match ev with
  | MPF_DETECTOR_EVENT_NONE => True
  | MPF_DETECTOR_EVENT_ACTIVITY =>
      ∃ n, (speech_timeout d0 ≤ 10 * Z.of_nat n)%Z ∧ trailing (loud th) (S n) fs
  | MPF_DETECTOR_EVENT_INACTIVITY =>
      ∃ n, (silence_timeout d0 ≤ 10 * Z.of_nat n)%Z ∧ trailing (quiet th) (S n) fs
  | MPF_DETECTOR_EVENT_NOINPUT =>
      ∃ n, (noinput_timeout d0 ≤ 10 * Z.of_nat n)%Z ∧ trailing (quiet th) n fs
  end.

Lemma process_spec d0 fs d f l :
  detected d0 fs d → frame_level f = Ok l → (10 * Z.of_nat (S (length fs)) < 2 ^ 64)%Z →
  ∃ ev d', mpf_activity_detector_process d f = Ok (ev, d') ∧ detected d0 (fs ++ [f]) d' ∧
    justified d0 (fs ++ [f]) ev.
Proof.
  intros [Ht Hsp Hsi Hno (n & Hdur & Hn & Hst)] Hl Hlen. unfold mpf_activity_detector_process.
  rewrite Hl. cbn [mbind res_bind].
  assert (duration (duration_add d) = 10 * Z.of_nat (S n))%Z as Hadd.
  { unfold duration_add. simpl. rewrite Hdur, wrap_u_small; lia. }
  assert (∀ s P, P → (∀ n, n = 0 → match s with
    | DETECTOR_STATE_INACTIVITY => trailing (quiet (level_threshold d0)) n (fs ++ [f])
    | DETECTOR_STATE_ACTIVITY_TRANSITION => trailing (loud (level_threshold d0)) (S n) (fs ++ [f])
    | DETECTOR_STATE_ACTIVITY => True
    | DETECTOR_STATE_INACTIVITY_TRANSITION => trailing (quiet (level_threshold d0)) (S n) (fs ++ [f])
    end) → detected d0 (fs ++ [f]) (mpf_activity_detector_state_change d s) ∧ P) as Hchange.
  { intros s P HP Hs. split; [|done]. split; simpl; try done. exists 0. split; [done|]. split; [lia|by apply Hs]. }
  assert (∀ P : Prop, P → match det_state d with
    | DETECTOR_STATE_INACTIVITY => trailing (quiet (level_threshold d0)) (S n) (fs ++ [f])
    | DETECTOR_STATE_ACTIVITY_TRANSITION => trailing (loud (level_threshold d0)) (S (S n)) (fs ++ [f])
    | DETECTOR_STATE_ACTIVITY => True
    | DETECTOR_STATE_INACTIVITY_TRANSITION => trailing (quiet (level_threshold d0)) (S (S n)) (fs ++ [f])
    end → detected d0 (fs ++ [f]) (duration_add d) ∧ P) as Hlonger.
  { intros P HP Hs. split; [|done]. split; try done. exists (S n). split; [done|].
    rewrite length_app. split; [simpl; lia|done]. }
  rewrite Ht. case_bool_decide as Hloud.
  - assert (loud (level_threshold d0) f) as Hf by (by exists l).
    destruct (det_state d) eqn:Es; try case_decide; eexists _, _; (split; [done|]).
    + apply Hchange; [done|]. intros ? ->. by apply trailing_snoc; [apply trailing_0|].
    + apply Hchange; [|done]. exists (S n). split; [lia|]. by apply trailing_snoc.
    + apply Hlonger; [done|]. by apply trailing_snoc.
    + by apply Hlonger.
    + by apply Hchange.
  - assert (quiet (level_threshold d0) f) as Hf by (exists l; split; [done|lia]).
    destruct (det_state d) eqn:Es; try case_decide; eexists _, _; (split; [done|]).
    + apply Hlonger; [|by apply trailing_snoc]. exists (S n). split; [lia|]. by apply trailing_snoc.
    + apply Hlonger; [done|]. by apply trailing_snoc.
    + apply Hchange; [done|]. intros ? ->. apply trailing_0.
    + apply Hchange; [done|]. intros ? ->. by apply trailing_snoc; [apply trailing_0|].
    + apply Hchange; [|intros ? ->; apply trailing_0]. exists (S n). split; [lia|]. by apply trailing_snoc.
    + apply Hlonger; [done|]. by apply trailing_snoc.
Qed.

Lemma detect_spec d0 fs :
  det_state d0 = DETECTOR_STATE_INACTIVITY → duration d0 = 0%Z →
  Forall (λ f, is_ok (frame_level f) = true) fs → (10 * Z.of_nat (S (length fs)) < 2 ^ 64)%Z →
  ∃ d, detect d0 fs = Ok d ∧ detected d0 fs d.
Proof.
  intros Hs Hd. induction fs as [|f fs IH] using rev_ind; intros Hfs Hlen.
  - exists d0. split; [done|]. split; try done. exists 0. rewrite Hs. split_and!; [done..|apply trailing_0].
  - apply Forall_app in Hfs as [Hfs Hf]. rewrite length_app in Hlen. simpl in Hlen.
    destruct (IH Hfs ltac:(lia)) as (d & E & Hdet). rewrite Forall_singleton in Hf. cbn beta in Hf.
    destruct (frame_level f) as [l|] eqn:El; [|done].
    destruct (process_spec d0 fs d f l Hdet El ltac:(lia)) as (ev & d' & Ep & Hdet' & _).
    exists d'. unfold detect in *. rewrite foldl_app. simpl. rewrite E. cbn [mbind res_bind].
    by rewrite Ep.
Qed.

(** The detector reports only what lasts.  After any audio from the start
    or a reset on, the next frame does not make it fault, and it reports
    activity only when the frames just seen were at or above the threshold for
    longer than the speech timeout, inactivity or no input only when they were
    below it for the silence or the no-input timeout. *)
Theorem detector_justified d0 (fs : list mpf_frame_t) (f : mpf_frame_t)
  (Hs : det_state d0 = DETECTOR_STATE_INACTIVITY) (Hd : duration d0 = 0%Z)
  (Hfs : Forall (λ f, is_ok (frame_level f) = true) (fs ++ [f]))
  (Hlen : (10 * Z.of_nat (S (length fs)) < 2 ^ 64)%Z) :
  ∃ d ev d', detect d0 fs = Ok d ∧ mpf_activity_detector_process d f = Ok (ev, d') ∧
    justified d0 (fs ++ [f]) ev.
Proof.
  apply Forall_app in Hfs as [Hfs Hf]. rewrite Forall_singleton in Hf. cbn beta in Hf.
  destruct (detect_spec d0 fs Hs Hd Hfs Hlen) as (d & E & Hdet).
  destruct (frame_level f) as [l|] eqn:El; [|done].
  destruct (process_spec d0 fs d f l Hdet El Hlen) as (ev & d' & Ep & _ & Hj).
  by exists d, ev, d'.
Qed.

Definition tone : mpf_frame_t := mk_frame MEDIA_FRAME_TYPE_AUDIO MPF_MARKER_NONE [100; -100]%Z.

Lemma detector_justified_witness :
  ∃ d ev d', detect mpf_activity_detector_create (replicate 30 tone) = Ok d ∧
    mpf_activity_detector_process d tone = Ok (ev, d') ∧
    justified mpf_activity_detector_create (replicate 30 tone ++ [tone]) ev.
Proof.
  apply detector_justified.
  - reflexivity.
  - reflexivity.
  - apply (bool_decide_unpack _). vm_compute. reflexivity.
  - vm_compute. reflexivity.
Defined.
