(* ===== verification/JitterBuffer.v ===== *)
(** * JitterBuffer: the jitter buffer of the RTP receiver
    ([mpf_jitter_buffer.c], the dissector of [mpf_codec.h]).

    A frame holds 10 ms of audio; a position in the buffer is a timestamp, a
    number of samples.  Timestamps are 32-bit and wrap; so does the signed
    arithmetic on the statistics.  The size of a frame's audio is always
    [frame_size], so that the audio is the list of its bytes.  A pointer to
    the last update of an event points either to [event_write_base] or into a
    slot of the buffer.  No codec of the library has a dissector of its own. *)
From S2P Require Import Prelude Detector.
From stdpp Require Import numbers.
Local Open Scope Z_scope.

(** ** C's unsigned division *)

Definition udiv (a b : Z) : res Z := if decide (b = 0) then Fault else Ok (a / b).
Definition umod (a b : Z) : res Z := if decide (b = 0) then Fault else Ok (a mod b).

(** ** Data *)

Record mpf_named_event_frame_t := mk_event {
  event_id : Z;
  volume : Z;
  reserved : Z;
  edge : Z;
  event_duration : Z
}.

Record media_frame_t := mk_media {
  media_type : Z;
  media_marker : mpf_frame_marker_e;
  media_codec_frame : list Z;
  media_event_frame : mpf_named_event_frame_t
}.

Inductive jb_result_t :=
  | JB_OK
  | JB_DISCARD_NOT_ALLIGNED
  | JB_DISCARD_TOO_LATE
  | JB_DISCARD_TOO_EARLY.

Record mpf_jb_config_t := mk_jb_config {
  min_playout_delay : Z;
  initial_playout_delay : Z;
  max_playout_delay : Z;
  adaptive : bool;
  time_skew_detection : bool
}.

(** Where [event_write_update] points to. *)
Inductive event_ptr :=
  | EventBase
  | EventSlot (i : nat).

Record mpf_jitter_buffer_t := mk_jb {
  config : mpf_jb_config_t;
  frames : list media_frame_t;
  frame_count : Z;
  frame_ts : Z;
  frame_size : Z;
  playout_delay_ts : Z;
  max_playout_delay_ts : Z;
  write_sync : bool;
  write_ts_offset : Z;
  write_ts : Z;
  read_ts : Z;
  min_length_ts : Z;
  max_length_ts : Z;
  measurment_count : Z;
  event_write_base_ts : Z;
  event_write_base : mpf_named_event_frame_t;
  event_write_update : option event_ptr
}.

(** *** Assignments to the fields *)

Definition set_frames (jb : mpf_jitter_buffer_t) (fs : list media_frame_t) : mpf_jitter_buffer_t :=
  mk_jb (config jb) fs (frame_count jb) (frame_ts jb) (frame_size jb) (playout_delay_ts jb)
    (max_playout_delay_ts jb) (write_sync jb) (write_ts_offset jb) (write_ts jb) (read_ts jb)
    (min_length_ts jb) (max_length_ts jb) (measurment_count jb) (event_write_base_ts jb)
    (event_write_base jb) (event_write_update jb).

Definition set_playout (jb : mpf_jitter_buffer_t) (d : Z) : mpf_jitter_buffer_t :=
  mk_jb (config jb) (frames jb) (frame_count jb) (frame_ts jb) (frame_size jb) d
    (max_playout_delay_ts jb) (write_sync jb) (write_ts_offset jb) (write_ts jb) (read_ts jb)
    (min_length_ts jb) (max_length_ts jb) (measurment_count jb) (event_write_base_ts jb)
    (event_write_base jb) (event_write_update jb).

Definition set_sync (jb : mpf_jitter_buffer_t) (b : bool) (o : Z) : mpf_jitter_buffer_t :=
  mk_jb (config jb) (frames jb) (frame_count jb) (frame_ts jb) (frame_size jb) (playout_delay_ts jb)
    (max_playout_delay_ts jb) b o (write_ts jb) (read_ts jb)
    (min_length_ts jb) (max_length_ts jb) (measurment_count jb) (event_write_base_ts jb)
    (event_write_base jb) (event_write_update jb).

Definition set_pos (jb : mpf_jitter_buffer_t) (w r : Z) : mpf_jitter_buffer_t :=
  mk_jb (config jb) (frames jb) (frame_count jb) (frame_ts jb) (frame_size jb) (playout_delay_ts jb)
    (max_playout_delay_ts jb) (write_sync jb) (write_ts_offset jb) w r
    (min_length_ts jb) (max_length_ts jb) (measurment_count jb) (event_write_base_ts jb)
    (event_write_base jb) (event_write_update jb).

Definition set_stat (jb : mpf_jitter_buffer_t) (mn mx c : Z) : mpf_jitter_buffer_t :=
  mk_jb (config jb) (frames jb) (frame_count jb) (frame_ts jb) (frame_size jb) (playout_delay_ts jb)
    (max_playout_delay_ts jb) (write_sync jb) (write_ts_offset jb) (write_ts jb) (read_ts jb)
    mn mx c (event_write_base_ts jb) (event_write_base jb) (event_write_update jb).

Definition set_event (jb : mpf_jitter_buffer_t) (ts : Z) (b : mpf_named_event_frame_t)
    (u : option event_ptr) : mpf_jitter_buffer_t :=
  mk_jb (config jb) (frames jb) (frame_count jb) (frame_ts jb) (frame_size jb) (playout_delay_ts jb)
    (max_playout_delay_ts jb) (write_sync jb) (write_ts_offset jb) (write_ts jb) (read_ts jb)
    (min_length_ts jb) (max_length_ts jb) (measurment_count jb) ts b u.

(** ** Creation *)

Definition mpf_codec_frame_size_calculate (channel_count sampling_rate bits_per_sample : Z) : Z :=
  usz (channel_count * bits_per_sample * CODEC_FRAME_TIME_BASE * sampling_rate) / 1000 / 8.

Definition mpf_codec_frame_samples_calculate (channel_count sampling_rate : Z) : Z :=
  usz (channel_count * CODEC_FRAME_TIME_BASE * sampling_rate) / 1000.

Definition mpf_jb_config_init : mpf_jb_config_t := mk_jb_config 0 0 0 false true.

(** The configuration after the tests at the start of the creation. *)
Definition jb_config_validate (c : mpf_jb_config_t) : mpf_jb_config_t :=
  let mn := if decide (initial_playout_delay c < min_playout_delay c)
            then initial_playout_delay c else min_playout_delay c in
  let mx := if decide (max_playout_delay c < initial_playout_delay c)
            then u32 (2 * initial_playout_delay c) else max_playout_delay c in
  let mx := if decide (mx = 0) then 600 else mx in
  mk_jb_config mn (initial_playout_delay c) mx (adaptive c) (time_skew_detection c).

(** The initial delay, rounded up to a whole number of frames. *)
Definition jb_config_round (c : mpf_jb_config_t) : mpf_jb_config_t :=
  let d := initial_playout_delay c in
  let d := if decide (d mod CODEC_FRAME_TIME_BASE ≠ 0)
           then u32 (d + (CODEC_FRAME_TIME_BASE - d mod CODEC_FRAME_TIME_BASE)) else d in
  mk_jb_config (min_playout_delay c) d (max_playout_delay c) (adaptive c) (time_skew_detection c).

(** [uninit] is what the memory of the frames holds when it is allocated. *)
Definition mpf_jitter_buffer_create (jb_config : option mpf_jb_config_t)
    (channel_count sampling_rate bits_per_sample : Z)
    (uninit : nat → list Z * mpf_named_event_frame_t) : mpf_jitter_buffer_t :=
  let c := jb_config_validate (default mpf_jb_config_init jb_config) in
  let fts := u32 (mpf_codec_frame_samples_calculate channel_count sampling_rate) in
  let count := max_playout_delay c / CODEC_FRAME_TIME_BASE in
  let fs := (λ i, mk_media MEDIA_FRAME_TYPE_NONE MPF_MARKER_NONE (uninit i).1 (uninit i).2) <$> seq 0 (Z.to_nat count) in
  let c := jb_config_round c in
  mk_jb c fs count fts
    (mpf_codec_frame_size_calculate channel_count sampling_rate bits_per_sample)
    (u32 (fts * initial_playout_delay c) / CODEC_FRAME_TIME_BASE)
    (u32 (fts * max_playout_delay c) / CODEC_FRAME_TIME_BASE)
    true 0 0 0 0 0 0 0 (mk_event 0 0 0 0 0) None.

Definition mpf_jitter_buffer_restart (jb : mpf_jitter_buffer_t) : mpf_jitter_buffer_t :=
  let jb := set_sync jb true 0 in
  let jb := set_pos jb (read_ts jb) (read_ts jb) in
  let jb := set_event jb 0 (mk_event 0 0 0 0 0) None in
  if adaptive (config jb) && bool_decide (playout_delay_ts jb = max_playout_delay_ts jb)
  then set_playout jb
         (u32 (frame_ts jb * initial_playout_delay (config jb)) / CODEC_FRAME_TIME_BASE)
  else jb.

(** ** Slots *)

(** The index of the slot of a timestamp. *)
Definition mpf_jitter_buffer_frame_get (jb : mpf_jitter_buffer_t) (ts : Z) : res nat :=
  q ← udiv ts (frame_ts jb);
  i ← umod q (frame_count jb);
  mret (Z.to_nat i).

(** Assign to the slot at an index. *)
Definition update_slot (jb : mpf_jitter_buffer_t) (i : nat) (g : media_frame_t → media_frame_t)
    : res mpf_jitter_buffer_t :=
  f ← deref (frames jb !! i);
  mret (set_frames jb (<[i := g f]> (frames jb))).

Definition mpf_jitter_buffer_stat_update (jb : mpf_jitter_buffer_t) : mpf_jitter_buffer_t :=
  let jb :=
    if decide (measurment_count jb = 50) then
      let mean := i32 (min_length_ts jb + Z.quot (i32 (max_length_ts jb - min_length_ts jb)) 2) in
      set_stat jb mean mean 0
    else jb in
  let length_ts := i32 (write_ts jb - read_ts jb) in
  let c := u32 (measurment_count jb + 1) in
  if decide (max_length_ts jb < length_ts) then set_stat jb (min_length_ts jb) length_ts c
  else if decide (length_ts < min_length_ts jb) then set_stat jb length_ts (max_length_ts jb) c
  else set_stat jb (min_length_ts jb) (max_length_ts jb) c.

Definition mpf_jitter_buffer_frame_allign (jb : mpf_jitter_buffer_t) (ts : Z) : res Z :=
  m ← umod ts (frame_ts jb);
  mret (if decide (m ≠ 0) then u32 (ts - m) else ts).

(** ** Writing audio *)

(** The position of a timestamp in the buffer; the result of the code's
    function is [JB_OK] on every path. *)
Definition mpf_jitter_buffer_write_prepare (jb : mpf_jitter_buffer_t) (ts : Z)
    : res (mpf_jitter_buffer_t * Z) :=
  let jb :=
    if write_sync jb then
      let jb := set_sync jb false (i32 (ts - read_ts jb)) in
      if time_skew_detection (config jb)
      then set_stat jb (i32 (playout_delay_ts jb)) (i32 (playout_delay_ts jb)) 0
      else jb
    else jb in
  let w := u32 (ts - write_ts_offset jb + playout_delay_ts jb) in
  m ← umod w (frame_ts jb);
  mret (jb, if decide (m ≠ 0) then u32 (w - m) else w).

(** The correction of a time skew of a packet that is [delta_ts] late: the
    buffer, the packet's position and how late it still is. *)
Definition jb_skew_adjust (jb : mpf_jitter_buffer_t) (ts wts delta_ts : Z)
    : res (mpf_jitter_buffer_t * Z * Z) :=
  let spread := u32 (i32 (max_length_ts jb - min_length_ts jb)) in
  delta_ts ← (if decide (u32 (playout_delay_ts jb + delta_ts) < spread)
              then mpf_jitter_buffer_frame_allign jb (u32 (spread - playout_delay_ts jb))
              else mret delta_ts);
  if decide (0 < max_length_ts jb ∧ u32 (max_length_ts jb) < playout_delay_ts jb) then
    skew_ts ← mpf_jitter_buffer_frame_allign jb (u32 (playout_delay_ts jb - max_length_ts jb));
    let jb := set_sync jb (write_sync jb) (i32 (write_ts_offset jb - skew_ts)) in
    let jb := set_stat jb (i32 (min_length_ts jb + skew_ts)) (i32 (max_length_ts jb + skew_ts))
                (measurment_count jb) in
    mret (jb, u32 (ts - write_ts_offset jb + playout_delay_ts jb),
          if decide (skew_ts < delta_ts) then u32 (delta_ts - skew_ts) else 0)
  else mret (jb, wts, delta_ts).

(** A packet whose position has been read already: its new position, or
    [None] when it is discarded. *)
Definition jb_write_late (jb : mpf_jitter_buffer_t) (ts wts : Z)
    : res (mpf_jitter_buffer_t * option Z) :=
  if decide (wts < write_ts jb) then mret (jb, None)
  else
    let delta_ts := u32 (read_ts jb - wts) in
    '(jb, wts, delta_ts) ← (if time_skew_detection (config jb) then jb_skew_adjust jb ts wts delta_ts
                            else mret (jb, wts, delta_ts));
    if decide (delta_ts = 0) then mret (jb, Some wts)
    else if negb (adaptive (config jb)) then mret (jb, None)
    else if decide (max_playout_delay_ts jb < u32 (playout_delay_ts jb + delta_ts)) then mret (jb, None)
    else
      let jb := set_playout jb (u32 (playout_delay_ts jb + delta_ts)) in
      mret (if time_skew_detection (config jb)
            then set_stat jb (i32 (min_length_ts jb + delta_ts)) (i32 (max_length_ts jb + delta_ts))
                   (measurment_count jb)
            else jb,
            Some (u32 (wts + delta_ts))).

(** The default dissector: the next frame of a buffer and the rest of it. *)
Definition mpf_codec_dissect (buffer : list Z) (size : Z) : option (list Z * list Z) :=
  if decide (size ≤ Z.of_nat (length buffer) ∧ size ≠ 0)
  then Some (take (Z.to_nat size) buffer, drop (Z.to_nat size) buffer)
  else None.

Definition audio_written (data : list Z) (f : media_frame_t) : media_frame_t :=
  mk_media (Z.lor (media_type f) MEDIA_FRAME_TYPE_AUDIO) (media_marker f) data (media_event_frame f).

(** The loop over the frames of a packet; every round takes at least one byte,
    so that the number of bytes is enough [fuel]. *)
Fixpoint jb_write_frames (fuel : nat) (jb : mpf_jitter_buffer_t) (buffer : list Z) (wts available : Z)
    : res (mpf_jitter_buffer_t * Z) :=
  match fuel with
  | O => mret (jb, wts)
  | S fuel =>
    if decide (available = 0 ∨ buffer = []) then mret (jb, wts)
    else
      i ← mpf_jitter_buffer_frame_get jb wts;
      match mpf_codec_dissect buffer (frame_size jb) with
      | None => mret (jb, wts)
      | Some (data, buffer) =>
        jb ← update_slot jb i (audio_written data);
        jb_write_frames fuel jb buffer (u32 (wts + frame_ts jb)) (available - 1)
      end
  end.

Definition jb_advance (jb : mpf_jitter_buffer_t) (wts : Z) : mpf_jitter_buffer_t :=
  if decide (write_ts jb < wts) then set_pos jb wts (read_ts jb) else jb.

Definition mpf_jitter_buffer_write (jb : mpf_jitter_buffer_t) (buffer : list Z) (ts : Z) (marker : bool)
    : res (jb_result_t * mpf_jitter_buffer_t) :=
  let jb := if marker && bool_decide (write_ts jb ≤ read_ts jb)
            then set_sync jb true (write_ts_offset jb) else jb in
  '(jb, wts) ← mpf_jitter_buffer_write_prepare jb ts;
  '(jb, pos) ← (if decide (read_ts jb ≤ wts) then mret (jb, Some wts) else jb_write_late jb ts wts);
  match pos with
  | None => mret (JB_DISCARD_TOO_LATE, jb)
  | Some wts =>
    ahead ← udiv (u32 (wts - read_ts jb)) (frame_ts jb);
    let available := usz (frame_count jb - ahead) in
    if decide (available ≤ 0) then mret (JB_DISCARD_TOO_EARLY, jb)
    else
      '(jb, wts) ← jb_write_frames (length buffer) jb buffer wts available;
      mret (JB_OK, jb_advance jb wts)
  end.

(** ** Writing named events *)

(** [*jb->event_write_update] *)
Definition event_update (jb : mpf_jitter_buffer_t) : res mpf_named_event_frame_t :=
  p ← deref (event_write_update jb);
  match p with
  | EventBase => mret (event_write_base jb)
  | EventSlot i => f ← deref (frames jb !! i); mret (media_event_frame f)
  end.

(** The detection of a new event: whether [marker] is set after it, and the
    buffer, in which a new segment of a long event is a new base. *)
Definition jb_new_event (jb : mpf_jitter_buffer_t) (e : mpf_named_event_frame_t) (wts : Z) (marker : bool)
    : res (mpf_jitter_buffer_t * bool) :=
  let based := set_event jb wts e (Some EventBase) in
  if marker then mret (based, true)
  else if decide (event_id (event_write_base jb) ≠ event_id e) then mret (based, true)
  else
    match event_write_update jb with
    | None => mret (based, true)
    | Some _ =>
      if decide (event_write_base_ts jb = wts) then mret (jb, false)
      else
        u ← event_update jb;
        mret (based, bool_decide
          (u32 (u32 (event_write_base_ts jb + event_duration u) + u32 (4 * frame_ts jb)) < wts))
    end.

(** An update that says nothing new. *)
Definition jb_stale_update (u e : mpf_named_event_frame_t) : bool :=
  bool_decide (event_duration e < event_duration u) ||
  (bool_decide (event_duration e = event_duration u) &&
   (bool_decide (edge u = 1) || bool_decide (edge u = edge e))).

Definition event_written (e : mpf_named_event_frame_t) (marker : bool) (f : media_frame_t) : media_frame_t :=
  mk_media (Z.lor (media_type f) MEDIA_FRAME_TYPE_EVENT)
    (if marker then MPF_MARKER_START_OF_EVENT
     else if decide (edge e = 1) then MPF_MARKER_END_OF_EVENT else media_marker f)
    (media_codec_frame f) e.

(** The second half of the write of an event: at its position. *)
Definition jb_event_place (jb : mpf_jitter_buffer_t) (e : mpf_named_event_frame_t) (wts : Z) (marker : bool)
    : res (jb_result_t * mpf_jitter_buffer_t) :=
  i ← mpf_jitter_buffer_frame_get jb wts;
  jb ← update_slot jb i (event_written e marker);
  let jb := set_event jb (event_write_base_ts jb) (event_write_base jb) (Some (EventSlot i)) in
  mret (JB_OK, jb_advance jb (u32 (wts + frame_ts jb))).

Definition mpf_jitter_buffer_event_write (jb : mpf_jitter_buffer_t) (e : mpf_named_event_frame_t)
    (ts : Z) (marker : bool) : res (jb_result_t * mpf_jitter_buffer_t) :=
  '(jb, wts) ← mpf_jitter_buffer_write_prepare jb ts;
  '(jb, marker) ← jb_new_event jb e wts marker;
  u ← event_update jb;
  if negb marker && jb_stale_update u e then mret (JB_OK, jb)
  else
    let wts := if marker then wts else u32 (wts + event_duration u) in
    if decide (wts < read_ts jb) then
      let delta_ts := u32 (read_ts jb - wts) in
      if negb (adaptive (config jb)) then mret (JB_DISCARD_TOO_LATE, jb)
      else if decide (max_playout_delay_ts jb < u32 (playout_delay_ts jb + delta_ts))
      then mret (JB_DISCARD_TOO_LATE, jb)
      else
        let jb := set_playout jb (u32 (playout_delay_ts jb + delta_ts)) in
        let wts := u32 (wts + delta_ts) in
        jb_event_place
          (if marker then set_event jb wts (event_write_base jb) (event_write_update jb) else jb)
          e wts marker
    else
      ahead ← udiv (u32 (wts - read_ts jb)) (frame_ts jb);
      if decide (frame_count jb ≤ ahead) then mret (JB_DISCARD_TOO_EARLY, jb)
      else jb_event_place jb e wts marker.

(** ** Reading *)

Definition slot_cleared (f : media_frame_t) : media_frame_t :=
  mk_media MEDIA_FRAME_TYPE_NONE MPF_MARKER_NONE (media_codec_frame f) (media_event_frame f).

(** [out] is the caller's frame. *)
Definition mpf_jitter_buffer_read (jb : mpf_jitter_buffer_t) (out : media_frame_t)
    : res (media_frame_t * mpf_jitter_buffer_t) :=
  i ← mpf_jitter_buffer_frame_get jb (read_ts jb);
  src ← deref (frames jb !! i);
  let out :=
    if decide (read_ts jb < write_ts jb) then
      mk_media (media_type src) (media_marker src)
        (if decide (Z.land (media_type src) MEDIA_FRAME_TYPE_AUDIO ≠ 0)
         then media_codec_frame src else media_codec_frame out)
        (if decide (Z.land (media_type src) MEDIA_FRAME_TYPE_EVENT ≠ 0)
         then media_event_frame src else media_event_frame out)
    else mk_media MEDIA_FRAME_TYPE_NONE MPF_MARKER_NONE (media_codec_frame out) (media_event_frame out) in
  jb ← update_slot jb i slot_cleared;
  let jb := set_pos jb (write_ts jb) (u32 (read_ts jb + frame_ts jb)) in
  mret (out, if time_skew_detection (config jb) then mpf_jitter_buffer_stat_update jb else jb).

Definition mpf_jitter_buffer_playout_delay_get (jb : mpf_jitter_buffer_t) : res Z :=
  if negb (adaptive (config jb)) then mret (initial_playout_delay (config jb))
  else udiv (u32 (playout_delay_ts jb * CODEC_FRAME_TIME_BASE)) (frame_ts jb).
