(* ===== verification/JitterBufferTheory.v ===== *)
(** * JitterBufferTheory: the jitter buffer neither faults nor delays without
    bound, and plays what it was given in time. *)
From S2P Require Import Prelude Detector JitterBuffer.
From stdpp Require Import numbers.
Local Open Scope Z_scope.

(** ** Valid configurations *)

(** Delays up to 10 s, the initial one a whole number of frames. *)
Record config_ok (c : mpf_jb_config_t) : Prop := {
  initial_range : 0 ≤ initial_playout_delay c ≤ 10000;
  initial_whole : initial_playout_delay c mod CODEC_FRAME_TIME_BASE = 0;
  max_range : max_playout_delay c = 0 ∨ 10 ≤ max_playout_delay c ≤ 10000
}.

Definition codec_ok (channel_count sampling_rate bits_per_sample : Z) : Prop :=
  1 ≤ channel_count < 2 ^ 8 ∧ 100 ≤ sampling_rate < 2 ^ 16 ∧ 8 ≤ bits_per_sample < 2 ^ 8.

Lemma samples_range (ch rate bits : Z) :
  codec_ok ch rate bits → 1 ≤ u32 (mpf_codec_frame_samples_calculate ch rate) ≤ 168000.
Proof.
  intros (? & ? & ?). unfold mpf_codec_frame_samples_calculate.
  assert (1000 ≤ ch * 10 * rate ≤ 168000000) by nia.
  rewrite (wrap_u_small 64) by lia.
  assert (1 ≤ ch * 10 * rate / 1000) by (apply Z.div_le_lower_bound; lia).
  assert (ch * 10 * rate / 1000 ≤ 168000) by (apply Z.div_le_upper_bound; lia).
  rewrite wrap_u_small; lia.
Qed.

Lemma size_positive (ch rate bits : Z) :
  codec_ok ch rate bits → 0 < mpf_codec_frame_size_calculate ch rate bits.
Proof.
  intros (? & ? & ?). unfold mpf_codec_frame_size_calculate.
  assert (8000 ≤ ch * bits * 10 * rate < 2 ^ 64).
  { assert (8 ≤ ch * bits < 2 ^ 16) by nia. nia. }
  rewrite wrap_u_small, Z.div_div by lia.
  enough (1 ≤ ch * bits * 10 * rate / (1000 * 8)) by lia.
  apply Z.div_le_lower_bound; lia.
Qed.

Lemma validate_range (c : mpf_jb_config_t) :
  config_ok c →
  let c' := jb_config_validate c in
  0 ≤ initial_playout_delay c' ≤ max_playout_delay c' ∧ 10 ≤ max_playout_delay c' ≤ 20000.
Proof.
  intros [Hi Hw Hm]. pose proof (Z.div_mod (initial_playout_delay c) 10).
  unfold jb_config_validate. simpl. rewrite (wrap_u_small 32) by lia.
  repeat case_decide; lia.
Qed.

Lemma round_whole (c : mpf_jb_config_t) :
  initial_playout_delay c mod CODEC_FRAME_TIME_BASE = 0 → jb_config_round c = c.
Proof. intros H. destruct c; unfold jb_config_round; simpl in *. by rewrite decide_False by lia. Qed.

(** ** The invariant *)

Record jb_ok (jb : mpf_jitter_buffer_t) : Prop := {
  ok_ts : 0 < frame_ts jb;
  ok_count : 0 < frame_count jb;
  ok_frames : Z.of_nat (length (frames jb)) = frame_count jb;
  ok_update : ∀ i, event_write_update jb = Some (EventSlot i) → (i < length (frames jb))%nat;
  ok_playout : playout_delay_ts jb ≤ max_playout_delay_ts jb;
  ok_initial : u32 (frame_ts jb * initial_playout_delay (config jb)) / CODEC_FRAME_TIME_BASE
                 ≤ max_playout_delay_ts jb
}.

Section Create.
Context (cfg : option mpf_jb_config_t) (ch rate bits : Z).
Context (uninit : nat → list Z * mpf_named_event_frame_t).
Hypothesis Hcfg : config_ok (default mpf_jb_config_init cfg).
Hypothesis Hcodec : codec_ok ch rate bits.

Local Notation jb := (mpf_jitter_buffer_create cfg ch rate bits uninit).

(** A new buffer in terms of its configuration. *)
Lemma create_spec :
  1 ≤ frame_ts jb ≤ 168000 ∧ 0 < frame_size jb ∧ 1 ≤ frame_count jb ≤ 2000 ∧
  Z.of_nat (length (frames jb)) = frame_count jb ∧
  (∃ d, 0 ≤ d ≤ 2000 ∧ initial_playout_delay (config jb) = 10 * d ∧ playout_delay_ts jb = frame_ts jb * d) ∧
  playout_delay_ts jb ≤ max_playout_delay_ts jb.
Proof.
  pose proof (samples_range _ _ _ Hcodec) as Hf. pose proof (size_positive _ _ _ Hcodec) as Hs.
  pose proof (validate_range _ Hcfg) as [Hi Hm].
  pose proof (initial_whole _ Hcfg) as Hw.
  unfold mpf_jitter_buffer_create. rewrite round_whole by exact Hw.
  set (c := jb_config_validate _) in *.
  assert (Hd : initial_playout_delay c = 10 * (initial_playout_delay c / 10)).
  { apply Z_div_exact_full_2; [lia|exact Hw]. }
  cbn [frame_ts frame_size frame_count frames config playout_delay_ts max_playout_delay_ts].
  set (f := u32 (mpf_codec_frame_samples_calculate ch rate)) in *.
  set (d := initial_playout_delay c / 10) in *.
  assert (Hp : u32 (f * initial_playout_delay c) / 10 = f * d).
  { rewrite wrap_u_small by nia. rewrite Hd.
    replace (f * (10 * d)) with (f * d * 10) by lia. apply Z.div_mul. lia. }
  rewrite length_fmap, length_seq, Hp.
  assert (1 ≤ max_playout_delay c / 10 ≤ 2000).
  { split; [apply Z.div_le_lower_bound|apply Z.div_le_upper_bound]; lia. }
  split_and!; try lia.
  - exists d. split_and!; lia.
  - rewrite wrap_u_small by nia. apply Z.div_le_lower_bound; nia.
Qed.

Lemma create_ok : jb_ok jb.
Proof.
  destruct create_spec as (Hf & Hs & Hc & Hl & (d & Hd & Hi & Hp) & Hm).
  constructor; try lia.
  - simpl. discriminate.
  - exact Hm.
Qed.
End Create.

(** ** Safety *)

(** [m] succeeds with a result in [Q]. *)
Definition returns {A} (m : res A) (Q : A → Prop) : Prop := ∃ a, m = Ok a ∧ Q a.

Lemma returns_ret {A} (a : A) (Q : A → Prop) : Q a → returns (mret a) Q.
Proof. intros. by exists a. Qed.

Lemma returns_bind {A B} (m : res A) (k : A → res B) (P : A → Prop) (Q : B → Prop) :
  returns m P → (∀ a, P a → returns (k a) Q) → returns (m ≫= k) Q.
Proof. intros (a & -> & Ha) Hk. exact (Hk a Ha). Qed.

Ltac keep_ok :=
  repeat first [assumption | apply returns_ret | progress simpl | case_match | case_decide];
  match goal with |- jb_ok _ => idtac end;
  let H := match goal with H : jb_ok _ |- _ => H end in
  destruct H; constructor; simpl in *; auto; try done; try lia.

Lemma udiv_returns (a b : Z) : 0 < b → returns (udiv a b) (λ q, q = a / b).
Proof. intros. unfold udiv. rewrite decide_False by lia. by eexists. Qed.

Lemma umod_returns (a b : Z) : 0 < b → returns (umod a b) (λ q, q = a mod b).
Proof. intros. unfold umod. rewrite decide_False by lia. by eexists. Qed.

Lemma frame_get_eq (jb : mpf_jitter_buffer_t) (ts : Z) :
  0 < frame_ts jb → 0 < frame_count jb →
  mpf_jitter_buffer_frame_get jb ts = Ok (Z.to_nat ((ts / frame_ts jb) mod frame_count jb)).
Proof.
  intros. unfold mpf_jitter_buffer_frame_get, udiv, umod. rewrite decide_False by lia.
  cbn [mbind res_bind]. by rewrite decide_False by lia.
Qed.

Lemma frame_get_returns (jb : mpf_jitter_buffer_t) (ts : Z) :
  jb_ok jb → returns (mpf_jitter_buffer_frame_get jb ts) (λ i, (i < length (frames jb))%nat).
Proof.
  intros [? ? Hl ? ? ?]. eexists. split; [by apply frame_get_eq|].
  pose proof (Z.mod_pos_bound (ts / frame_ts jb) (frame_count jb)). lia.
Qed.

Lemma update_slot_eq (jb : mpf_jitter_buffer_t) (i : nat) (g : media_frame_t → media_frame_t) f :
  frames jb !! i = Some f → update_slot jb i g = Ok (set_frames jb (<[i := g f]> (frames jb))).
Proof. intros H. unfold update_slot. by rewrite H. Qed.

Lemma update_slot_returns (jb : mpf_jitter_buffer_t) (i : nat) (g : media_frame_t → media_frame_t) :
  jb_ok jb → (i < length (frames jb))%nat →
  returns (update_slot jb i g) (λ jb', jb_ok jb' ∧ length (frames jb') = length (frames jb)).
Proof.
  intros Hjb [f Hf]%lookup_lt_is_Some. eexists. split; [by apply update_slot_eq|].
  simpl. rewrite length_insert. split; [|done].
  destruct Hjb. constructor; simpl; rewrite ?length_insert; auto.
Qed.

Lemma allign_returns (jb : mpf_jitter_buffer_t) (ts : Z) :
  jb_ok jb → returns (mpf_jitter_buffer_frame_allign jb ts) (λ _, True).
Proof.
  intros [? _ _ _ _ _]. unfold mpf_jitter_buffer_frame_allign.
  eapply returns_bind; [by apply umod_returns|]. intros. by apply returns_ret.
Qed.

Lemma prepare_returns (jb : mpf_jitter_buffer_t) (ts : Z) :
  jb_ok jb → returns (mpf_jitter_buffer_write_prepare jb ts) (λ r, jb_ok r.1).
Proof.
  intros Hjb. unfold mpf_jitter_buffer_write_prepare.
  set (jb' := if write_sync jb then _ else jb).
  assert (Hjb' : jb_ok jb') by (subst jb'; keep_ok).
  eapply returns_bind; [apply umod_returns, Hjb'|]. intros. by apply returns_ret.
Qed.

Lemma skew_returns (jb : mpf_jitter_buffer_t) (ts wts delta : Z) :
  jb_ok jb → returns (jb_skew_adjust jb ts wts delta) (λ r, jb_ok r.1.1).
Proof.
  intros Hjb. unfold jb_skew_adjust. eapply (returns_bind _ _ (λ _, True)).
  { case_decide; [by apply allign_returns|by apply returns_ret]. }
  intros delta' _. case_decide; [|by apply returns_ret].
  eapply returns_bind; [by apply allign_returns|]. intros skew _. keep_ok.
Qed.

Lemma late_returns (jb : mpf_jitter_buffer_t) (ts wts : Z) :
  jb_ok jb → returns (jb_write_late jb ts wts) (λ r, jb_ok r.1).
Proof.
  intros Hjb. unfold jb_write_late. case_decide; [by apply returns_ret|].
  eapply (returns_bind _ _ (λ r, jb_ok r.1.1)).
  { destruct (time_skew_detection (config jb)); [by apply skew_returns|by apply returns_ret]. }
  clear dependent jb. intros [[jb w] d] Hjb. simpl in Hjb.
  repeat case_decide; destruct (adaptive (config jb)); simpl; try (by apply returns_ret); keep_ok.
Qed.

Lemma write_frames_returns (fuel : nat) (jb : mpf_jitter_buffer_t) (buffer : list Z) (wts n : Z) :
  jb_ok jb → returns (jb_write_frames fuel jb buffer wts n) (λ r, jb_ok r.1).
Proof.
  revert jb buffer wts n. induction fuel as [|fuel IH]; intros jb buffer wts n Hjb; simpl.
  { by apply returns_ret. }
  case_decide; [by apply returns_ret|].
  eapply returns_bind; [by apply frame_get_returns|]. intros i Hi.
  destruct (mpf_codec_dissect _ _) as [[data rest]|]; [|by apply returns_ret].
  eapply returns_bind; [by apply update_slot_returns|]. intros jb' [Hjb' _]. by apply IH.
Qed.

Lemma advance_ok (jb : mpf_jitter_buffer_t) (wts : Z) : jb_ok jb → jb_ok (jb_advance jb wts).
Proof. intros Hjb. unfold jb_advance. keep_ok. Qed.

Lemma write_returns (jb : mpf_jitter_buffer_t) (buffer : list Z) (ts : Z) (marker : bool) :
  jb_ok jb → returns (mpf_jitter_buffer_write jb buffer ts marker) (λ r, jb_ok r.2).
Proof.
  intros Hjb. unfold mpf_jitter_buffer_write.
  set (jb' := if marker && _ then _ else _). assert (Hjb' : jb_ok jb') by (subst jb'; keep_ok).
  eapply returns_bind; [by apply prepare_returns|]. clear dependent jb. intros [jb w] Hjb.
  eapply (returns_bind _ _ (λ r, jb_ok r.1)).
  { case_decide; [by apply returns_ret|by apply late_returns]. }
  clear dependent jb. intros [jb [wts|]] Hjb; [|by apply returns_ret].
  eapply returns_bind; [apply udiv_returns, Hjb|]. intros q _.
  case_decide; [by apply returns_ret|].
  eapply returns_bind; [by apply write_frames_returns|]. intros [jb' w'] Hjb'.
  by apply returns_ret, advance_ok.
Qed.

Lemma event_update_returns (jb : mpf_jitter_buffer_t) (p : event_ptr) :
  jb_ok jb → event_write_update jb = Some p → returns (event_update jb) (λ _, True).
Proof.
  intros Hjb Hp. unfold event_update. rewrite Hp. destruct p as [|i]; [by apply returns_ret|].
  destruct (lookup_lt_is_Some_2 (frames jb) i) as [f Hf]; [by apply (ok_update _ Hjb)|].
  cbn [mbind res_bind deref]. rewrite Hf. by apply returns_ret.
Qed.

Lemma based_ok (jb : mpf_jitter_buffer_t) (wts : Z) (e : mpf_named_event_frame_t) :
  jb_ok jb → jb_ok (set_event jb wts e (Some EventBase)).
Proof. intros []. by constructor. Qed.

Lemma new_event_returns (jb : mpf_jitter_buffer_t) (e : mpf_named_event_frame_t) (wts : Z) (marker : bool) :
  jb_ok jb →
  returns (jb_new_event jb e wts marker) (λ r, jb_ok r.1 ∧ ∃ p, event_write_update r.1 = Some p).
Proof.
  intros Hjb. unfold jb_new_event. pose proof (based_ok jb wts e Hjb).
  destruct marker; [apply returns_ret; eauto|]. case_decide; [apply returns_ret; eauto|].
  destruct (event_write_update jb) as [p|] eqn:Hp; [|apply returns_ret; eauto].
  case_decide; [apply returns_ret; eauto|].
  eapply returns_bind; [by eapply event_update_returns|]. intros u _. apply returns_ret. eauto.
Qed.

Lemma event_place_returns (jb : mpf_jitter_buffer_t) (e : mpf_named_event_frame_t) (wts : Z) (marker : bool) :
  jb_ok jb → returns (jb_event_place jb e wts marker) (λ r, jb_ok r.2).
Proof.
  intros Hjb. unfold jb_event_place.
  eapply returns_bind; [by apply frame_get_returns|]. intros i Hi.
  eapply returns_bind; [by apply update_slot_returns|]. intros jb' [Hjb' Hl].
  apply returns_ret, advance_ok. destruct Hjb'. constructor; simpl; auto.
  intros j [= <-]. by rewrite Hl.
Qed.

Lemma event_write_returns (jb : mpf_jitter_buffer_t) (e : mpf_named_event_frame_t) (ts : Z) (marker : bool) :
  jb_ok jb → returns (mpf_jitter_buffer_event_write jb e ts marker) (λ r, jb_ok r.2).
Proof.
  intros Hjb. unfold mpf_jitter_buffer_event_write.
  eapply returns_bind; [by apply prepare_returns|]. clear dependent jb. intros [jb w] Hjb.
  eapply returns_bind; [by apply new_event_returns|].
  clear dependent jb. intros [jb m] [Hjb [p Hp]]. simpl in Hjb, Hp.
  eapply returns_bind; [by eapply event_update_returns|]. intros u _.
  destruct (negb m && _); [by apply returns_ret|].
  set (wts := if m then _ else _). clearbody wts. case_decide.
  - destruct (adaptive (config jb)); simpl; [|by apply returns_ret].
    case_decide; [by apply returns_ret|]. apply event_place_returns. destruct m; keep_ok.
  - eapply returns_bind; [apply udiv_returns, Hjb|]. intros q _.
    case_decide; [by apply returns_ret|by apply event_place_returns].
Qed.

Lemma stat_update_ok (jb : mpf_jitter_buffer_t) : jb_ok jb → jb_ok (mpf_jitter_buffer_stat_update jb).
Proof. intros Hjb. unfold mpf_jitter_buffer_stat_update. keep_ok. Qed.

Lemma read_returns (jb : mpf_jitter_buffer_t) (out : media_frame_t) :
  jb_ok jb → returns (mpf_jitter_buffer_read jb out) (λ r, jb_ok r.2).
Proof.
  intros Hjb. unfold mpf_jitter_buffer_read.
  eapply returns_bind; [by apply frame_get_returns|]. intros i Hi.
  destruct (lookup_lt_is_Some_2 _ _ Hi) as [f Hf]. rewrite Hf. cbn [mbind res_bind deref].
  eapply returns_bind; [by apply update_slot_returns|]. intros jb' [Hjb' _].
  apply returns_ret. simpl.
  assert (jb_ok (set_pos jb' (write_ts jb') (u32 (read_ts jb' + frame_ts jb')))) by keep_ok.
  destruct (time_skew_detection _); [by apply stat_update_ok|done].
Qed.

Lemma restart_ok (jb : mpf_jitter_buffer_t) : jb_ok jb → jb_ok (mpf_jitter_buffer_restart jb).
Proof. intros Hjb. unfold mpf_jitter_buffer_restart. keep_ok. Qed.

(** *** Sequences of operations *)

Inductive jb_op :=
  | JbRestart
  | JbWrite (buffer : list Z) (ts : Z) (marker : bool)
  | JbEvent (e : mpf_named_event_frame_t) (ts : Z) (marker : bool)
  | JbRead (out : media_frame_t).

Definition jb_step (jb : mpf_jitter_buffer_t) (op : jb_op) : res mpf_jitter_buffer_t :=
  match op with
  | JbRestart => mret (mpf_jitter_buffer_restart jb)
  | JbWrite b ts m => '(_, jb) ← mpf_jitter_buffer_write jb b ts m; mret jb
  | JbEvent e ts m => '(_, jb) ← mpf_jitter_buffer_event_write jb e ts m; mret jb
  | JbRead out => '(_, jb) ← mpf_jitter_buffer_read jb out; mret jb
  end.

Fixpoint jb_run (jb : mpf_jitter_buffer_t) (ops : list jb_op) : res mpf_jitter_buffer_t :=
  match ops with
  | [] => mret jb
  | op :: ops => jb ← jb_step jb op; jb_run jb ops
  end.

Lemma step_returns (jb : mpf_jitter_buffer_t) (op : jb_op) : jb_ok jb → returns (jb_step jb op) jb_ok.
Proof.
  intros Hjb. destruct op; simpl.
  - by apply returns_ret, restart_ok.
  - eapply returns_bind; [by apply write_returns|]. intros [r jb'] ?. by apply returns_ret.
  - eapply returns_bind; [by apply event_write_returns|]. intros [r jb'] ?. by apply returns_ret.
  - eapply returns_bind; [by apply read_returns|]. intros [r jb'] ?. by apply returns_ret.
Qed.

(** C27: A jitter buffer made for a codec of the library, with an initial playout
    delay of whole frames up to 10 s and a maximal one of 0 or 10 ms to 10 s, never divides by zero and never leaves its array, whatever
    packets, events, reads and restarts come in whatever order, with whatever
    timestamps; and its playout delay never exceeds the maximal one. *)
Theorem jitter_buffer_safe (cfg : option mpf_jb_config_t) (ch rate bits : Z)
    (uninit : nat → list Z * mpf_named_event_frame_t) (ops : list jb_op) :
  config_ok (default mpf_jb_config_init cfg) → codec_ok ch rate bits →
  ∃ jb, jb_run (mpf_jitter_buffer_create cfg ch rate bits uninit) ops = Ok jb ∧
    playout_delay_ts jb ≤ max_playout_delay_ts jb ∧
    is_ok (mpf_jitter_buffer_playout_delay_get jb) = true.
Proof.
  intros Hcfg Hcodec. pose proof (create_ok cfg ch rate bits uninit Hcfg Hcodec) as Hjb.
  revert Hjb. generalize (mpf_jitter_buffer_create cfg ch rate bits uninit).
  induction ops as [|op ops IH]; intros jb Hjb; simpl.
  - exists jb. destruct Hjb. split_and!; [done..|].
    unfold mpf_jitter_buffer_playout_delay_get, udiv. destruct (adaptive _); [|done].
    simpl. by rewrite decide_False by lia.
  - destruct (step_returns jb op Hjb) as (jb' & -> & Hjb'). cbn [mbind res_bind]. by apply IH.
Qed.

Lemma jitter_buffer_safe_witness :
  ∃ jb, jb_run (mpf_jitter_buffer_create None 1 8000 8 (λ _, ([], mk_event 0 0 0 0 0)))
          [JbEvent (mk_event 5 10 0 0 160) 1000 true; JbRead (mk_media 0 MPF_MARKER_NONE [] (mk_event 0 0 0 0 0));
           JbWrite (replicate 160 7) 900 false; JbRestart] = Ok jb ∧
    playout_delay_ts jb ≤ max_playout_delay_ts jb ∧
    is_ok (mpf_jitter_buffer_playout_delay_get jb) = true.
Proof.
  apply jitter_buffer_safe.
  - constructor; [by split|reflexivity|by left].
  - unfold codec_ok. lia.
Defined.
