(* ===== verification/JitterPlayout.v ===== *)
(** * JitterPlayout: the jitter buffer plays the stream it receives.

    The reference is a timeline: the frames of the stream by their number, and
    the reads, each of which plays the frame that is due.  Packets may come in
    any order and at any time, as long as each comes before its frames are due
    and not further ahead than the buffer is long; a marked packet that finds no
    frame waiting starts the timeline anew.  Then: packets that come too early,
    new segments of an event, and what a restart leaves. *)
From S2P Require Import Prelude Detector JitterBuffer JitterBufferTheory.
From stdpp Require Import gmap numbers.
Local Open Scope Z_scope.

(** ** The reference *)

(** A packet whose first frame has number [i] arrives, with or without the
    marker of a talkspurt, or a frame is read. *)
Inductive stream_op :=
  | Arrive (i : Z) (marker : bool) (packet : list (list Z))
  | Play.

Fixpoint timeline_add (M : gmap Z (list Z)) (i : Z) (packet : list (list Z)) : gmap Z (list Z) :=
  match packet with
  | [] => M
  | f :: packet => timeline_add (<[i := f]> M) (i + 1) packet
  end.

(** Frame [j] is played at read [delay + j]; some frame waits for the read [r]
    or a later one. *)
Definition awaits (delay r : Z) (M : gmap Z (list Z)) : bool :=
  bool_decide (map_Exists (λ j _, r ≤ delay + j) M).

(** The first packet is played [d] reads after it came, and so is a marked one
    when no frame waits: the frames before it are forgotten. *)
Definition timeline_sync (d : Z) (delay : option Z) (r : Z) (M : gmap Z (list Z)) (i : Z) (marker : bool)
    : Z * gmap Z (list Z) :=
  match delay with
  | Some dl => if marker && negb (awaits dl r M) then (r + d - i, ∅) else (dl, M)
  | None => (r + d - i, ∅)
  end.

(** What is heard: the [r]-th read plays frame [r - delay], if it has come. *)
Fixpoint timeline_play (d : Z) (delay : option Z) (r : Z) (M : gmap Z (list Z)) (ops : list stream_op)
    : list (option (list Z)) :=
  match ops with
  | [] => []
  | Arrive i marker packet :: ops =>
    let '(dl, M) := timeline_sync d delay r M i marker in
    timeline_play d (Some dl) r (timeline_add M i packet) ops
  | Play :: ops => (delay ≫= λ dl, M !! (r - dl)) :: timeline_play d delay (r + 1) M ops
  end.

(** Every packet consists of whole frames and comes in the window of [count]
    frames from the next read on; the positions do not wrap. *)
Fixpoint in_time (count fts size d : Z) (delay : option Z) (r : Z) (M : gmap Z (list Z)) (ops : list stream_op)
    : Prop :=
  match ops with
  | [] => True
  | Arrive i marker packet :: ops =>
    let '(dl, M) := timeline_sync d delay r M i marker in
    packet ≠ [] ∧ Forall (λ f, Z.of_nat (length f) = size) packet ∧
    r ≤ dl + i ∧ dl + i + Z.of_nat (length packet) ≤ r + count ∧
    in_time count fts size d (Some dl) r (timeline_add M i packet) ops
  | Play :: ops => (r + 1 + count) * fts < 2 ^ 32 ∧ in_time count fts size d delay (r + 1) M ops
  end.

(** ** The buffer *)

Definition heard (f : media_frame_t) : option (list Z) :=
  if decide (Z.land (media_type f) MEDIA_FRAME_TYPE_AUDIO ≠ 0) then Some (media_codec_frame f) else None.

(** The receiver: frame [i] has the RTP timestamp [T] plus [i] frames. *)
Fixpoint jb_play (T : Z) (out : media_frame_t) (jb : mpf_jitter_buffer_t) (ops : list stream_op)
    : res (list (option (list Z))) :=
  match ops with
  | [] => mret []
  | Arrive i marker packet :: ops =>
    '(_, jb) ← mpf_jitter_buffer_write jb (mjoin packet) (u32 (T + i * frame_ts jb)) marker;
    jb_play T out jb ops
  | Play :: ops =>
    '(f, jb) ← mpf_jitter_buffer_read jb out;
    rest ← jb_play T out jb ops;
    mret (heard f :: rest)
  end.

Section Playout.
Context (T count fts size d : Z).
Hypothesis Hcount : 0 < count.
Hypothesis Hfts : 0 < fts.
Hypothesis Hsize : 0 < size.

Hypothesis Hd : 0 ≤ d.

Local Notation slot k := (Z.to_nat (k mod count)).

Lemma slot_inj (r k k' : Z) :
  r ≤ k < r + count → r ≤ k' < r + count → slot k = slot k' → k = k'.
Proof.
  intros Hk Hk' He. pose proof (Z.mod_pos_bound k count Hcount). pose proof (Z.mod_pos_bound k' count Hcount).
  apply Z2Nat.inj in He; [|lia..].
  pose proof (Z.div_mod k count ltac:(lia)). pose proof (Z.div_mod k' count ltac:(lia)).
  assert (k / count = k' / count) by nia. nia.
Qed.

(** The slots of the window hold the frames of the timeline. *)
Definition slots (delay r : Z) (fs : list media_frame_t) (M : gmap Z (list Z)) : Prop :=
  ∀ k, r ≤ k < r + count → ∃ f, fs !! slot k = Some f ∧
    match M !! (k - delay) with
    | None => media_type f = MEDIA_FRAME_TYPE_NONE
    | Some data => media_type f = MEDIA_FRAME_TYPE_AUDIO ∧ media_codec_frame f = data
    end.

Record playing (delay : Z) (jb : mpf_jitter_buffer_t) (r : Z) (M : gmap Z (list Z)) : Prop := {
  pl_count : frame_count jb = count;
  pl_ts : frame_ts jb = fts;
  pl_size : frame_size jb = size;
  pl_read : read_ts jb = r * fts;
  pl_range : 0 ≤ r ∧ (r + count) * fts < 2 ^ 32;
  pl_delay : playout_delay_ts jb = fts * d;
  pl_slots : slots delay r (frames jb) M;
  pl_written : ∀ j data, M !! j = Some data → r ≤ delay + j → (delay + j + 1) * fts ≤ write_ts jb;
  pl_ahead : ∀ j data, M !! j = Some data → delay + j < r + count;
  pl_last : write_ts jb ≤ r * fts ∨ ∃ j, is_Some (M !! j) ∧ write_ts jb = (delay + j + 1) * fts
}.

(** The buffer maps frame [i] of the stream to position [delay + i]. *)
Definition synced (delay : Z) (jb : mpf_jitter_buffer_t) : Prop :=
  write_sync jb = false ∧
  u32 (T - write_ts_offset jb + playout_delay_ts jb) = u32 (delay * fts).

Lemma slots_insert (delay r k : Z) (fs : list media_frame_t) (M : gmap Z (list Z)) (data : list Z) :
  slots delay r fs M → r ≤ k < r + count →
  ∃ f, fs !! slot k = Some f ∧ slots delay r (<[slot k := audio_written data f]> fs) (<[k - delay := data]> M).
Proof.
  intros Hs Hk. destruct (Hs k Hk) as (f & Hf & Hm). exists f. split; [done|].
  intros k' Hk'. destruct (decide (k' = k)) as [->|Hne].
  - rewrite list_lookup_insert_eq by (by eapply lookup_lt_Some).
    eexists. split; [done|]. rewrite lookup_insert_eq. split; [|done].
    simpl. destruct (M !! (k - delay)); [destruct Hm as [-> _]|rewrite Hm]; reflexivity.
  - rewrite list_lookup_insert_ne by (intros He; by apply Hne, (slot_inj r)).
    rewrite lookup_insert_ne by lia. by apply Hs.
Qed.

(** *** Writing *)

Lemma dissect_frame (f rest : list Z) :
  Z.of_nat (length f) = size → mpf_codec_dissect (f ++ rest) size = Some (f, rest).
Proof.
  intros Hf. unfold mpf_codec_dissect. rewrite decide_True by (rewrite length_app; lia).
  rewrite <- Hf, Nat2Z.id, take_app_length, drop_app_length. done.
Qed.

Lemma frame_get_slot (jb : mpf_jitter_buffer_t) (k : Z) :
  frame_count jb = count → frame_ts jb = fts → mpf_jitter_buffer_frame_get jb (k * fts) = Ok (slot k).
Proof. intros Hc Ht. rewrite frame_get_eq, Hc, Ht, Z.div_mul by lia. done. Qed.

Lemma write_frames_plays (delay r : Z) (packet : list (list Z)) :
  ∀ (fuel : nat) (jb : mpf_jitter_buffer_t) (M : gmap Z (list Z)) (k available : Z),
  frame_count jb = count → frame_ts jb = fts → frame_size jb = size →
  slots delay r (frames jb) M → Forall (λ f, Z.of_nat (length f) = size) packet →
  0 ≤ r ≤ k → k + Z.of_nat (length packet) ≤ r + count → (r + count) * fts < 2 ^ 32 →
  Z.of_nat (length packet) ≤ available → (length (mjoin packet) ≤ fuel)%nat →
  ∃ fs, jb_write_frames fuel jb (mjoin packet) (k * fts) available
          = Ok (set_frames jb fs, (k + Z.of_nat (length packet)) * fts) ∧
    slots delay r fs (timeline_add M (k - delay) packet).
Proof.
  induction packet as [|f packet IH];
    intros fuel jb M k av Hc Ht Hz Hs HF Hk Hw Hr Ha Hfuel.
  - exists (frames jb). rewrite Z.add_0_r. split; [|done].
    assert (He : set_frames jb (frames jb) = jb) by (by destruct jb). rewrite He.
    destruct fuel; simpl; [done|]. by rewrite decide_True by auto.
  - apply Forall_cons_1 in HF as [Hf HF]. rewrite length_cons in Hw, Ha.
    change (mjoin (f :: packet)) with (f ++ mjoin packet) in *. rewrite length_app in Hfuel.
    destruct (slots_insert delay r k (frames jb) M f Hs) as (g & Hg & Hs'); [lia|].
    destruct fuel as [|fuel]; [lia|]. simpl.
    rewrite decide_False by (intros [?|He%app_eq_nil]; [lia|destruct He as [-> _]; simpl in Hf; lia]).
    rewrite frame_get_slot by done. cbn [mbind res_bind].
    rewrite Hz, dissect_frame by done. rewrite (update_slot_eq _ _ _ g Hg). cbn [mbind res_bind].
    assert (Hstep : u32 (k * fts + fts) = (k + 1) * fts) by (rewrite wrap_u_small; nia).
    cbn [frame_ts set_frames]. rewrite Ht, Hstep.
    edestruct (IH fuel (set_frames jb (<[slot k := audio_written f g]> (frames jb)))
      (<[k - delay := f]> M) (k + 1) (av - 1)) as (fs & Hrun & Hfs); try done; try lia.
    exists fs. split.
    + etrans; [exact Hrun|]. f_equal. f_equal. lia.
    + simpl. by replace (k - delay + 1) with (k + 1 - delay) by lia.
Qed.

Lemma timeline_add_elem (packet : list (list Z)) :
  ∀ (M : gmap Z (list Z)) (i j : Z) (data : list Z),
  timeline_add M i packet !! j = Some data →
  M !! j = Some data ∨ i ≤ j < i + Z.of_nat (length packet).
Proof.
  induction packet as [|f packet IH]; intros M i j data Hj; simpl in *; [by left|].
  apply IH in Hj as [Hj|Hj]; [|right; lia].
  destruct (decide (i = j)) as [->|Hne]; [right; lia|].
  left. by rewrite lookup_insert_ne in Hj.
Qed.

Lemma timeline_add_some (packet : list (list Z)) :
  ∀ (M : gmap Z (list Z)) (i j : Z),
  is_Some (M !! j) ∨ i ≤ j < i + Z.of_nat (length packet) → is_Some (timeline_add M i packet !! j).
Proof.
  induction packet as [|f packet IH]; intros M i j Hj; simpl in *; [destruct Hj; [done|lia]|].
  apply IH. destruct (decide (i = j)) as [->|Hne]; [left; by rewrite lookup_insert_eq|].
  destruct Hj; [left; by rewrite lookup_insert_ne|right; lia].
Qed.

(** The position that the buffer computes for frame [i]. *)
Lemma position (delay o p i : Z) :
  u32 (T - o + p) = u32 (delay * fts) → 0 ≤ (delay + i) * fts < 2 ^ 32 →
  u32 (u32 (T + i * fts) - o + p) = (delay + i) * fts.
Proof.
  intros He Hr. rewrite <- (wrap_u_small 32 ((delay + i) * fts)) by done. unfold wrap_u in *.
  replace ((T + i * fts) mod 2 ^ 32 - o + p) with ((T + i * fts) mod 2 ^ 32 + (p - o)) by lia.
  rewrite Zplus_mod_idemp_l.
  replace (T + i * fts + (p - o)) with (T - o + p + i * fts) by lia.
  replace ((delay + i) * fts) with (delay * fts + i * fts) by lia.
  by rewrite <- (Zplus_mod_idemp_l (T - o + p)), He, Zplus_mod_idemp_l.
Qed.

Lemma prepare_synced (delay : Z) (jb : mpf_jitter_buffer_t) (i : Z) :
  frame_ts jb = fts → synced delay jb → 0 ≤ (delay + i) * fts < 2 ^ 32 →
  mpf_jitter_buffer_write_prepare jb (u32 (T + i * fts)) = Ok (jb, (delay + i) * fts).
Proof.
  intros Ht [Hs Ho] Hr. unfold mpf_jitter_buffer_write_prepare. rewrite Hs. cbn zeta.
  rewrite (position _ _ _ i Ho Hr), Ht. unfold umod. rewrite decide_False by lia.
  cbn [mbind res_bind]. rewrite Z.mod_mul by lia. by rewrite decide_False by tauto.
Qed.

Lemma playing_empty (delay delay' : Z) (jb : mpf_jitter_buffer_t) (r : Z) :
  playing delay jb r ∅ → playing delay' jb r ∅.
Proof.
  intros [? ? ? ? ? ? ? ? ? Hl]. constructor; try done. left. by destruct Hl as [?|(j & [? Hj] & _)].
Qed.

(** When no frame waits the slots of the window are empty. *)
Lemma playing_idle (delay : Z) (jb : mpf_jitter_buffer_t) (r : Z) (M : gmap Z (list Z)) :
  playing delay jb r M → awaits delay r M = false → playing delay jb r ∅.
Proof.
  intros [? ? ? ? ? ? Hs ? ? Hl] Ha%bool_decide_eq_false.
  assert (∀ j, r ≤ delay + j → M !! j = None) as Hno.
  { intros j Hj. destruct (M !! j) eqn:E; [|done]. destruct Ha. by exists j, l. }
  constructor; try done.
  - intros k Hk. destruct (Hs k Hk) as (f & Hf & Hm). exists f. split; [done|].
    rewrite Hno in Hm by lia. by rewrite lookup_empty.
  - left. destruct Hl as [?|(j & [data Hj] & ->)]; [done|].
    destruct (decide (r ≤ delay + j)); [by rewrite Hno in Hj|nia].
Qed.

(** The test of a marked packet tells whether a frame waits. *)
Lemma awaits_write (delay : Z) (jb : mpf_jitter_buffer_t) (r : Z) (M : gmap Z (list Z)) :
  playing delay jb r M → bool_decide (write_ts jb ≤ read_ts jb) = negb (awaits delay r M).
Proof.
  intros Hp. rewrite (pl_read _ _ _ _ Hp). destruct (awaits delay r M) eqn:Ha; simpl.
  - apply bool_decide_eq_true in Ha as (j & data & Hj & Hr). apply bool_decide_eq_false.
    pose proof (pl_written _ _ _ _ Hp j data Hj Hr). nia.
  - apply bool_decide_eq_true. destruct (pl_last _ _ _ _ (playing_idle _ _ _ _ Hp Ha)) as [?|(j & [? Hj] & _)]; [done|].
    by rewrite lookup_empty in Hj.
Qed.

(** The first packet and a marked one define the offset. *)
Lemma prepare_first (jb : mpf_jitter_buffer_t) (r i : Z) (b : Z) :
  playing b jb r ∅ → write_sync jb = true → (r + d) * fts < 2 ^ 32 →
  ∃ jb', mpf_jitter_buffer_write_prepare jb (u32 (T + i * fts)) = Ok (jb', (r + d - i + i) * fts) ∧
    playing (r + d - i) jb' r ∅ ∧ synced (r + d - i) jb'.
Proof.
  intros Hp%(playing_empty _ (r + d - i)) Hsync Hr. pose proof (pl_range _ _ _ _ Hp) as [Hr0 _].
  set (ts := u32 (T + i * fts)). set (jb0 := set_sync jb false (i32 (ts - read_ts jb))).
  set (jb' := if time_skew_detection (config jb0)
    then set_stat jb0 (i32 (playout_delay_ts jb0)) (i32 (playout_delay_ts jb0)) 0 else jb0).
  exists jb'.
  assert (Hsy : synced (r + d - i) jb').
  { split; [by subst jb'; destruct (time_skew_detection _)|].
    replace (write_ts_offset jb') with (i32 (ts - r * fts))
      by (rewrite <- (pl_read _ _ _ _ Hp); subst jb'; by destruct (time_skew_detection _)).
    replace (playout_delay_ts jb') with (fts * d)
      by (rewrite <- (pl_delay _ _ _ _ Hp); subst jb'; by destruct (time_skew_detection _)).
    unfold wrap_u, wrap_s.
    replace (T - ((ts - r * fts + 2 ^ (32 - 1)) mod 2 ^ 32 - 2 ^ (32 - 1)) + fts * d)
      with (T + fts * d + 2 ^ (32 - 1) - (ts - r * fts + 2 ^ (32 - 1)) mod 2 ^ 32) by lia.
    rewrite Zminus_mod_idemp_r.
    replace (T + fts * d + 2 ^ (32 - 1) - (ts - r * fts + 2 ^ (32 - 1)))
      with (T + fts * d + r * fts - ts) by lia.
    subst ts. unfold wrap_u. rewrite Zminus_mod_idemp_r. f_equal. lia. }
  assert (Hpl : playing (r + d - i) jb' r ∅).
  { subst jb'. destruct Hp, (time_skew_detection _); constructor; done. }
  split_and!; [|done..].
  etrans; [|apply (prepare_synced (r + d - i) jb' i); [apply Hpl|done|nia]].
  unfold mpf_jitter_buffer_write_prepare at 1. rewrite Hsync.
  change (if time_skew_detection (config (set_sync jb false _)) then _ else _) with jb'.
  unfold mpf_jitter_buffer_write_prepare. by rewrite (proj1 Hsy).
Qed.

Lemma advance_fields (jb : mpf_jitter_buffer_t) (w : Z) :
  ∃ w', jb_advance jb w = set_pos jb w' (read_ts jb) ∧ write_ts jb ≤ w' ∧ w ≤ w' ∧ (w' = w ∨ w' = write_ts jb).
Proof.
  unfold jb_advance. case_decide.
  - exists w. split_and!; [done|lia..|by left].
  - exists (write_ts jb). split_and!; [by destruct jb|lia..|by right].
Qed.

(** What a marked packet does first. *)
Definition marked (jb : mpf_jitter_buffer_t) (marker : bool) : mpf_jitter_buffer_t :=
  if marker && bool_decide (write_ts jb ≤ read_ts jb) then set_sync jb true (write_ts_offset jb) else jb.

(** A packet in the window is put at its place, whether or not it defines the
    offset. *)
Lemma write_plays (delay : Z) (jb jb1 : mpf_jitter_buffer_t) (r i ts : Z) (marker : bool) (M : gmap Z (list Z))
    (packet : list (list Z)) :
  mpf_jitter_buffer_write_prepare (marked jb marker) ts = Ok (jb1, (delay + i) * fts) →
  playing delay jb1 r M → synced delay jb1 →
  packet ≠ [] → Forall (λ f, Z.of_nat (length f) = size) packet →
  r ≤ delay + i → delay + i + Z.of_nat (length packet) ≤ r + count →
  ∃ jb', mpf_jitter_buffer_write jb (mjoin packet) ts marker = Ok (JB_OK, jb') ∧
    playing delay jb' r (timeline_add M i packet) ∧ synced delay jb'.
Proof.
  intros Hprep Hp Hsy Hne HF Hlo Hhi. pose proof Hp as [Hc Ht Hz Hrd [Hr0 Hr] Hdl Hs Hwr Hah Hla].
  assert (0 < Z.of_nat (length packet)) by (destruct packet; [done|simpl; lia]).
  unfold mpf_jitter_buffer_write. fold (marked jb marker). rewrite Hprep. cbn [mbind res_bind].
  rewrite Hrd, decide_True by nia. cbn [mbind res_bind mret res_ret].
  replace ((delay + i) * fts - r * fts) with ((delay + i - r) * fts) by lia.
  rewrite Hrd, (wrap_u_small 32) by nia.
  replace ((delay + i) * fts - r * fts) with ((delay + i - r) * fts) by lia.
  unfold udiv. rewrite Ht, decide_False, Z.div_mul, Hc by lia. cbn [mbind res_bind].
  rewrite wrap_u_small by nia. rewrite decide_False by lia.
  destruct (write_frames_plays delay r packet (length (mjoin packet)) jb1 M (delay + i) (count - (delay + i - r)))
    as (fs & -> & Hfs); try done; try lia.
  cbn [mbind res_bind].
  destruct (advance_fields (set_frames jb1 fs) ((delay + i + Z.of_nat (length packet)) * fts))
    as (w' & -> & Hw1 & Hw2 & Hw).
  eexists. split; [done|]. split; [|done]. replace (delay + i - delay) with i in Hfs by lia.
  constructor; try done; simpl in *.
  - intros j data [Hj|Hj]%timeline_add_elem Hrj; [etrans; [by eapply Hwr|done]|nia].
  - intros j data [Hj|Hj]%timeline_add_elem; [by eapply Hah|lia].
  - destruct Hw as [->| ->].
    + right. exists (i + Z.of_nat (length packet) - 1). split; [apply timeline_add_some; right; lia|lia].
    + destruct Hla as [?|(j & Hj & ?)]; [by left|right]. exists j. split; [apply timeline_add_some; by left|done].
Qed.

(** *** Reading *)

Lemma slots_next (delay r : Z) (fs : list media_frame_t) (M : gmap Z (list Z)) (f : media_frame_t) :
  slots delay r fs M → fs !! slot r = Some f → M !! (r + count - delay) = None →
  slots delay (r + 1) (<[slot r := slot_cleared f]> fs) M.
Proof.
  intros Hs Hf Hnew k Hk. destruct (decide (k = r + count)) as [->|Hne].
  - replace (slot (r + count)) with (slot r)
      by (f_equal; rewrite <- (Z.mul_1_l count) at 2; by rewrite Z.mod_add by lia).
    rewrite list_lookup_insert_eq by (by eapply lookup_lt_Some). eexists. split; [done|]. by rewrite Hnew.
  - rewrite list_lookup_insert_ne by (intros He; apply (slot_inj r) in He; lia).
    apply Hs. lia.
Qed.

Lemma stat_update_fields (jb : mpf_jitter_buffer_t) :
  ∃ mn mx c, mpf_jitter_buffer_stat_update jb = set_stat jb mn mx c.
Proof. unfold mpf_jitter_buffer_stat_update. repeat case_decide; by repeat eexists. Qed.

(** A read plays the frame that is due, and leaves the offset alone. *)
Lemma read_plays (delay : Z) (jb : mpf_jitter_buffer_t) (r : Z) (M : gmap Z (list Z)) (out : media_frame_t) :
  playing delay jb r M → (r + 1 + count) * fts < 2 ^ 32 →
  ∃ f jb', mpf_jitter_buffer_read jb out = Ok (f, jb') ∧ heard f = M !! (r - delay) ∧
    playing delay jb' (r + 1) M ∧ write_sync jb' = write_sync jb ∧
    write_ts_offset jb' = write_ts_offset jb ∧ playout_delay_ts jb' = playout_delay_ts jb.
Proof.
  intros Hp Hnext. pose proof Hp as [Hc Ht Hz Hrd [Hr0 Hr] Hdl Hs Hwr Hah Hla].
  destruct (Hs r ltac:(lia)) as (f & Hf & Hm).
  unfold mpf_jitter_buffer_read. rewrite Hrd, frame_get_slot by done. cbn [mbind res_bind].
  rewrite Hf. cbn [mbind res_bind deref]. rewrite (update_slot_eq _ _ _ f Hf). cbn [mbind res_bind].
  set (jb1 := set_pos _ _ _).
  assert (Hp1 : playing delay jb1 (r + 1) M).
  { subst jb1. constructor; try done; simpl.
    - rewrite Hrd, Ht, wrap_u_small; nia.
    - lia.
    - apply slots_next; [done..|]. destruct (M !! (r + count - delay)) eqn:Hn; [|done].
      apply Hah in Hn. lia.
    - intros j data Hj Hrj. apply (Hwr j data); [done|lia].
    - intros j data Hj. apply Hah in Hj. lia.
    - destruct Hla as [?|(j & Hj & ?)]; [left; nia|right; by exists j]. }
  eexists _, _. split; [done|]. split.
  - destruct (M !! (r - delay)) as [data|] eqn:HM.
    + destruct Hm as [Hty <-]. specialize (Hwr _ _ HM ltac:(lia)).
      rewrite decide_True by nia. unfold heard. simpl. by rewrite Hty.
    + case_decide; [unfold heard; simpl; by rewrite Hm|done].
  - destruct (time_skew_detection (config jb1)); [|done].
    destruct (stat_update_fields jb1) as (mn & mx & c & ->).
    split; [|done]. destruct Hp1. by constructor.
Qed.

(** *** The stream *)

(** The buffer follows the timeline. *)
Definition follows (jb : mpf_jitter_buffer_t) (delay : option Z) (r : Z) (M : gmap Z (list Z)) : Prop :=
  match delay with
  | Some dl => playing dl jb r M ∧ synced dl jb
  | None => M = ∅ ∧ playing 0 jb r ∅ ∧ write_sync jb = true
  end.

Lemma arrive_follows (jb : mpf_jitter_buffer_t) (delay : option Z) (r i dl : Z) (marker : bool)
    (M M' : gmap Z (list Z)) (packet : list (list Z)) :
  follows jb delay r M → timeline_sync d delay r M i marker = (dl, M') →
  packet ≠ [] → Forall (λ f, Z.of_nat (length f) = size) packet →
  r ≤ dl + i → dl + i + Z.of_nat (length packet) ≤ r + count →
  ∃ jb', mpf_jitter_buffer_write jb (mjoin packet) (u32 (T + i * frame_ts jb)) marker = Ok (JB_OK, jb') ∧
    follows jb' (Some dl) r (timeline_add M' i packet).
Proof.
  intros Hf Hsync Hne HF Hlo Hhi. assert (0 < Z.of_nat (length packet)) by (destruct packet; [done|simpl; lia]).
  set (b := default 0 delay).
  assert (playing b jb r M) as Hp by (destruct delay; [apply Hf|by destruct Hf as (-> & ? & _)]).
  pose proof (pl_range _ _ _ _ Hp) as [Hr0 Hr]. rewrite (pl_ts _ _ _ _ Hp).
  assert (∃ jb1, mpf_jitter_buffer_write_prepare (marked jb marker) (u32 (T + i * fts)) = Ok (jb1, (dl + i) * fts) ∧
    playing dl jb1 r M' ∧ synced dl jb1) as (jb1 & Hprep & Hp1 & Hsy1).
  2: { destruct (write_plays dl jb jb1 r i (u32 (T + i * fts)) marker M' packet) as (jb' & ? & ? & ?); try done.
       by exists jb'. }
  assert (∀ jb2, playing b jb2 r ∅ → write_sync jb2 = true → dl = r + d - i → M' = ∅ →
    ∃ jb1, mpf_jitter_buffer_write_prepare jb2 (u32 (T + i * fts)) = Ok (jb1, (dl + i) * fts) ∧
      playing dl jb1 r M' ∧ synced dl jb1) as Hfirst.
  { intros jb2 Hp2 Hs2 -> ->. apply (prepare_first jb2 r i b); [done..|nia]. }
  unfold marked. rewrite (awaits_write b _ _ _ Hp). destruct delay as [dl0|]; subst b; simpl in *.
  - destruct Hf as [Hp0 Hsy0]. destruct (marker && negb (awaits dl0 r M)) eqn:Em; injection Hsync as <- <-.
    + apply andb_true_iff in Em as [_ Em%negb_true_iff].
      apply Hfirst; try done. pose proof (playing_idle _ _ _ _ Hp0 Em) as []. by constructor.
    + exists jb. split; [|done]. apply prepare_synced; [apply Hp|done|nia].
  - destruct Hf as (-> & Hp0 & Hs0). injection Hsync as <- <-.
    apply Hfirst; try done; destruct (marker && _); [|done..]. destruct Hp. by constructor.
Qed.

Lemma follows_play (out : media_frame_t) (ops : list stream_op) :
  ∀ (jb : mpf_jitter_buffer_t) (delay : option Z) (r : Z) (M : gmap Z (list Z)),
  follows jb delay r M → in_time count fts size d delay r M ops →
  jb_play T out jb ops = Ok (timeline_play d delay r M ops).
Proof.
  induction ops as [|[i marker packet|] ops IH]; intros jb delay r M Hf Hin; cbn [jb_play timeline_play in_time] in *;
    [done| |].
  - destruct (timeline_sync d delay r M i marker) as [dl M'] eqn:Hsync. destruct Hin as (Hne & HF & Hlo & Hhi & Hin).
    destruct (arrive_follows jb delay r i dl marker M M' packet) as (jb' & -> & Hf'); try done.
    cbn [mbind res_bind]. by apply IH.
  - destruct Hin as [Hnext Hin].
    assert (∃ f jb', mpf_jitter_buffer_read jb out = Ok (f, jb') ∧ heard f = (delay ≫= λ dl, M !! (r - dl)) ∧
      follows jb' delay (r + 1) M) as (f & jb' & -> & Hh & Hf').
    { destruct delay as [dl|]; simpl in *.
      - destruct Hf as [Hp Hsy]. destruct (read_plays dl jb r M out Hp Hnext) as (f & jb' & ? & ? & ? & Hw & Ho & Hdl).
        exists f, jb'. split_and!; try done; unfold synced in *; rewrite ?Hw, ?Ho, ?Hdl; apply Hsy.
      - destruct Hf as (-> & Hp & Hs). destruct (read_plays 0 jb r ∅ out Hp Hnext) as (f & jb' & ? & ? & ? & Hw & _).
        exists f, jb'. split_and!; try done. by rewrite Hw. }
    cbn [mbind res_bind]. by rewrite (IH jb' delay (r + 1) M Hf' Hin), Hh.
Qed.
End Playout.

Lemma create_playing (cfg : option mpf_jb_config_t) (ch rate bits d : Z)
    (uninit : nat → list Z * mpf_named_event_frame_t) :
  config_ok (default mpf_jb_config_init cfg) → codec_ok ch rate bits →
  let jb := mpf_jitter_buffer_create cfg ch rate bits uninit in
  playout_delay_ts jb = frame_ts jb * d →
  playing (frame_count jb) (frame_ts jb) (frame_size jb) d 0 jb 0 ∅.
Proof.
  intros Hcfg Hcodec jb Hd.
  destruct (create_spec cfg ch rate bits uninit Hcfg Hcodec) as (Hf & Hs & Hc & Hl & _).
  fold jb in Hf, Hs, Hc, Hl. constructor; try done.
  - nia.
  - intros k Hk. pose proof (Z.mod_pos_bound k (frame_count jb) ltac:(lia)).
    destruct (lookup_lt_is_Some_2 (frames jb) (Z.to_nat (k mod frame_count jb))) as [f Hfr]; [lia|].
    exists f. split; [done|]. rewrite lookup_empty. simpl in Hfr.
    by apply list_lookup_fmap_Some in Hfr as (x & -> & _).
  - by left.
Qed.

(** C26: The jitter buffer plays the stream.  Packets of whole frames come in any
    order, possibly more than once, marked or not, each before its frames are due
    and at most the length of the buffer ahead, with reads in between, as long as
    the positions in the buffer stay below 2^32.  Then the reads play exactly what
    the timeline says: when [d] is the initial playout delay in frames and the
    first packet, with number [i], came after [n] reads, frame [j] is played at
    read [n + d + j - i], and what has not come is silence.  A marked packet that
    comes when no frame waits to be played starts the timeline anew in the same
    way.  In particular jitter up to the playout delay is never heard. *)
Theorem stream_played (cfg : option mpf_jb_config_t) (ch rate bits T : Z)
    (uninit : nat → list Z * mpf_named_event_frame_t) (out : media_frame_t) (stream : list stream_op) :
  config_ok (default mpf_jb_config_init cfg) → codec_ok ch rate bits →
  let jb := mpf_jitter_buffer_create cfg ch rate bits uninit in
  let d := initial_playout_delay (config jb) / CODEC_FRAME_TIME_BASE in
  in_time (frame_count jb) (frame_ts jb) (frame_size jb) d None 0 ∅ stream →
  jb_play T out jb stream = Ok (timeline_play d None 0 ∅ stream).
Proof.
  intros Hcfg Hcodec jb d Hin.
  destruct (create_spec cfg ch rate bits uninit Hcfg Hcodec) as (Hf & Hs & Hc & Hl & (d' & Hd & Hi & Hp) & _).
  fold jb in Hf, Hs, Hc, Hl, Hi, Hp.
  assert (d = d') as -> by (subst d; rewrite Hi, Z.mul_comm, Z.div_mul by lia; lia).
  apply (follows_play T (frame_count jb) (frame_ts jb) (frame_size jb) d'); [lia..| |done].
  split_and!; [done|by apply create_playing|done].
Qed.

(** A buffer with a delay of 20 ms: the second packet comes after the third
    one, in time; then a marked packet starts a talkspurt. *)
Lemma stream_played_witness :
  let jb := mpf_jitter_buffer_create (Some (mk_jb_config 0 20 100 false true)) 1 8000 8
              (λ _, ([], mk_event 0 0 0 0 0)) in
  let stream := [Play; Arrive 0 true [replicate 80 1]; Play; Arrive 2 false [replicate 80 3]; Play;
                 Arrive 1 false [replicate 80 2]; Play; Play; Play;
                 Arrive 50 true [replicate 80 4]; Play; Play; Play] in
  jb_play 4294967000 (mk_media 0 MPF_MARKER_NONE [] (mk_event 0 0 0 0 0)) jb stream
    = Ok [None; None; None; Some (replicate 80 1); Some (replicate 80 2); Some (replicate 80 3);
          None; None; Some (replicate 80 4)].
Proof.
  etrans.
  - apply (stream_played (Some (mk_jb_config 0 20 100 false true)) 1 8000 8 4294967000
      (λ _, ([], mk_event 0 0 0 0 0))).
    + constructor; [by split|reflexivity|by right].
    + unfold codec_ok. lia.
    + vm_compute. repeat split; try discriminate; repeat constructor.
  - vm_compute. reflexivity.
Defined.

(** ** Packets that come too early *)

(** A packet further ahead than the buffer is long is not discarded: the
    number of available frames is unsigned, so the test for at most zero
    holds only when the packet is exactly the length of the buffer ahead.
    The packet is accepted, and goes into the slot of the frame one length of
    the buffer earlier, which is still to be played. *)
Theorem early_packet_overwrites (jb : mpf_jitter_buffer_t) (k ts : Z) (f : list Z) :
  jb_ok jb → write_sync jb = false → Z.of_nat (length f) = frame_size jb → 0 < frame_size jb →
  u32 (ts - write_ts_offset jb + playout_delay_ts jb) = k * frame_ts jb →
  read_ts jb + frame_count jb * frame_ts jb < k * frame_ts jb → 0 ≤ read_ts jb →
  read_ts jb mod frame_ts jb = 0 →
  ∃ jb' i old, mpf_jitter_buffer_write jb f ts false = Ok (JB_OK, jb') ∧
    mpf_jitter_buffer_frame_get jb ((k - frame_count jb) * frame_ts jb) = Ok i ∧
    frames jb !! i = Some old ∧ frames jb' !! i = Some (audio_written f old).
Proof.
  intros Hjb Hs Hf Hsz Hpos Hahead Hrd Hal. pose proof Hjb as [Ht Hc Hl _ _ _].
  set (fts := frame_ts jb) in *. set (c := frame_count jb) in *.
  set (i := Z.to_nat (k mod c)).
  assert (Hk : 0 ≤ k * fts < 2 ^ 32) by (rewrite <- Hpos; by apply wrap_u_range).
  destruct (lookup_lt_is_Some_2 (frames jb) i) as [old Hold].
  { pose proof (Z.mod_pos_bound k c Hc). lia. }
  apply Z.div_exact in Hal; [|lia]. set (r := read_ts jb / fts) in *.
  assert (Hrk : r + c < k) by nia. assert (0 ≤ r) by nia.
  exists (jb_advance (set_frames jb (<[i := audio_written f old]> (frames jb))) (u32 (k * fts + fts))), i, old.
  split_and!; [| |done|].
  - unfold mpf_jitter_buffer_write, mpf_jitter_buffer_write_prepare. cbn [andb]. rewrite Hs. cbn zeta.
    rewrite Hpos. fold fts. unfold umod, udiv.
    rewrite decide_False, Z.mod_mul by lia. cbn [mbind res_bind mret res_ret].
    rewrite (decide_False (P := 0 ≠ 0)) by tauto. rewrite decide_True by lia. cbn [mbind res_bind mret res_ret].
    rewrite Hal. replace (k * fts - fts * r) with ((k - r) * fts) by lia.
    fold fts. rewrite (wrap_u_small 32), decide_False, Z.div_mul by nia. cbn [mbind res_bind].
    fold c. assert (Hav : 0 < usz (c - (k - r))).
    { unfold wrap_u. rewrite <- (Z.mod_add _ 1) by lia. rewrite Z.mod_small; nia. }
    rewrite decide_False by lia.
    destruct f as [|x f'] eqn:Hf'; [simpl in Hf; lia|]. rewrite <- Hf' in *.
    replace (length f) with (S (length f')) by (by subst f). cbn [jb_write_frames].
    rewrite decide_False by (rewrite Hf'; intros [?|?]; [lia|done]).
    fold fts. rewrite frame_get_eq by done. fold fts c. rewrite Z.div_mul by lia. cbn [mbind res_bind].
    rewrite <- Hf, <- (app_nil_r f) at 1. rewrite (dissect_frame (Z.of_nat (length f))) by lia.
    fold i. rewrite (update_slot_eq _ _ _ old Hold). cbn [mbind res_bind].
    destruct (length f'); cbn [jb_write_frames]; [done|]. by rewrite decide_True by auto.
  - rewrite frame_get_eq by done. fold fts c. rewrite Z.div_mul by lia.
    replace (k - c) with (k + (-1) * c) by lia. by rewrite Z.mod_add by lia.
  - unfold jb_advance. case_decide; simpl; apply list_lookup_insert_eq; by eapply lookup_lt_Some.
Qed.

(** A buffer of 100 ms with a packet of 20 ms in it. *)
Definition waiting : mpf_jitter_buffer_t :=
  let jb := mpf_jitter_buffer_create (Some (mk_jb_config 0 0 100 false true)) 1 8000 8
              (λ _, ([], mk_event 0 0 0 0 0)) in
  match mpf_jitter_buffer_write jb (replicate 80 1 ++ replicate 80 2) 5000 false with
  | Ok (_, jb) => jb
  | Fault => jb
  end.

Lemma early_packet_overwrites_witness :
  ∃ jb' i old, mpf_jitter_buffer_write waiting (replicate 80 9) (5000 + 11 * 80) false = Ok (JB_OK, jb') ∧
    mpf_jitter_buffer_frame_get waiting ((11 - frame_count waiting) * frame_ts waiting) = Ok i ∧
    frames waiting !! i = Some old ∧ frames jb' !! i = Some (audio_written (replicate 80 9) old).
Proof.
  apply (early_packet_overwrites waiting 11 (5000 + 11 * 80) (replicate 80 9));
    try (vm_compute; reflexivity); [|vm_compute; discriminate].
  constructor; try (vm_compute; reflexivity); try (vm_compute; discriminate).
Defined.

(** ** New segments of an event *)

Lemma event_update_base (jb : mpf_jitter_buffer_t) (ts : Z) (e : mpf_named_event_frame_t) :
  event_update (set_event jb ts e (Some EventBase)) = Ok e.
Proof. done. Qed.

Lemma stale_itself (e : mpf_named_event_frame_t) : jb_stale_update e e = true.
Proof.
  unfold jb_stale_update. rewrite (bool_decide_eq_true_2 (event_duration e = _)) by done.
  rewrite (bool_decide_eq_true_2 (edge e = edge e)) by done. by rewrite !orb_true_r.
Qed.

(** A packet that starts a new segment of a long event writes nothing: it
    becomes the base and the last update of the event first, so that it is
    then taken for a retransmission of itself. *)
Theorem new_segment_ignored (jb jb1 : mpf_jitter_buffer_t) (e u : mpf_named_event_frame_t) (ts wts : Z) :
  mpf_jitter_buffer_write_prepare jb ts = Ok (jb1, wts) →
  event_id (event_write_base jb1) = event_id e → event_update jb1 = Ok u →
  event_write_base_ts jb1 ≠ wts →
  wts ≤ u32 (u32 (event_write_base_ts jb1 + event_duration u) + u32 (4 * frame_ts jb1)) →
  mpf_jitter_buffer_event_write jb e ts false
    = Ok (JB_OK, set_event jb1 wts e (Some EventBase)).
Proof.
  intros Hprep Hid Hu Hne Hle. unfold mpf_jitter_buffer_event_write. rewrite Hprep. cbn [mbind res_bind].
  unfold jb_new_event. rewrite decide_False by tauto.
  destruct (event_write_update jb1) as [p|] eqn:Hp; [|by unfold event_update in Hu; rewrite Hp in Hu].
  rewrite decide_False by done. rewrite Hu. cbn [mbind res_bind mret res_ret].
  rewrite bool_decide_eq_false_2 by lia. rewrite event_update_base. cbn [mbind res_bind].
  by rewrite stale_itself.
Qed.

(** A tone of which a segment has been written. *)
Definition toning : mpf_jitter_buffer_t :=
  match mpf_jitter_buffer_event_write waiting (mk_event 5 10 0 0 65535) 5000 true with
  | Ok (_, jb) => jb
  | Fault => waiting
  end.

Lemma new_segment_ignored_witness :
  mpf_jitter_buffer_event_write toning (mk_event 5 10 0 0 160) 70535 false
    = Ok (JB_OK, set_event toning 65520 (mk_event 5 10 0 0 160) (Some EventBase)).
Proof.
  apply (new_segment_ignored toning toning (mk_event 5 10 0 0 160) (mk_event 5 10 0 0 65535));
    vm_compute; (reflexivity || discriminate).
Defined.

(** ** Restart *)

(** What the reads play, in a sequence of operations. *)
Fixpoint jb_heard (jb : mpf_jitter_buffer_t) (ops : list jb_op) : res (list (option (list Z))) :=
  match ops with
  | [] => mret []
  | JbRead out :: ops =>
    '(f, jb) ← mpf_jitter_buffer_read jb out;
    rest ← jb_heard jb ops;
    mret (heard f :: rest)
  | op :: ops => jb ← jb_step jb op; jb_heard jb ops
  end.

(** A restart does not empty the buffer: frames of the old stream that
    were still waiting are played in front of the new stream and in its gaps.
    Here two frames of the old stream are played while the first packet of the
    new one waits for its playout delay, and two more after it. *)
Theorem restart_plays_old_frames :
  let jb := mpf_jitter_buffer_create (Some (mk_jb_config 0 20 100 false true)) 1 8000 8
              (λ _, ([], mk_event 0 0 0 0 0)) in
  let read := JbRead (mk_media 0 MPF_MARKER_NONE [] (mk_event 0 0 0 0 0)) in
  let fr x := replicate 80 x in
  jb_heard jb
    [JbWrite (fr 1 ++ fr 2 ++ fr 3 ++ fr 4 ++ fr 5) 5000 true; read; read; JbRestart;
     JbWrite (fr 9) 700 true; read; read; read; JbWrite (fr 8) (700 + 3 * 80) false; read; read; read]
  = Ok [None; None; Some (fr 1); Some (fr 2); Some (fr 9); Some (fr 4); Some (fr 5); Some (fr 8)].
Proof. vm_compute. reflexivity. Qed.

(** ** Short buffers *)

(** A maximal delay of less than a frame makes a buffer of no frames, and the
    first read or write divides by zero. *)
Lemma short_buffer_faults (cfg : mpf_jb_config_t) (ch rate bits : Z)
    (uninit : nat → list Z * mpf_named_event_frame_t) (out : media_frame_t) :
  0 ≤ initial_playout_delay cfg ≤ max_playout_delay cfg → 0 < max_playout_delay cfg < 10 →
  mpf_jitter_buffer_read (mpf_jitter_buffer_create (Some cfg) ch rate bits uninit) out = Fault.
Proof.
  intros Hi Hm. set (jb := mpf_jitter_buffer_create _ _ _ _ _).
  assert (Hc : frame_count jb = 0).
  { simpl. unfold jb_config_validate. simpl. repeat case_decide; try lia; apply Z.div_small; lia. }
  unfold mpf_jitter_buffer_read, mpf_jitter_buffer_frame_get, udiv, umod. rewrite Hc.
  by destruct (decide (frame_ts jb = 0)).
Qed.
