(* ===== verification/AliPlugin.v ===== *)
(** * AliPlugin: the engine channel of the Ali recognizer plugin
    ([Ali_recog_engine.cpp]).

    The task of the plugin processes the requests of the server, the media
    thread writes the audio frames.  An operation returns the messages it sends
    to the server in order; sending succeeds.  The plugin reads three fields of
    the recognizer header and writes the completion cause.  The JSON writer is
    the argument [json], the numbers of the methods and events are those of
    [mrcp_recog_resource.h]; [RECOGNIZER_INTERMEDIATE_COMPLETE], which the
    plugin uses, is not one of them and is an argument. *)
From S2P Require Import Prelude CString StringTable TextStream StartLine HeaderSection.
From S2P Require Import TextMessage GenericHeader MrcpMessage StateMachine RecogMachine.
From S2P Require Import AliResource AliChannel AliEngine Detector.

Notation RECOGNIZER_START_INPUT_TIMERS := 6 (only parsing).
Notation RECOGNIZER_START_OF_INPUT := 0 (only parsing).
Notation RECOGNIZER_RECOGNITION_COMPLETE := 1 (only parsing).
Notation RECOGNIZER_HEADER_NO_INPUT_TIMEOUT := 4 (only parsing).
Notation RECOGNIZER_HEADER_START_INPUT_TIMERS := 9 (only parsing).
Notation RECOGNIZER_HEADER_SPEECH_COMPLETE_TIMEOUT := 10 (only parsing).
Notation RECOGNIZER_COMPLETION_CAUSE_NO_INPUT_TIMEOUT := 2 (only parsing).

(** The fields of [mrcp_recog_header_t] the plugin reads. *)
Class RecogHeader (R : Type) := {
  start_input_timers : R → bool;
  no_input_timeout : R → Z;
  speech_complete_timeout : R → Z
}.

Record Ali_recog_channel_t (R : Type) := mk_recog_channel {
  recog_request : option (@mrcp_message_t R);
  stop_response : option (@mrcp_message_t R);
  timers_started : bool;
  detector : mpf_activity_detector_t
}.
Arguments mk_recog_channel {R} _ _ _ _.
Arguments recog_request {R} _.
Arguments stop_response {R} _.
Arguments timers_started {R} _.
Arguments detector {R} _.

Section Plugin.
  Context `{AprFormat} {R : Type} `{CompletionCause R, RecogHeader R} (fresh : apt_pair_t) (uninit : nat).
  Context (json : cstr → cstr) (RECOGNIZER_INTERMEDIATE_COMPLETE : nat).
  Notation channel := (Ali_recog_channel_t R).
  Notation message := (@mrcp_message_t R).
  Notation ali := (engine addr).

(** [apr_palloc] leaves [timers_started] as it was. *)
Definition Ali_recog_channel_create (garbage : bool) : channel :=
  mk_recog_channel None None garbage mpf_activity_detector_create.

(** Prepare the resource header, set the completion cause and add the property
    [id]. *)
Definition completion_cause_set (m : message) (cause id : nat) : res message :=
  let m := mrcp_resource_header_prepare m in
  match mrcp_resource_header_get m with
  | None => Ok m
  | Some d =>
      let m := with_resource_accessor m
                 (mk_accessor (Some (set_completion_cause d cause))
                    (acc_vtable (resource_header_accessor (header m)))) in
      '(_, m) ← mrcp_resource_header_property_add m id;
      Ok m
  end.

(** ** Requests: the flag [processed], the response, the channel, the engine and
    the messages sent *)

Definition recognize_timers (ch : channel) (request : message) : channel :=
  let ch := mk_recog_channel (recog_request ch) (stop_response ch) true (detector ch) in
  match mrcp_resource_header_get request with
  | None => ch
  | Some h =>
      let started := if mrcp_resource_header_property_check request RECOGNIZER_HEADER_START_INPUT_TIMERS
                     then start_input_timers h else timers_started ch in
      let d := if mrcp_resource_header_property_check request RECOGNIZER_HEADER_NO_INPUT_TIMEOUT
               then mpf_activity_detector_noinput_timeout_set (detector ch) (no_input_timeout h)
               else detector ch in
      let d := if mrcp_resource_header_property_check request RECOGNIZER_HEADER_SPEECH_COMPLETE_TIMEOUT
               then mpf_activity_detector_silence_timeout_set d (speech_complete_timeout h) else d in
      mk_recog_channel (recog_request ch) (stop_response ch) started d
  end.

Definition Ali_recog_channel_recognize (ch : channel) (e : ali) (pCh : addr) (request response : message)
    (se : start_env) : res (bool * message * channel * ali * list message) :=
  if se_descriptor se then
    let ch := recognize_timers ch request in
    '(_, e) ← EngineReocgStart e pCh se;
    let response := set_message_state response MRCP_REQUEST_STATE_INPROGRESS in
    Ok (true, response, mk_recog_channel (Some request) (stop_response ch) (timers_started ch) (detector ch),
        e, [response])
  else Ok (false, set_status response MRCP_STATUS_CODE_METHOD_FAILED, ch, e, []).

Definition Ali_recog_channel_stop (ch : channel) (response : message) : channel :=
  mk_recog_channel (recog_request ch) (Some response) (timers_started ch) (detector ch).

Definition Ali_recog_channel_timers_start (ch : channel) (response : message) : channel * list message :=
  (mk_recog_channel (recog_request ch) (stop_response ch) true (detector ch), [response]).

Definition Ali_recog_channel_request_dispatch (ch : channel) (e : ali) (pCh : addr) (request : message)
    (se : start_env) : res (channel * ali * list message) :=
  let response := mrcp_response_create fresh uninit (Some request) in
  '(processed, response, ch, e, out) ←
    (if decide (method_id (start_line request) = RECOGNIZER_RECOGNIZE)
     then Ali_recog_channel_recognize ch e pCh request response se
     else if decide (method_id (start_line request) = RECOGNIZER_START_INPUT_TIMERS)
     then let '(ch, out) := Ali_recog_channel_timers_start ch response in Ok (true, response, ch, e, out)
     else if decide (method_id (start_line request) = RECOGNIZER_STOP)
     then Ok (true, response, Ali_recog_channel_stop ch response, e, [])
     else Ok (false, response, ch, e, []));
  Ok (ch, e, if (processed : bool) then out else out ++ [response]).

(** ** Audio *)

Definition Ali_recog_start_of_input (ch : channel) : list message :=
  [set_message_state (mrcp_event_create fresh uninit (recog_request ch) RECOGNIZER_START_OF_INPUT)
     MRCP_REQUEST_STATE_INPROGRESS].

Definition Ali_recog_recognition_complete (ch : channel) (cause : nat) : res (channel * list message) :=
  m ← completion_cause_set
        (mrcp_event_create fresh uninit (recog_request ch) RECOGNIZER_RECOGNITION_COMPLETE)
        cause RECOGNIZER_HEADER_COMPLETION_CAUSE;
  Ok (mk_recog_channel None (stop_response ch) (timers_started ch) (detector ch),
      [set_message_state m MRCP_REQUEST_STATE_COMPLETE]).

(** The switch over the event of the detector. *)
Definition detector_event (ch : channel) (ev : mpf_detector_event_e) : res (channel * list message) :=
  match ev with
  | MPF_DETECTOR_EVENT_ACTIVITY => Ok (ch, Ali_recog_start_of_input ch)
  | MPF_DETECTOR_EVENT_INACTIVITY =>
      Ali_recog_recognition_complete ch RECOGNIZER_COMPLETION_CAUSE_SUCCESS
  | MPF_DETECTOR_EVENT_NOINPUT =>
      if timers_started ch
      then Ali_recog_recognition_complete ch RECOGNIZER_COMPLETION_CAUSE_NO_INPUT_TIMEOUT
      else Ok (ch, [])
  | MPF_DETECTOR_EVENT_NONE => Ok (ch, [])
  end.

(** The event that carries a result: the property it adds has the number of the
    completion cause, not of the header field. *)
Definition result_event (request : message) (mode : recog_mod) (result : cstr) : res message :=
  let '(event_id, event_stat) :=
    match mode with
    | RECOGNIZER => (RECOGNIZER_RECOGNITION_COMPLETE, MRCP_REQUEST_STATE_COMPLETE)
    | TRANSCRIBER => (RECOGNIZER_INTERMEDIATE_COMPLETE, MRCP_REQUEST_STATE_INPROGRESS)
    end in
  let text := json result in
  m ← completion_cause_set (mrcp_event_create fresh uninit (Some request) event_id)
        RECOGNIZER_COMPLETION_CAUSE_SUCCESS RECOGNIZER_COMPLETION_CAUSE_SUCCESS;
  let m := set_message_state m event_stat in
  let m := with_body m (apt_string_assign_n text (length text)) in
  let m := mrcp_generic_header_prepare m in
  match mrcp_generic_header_get m with
  | None => Ok m
  | Some _ =>
      let m := generic_header_update m (set_string_field GENERIC_HEADER_CONTENT_TYPE
                 (apt_string_assign (Some (lit "application/json")))) in
      '(_, m) ← mrcp_generic_header_property_add m (generic_header_num GENERIC_HEADER_CONTENT_TYPE);
      Ok m
  end.

(** [frame_at] is the address of the frame.  The flag is false when the media thread
    waits for room in the queue of the channel. *)
Definition Ali_recog_stream_write (ch : channel) (e : ali) (pCh : addr) (mode : recog_mod)
    (frame_at : addr) (frame : mpf_frame_t) : res (bool * channel * ali * list message) :=
  match stop_response ch with
  | Some response => Ok (true, mk_recog_channel None None (timers_started ch) (detector ch), e, [response])
  | None =>
      match recog_request ch with
      | None => Ok (true, ch, e, [])
      | Some _ =>
          '(ev, d) ← mpf_activity_detector_process (detector ch) frame;
          let ch := mk_recog_channel (recog_request ch) (stop_response ch) (timers_started ch) d in
          '(ch, out) ← detector_event ch ev;
          written ← EngineWriteFrame e pCh frame_at;
          match written with
          | None => Ok (false, ch, e, out)
          | Some (_, e) =>
              '(result, e) ← EngineRecogCompleted e pCh;
              match result, recog_request ch with
              | _ :: _, Some request =>
                  m ← result_event request mode result;
                  Ok (true, ch, e, out ++ [m])
              | _, _ => Ok (true, ch, e, out)
              end
          end
      end
  end.

(** The media thread closes the stream. *)
Definition Ali_recog_stream_close (e : ali) (pCh : addr) : res ali :=
  '(_, e) ← EngineReocgStop e pCh;
  Ok e.

End Plugin.
