(* ===== verification/AliPluginTheory.v ===== *)
(** * AliPluginTheory: the plugin answers every request once, and what it says
    when a result comes. *)
From S2P Require Import Prelude CString StringTable TextStream StartLine HeaderSection.
From S2P Require Import TextMessage GenericHeader MrcpMessage StateMachine StateMachineTheory RecogMachine.
From S2P Require Import AliResource AliChannel AliEngine AliEngineTheory Detector AliPlugin.

Section Theory.
  Context `{AprFormat} {R : Type} `{CompletionCause R, RecogHeader R} (fresh : apt_pair_t) (uninit : nat).
  Context (json : cstr → cstr) (INTERMEDIATE : nat).
  Notation channel := (Ali_recog_channel_t R).
  Notation message := (@mrcp_message_t R).
  Notation ali := (engine addr).
  Notation dispatch := (Ali_recog_channel_request_dispatch fresh uninit).
  Notation write := (Ali_recog_stream_write fresh uninit json INTERMEDIATE).

Lemma about_state (m r : message) (s : mrcp_request_state_e) (t : mrcp_message_type_e) :
  about m r t → about m (set_message_state r s) t.
Proof. done. Qed.

Lemma about_status (m r : message) (code : Z) (t : mrcp_message_type_e) :
  about m r t → about m (set_status r code) t.
Proof. done. Qed.

Lemma response_is_about (m : message) :
  message_ok m → about m (mrcp_response_create fresh uninit (Some m)) MRCP_MESSAGE_TYPE_RESPONSE.
Proof. intros Hm. by destruct (response_create_ok fresh uninit m Hm) as (_ & ?). Qed.

(** What the plugin does with a request. *)
Lemma dispatch_spec (ch : channel) (e : ali) (p : addr) (m : message) (se : start_env) :
  session_inv e → message_ok m →
  ∃ ch' e' out, dispatch ch e p m se = Ok (ch', e', out) ∧ session_inv e' ∧
    (∀ q, is_Some (sessions e !! q) → is_Some (sessions e' !! q)) ∧
    (recog_request ch' = recog_request ch ∨ recog_request ch' = Some m ∧ is_Some (sessions e' !! p)) ∧
    if decide (method_id (start_line m) = RECOGNIZER_STOP)
    then out = [] ∧ e' = e ∧ ∃ r, stop_response ch' = Some r ∧ message_ok r ∧
           about m r MRCP_MESSAGE_TYPE_RESPONSE
    else stop_response ch' = stop_response ch ∧
         ∃ r, out = [r] ∧ message_ok r ∧ about m r MRCP_MESSAGE_TYPE_RESPONSE.
Proof.
  intros He Hm. pose proof (response_is_about m Hm) as Hab.
  destruct (response_create_ok fresh uninit m Hm) as (Hok & _).
  unfold Ali_recog_channel_request_dispatch.
  destruct (decide (method_id (start_line m) = RECOGNIZER_RECOGNIZE)) as [Hrec|Hrec].
  - destruct (decide (method_id (start_line m) = RECOGNIZER_STOP)) as [Hs|_]; [by rewrite Hrec in Hs|].
    unfold Ali_recog_channel_recognize. destruct (se_descriptor se) eqn:Hd; cbn [mbind res_bind].
    + destruct (engine_start_spec p e se He Hd) as (b & e' & -> & He' & _ & Ho & Hp). cbn [mbind res_bind].
      assert (is_Some (sessions e' !! p)) as Hsome by (destruct Hp as [->|(? & ? & -> & _)]; by eexists).
      eexists _, e', _. split; [done|]. split; [done|]. split.
      { intros q Hq. destruct (decide (q = p)) as [->|Hne]; [done|by rewrite Ho]. }
      split; [by right|].
      split; [unfold recognize_timers; by destruct (mrcp_resource_header_get m)|].
      eexists. split; [done|]. split; [by apply with_line_ok|]. by apply about_state.
    + eexists _, e, _. split; [done|]. split; [done|]. split; [done|]. split; [by left|]. split; [done|].
      eexists. split; [done|]. split; [by apply with_line_ok|]. by apply about_status.
  - destruct (decide (method_id (start_line m) = RECOGNIZER_START_INPUT_TIMERS)) as [Ht|Ht].
    + destruct (decide (method_id (start_line m) = RECOGNIZER_STOP)) as [Hs|_]; [by rewrite Ht in Hs|].
      eexists _, e, _. split; [done|]. split; [done|]. split; [done|]. split; [by left|]. split; [done|].
      by eexists.
    + case_decide; eexists _, e, _; (split; [done|]); (split; [done|]); (split; [done|]); (split; [by left|]).
      * split; [done|]. split; [done|]. by eexists.
      * split; [done|]. by eexists.
Qed.

(** C20: the plugin answers every request exactly once.  Whatever the request and
    the state of the channel, the plugin does not fault and sends one response
    with the identifier and the method of the request: at once, or for STOP
    with the next audio frame, after which no recognition is in progress. *)
Theorem plugin_answers_once (ch : channel) (e : ali) (p : addr) (m : message) (se : start_env)
  (mode : recog_mod) (a : addr) (frame : mpf_frame_t) (He : session_inv e) (Hm : message_ok m) :
  ∃ ch' e' out r, dispatch ch e p m se = Ok (ch', e', out) ∧ session_inv e' ∧
    about m r MRCP_MESSAGE_TYPE_RESPONSE ∧
    if decide (method_id (start_line m) = RECOGNIZER_STOP)
    then out = [] ∧ ∃ ch'', write ch' e' p mode a frame = Ok (true, ch'', e', [r]) ∧
           recog_request ch'' = None ∧ stop_response ch'' = None
    else out = [r].
Proof.
  destruct (dispatch_spec ch e p m se He Hm) as (ch' & e' & out & E & He' & _ & _ & Hout).
  case_decide.
  - destruct Hout as (-> & -> & r & Hr & _ & Hab). exists ch', e, [], r. split_and!; try done.
    exists (mk_recog_channel None None (timers_started ch') (detector ch')). split; [|done].
    unfold Ali_recog_stream_write. by rewrite Hr.
  - destruct Hout as (_ & r & -> & _ & Hab). by exists ch', e', [r], r.
Qed.

(** ** Events *)

(** An event of the request [m]. *)
Definition event_of_request (m x : message) (event_id : nat) : Prop :=
  message_ok x ∧ request_id (start_line x) = request_id (start_line m) ∧
  method_id (start_line x) = event_id ∧ message_type (start_line x) = MRCP_MESSAGE_TYPE_EVENT.

Lemma event_create_ok (m : message) (id : nat) :
  message_ok m → event_of_request m (mrcp_event_create fresh uninit (Some m) id) id.
Proof.
  intros [(r & Hr & Hc) _]. unfold mrcp_event_create. rewrite Hr.
  match goal with |- context [mrcp_message_resource_set_by_id fresh ?x (Some r)] =>
    destruct (set_by_id_ok fresh x r Hc eq_refl) as (? & ? & ? & ?) end.
  by split_and!.
Qed.

Lemma event_set_state (m x : message) (id : nat) (s : mrcp_request_state_e) :
  event_of_request m x id → event_of_request m (set_message_state x s) id.
Proof. intros (Hx & ? & ? & ?). split_and!; try done. by apply with_line_ok. Qed.

Lemma cause_set_ok (m : message) (cause id : nat) :
  message_ok m → (Z.of_nat (id + GENERIC_HEADER_COUNT) < 2 ^ 64)%Z →
  ∃ m', completion_cause_set m cause id = Ok m' ∧ message_ok m' ∧ start_line m' = start_line m.
Proof.
  intros Hm Hid. unfold completion_cause_set. rewrite resource_prepare_id by done.
  pose proof Hm as [Hres [Hs Hi Hg [d Hd]]]. unfold mrcp_resource_header_get. rewrite Hd.
  match goal with |- context [mrcp_resource_header_property_add ?x id] =>
    assert (message_ok x) as Hx by (split; [done|]; split; try done; by eexists);
    destruct (resource_property_add_ok x id Hx Hid) as (b & m' & -> & Hm' & Hl) end.
  exists m'. by split_and!.
Qed.

Lemma result_event_ok (m : message) (mode : recog_mod) (result : cstr) :
  message_ok m →
  ∃ x, result_event fresh uninit json INTERMEDIATE m mode result = Ok x ∧
    event_of_request m x (match mode with RECOGNIZER => RECOGNIZER_RECOGNITION_COMPLETE
                          | TRANSCRIBER => INTERMEDIATE end).
Proof.
  intros Hm. unfold result_event.
  assert (∀ id st, ∃ x, (m0 ← completion_cause_set (mrcp_event_create fresh uninit (Some m) id)
      RECOGNIZER_COMPLETION_CAUSE_SUCCESS RECOGNIZER_COMPLETION_CAUSE_SUCCESS;
    let m1 := mrcp_generic_header_prepare (with_body (set_message_state m0 st)
      (apt_string_assign_n (json result) (length (json result)))) in
    match mrcp_generic_header_get m1 with
    | Some _ => '(_, m2) ← mrcp_generic_header_property_add (generic_header_update m1
        (set_string_field GENERIC_HEADER_CONTENT_TYPE (apt_string_assign (Some (lit "application/json")))))
        (generic_header_num GENERIC_HEADER_CONTENT_TYPE); Ok m2
    | None => Ok m1
    end) = Ok x ∧ event_of_request m x id) as Hgo; [|by destruct mode; apply Hgo].
  intros id st. destruct (event_create_ok m id Hm) as (Hx & Hid & Hmid & Ht).
  destruct (cause_set_ok _ RECOGNIZER_COMPLETION_CAUSE_SUCCESS RECOGNIZER_COMPLETION_CAUSE_SUCCESS Hx)
    as (m1 & -> & Hm1 & L1); [done|]. cbn [mbind res_bind].
  set (m2 := with_body _ _). assert (message_ok m2) as Hm2 by (by destruct Hm1; split).
  rewrite (generic_prepare_id m2 Hm2). pose proof Hm2 as [Hr2 [Hs2 Hi2 [g Hg] Hd2]].
  assert (mrcp_generic_header_get m2 = Some g) as -> by exact Hg.
  assert (message_ok (generic_header_update m2 (set_string_field GENERIC_HEADER_CONTENT_TYPE
    (apt_string_assign (Some (lit "application/json")))))) as Hm3.
  { split; [done|]. split; try done. simpl in Hg |- *. rewrite Hg. by eexists. }
  destruct (generic_property_add_ok _ (generic_header_num GENERIC_HEADER_CONTENT_TYPE) Hm3)
    as (b & x & -> & Hxo & Lx); [done|].
  exists x. split; [done|]. split; [done|]. rewrite Lx. simpl. by rewrite L1.
Qed.

(** ** The engine during a frame *)

Lemma write_frame_ok (e : ali) (p a : addr) :
  session_inv e → is_Some (sessions e !! p) →
  ∃ w, EngineWriteFrame e p a = Ok w ∧
    from_option (λ '(_, e'), session_inv e' ∧ sessions e' = sessions e ∧ recognizers e' = recognizers e)
      True w.
Proof.
  intros He [s Hs]. unfold EngineWriteFrame. rewrite Hs. cbn [deref mbind res_bind].
  destruct (ie_shape _ _ He p s) as [->|(l & re & -> & (c & Hc & Hb) & _)]; [done..| |]; simpl.
  { by eexists. }
  rewrite Hc. cbn [deref mbind res_bind]. unfold WriteFrame.
  destruct (ie_ready _ _ He l c Hc) as (Hm & [q Hq] & Hpath). rewrite Hq.
  destruct (m_starting c); [case_decide|]; eexists; (split; [done|]); simpl; try done;
    (split; [apply (inv_set_channel _ _ _ c); try done; by split_and!; eauto|done]).
Qed.

Lemma recog_completed_ok (e : ali) (p : addr) :
  session_inv e → is_Some (sessions e !! p) →
  ∃ x e', EngineRecogCompleted e p = Ok (x, e') ∧ session_inv e' ∧ sessions e' = sessions e.
Proof.
  intros He [s Hs]. unfold EngineRecogCompleted. rewrite Hs. cbn [deref mbind res_bind].
  destruct (ie_shape _ _ He p s) as [->|(l & re & -> & _ & _ & [r Hr])]; [done..| |].
  { by exists [], e. }
  rewrite Hr. cbn [deref mbind res_bind]. destruct (DoRecogResultGet r) as [x r'].
  eexists x, _. split; [done|]. split; [|done]. destruct He as [Hf Hrd Hp Hkn Hsh Hc Hre].
  assert (∀ y, is_Some (recognizers e !! y) → is_Some (<[re:=r']> (recognizers e) !! y)) as Hins.
  { intros y Hy. destruct (decide (re = y)) as [->|]; [rewrite lookup_insert_eq; by eexists|].
    by rewrite lookup_insert_ne. }
  split; try done; simpl; [by eauto|].
  intros q s Hne Hq. destruct (Hsh q s Hne Hq) as [?|(l' & re' & -> & Hb & Hin & Hk)]; [by left|right].
  exists l', re'. split_and!; eauto.
Qed.

(** ** A frame during a recognition *)

(** The messages are events of the request [m]; the recognition goes on, or the
    one message is the completion. *)
Definition frame_outcome (m : message) (ch' : channel) (out : list message) : Prop :=
  Forall (λ x, ∃ id, event_of_request m x id) out ∧
  (recog_request ch' = Some m ∨
   recog_request ch' = None ∧ ∃ x, out = [x] ∧ event_of_request m x RECOGNIZER_RECOGNITION_COMPLETE).

Lemma recognition_complete_ok (ch : channel) (m : message) (cause : nat) :
  recog_request ch = Some m → message_ok m →
  ∃ x, Ali_recog_recognition_complete fresh uninit ch cause =
      Ok (mk_recog_channel None (stop_response ch) (timers_started ch) (detector ch), [x]) ∧
    event_of_request m x RECOGNIZER_RECOGNITION_COMPLETE.
Proof.
  intros Hr Hm. unfold Ali_recog_recognition_complete. rewrite Hr.
  destruct (event_create_ok m RECOGNIZER_RECOGNITION_COMPLETE Hm) as (Hx & Hid & Hmid & Ht).
  destruct (cause_set_ok _ cause RECOGNIZER_HEADER_COMPLETION_CAUSE Hx) as (m1 & -> & Hm1 & L1); [done|].
  cbn [mbind res_bind]. eexists. split; [done|]. apply event_set_state. split; [done|]. by rewrite L1.
Qed.

Lemma detector_event_ok (ch : channel) (m : message) (ev : mpf_detector_event_e) :
  recog_request ch = Some m → message_ok m →
  ∃ ch' out, detector_event fresh uninit ch ev = Ok (ch', out) ∧ stop_response ch' = stop_response ch ∧
    frame_outcome m ch' out.
Proof.
  intros Hr Hm.
  assert (frame_outcome m ch []) as Hnone by (split; [constructor|by left]).
  assert (∀ cause, ∃ ch' out, Ali_recog_recognition_complete fresh uninit ch cause = Ok (ch', out) ∧
    stop_response ch' = stop_response ch ∧ frame_outcome m ch' out) as Hcomplete.
  { intros cause. destruct (recognition_complete_ok ch m cause Hr Hm) as (x & -> & Hx).
    eexists _, _. split; [done|]. split; [done|]. split; [apply Forall_singleton; by eexists|right].
    split; [done|by eexists]. }
  destruct ev; cbn [detector_event].
  - by exists ch, [].
  - exists ch, (Ali_recog_start_of_input fresh uninit ch). split; [done|]. split; [done|]. split; [|by left].
    apply Forall_singleton. exists RECOGNIZER_START_OF_INPUT. rewrite Hr.
    by apply event_set_state, event_create_ok.
  - apply Hcomplete.
  - destruct (timers_started ch); [apply Hcomplete|by exists ch, []].
Qed.

Lemma recognition_frame_spec (ch : channel) (e : ali) (p : addr) (mode : recog_mod) (a : addr)
  (frame : mpf_frame_t) (m : message) :
  session_inv e → is_Some (sessions e !! p) → stop_response ch = None → recog_request ch = Some m →
  message_ok m → is_ok (frame_level frame) = true →
  ∃ b ch' e' out, write ch e p mode a frame = Ok (b, ch', e', out) ∧ session_inv e' ∧
    sessions e' = sessions e ∧ stop_response ch' = None ∧ frame_outcome m ch' out.
Proof.
  intros He Hp Hstop Hreq Hm Hlevel.
  unfold Ali_recog_stream_write. rewrite Hstop, Hreq. unfold mpf_activity_detector_process at 1.
  destruct (frame_level frame) as [l|]; [|done]. cbn [mbind res_bind].
  match goal with |- context [let '(_, _) := ?x in _] => destruct x as [ev d] end.
  destruct (detector_event_ok (mk_recog_channel (Some m) None (timers_started ch) d) m ev)
    as (ch' & out & -> & Hs' & Hall & Hend); [done..|]. cbn [mbind res_bind]. simpl in Hs'.
  destruct (write_frame_ok e p a He Hp) as ([[w e1]|] & -> & Hw); cbn [mbind res_bind].
  2: { by exists false, ch', e, out. }
  destruct Hw as (He1 & Hs1 & _).
  destruct (recog_completed_ok e1 p He1 ltac:(by rewrite Hs1)) as (x & e2 & -> & He2 & Hs2).
  rewrite Hs1 in Hs2. cbn [mbind res_bind]. destruct x as [|b x]; [by exists true, ch', e2, out|].
  destruct Hend as [Hr|(Hr & Hx)]; rewrite Hr.
  2: { exists true, ch', e2, out. split_and!; try done. split; [done|by right]. }
  destruct (result_event_ok m mode (b :: x) Hm) as (y & -> & Hy). cbn [mbind res_bind].
  exists true, ch', e2, (out ++ [y]). split_and!; try done. split; [|by left].
  apply Forall_app. split; [done|]. apply Forall_singleton. by eexists.
Qed.

(** The frame is an audio frame without samples and the plugin recognizes. *)
Definition empty_audio (ch : channel) (frame : mpf_frame_t) : Prop :=
  stop_response ch = None ∧ is_Some (recog_request ch) ∧ no_samples frame.

(** What the plugin does with a frame, whatever it is doing. *)
Lemma frame_spec (ch : channel) (e : ali) (p : addr) (mode : recog_mod) (a : addr) (frame : mpf_frame_t) :
  session_inv e → ¬ empty_audio ch frame →
  from_option (λ m, message_ok m ∧ is_Some (sessions e !! p)) True (recog_request ch) →
  ∃ b ch' e' out, write ch e p mode a frame = Ok (b, ch', e', out) ∧ session_inv e' ∧
    sessions e' = sessions e ∧ stop_response ch' = None ∧
    match stop_response ch, recog_request ch with
    | Some r, _ => out = [r] ∧ recog_request ch' = None
    | None, None => out = [] ∧ recog_request ch' = None
    | None, Some m => frame_outcome m ch' out
    end.
Proof.
  intros He Hlevel Hreq. destruct (stop_response ch) as [r|] eqn:Hs.
  { eexists true, _, e, [r]. unfold Ali_recog_stream_write. by rewrite Hs. }
  destruct (recog_request ch) as [m|] eqn:Hr.
  - destruct Hreq as [Hm Hp]. apply recognition_frame_spec; try done.
    pose proof (frame_level_spec frame) as Hf. destruct (frame_level frame); [done|].
    destruct Hlevel. split; [done|]. rewrite Hr. by split; [eexists|].
  - exists true, ch, e, []. unfold Ali_recog_stream_write. by rewrite Hs, Hr.
Qed.

Lemma level_not_empty (ch : channel) (frame : mpf_frame_t) :
  is_ok (frame_level frame) = true → ¬ empty_audio ch frame.
Proof.
  intros Hl (_ & _ & Hf). pose proof (frame_level_spec frame) as H'. by destruct (frame_level frame).
Qed.

Lemma empty_audio_faults (ch : channel) (e : ali) (p : addr) (mode : recog_mod) (a : addr) (frame : mpf_frame_t) :
  empty_audio ch frame → write ch e p mode a frame = Fault.
Proof.
  intros (Hs & [m Hr] & Hf). unfold Ali_recog_stream_write. rewrite Hs, Hr.
  unfold mpf_activity_detector_process. pose proof (frame_level_spec frame) as Hl.
  by destruct (frame_level frame).
Qed.

Lemma frame_faults (ch : channel) (e : ali) (p : addr) (mode : recog_mod) (a : addr) (frame : mpf_frame_t) :
  session_inv e → from_option (λ m, message_ok m ∧ is_Some (sessions e !! p)) True (recog_request ch) →
  write ch e p mode a frame = Fault → empty_audio ch frame.
Proof.
  intros He Hreq E. assert (¬ ¬ empty_audio ch frame) as Hnn.
  { intros Hn. destruct (frame_spec ch e p mode a frame He Hn Hreq) as (? & ? & ? & ? & E' & _).
    by rewrite E in E'. }
  split_and!; apply dec_stable; intros Hn; apply Hnn; by intros (? & ? & ?).
Qed.

(** C21: what an audio frame makes the plugin send, in every state of its
    channel.  A response to STOP that waits is sent, alone, and the recognition
    has ended; without a request in progress nothing is sent; during the
    recognition of a request all that is sent are events of that request, and
    the recognition goes on, or it has ended and exactly one
    RECOGNITION-COMPLETE was sent, a result that came with the frame being
    dropped.  The plugin faults exactly on an audio frame without samples
    during a recognition: the detector divides by the number of samples. *)
Theorem frame_sends_events (ch : channel) (e : ali) (p : addr) (mode : recog_mod) (a : addr) (frame : mpf_frame_t)
  (He : session_inv e)
  (Hreq : from_option (λ m, message_ok m ∧ is_Some (sessions e !! p)) True (recog_request ch)) :
  match write ch e p mode a frame with
  | Fault => empty_audio ch frame
  | Ok (_, ch', e', out) =>
      ¬ empty_audio ch frame ∧ session_inv e' ∧ stop_response ch' = None ∧
      match stop_response ch, recog_request ch with
      | Some r, _ => out = [r] ∧ recog_request ch' = None
      | None, None => out = [] ∧ recog_request ch' = None
      | None, Some m => frame_outcome m ch' out
      end
  end.
Proof.
  destruct (write ch e p mode a frame) as [[[[b ch'] e'] out]|] eqn:E.
  - assert (¬ empty_audio ch frame) as Hf.
    { intros Hf%(empty_audio_faults ch e p mode a). by rewrite Hf in E. }
    destruct (frame_spec ch e p mode a frame He Hf Hreq) as (? & ? & ? & ? & E' & ? & _ & ? & ?).
    rewrite E in E'. by injection E' as <- <- <- <-.
  - by apply (frame_faults ch e p mode a).
Qed.

(** A result does not end the recognition in the plugin.  When the engine
    has a result and the detector raises no event, the plugin sends a
    RECOGNITION-COMPLETE for it and still has the request in progress, with one
    result fewer waiting; the next result makes it send the completion of the
    same request again. *)
Theorem result_keeps_request (ch : channel) (e : ali) (p fa : addr) (frame : mpf_frame_t) (m : message)
  (l re : addr) (r : CAliResource) (a : ascii) (x : cstr) (q : list cstr) (d : mpf_activity_detector_t)
  (c : CAliChannel addr) (Hreq : recog_request ch = Some m) (Hstop : stop_response ch = None)
  (Hm : message_ok m) (Hd : mpf_activity_detector_process (detector ch) frame = Ok (MPF_DETECTOR_EVENT_NONE, d))
  (Hp : sessions e !! p = Some (Some l, Some re)) (Hc : chans e !! l = Some c)
  (Hroom : is_Some (WriteFrame c fa)) (Hr : recognizers e !! re = Some r)
  (Hq : m_resultQueue r = (a :: x) :: q) :
  ∃ ch' e' y r', write ch e p RECOGNIZER fa frame = Ok (true, ch', e', [y]) ∧
    event_of_request m y RECOGNIZER_RECOGNITION_COMPLETE ∧ recog_request ch' = Some m ∧
    recognizers e' !! re = Some r' ∧ m_resultQueue r' = q.
Proof.
  unfold Ali_recog_stream_write. rewrite Hstop, Hreq, Hd. cbn [mbind res_bind detector_event].
  unfold EngineWriteFrame. rewrite Hp. cbn [deref mbind res_bind fst]. rewrite Hc.
  destruct Hroom as [c' Hc']. cbn [deref mbind res_bind]. rewrite Hc'. cbn [mbind res_bind].
  unfold EngineRecogCompleted, set_channel. cbn [sessions recognizers]. rewrite Hp. cbn [deref mbind res_bind].
  rewrite Hr. cbn [deref mbind res_bind]. unfold DoRecogResultGet. rewrite Hq.
  cbn [mbind res_bind recog_request].
  destruct (result_event_ok m RECOGNIZER (a :: x) Hm) as (y & -> & Hy). cbn [mbind res_bind].
  eexists _, _, y, _. split; [done|]. split; [done|]. split; [done|].
  split; [apply lookup_insert_eq|done].
Qed.

End Theory.

(** ** Witnesses *)

#[export] Instance cause_only_header : RecogHeader nat :=
  {| start_input_timers := λ _, true; no_input_timeout := λ _, 5000%Z; speech_complete_timeout := λ _, 300%Z |}.

(** Session 1 recognizes on channel 5; two results wait in its resource. *)
Definition two_results : engine addr :=
  mk_engine {[5 := (Init CAliChannel_new 0 (lit "/var") false true true).2]} (mk_factory ∅ {[0 := 5]})
    {[7 := set_results (idle_resource [] 0) [lit "yes"; lit "no"]]} [] ∅ [] {[1 := (Some 5, Some 7)]}.

Lemma two_results_inv : session_inv two_results.
Proof.
  split; simpl.
  - split; simpl.
    + apply map_disjoint_empty_l.
    + intros k l [[]%lookup_empty_Some|[<- <-]%lookup_singleton_Some]. eexists. by split.
    + intros l c [<- <-]%lookup_singleton_Some. by right.
  - intros l c [<- <-]%lookup_singleton_Some. split_and!; by eauto.
  - constructor.
  - by intros re ?%elem_of_nil.
  - intros p s _ [<- <-]%lookup_singleton_Some. right. exists 5, 7. split; [done|].
    split_and!; [by eexists|set_solver|by eexists].
  - by intros p q l r r' _ _ [<- _]%lookup_singleton_Some [<- _]%lookup_singleton_Some.
  - by intros p q l r r' _ _ [<- _]%lookup_singleton_Some [<- _]%lookup_singleton_Some.
Qed.

Definition in_progress : Ali_recog_channel_t nat :=
  mk_recog_channel (Some (request_of RECOGNIZER_RECOGNIZE 3)) None true mpf_activity_detector_create.

Lemma plugin_answers_once_witness :
  ∃ ch' e' r, Ali_recog_channel_request_dispatch no_pair 0 in_progress two_results 1
      (request_of RECOGNIZER_STOP 4) se_ok = Ok (ch', e', []) ∧
    about (request_of RECOGNIZER_STOP 4) r MRCP_MESSAGE_TYPE_RESPONSE ∧
    ∃ ch'', Ali_recog_stream_write no_pair 0 (λ s, s) 9 ch' e' 1 RECOGNIZER 0 tone =
      Ok (true, ch'', e', [r]).
Proof.
  destruct (plugin_answers_once no_pair 0 (λ s, s) 9 in_progress two_results 1 (request_of RECOGNIZER_STOP 4)
    se_ok RECOGNIZER 0 tone) as (ch' & e' & out & r & E & _ & Hab & Hout).
  - exact two_results_inv.
  - apply request_of_ok.
  - rewrite decide_True in Hout by reflexivity. destruct Hout as (-> & ch'' & W & _).
    exists ch', e', r. split; [exact E|]. split; [exact Hab|]. exists ch''. exact W.
Defined.

Lemma frame_sends_events_witness :
  ∃ b ch' e' out, Ali_recog_stream_write no_pair 0 (λ s, s) 9 in_progress two_results 1 RECOGNIZER 0 tone =
      Ok (b, ch', e', out) ∧ frame_outcome (request_of RECOGNIZER_RECOGNIZE 3) ch' out.
Proof.
  assert (is_ok (Ali_recog_stream_write no_pair 0 (λ s, s) 9 in_progress two_results 1 RECOGNIZER 0 tone) = true)
    as Hok by (vm_compute; reflexivity).
  pose proof (frame_sends_events no_pair 0 (λ s, s) 9 in_progress two_results 1 RECOGNIZER 0 tone
    two_results_inv (conj (request_of_ok _ _) (mk_is_Some _ _ eq_refl))) as H.
  destruct (Ali_recog_stream_write _ _ _ _ _ _ _ _ _ _) as [[[[b ch'] e'] out]|]; [|discriminate Hok].
  exists b, ch', e', out. split; [reflexivity|]. exact (proj2 (proj2 (proj2 H))).
Defined.

Lemma result_keeps_request_witness :
  ∃ ch' e' y, Ali_recog_stream_write no_pair 0 (λ s, s) 9 in_progress two_results 1 RECOGNIZER 0 tone =
      Ok (true, ch', e', [y]) ∧ recog_request ch' = Some (request_of RECOGNIZER_RECOGNIZE 3).
Proof.
  destruct (result_keeps_request no_pair 0 (λ s, s) 9 in_progress two_results 1 0 tone
    (request_of RECOGNIZER_RECOGNIZE 3) 5 7 (set_results (idle_resource [] 0) [lit "yes"; lit "no"])
    "y"%char (lit "es") [lit "no"] (mk_detector 2 300 300 5000 DETECTOR_STATE_ACTIVITY_TRANSITION 0)
    (Init CAliChannel_new 0 (lit "/var") false true true).2) as (ch' & e' & y & _ & E & _ & Hr & _).
  - reflexivity.
  - reflexivity.
  - apply request_of_ok.
  - vm_compute. reflexivity.
  - reflexivity.
  - reflexivity.
  - eexists. vm_compute. reflexivity.
  - reflexivity.
  - reflexivity.
  - exists ch', e', y. split; [exact E|exact Hr].
Defined.
