(* ===== verification/RecogServer.v ===== *)
(** * RecogServer: a recognizer channel of the server, from the client to the Ali
    plugin ([mrcp_server_session.c], [Ali_recog_engine.cpp]).

    The recognizer state machine stands between the client and the plugin.  The
    server task updates it with the requests of the client and with the messages
    of the plugin; what it dispatches goes to the task of the plugin or to the
    client.  The plugin task, the media thread, the threads of the pool and the
    callbacks of the service run beside it.  A request that comes while another
    one is being answered waits in the queue of the session; the client here
    waits for the response to a request before it sends the next one, so that
    queue stays empty. *)
From S2P Require Import Prelude CString StringTable TextStream StartLine HeaderSection.
From S2P Require Import TextMessage GenericHeader MrcpMessage StateMachine RecogMachine.
From S2P Require Import AliResource AliChannel AliEngine Detector AliPlugin.

(** [session_request] is the signaling message the session processes,
    [received] and [to_client] what the client sent and got. *)
Record server (R : Type) := mk_server {
  session_request : option (@mrcp_message_t R);
  machine : mrcp_recog_state_machine_t R;
  plugin : Ali_recog_channel_t R;
  ali : engine addr;
  to_plugin : list (@mrcp_message_t R);
  to_machine : list (@mrcp_message_t R);
  received : list (@mrcp_message_t R);
  to_client : list (@mrcp_message_t R)
}.
Arguments mk_server {R} _ _ _ _ _ _ _ _.
Arguments session_request {R} _.
Arguments machine {R} _.
Arguments plugin {R} _.
Arguments ali {R} _.
Arguments to_plugin {R} _.
Arguments to_machine {R} _.
Arguments received {R} _.
Arguments to_client {R} _.

(** What happens: the client sends a request; the task of the plugin, the media
    thread and the server task take their next turn; a thread of the pool makes
    a step; the service reports a result to a resource. *)
Inductive server_event {R : Type} :=
  | ClientRequest (m : @mrcp_message_t R)
  | PluginTask (se : start_env)
  | AudioFrame (frame_at : addr) (frame : mpf_frame_t)
  | ServerTask
  | PoolThread (i : nat) (x : env)
  | ServiceResult (re : addr) (result : cstr).
Arguments server_event : clear implicits.

Section Server.
  Context `{AprFormat} {R : Type} `{CompletionCause R, RecogHeader R} (fresh : apt_pair_t) (uninit : nat).
  Context (json : cstr → cstr) (INTERMEDIATE : nat) (mode : recog_mod) (pCh : addr).
  Notation server := (server R).
  Notation message := (@mrcp_message_t R).

Definition set_machine (s : server) (x : mrcp_recog_state_machine_t R) : server :=
  mk_server (session_request s) x (plugin s) (ali s) (to_plugin s) (to_machine s) (received s) (to_client s).
Definition set_plugin (s : server) (ch : Ali_recog_channel_t R) (e : engine addr) (requests out : list message)
    : server :=
  mk_server (session_request s) (machine s) ch e requests (to_machine s ++ out) (received s) (to_client s).

(** The queue of the session is empty when the response is sent. *)
Definition state_machine_on_message_dispatch (s : server) (m : message) : server :=
  match message_type (start_line m) with
  | MRCP_MESSAGE_TYPE_REQUEST =>
      mk_server (session_request s) (machine s) (plugin s) (ali s) (to_plugin s ++ [m]) (to_machine s)
        (received s) (to_client s)
  | MRCP_MESSAGE_TYPE_RESPONSE =>
      mk_server None (machine s) (plugin s) (ali s) (to_plugin s) (to_machine s) (received s) (to_client s ++ [m])
  | _ =>
      mk_server (session_request s) (machine s) (plugin s) (ali s) (to_plugin s) (to_machine s) (received s)
        (to_client s ++ [m])
  end.

(** The machine is not deactivated here. *)
Definition on_action (s : server) (a : action R) : server :=
  match a with
  | Dispatch m => state_machine_on_message_dispatch s m
  | Deactivated => s
  end.

(** Update the state machine, which the channel has. *)
Definition machine_update (s : server) (m : message) : res server :=
  '(_, x, o) ← recog_state_update fresh uninit m (machine s);
  Ok (foldl on_action (set_machine s x) o).

(** A message of the plugin. *)
Definition mrcp_server_on_engine_channel_message : server → message → res server := machine_update.

(** A message of the client for this channel. *)
Definition mrcp_server_on_message_receive : server → message → res server := machine_update.

(** A message of the client while no signaling message is in process: it is the
    active one and is dispatched. *)
Definition mrcp_server_on_channel_message (s : server) (m : message) : res server :=
  mrcp_server_on_message_receive
    (mk_server (Some m) (machine s) (plugin s) (ali s) (to_plugin s) (to_machine s) (received s ++ [m])
       (to_client s)) m.

(** A turn of the task of the plugin. *)
Definition Ali_recog_msg_process (s : server) (se : start_env) : res server :=
  match to_plugin s with
  | [] => Ok s
  | m :: requests =>
      '(ch, e, out) ← Ali_recog_channel_request_dispatch fresh uninit (plugin s) (ali s) pCh m se;
      Ok (set_plugin s ch e requests out)
  end.

(** The service calls back for a request of the resource [re]. *)
Definition service_result (e : engine addr) (re : addr) (result : cstr) : engine addr :=
  match recognizers e !! re with
  | None => e
  | Some r =>
      mk_engine (chans e) (factory e) (<[re:=OnRecognitionCompleted r result]> (recognizers e)) (re_pool e)
        (open_files e) (threads e) (sessions e)
  end.

Definition server_step (s : server) (ev : server_event R) : res server :=
  match ev with
  | ClientRequest m => mrcp_server_on_channel_message s m
  | PluginTask se => Ali_recog_msg_process s se
  | AudioFrame frame_at frame =>
      '(_, ch, e, out) ← Ali_recog_stream_write fresh uninit json INTERMEDIATE (plugin s) (ali s) pCh mode
                           frame_at frame;
      Ok (set_plugin s ch e (to_plugin s) out)
  | ServerTask =>
      match to_machine s with
      | [] => Ok s
      | m :: rest =>
          mrcp_server_on_engine_channel_message
            (mk_server (session_request s) (machine s) (plugin s) (ali s) (to_plugin s) rest (received s)
               (to_client s)) m
      end
  | PoolThread i x => e ← engine_work (ali s) i x; Ok (set_plugin s (plugin s) e (to_plugin s) [])
  | ServiceResult re result =>
      Ok (set_plugin s (plugin s) (service_result (ali s) re result) (to_plugin s) [])
  end.

Fixpoint server_run (s : server) (evs : list (server_event R)) : res server :=
  match evs with
  | [] => Ok s
  | ev :: evs => s ← server_step s ev; server_run s evs
  end.

End Server.
