(* ===== verification/RecogServerTheory.v ===== *)
(** * RecogServerTheory: the recognizer channel of the server answers the requests
    of the client one by one.

    The state machine needs an engine that answers a request with its own
    method; the plugin does that, so the two together need no assumption about
    an engine.  The threads of the pool may fault on their own account, which
    [AliEngineTheory] describes, and so may the detector on an audio frame
    without samples; a run is followed up to the first such event. *)
From S2P Require Import Prelude CString StringTable TextStream StartLine HeaderSection.
From S2P Require Import TextMessage GenericHeader MrcpMessage StateMachine StateMachineTheory.
From S2P Require Import RecogMachine RecogMachineTheory RecogTrace.
From S2P Require Import AliResource AliChannel AliEngine AliEngineTheory Detector AliPlugin AliPluginTheory.
From S2P Require Import RecogServer.

Section Lists.
  Context {A : Type}.
  Implicit Types l k : list A.

Lemma submseteq_NoDup l k : l ⊆+ k → NoDup k → NoDup l.
Proof. intros [k' ->]%submseteq_Permutation. by intros (? & _ & _)%NoDup_app. Qed.

Lemma sublist_Forall (P : A → Prop) l k : l `sublist_of` k → Forall P k → Forall P l.
Proof. induction 1; [done|..]; intros [? ?]%Forall_cons; [constructor|]; auto. Qed.

Lemma filter_sublist (P : A → Prop) `{∀ x, Decision (P x)} l k :
  l `sublist_of` k → filter P l `sublist_of` filter P k.
Proof. induction 1; [done|..]; rewrite ?filter_cons; repeat case_decide; by try constructor. Qed.

Lemma filter_none (P : A → Prop) `{∀ x, Decision (P x)} l : Forall (λ x, ¬ P x) l → filter P l = [].
Proof. induction 1; [done|]. by rewrite filter_cons_False. Qed.

(** An element is determined by what is different for all elements. *)
Lemma NoDup_fmap_inj {B} (f : A → B) l x y : NoDup (f <$> l) → x ∈ l → y ∈ l → f x = f y → x = y.
Proof.
  induction l as [|z l IH]; [by intros _ ?%elem_of_nil|]. simpl.
  intros [Hz Hl]%NoDup_cons [->|Hx]%elem_of_cons [->|Hy]%elem_of_cons E; [done|..|by apply IH].
  - destruct Hz. rewrite E. by apply list_elem_of_fmap_2.
  - destruct Hz. rewrite <- E. by apply list_elem_of_fmap_2.
Qed.

End Lists.

Section Theory.
  Context `{AprFormat} {R : Type} `{CompletionCause R, RecogHeader R} (fresh : apt_pair_t) (uninit : nat).
  Context (json : cstr → cstr) (INTERMEDIATE : nat) (mode : recog_mod) (pCh : addr).
  Notation server := (server R).
  Notation message := (@mrcp_message_t R).
  Notation step := (server_step fresh uninit json INTERMEDIATE mode pCh).
  Notation run := (server_run fresh uninit json INTERMEDIATE mode pCh).
  Implicit Types (s : server) (m : message).

(** ** What is under way *)

Definition id_of m : Z := request_id (start_line m).
Definition key m : Z * nat := (request_id (start_line m), method_id (start_line m)).
Definition is_request m : Prop := message_type (start_line m) = MRCP_MESSAGE_TYPE_REQUEST.
Definition is_response m : Prop := message_type (start_line m) = MRCP_MESSAGE_TYPE_RESPONSE.

#[export] Instance is_response_dec m : Decision (is_response m).
Proof. unfold is_response. apply _. Defined.

(** The requests and responses between the machine and the plugin. *)
Definition flight s : list message :=
  to_plugin s ++ option_list (stop_response (plugin s)) ++ filter is_response (to_machine s).

(** A message for a request of the client. *)
Definition asked (rec : list message) m : Prop := key m ∈ key <$> rec.
Definition request_ok (rec : list message) m : Prop := message_ok m ∧ is_request m ∧ asked rec m.
Definition response_ok (rec : list message) m : Prop := message_ok m ∧ is_response m ∧ asked rec m.
Definition plugin_message_ok (rec : list message) m : Prop :=
  message_ok m ∧ ¬ is_request m ∧ (is_response m → asked rec m).

(** The messages are well formed and belong to requests of the client. *)
Record messages_inv s : Prop := {
  mi_machine : recog_inv (machine s);
  mi_on : active (machine s) = true;
  mi_active : from_option (asked (received s)) True (active_request (machine s));
  mi_queue : Forall (request_ok (received s)) (queue (machine s));
  mi_to_plugin : Forall (request_ok (received s)) (to_plugin s);
  mi_to_machine : Forall (plugin_message_ok (received s)) (to_machine s);
  mi_stop : from_option (response_ok (received s)) True (stop_response (plugin s));
  mi_request : from_option (λ m, message_ok m ∧ is_Some (sessions (ali s) !! pCh)) True
                 (recog_request (plugin s));
  mi_ali : session_inv (ali s)
}.

(** Every request is in one place; the active request, while it is under way, is
    the one the client waits for or was taken from the queue; and the client got
    the responses to all requests before the one it waits for. *)
Record turns_inv s : Prop := {
  ti_ids : NoDup (id_of <$> received s);
  ti_once : NoDup (id_of <$> flight s ++ queue (machine s));
  ti_owner : ∀ a, active_request (machine s) = Some a → id_of a ∈ id_of <$> flight s →
    key <$> session_request s = Some (key a) ∨
    is_pending (machine s) = true ∧ method_id (start_line a) = RECOGNIZER_RECOGNIZE;
  ti_answers : key <$> received s =
    (key <$> filter is_response (to_client s)) ++ (key <$> option_list (session_request s))
}.

Definition server_inv s : Prop := messages_inv s ∧ turns_inv s.

(** *** Messages for the same request *)

Lemma key_about m x t : about m x t → key x = key m.
Proof. intros (E1 & E2 & _). unfold key. by rewrite E1, E2. Qed.

Lemma key_line m x : start_line x = start_line m → key x = key m.
Proof. unfold key. by intros ->. Qed.

Lemma asked_id rec m : asked rec m → id_of m ∈ id_of <$> rec.
Proof.
  unfold asked. rewrite list_elem_of_fmap. intros (x & E & Hx). apply list_elem_of_fmap. exists x.
  split; [|done]. by injection E.
Qed.

Lemma asked_same rec m x : NoDup (id_of <$> rec) → asked rec m → asked rec x → id_of m = id_of x → key m = key x.
Proof.
  unfold asked. intros Hn (y & Ey & Hy)%list_elem_of_fmap (z & Ez & Hz)%list_elem_of_fmap E.
  rewrite Ey, Ez. f_equal. apply (NoDup_fmap_inj id_of rec); [done..|]. injection Ey as Ey _. injection Ez as Ez _.
  unfold id_of in *. congruence.
Qed.

Lemma asked_about rec m x t : about m x t → asked rec m → asked rec x.
Proof. intros Hx. unfold asked. by rewrite (key_about _ _ _ Hx). Qed.

Lemma asked_more rec m x : asked rec x → asked (rec ++ [m]) x.
Proof. unfold asked. rewrite fmap_app. intros Hx. apply elem_of_app. by left. Qed.

Lemma asked_last rec m : asked (rec ++ [m]) m.
Proof. unfold asked. rewrite fmap_app. apply elem_of_app. right. simpl. by apply list_elem_of_singleton. Qed.

Lemma flight_asked s m : messages_inv s → m ∈ flight s ++ queue (machine s) → asked (received s) m.
Proof.
  intros [_ _ _ Hq Hp Hm Hs _ _] [[Hx|[Hx|[Hr Hx]%list_elem_of_filter]%elem_of_app]%elem_of_app|Hx]%elem_of_app.
  - rewrite Forall_forall in Hp. by apply Hp.
  - destruct (stop_response (plugin s)) as [r|]; simpl in *; [|by apply elem_of_nil in Hx].
    apply list_elem_of_singleton in Hx as ->. apply Hs.
  - rewrite Forall_forall in Hm. by apply Hm.
  - rewrite Forall_forall in Hq. by apply Hq.
Qed.

(** An identifier the client has not used is nowhere. *)
Lemma new_id s m : messages_inv s → id_of m ∉ id_of <$> received s →
  id_of m ∉ id_of <$> flight s ++ queue (machine s).
Proof.
  intros Hs Hm (x & E & Hx)%list_elem_of_fmap. apply Hm. rewrite E. by apply asked_id, flight_asked.
Qed.

(** ** The machine takes a message *)

Lemma route_pending s (p : option message) :
  from_option is_request True p →
  foldl on_action s (pending_actions p) =
  mk_server (session_request s) (machine s) (plugin s) (ali s) (to_plugin s ++ option_list p) (to_machine s)
    (received s) (to_client s).
Proof.
  destruct p as [m|]; simpl; [|rewrite app_nil_r; by destruct s]. intros Hm.
  unfold state_machine_on_message_dispatch. by rewrite Hm.
Qed.

Lemma messages_receive s m (sr : option message) :
  messages_inv s →
  messages_inv (mk_server sr (machine s) (plugin s) (ali s) (to_plugin s) (to_machine s) (received s ++ [m])
    (to_client s)).
Proof.
  intros [G1 G2 G3 G4 G5 G6 G7 G8 G9]. pose proof (asked_more (received s) m) as Hmore. split; simpl; try done.
  - destruct (active_request (machine s)); [by apply Hmore|done].
  - eapply Forall_impl; [done|]. intros x (? & ? & ?). split_and!; auto.
  - eapply Forall_impl; [done|]. intros x (? & ? & ?). split_and!; auto.
  - eapply Forall_impl; [done|]. intros x (? & ? & ?). split_and!; auto.
  - destruct (stop_response (plugin s)); [|done]. destruct G7 as (? & ? & ?). split_and!; auto.
Qed.

(** The machine changed, and hands the requests [ps] to the plugin. *)
Lemma messages_update s (sr : option message) x (ps tm tc : list message) :
  messages_inv s → recog_inv x → active x = true → from_option (asked (received s)) True (active_request x) →
  Forall (request_ok (received s)) (queue x) → Forall (request_ok (received s)) ps →
  tm `sublist_of` to_machine s →
  messages_inv (mk_server sr x (plugin s) (ali s) (to_plugin s ++ ps) tm (received s) tc).
Proof.
  intros [G1 G2 G3 G4 G5 G6 G7 G8 G9] Hx Hon Ha Hq Hps Htm. split; simpl; try done.
  - apply Forall_app. by split.
  - by eapply sublist_Forall.
Qed.

Lemma request_is_ok rec m x : about m x MRCP_MESSAGE_TYPE_REQUEST → message_ok x → asked rec m → request_ok rec x.
Proof. intros Hx Hok Hm. split; [done|]. split; [apply Hx|]. by eapply asked_about. Qed.

Lemma filter_app_response tc m : is_response m → filter is_response (tc ++ [m]) = filter is_response tc ++ [m].
Proof. intros Hm. by rewrite filter_app, filter_cons_True. Qed.

Lemma filter_app_other tc m : ¬ is_response m → filter is_response (tc ++ [m]) = filter is_response tc.
Proof. intros Hm. by rewrite filter_app, filter_cons_False, app_nil_r. Qed.

(** A request of the client that was handed on or answered. *)
Lemma request_turn s m x (o : list (action R)) :
  server_inv s → session_request s = None → id_of m ∉ id_of <$> received s →
  recog_inv x → active x = true → request_trace m (machine s) x o →
  server_inv (foldl on_action (mk_server (Some m) x (plugin s) (ali s) (to_plugin s) (to_machine s)
    (received s ++ [m]) (to_client s)) o).
Proof.
  intros [Hs [Hids Honce Hown Hans]] Hidle Hnew Hx Hon Htr.
  pose proof (messages_receive s m (Some m) Hs) as Hs1.
  pose proof (new_id s m Hs Hnew) as Hfresh. pose proof (asked_last (received s) m) as Hasked.
  assert (NoDup (id_of <$> received s ++ [m])) as Hids1.
  { rewrite fmap_app. apply NoDup_app. split; [done|]. split; [|apply NoDup_singleton].
    intros i Hi ->%list_elem_of_singleton. done. }
  assert (key <$> received s ++ [m] = (key <$> filter is_response (to_client s)) ++ [key m]) as Hans1.
  { rewrite fmap_app, Hans, Hidle. simpl. by rewrite app_nil_r. }
  assert (∀ y, id_of y = id_of m → NoDup (id_of <$> flight s ++ queue (machine s) ++ [y])) as Hmore.
  { intros y Ey. rewrite app_assoc, fmap_app. apply NoDup_app. split; [done|]. split; [|apply NoDup_singleton].
    intros i Hi ->%list_elem_of_singleton. by rewrite Ey in Hi. }
  destruct Htr as [(-> & (Ea & Ep & Eq) & _)|[(y & -> & Hy & Ea & Ep & Eq)|(r & -> & Hr & Ea & Ep & Hq)]]; simpl.
  - split; [|split; simpl; try done].
    + rewrite <- (app_nil_r (to_plugin s)). apply (messages_update _ (Some m) x [] _ (to_client s) Hs1); simpl;
        rewrite ?Ea, ?Eq; try done; apply Hs1.
    + by rewrite Eq.
    + intros a. rewrite Ea, Ep. intros Hact Hin. right.
      destruct (Hown a Hact Hin) as [Hw|Hw]; [by rewrite Hidle in Hw|done].
  - unfold state_machine_on_message_dispatch. rewrite (proj2 (proj2 Hy)). simpl.
    pose proof (ri_active _ Hx) as Hact. rewrite Ea in Hact. destruct Hact as [Hok _].
    assert (id_of y = id_of m) as Hid by apply Hy.
    split; [|split; simpl; try done].
    + apply (messages_update _ (Some m) x [y] _ (to_client s) Hs1); simpl; rewrite ?Ea, ?Eq; try done.
      * simpl. by eapply asked_about.
      * apply Hs1.
      * apply Forall_singleton. by eapply request_is_ok.
    + rewrite Eq. eapply submseteq_NoDup; [|by apply (Hmore y)].
      apply fmap_submseteq. unfold flight. simpl. rewrite <- !app_assoc. solve_submseteq.
    + intros a. rewrite Ea. intros [= <-] _. left. simpl. by rewrite (key_about _ _ _ Hy).
  - unfold state_machine_on_message_dispatch. rewrite (proj2 (proj2 Hr)). simpl.
    assert (Forall (request_ok (received s ++ [m])) (queue x) ∧ NoDup (id_of <$> flight s ++ queue x)) as [Hqx Hnx].
    { pose proof (mi_queue _ Hs1) as Hqs. simpl in Hqs. destruct Hq as [Hq|(y & Hy & Hq & _)].
      - split; [by eapply sublist_Forall|]. eapply submseteq_NoDup; [|exact Honce]. apply fmap_submseteq.
        by apply submseteq_skips_l, sublist_submseteq.
      - rewrite Hq. split; [|by apply Hmore, Hy]. apply Forall_app. split; [done|]. apply Forall_singleton.
        eapply request_is_ok; [done| |done]. pose proof (rc_queue _ (ri_core _ Hx)) as Hc. rewrite Hq in Hc.
        apply Forall_app in Hc as [_ Hc]. rewrite Forall_singleton in Hc. by destruct Hc. }
    split; [|split; simpl; try done].
    + rewrite <- (app_nil_r (to_plugin s)). apply (messages_update _ None x [] _ (to_client s ++ [r]) Hs1); simpl;
        rewrite ?Ea; done.
    + intros a. by rewrite Ea.
    + rewrite app_nil_r, Hans1, filter_app_response by apply Hr. rewrite fmap_app. simpl.
      by rewrite (key_about _ _ _ Hr).
Qed.

(** A request of the client. *)
Lemma client_step s m :
  server_inv s → session_request s = None → message_ok m → is_request m → id_of m ∉ id_of <$> received s →
  ∃ s', mrcp_server_on_channel_message fresh uninit s m = Ok s' ∧ server_inv s'.
Proof.
  intros Hs Hidle Hm Ht Hnew. unfold mrcp_server_on_channel_message, mrcp_server_on_message_receive, machine_update. simpl.
  destruct (recog_handle_safe fresh uninit (machine s) (Update m)) as (b & x & o & E & Hx).
  { apply Hs. } { split; [done|]. by rewrite Ht. }
  simpl in E. unfold mrcp_state_machine_update in E. simpl in E. rewrite E. cbn [mbind res_bind].
  destruct (update_traces fresh uninit m (machine s) (mi_on _ (proj1 Hs)) b x o E) as [Hon Htr].
  unfold update_trace in Htr. rewrite Ht in Htr. eexists. split; [done|]. unfold set_machine. simpl. by apply request_turn.
Qed.

(** The machine passes the message on to the client and starts the request [p]
    of its queue, if any. *)
Lemma passed_turn s (sr : option message) x (p : option message) (tm tc : list message) :
  server_inv s → tm `sublist_of` to_machine s → recog_inv x → active x = true →
  option_list p ++ queue x `sublist_of` queue (machine s) →
  (∀ y, p = Some y → active_request x = Some y ∧ is_pending x = true) →
  (p = None → from_option (asked (received s)) True (active_request x) ∧
     ∀ a, active_request x = Some a → id_of a ∈ id_of <$> to_plugin s ++ option_list (stop_response (plugin s)) ++
         filter is_response tm →
       key <$> sr = Some (key a) ∨ is_pending x = true ∧ method_id (start_line a) = RECOGNIZER_RECOGNIZE) →
  key <$> received s = (key <$> filter is_response tc) ++ (key <$> option_list sr) →
  server_inv (foldl on_action (mk_server sr x (plugin s) (ali s) (to_plugin s) tm (received s) tc) (pending_actions p)).
Proof.
  intros [Hs [Hids Honce Hown Hans]] Htm Hx Hon Hsub Hp Hnone Hans'.
  pose proof (sublist_Forall _ _ _ Hsub (mi_queue _ Hs)) as Hq. apply Forall_app in Hq as [Hpq Hq].
  rewrite route_pending.
  2: { destruct p; [|done]. simpl in Hpq. rewrite Forall_singleton in Hpq. apply Hpq. }
  simpl. split; [|split; simpl; try done].
  - apply (messages_update s sr x (option_list p) tm tc Hs); try done.
    destruct p as [y|]; [|by apply Hnone]. destruct (Hp y eq_refl) as [-> _]. simpl in *. rewrite Forall_singleton in Hpq.
    apply Hpq.
  - eapply submseteq_NoDup; [|exact Honce]. apply fmap_submseteq. unfold flight. simpl.
    trans ((to_plugin s ++ option_list (stop_response (plugin s)) ++ filter is_response tm) ++
      option_list p ++ queue x); [rewrite <- !app_assoc; solve_submseteq|].
    apply submseteq_app; [|by apply sublist_submseteq]. do 2 apply submseteq_skips_l.
    by apply sublist_submseteq, filter_sublist.
  - destruct p as [y|].
    + destruct (Hp y eq_refl) as [-> Hpd]. intros a [= <-] _. right. split; [done|].
      assert (y ∈ queue (machine s)) as Hy by (eapply sublist_subseteq; [exact Hsub|by left]).
      pose proof (rc_queue _ (ri_core _ (mi_machine _ Hs))) as Hr. rewrite Forall_forall in Hr. by apply Hr.
    + unfold flight. simpl. rewrite app_nil_r. by apply Hnone.
Qed.

(** The response at the head of the queue is not under way elsewhere. *)
Lemma flight_head s m (rest : list message) :
  to_machine s = m :: rest → is_response m → NoDup (id_of <$> flight s ++ queue (machine s)) →
  id_of m ∈ id_of <$> flight s ∧
  ∀ i, i ∈ id_of <$> to_plugin s ++ option_list (stop_response (plugin s)) ++ filter is_response rest →
    i ∈ id_of <$> flight s ∧ i ≠ id_of m.
Proof.
  intros Em Hm Hn. rewrite fmap_app in Hn. apply NoDup_app in Hn as [Hn _].
  assert (flight s ≡ₚ m :: to_plugin s ++ option_list (stop_response (plugin s)) ++ filter is_response rest) as Hp.
  { unfold flight. rewrite Em, filter_cons_True by done. solve_Permutation. }
  rewrite Hp, fmap_cons in Hn. apply NoDup_cons in Hn as [Hni Hn]. split; [rewrite Hp; by left|].
  intros i Hi. split; [rewrite Hp; by right|]. by intros ->.
Qed.

(** A response of the plugin. *)
Lemma response_turn s m (rest : list message) x (o : list (action R)) :
  server_inv s → to_machine s = m :: rest → is_response m → recog_inv x → active x = true →
  response_trace m (machine s) x o →
  server_inv (foldl on_action (mk_server (session_request s) x (plugin s) (ali s) (to_plugin s) rest
    (received s) (to_client s)) o).
Proof.
  intros Hs Em Hm Hx Hon Htr. pose proof Hs as [Hsm [Hids Honce Hown Hans]].
  assert (rest `sublist_of` to_machine s) as Hrest by (rewrite Em; by constructor).
  destruct (flight_head s m rest Em Hm Honce) as [Hin Hless]. pose proof (mi_active _ Hsm) as Hact.
  destruct Htr as [(-> & (Ea & Ep & Eq) & _)|(a & Ha & Hid & [(-> & Ea & _ & Ep & Eq)|(r & p & Hr & -> & Hp & Hnone & Hrec)])].
  - apply (passed_turn s _ x None rest _ Hs); try done; [by rewrite Eq|]. intros _. rewrite Ea, Ep.
    split; [done|]. intros a Ha Hi. apply Hown; [done|]. by apply Hless.
  - apply (passed_turn s _ x None rest _ Hs); try done; [by rewrite Eq|]. intros _. rewrite Ea.
    rewrite Ha in Hact. split; [done|]. intros ? [= <-] [_ []]%Hless. apply Hid.
  - simpl. unfold state_machine_on_message_dispatch at 1. rewrite Hr, Hm. simpl.
    assert (asked (received s) m) as Hask.
    { apply flight_asked; [done|]. apply elem_of_app. left. unfold flight. rewrite Em, !elem_of_app.
      right; right. apply list_elem_of_filter. split; [done|by left]. }
    assert (key m = key a) as Hkey.
    { rewrite Ha in Hact. exact (asked_same _ m a Hids Hask Hact (eq_sym Hid)). }
    assert (key <$> session_request s = Some (key a)) as Hturn.
    { destruct (Hown a Ha) as [?|[Hpd Hrc]]; [by rewrite (Hid : id_of a = id_of m)|done|].
      rewrite Hrec in Hpd; [done|]. injection Hkey as _ ->. done. }
    destruct Hp as [Hsub Hp]. apply (passed_turn s _ x p rest _ Hs); try done.
    + by intros y ->.
    + intros ->. by rewrite Hnone.
    + destruct (session_request s) as [q|]; [|done]. apply (inj Some) in Hturn. rewrite Hans.
      rewrite filter_app_response by (unfold is_response; by rewrite Hr). rewrite fmap_app, app_nil_r. simpl.
      by rewrite Hturn, (key_line m r Hr), Hkey.
Qed.

(** An event of the plugin. *)
Lemma event_turn s m (rest : list message) x (o : list (action R)) :
  server_inv s → to_machine s = m :: rest → recog_inv x → active x = true →
  event_trace m (machine s) x o →
  server_inv (foldl on_action (mk_server (session_request s) x (plugin s) (ali s) (to_plugin s) rest
    (received s) (to_client s)) o).
Proof.
  intros Hs Em Hx Hon Htr. pose proof Hs as [Hsm [Hids Honce Hown Hans]].
  assert (rest `sublist_of` to_machine s) as Hrest by (rewrite Em; by constructor).
  assert (∀ i, i ∈ id_of <$> to_plugin s ++ option_list (stop_response (plugin s)) ++ filter is_response rest →
    i ∈ id_of <$> flight s) as Hless.
  { intros i. apply sublist_subseteq, fmap_sublist. unfold flight. do 2 (apply sublist_app; [done|]).
    by apply filter_sublist. }
  pose proof (mi_active _ Hsm) as Hact.
  destruct Htr as [(-> & Ea & Ep & Eq)|(e & p & He & -> & [Hsub Hp] & Hnone)].
  - apply (passed_turn s _ x None rest _ Hs); try done; [by rewrite Eq|]. intros _. rewrite Ea, Ep.
    split; [done|]. intros a Ha Hi. apply Hown; [done|]. by apply Hless.
  - simpl. unfold state_machine_on_message_dispatch at 1. rewrite (proj2 (proj2 He)).
    apply (passed_turn s _ x p rest _ Hs); try done.
    + by intros y ->.
    + intros ->. simpl in Hp. rewrite Hnone, Hp by done. split; [done|]. intros a Ha Hi. apply Hown; [done|].
      by apply Hless.
    + rewrite filter_app_other; [done|]. unfold is_response. by rewrite (proj2 (proj2 He)).
Qed.

(** A turn of the server task. *)
Lemma server_task_step s m (rest : list message) :
  server_inv s → to_machine s = m :: rest →
  ∃ s', mrcp_server_on_engine_channel_message fresh uninit
      (mk_server (session_request s) (machine s) (plugin s) (ali s) (to_plugin s) rest (received s) (to_client s))
      m = Ok s' ∧ server_inv s'.
Proof.
  intros Hs Em. pose proof Hs as [Hsm [Hids _ _ _]]. pose proof (mi_to_machine _ Hsm) as Hall. rewrite Em in Hall.
  apply Forall_cons in Hall as [(Hm & Hnr & Hask) _].
  destruct (recog_handle_safe fresh uninit (machine s) (Update m)) as (b & x & o & E & Hx).
  { apply Hsm. }
  { split; [done|]. intros Ht a Ha Hid. pose proof (mi_active _ Hsm) as Hact. rewrite Ha in Hact.
    pose proof (asked_same _ m a Hids (Hask Ht) Hact (eq_sym Hid)) as Hk. by injection Hk. }
  simpl in E. unfold mrcp_state_machine_update in E. simpl in E.
  unfold mrcp_server_on_engine_channel_message, machine_update. simpl. rewrite E. cbn [mbind res_bind].
  eexists. split; [done|]. unfold set_machine. simpl.
  destruct (update_traces fresh uninit m (machine s) (mi_on _ Hsm) b x o E) as [Hon Htr].
  unfold update_trace in Htr. destruct (message_type (start_line m)) eqn:Ht; [|done|..].
  - apply (event_turn s m rest x); try done. left. by destruct Htr.
  - by apply (response_turn s m rest x).
  - by apply (event_turn s m rest x).
Qed.

(** ** The plugin takes a turn *)

(** The machine and the session are as they were, and nothing new is under way. *)
Definition quiet s s' : Prop :=
  session_request s' = session_request s ∧ machine s' = machine s ∧ id_of <$> flight s' ⊆+ id_of <$> flight s.

(** The plugin changed and sends [out]; [rest] is left of its queue. *)
Lemma plugin_turn s ch e (rest out : list message) :
  server_inv s → rest `sublist_of` to_plugin s → session_inv e →
  Forall (plugin_message_ok (received s)) out → from_option (response_ok (received s)) True (stop_response ch) →
  from_option (λ m, message_ok m ∧ is_Some (sessions e !! pCh)) True (recog_request ch) →
  id_of <$> rest ++ option_list (stop_response ch) ++ filter is_response out ⊆+
    id_of <$> to_plugin s ++ option_list (stop_response (plugin s)) →
  server_inv (set_plugin s ch e rest out) ∧ quiet s (set_plugin s ch e rest out).
Proof.
  intros [Hs [Hids Honce Hown Hans]] Hrest He Hout Hstop Hreq Hsub.
  assert (id_of <$> flight (set_plugin s ch e rest out) ⊆+ id_of <$> flight s) as Hfl.
  { unfold flight. simpl. rewrite filter_app, !app_assoc, !(fmap_app _ _ (filter _ (to_machine s))).
    trans ((id_of <$> rest ++ option_list (stop_response ch) ++ filter is_response out) ++
      (id_of <$> filter is_response (to_machine s))); [rewrite !fmap_app; solve_submseteq|].
    by apply submseteq_skips_r. }
  destruct Hs as [G1 G2 G3 G4 G5 G6 G7 G8 G9]. split; [|done]. split; split; simpl; try done.
  - by eapply sublist_Forall.
  - apply Forall_app. by split.
  - eapply submseteq_NoDup; [|exact Honce]. rewrite !fmap_app. by apply submseteq_skips_r.
  - intros a Ha Hi. apply Hown; [done|]. by eapply elem_of_submseteq.
Qed.

Lemma response_plugin_ok rec m : response_ok rec m → plugin_message_ok rec m.
Proof.
  intros (Hm & Ht & Hr). split; [done|]. split; [|done]. unfold is_request. by rewrite Ht.
Qed.

Lemma plugin_task_step s (se : start_env) :
  server_inv s → ∃ s', Ali_recog_msg_process fresh uninit pCh s se = Ok s' ∧ server_inv s' ∧ quiet s s'.
Proof.
  intros Hs. unfold Ali_recog_msg_process. destruct (to_plugin s) as [|m rest] eqn:Em; [by exists s|].
  pose proof Hs as [Hsm _]. pose proof (mi_to_plugin _ Hsm) as Hall. rewrite Em in Hall.
  apply Forall_cons in Hall as [(Hm & Hrq & Hask) _].
  destruct (dispatch_spec fresh uninit (plugin s) (ali s) pCh m se (mi_ali _ Hsm) Hm)
    as (ch & e & out & -> & He & Hmono & Hreq & Hout). cbn [mbind res_bind].
  eexists. split; [done|].
  assert (rest `sublist_of` to_plugin s) as Hrest by (rewrite Em; by constructor).
  assert (from_option (λ x, message_ok x ∧ is_Some (sessions e !! pCh)) True (recog_request ch)) as Hch.
  { destruct Hreq as [->|(-> & Hp)]; [|done]. pose proof (mi_request _ Hsm) as Hr.
    destruct (recog_request (plugin s)); [|done]. destruct Hr as [? ?]. split; [done|by apply Hmono]. }
  pose proof (mi_stop _ Hsm) as Hst.
  case_decide.
  - destruct Hout as (-> & _ & r & Hr & Hok & Hab). apply plugin_turn; try done.
    + rewrite Hr. simpl. split; [done|]. split; [apply Hab|by eapply asked_about].
    + rewrite Hr, Em. simpl. rewrite !fmap_app. simpl. assert (id_of r = id_of m) as -> by apply Hab.
      solve_submseteq.
  - destruct Hout as (Hr & r & -> & Hok & Hab).
    assert (response_ok (received s) r) as Hro by (split; [done|]; split; [apply Hab|by eapply asked_about]).
    apply plugin_turn; try done.
    + apply Forall_singleton. by apply response_plugin_ok.
    + by rewrite Hr.
    + rewrite Hr, Em, filter_cons_True by apply Hro. simpl. rewrite !fmap_app. simpl.
      assert (id_of r = id_of m) as -> by apply Hab. solve_submseteq.
Qed.

Lemma frame_step s (a : addr) (frame : mpf_frame_t) :
  server_inv s → ¬ empty_audio (plugin s) frame →
  ∃ s', step s (AudioFrame a frame) = Ok s' ∧ server_inv s' ∧ quiet s s'.
Proof.
  intros Hs Hlevel. pose proof Hs as [Hsm _]. cbn [server_step].
  pose proof (mi_stop _ Hsm) as Hst. pose proof (mi_request _ Hsm) as Hrq.
  destruct (frame_spec fresh uninit json INTERMEDIATE (plugin s) (ali s) pCh mode a frame (mi_ali _ Hsm) Hlevel Hrq)
    as (b & ch & e & out & -> & He & Hses & Hstop & Hout). cbn [mbind res_bind].
  eexists. split; [done|].
  destruct (stop_response (plugin s)) as [r|] eqn:Er.
  - destruct Hout as [-> Hnr]. apply plugin_turn; try done.
    + apply Forall_singleton. by apply response_plugin_ok.
    + by rewrite Hstop.
    + by rewrite Hnr.
    + rewrite Hstop, Er, filter_cons_True by apply Hst. done.
  - destruct (recog_request (plugin s)) as [m|] eqn:Em.
    + destruct Hout as [Hall Hend], Hrq as [Hm Hp]. apply plugin_turn; try done.
      * eapply Forall_impl; [done|]. cbn beta. intros x (id & Hx & _ & _ & Ht). unfold plugin_message_ok.
        unfold is_request, is_response. by rewrite Ht.
      * by rewrite Hstop.
      * rewrite Hses. by destruct Hend as [->|(-> & _)].
      * rewrite Hstop, Er. assert (filter is_response out = []) as ->; [|done].
        apply filter_none. eapply Forall_impl; [done|]. cbn beta. intros x (id & _ & _ & _ & Ht).
        unfold is_response. by rewrite Ht.
    + destruct Hout as [-> Hnr]. apply plugin_turn; try done; [by rewrite Hstop|by rewrite Hnr|].
      by rewrite Hstop, Er.
Qed.

(** ** The threads of the pool and the service *)

Lemma recognizer_set_inv (e : engine addr) (rs : gmap addr CAliResource) :
  session_inv e → (∀ re, is_Some (recognizers e !! re) → is_Some (rs !! re)) →
  session_inv (mk_engine (chans e) (factory e) rs (re_pool e) (open_files e) (threads e) (sessions e)).
Proof.
  intros [Hf Hrd Hp Hkn Hsh Hc Hre] Hrs. split; try done; simpl; [by auto|].
  intros q x Hne Hq. destruct (Hsh q x Hne Hq) as [?|(l & re & -> & Hb & Hin & Hk)]; [by left|right].
  exists l, re. by split_and!; auto.
Qed.

Lemma insert_some {A} (rs : gmap addr A) (re q : addr) (r : A) :
  is_Some (rs !! q) → is_Some (<[re:=r]> rs !! q).
Proof.
  intros Hq. destruct (decide (re = q)) as [->|]; [rewrite lookup_insert_eq; by eexists|].
  by rewrite lookup_insert_ne.
Qed.

Lemma take_frame_keeps {F} (c c' : CAliChannel F) (empty p : pc F) :
  take_frame c empty = Ok (p, c') → m_id c' = m_id c ∧ (channel_ready c → channel_ready c').
Proof.
  unfold take_frame. intros ([|f q] & E & Eq)%res_bind_ok; injection Eq as <- <-.
  { done. }
  split; [done|]. intros (? & ? & ?). by split_and!.
Qed.

(** A step of a thread keeps the number and the queue of its channel and the
    resources. *)
Lemma work_keeps {F} (p : pc F) c rs fs x p' c' rs' fs' :
  work p c rs fs x = Ok (p', c', rs', fs') →
  m_id c' = m_id c ∧ (channel_ready c → channel_ready c') ∧ ∀ re, is_Some (rs !! re) → is_Some (rs' !! re).
Proof.
  intros E. destruct p; cbn [work] in E.
  - apply res_bind_ok in E as ([re r] & _ & E). destruct (DoCreateRecogRequest _ _). injection E as <- <- <- <-.
    split_and!; try done. intros q. apply insert_some.
  - by injection E as <- <- <- <-.
  - apply res_bind_ok in E as ([re r] & _ & E). destruct (DoCheakRecogToKen _ _ _). injection E as <- <- <- <-.
    split_and!; try done. intros q. apply insert_some.
  - apply res_bind_ok in E as ([q c1] & Et & E). injection E as <- <- <- <-.
    apply take_frame_keeps in Et as [? ?]. by split_and!.
  - apply res_bind_ok in E as ([q c1] & Et & E). injection E as <- <- <- <-.
    apply take_frame_keeps in Et as [? ?]. by split_and!.
  - apply res_bind_ok in E as ([q c1] & Et & E). injection E as <- <- <- <-.
    apply take_frame_keeps in Et as [? ?]. by split_and!.
  - apply res_bind_ok in E as ([re r] & _ & E). by injection E as <- <- <- <-.
  - apply res_bind_ok in E as ([] & _ & E). by injection E as <- <- <- <-.
  - apply res_bind_ok in E as ([] & _ & E). apply res_bind_ok in E as ([re r] & _ & E).
    destruct (DoDestroyRecogRequest _). apply res_bind_ok in E as (fs1 & _ & E). injection E as <- <- <- <-.
    split_and!; try done. intros q. apply insert_some.
Qed.

Lemma engine_work_keeps (e e' : engine addr) (i : nat) (x : env) :
  session_inv e → engine_work e i x = Ok e' → session_inv e' ∧ sessions e' = sessions e.
Proof.
  intros He E. unfold engine_work in E. destruct (threads e !! i) as [[l p]|]; [|by injection E as <-].
  destruct (chans e !! l) as [c|] eqn:Hc; [|done]. cbn [deref mbind res_bind] in E.
  apply res_bind_ok in E as ([[[p' c'] rs] fs] & (Hid & Hready & Hrs)%work_keeps & E). injection E as <-.
  split; [|done]. set (ws := match p' with Some _ => _ | None => _ end).
  apply (recognizer_set_inv (set_channel e l c' fs ws) rs); [|done].
  apply (inv_set_channel None e l c c' fs ws); [done..|]. by apply Hready, (ie_ready _ _ He l).
Qed.

(** A thread of the pool that has lost its channel, or whose channel has no
    resource or a closed file of the recording. *)
Definition orphaned (e : engine addr) (i : nat) : Prop :=
  ∃ l p, threads e !! i = Some (l, p) ∧
    match chans e !! l with
    | None => True
    | Some c => recoger c (recognizers e) = Fault ∨ from_option (λ h, h ∉ open_files e) False (m_file c)
    end.

Lemma work_faults {F} (p : pc F) c rs fs x :
  channel_ready c → work p c rs fs x = Fault →
  recoger c rs = Fault ∨ from_option (λ h, h ∉ fs) False (m_file c).
Proof.
  intros (Hm & [q Hq] & _) E. assert (∀ p1, is_ok (take_frame c p1) = true) as Ht.
  { intros p1. unfold take_frame. rewrite Hq. by destruct q. }
  destruct (recoger c rs) as [[re r]|] eqn:Er; [right|by left]. destruct p as [| | | | | |f|f|]; cbn [work] in E.
  1-3: rewrite ?Er in E; cbn [mbind res_bind] in E; by repeat case_match.
  1-3: match type of E with context [take_frame ?c1 ?p1] => specialize (Ht p1);
    by destruct (take_frame c1 p1) as [[]|] end.
  - by rewrite Er in E.
  - unfold RecordMain in E. destruct (m_record c); [|done]. destruct (m_file c); [|done]. by case_decide.
  - unfold lock, RecordStop, close_file in E. rewrite Hm, Er in E. cbn [mbind res_bind] in E.
    destruct (DoDestroyRecogRequest r). destruct (m_file c); [|done]. by case_decide.
Qed.

Lemma engine_work_faults (e : engine addr) (i : nat) (x : env) :
  session_inv e → engine_work e i x = Fault → orphaned e i.
Proof.
  intros He E. unfold engine_work in E. destruct (threads e !! i) as [[l p]|] eqn:Et; [|done].
  exists l, p. split; [done|]. destruct (chans e !! l) as [c|] eqn:Hc; [|done]. cbn [deref mbind res_bind] in E.
  destruct (work p c (recognizers e) (open_files e) x) as [[[[p' c'] rs] fs]|] eqn:Ew; [done|].
  eapply work_faults; [|exact Ew]. by apply (ie_ready _ _ He l).
Qed.

Lemma service_result_keeps (e : engine addr) (re : addr) (x : cstr) :
  session_inv e → session_inv (service_result e re x) ∧ sessions (service_result e re x) = sessions e.
Proof.
  intros He. unfold service_result. destruct (recognizers e !! re); [|done]. split; [|done].
  apply recognizer_set_inv; [done|]. intros q. apply insert_some.
Qed.

Lemma ali_step s e : server_inv s → session_inv e → sessions e = sessions (ali s) →
  let s' := set_plugin s (plugin s) e (to_plugin s) [] in server_inv s' ∧ quiet s s'.
Proof.
  intros Hs He Hse s'. pose proof Hs as [Hsm _]. apply plugin_turn; try done; [apply Hsm|..].
  - rewrite Hse. apply Hsm.
  - by rewrite app_nil_r.
Qed.

(** ** Runs *)

(** What may happen next: the client sends a well-formed request with a new
    identifier when it has the response to the last one; a frame has audio, and
    the queue of the channel has room for it; the step of a thread returns. *)
Definition enabled s (ev : server_event R) : Prop :=
  match ev with
  | ClientRequest m => session_request s = None ∧ message_ok m ∧ is_request m ∧ id_of m ∉ id_of <$> received s
  | AudioFrame a frame => is_ok (frame_level frame) = true ∧
      ∀ ch e out, Ali_recog_stream_write fresh uninit json INTERMEDIATE (plugin s) (ali s) pCh mode a frame ≠
        Ok (false, ch, e, out)
  | PoolThread i x => is_ok (engine_work (ali s) i x) = true
  | PluginTask _ | ServerTask | ServiceResult _ _ => True
  end.

Fixpoint enabled_run s (evs : list (server_event R)) : Prop :=
  match evs with
  | [] => True
  | ev :: evs => enabled s ev ∧ ∀ s', step s ev = Ok s' → enabled_run s' evs
  end.

Lemma server_step_cases s (ev : server_event R) :
  server_inv s → enabled s ev →
  ∃ s', step s ev = Ok s' ∧ server_inv s' ∧
    (quiet s s' ∨ ev = ServerTask ∨ ∃ m, ev = ClientRequest m ∧ session_request s = None).
Proof.
  intros Hs Hev. destruct ev as [m|se|a frame| |i x|re x]; cbn [enabled] in Hev.
  - destruct Hev as (Hi & ? & ? & ?). destruct (client_step s m) as (s' & ? & ?); try done.
    exists s'. split_and!; try done. right; right. by exists m.
  - destruct (plugin_task_step s se Hs) as (s' & ? & ? & ?). exists s'. by auto.
  - destruct Hev as [Hl _]. destruct (frame_step s a frame Hs (level_not_empty _ _ Hl)) as (s' & ? & ? & ?). exists s'. by auto.
  - cbn [server_step]. destruct (to_machine s) as [|m rest] eqn:Em; [by exists s; auto|].
    destruct (server_task_step s m rest Hs Em) as (s' & ? & ?). exists s'. by auto.
  - cbn [server_step]. destruct (engine_work (ali s) i x) as [e|] eqn:E; [|done]. eexists. split; [done|].
    destruct (engine_work_keeps _ _ _ _ (mi_ali _ (proj1 Hs)) E). destruct (ali_step s e); auto.
  - eexists. split; [done|]. destruct (service_result_keeps (ali s) re x (mi_ali _ (proj1 Hs))).
    destruct (ali_step s (service_result (ali s) re x)); auto.
Qed.

Lemma server_step_inv s (ev : server_event R) :
  server_inv s → enabled s ev → ∃ s', step s ev = Ok s' ∧ server_inv s'.
Proof. intros Hs Hev. destruct (server_step_cases s ev Hs Hev) as (s' & ? & ? & _). by exists s'. Qed.

Lemma server_run_inv (evs : list (server_event R)) s :
  server_inv s → enabled_run s evs → ∃ s', run s evs = Ok s' ∧ server_inv s'.
Proof.
  revert s. induction evs as [|ev evs IH]; intros s Hs Hevs; [by exists s|]. destruct Hevs as [Hev Hevs].
  destruct (server_step_inv s ev Hs Hev) as (s1 & E & Hs1). destruct (IH s1 Hs1 (Hevs s1 E)) as (s2 & E2 & Hs2).
  exists s2. cbn [server_run]. by rewrite E.
Qed.

(** A recognizer channel that was just set up on the engine [e]. *)
Definition new_server (rvt : mrcp_header_vtable_t R) (v : mrcp_version_e) (garbage : bool) (e : engine addr)
    : server :=
  mk_server None (mrcp_recog_state_machine_create fresh rvt v) (Ali_recog_channel_create garbage) e [] [] [] [].

Lemma new_server_inv (rvt : mrcp_header_vtable_t R) (v : mrcp_version_e) (garbage : bool) (e : engine addr) :
  (Z.of_nat (field_count rvt) < 2 ^ 32)%Z → session_inv e → server_inv (new_server rvt v garbage e).
Proof.
  intros Hr He. split; split; simpl; try done; try constructor; try by apply recog_create_inv.
Qed.

(** What a client that follows the protocol and the media thread do: a request
    is well formed, has a new identifier and is sent when the response to the
    last one has come; a frame is written when the queue of the channel has room
    for it.  The threads and the service do what they like. *)
Definition conforms s (ev : server_event R) : Prop :=
  match ev with
  | ClientRequest m => session_request s = None ∧ message_ok m ∧ is_request m ∧ id_of m ∉ id_of <$> received s
  | AudioFrame a frame =>
      ∀ ch e out, Ali_recog_stream_write fresh uninit json INTERMEDIATE (plugin s) (ali s) pCh mode a frame ≠
        Ok (false, ch, e, out)
  | PoolThread _ _ | PluginTask _ | ServerTask | ServiceResult _ _ => True
  end.

Fixpoint conforming s (evs : list (server_event R)) : Prop :=
  match evs with
  | [] => True
  | ev :: evs => conforms s ev ∧ ∀ s', step s ev = Ok s' → conforming s' evs
  end.

(** What can crash the server: an audio frame without samples during a
    recognition, and a thread of the pool whose channel was taken from it. *)
Definition crash s (ev : server_event R) : Prop :=
  match ev with
  | AudioFrame _ frame => empty_audio (plugin s) frame
  | PoolThread i _ => orphaned (ali s) i
  | _ => False
  end.

Lemma enabled_conforming (evs : list (server_event R)) s : enabled_run s evs → conforming s evs.
Proof.
  revert s. induction evs as [|ev evs IH]; intros s Hevs; [done|]. destruct Hevs as [Hev Hevs].
  split; [|by auto]. destruct ev; try done. exact (proj2 Hev).
Qed.

Lemma conforming_step s (ev : server_event R) :
  server_inv s → conforms s ev →
  match step s ev with
  | Ok s' => server_inv s' ∧ (quiet s s' ∨ ev = ServerTask ∨ ∃ m, ev = ClientRequest m ∧ session_request s = None)
  | Fault => crash s ev
  end.
Proof.
  intros Hs Hev. assert (enabled s ev → match step s ev with
    | Ok s' => server_inv s' ∧ (quiet s s' ∨ ev = ServerTask ∨ ∃ m, ev = ClientRequest m ∧ session_request s = None)
    | Fault => crash s ev end) as Hok.
  { intros H'. by destruct (server_step_cases s ev Hs H') as (s' & -> & ?). }
  destruct ev as [m|se|a frame| |i x|re x]; cbn [conforms] in Hev; try (by apply Hok).
  - destruct (step s (AudioFrame a frame)) as [s'|] eqn:E; cbn [server_step crash] in *.
    + destruct (frame_step s a frame Hs) as (s1 & E1 & ? & ?).
      { intros Hf%(empty_audio_faults fresh uninit json INTERMEDIATE (plugin s) (ali s) pCh mode a).
        by rewrite Hf in E. }
      cbn [server_step] in E1. rewrite E in E1. injection E1 as <-. by auto.
    + apply (frame_faults fresh uninit json INTERMEDIATE _ (ali s) pCh mode a); [apply Hs..|].
      by destruct (Ali_recog_stream_write _ _ _ _ _ _ _ _ _ _) as [[[[? ?] ?] ?]|].
  - destruct (engine_work (ali s) i x) as [e|] eqn:E.
    + apply Hok. cbn [enabled]. by rewrite E.
    + cbn [server_step crash]. rewrite E. by apply (engine_work_faults _ _ x), E; apply Hs.
Qed.

(** A run goes on, keeping what the steps keep, until an event crashes the
    server. *)
Lemma conforming_run (P : server → Prop) (evs : list (server_event R)) s :
  (∀ s ev s', server_inv s → P s → conforms s ev → step s ev = Ok s' → P s') →
  server_inv s → P s → conforming s evs →
  ∃ done rest s', evs = done ++ rest ∧ run s done = Ok s' ∧ server_inv s' ∧ P s' ∧
    match rest with [] => True | ev :: _ => step s' ev = Fault ∧ crash s' ev end.
Proof.
  intros Hkeep. revert s. induction evs as [|ev evs IH]; intros s Hs HP Hevs; [by exists [], [], s|].
  destruct Hevs as [Hev Hevs]. pose proof (conforming_step s ev Hs Hev) as Hst. destruct (step s ev) as [s1|] eqn:E.
  - destruct Hst as [Hs1 _].
    destruct (IH s1 Hs1 (Hkeep s ev s1 Hs HP Hev E) (Hevs s1 eq_refl)) as (done & rest & s2 & -> & E2 & Hs2 & HP2 & Hr).
    exists (ev :: done), rest, s2. split_and!; try done. cbn [server_run]. by rewrite E.
  - exists [], (ev :: evs), s. by split_and!.
Qed.

Lemma conforming_inv (evs : list (server_event R)) s s' :
  server_inv s → conforming s evs → run s evs = Ok s' → server_inv s'.
Proof.
  revert s. induction evs as [|ev evs IH]; intros s Hs Hevs E; [by injection E as <-|]. destruct Hevs as [Hev Hevs].
  pose proof (conforming_step s ev Hs Hev) as Hst. cbn [server_run] in E.
  destruct (step s ev) as [s1|] eqn:E1; [|done]. by apply (IH s1); [apply Hst|apply Hevs|].
Qed.

(** C4: The recognizer channel of the server serves the client in turn, and what
    can crash it is known.  From its creation on, whatever the client asks, in
    any interleaving of the server task, the task of the plugin, the media
    thread, the threads of the pool and the callbacks of the service, the events
    are all handled up to the first that crashes the server, if there is one:
    an audio frame without samples during a recognition, or the step of a thread
    of the pool whose channel has lost its resource or its file.  Up to there
    the responses the client got are, in order, the responses to its requests,
    one for each with its identifier and method, except that the last request
    may still be waiting. *)
Theorem server_answers_in_turn (rvt : mrcp_header_vtable_t R) (v : mrcp_version_e) (garbage : bool)
  (e : engine addr) (evs : list (server_event R))
  (Hr : (Z.of_nat (field_count rvt) < 2 ^ 32)%Z) (He : session_inv e)
  (Hevs : conforming (new_server rvt v garbage e) evs) :
  ∃ done rest s, evs = done ++ rest ∧ run (new_server rvt v garbage e) done = Ok s ∧
    key <$> received s =
      (key <$> filter is_response (to_client s)) ++ (key <$> option_list (session_request s)) ∧
    match rest with [] => True | ev :: _ => step s ev = Fault ∧ crash s ev end.
Proof.
  destruct (conforming_run (λ _, True) evs _ (λ _ _ _ _ _ _ _, I) (new_server_inv rvt v garbage e Hr He) I Hevs)
    as (done & rest & s & Ed & E & [_ Hs] & _ & Hrest).
  exists done, rest, s. split_and!; try done. apply Hs.
Qed.

(** ** Requests are answered *)

(** Nothing waits in the queue of the machine, and the request of the session,
    if any, is the active one and the only one under way. *)
Record prompt_inv s : Prop := {
  pi_queue : queue (machine s) = [];
  pi_pending : is_pending (machine s) = false;
  pi_flight : key <$> flight s ≡ₚ key <$> option_list (session_request s);
  pi_active : session_request s = None ∨ key <$> active_request (machine s) = key <$> session_request s;
  pi_method : from_option (λ m, method_id (start_line m) < RECOGNIZER_METHOD_COUNT) True (session_request s)
}.

(** The client asks for what the recognizer has, and for a recognition when none
    is in progress. *)
Definition polite s (ev : server_event R) : Prop :=
  match ev with
  | ClientRequest m =>
      method_id (start_line m) < RECOGNIZER_METHOD_COUNT ∧
      (method_id (start_line m) = RECOGNIZER_RECOGNIZE → state (machine s) ≠ RECOGNIZER_STATE_RECOGNIZING)
  | _ => True
  end.

Lemma request_prompt s m x (o : list (action R)) :
  prompt_inv s → session_request s = None → polite s (ClientRequest m) → request_trace m (machine s) x o →
  prompt_inv (foldl on_action (mk_server (Some m) x (plugin s) (ali s) (to_plugin s) (to_machine s)
    (received s ++ [m]) (to_client s)) o).
Proof.
  intros [Pq Pp Pf _ _] Hidle [Hlt Hrec] Htr. rewrite Hidle in Pf. simpl in Pf. apply Permutation_nil_r, fmap_nil_inv in Pf.
  destruct Htr as [(-> & _ & Hge)|[(y & -> & Hy & Ea & Ep & Eq)|(r & -> & Hr & Ea & Ep & Hq)]]; simpl; [lia|..].
  - unfold state_machine_on_message_dispatch. rewrite (proj2 (proj2 Hy)). split; cbn [session_request machine option_list]; try done.
    + by rewrite Eq.
    + by rewrite Ep.
    + apply app_nil in Pf as [-> Pf]. unfold flight. cbn [to_plugin plugin to_machine]. rewrite Pf. simpl.
      by rewrite (key_about _ _ _ Hy).
    + right. rewrite Ea. simpl. by rewrite (key_about _ _ _ Hy).
  - unfold state_machine_on_message_dispatch. rewrite (proj2 (proj2 Hr)). split; cbn [session_request machine]; try done;
      [|by rewrite Ep| |by left].
    + destruct Hq as [Hq|(y & _ & _ & Hmid & Hst)]; [|by destruct Hrec].
      rewrite Pq in Hq. by apply sublist_nil_r in Hq.
    + unfold flight in *. simpl in *. by rewrite Pf.
Qed.
(** What is under way is the request of the session. *)
Lemma prompt_single s m : prompt_inv s → m ∈ flight s →
  flight s = [m] ∧ key <$> session_request s = Some (key m).
Proof.
  intros [_ _ Pf _ _] Hm. destruct (session_request s) as [q|]; simpl in *.
  - apply Permutation_singleton_r in Pf. destruct (flight s) as [|x [|y l]]; simpl in Pf; try done.
    apply list_elem_of_singleton in Hm as ->. split; [done|]. unfold key. by injection Pf as -> ->.
  - apply Permutation_nil_r, fmap_nil_inv in Pf. rewrite Pf in Hm. by apply elem_of_nil in Hm.
Qed.

Lemma response_prompt s m (rest : list message) x (o : list (action R)) :
  prompt_inv s → to_machine s = m :: rest → is_response m → response_trace m (machine s) x o →
  let s' := foldl on_action (mk_server (session_request s) x (plugin s) (ali s) (to_plugin s) rest
    (received s) (to_client s)) o in
  prompt_inv s' ∧ session_request s' = None.
Proof.
  intros Hs Em Hm Htr. assert (m ∈ flight s) as Hin.
  { unfold flight. rewrite Em, filter_cons_True by done. set_solver. }
  destruct (prompt_single s m Hs Hin) as [Hfl Hk]. destruct Hs as [Pq Pp _ Pa Pm].
  destruct Pa as [Hn|Pa]; [by rewrite Hn in Hk|].
  assert (∀ a, active_request (machine s) = Some a → key a = key m) as Hact.
  { intros a Ha. rewrite Ha, Hk in Pa. by apply (inj Some) in Pa. }
  assert (method_id (start_line m) < RECOGNIZER_METHOD_COUNT) as Hlt.
  { destruct (session_request s) as [q|]; [|done]. apply (inj Some) in Hk. by injection Hk as _ <-. }
  destruct Htr as [(-> & _ & [Hno|Hge])|(a & Ha & Hid & [(_ & _ & Hpd & _)|(r & p & Hr & -> & [Hsub Hp] & Hnone & _)])].
  - destruct (active_request (machine s)) as [a|] eqn:Ha; [|by rewrite Hk in Pa].
    destruct (Hno a eq_refl). specialize (Hact a eq_refl). by injection Hact.
  - lia.
  - by rewrite Pp in Hpd.
  - rewrite Pq in Hsub. apply sublist_nil_r, app_nil in Hsub as [Hpn Hq]. destruct p; [done|]. simpl.
    unfold state_machine_on_message_dispatch. rewrite Hr, Hm. split; [|done].
    split; cbn [session_request machine]; try done; [by rewrite Hp| |by left].
    unfold flight in *. rewrite Em, filter_cons_True in Hfl by done. cbn [to_plugin plugin to_machine].
    apply (f_equal length) in Hfl. rewrite !length_app in Hfl. simpl in Hfl.
    match goal with |- key <$> ?l ≡ₚ _ => assert (l = []) as ->; [|done] end.
    apply nil_length_inv. rewrite !length_app. lia.
Qed.
Lemma event_prompt s m (rest : list message) x (o : list (action R)) :
  prompt_inv s → to_machine s = m :: rest → ¬ is_response m → event_trace m (machine s) x o →
  let s' := foldl on_action (mk_server (session_request s) x (plugin s) (ali s) (to_plugin s) rest
    (received s) (to_client s)) o in
  prompt_inv s' ∧ session_request s' = session_request s ∧ plugin s' = plugin s ∧
    to_plugin s' = to_plugin s ∧ to_machine s' = rest.
Proof.
  intros [Pq Pp Pf Pa Pm] Em Hm Htr.
  assert (key <$> to_plugin s ++ option_list (stop_response (plugin s)) ++ filter is_response rest ≡ₚ
    key <$> option_list (session_request s)) as Hf.
  { unfold flight in Pf. by rewrite Em, filter_cons_False in Pf. }
  destruct Htr as [(-> & Ea & Ep & Eq)|(e & p & He & -> & [Hsub Hp] & Hnone)].
  - simpl. split; [|done]. split; cbn [session_request machine]; try done; by rewrite ?Ea, ?Ep, ?Eq.
  - rewrite Pq in Hsub. apply sublist_nil_r, app_nil in Hsub as [Hpn Hq]. destruct p; [done|]. simpl.
    unfold state_machine_on_message_dispatch. rewrite (proj2 (proj2 He)). split; [|done].
    split; cbn [session_request machine]; try done; by rewrite ?Hp, ?Hnone.
Qed.

(** A turn of the server task: the response goes to the client, or an event is
    taken. *)
Lemma server_task_prompt s m (rest : list message) s' :
  prompt_inv s → server_inv s → to_machine s = m :: rest → step s ServerTask = Ok s' →
  prompt_inv s' ∧ (session_request s' = None ∨ session_request s' = session_request s ∧
    plugin s' = plugin s ∧ to_plugin s' = to_plugin s ∧ to_machine s' = rest).
Proof.
  intros Hp [Hs _] Em E. cbn [server_step] in E. rewrite Em in E.
  unfold mrcp_server_on_engine_channel_message, machine_update in E. cbn [machine] in E.
  destruct (recog_state_update fresh uninit m (machine s)) as [[[b x] o]|] eqn:Eu; [|done].
  cbn [mbind res_bind] in E. injection E as <-. unfold set_machine. cbn [session_request machine plugin ali
    to_plugin to_machine received to_client].
  pose proof (mi_to_machine _ Hs) as Hall. rewrite Em in Hall. apply Forall_cons in Hall as [(_ & Hnr & _) _].
  destruct (update_traces fresh uninit m (machine s) (mi_on _ Hs) b x o Eu) as [_ Htr].
  unfold update_trace in Htr. destruct (message_type (start_line m)) eqn:Ht; [|done|..].
  - destruct (event_prompt s m rest x o) as (? & ?); try done; [unfold is_response; by rewrite Ht| |by auto].
    left. by destruct Htr.
  - destruct (response_prompt s m rest x o) as (? & ?); try done. by auto.
  - destruct (event_prompt s m rest x o) as (? & ?); try done; [unfold is_response; by rewrite Ht|by auto].
Qed.

(** The plugin changed; what is under way is for the same requests. *)
Lemma plugin_prompt s ch e (rest out : list message) :
  prompt_inv s → key <$> flight (set_plugin s ch e rest out) ≡ₚ key <$> flight s →
  prompt_inv (set_plugin s ch e rest out).
Proof. intros [Pq Pp Pf Pa Pm] Hf. split; cbn [session_request machine set_plugin]; try done. by rewrite Hf. Qed.

Lemma plugin_task_prompt s (se : start_env) s' :
  prompt_inv s → server_inv s → step s (PluginTask se) = Ok s' →
  prompt_inv s' ∧ to_plugin s' = [] ∧ session_request s' = session_request s.
Proof.
  intros Hp [Hs _] E. cbn [server_step] in E. unfold Ali_recog_msg_process in E.
  destruct (to_plugin s) as [|m rest] eqn:Em; [by injection E as <-|].
  pose proof (mi_to_plugin _ Hs) as Hall. rewrite Em in Hall. apply Forall_cons in Hall as [(Hm & _) _].
  destruct (dispatch_spec fresh uninit (plugin s) (ali s) pCh m se (mi_ali _ Hs) Hm)
    as (ch & e & out & Ed & _ & _ & _ & Hout). rewrite Ed in E. cbn [mbind res_bind] in E. injection E as <-.
  destruct (prompt_single s m Hp) as [Hfl _]; [unfold flight; rewrite Em; by left|].
  assert (rest = [] ∧ option_list (stop_response (plugin s)) = [] ∧ filter is_response (to_machine s) = [])
    as (-> & Hst & Hft).
  { unfold flight in Hfl. rewrite Em in Hfl. injection Hfl as Hfl. by apply app_nil in Hfl as [? [? ?]%app_nil]. }
  split; [|done]. apply plugin_prompt; [done|]. rewrite Hfl. unfold flight. cbn [set_plugin to_plugin plugin to_machine].
  rewrite filter_app, Hft. case_decide.
  - destruct Hout as (-> & _ & r & -> & _ & Hab). simpl. by rewrite (key_about _ _ _ Hab).
  - destruct Hout as (-> & r & -> & _ & Hab). rewrite Hst, filter_cons_True by apply Hab. simpl.
    by rewrite (key_about _ _ _ Hab).
Qed.

Lemma frame_prompt s (a : addr) (frame : mpf_frame_t) s' :
  prompt_inv s → server_inv s → is_ok (frame_level frame) = true → step s (AudioFrame a frame) = Ok s' →
  prompt_inv s' ∧ stop_response (plugin s') = None ∧ to_plugin s' = to_plugin s ∧
    session_request s' = session_request s.
Proof.
  intros Hp [Hs _] Hlevel E. cbn [server_step] in E. pose proof (mi_stop _ Hs) as Hst.
  destruct (frame_spec fresh uninit json INTERMEDIATE (plugin s) (ali s) pCh mode a frame (mi_ali _ Hs)
    (level_not_empty _ _ Hlevel) (mi_request _ Hs)) as (b & ch & e & out & Ew & _ & _ & Hstop & Hout). rewrite Ew in E.
  cbn [mbind res_bind] in E. injection E as <-. split; [|done]. apply plugin_prompt; [done|].
  unfold flight. cbn [set_plugin to_plugin plugin to_machine]. rewrite Hstop, filter_app.
  destruct (stop_response (plugin s)) as [r|].
  - destruct Hout as [-> _]. rewrite filter_cons_True by apply Hst. apply fmap_Permutation.
    cbn [option_list]. rewrite filter_nil. solve_Permutation.
  - assert (filter is_response out = []) as ->; [|by rewrite app_nil_r].
    apply filter_none. destruct (recog_request (plugin s)) as [m|]; [|by destruct Hout as [-> _]].
    destruct Hout as [Hall _]. eapply Forall_impl; [done|]. cbn beta. intros x (id & _ & _ & _ & Ht).
    unfold is_response. by rewrite Ht.
Qed.
Lemma server_step_prompt s (ev : server_event R) s' :
  prompt_inv s → server_inv s → enabled s ev → polite s ev → step s ev = Ok s' → prompt_inv s'.
Proof.
  intros Hp Hs Hev Hpol E. destruct ev as [m|se|a frame| |i x|re x].
  - cbn [server_step] in E. unfold mrcp_server_on_channel_message, mrcp_server_on_message_receive, machine_update in E. cbn [machine] in E.
    destruct (recog_state_update fresh uninit m (machine s)) as [[[b x] o]|] eqn:Eu; [|done].
    cbn [mbind res_bind] in E. injection E as <-. destruct Hev as (Hidle & _ & Ht & _).
    destruct (update_traces fresh uninit m (machine s) (mi_on _ (proj1 Hs)) b x o Eu) as [_ Htr].
    unfold update_trace in Htr. rewrite Ht in Htr. exact (request_prompt s m x o Hp Hidle Hpol Htr).
  - by apply (plugin_task_prompt s se).
  - destruct Hev as [Hl _]. by apply (frame_prompt s a frame).
  - destruct (to_machine s) as [|m rest] eqn:Em.
    + cbn [server_step] in E. rewrite Em in E. by injection E as <-.
    + by apply (server_task_prompt s m rest).
  - cbn [server_step] in E. apply res_bind_ok in E as (e & _ & E). injection E as <-. apply plugin_prompt; [done|].
    unfold flight. cbn [set_plugin to_plugin plugin to_machine]. by rewrite app_nil_r.
  - cbn [server_step] in E. injection E as <-. apply plugin_prompt; [done|].
    unfold flight. cbn [set_plugin to_plugin plugin to_machine]. by rewrite app_nil_r.
Qed.

Fixpoint polite_run s (evs : list (server_event R)) : Prop :=
  match evs with
  | [] => True
  | ev :: evs => polite s ev ∧ ∀ s', step s ev = Ok s' → polite_run s' evs
  end.

Lemma server_run_prompt (evs : list (server_event R)) s :
  prompt_inv s → server_inv s → enabled_run s evs → polite_run s evs →
  ∃ s', run s evs = Ok s' ∧ server_inv s' ∧ prompt_inv s'.
Proof.
  revert s. induction evs as [|ev evs IH]; intros s Hp Hs Hevs Hpols; [by exists s|].
  destruct Hevs as [Hev Hevs], Hpols as [Hpol Hpols].
  destruct (server_step_inv s ev Hs Hev) as (s1 & E & Hs1).
  pose proof (server_step_prompt s ev s1 Hp Hs Hev Hpol E) as Hp1.
  destruct (IH s1 Hp1 Hs1 (Hevs s1 E) (Hpols s1 E)) as (s2 & E2 & Hs2).
  exists s2. cbn [server_run]. by rewrite E.
Qed.

(** Only the client adds requests. *)
Lemma actions_received (o : list (action R)) s : received (foldl on_action s o) = received s.
Proof.
  revert s. induction o as [|[m|] o IH]; intros s; simpl; [done|rewrite IH|apply IH].
  unfold state_machine_on_message_dispatch. by destruct (message_type (start_line m)).
Qed.

Definition not_client (ev : server_event R) : Prop := match ev with ClientRequest _ => False | _ => True end.

Lemma step_received s (ev : server_event R) s' : not_client ev → step s ev = Ok s' → received s' = received s.
Proof.
  intros Hev E. destruct ev as [m|se|a frame| |i x|re x]; [done|..]; cbn [server_step] in E.
  - unfold Ali_recog_msg_process in E. destruct (to_plugin s); [by injection E as <-|].
    apply res_bind_ok in E as ([[ch e] out] & _ & E). by injection E as <-.
  - apply res_bind_ok in E as ([[[b ch] e] out] & _ & E). by injection E as <-.
  - destruct (to_machine s); [by injection E as <-|]. apply res_bind_ok in E as ([[b x] o] & _ & E).
    injection E as <-. by rewrite actions_received.
  - apply res_bind_ok in E as (e & _ & E). by injection E as <-.
  - by injection E as <-.
Qed.

Lemma run_received (evs : list (server_event R)) s s' :
  Forall not_client evs → run s evs = Ok s' → received s' = received s.
Proof.
  intros Hevs. revert s. induction Hevs as [|ev evs Hev Hevs IH]; intros s E; [by injection E as <-|].
  cbn [server_run] in E. apply res_bind_ok in E as (s1 & E1 & E). rewrite (IH s1 E).
  by apply (step_received s ev).
Qed.

(** With all requests in the queue of the server task, it answers. *)
Lemma server_task_answers (l : list message) s :
  prompt_inv s → server_inv s → to_machine s = l → to_plugin s = [] → stop_response (plugin s) = None →
  ∃ n s', run s (replicate n ServerTask) = Ok s' ∧ server_inv s' ∧ session_request s' = None.
Proof.
  revert s. induction l as [|m l IH]; intros s Hp Hs Em Eq Est.
  - exists 0, s. split; [done|]. split; [done|]. pose proof (pi_flight _ Hp) as Hf. unfold flight in Hf.
    rewrite Em, Eq, Est in Hf. simpl in Hf. destruct (session_request s); [|done].
    by apply Permutation_nil_l in Hf.
  - destruct (server_step_inv s ServerTask Hs I) as (s1 & E & Hs1).
    destruct (server_task_prompt s m l s1 Hp Hs Em E) as [Hp1 [Hd|(_ & Ep & Eq1 & Em1)]].
    + exists 1, s1. split; [|done]. cbn [replicate server_run]. by rewrite E.
    + destruct (IH s1 Hp1 Hs1 Em1) as (n & s2 & E2 & Hd); [by rewrite Eq1|by rewrite Ep|].
      exists (S n), s2. split; [|done]. cbn [replicate server_run]. by rewrite E.
Qed.

Lemma answer_arrives s (se : start_env) (a : addr) (frame : mpf_frame_t) :
  prompt_inv s → server_inv s → is_ok (frame_level frame) = true →
  ∃ n s', run s (PluginTask se :: AudioFrame a frame :: replicate n ServerTask) = Ok s' ∧
    server_inv s' ∧ session_request s' = None.
Proof.
  intros Hp Hs Hl. destruct (server_step_inv s (PluginTask se) Hs I) as (s1 & E1 & Hs1).
  destruct (plugin_task_prompt s se s1 Hp Hs E1) as (Hp1 & Eq1 & _).
  destruct (frame_step s1 a frame Hs1 (level_not_empty _ _ Hl)) as (s2 & E2 & Hs2 & _).
  destruct (frame_prompt s1 a frame s2 Hp1 Hs1 Hl E2) as (Hp2 & Est2 & Eq2 & _).
  destruct (server_task_answers (to_machine s2) s2 Hp2 Hs2 eq_refl) as (n & s3 & E3 & Hd); [by rewrite Eq2|done|].
  exists n, s3. split; [|done]. cbn [server_run]. rewrite E1. cbn [mbind res_bind]. by rewrite E2.
Qed.

(** C5: Every request of the client is answered.  When the client asks for
    recognitions one at a time, then after any run of the recognizer channel that
    no thread of the pool and no audio frame crashes, a turn of the plugin, one
    audio frame with samples and enough turns of the server task make the response
    to the outstanding request, if any, reach the client. *)
Theorem server_answers (rvt : mrcp_header_vtable_t R) (v : mrcp_version_e) (garbage : bool)
  (e : engine addr) (evs : list (server_event R)) (se : start_env) (a : addr) (frame : mpf_frame_t)
  (Hr : (Z.of_nat (field_count rvt) < 2 ^ 32)%Z) (He : session_inv e)
  (Hevs : enabled_run (new_server rvt v garbage e) evs)
  (Hpol : polite_run (new_server rvt v garbage e) evs) (Hl : is_ok (frame_level frame) = true) :
  ∃ s n s', run (new_server rvt v garbage e) evs = Ok s ∧
    run s (PluginTask se :: AudioFrame a frame :: replicate n ServerTask) = Ok s' ∧
    received s' = received s ∧ key <$> received s' = key <$> filter is_response (to_client s').
Proof.
  destruct (server_run_prompt evs (new_server rvt v garbage e)) as (s & E & Hs & Hp); try done.
  { split; simpl; try done. by left. }
  { by apply new_server_inv. }
  destruct (answer_arrives s se a frame Hp Hs Hl) as (n & s' & E' & [_ Hs'] & Hd).
  exists s, n, s'. split; [done|]. split; [done|]. split.
  - refine (run_received _ s s' _ E'). repeat constructor. by apply Forall_replicate.
  - pose proof (ti_answers _ Hs') as Ha. rewrite Hd in Ha. simpl in Ha. by rewrite app_nil_r in Ha.
Qed.

(** ** Requests that stay without an answer *)

(** The request [m] the client waits for is neither under way nor pending. *)
Definition lost s m : Prop :=
  session_request s = Some m ∧ id_of m ∉ id_of <$> flight s ++ queue (machine s).

Lemma lost_weaken s s' m :
  lost s m → session_request s' = session_request s →
  flight s' ++ queue (machine s') ⊆ flight s ++ queue (machine s) → lost s' m.
Proof.
  intros [Hq Hn] Es Hsub. split; [by rewrite Es|]. intros (x & Ex & Hx)%list_elem_of_fmap. apply Hn.
  apply list_elem_of_fmap. exists x. split; [done|by apply Hsub].
Qed.

(** The machine takes a message and starts the request [p], if any. *)
Lemma machine_lost s m x (p : option message) (rest tc : list message) :
  lost s m → server_inv s → rest ⊆ to_machine s → option_list p ++ queue x `sublist_of` queue (machine s) →
  lost (foldl on_action (mk_server (session_request s) x (plugin s) (ali s) (to_plugin s) rest (received s) tc)
    (pending_actions p)) m.
Proof.
  intros Hl [Hs _] Hrest Hsub. pose proof (sublist_Forall _ _ _ Hsub (mi_queue _ Hs)) as Hq.
  apply Forall_app in Hq as [Hpq _]. rewrite route_pending.
  2: { destruct p; [|done]. simpl in Hpq. rewrite Forall_singleton in Hpq. apply Hpq. }
  apply (lost_weaken s); [done..|]. unfold flight. cbn [to_plugin plugin to_machine machine].
  apply sublist_subseteq in Hsub. intros y. rewrite !elem_of_app, !list_elem_of_filter. set_solver.
Qed.

Lemma server_task_lost s m s' : lost s m → server_inv s → step s ServerTask = Ok s' → lost s' m.
Proof.
  intros Hl Hs E. pose proof Hs as [Hsm [Hids _ Hown _]]. cbn [server_step] in E.
  destruct (to_machine s) as [|r rest] eqn:Em; [by injection E as <-|].
  unfold mrcp_server_on_engine_channel_message, machine_update in E. cbn [machine] in E.
  destruct (recog_state_update fresh uninit r (machine s)) as [[[b x] o]|] eqn:Eu; [|done].
  cbn [mbind res_bind] in E. injection E as <-. unfold set_machine. cbn [session_request machine plugin ali
    to_plugin to_machine received to_client].
  assert (rest ⊆ to_machine s) as Hrest by (rewrite Em; set_solver).
  destruct (update_traces fresh uninit r (machine s) (mi_on _ Hsm) b x o Eu) as [_ Htr].
  assert (∀ x', queue x' = queue (machine s) → lost (mk_server (session_request s) x' (plugin s) (ali s)
    (to_plugin s) rest (received s) (to_client s)) m) as Hsame.
  { intros x' Eq. apply (machine_lost s m x' None rest _ Hl Hs Hrest). by rewrite Eq. }
  pose proof (mi_to_machine _ Hsm) as Hall. rewrite Em in Hall. apply Forall_cons in Hall as [(_ & Hnr & Hask) _].
  unfold update_trace in Htr. destruct (message_type (start_line r)) eqn:Ht; [|done|..].
  - destruct Htr as (-> & _ & _ & Eq). by apply Hsame.
  - destruct Htr as [(-> & (_ & _ & Eq) & _)|(a & Ha & Hid & [(-> & _ & _ & _ & Eq)|(y & p & Hy & -> & [Hsub _] & _ & Hrec)])];
      [by apply Hsame..|].
    exfalso. assert (r ∈ flight s) as Hin.
    { unfold flight. rewrite Em, filter_cons_True by done. set_solver. }
    pose proof (mi_active _ Hsm) as Hact. rewrite Ha in Hact.
    pose proof (asked_same _ r a Hids (Hask Ht) Hact (eq_sym Hid)) as Hk. destruct Hl as [Hq Hn].
    destruct (Hown a Ha) as [Hturn|[Hpd Hrc]].
    + rewrite (Hid : id_of a = id_of r). by apply list_elem_of_fmap_2.
    + rewrite Hq in Hturn. apply (inj Some) in Hturn. apply Hn. rewrite fmap_app. apply elem_of_app. left.
      apply list_elem_of_fmap. exists r. split; [|done]. rewrite <- Hk in Hturn. by injection Hturn.
    + rewrite Hrec in Hpd; [done|]. by injection Hk as _ ->.
  - destruct Htr as [(-> & _ & _ & Eq)|(y & p & Hy & -> & [Hsub _] & _)]; [by apply Hsame|].
    simpl. unfold state_machine_on_message_dispatch at 1. rewrite (proj2 (proj2 Hy)).
    exact (machine_lost s m x p rest _ Hl Hs Hrest Hsub).
Qed.

Lemma quiet_lost s s' m : lost s m → quiet s s' → lost s' m.
Proof.
  intros [Hq Hn] (Es & Em & Hf). split; [by rewrite Es|]. rewrite Em. rewrite fmap_app in Hn |- *.
  intros [Hx|Hx]%elem_of_app; apply Hn, elem_of_app; [left|by right]. by eapply elem_of_submseteq.
Qed.

Lemma lost_step s (ev : server_event R) s' m :
  server_inv s → lost s m → conforms s ev → step s ev = Ok s' → lost s' m.
Proof.
  intros Hs Hl Hev E. pose proof (conforming_step s ev Hs Hev) as Hc. rewrite E in Hc.
  destruct Hc as [_ [Hq|[->|(y & -> & Hi)]]]; [by eapply quiet_lost|by eapply server_task_lost|].
  destruct Hl as [Hl _]. by rewrite Hi in Hl.
Qed.

(** The completion of the recognition in progress reaches the machine while [p]
    is the first of its queue: [p] is started and is the active request now. *)
Lemma completion_step s m (rest : list message) (c p : message) (q : list message) :
  server_inv s → to_machine s = m :: rest → message_type (start_line m) = MRCP_MESSAGE_TYPE_EVENT →
  method_id (start_line m) = RECOGNIZER_RECOGNITION_COMPLETE → recog (machine s) = Some c → id_of c = id_of m →
  method_id ∘ start_line <$> active_request (machine s) ≠ Some RECOGNIZER_STOP → queue (machine s) = p :: q →
  ∃ s', step s ServerTask = Ok s' ∧ server_inv s' ∧ session_request s' = session_request s ∧
    to_machine s' = rest ∧ to_plugin s' = to_plugin s ++ [p] ∧ plugin s' = plugin s ∧
    active_request (machine s') = Some p ∧ queue (machine s') = q.
Proof.
  intros Hs Em Ht Hmid Hrec Hid Hstop Hq. pose proof Hs as [Hsm _]. cbn [server_step]. rewrite Em.
  destruct (server_task_step s m rest Hs Em) as (s' & E & Hs'). exists s'. split; [done|]. split; [done|].
  pose proof (mi_to_machine _ Hsm) as Hall. rewrite Em in Hall. apply Forall_cons in Hall as [(Hm & _) _].
  destruct (recog_complete_starts_next fresh uninit m c (machine s) (mi_machine _ Hsm) Hm (mi_on _ Hsm) Hrec Ht
    Hmid Hid Hstop) as (x & y & Eu & Ly & _ & Eq & _). rewrite Hq in Eu, Eq.
  destruct (update_traces fresh uninit m (machine s) (mi_on _ Hsm) _ x _ Eu) as [_ Htr].
  unfold update_trace in Htr. rewrite Ht in Htr.
  destruct Htr as [(? & _)|(y' & p' & _ & Eo & [_ Hp] & _)]; [done|]. injection Eo as _ Eo.
  assert (p' = Some p) as -> by (destruct p'; simpl in Eo; [by injection Eo as <-|done]).
  pose proof (mi_queue _ Hsm) as Hrq. rewrite Hq in Hrq. apply Forall_cons in Hrq as [(_ & Hreq & _) _].
  unfold mrcp_server_on_engine_channel_message, machine_update in E. cbn [machine] in E. rewrite Eu in E.
  cbn [mbind res_bind] in E. injection E as <-. cbn [foldl pending_actions head tail on_action set_machine].
  unfold state_machine_on_message_dispatch. rewrite Ly, Ht, Hreq. split_and!; try done. apply Hp.
Qed.

(** The response at the head of the queue is dropped: another request is the
    active one. *)
Lemma dropped_step s m (rest : list message) (p : message) :
  server_inv s → to_machine s = m :: rest → is_response m → active_request (machine s) = Some p →
  id_of p ≠ id_of m →
  ∃ s', step s ServerTask = Ok s' ∧ server_inv s' ∧ session_request s' = session_request s ∧
    to_machine s' = rest ∧ to_plugin s' = to_plugin s ∧ plugin s' = plugin s ∧
    queue (machine s') = queue (machine s).
Proof.
  intros Hs Em Ht Ha Hid. cbn [server_step]. rewrite Em.
  destruct (server_task_step s m rest Hs Em) as (s' & E & Hs'). exists s'. split; [done|]. split; [done|].
  unfold mrcp_server_on_engine_channel_message, machine_update in E. cbn [machine] in E.
  destruct (recog_state_update fresh uninit m (machine s)) as [[[b x] o]|] eqn:Eu; [|done].
  destruct (update_traces fresh uninit m (machine s) (mi_on _ (proj1 Hs)) b x o Eu) as [_ Htr].
  unfold update_trace in Htr. rewrite Ht in Htr. cbn [mbind res_bind] in E. injection E as <-.
  destruct Htr as [(-> & (_ & _ & Eq) & _)|(a & Ha' & Hid' & _)]; [by split_and!|].
  rewrite Ha in Ha'. by injection Ha' as <-.
Qed.

(** The completion and the response are both taken, and the response is lost. *)
Lemma overtaken_lost s m (ev r : message) (rest : list message) (c p : message) (q : list message) :
  server_inv s → session_request s = Some m → to_machine s = ev :: r :: rest →
  message_type (start_line ev) = MRCP_MESSAGE_TYPE_EVENT →
  method_id (start_line ev) = RECOGNIZER_RECOGNITION_COMPLETE → recog (machine s) = Some c → id_of c = id_of ev →
  method_id ∘ start_line <$> active_request (machine s) ≠ Some RECOGNIZER_STOP → queue (machine s) = p :: q →
  is_response r → id_of r = id_of m →
  ∃ s', run s [ServerTask; ServerTask] = Ok s' ∧ server_inv s' ∧ lost s' m.
Proof.
  intros Hs Hreq Em Ht Hmid Hrec Hid Hstop Hq Hr Hrid.
  pose proof (ti_once _ (proj2 Hs)) as Honce. unfold flight in Honce.
  rewrite Em, Hq, filter_cons_False, filter_cons_True in Honce by (done || unfold is_response; by rewrite Ht).
  destruct (completion_step s ev (r :: rest) c p q) as (s1 & E1 & Hs1 & Hreq1 & Em1 & Ep1 & Epl1 & Ha1 & Hq1); try done.
  set (rest' := to_plugin s ++ option_list (stop_response (plugin s)) ++ filter is_response rest ++ p :: q).
  assert (NoDup (id_of r :: (id_of <$> rest'))) as [Hni _]%NoDup_cons.
  { eapply submseteq_NoDup; [|exact Honce]. change (id_of r :: (id_of <$> rest')) with (id_of <$> r :: rest').
    apply fmap_submseteq. unfold rest'. rewrite <- !app_assoc. cbn [app]. solve_submseteq. }
  destruct (dropped_step s1 r rest p) as (s2 & E2 & Hs2 & Hreq2 & Em2 & Ep2 & Epl2 & Hq2); try done.
  { intros E. apply Hni. rewrite <- E. apply list_elem_of_fmap_2. unfold rest'. set_solver. }
  exists s2. split; [cbn [server_run]; by rewrite E1; cbn [mbind res_bind]; rewrite E2|]. split; [done|].
  split; [by rewrite Hreq2, Hreq1|]. rewrite <- Hrid. intros Hin. apply Hni. eapply elem_of_submseteq; [exact Hin|].
  apply fmap_submseteq. unfold flight, rest'. rewrite Ep2, Epl2, Em2, Hq2, Ep1, Epl1, Hq1, <- !app_assoc. cbn [app].
  solve_submseteq.
Qed.

(** C40: The response to a request can be lost, and then the client waits for
    ever.  Consider any state the recognizer channel can be in where the client
    waits for the response to a request, and the plugin has sent the server the
    RECOGNITION-COMPLETE of the recognition in progress and after it that
    response, while another recognition is pending and the request is not a
    STOP.  The server task takes the two messages: the first makes the pending
    recognition the active request, and the response, which is not for the
    active request any more, is dropped.  Whatever happens afterwards, until an
    event crashes the server, the session still processes the request. *)
Theorem response_lost (rvt : mrcp_header_vtable_t R) (v : mrcp_version_e) (garbage : bool) (e : engine addr)
  (before : list (server_event R)) s m (ev r : message) (rest : list message) (c p : message) (q : list message)
  (Hr : (Z.of_nat (field_count rvt) < 2 ^ 32)%Z) (He : session_inv e)
  (Hbefore : conforming (new_server rvt v garbage e) before) (Hs : run (new_server rvt v garbage e) before = Ok s)
  (Hwaits : session_request s = Some m) (Hmachine : to_machine s = ev :: r :: rest)
  (Hev : message_type (start_line ev) = MRCP_MESSAGE_TYPE_EVENT ∧
         method_id (start_line ev) = RECOGNIZER_RECOGNITION_COMPLETE)
  (Hrec : recog (machine s) = Some c) (Hid : id_of c = id_of ev)
  (Hstop : method_id ∘ start_line <$> active_request (machine s) ≠ Some RECOGNIZER_STOP)
  (Hqueue : queue (machine s) = p :: q) (Hresp : is_response r) (Hrid : id_of r = id_of m) :
  ∃ s', run s [ServerTask; ServerTask] = Ok s' ∧
    ∀ evs, conforming s' evs →
      ∃ done left s'', evs = done ++ left ∧ run s' done = Ok s'' ∧ session_request s'' = Some m ∧
        match left with [] => True | x :: _ => step s'' x = Fault ∧ crash s'' x end.
Proof.
  pose proof (conforming_inv before _ s (new_server_inv rvt v garbage e Hr He) Hbefore Hs) as Hinv.
  destruct (overtaken_lost s m ev r rest c p q) as (s' & E & Hinv' & Hl); try done; [apply Hev..|].
  exists s'. split; [done|]. intros evs Hevs.
  destruct (conforming_run (λ x, lost x m) evs s' (λ x y x', lost_step x y x' m) Hinv' Hl Hevs)
    as (done & left & s'' & ? & ? & _ & [? _] & ?). by exists done, left, s''.
Qed.

(** *** Checking a run *)

(** Whether the event can happen, as far as it can be computed. *)
Definition can_happen s (ev : server_event R) : bool :=
  match ev with
  | ClientRequest m => bool_decide (is_request m) && bool_decide (id_of m ∉ id_of <$> received s) &&
      match session_request s with None => true | Some _ => false end
  | AudioFrame a frame => is_ok (frame_level frame) &&
      match Ali_recog_stream_write fresh uninit json INTERMEDIATE (plugin s) (ali s) pCh mode a frame with
      | Ok (b, _, _, _) => b
      | Fault => true
      end
  | PoolThread i x => is_ok (engine_work (ali s) i x)
  | PluginTask _ | ServerTask | ServiceResult _ _ => true
  end.

Fixpoint can_run s (evs : list (server_event R)) : bool :=
  match evs with
  | [] => true
  | ev :: evs => can_happen s ev && match step s ev with Ok s' => can_run s' evs | Fault => false end
  end.

Lemma can_run_enabled (evs : list (server_event R)) s :
  Forall (λ ev, match ev with ClientRequest m => message_ok m | _ => True end) evs →
  can_run s evs = true → enabled_run s evs.
Proof.
  intros Hok. revert s. induction Hok as [|ev evs Hev Hok IH]; intros s Hc; [done|]. cbn [can_run] in Hc.
  apply andb_true_iff in Hc as [Hc Hr]. split.
  - destruct ev; cbn [can_happen enabled] in *; try done.
    + apply andb_true_iff in Hc as [[Ht%bool_decide_eq_true Hn%bool_decide_eq_true]%andb_true_iff Hi].
      by destruct (session_request s).
    + apply andb_true_iff in Hc as [Hl Hw]. split; [done|]. intros ch e out E. by rewrite E in Hw.
  - intros s' E. rewrite E in Hr. by apply IH.
Qed.

End Theory.

(** ** Concrete runs *)

(** The type, method or event and identifier of a message. *)
Definition view {R} (m : @mrcp_message_t R) : mrcp_message_type_e * nat * Z :=
  (message_type (start_line m), method_id (start_line m), request_id (start_line m)).

(** What the client got, what it waits for, and what is still under way. *)
Definition report {R} (r : res (server R)) :=
  match r with
  | Ok s => Some (view <$> to_client s, view <$> session_request s, view <$> to_plugin s ++ to_machine s,
                  view <$> stop_response (plugin s), view <$> queue (machine s))
  | Fault => None
  end.

Definition one_recognizer : server nat := new_server no_pair cause_vtable MRCP_VERSION_2 true one_channel.
Definition run_recognizer : server nat → list (server_event nat) → res (server nat) :=
  server_run no_pair 0 (λ s, s) 9 RECOGNIZER 1.

(** Two results of one recognition. *)
Definition two_answers : list (server_event nat) :=
  [ClientRequest (request_of RECOGNIZER_RECOGNIZE 1); PluginTask se_ok; ServerTask; PoolThread 0 granted;
   ServiceResult 7 (lit "yes"); ServiceResult 7 (lit "no"); AudioFrame 0 tone; ServerTask; AudioFrame 0 tone;
   ServerTask].

(** The client is told twice that its recognition is complete. *)
Theorem recognition_completed_twice :
  report (run_recognizer one_recognizer two_answers) =
  Some ([(MRCP_MESSAGE_TYPE_RESPONSE, RECOGNIZER_RECOGNIZE, 1%Z);
         (MRCP_MESSAGE_TYPE_EVENT, RECOGNIZER_RECOGNITION_COMPLETE, 1%Z);
         (MRCP_MESSAGE_TYPE_EVENT, RECOGNIZER_RECOGNITION_COMPLETE, 1%Z)], None, [], None, []).
Proof. vm_compute. reflexivity. Qed.

(** A recognition completes while the plugin starts the timers, and another one
    is pending. *)
Definition overtaken_response : list (server_event nat) :=
  [ClientRequest (request_of RECOGNIZER_RECOGNIZE 1); PluginTask se_ok; ServerTask;
   ClientRequest (request_of RECOGNIZER_RECOGNIZE 2); PoolThread 0 granted; ServiceResult 7 (lit "yes");
   ClientRequest (request_of RECOGNIZER_START_INPUT_TIMERS 3); AudioFrame 0 tone; PluginTask se_ok].

Lemma one_channel_inv : session_inv one_channel.
Proof.
  split; simpl.
  - split; simpl.
    + apply map_disjoint_empty_r.
    + intros k l [[<- <-]%lookup_singleton_Some|[]%lookup_empty_Some]. eexists. by split.
    + intros l c [<- <-]%lookup_singleton_Some. by left.
  - intros l c [<- <-]%lookup_singleton_Some. split_and!; by eauto.
  - apply NoDup_singleton.
  - intros re ->%list_elem_of_singleton. by eexists.
  - intros p s _ H. left. apply lookup_insert_Some in H as [[_ <-]|[_ H]]; [done|].
    by apply lookup_singleton_Some in H as [_ <-].
  - intros p q l r r' _ _ H. apply lookup_insert_Some in H as [[_ H]|[_ H]]; [done|].
    by apply lookup_singleton_Some in H as [_ H].
  - intros p q l r r' _ _ H. apply lookup_insert_Some in H as [[_ H]|[_ H]]; [done|].
    by apply lookup_singleton_Some in H as [_ H].
Qed.

Lemma one_recognizer_inv : server_inv 1 one_recognizer.
Proof. apply new_server_inv; [done|exact one_channel_inv]. Qed.

(** The events of [two_answers] and [overtaken_response] can happen. *)
Lemma runs_enabled :
  enabled_run no_pair 0 (λ s, s) 9 RECOGNIZER 1 one_recognizer two_answers ∧
  enabled_run no_pair 0 (λ s, s) 9 RECOGNIZER 1 one_recognizer overtaken_response.
Proof.
  split; (apply can_run_enabled; [repeat (constructor; [first [exact I|apply request_of_ok]|]); constructor|]);
    vm_compute; reflexivity.
Qed.

(** The server waits with the completion of the recognition in progress before
    the response, and another recognition pending. *)
Definition overtaking (s : server nat) : bool :=
  match session_request s, to_machine s, recog (machine s), queue (machine s) with
  | Some m, ev :: r :: _, Some c, _ :: _ =>
      bool_decide (message_type (start_line ev) = MRCP_MESSAGE_TYPE_EVENT) &&
      bool_decide (method_id (start_line ev) = RECOGNIZER_RECOGNITION_COMPLETE) && bool_decide (id_of c = id_of ev) &&
      bool_decide (method_id ∘ start_line <$> active_request (machine s) ≠ Some RECOGNIZER_STOP) &&
      bool_decide (is_response r) && bool_decide (id_of r = id_of m)
  | _, _, _, _ => false
  end.

(** ** Witnesses *)

Lemma server_answers_in_turn_witness :
  ∃ done rest s, two_answers = done ++ rest ∧ run_recognizer one_recognizer done = Ok s ∧
    key <$> received s = (key <$> filter is_response (to_client s)) ++ (key <$> option_list (session_request s)) ∧
    match rest with
    | [] => True
    | ev :: _ => server_step no_pair 0 (λ s, s) 9 RECOGNIZER 1 s ev = Fault ∧ crash s ev
    end.
Proof.
  apply (server_answers_in_turn no_pair 0 (λ s, s) 9 RECOGNIZER 1 cause_vtable MRCP_VERSION_2 true one_channel
    two_answers).
  - reflexivity.
  - exact one_channel_inv.
  - exact (enabled_conforming _ _ _ _ _ _ _ _ (proj1 runs_enabled)).
Defined.

Definition asked_stop : list (server_event nat) :=
  [ClientRequest (request_of RECOGNIZER_RECOGNIZE 1); PluginTask se_ok; ServerTask;
   ClientRequest (request_of RECOGNIZER_STOP 2)].

Lemma asked_stop_enabled :
  enabled_run no_pair 0 (λ s, s) 9 RECOGNIZER 1 one_recognizer asked_stop.
Proof.
  apply can_run_enabled; [repeat (constructor; [first [exact I|apply request_of_ok]|]); constructor|].
  vm_compute. reflexivity.
Qed.

Lemma server_answers_witness :
  ∃ s n s', run_recognizer one_recognizer asked_stop = Ok s ∧
    run_recognizer s (PluginTask se_ok :: AudioFrame 0 tone :: replicate n ServerTask) = Ok s' ∧
    received s' = received s ∧ key <$> received s' = key <$> filter is_response (to_client s').
Proof.
  apply (server_answers no_pair 0 (λ s, s) 9 RECOGNIZER 1 cause_vtable MRCP_VERSION_2 true one_channel
    asked_stop se_ok 0 tone).
  - reflexivity.
  - exact one_channel_inv.
  - exact asked_stop_enabled.
  - repeat (split; [first [exact I|split; [vm_compute; lia|intros _; discriminate]|split; [vm_compute; lia|discriminate]]|intros ? ?]).
    exact I.
  - reflexivity.
Defined.

Lemma response_lost_witness :
  ∃ s m s', server_run no_pair 0 (λ s, s) 9 RECOGNIZER 1 one_recognizer overtaken_response = Ok s ∧ session_request s = Some m ∧
    server_run no_pair 0 (λ s, s) 9 RECOGNIZER 1 s [ServerTask; ServerTask] = Ok s' ∧
    ∀ evs, conforming no_pair 0 (λ s, s) 9 RECOGNIZER 1 s' evs →
      ∃ done left s'', evs = done ++ left ∧ server_run no_pair 0 (λ s, s) 9 RECOGNIZER 1 s' done = Ok s'' ∧ session_request s'' = Some m ∧
        match left with
        | [] => True
        | x :: _ => server_step no_pair 0 (λ s, s) 9 RECOGNIZER 1 s'' x = Fault ∧ crash s'' x
        end.
Proof.
  assert (match server_run no_pair 0 (λ s, s) 9 RECOGNIZER 1 one_recognizer overtaken_response with
          | Ok s => overtaking s | Fault => false end = true) as Hok by (vm_compute; reflexivity).
  destruct (server_run no_pair 0 (λ s, s) 9 RECOGNIZER 1 one_recognizer overtaken_response) as [s|] eqn:E; [|discriminate Hok].
  unfold overtaking in Hok. destruct (session_request s) as [m|] eqn:Em; [|discriminate Hok].
  destruct (to_machine s) as [|ev [|r rest]] eqn:Et; [discriminate Hok..|].
  destruct (recog (machine s)) as [c|] eqn:Ec; [|discriminate Hok].
  destruct (queue (machine s)) as [|p q] eqn:Eq; [discriminate Hok|].
  apply andb_true_iff in Hok as [[[[[H1 H2]%andb_true_iff H3]%andb_true_iff H4]%andb_true_iff H5]%andb_true_iff H6].
  destruct (response_lost no_pair 0 (λ s, s) 9 RECOGNIZER 1 cause_vtable MRCP_VERSION_2 true one_channel
    overtaken_response s m ev r rest c p q) as (s' & E' & H').
  - reflexivity.
  - exact one_channel_inv.
  - exact (enabled_conforming _ _ _ _ _ _ _ _ (proj2 runs_enabled)).
  - exact E.
  - exact Em.
  - exact Et.
  - split; [exact (bool_decide_eq_true_1 _ H1)|exact (bool_decide_eq_true_1 _ H2)].
  - exact Ec.
  - exact (bool_decide_eq_true_1 _ H3).
  - exact (bool_decide_eq_true_1 _ H4).
  - exact Eq.
  - exact (bool_decide_eq_true_1 _ H5).
  - exact (bool_decide_eq_true_1 _ H6).
  - exists s, m, s'. split; [reflexivity|]. split; [exact Em|]. split; [exact E'|exact H'].
Defined.
